(* ===== verification/_CoqProject ===== *)
-Q . S2P
Prelude.v
Url.v
Float64.v
ErrorTypes.v
IpNet.v
Json.v
Codec.v
OpenRTB.v
JsonParser.v
Interstitial.v
NativeValidation.v
PriceGranularity.v
ExtRequest.v
ExtRoundtrip.v
ImplicitFields.v
Bidders.v
InfoBidder.v
Pubstack.v
Currency.v
Privacy.v
Ccpa.v
ConsentWriters.v
Gdpr.v
UserSync.v
SyncEndpoints.v
StoredRequests.v
StoredEvents.v
StoredBackends.v
StoredMerge.v
Auction.v
CacheClient.v
Targeting.v
Category.v
Bidder.v
Accounts.v
Events.v
AccountAccess.v
Vtrack.v
ImpSplit.v
ImpValidation.v
BidderRequests.v
RequestValidation.v
AuctionEndpoint.v
AmpRequest.v
SkanList.v
DspAdapters.v
Exchange.v
Response.v
AmpEndpoint.v
VideoRequest.v
VideoEndpoint.v
HoldAuction.v
Templates.v
ServerDefaults.v
ServerConfig.v
Syncers.v
