(* ===== verification/Prelude.v ===== *)
(** * Prebid Server: a verification development

    This library models the core of this repository's Prebid Server, a header
    bidding server: a publisher sends an OpenRTB auction request, the server
    turns it into one request per bidder, enforces the privacy policies on
    each, calls the bidders, chooses winners, caches and targets them and
    answers.  Definitions follow the Go code under [src/] function by function
    and keep its names; theorems say what the code promises.

    ** How the program is put together, and where each part is

    An auction goes through the files below in this order.

    - [OpenRTB], [ExtRequest], [Json]: the data.  [OpenRTB] has the request
      and bid records, [ExtRequest] the decoders and encoders of the extension
      objects ([openrtb_ext/request.go], [user.go], [regs.go]), [Json] the raw
      JSON values both are made of.
    - [BidderRequests] ([exchange/utils.go], [cleanOpenRTBRequests]): one
      request per bidder.  It uses [ImpSplit] for the imps, [Ccpa]
      ([privacy/ccpa]), [Gdpr] ([gdpr/], [exchange/gdpr.go]) and [Privacy]
      ([privacy/enforcement.go], [scrubber.go], [lmt], [util/iosutil]) for what
      must be removed, [Accounts] ([config/accounts.go]) for the account's
      switches.
    - [Exchange] ([getAllBids] and the readers of the request's settings) calls
      [Bidder] ([exchange/bidder.go], [bidder_validate_bids.go]) once per
      bidder; prices are converted with [Currency] ([currency/]).
    - [Category] ([applyCategoryMapping] and the deal tiers), [Events]
      ([exchange/events.go], [endpoints/events]), [Auction]
      ([exchange/auction.go]: winners, price rounding with [PriceGranularity],
      caching through [CacheClient], [prebid_cache_client/client.go]) and
      [Targeting] ([exchange/targeting.go]) work on the bids in turn.
    - [Response] builds the answer ([makeExtBidResponse], [buildBidResponse]),
      and [HoldAuction] composes all of the above as [exchange.HoldAuction].

    The auction endpoint ([endpoints/openrtb2/auction.go]) is in front of it:

    - [AuctionEndpoint] ([parseRequest], [Auction]) reads the body, merges
      stored data into it ([StoredMerge], [processStoredRequests]), decodes
      it, fills in what the HTTP request says ([ImplicitFields],
      [setFieldsImplicitly], with [IpNet] for [util/iputil], [util/httputil]
      and [config/requestvalidation.go], [Url] for referrers), sizes
      interstitials ([Interstitial], [interstitial.go]), applies the iOS
      tracking rules ([Privacy]) and validates: [RequestValidation]
      ([validateRequest]) over [ImpValidation] ([validateImp]) and
      [NativeValidation] ([validateAndFillNative]).  The account comes from
      [AccountAccess] ([account/account.go]).
    - The exchange is the class [AuctionEndpoint.Exchange] for the endpoint,
      stored-data fetchers are those of [StoredRequests], permissions are
      [Gdpr]'s; the JSON accessors are the class [JsonParser], the merge patch
      is [StoredMerge.JsonPatch].  Theorems about the endpoint hold for every
      instance; the witnesses use concrete ones.
    - [ConsentWriters] ([privacy/ccpa], [privacy/gdpr]) writes consent into a
      request.  [InfoBidder] ([adapters/infoawarebidder.go],
      [exchange/adapter_util.go], [config/bidderinfo.go]) builds the adapters
      an exchange runs and wraps each so that it only sees what it supports.
    - [DspAdapters] ([adapters/taurusx], [liftoff], [moloco], [molococloud],
      [crossinstall], [adapters/openrtb_util.go]) is five of those adapters:
      methods written once over the class [DspAdapters.Dsp] of the parts they
      differ in, with an instance for each.  The SKAdNetwork ids that taurusx
      may be told come from the refreshed lists of [SkanList]
      ([cache/skanidlist]).
    - Two other endpoints make a full request out of less and hold the same
      auction.  [AmpEndpoint] ([endpoints/openrtb2/amp_auction.go]) uses
      [AmpRequest] ([amp/parse.go], the overrides and the defaults) and
      answers with targeting; [VideoEndpoint] ([video_auction.go]) uses
      [VideoRequest] (validation, imps of the pods, ad pods of the answer) and
      keeps a debug log.
    - [SyncEndpoints] ([endpoints/cookie_sync.go], [setuid.go], [getuids.go])
      works on the cookie of [UserSync]; [Vtrack] ([endpoints/events/vtrack.go])
      puts VASTs into the cache with trackers of [Events].

    Before any of this, [ServerConfig] ([config/config.go],
    [stored_requests.go], [adapter.go]) validates the settings and derives what
    the parts above read of them, from the tables of [ServerDefaults]; its URL
    templates are those of [Templates] ([macros/]), the class of
    [text/template].  [Syncers] ([usersync/usersyncers], the adapters'
    [usersync.go]) makes of them the syncers that [SyncEndpoints] uses.

    Outside an auction, [UserSync] ([usersync/cookie.go]) keeps the ids a user
    has at each bidder, [StoredRequests] ([stored_requests/]) answers requests
    for stored data from caches kept fresh by events, which [StoredEvents]
    ([stored_requests/events]) produces, or from the back ends of
    [StoredBackends] ([stored_requests/backends]); [Currency] refreshes its
    rates, [Gdpr] its vendor lists, and [Pubstack] ([analytics/pubstack])
    collects events and sends them off in batches.

    Supporting files: this one (notations, machine integers, byte strings,
    folds and maps, automation), [Float64] (Go's [float64]), [ErrorTypes]
    ([errortypes/]), [Bidders] ([openrtb_ext/bidders.go]), [Url] ([net/url] and
    [strconv] as the program uses them), [Codec] (round trips of JSON encoders,
    used by [ExtRoundtrip] for the request extension).

    ** How Go is modelled

    - [int] is [Z] with the wrap-around of 64 bits written out where a sum can
      overflow ([Int64]); [float64] is the executable IEEE 754 binary64 of the
      Standard Library, so NaN, infinities and rounding are those of the
      program.
    - Strings are byte strings; maps are [gmap]s; a nil map is [None] where
      the code tells it from an empty one.
    - A pointer that only marks presence is an [option].  A pointer whose
      target is mutated while others hold it is an address into a store: bids
      ([OpenRTB.Store]) and the request's Source ([BidderRequests.Sources]).
    - An iteration over a map takes the order of the visits as an argument or
      a hypothesis [map_range]; theorems quantify over it.  Goroutines are
      steps that finish in an order that is an argument, or threads of a step
      relation ([StoredEvents], [SkanList], [Pubstack]).  A clock that is read
      more than once is a function of the number of readings.
    - A Go panic is [None] of an [option]; a Go error is a value of
      [ErrorTypes.error], next to the result or in a sum.
    - Code outside [src/] is a parameter, with its documented behaviour as a
      hypothesis where a theorem needs it: consent-string and vendor-list
      parsing, [jsonparser], [jsonpatch], currency code parsing, base64, the
      text of floats and times, the network, viper's reading of the settings.
      Adapters are parameters of the
      exchange; those of [DspAdapters] are run through it in its Examples.

    ** What the theorems show

    - A held auction is a checked one: [auction_endpoint_safe],
      [amp_endpoint_safe], [video_endpoint_safe], [validated_request_wf],
      [imp_validation], [native_validation], [stored_requests_merged],
      [client_address_public], [explicit_fields_kept],
      [interstitials_resized], [account_access], [auction_deadline]; on a
      server whose settings were checked: [config_validated],
      [defaults_accepted], and which still does not know the countries it is
      configured with: [eea_countries_not_applied]; what the
      smaller requests are turned into: [amp_defaults_on],
      [video_imps_created]; what is read back from an
      encoded extension: [ext_request_roundtrip].
    - Privacy and isolation: what each bidder is sent
      ([clean_requests_private], [split_imps_isolate], [eids_enforced],
      [schains_separate], [info_bidder_restricts], and, by five of the adapters,
      [dsp_requests_faithful]), what a policy removes
      ([enforcement_protects], [ccpa_decision], [ccpa_policy_roundtrip]), who
      is synced ([bidder_sync_requires_consent],
      [cookie_sync_respects_privacy], [setuid_requires_consent]) and that a sync
      ends at the family it began with ([default_syncs_come_home]).
    - The auction proper: who answers ([auction_answers_called_bidders],
      [all_bids_gathered], [active_bidders_have_adapters]), which bids survive
      and at which price ([validation_sound], [response_converted],
      [category_mapping_correct], [price_bucket_spec]), who wins
      ([newAuction_correct], [winners_order_independent]) and what is said
      about it ([setTargeting_correct], [doCache_ids_correct],
      [bid_response_correct], [video_bids_grouped], [event_url_roundtrip],
      [vtrack_correct]); what becomes of a bidder's answer ([dsp_bids_shared]).
    - State that outlives a request: the cookie ([cookie_invariant],
      [cookie_roundtrip], [eviction_terminates]), caches
      ([cached_fetch_transparent], [invalidation_effective]), what reaches
      them ([updates_reach_the_cache], a liveness property of fair runs of
      producer, channels and listener) and what they stand for
      ([backends_answer_from_tables], a refinement of "the rows of the
      tables"), rates ([rate_converter_refines], a refinement of "the rates of
      the last good fetch, unless too old"), lists of SKAdNetwork ids
      ([skan_cache_refines], a refinement of a machine that waits or makes one
      fetch, under any schedule of its callers) and batches of events
      ([pubstack_events_delivered]).

    Each file also has lemmas of its own worth reading, among them those that
    prove a defect: [schain_leaks_shared_source], [eviction_diverges],
    [listener_ignores_stop], [deal_winner_not_targeted],
    [disabled_bidder_survives], [huge_tmax_has_no_deadline],
    [mapped_private_address_passes], [bad_consent_drops_timeout],
    [overtaken_invalidation], [postgres_timeout_days],
    [database_down_is_not_found], [changed_is_not_quoted], [log_after_stop],
    [shared_bids_converted_twice], [currency_dropped],
    [region_without_endpoint], [capital_id_never_sent], [syncs_refused],
    [sonobi_sync], [cache_port_refused], [reserved_consent_cut],
    [negative_limit_drops_nothing], [site_cookie_over_limit].

    ** Bounds and fuel

    - The eviction loop of [UserSync] has no bound in the code: it is a fuelled
      fixpoint, one theorem gives the fuel that suffices (one pass per id)
      where every pass removes an id, another that no fuel suffices once the
      jar is empty and the header is still too long.
    - Event listening in [StoredRequests] consumes a finite list of events; a
      run in [StoredEvents] is an infinite sequence of states, and what is on
      its way has a weight that every step lowers.
    - The imps of a video pod are as many as the request asks for; the longest
      slice [make] allocates is the argument [maxAlloc] of [VideoRequest].
    - All other recursion is structural, on the lists the code iterates over;
      decimal printing and parsing use the Standard Library's numbers.

    ** Not modelled

    The bidder adapters under [adapters/] but those named above, more than a
    hundred translations between OpenRTB and a bidder's own format; the legacy auction endpoint and its cache
    client; reading the configuration through viper, the migration of old names
    of settings, and the YAML and schema files; the router, the server, metrics, the other analytics modules and
    telemetry, which are wiring and counters: calls to them are left out of
    the handlers, and so are contexts, except for the deadlines they carry;
    vendored libraries and the embedded certificates of [server/ssl]. *)

From Stdlib Require Export ssreflect.
From Stdlib Require Export ZArith Lia Ascii String.
From stdpp Require Export sorting.
From stdpp Require Export base list gmap strings pretty option.

Declare Scope go_scope.
Delimit Scope go_scope with go.

(** Go's [s + t] on strings. *)
Infix "⧺" := String.append (at level 60, right associativity) : go_scope.
Open Scope go_scope.
#[global] Arguments String.append : simpl nomatch.

(** ** Machine integers

    Go's [int] and [int64] are two's complement on 64 bits (amd64). *)
Module Int64.
Definition modulus : Z := (2 ^ 64)%Z.
Definition min_value : Z := (- 2 ^ 63)%Z.
Definition max_value : Z := (2 ^ 63 - 1)%Z.
Definition wrap (z : Z) : Z := ((z + 2 ^ 63) mod modulus - 2 ^ 63)%Z.
Definition in_range (z : Z) : bool := ((min_value <=? z) && (z <=? max_value))%Z.
Definition add (a b : Z) : Z := wrap (a + b).
Definition sub (a b : Z) : Z := wrap (a - b).

Lemma wrap_range z : (min_value <= wrap z <= max_value)%Z.
Proof.
  unfold wrap, min_value, max_value, modulus.
  pose proof (Z.mod_pos_bound (z + 2 ^ 63) (2 ^ 64) ltac:(lia)). lia.
Qed.

Lemma wrap_id z : in_range z = true -> wrap z = z.
Proof.
  unfold in_range, wrap, min_value, max_value, modulus. intros H.
  rw Z.mod_small; lia.
Qed.
End Int64.

(** ** Byte strings

    Go strings are byte strings; Rocq's [string] is one too.  Indices are
    [nat].  Only the operations the source uses are defined. *)
Module GoStr.
Definition len (s : string) : nat := String.length s.
Definition is_empty (s : string) : bool := match s with EmptyString => true | _ => false end.
Definition eqb (a b : string) : bool := String.eqb a b.

(** [s[:n]] and [s[n:]] for [n <= len s]. *)
Definition take (n : nat) (s : string) : string := String.substring 0 n s.
Fixpoint drop (n : nat) (s : string) : string :=
  match n, s with
  | O, _ => s
  | S n', String _ s' => drop n' s'
  | S _, EmptyString => EmptyString
  end.

(** [strings.LastIndex(s, c)] for a one-byte separator: [None] is -1. *)
Fixpoint last_index (c : Ascii.ascii) (s : string) : option nat :=
  match s with
  | EmptyString => None
  | String a s' =>
      match last_index c s' with
      | Some i => Some (S i)
      | None => if Ascii.eqb a c then Some 0 else None
      end
  end.

Fixpoint contains_byte (c : Ascii.ascii) (s : string) : bool :=
  match s with
  | EmptyString => false
  | String a s' => Ascii.eqb a c || contains_byte c s'
  end.

(** [strings.Split(s, c)] for a one-byte separator. *)
Fixpoint split (c : Ascii.ascii) (s : string) : list string :=
  match s with
  | EmptyString => [""%string]
  | String a s' =>
      if Ascii.eqb a c then (""%string :: split c s')
      else match split c s' with
           | [] => [String a EmptyString]
           | h :: t => String a h :: t
           end
  end.

(** [strings.SplitAfterN(s, c, 2)]: the part up to and including the first
    separator, and the rest; the whole string when there is none. *)
Fixpoint split_after_first (c : Ascii.ascii) (s : string) : string * option string :=
  match s with
  | EmptyString => (""%string, None)
  | String a s' =>
      if Ascii.eqb a c then (String a EmptyString, Some s')
      else let '(h, t) := split_after_first c s' in (String a h, t)
  end.

Fixpoint has_prefix (p s : string) : bool :=
  match p, s with
  | EmptyString, _ => true
  | String a p', String b s' => Ascii.eqb a b && has_prefix p' s'
  | String _ _, EmptyString => false
  end.

Definition has_suffix (s suf : string) : bool :=
  if (len suf <=? len s)%nat then eqb (drop (len s - len suf) s) suf else false.

Definition trim_prefix (s p : string) : string :=
  if has_prefix p s then drop (len p) s else s.

Fixpoint join (sep : string) (l : list string) : string :=
  match l with
  | [] => ""%string
  | [x] => x
  | x :: rest => x ⧺ sep ⧺ join sep rest
  end.

(** Upper-casing of ASCII letters, with the two non-ASCII runes whose upper
    case is an ASCII letter (U+0131 to I, U+017F to S); all other bytes are
    kept, so comparing the result with an ASCII constant is exact. *)
Definition byte_upper (a : Ascii.ascii) : Ascii.ascii :=
  let n := Ascii.nat_of_ascii a in
  if ((97 <=? n) && (n <=? 122))%nat then Ascii.ascii_of_nat (n - 32) else a.
Definition byte_lower (a : Ascii.ascii) : Ascii.ascii :=
  let n := Ascii.nat_of_ascii a in
  if ((65 <=? n) && (n <=? 90))%nat then Ascii.ascii_of_nat (n + 32) else a.

Fixpoint to_upper (s : string) : string :=
  match s with
  | EmptyString => EmptyString
  | String a s' =>
      match Ascii.nat_of_ascii a, s' with
      | 196%nat, String b s'' =>
          if (Ascii.nat_of_ascii b =? 177)%nat then String "I"%char (to_upper s'')
          else String a (to_upper s')
      | 197%nat, String b s'' =>
          if (Ascii.nat_of_ascii b =? 191)%nat then String "S"%char (to_upper s'')
          else String a (to_upper s')
      | _, _ => String (byte_upper a) (to_upper s')
      end
  end.

(** The canonical form under Unicode simple folding, exact on strings that
    fold to ASCII: ASCII letters to lower case, U+017F to s, U+212A to k. *)
Fixpoint fold (s : string) : string :=
  match s with
  | EmptyString => EmptyString
  | String a s' =>
      match Ascii.nat_of_ascii a, s' with
      | 197%nat, String b s'' =>
          if (Ascii.nat_of_ascii b =? 191)%nat then String "s"%char (fold s'')
          else String a (fold s')
      | 226%nat, String b (String c s'') =>
          if ((Ascii.nat_of_ascii b =? 132) && (Ascii.nat_of_ascii c =? 170))%nat
          then String "k"%char (fold s'')
          else String a (fold s')
      | _, _ => String (byte_lower a) (fold s')
      end
  end.
Definition equal_fold (a b : string) : bool := eqb (fold a) (fold b).

(** [strconv.Itoa] and [strconv.FormatInt(_, 10)]. *)
Definition itoa (z : Z) : string := pretty z.

(** [strconv.Atoi]: an optional sign and decimal digits within int64. *)
Definition digit_val (a : Ascii.ascii) : option Z :=
  let n := Ascii.nat_of_ascii a in
  if ((48 <=? n) && (n <=? 57))%nat then Some (Z.of_nat n - 48)%Z else None.
Fixpoint digits_val (acc : Z) (s : string) : option Z :=
  match s with
  | EmptyString => Some acc
  | String a s' =>
      match digit_val a with
      | Some d => digits_val (10 * acc + d)%Z s'
      | None => None
      end
  end.
Definition unsigned_val (s : string) : option Z :=
  match s with EmptyString => None | _ => digits_val 0 s end.
Definition atoi (s : string) : option Z :=
  let v := match s with
           | String "-" s' => Z.opp <$> unsigned_val s'
           | String "+" s' => unsigned_val s'
           | _ => unsigned_val s
           end in
  match v with
  | Some z => if Int64.in_range z then Some z else None
  | None => None
  end.

(** A one-character string holding a double quote. *)
Definition dq : string := String (Ascii.ascii_of_nat 34) EmptyString.
Definition quoted (s : string) : string := dq ⧺ s ⧺ dq.
End GoStr.

(** ** Lemmas on byte strings *)
Section GoStrFacts.
Implicit Types s t u : string.

Lemma str_app_nil_r s : s ⧺ "" = s.
Proof. induction s as [|a s IH]; [done|]. simpl. by rw IH. Qed.

Lemma str_app_assoc s t u : (s ⧺ t) ⧺ u = s ⧺ t ⧺ u.
Proof. induction s as [|a s IH]; [done|]. simpl. by rw IH. Qed.

Lemma str_len_app s t : GoStr.len (s ⧺ t) = GoStr.len s + GoStr.len t.
Proof. unfold GoStr.len. induction s as [|a s IH]; [done|]. simpl. by rw IH. Qed.

Lemma str_app_inj_l s t u : s ⧺ t = s ⧺ u -> t = u.
Proof. induction s as [|a s IH]; [done|]. simpl. intros [=]. by apply IH. Qed.

Lemma take_app_exact s t : GoStr.take (GoStr.len s) (s ⧺ t) = s.
Proof.
  unfold GoStr.take, GoStr.len. induction s as [|a s IH]; simpl.
  - by destruct t.
  - by rw IH.
Qed.

Lemma take_len n s : GoStr.len (GoStr.take n s) = Nat.min n (GoStr.len s).
Proof.
  unfold GoStr.take, GoStr.len. revert n.
  induction s as [|a s IH]; intros [|n]; simpl; auto.
Qed.

Lemma take_all n s : GoStr.len s <= n -> GoStr.take n s = s.
Proof.
  unfold GoStr.take, GoStr.len. revert n.
  induction s as [|a s IH]; intros [|n] H; simpl in *; auto; try lia.
  rw IH //. lia.
Qed.

Lemma contains_byte_app c s t :
  GoStr.contains_byte c (s ⧺ t) = GoStr.contains_byte c s || GoStr.contains_byte c t.
Proof. induction s as [|a s IH]; [done|]. simpl. by rw IH orb_assoc. Qed.

Lemma split_none c s : GoStr.contains_byte c s = false -> GoStr.split c s = [s].
Proof. induction s as [|a s IH]; [done|]. simpl. destruct (Ascii.eqb a c); [done|]. intros H. by rw IH. Qed.
(** A string without the separator is the first part of what it starts. *)
Lemma split_app c s t : GoStr.contains_byte c s = false -> GoStr.split c (s ⧺ String c t) = s :: GoStr.split c t.
Proof.
  induction s as [|a s IH]; simpl; [by rw Ascii.eqb_refl|]. destruct (Ascii.eqb a c); [done|]. intros H. by rw IH.
Qed.
Lemma last_index_None c s :
  GoStr.last_index c s = None <-> GoStr.contains_byte c s = false.
Proof.
  induction s as [|a s IH]; simpl; [done|].
  destruct (GoStr.last_index c s) as [i|], (Ascii.eqb a c); simpl;
    split; try done; intros H; first [by apply IH in H | by apply IH].
Qed.

Lemma last_index_app c s t :
  GoStr.contains_byte c t = false ->
  GoStr.last_index c (s ⧺ String c t) = Some (GoStr.len s).
Proof.
  intros Ht%last_index_None. unfold GoStr.len.
  induction s as [|a s IH]; simpl.
  - by rw Ht Ascii.eqb_refl.
  - by rw IH.
Qed.

(** Every string with a separator splits at its last one. *)
Lemma last_index_Some c s i :
  GoStr.last_index c s = Some i ->
  exists t, s = GoStr.take i s ⧺ String c t /\ GoStr.contains_byte c t = false.
Proof.
  unfold GoStr.take. revert i. induction s as [|a s IH]; intros i; simpl; [done|].
  destruct (GoStr.last_index c s) as [j|] eqn:E.
  - intros [= <-]. destruct (IH j eq_refl) as (t & Hs & Ht).
    exists t. split; [|done]. simpl. by f_equal.
  - destruct (Ascii.eqb_spec a c) as [->|]; [|done]. intros [= <-].
    exists s. split; [by destruct s|]. by apply last_index_None.
Qed.

Lemma eqb_eq s t : GoStr.eqb s t = true <-> s = t.
Proof. apply String.eqb_eq. Qed.

Lemma eqb_refl s : GoStr.eqb s s = true.
Proof. apply String.eqb_refl. Qed.

Lemma eqb_neq s t : GoStr.eqb s t = false <-> s <> t.
Proof. apply String.eqb_neq. Qed.

Lemma eqb_spec s t : reflect (s = t) (GoStr.eqb s t).
Proof. apply String.eqb_spec. Qed.

Lemma is_empty_true s : GoStr.is_empty s = true <-> s = ""%string.
Proof. by destruct s. Qed.

Lemma is_empty_false s : GoStr.is_empty s = false <-> s <> ""%string.
Proof. by destruct s. Qed.
End GoStrFacts.

(** ** Iterating over a Go map

    [for k, v := range m] visits every entry once, in an order the language
    leaves open.  The loops below take the visited entries as a list, and the
    theorems quantify over all the lists that are such an order. *)
Definition map_range {K A} `{Countable K} (m : gmap K A) (l : list (K * A)) : Prop :=
  l ≡ₚ map_to_list m.

Section MapRange.
Context {K A : Type} `{Countable K}.
Implicit Types (m : gmap K A) (l : list (K * A)).

Lemma map_range_self m : map_range m (map_to_list m).
Proof. rw /map_range. done. Qed.

Lemma map_range_elem m l k a : map_range m l -> (k, a) ∈ l <-> m !! k = Some a.
Proof. rw /map_range. intros ->. apply elem_of_map_to_list. Qed.

Lemma map_range_nodup m l : map_range m l -> NoDup l.*1.
Proof. rw /map_range. intros ->. apply NoDup_fst_map_to_list. Qed.

Lemma map_range_filter m l (f : K * A -> bool) kept :
  map_range m l ->
  (forall b, kept !! b = match m !! b with Some v => if f (b, v) then Some v else None | None => None end) ->
  map_range kept (List.filter f l).
Proof.
  intros Hl Hk. apply NoDup_Permutation.
  - apply NoDup_ListNoDup, List.NoDup_filter, NoDup_ListNoDup. by eapply NoDup_fmap_1, map_range_nodup.
  - apply NoDup_map_to_list.
  - intros [b v]. rw elem_of_map_to_list Hk list_elem_of_In List.filter_In -list_elem_of_In (map_range_elem m l) //.
    split; [by intros [-> ->]|]. destruct (m !! b) as [x|]; [|done]. destruct (f (b, x)) eqn:E; [|done]. by intros [= ->].
Qed.

Lemma map_range_to_map m l : map_range m l -> list_to_map l = m.
Proof.
  intros Hl. rw -(list_to_map_to_list m).
  apply list_to_map_proper; [by eapply map_range_nodup|done].
Qed.
End MapRange.

(** ** The running best of a loop

    [pick] is the update of a loop that keeps the best element seen so far and
    replaces it only by a strictly better one. *)
Section Pick.
Context {A : Type} (better : A -> A -> bool).

Definition pick (acc : option A) (x : A) : option A :=
  match acc with
  | None => Some x
  | Some w => if better x w then Some x else Some w
  end.
Definition pick_all (l : list A) : option A := fold_left pick l None.

Hypothesis better_trans : forall x y z, better x y = true -> better y z = true -> better x z = true.
Hypothesis better_irrefl : forall x, better x x = false.

Lemma pick_fold_spec l w0 :
  exists w, fold_left pick l (Some w0) = Some w /\ (w = w0 \/ w ∈ l) /\
    (w = w0 \/ better w w0 = true) /\ better w0 w = false /\
    (forall x, x ∈ l -> better x w = false).
Proof.
  revert w0. induction l as [|a l IH]; intros w0; simpl.
  - exists w0. split; [done|]. split; [by left|]. split; [by left|].
    split; [done|]. intros x Hx. by apply elem_of_nil in Hx.
  - assert (Hnt : forall x y z, better x y = false -> better z y = true ->
                  better x z = false).
    { intros x y z Hxy Hzy. destruct (better x z) eqn:E; [|done].
      by rw (better_trans _ _ _ E Hzy) in Hxy. }
    destruct (better a w0) eqn:Ha.
    + destruct (IH a) as (w & Hf & Hin & Hbw & Haw & Hl). exists w.
      assert (better w w0 = true) as Hww0.
      { destruct Hbw as [->|Hbw]; eauto. }
      split; [done|]. split; [set_solver|]. split; [by right|].
      split.
      { destruct (better w0 w) eqn:E; [|done].
        by rw -(better_irrefl w) (better_trans _ _ _ Hww0 E). }
      intros x [->|Hx]%elem_of_cons; [done|by apply Hl].
    + destruct (IH w0) as (w & Hf & Hin & Hbw & H0w & Hl). exists w.
      split; [done|]. split; [set_solver|]. split; [done|]. split; [done|].
      intros x [->|Hx]%elem_of_cons; [|by apply Hl].
      destruct Hbw as [->|Hbw]; [done|]. by eapply Hnt.
Qed.

(** The kept element is one of the list and nothing in the list beats it. *)
Lemma pick_all_spec l :
  match pick_all l with
  | None => l = []
  | Some w => w ∈ l /\ forall x, x ∈ l -> better x w = false
  end.
Proof.
  destruct l as [|a l]; [done|]. unfold pick_all. simpl.
  destruct (pick_fold_spec l a) as (w & -> & Hin & _ & Haw & Hl).
  split; [set_solver|]. intros x [->|Hx]%elem_of_cons; auto.
Qed.

Lemma pick_all_snoc l x : pick_all (l ++ [x]) = pick (pick_all l) x.
Proof. unfold pick_all. by rw fold_left_app. Qed.
End Pick.

(** The best of a list is the best of every part of the list it lies in, when
    not being better is transitive on the list. *)
Lemma pick_all_filter {A} (better : A -> A -> bool) (P : A -> bool) l w :
  (forall x y z, better x y = true -> better y z = true -> better x z = true) ->
  (forall x, better x x = false) ->
  (forall x y z, x ∈ l -> y ∈ l -> z ∈ l -> better x y = false -> better y z = false -> better x z = false) ->
  pick_all better l = Some w -> P w = true -> pick_all better (List.filter P l) = Some w.
Proof.
  intros Htr Hirr. revert w. induction l as [|x l IH] using rev_ind; intros w Hneg; [done|].
  rw pick_all_snoc List.filter_app /=. pose proof (pick_all_spec better Htr Hirr l) as Hspec.
  assert (forall y, y ∈ l -> y ∈ l ++ [x]) as Hl by (intros; apply elem_of_app; by left).
  assert (x ∈ l ++ [x]) as Hx by (apply elem_of_app; right; by apply list_elem_of_singleton).
  destruct (pick_all better l) as [w0|] eqn:E; simpl.
  - destruct (better x w0) eqn:Eb; intros [= <-] HP.
    + rw HP pick_all_snoc. pose proof (pick_all_spec better Htr Hirr (List.filter P l)) as Hf.
      destruct (pick_all better (List.filter P l)) as [r|]; [|done]. destruct Hf as [Hr _].
      apply list_elem_of_In, List.filter_In in Hr as [Hr%list_elem_of_In _].
      simpl. destruct (better x r) eqn:Er; [done|]. destruct Hspec as [Hw0 Hmax].
      assert (better x w0 = false) by (apply (Hneg x r w0); auto). congruence.
    + assert (pick_all better (List.filter P l) = Some w0) as Hf
        by (apply IH; [intros x' y' z' ???; apply Hneg; auto|done|done]).
      destruct (P x); [|by rw app_nil_r]. by rw pick_all_snoc Hf /= Eb.
  - subst l. intros [= <-] HP. by rw HP.
Qed.

Lemma pick_all_map {A B} (f : A -> B) (better : B -> B -> bool) l :
  pick_all better (map f l) = f <$> pick_all (fun x y => better (f x) (f y)) l.
Proof.
  induction l as [|x l IH] using rev_ind; [done|].
  rw map_app /= !pick_all_snoc IH. destruct (pick_all _ l) as [w|]; [|done]. simpl. by destruct (better _ _).
Qed.

(** ** Loops that may panic

    A loop over a list whose body returns [None] when Go panics. *)
Fixpoint foldM {A B} (f : B -> A -> option B) (l : list A) (acc : B) : option B :=
  match l with
  | [] => Some acc
  | x :: rest => match f acc x with
                 | Some acc' => foldM f rest acc'
                 | None => None
                 end
  end.

Section FoldM.
Context {A B : Type} (f : B -> A -> option B).

Lemma foldM_app l1 l2 acc :
  foldM f (l1 ++ l2) acc = match foldM f l1 acc with Some a => foldM f l2 a | None => None end.
Proof.
  revert acc. induction l1 as [|x l1 IH]; intros acc; simpl; [done|]. by destruct (f acc x).
Qed.

(** A loop whose body never panics is a fold. *)
Lemma foldM_pure (g : B -> A -> B) l acc :
  (forall b x, x ∈ l -> f b x = Some (g b x)) -> foldM f l acc = Some (fold_left g l acc).
Proof.
  revert acc. induction l as [|x l IH]; intros acc Hf; simpl; [done|].
  assert (f acc x = Some (g acc x)) as -> by (apply Hf; set_solver).
  apply IH. intros b y Hy. apply Hf. set_solver.
Qed.

(** An invariant of the body is an invariant of the loop. *)
Lemma foldM_inv (P : B -> Prop) l acc acc' :
  P acc -> (forall b x b', x ∈ l -> P b -> f b x = Some b' -> P b') ->
  foldM f l acc = Some acc' -> P acc'.
Proof.
  revert acc. induction l as [|x l IH]; intros acc HP Hf; simpl; [by intros [= <-]|].
  destruct (f acc x) as [b|] eqn:E; [|done]. apply IH.
  - eapply (Hf acc x); [set_solver|done|done].
  - intros b0 y b0' Hy. apply Hf. set_solver.
Qed.
End FoldM.

(** A nested loop is a loop over the flattened list. *)
Lemma foldM_concat {A B C} (f : B -> A -> option B) (g : C -> list A) (l : list C) acc :
  foldM (fun b c => foldM f (g c) b) l acc = foldM f (concat (g <$> l)) acc.
Proof.
  revert acc. induction l as [|c l IH]; intros acc; simpl; [done|]. rw foldM_app.
  by destruct (foldM f (g c) acc).
Qed.

(** Deleting a list of keys. *)
Lemma fold_delete_lookup {A} (names : list string) (m : gmap string A) b :
  fold_left (fun m b => delete b m) names m !! b = if bool_decide (b ∈ names) then None else m !! b.
Proof.
  revert m. induction names as [|n names IH]; intros m; cbn [fold_left]; [done|]. rw IH.
  destruct (decide (b = n)) as [->|Hne].
  - rw lookup_delete_eq. case_bool_decide; rw (bool_decide_eq_true_2 (n ∈ n :: names)) //; apply list_elem_of_here.
  - rw lookup_delete_ne //. do 2 case_bool_decide; try done; set_solver.
Qed.
