(* ===== verification/Url.v ===== *)
(** * URLs and query strings

    What the program uses of [net/url] and [strconv]: [url.QueryEscape],
    [url.QueryUnescape], [url.Values.Encode], [url.ParseQuery] and
    [Values.Get], as Go 1.16 defines them (ampersand and semicolon both
    separate), with the lemmas that decoding undoes encoding and that
    [strconv.Atoi] undoes [strconv.Itoa]; and [url.Parse], of which the
    program reads the host. *)

From S2P Require Import Prelude.

(** ** Decimal text *)
Section Decimal.
Lemma digit_char_val x : (x < 10)%N -> GoStr.digit_val (pretty_N_char x) = Some (Z.of_N x).
Proof.
  intros Hx. assert (x = 0 \/ x = 1 \/ x = 2 \/ x = 3 \/ x = 4 \/ x = 5 \/ x = 6 \/ x = 7 \/ x = 8 \/ x = 9)%N
    as Hc by lia. by repeat (destruct Hc as [->|Hc]; [done|]); subst x.
Qed.

(** Reading the digits of [x] scales the accumulator and adds [x]. *)
Lemma digits_val_pretty x s : exists k, (1 <= k)%Z /\
  forall acc, GoStr.digits_val acc (pretty_N_go x s) = GoStr.digits_val (acc * k + Z.of_N x) s.
Proof.
  revert s. induction (N.lt_wf_0 x) as [x _ IH]. intros s.
  destruct (decide (x = 0%N)) as [->|Hne].
  { exists 1%Z. split; [lia|]. intros acc. rw pretty_N_go_0. f_equal. lia. }
  destruct (IH (x `div` 10)%N (N.div_lt x 10 ltac:(lia) ltac:(lia)) (String (pretty_N_char (x `mod` 10)) s))
    as (k & Hk & Hacc).
  exists (10 * k)%Z. split; [lia|]. intros acc.
  assert (0 < x)%N as Hpos by lia. rw (pretty_N_go_step x s Hpos) Hacc. cbn [GoStr.digits_val].
  rw digit_char_val; [by apply N.mod_lt|]. f_equal.
  assert (acc * (10 * k) = 10 * (acc * k))%Z as -> by ring. pose proof (N.div_mod x 10 ltac:(lia)). lia.
Qed.

(** The text of a positive number starts with a digit that is not 0. *)
Lemma pretty_N_lead x s : (0 < x)%N ->
  exists a r d, pretty_N_go x s = String a r /\ GoStr.digit_val a = Some d /\ (0 < d)%Z.
Proof.
  revert s. induction (N.lt_wf_0 x) as [x _ IH]. intros s Hx. rw (pretty_N_go_step x s Hx).
  assert (x `mod` 10 < 10)%N as Hm by by apply N.mod_lt.
  destruct (decide (x `div` 10 = 0)%N) as [Hd|Hd].
  - rw Hd pretty_N_go_0. exists (pretty_N_char (x `mod` 10)), s, (Z.of_N (x `mod` 10)). rw digit_char_val; [done|].
    pose proof (N.div_mod x 10 ltac:(lia)). repeat split; lia.
  - apply IH; [by apply (N.div_lt x 10)|]. by apply N.neq_0_lt_0.
Qed.
Lemma pretty_N_first x s : (0 < x)%N ->
  exists a r, pretty_N_go x s = String a r /\ GoStr.digit_val a <> None.
Proof. intros Hx. destruct (pretty_N_lead x s Hx) as (a & r & d & E & Hd & _). exists a, r. by rw Hd. Qed.

(** It has digits only. *)
Lemma pretty_N_bytes x s c : GoStr.digit_val c = None ->
  GoStr.contains_byte c (pretty_N_go x s) = GoStr.contains_byte c s.
Proof.
  intros Hc. revert s. induction (N.lt_wf_0 x) as [x _ IH]. intros s.
  destruct (decide (x = 0%N)) as [->|Hne]; [by rw pretty_N_go_0|].
  assert (x `mod` 10 < 10)%N as Hm by by apply N.mod_lt.
  rw (pretty_N_go_step x s ltac:(lia)) IH; [by apply N.div_lt; lia|]. cbn [GoStr.contains_byte].
  destruct (Ascii.eqb_spec (pretty_N_char (x `mod` 10)) c) as [<-|_]; [|done]. by rw digit_char_val in Hc.
Qed.
Lemma itoa_bytes z c : (0 <= z)%Z -> GoStr.digit_val c = None -> GoStr.contains_byte c (GoStr.itoa z) = false.
Proof.
  intros Hz Hc. destruct z as [|p|p]; [|by apply (pretty_N_bytes (Npos p) "" c)|lia].
  unfold GoStr.itoa. change (pretty 0%Z) with "0"%string. cbn [GoStr.contains_byte].
  destruct (Ascii.eqb_spec "0" c) as [<-|_]; [by vm_compute in Hc|done].
Qed.

Lemma unsigned_val_pretty x : (0 < x)%N -> GoStr.unsigned_val (pretty_N_go x "") = Some (Z.of_N x).
Proof.
  intros Hx. destruct (digits_val_pretty x "") as (k & _ & Hacc).
  destruct (pretty_N_first x "" Hx) as (a & r & E & _). rw /GoStr.unsigned_val E -E Hacc. by rw Z.mul_0_l Z.add_0_l.
Qed.

Lemma atoi_itoa z : Int64.in_range z = true -> GoStr.atoi (GoStr.itoa z) = Some z.
Proof.
  intros Hr. rw /GoStr.atoi /GoStr.itoa. destruct z as [|p|p]; [done| |].
  - change (pretty (Zpos p)) with (pretty_N_go (Npos p) "").
    pose proof (unsigned_val_pretty (Npos p) ltac:(lia)) as Hu.
    destruct (pretty_N_first (Npos p) "" ltac:(lia)) as (a & r & E & Ha). rw E. rw E in Hu.
    assert ((match String a r with
             | String "-" s' => Z.opp <$> GoStr.unsigned_val s'
             | String "+" s' => GoStr.unsigned_val s'
             | _ => GoStr.unsigned_val (String a r)
             end) = GoStr.unsigned_val (String a r)) as ->.
    { destruct a as [[] [] [] [] [] [] [] []]; try done; exfalso; by apply Ha. }
    by rw Hu /= Hr.
  - change (pretty (Zneg p)) with (String "-" (pretty_N_go (Npos p) "")).
    pose proof (unsigned_val_pretty (Npos p) ltac:(lia)) as Hu. cbv iota. rw Hu /=. by rw Hr.
Qed.
End Decimal.

(** ** Escaping *)
Definition hex_digit (n : nat) : Ascii.ascii :=
  if (n <? 10)%nat then Ascii.ascii_of_nat (48 + n) else Ascii.ascii_of_nat (55 + n).
Definition unhex (a : Ascii.ascii) : option nat :=
  let n := Ascii.nat_of_ascii a in
  if ((48 <=? n) && (n <=? 57))%nat then Some (n - 48)
  else if ((97 <=? n) && (n <=? 102))%nat then Some (n - 87)
  else if ((65 <=? n) && (n <=? 70))%nat then Some (n - 55)
  else None.

(** The bytes that stand for themselves: letters, digits and [-_.~]. *)
Definition unreserved (a : Ascii.ascii) : bool :=
  let n := Ascii.nat_of_ascii a in
  ((48 <=? n) && (n <=? 57))%nat || ((65 <=? n) && (n <=? 90))%nat || ((97 <=? n) && (n <=? 122))%nat ||
  Ascii.eqb a "-" || Ascii.eqb a "_" || Ascii.eqb a "." || Ascii.eqb a "~".

Fixpoint QueryEscape (s : string) : string :=
  match s with
  | EmptyString => EmptyString
  | String a s' =>
      if unreserved a then String a (QueryEscape s')
      else if Ascii.eqb a " " then String "+" (QueryEscape s')
      else let n := Ascii.nat_of_ascii a in
           String "%" (String (hex_digit (n / 16)) (String (hex_digit (n mod 16)) (QueryEscape s')))
  end.

(** The host and the path of a [url.URL] keep more bytes and never use plus. *)
Fixpoint escape_except (plain : Ascii.ascii -> bool) (s : string) : string :=
  match s with
  | EmptyString => EmptyString
  | String a s' =>
      if plain a then String a (escape_except plain s')
      else let n := Ascii.nat_of_ascii a in
           String "%" (String (hex_digit (n / 16)) (String (hex_digit (n mod 16)) (escape_except plain s')))
  end.
Fixpoint all_bytes (P : Ascii.ascii -> bool) (s : string) : bool :=
  match s with EmptyString => true | String a s' => P a && all_bytes P s' end.
Definition one_of (l : string) (a : Ascii.ascii) : bool := GoStr.contains_byte a l.
Definition path_escape (path : string) : string :=
  if GoStr.eqb path "*" then path else escape_except (fun a => unreserved a || one_of "$&+,/:;=@" a) path.
Definition host_escape (host : string) : string :=
  escape_except (fun a => unreserved a || one_of ("!$&'()*+,;=:[]<>" ⧺ GoStr.dq) a) host.

(** [None] is an invalid escape. *)
Fixpoint QueryUnescape (s : string) : option string :=
  match s with
  | EmptyString => Some EmptyString
  | String "%" (String h (String l s')) =>
      match unhex h, unhex l, QueryUnescape s' with
      | Some h, Some l, Some r => Some (String (Ascii.ascii_of_nat (16 * h + l)) r)
      | _, _, _ => None
      end
  | String "%" _ => None
  | String "+" s' => String " " <$> QueryUnescape s'
  | String a s' => String a <$> QueryUnescape s'
  end.

(** ** Query strings *)
Definition Values : Type := list (string * string).

(** [Values.Encode] for the values in the order of their keys. *)
Definition pair_text (kv : string * string) : string := QueryEscape kv.1 ⧺ "=" ⧺ QueryEscape kv.2.
Definition val_le (p q : string * string) : Prop := String.leb p.1 q.1 = true.
#[export] Instance val_le_dec : RelDecision val_le.
Proof. intros p q. unfold val_le. apply _. Defined.
Definition Encode (v : Values) : string := GoStr.join "&" (pair_text <$> merge_sort val_le v).

Definition is_separator (a : Ascii.ascii) : bool := Ascii.eqb a "&" || Ascii.eqb a ";".
Fixpoint split_query (s : string) : list string :=
  match s with
  | EmptyString => [""%string]
  | String a s' =>
      if is_separator a then ""%string :: split_query s'
      else match split_query s' with
           | [] => [String a EmptyString]
           | h :: t => String a h :: t
           end
  end.
Fixpoint cut_eq (s : string) : string * string :=
  match s with
  | EmptyString => (""%string, ""%string)
  | String "=" s' => (""%string, s')
  | String a s' => let '(k, v) := cut_eq s' in (String a k, v)
  end.
Definition parse_pair (piece : string) : option (string * string) :=
  if GoStr.is_empty piece then None
  else let '(k, v) := cut_eq piece in
       match QueryUnescape k, QueryUnescape v with
       | Some k, Some v => Some (k, v)
       | _, _ => None
       end.
(** [URL.Query]: pairs that do not parse are left out. *)
Definition ParseQuery (s : string) : Values := omap parse_pair (split_query s).
Fixpoint Get (v : Values) (key : string) : string :=
  match v with
  | [] => ""
  | (k, x) :: rest => if GoStr.eqb k key then x else Get rest key
  end.

(** ** [url.Parse], the host *)

(** [split(s, c, true)]: around the first [c]; no [c], an empty rest. *)
Fixpoint cut_at (c : Ascii.ascii) (s : string) : string * string :=
  match s with
  | EmptyString => (EmptyString, EmptyString)
  | String a s' => if Ascii.eqb a c then (EmptyString, s') else let '(x, y) := cut_at c s' in (String a x, y)
  end.
Fixpoint index_byte (c : Ascii.ascii) (s : string) : option nat :=
  match s with
  | EmptyString => None
  | String a s' => if Ascii.eqb a c then Some 0%nat else S <$> index_byte c s'
  end.
Fixpoint index_text (p s : string) : option nat :=
  if GoStr.has_prefix p s then Some 0%nat
  else match s with EmptyString => None | String _ s' => S <$> index_text p s' end.
Definition between (lo hi : nat) (a : Ascii.ascii) : bool :=
  let n := Ascii.nat_of_ascii a in ((lo <=? n) && (n <=? hi))%nat.
Definition is_letter (a : Ascii.ascii) : bool := between 65 90 a || between 97 122 a.
Definition is_digit (a : Ascii.ascii) : bool := between 48 57 a.

Inductive scheme_result := NoScheme | BadScheme | Scheme (scheme rest : string).
(** [getscheme]; [first] is [i == 0]. *)
Fixpoint getscheme (first : bool) (s : string) : scheme_result :=
  match s with
  | EmptyString => NoScheme
  | String a s' =>
      let next := match getscheme false s' with Scheme x rest => Scheme (String a x) rest | r => r end in
      if is_letter a then next
      else if is_digit a || one_of "+-." a then if first then NoScheme else next
      else if Ascii.eqb a ":" then if first then BadScheme else Scheme EmptyString s'
      else NoScheme
  end.

Inductive encoding := encodeHost | encodeZone | encodeOther.
#[export] Instance encoding_eq_dec : EqDecision encoding.
Proof. solve_decision. Defined.
(** [shouldEscape] for a host or zone. *)
Definition host_plain (a : Ascii.ascii) : bool := unreserved a || one_of ("!$&'()*+,;=:[]<>" ⧺ GoStr.dq) a.
(** [unescape]: the well-formed escapes are decoded. *)
Fixpoint unescape (mode : encoding) (s : string) : option string :=
  match s with
  | EmptyString => Some EmptyString
  | String a s' =>
      if Ascii.eqb a "%" then
        match s' with
        | String h (String l s'') =>
            match unhex h, unhex l with
            | Some x, Some y =>
                let v := (16 * x + y)%nat in
                let ok := match mode with
                          | encodeHost => negb (x <? 8)%nat || (v =? 37)%nat
                          | encodeZone => (v =? 37)%nat || (v =? 32)%nat || host_plain (Ascii.ascii_of_nat v)
                          | encodeOther => true
                          end in
                if ok then String (Ascii.ascii_of_nat v) <$> unescape mode s'' else None
            | _, _ => None
            end
        | _ => None
        end
      else
        if negb (bool_decide (mode = encodeOther)) && (Ascii.nat_of_ascii a <? 128)%nat && negb (host_plain a) then None
        else String a <$> unescape mode s'
  end.
Definition validOptionalPort (port : string) : bool :=
  match port with EmptyString => true | String a s => Ascii.eqb a ":" && all_bytes is_digit s end.
Definition validUserinfo (s : string) : bool :=
  all_bytes (fun a => is_letter a || is_digit a || one_of "-._:~!$&'()*+,;=%@" a) s.

Definition parseHost (host : string) : option string :=
  if GoStr.has_prefix "[" host then
    match GoStr.last_index "]" host with
    | None => None
    | Some i =>
        if negb (validOptionalPort (GoStr.drop (i + 1) host)) then None
        else match index_text "%25" (GoStr.take i host) with
             | Some zone =>
                 match unescape encodeHost (GoStr.take zone host),
                       unescape encodeZone (GoStr.drop zone (GoStr.take i host)),
                       unescape encodeHost (GoStr.drop i host) with
                 | Some host1, Some host2, Some host3 => Some (host1 ⧺ host2 ⧺ host3)
                 | _, _, _ => None
                 end
             | None => unescape encodeHost host
             end
    end
  else
    match GoStr.last_index ":" host with
    | Some i => if validOptionalPort (GoStr.drop i host) then unescape encodeHost host else None
    | None => unescape encodeHost host
    end.
Definition parseAuthority (authority : string) : option string :=
  match GoStr.last_index "@" authority with
  | None => parseHost authority
  | Some i =>
      let userinfo := GoStr.take i authority in
      match parseHost (GoStr.drop (i + 1) authority) with
      | None => None
      | Some host =>
          if negb (validUserinfo userinfo) then None
          else let '(username, password) := cut_at ":" userinfo in
               match unescape encodeOther username, unescape encodeOther password with
               | Some _, Some _ => Some host
               | _, _ => None
               end
      end
  end.
(** [url.Parse(s)], its [Host] and its [Path]; an error is [None]. *)
Definition parse_rest (scheme rest : string) : option (string * string) :=
  let rest := fst (cut_at "?" rest) in
  let set_path (path host : string) := pair host <$> unescape encodeOther path in
  if negb (GoStr.has_prefix "/" rest) && negb (GoStr.is_empty scheme) then Some (""%string, ""%string)
  else if negb (GoStr.has_prefix "/" rest) &&
          match index_byte ":" rest, index_byte "/" rest with
          | Some colon, Some slash => (colon <? slash)%nat
          | Some _, None => true
          | None, _ => false
          end then None
  else if (negb (GoStr.is_empty scheme) || negb (GoStr.has_prefix "///" rest)) && GoStr.has_prefix "//" rest then
    let rest := GoStr.drop 2 rest in
    let n := default (GoStr.len rest) (index_byte "/" rest) in
    match parseAuthority (GoStr.take n rest) with
    | None => None
    | Some host => set_path (GoStr.drop n rest) host
    end
  else set_path rest ""%string.
Definition Parse (rawurl : string) : option (string * string) :=
  let '(u, frag) := cut_at "#" rawurl in
  let parsed :=
    if negb (all_bytes (fun a => negb (between 0 31 a || between 127 127 a)) u) then None
    else if GoStr.eqb u "*" then Some (""%string, "*"%string)
    else match getscheme true u with
         | BadScheme => None
         | NoScheme => parse_rest "" u
         | Scheme scheme rest => parse_rest scheme rest
         end in
  match parsed, unescape encodeOther frag with
  | Some url, Some _ => Some url
  | _, _ => None
  end.
Definition Parse_Host (rawurl : string) : option string := fst <$> Parse rawurl.

Example parse_host_examples :
  Parse_Host "https://user:pw@www.example.com:8080/a/b?q=1#f" = Some "www.example.com:8080"%string /\
  Parse_Host "//[fe80::1%25en0]:80/" = Some "[fe80::1%en0]:80"%string /\
  Parse_Host "mailto:someone@example.com" = Some ""%string /\ Parse_Host "http://a b/" = None /\
  Parse_Host "foo:bar/baz" = Some ""%string /\ Parse_Host "1a:b" = None /\ Parse_Host "http://x:abc/" = None.
Proof. by vm_compute. Qed.

(** ** Facts *)

(** The bytes an escaped text is made of. *)
Definition escaped_byte (a : Ascii.ascii) : bool := unreserved a || Ascii.eqb a "+" || Ascii.eqb a "%".

Lemma has_prefix_iff p s : GoStr.has_prefix p s = true <-> exists rest, s = p ⧺ rest.
Proof.
  revert s. induction p as [|a p IH]; intros s; cbn; [by split; [exists s|]|].
  destruct s as [|b s]; [by split; [|intros [? [=]]]|]. rw andb_true_iff IH. split.
  - intros [->%Ascii.eqb_eq [rest ->]]. by exists rest.
  - intros [rest [= -> ->]]. split; [by apply Ascii.eqb_eq|by exists rest].
Qed.
Lemma index_text_iff p s : is_Some (index_text p s) <-> exists before rest, s = before ⧺ p ⧺ rest.
Proof.
  induction s as [|a s IH]; cbn [index_text].
  - destruct (GoStr.has_prefix p "") eqn:E.
    + apply has_prefix_iff in E as [rest E]. split; [|by eexists]. intros _. by exists ""%string, rest.
    + split; [by intros [? ?]|]. intros ([|] & rest & Hs); [|done]. apply not_true_iff_false in E. destruct E.
      apply has_prefix_iff. by exists rest.
  - destruct (GoStr.has_prefix p (String a s)) eqn:E.
    + apply has_prefix_iff in E as [rest E]. split; [|by eexists]. intros _. by exists ""%string, rest.
    + rw fmap_is_Some IH. split.
      * intros (before & rest & ->). by exists (String a before), rest.
      * intros ([|b before] & rest & Hs); [|injection Hs as -> ->; by exists before, rest]. apply not_true_iff_false in E. destruct E.
        apply has_prefix_iff. by exists rest.
Qed.
Lemma index_text_first p s i : index_text p s = Some i ->
  exists before rest, s = before ⧺ p ⧺ rest /\ GoStr.len before = i /\
    forall before' rest', s = before' ⧺ p ⧺ rest' -> i <= GoStr.len before'.
Proof.
  revert i. induction s as [|a s IH]; intros i; cbn [index_text].
  - destruct (GoStr.has_prefix p "") eqn:E; [|done]. intros [= <-]. apply has_prefix_iff in E as [rest E].
    exists ""%string, rest. split_and!; [done|done|lia].
  - destruct (GoStr.has_prefix p (String a s)) eqn:E.
    + intros [= <-]. apply has_prefix_iff in E as [rest E]. exists ""%string, rest. split_and!; [done|done|lia].
    + destruct (index_text p s) as [j|]; [|done]. intros [= <-]. destruct (IH j eq_refl) as (before & rest & -> & <- & Hmin).
      exists (String a before), rest. split_and!; [done|done|]. intros [|b before'] rest' Hs.
      * apply not_true_iff_false in E. destruct E. apply has_prefix_iff. by exists rest'.
      * injection Hs as -> Hs. apply Hmin in Hs. cbn. unfold GoStr.len in *. lia.
Qed.
Lemma drop_app_exact s t : GoStr.drop (GoStr.len s) (s ⧺ t) = t.
Proof. by induction s. Qed.
Lemma all_bytes_app P s t : all_bytes P (s ⧺ t) = all_bytes P s && all_bytes P t.
Proof. induction s as [|a s IH]; [done|]. by rw /= IH andb_assoc. Qed.
Lemma all_bytes_impl (P Q : Ascii.ascii -> bool) s :
  (forall a, P a = true -> Q a = true) -> all_bytes P s = true -> all_bytes Q s = true.
Proof.
  intros HPQ. induction s as [|a s IH]; [done|]. cbn. rw !andb_true_iff. intros [Ha Hs]. split; auto.
Qed.

Lemma forall_ascii (P : Ascii.ascii -> bool) :
  forallb (fun n => P (Ascii.ascii_of_nat n)) (seq 0 256) = true -> forall a, P a = true.
Proof.
  rw forallb_forall. intros H a. rw -(Ascii.ascii_nat_embedding a). apply H. apply in_seq.
  pose proof (Ascii.nat_ascii_bounded a). lia.
Qed.

Lemma escape_bytes s : all_bytes escaped_byte (QueryEscape s) = true.
Proof.
  induction s as [|a s IH]; [done|]. cbn [QueryEscape]. set (n := Ascii.nat_of_ascii a).
  assert (escaped_byte (hex_digit (n / 16)) && escaped_byte (hex_digit (n mod 16)) = true) as Hhex.
  { revert a n. refine (forall_ascii (fun a => let n := Ascii.nat_of_ascii a in
      escaped_byte (hex_digit (n / 16)) && escaped_byte (hex_digit (n mod 16))) _). by vm_compute. }
  apply andb_true_iff in Hhex as [H1 H2].
  destruct (unreserved a) eqn:Eu; [by rw /= /escaped_byte Eu IH|]. destruct (Ascii.eqb a " "); cbn [all_bytes].
  - by rw IH.
  - by rw H1 H2 IH.
Qed.

Lemma unescape_escape s : QueryUnescape (QueryEscape s) = Some s.
Proof.
  induction s as [|a s IH]; [done|]. cbn [QueryEscape].
  destruct (unreserved a) eqn:Eu.
  - assert (QueryUnescape (String a (QueryEscape s)) = String a <$> QueryUnescape (QueryEscape s)) as ->.
    { destruct a as [[] [] [] [] [] [] [] []]; try done. }
    by rw IH.
  - destruct (Ascii.eqb_spec a " ") as [->|Hsp]; [by rw /= IH|].
    set (n := Ascii.nat_of_ascii a). cbn [QueryUnescape]. rw IH.
    assert (forall b, match unhex (hex_digit (Ascii.nat_of_ascii b / 16)), unhex (hex_digit (Ascii.nat_of_ascii b mod 16)) with
      | Some h, Some l => Ascii.eqb (Ascii.ascii_of_nat (16 * h + l)) b
      | _, _ => false
      end = true) as Hhex by (apply forall_ascii; by vm_compute).
    specialize (Hhex a). fold n in Hhex. destruct (unhex (hex_digit (n / 16))) as [h|]; [|done].
    destruct (unhex (hex_digit (n mod 16))) as [l|]; [|done]. apply Ascii.eqb_eq in Hhex. by rw Hhex.
Qed.

(** Text without separators is one piece; pieces joined by ampersands are
    split again. *)
Lemma split_query_one s : all_bytes (fun a => negb (is_separator a)) s = true -> split_query s = [s].
Proof.
  induction s as [|a s IH]; [done|]. cbn. intros [Ha Hs]%andb_true_iff. apply negb_true_iff in Ha.
  by rw Ha IH.
Qed.

Lemma split_query_cons s t : all_bytes (fun a => negb (is_separator a)) s = true ->
  split_query (s ⧺ String "&" t) = s :: split_query t.
Proof.
  induction s as [|a s IH]; [done|]. cbn. intros [Ha Hs]%andb_true_iff. apply negb_true_iff in Ha.
  by rw Ha IH.
Qed.

Lemma split_query_join l : l <> [] -> Forall (fun s => all_bytes (fun a => negb (is_separator a)) s = true) l ->
  split_query (GoStr.join "&" l) = l.
Proof.
  intros Hne Hall. induction Hall as [|s l Hs Hl IH]; [done|]. destruct l as [|t l]; [by apply split_query_one|].
  change (GoStr.join "&" (s :: t :: l)) with (s ⧺ String "&" (GoStr.join "&" (t :: l))).
  by rw (split_query_cons _ _ Hs) IH.
Qed.

Lemma cut_eq_app k v : all_bytes (fun a => negb (Ascii.eqb a "=")) k = true -> cut_eq (k ⧺ String "=" v) = (k, v).
Proof.
  induction k as [|a k IH]; [done|]. cbn [all_bytes String.append]. intros [Ha Hk]%andb_true_iff.
  assert (cut_eq (String a (k ⧺ String "=" v)) = let '(k, v) := cut_eq (k ⧺ String "=" v) in (String a k, v)) as ->.
  { destruct a as [[] [] [] [] [] [] [] []]; done. }
  by rw IH.
Qed.

Lemma parse_pair_text k v : k <> ""%string -> parse_pair (QueryEscape k ⧺ "=" ⧺ QueryEscape v) = Some (k, v).
Proof.
  intros Hk. rw /parse_pair.
  assert (GoStr.is_empty (QueryEscape k ⧺ "=" ⧺ QueryEscape v) = false) as -> by by destruct (QueryEscape k).
  change ("=" ⧺ QueryEscape v) with (String "=" (QueryEscape v)).
  rw cut_eq_app.
  { eapply all_bytes_impl; [|apply escape_bytes]. intros b Hb. assert (implb (escaped_byte b) (negb (Ascii.eqb b "=")) = true) as Hi
      by (revert b Hb; refine (fun b _ => forall_ascii (fun b => implb (escaped_byte b) (negb (Ascii.eqb b "="))) _ b); by vm_compute).
    by rw Hb in Hi. }
  by rw !unescape_escape.
Qed.

Lemma escape_no_separator s : all_bytes (fun a => negb (is_separator a)) (QueryEscape s) = true.
Proof.
  eapply all_bytes_impl; [|apply escape_bytes]. intros b Hb.
  assert (implb (escaped_byte b) (negb (is_separator b)) = true) as Hi
    by (revert b Hb; refine (fun b _ => forall_ascii (fun b => implb (escaped_byte b) (negb (is_separator b))) _ b); by vm_compute).
  by rw Hb in Hi.
Qed.

Lemma pair_text_no_separator kv : all_bytes (fun a => negb (is_separator a)) (pair_text kv) = true.
Proof. by rw /pair_text !all_bytes_app !escape_no_separator. Qed.

(** Text that escapes to itself. *)
Lemma escape_unreserved s : all_bytes unreserved s = true -> QueryEscape s = s.
Proof. induction s as [|a s IH]; [done|]. cbn. intros [Ha Hs]%andb_true_iff. by rw Ha IH. Qed.

(** Pairs that are each the text of a pair parse to themselves. *)
Lemma ParseQuery_join kvs : kvs <> [] -> Forall (fun kv : string * string => kv.1 <> ""%string) kvs ->
  ParseQuery (GoStr.join "&" (pair_text <$> kvs)) = kvs.
Proof.
  intros Hne Hk. rw /ParseQuery split_query_join; [by destruct kvs|..].
  - apply list.Forall_fmap, list.Forall_true. intros kv. apply pair_text_no_separator.
  - clear Hne. induction Hk as [|[k v] kvs Hkv _ IH]; [done|]. cbn [fmap list_fmap omap list_omap].
    rw {1}/pair_text (parse_pair_text k v Hkv). by rw -[in RHS]IH.
Qed.
