(* ===== verification/Float64.v ===== *)
(** * Go's [float64]

    Prices, rates and coordinates are [float64] values.  They are modelled by
    the Standard Library's executable IEEE 754 specification ([SpecFloat]) at
    binary64 with round to nearest even, which is what Go computes on amd64,
    so comparisons with NaN, overflow to infinity and rounding behave as in
    the program.  This file has the arithmetic the source uses, [math.Floor],
    the conversions between [float64] and [int], [strconv.FormatFloat] with
    format 'f' and [strconv.ParseFloat] on decimal text, and the order lemmas
    the auction relies on. *)

From Stdlib Require Import SpecFloat.
From S2P Require Import Prelude.

Create HintDb float.

Abbreviation float64 := spec_float.

Module F64.
Definition prec : Z := 53%Z.
Definition emax : Z := 1024%Z.

Definition add (x y : float64) : float64 := SFadd prec emax x y.
Definition mul (x y : float64) : float64 := SFmul prec emax x y.
Definition div (x y : float64) : float64 := SFdiv prec emax x y.
Definition eqb (x y : float64) : bool := SFeqb x y.
Definition ltb (x y : float64) : bool := SFltb x y.
Definition leb (x y : float64) : bool := SFleb x y.
Definition gtb (x y : float64) : bool := ltb y x.
Definition geb (x y : float64) : bool := leb y x.
Definition nan : float64 := S754_nan.
Definition inf : float64 := S754_infinity false.
Definition zero : float64 := S754_zero false.
Definition is_nan (x : float64) : bool := match x with S754_nan => true | _ => false end.

Definition is_finite (x : float64) : bool :=
  match x with S754_zero _ | S754_finite _ _ _ => true | _ => false end.

(** [float64(z)] for an integer [z]. *)
Definition of_Z (z : Z) : float64 := binary_normalize prec emax z 0 false.

(** The float nearest to [n / d]: the value of a decimal constant. *)
Definition of_ratio (n : Z) (d : positive) : float64 :=
  match n with
  | Z0 => S754_zero false
  | Zpos p =>
      let '(mz, ez, lz) := SFdiv_core_binary prec emax (Zpos p) 0 (Zpos d) 0 in
      binary_round_aux prec emax false mz ez lz
  | Zneg p =>
      let '(mz, ez, lz) := SFdiv_core_binary prec emax (Zpos p) 0 (Zpos d) 0 in
      binary_round_aux prec emax true mz ez lz
  end.

Definition signed (s : bool) (m : positive) : Z := if s then Zneg m else Zpos m.

(** [math.Floor]. *)
Definition floor (x : float64) : float64 :=
  match x with
  | S754_finite s m e =>
      if (0 <=? e)%Z then x
      else let q := (signed s m / 2 ^ (- e))%Z in
           if (q =? 0)%Z then S754_zero s else of_Z q
  | _ => x
  end.

(** [int(x)]: truncation toward zero.  Go leaves the result open when it is
    not representable; amd64 gives the smallest integer. *)
Definition to_int (x : float64) : Z :=
  match x with
  | S754_zero _ => 0%Z
  | S754_finite s m e =>
      let z := if (0 <=? e)%Z then (signed s m * 2 ^ e)%Z
               else Z.quot (signed s m) (2 ^ (- e)) in
      if Int64.in_range z then z else Int64.min_value
  | _ => Int64.min_value
  end.

(** Division of non-negative integers rounded to the nearest, ties to even. *)
Definition div_half_even (n d : Z) : Z :=
  let q := (n / d)%Z in
  let r := (n mod d)%Z in
  match (2 * r ?= d)%Z with
  | Lt => q
  | Gt => (q + 1)%Z
  | Eq => if Z.even q then q else (q + 1)%Z
  end.

(** Left-pads with zeros to [n] digits. *)
Definition pad_zeros (n : nat) (s : string) : string :=
  Nat.iter (n - GoStr.len s) (String "0") s.

(** The digits of [q / 10 ^ precision] in positional notation. *)
Definition fixed_digits (q : Z) (precision : nat) : string :=
  let ds := pad_zeros (S precision) (pretty q) in
  let int_len := (GoStr.len ds - precision)%nat in
  match precision with
  | O => ds
  | _ => GoStr.take int_len ds ⧺ "." ⧺ GoStr.drop int_len ds
  end.

Definition sign_str (s : bool) : string := if s then "-" else "".

(** [strconv.FormatFloat(x, 'f', precision, 64)], [0 <= precision]. *)
Definition format_f (x : float64) (precision : nat) : string :=
  match x with
  | S754_nan => "NaN"
  | S754_infinity s => if s then "-Inf" else "+Inf"
  | S754_zero s => sign_str s ⧺ fixed_digits 0 precision
  | S754_finite s m e =>
      let scale := (10 ^ Z.of_nat precision)%Z in
      let q := if (0 <=? e)%Z then (Zpos m * 2 ^ e * scale)%Z
               else div_half_even (Zpos m * scale) (2 ^ (- e)) in
      sign_str s ⧺ fixed_digits q precision
  end.

(** Splits decimal text into its integer and fractional digits. *)
Fixpoint split_point (s : string) : string * option string :=
  match s with
  | EmptyString => (""%string, None)
  | String "." s' => (""%string, Some s')
  | String a s' => let '(i, f) := split_point s' in (String a i, f)
  end.

(** Splits decimal text at its exponent mark. *)
Fixpoint split_exp (s : string) : string * option string :=
  match s with
  | EmptyString => (""%string, None)
  | String "e" s' | String "E" s' => (""%string, Some s')
  | String a s' => let '(i, f) := split_exp s' in (String a i, f)
  end.

Definition parse_exp (s : option string) : option Z :=
  match s with
  | None => Some 0%Z
  | Some (String "-" s') => Z.opp <$> GoStr.unsigned_val s'
  | Some (String "+" s') => GoStr.unsigned_val s'
  | Some s' => GoStr.unsigned_val s'
  end.

(** Unsigned decimal text as [v * 10 ^ k]. *)
Definition parse_unsigned (s : string) : option (Z * Z) :=
  let '(m, x) := split_exp s in
  let '(i, f) := split_point m in
  let frac := default ""%string f in
  if GoStr.is_empty i && GoStr.is_empty frac then None
  else match GoStr.digits_val 0 (i ⧺ frac), parse_exp x with
       | Some v, Some ex => Some (v, ex - Z.of_nat (GoStr.len frac))%Z
       | _, _ => None
       end.

(** The float nearest to [v * 10 ^ k]. *)
Definition of_decimal (v k : Z) : float64 :=
  if (0 <=? k)%Z then of_Z (v * 10 ^ k) else of_ratio v (Z.to_pos (10 ^ (- k))).

(** [strconv.ParseFloat(s, 64)] on decimal text, infinities and NaN (the
    hexadecimal spellings are not modelled).  A value beyond the largest
    float is a range error. *)
Definition parse_float (s : string) : option float64 :=
  let '(neg, body) := match s with
                      | String "-" s' => (true, s')
                      | String "+" s' => (false, s')
                      | _ => (false, s)
                      end in
  if GoStr.equal_fold s "nan" then Some nan
  else if GoStr.equal_fold body "inf" || GoStr.equal_fold body "infinity"
  then Some (S754_infinity neg)
  else
    match parse_unsigned body with
    | None => None
    | Some (v, k) =>
        match of_decimal v k with
        | S754_infinity _ => None
        | S754_finite _ m e => Some (S754_finite neg m e)
        | _ => Some (S754_zero neg)
        end
    end.
End F64.

(** ** The order of floats

    [rank] maps every float that is not NaN to a triple of integers whose
    lexicographic order is the order of [SFcompare]; the comparison lemmas
    then are integer arithmetic. *)
Definition rank (x : float64) : option (Z * Z * Z) :=
  match x with
  | S754_nan => None
  | S754_infinity true => Some (-2, 0, 0)%Z
  | S754_finite true m e => Some (-1, - e, - Zpos m)%Z
  | S754_zero _ => Some (0, 0, 0)%Z
  | S754_finite false m e => Some (1, e, Zpos m)%Z
  | S754_infinity false => Some (2, 0, 0)%Z
  end.

Definition lex_lt (a b : Z * Z * Z) : Prop :=
  let '(a1, a2, a3) := a in
  let '(b1, b2, b3) := b in
  (a1 < b1 \/ (a1 = b1 /\ (a2 < b2 \/ (a2 = b2 /\ a3 < b3))))%Z.

Section FloatOrder.
Implicit Types x y z : float64.

Lemma compare_rank x y :
  match rank x, rank y with
  | Some a, Some b =>
      match SFcompare x y with
      | Some Lt => lex_lt a b
      | Some Gt => lex_lt b a
      | Some Eq => a = b
      | None => False
      end
  | _, _ => SFcompare x y = None
  end.
Proof.
  destruct x as [sx|sx| |sx mx ex], y as [sy|sy| |sy my ey];
    try destruct sx; try destruct sy; simpl; try done; try lia.
  all: destruct (Z.compare_spec ex ey); simpl; try lia.
  all: rw -/(Pos.compare mx my); destruct (Pos.compare_spec mx my);
    simpl; subst; try done; lia.
Qed.

Lemma ltb_rank x y :
  F64.ltb x y = true <->
  exists a b, rank x = Some a /\ rank y = Some b /\ lex_lt a b.
Proof.
  rw /F64.ltb /SFltb. pose proof (compare_rank x y) as H.
  destruct (rank x) as [a|], (rank y) as [b|]; rw ?H; try by naive_solver.
  destruct (SFcompare x y) as [[]|]; split; try done; try by naive_solver.
  - intros (? & ? & [= <-] & [= <-] & Hl). subst b. exfalso.
    destruct a as [[a1 a2] a3]. simpl in Hl. lia.
  - intros (? & ? & [= <-] & [= <-] & Hl). exfalso.
    destruct a as [[a1 a2] a3], b as [[b1 b2] b3]. simpl in *. lia.
Qed.

Lemma ltb_irrefl x : F64.ltb x x = false.
Proof.
  destruct (F64.ltb x x) eqn:E; [|done].
  apply ltb_rank in E as (a & b & Ha & Hb & Hl). rw Ha in Hb. injection Hb as <-.
  destruct a as [[a1 a2] a3]. simpl in Hl. lia.
Qed.

Lemma ltb_trans x y z : F64.ltb x y = true -> F64.ltb y z = true -> F64.ltb x z = true.
Proof.
  rw !ltb_rank. intros (a & b & Ha & Hb & Hab) (b' & c & Hb' & Hc & Hbc).
  exists a, c. split; [done|]. split; [done|]. rw Hb in Hb'. injection Hb' as <-.
  destruct a as [[a1 a2] a3], b as [[b1 b2] b3], c as [[c1 c2] c3]. simpl in *. lia.
Qed.

(** Two floats neither of which is NaN are comparable. *)
Lemma ltb_total x y :
  F64.is_nan x = false -> F64.is_nan y = false ->
  F64.ltb x y = true \/ F64.ltb y x = true \/ F64.eqb x y = true.
Proof.
  intros Hx Hy. pose proof (compare_rank x y) as H.
  assert (exists a, rank x = Some a) as [a Ha] by (destruct x as [?|[]| |[]]; eauto; done).
  assert (exists b, rank y = Some b) as [b Hb] by (destruct y as [?|[]| |[]]; eauto; done).
  rw Ha Hb in H. rw !ltb_rank /F64.eqb /SFeqb.
  destruct (SFcompare x y) as [[]|]; naive_solver.
Qed.

Lemma ltb_not_nan x y : F64.ltb x y = true -> F64.is_nan x = false /\ F64.is_nan y = false.
Proof. intros (a & b & Ha & Hb & _)%ltb_rank. by destruct x, y. Qed.

Lemma leb_ltb x y : F64.is_nan x = false -> F64.is_nan y = false ->
  F64.leb x y = negb (F64.ltb y x).
Proof.
  intros Hx Hy. rw /F64.leb /SFleb /F64.ltb /SFltb.
  pose proof (compare_rank x y) as H1. pose proof (compare_rank y x) as H2.
  assert (exists a, rank x = Some a) as [a Ha] by (destruct x as [?|[]| |[]]; eauto; done).
  assert (exists b, rank y = Some b) as [b Hb] by (destruct y as [?|[]| |[]]; eauto; done).
  rw Ha Hb in H1. rw Ha Hb in H2. destruct a as [[a1 a2] a3], b as [[b1 b2] b3].
  destruct (SFcompare x y) as [[]|], (SFcompare y x) as [[]|]; try done;
    simplify_eq; simpl in *; try lia.
Qed.

Lemma eqb_refl_num x : F64.is_nan x = false -> F64.eqb x x = true.
Proof.
  intros Hx. rw /F64.eqb /SFeqb. pose proof (compare_rank x x) as H.
  destruct (rank x) as [[[a1 a2] a3]|] eqn:E; [|by destruct x as [?|[]| |[]]].
  destruct (SFcompare x x) as [[]|]; try done; simpl in H; lia.
Qed.

(** Equal floats compare alike. *)
Lemma eqb_rank x y : F64.eqb x y = true -> rank x = rank y /\ rank x <> None.
Proof.
  rw /F64.eqb /SFeqb. pose proof (compare_rank x y) as H.
  destruct (SFcompare x y) as [[]|] eqn:E; try done. intros _.
  destruct (rank x), (rank y); simplify_eq; done.
Qed.

Lemma ltb_eqb_l x y z : F64.eqb x y = true -> F64.ltb x z = F64.ltb y z.
Proof. intros [Hr _]%eqb_rank. apply eq_true_iff_eq. by rw !ltb_rank Hr. Qed.

Lemma ltb_eqb_r x y z : F64.eqb x y = true -> F64.ltb z x = F64.ltb z y.
Proof. intros [Hr _]%eqb_rank. apply eq_true_iff_eq. by rw !ltb_rank Hr. Qed.

Lemma leb_not_nan x y : F64.leb x y = true -> F64.is_nan x = false /\ F64.is_nan y = false.
Proof.
  rw /F64.leb /SFleb. pose proof (compare_rank x y) as H.
  destruct x as [?|[]| |[]], y as [?|[]| |[]]; done.
Qed.

(** The order of numbers is total, so not less means greater or equal. *)
Lemma ltb_leb_trans x y z :
  F64.ltb x y = true -> F64.leb y z = true -> F64.ltb x z = true.
Proof.
  intros Hxy Hyz. destruct (leb_not_nan _ _ Hyz) as [Hy Hz].
  rw leb_ltb // in Hyz. apply negb_true_iff in Hyz.
  destruct (ltb_total y z) as [Hlt|[Hlt|Heq]]; auto; [by eauto using ltb_trans|congruence|].
  by rw -(ltb_eqb_r _ _ _ Heq).
Qed.

Lemma leb_ltb_trans x y z :
  F64.leb x y = true -> F64.ltb y z = true -> F64.ltb x z = true.
Proof.
  intros Hxy Hyz. destruct (leb_not_nan _ _ Hxy) as [Hx Hy].
  rw leb_ltb // in Hxy. apply negb_true_iff in Hxy.
  destruct (ltb_total x y) as [Hlt|[Hlt|Heq]]; auto; [by eauto using ltb_trans|congruence|].
  by rw (ltb_eqb_l _ _ _ Heq).
Qed.

Lemma ltb_leb x y : F64.ltb x y = true -> F64.leb x y = true.
Proof. rw /F64.ltb /SFltb /F64.leb /SFleb. by destruct (SFcompare x y) as [[]|]. Qed.

Lemma ltb_asym x y : F64.ltb x y = true -> F64.ltb y x = false.
Proof.
  intros H. destruct (F64.ltb y x) eqn:E; [|done].
  by rw -(ltb_irrefl x) (ltb_trans _ _ _ H E).
Qed.
End FloatOrder.
#[export] Hint Resolve ltb_irrefl ltb_trans : float.
