(* ===== verification/ErrorTypes.v ===== *)
(** * Errors

    The [errortypes] package: the error values the program passes around,
    their numeric codes and severities, the filters that separate fatal errors
    from warnings, and [AggregateError].  Go's [error] interface is open; the
    type below has one constructor per concrete error type of the repository
    the modelled code builds or inspects, and [EPlain] for [errors.New] and
    [fmt.Errorf] values. *)

From S2P Require Import Prelude.

Inductive error : Type :=
  | ETimeout (msg : string)
  | EBadInput (msg : string)
  | EBlacklistedApp (msg : string)
  | EBlacklistedAcct (msg : string)
  | EAcctRequired (msg : string)
  | EBadServerResponse (msg : string)
  | EFailedToRequestBids (msg : string)
  | EBidderTemporarilyDisabled (msg : string)
  | EWarning (msg : string) (code : Z)
  | EConversionRateNotFound (fromCur toCur : string)
  | ENotFound (id dataType : string)
  | EMalformedConsent (consent cause : string)
  | EPlain (msg : string).

#[export] Instance error_eq_dec : EqDecision error.
Proof. solve_decision. Defined.

Module Code.
Definition UnknownErrorCode : Z := 999.
Definition TimeoutErrorCode : Z := 1.
Definition BadInputErrorCode : Z := 2.
Definition BlacklistedAppErrorCode : Z := 3.
Definition BadServerResponseErrorCode : Z := 4.
Definition FailedToRequestBidsErrorCode : Z := 5.
Definition BidderTemporarilyDisabledErrorCode : Z := 6.
Definition BlacklistedAcctErrorCode : Z := 7.
Definition AcctRequiredErrorCode : Z := 8.
Definition NoConversionRateErrorCode : Z := 9.
Definition UnknownWarningCode : Z := 10999.
Definition InvalidPrivacyConsentWarningCode : Z := 10001.
Definition AccountLevelDebugDisabledWarningCode : Z := 10002.
Definition BidderLevelDebugDisabledWarningCode : Z := 10003.
Definition DisabledCurrencyConversionWarningCode : Z := 10004.
End Code.

Inductive Severity := SeverityUnknown | SeverityFatal | SeverityWarning.
#[export] Instance severity_eq_dec : EqDecision Severity.
Proof. solve_decision. Defined.

(** The [Coder] interface: the code and severity of the errors that have them,
    [None] for the others. *)
Definition coder (e : error) : option (Z * Severity) :=
  match e with
  | ETimeout _ => Some (Code.TimeoutErrorCode, SeverityFatal)
  | EBadInput _ => Some (Code.BadInputErrorCode, SeverityFatal)
  | EBlacklistedApp _ => Some (Code.BlacklistedAppErrorCode, SeverityFatal)
  | EBlacklistedAcct _ => Some (Code.BlacklistedAcctErrorCode, SeverityFatal)
  | EAcctRequired _ => Some (Code.AcctRequiredErrorCode, SeverityFatal)
  | EBadServerResponse _ => Some (Code.BadServerResponseErrorCode, SeverityFatal)
  | EFailedToRequestBids _ => Some (Code.FailedToRequestBidsErrorCode, SeverityFatal)
  | EBidderTemporarilyDisabled _ => Some (Code.BidderTemporarilyDisabledErrorCode, SeverityWarning)
  | EWarning _ c => Some (c, SeverityWarning)
  | EConversionRateNotFound _ _ | ENotFound _ _ | EMalformedConsent _ _ | EPlain _ => None
  end.

Definition error_string (e : error) : string :=
  match e with
  | ETimeout m | EBadInput m | EBlacklistedApp m | EBlacklistedAcct m | EAcctRequired m
  | EBadServerResponse m | EFailedToRequestBids m | EBidderTemporarilyDisabled m
  | EWarning m _ | EPlain m => m
  | EConversionRateNotFound f t =>
      "Currency conversion rate not found: '" ⧺ f ⧺ "' => '" ⧺ t ⧺ "'"
  | ENotFound id dt =>
      "Stored " ⧺ dt ⧺ " with ID=" ⧺ GoStr.quoted id ⧺ " not found."
  | EMalformedConsent c cause => "malformed consent string " ⧺ c ⧺ ": " ⧺ cause
  end.

Definition ReadCode (e : error) : Z :=
  match coder e with
  | Some (c, _) => c
  | None => Code.UnknownErrorCode
  end.

Definition isFatal (e : error) : bool :=
  match coder e with
  | None => true
  | Some (_, s) => bool_decide (s = SeverityFatal)
  end.

Definition isWarning (e : error) : bool :=
  match coder e with
  | None => false
  | Some (_, s) => bool_decide (s = SeverityWarning)
  end.

Fixpoint ContainsFatalError (errs : list error) : bool :=
  match errs with
  | [] => false
  | e :: rest => if isFatal e then true else ContainsFatalError rest
  end.

Fixpoint FatalOnly (errs : list error) : list error :=
  match errs with
  | [] => []
  | e :: rest => if isFatal e then e :: FatalOnly rest else FatalOnly rest
  end.

Fixpoint WarningOnly (errs : list error) : list error :=
  match errs with
  | [] => []
  | e :: rest => if isWarning e then e :: WarningOnly rest else WarningOnly rest
  end.

(** [AggregateError.Error]. *)
Fixpoint aggregate_lines (i : Z) (errs : list error) : string :=
  match errs with
  | [] => ""%string
  | e :: rest =>
      "  " ⧺ GoStr.itoa i ⧺ ": " ⧺ error_string e ⧺
      String (Ascii.ascii_of_nat 10) EmptyString ⧺ aggregate_lines (i + 1) rest
  end.
Definition AggregateError_string (msg : string) (errs : list error) : string :=
  match errs with
  | [] => ""%string
  | [_] => msg ⧺ " (1 error):" ⧺ String (Ascii.ascii_of_nat 10) EmptyString
             ⧺ aggregate_lines 1 errs
  | _ => msg ⧺ " (" ⧺ GoStr.itoa (Z.of_nat (length errs)) ⧺ " errors):" ⧺
         String (Ascii.ascii_of_nat 10) EmptyString ⧺ aggregate_lines 1 errs
  end.

(** The message object of the response extension. *)
Record ExtBidderMessage := mkExtBidderMessage { msg_Code : Z; msg_Message : string }.

Definition error_message (e : error) : ExtBidderMessage :=
  mkExtBidderMessage (ReadCode e) (error_string e).

Definition errsToBidderErrors (errs : list error) : list ExtBidderMessage :=
  error_message <$> FatalOnly errs.
Definition errsToBidderWarnings (errs : list error) : list ExtBidderMessage :=
  error_message <$> WarningOnly errs.

(** ** Facts *)
Lemma isWarning_not_fatal e : isWarning e = negb (isFatal e).
Proof. by destruct e. Qed.

Lemma FatalOnly_elem e errs : e ∈ FatalOnly errs <-> e ∈ errs /\ isFatal e = true.
Proof.
  induction errs as [|a errs IH]; simpl; [set_solver|].
  destruct (isFatal a) eqn:E; rw ?elem_of_cons IH; split; intros; destruct_and?; destruct_or?;
    simplify_eq; try congruence; tauto.
Qed.

Lemma WarningOnly_elem e errs : e ∈ WarningOnly errs <-> e ∈ errs /\ isWarning e = true.
Proof.
  induction errs as [|a errs IH]; simpl; [set_solver|].
  destruct (isWarning a) eqn:E; rw ?elem_of_cons IH; split; intros; destruct_and?; destruct_or?;
    simplify_eq; try congruence; tauto.
Qed.

Lemma FatalOnly_app l k : FatalOnly (l ++ k) = FatalOnly l ++ FatalOnly k.
Proof. induction l as [|a l IH]; [done|]. simpl. by destruct (isFatal a); rw IH. Qed.

Lemma fatal_warning_partition errs : FatalOnly errs ++ WarningOnly errs ≡ₚ errs.
Proof.
  induction errs as [|a errs IH]; simpl; [done|].
  rw isWarning_not_fatal. destruct (isFatal a); simpl.
  - by rw IH.
  - by rw -Permutation_middle IH.
Qed.

Lemma ContainsFatalError_app l k :
  ContainsFatalError (l ++ k) = ContainsFatalError l || ContainsFatalError k.
Proof. induction l as [|a l IH]; [done|]. simpl. by destruct (isFatal a). Qed.

(** An error that says that an app or an account is blocked; a warning could
    carry their codes. *)
Definition blocks (err : error) : Prop :=
  match err with
  | EBlacklistedApp _ | EBlacklistedAcct _ => True
  | EWarning _ code => code = 3%Z \/ code = 7%Z
  | _ => False
  end.

Lemma ContainsFatalError_Exists errs : ContainsFatalError errs = true <-> Exists (fun err => isFatal err = true) errs.
Proof.
  induction errs as [|err errs IH]; [by rw Exists_nil|]. rw Exists_cons -IH. cbn. destruct (isFatal err); naive_solver.
Qed.

(** The response reports every error of a bidder exactly once: the fatal
    ones under errors, the others under warnings, and nothing else. *)
Theorem bidder_messages_complete errs :
  errsToBidderErrors errs ++ errsToBidderWarnings errs ≡ₚ error_message <$> errs /\
  (ContainsFatalError errs = true <-> errsToBidderErrors errs <> []).
Proof.
  split.
  - by rw /errsToBidderErrors /errsToBidderWarnings -fmap_app fatal_warning_partition.
  - rw /errsToBidderErrors. induction errs as [|a errs IH]; simpl; [done|].
    by destruct (isFatal a).
Qed.
