(* ===== verification/IpNet.v ===== *)
(** * IP addresses and networks

    What the program uses of Go's [net] package (Go 1.16): [ParseIP],
    [IP.String], [ParseCIDR], [IPNet.Contains], [SplitHostPort]; then
    [util/iputil], [util/httputil] and [config/requestvalidation.go], which
    find the client's address in a request and refuse private networks.  An
    address is the list of its bytes: 16, as [ParseIP] makes them, or 4. *)

From S2P Require Import Prelude Float64 ErrorTypes.

Definition IP : Type := list Z.

(** [dtoi] and [xtoi]: a number, and the rest of the text. *)
Definition big : Z := 16777215.
Fixpoint number (base : Z) (digit : Ascii.ascii -> option Z) (n : Z) (first : bool) (s : string) : option (Z * string) :=
  match s with
  | EmptyString => if first then None else Some (n, s)
  | String a s' =>
      match digit a with
      | Some d => let n := (n * base + d)%Z in if (big <=? n)%Z then None else number base digit n false s'
      | None => if first then None else Some (n, s)
      end
  end.
Definition hex_val (a : Ascii.ascii) : option Z :=
  let n := Z.of_nat (Ascii.nat_of_ascii a) in
  if ((48 <=? n) && (n <=? 57))%Z then Some (n - 48)%Z
  else if ((97 <=? n) && (n <=? 102))%Z then Some (n - 87)%Z
  else if ((65 <=? n) && (n <=? 70))%Z then Some (n - 55)%Z
  else None.
Definition dtoi (s : string) : option (Z * string) := number 10 GoStr.digit_val 0 true s.
Definition xtoi (s : string) : option (Z * string) := number 16 hex_val 0 true s.

(** [parseIPv4]: the four bytes. *)
Fixpoint ipv4_bytes (k : nat) (first : bool) (s : string) : option (list Z * string) :=
  match k with
  | O => Some ([], s)
  | S k =>
      let s := if first then Some s else match s with String "." s' => Some s' | _ => None end in
      match s with
      | None => None
      | Some s =>
          match dtoi s with
          | None => None
          | Some (n, s) =>
              if (255 <? n)%Z then None
              else match ipv4_bytes k false s with Some (l, s) => Some (n :: l, s) | None => None end
          end
      end
  end.
Definition ipv4_of (s : string) : option (list Z) :=
  match ipv4_bytes 4 true s with Some (l, EmptyString) => Some l | _ => None end.
Definition v4InV6Prefix : list Z := [0; 0; 0; 0; 0; 0; 0; 0; 0; 0; 255; 255]%Z.
Definition parseIPv4 (s : string) : option IP := app v4InV6Prefix <$> ipv4_of s.

(** The loop of [parseIPv6]: the bytes so far, the place of the ellipsis. *)
Fixpoint ipv6_loop (groups : nat) (acc : list Z) (ellipsis : option nat) (s : string) :
  option (list Z * option nat * string) :=
  match groups with
  | O => Some (acc, ellipsis, s)
  | S groups =>
      match xtoi s with
      | None => None
      | Some (n, rest) =>
          if (65535 <? n)%Z then None
          else match rest with
               | String "." _ =>
                   if match ellipsis with None => negb (length acc =? 12)%nat | Some _ => false end then None
                   else if (16 <? length acc + 4)%nat then None
                   else match ipv4_of s with
                        | None => None
                        | Some ip4 => Some (acc ++ ip4, ellipsis, EmptyString)
                        end
               | EmptyString => Some (acc ++ [n / 256; n mod 256]%Z, ellipsis, EmptyString)
               | String ":" (String c rest' as s') =>
                   let acc := acc ++ [n / 256; n mod 256]%Z in
                   if Ascii.eqb c ":" then
                     match ellipsis, rest' with
                     | Some _, _ => None
                     | None, EmptyString => Some (acc, Some (length acc), EmptyString)
                     | None, _ => ipv6_loop groups acc (Some (length acc)) rest'
                     end
                   else ipv6_loop groups acc ellipsis s'
               | _ => None
               end
      end
  end.
Definition ipv6_finish (r : option (list Z * option nat * string)) : option IP :=
  match r with
  | Some (acc, ellipsis, EmptyString) =>
      if (length acc <? 16)%nat then
        match ellipsis with
        | None => None
        | Some e => Some (take e acc ++ replicate (16 - length acc) 0%Z ++ drop e acc)
        end
      else match ellipsis with None => Some acc | Some _ => None end
  | _ => None
  end.
Definition parseIPv6 (s : string) : option IP :=
  match s with
  | String ":" (String ":" EmptyString) => Some (replicate 16 0%Z)
  | String ":" (String ":" s') => ipv6_finish (ipv6_loop 8 [] (Some 0%nat) s')
  | _ => ipv6_finish (ipv6_loop 8 [] None s)
  end.

(** [net.ParseIP]: the first dot or colon decides. *)
Fixpoint dot_or_colon (s : string) : option bool :=
  match s with
  | EmptyString => None
  | String a s' => if Ascii.eqb a "." then Some false else if Ascii.eqb a ":" then Some true else dot_or_colon s'
  end.
Definition net_ParseIP (s : string) : option IP :=
  match dot_or_colon s with
  | Some false => parseIPv4 s
  | Some true => parseIPv6 s
  | None => None
  end.

(** [IP.To4]. *)
Definition To4 (ip : IP) : option (list Z) :=
  if (length ip =? 4)%nat then Some ip
  else if (length ip =? 16)%nat && bool_decide (take 12 ip = v4InV6Prefix) then Some (drop 12 ip)
  else None.

(** [IP.String], of 4 or 16 bytes. *)
Fixpoint groups_of (ip : list Z) : list Z :=
  match ip with
  | a :: b :: rest => (a * 256 + b)%Z :: groups_of rest
  | _ => []
  end.
Fixpoint zeros_at (gs : list Z) : nat :=
  match gs with g :: rest => if (g =? 0)%Z then S (zeros_at rest) else 0%nat | [] => 0%nat end.
(** The first longest run of zero groups; the fuel is the number of groups. *)
Fixpoint longest_run (fuel : nat) (gs : list Z) (i : nat) (best : nat * nat) : nat * nat :=
  match fuel with
  | O => best
  | S fuel =>
      let run := zeros_at (drop i gs) in
      if (snd best <? run)%nat then longest_run fuel gs (i + run + 1) (i, run)
      else longest_run fuel gs (i + 1) best
  end.
Definition hex_char (d : Z) : Ascii.ascii :=
  Ascii.ascii_of_nat (Z.to_nat (if (d <? 10)%Z then (d + 48)%Z else (d + 87)%Z)).
Definition hex_group (g : Z) : string :=
  let d (k : Z) := String (hex_char (Z.land (Z.shiftr g k) 15%Z)) EmptyString in
  (if (4096 <=? g)%Z then d 12%Z else "") ⧺ (if (256 <=? g)%Z then d 8%Z else "") ⧺
  (if (16 <=? g)%Z then d 4%Z else "") ⧺ d 0%Z.
Definition IP_String (ip : IP) : string :=
  match To4 ip with
  | Some p4 => GoStr.join "." (GoStr.itoa <$> p4)
  | None =>
      let gs := groups_of ip in
      let '(e0, run) := longest_run 8 gs 0 (0, 0)%nat in
      if (run <=? 1)%nat then GoStr.join ":" (hex_group <$> gs)
      else GoStr.join ":" (hex_group <$> take e0 gs) ⧺ "::" ⧺ GoStr.join ":" (hex_group <$> drop (e0 + run) gs)
  end.

Example parse_examples :
  net_ParseIP "1.1.1.1" = Some (v4InV6Prefix ++ [1; 1; 1; 1])%Z /\
  net_ParseIP "-1.-1.-1.-1" = None /\ net_ParseIP "256.256.256.256" = None /\
  net_ParseIP "::ffff:1.1.1.1" = Some (v4InV6Prefix ++ [1; 1; 1; 1])%Z /\
  net_ParseIP "0101::" = Some (1 :: 1 :: replicate 14 0)%Z /\ net_ParseIP "zzzz::" = None.
Proof. by vm_compute. Qed.
Example string_examples :
  (IP_String <$> net_ParseIP "2001:0db8:0:0:1:0:0:1") = Some "2001:db8::1:0:0:1"%string /\
  (IP_String <$> net_ParseIP "::") = Some "::"%string /\ (IP_String <$> net_ParseIP "1::") = Some "1::"%string /\
  (IP_String <$> net_ParseIP "::ffff:10.0.0.1") = Some "10.0.0.1"%string.
Proof. by vm_compute. Qed.

(** ** Networks *)
Record IPNet := mkIPNet { net_IP : list Z; net_Mask : list Z }.

Definition and_bytes (a b : list Z) : list Z := zip_with Z.land a b.
(** [IPNet.Contains]. *)
Definition networkNumberAndMask (n : IPNet) : option (list Z * list Z) :=
  let ip := match To4 (net_IP n) with
            | Some ip => Some ip
            | None => if (length (net_IP n) =? 16)%nat then Some (net_IP n) else None
            end in
  match ip with
  | None => None
  | Some ip =>
      if (length (net_Mask n) =? 4)%nat then if (length ip =? 4)%nat then Some (ip, net_Mask n) else None
      else if (length (net_Mask n) =? 16)%nat then
        if (length ip =? 4)%nat then Some (ip, drop 12 (net_Mask n)) else Some (ip, net_Mask n)
      else None
  end.
Definition Contains (n : IPNet) (ip : IP) : bool :=
  let ip := default ip (To4 ip) in
  match networkNumberAndMask n with
  | None => (length ip =? 0)%nat
  | Some (nn, m) =>
      (length ip =? length nn)%nat && bool_decide (and_bytes nn m = and_bytes ip m)
  end.

(** [CIDRMask] and [ParseCIDR]; the error's text is not used. *)
Fixpoint cidr_mask (bytes : nat) (ones : Z) : list Z :=
  match bytes with
  | O => []
  | S bytes =>
      if (8 <=? ones)%Z then 255%Z :: cidr_mask bytes (ones - 8)
      else (255 - Z.shiftr 255 ones)%Z :: cidr_mask bytes 0
  end.
Definition IP_Mask (ip mask : list Z) : option (list Z) :=
  let mask := if (length mask =? 16)%nat && (length ip =? 4)%nat && bool_decide (take 12 mask = replicate 12 255%Z)
              then drop 12 mask else mask in
  let ip := if (length mask =? 4)%nat && (length ip =? 16)%nat && bool_decide (take 12 ip = v4InV6Prefix)
            then drop 12 ip else ip in
  if (length ip =? length mask)%nat then Some (and_bytes ip mask) else None.
Definition ParseCIDR (s : string) : option IPNet :=
  match GoStr.split_after_first "/" s with
  | (_, None) => None
  | (addr, Some mask) =>
      let addr := GoStr.take (GoStr.len addr - 1) addr in
      let '(ip, iplen) := match parseIPv4 addr with
                          | Some ip => (Some ip, 4%nat)
                          | None => (parseIPv6 addr, 16%nat)
                          end in
      match ip, dtoi mask with
      | Some ip, Some (n, EmptyString) =>
          if (8 * Z.of_nat iplen <? n)%Z then None
          else let m := cidr_mask iplen n in Some (mkIPNet (default [] (IP_Mask ip m)) m)
      | _, _ => None
      end
  end.

(** ** [config/requestvalidation.go] *)

(** [strings.TrimSpace]: the encodings of the Unicode white space. *)
Definition bytes (l : list nat) : string := fold_right (fun n s => String (Ascii.ascii_of_nat n) s) EmptyString l.
Definition spaces : list string :=
  bytes <$> ([[9]; [10]; [11]; [12]; [13]; [32]; [194; 133]; [194; 160]; [225; 154; 128]] ++
             ((fun n => [226; 128; n]) <$> seq 128 11) ++
             [[226; 128; 168]; [226; 128; 169]; [226; 128; 175]; [226; 129; 159]; [227; 128; 128]])%nat.
Fixpoint trim_left (fuel : nat) (s : string) : string :=
  match fuel with
  | O => s
  | S fuel =>
      match List.find (fun p => GoStr.has_prefix p s) spaces with
      | Some p => trim_left fuel (GoStr.drop (GoStr.len p) s)
      | None => s
      end
  end.
Fixpoint trim_right (fuel : nat) (s : string) : string :=
  match fuel with
  | O => s
  | S fuel =>
      match List.find (fun p => GoStr.has_suffix s p) spaces with
      | Some p => trim_right fuel (GoStr.take (GoStr.len s - GoStr.len p) s)
      | None => s
      end
  end.
Definition TrimSpace (s : string) : string :=
  let s := trim_left (GoStr.len s) s in trim_right (GoStr.len s) s.

Definition parseNetworks (networks : list string) (networksLen : nat) : list IPNet + error :=
  let check v := let v := TrimSpace v in
                 match ParseCIDR v with
                 | Some ipNet => if (length (net_IP ipNet) =? networksLen)%nat then inl ipNet else inr v
                 | None => inr v
                 end in
  let bad := omap (fun v => match check v with inr v => Some v | inl _ => None end) networks in
  match bad with
  | [] => inl (omap (fun v => match check v with inl n => Some n | inr _ => None end) networks)
  | _ => inr (EPlain (GoStr.join "," ((fun v => "'" ⧺ v ⧺ "'") <$> bad)))
  end.

Record RequestValidation := mkRequestValidation {
  IPv4PrivateNetworksParsed : list IPNet; IPv6PrivateNetworksParsed : list IPNet }.
(** [RequestValidation.Parse]. *)
Definition RequestValidation_Parse (ipv4 ipv6 : list string) : RequestValidation + error :=
  match parseNetworks ipv4 4 with
  | inr err => inr (EPlain ("Invalid private IPv4 network: " ⧺ error_string err))
  | inl ipv4Nets =>
      match parseNetworks ipv6 16 with
      | inr err => inr (EPlain ("Invalid private IPv6 network: " ⧺ error_string err))
      | inl ipv6Nets => inl (mkRequestValidation ipv4Nets ipv6Nets)
      end
  end.

(** ** [util/iputil] *)
Inductive IPVersion := IPvUnknown | IPv4 | IPv6.
#[export] Instance ipversion_eq_dec : EqDecision IPVersion.
Proof. solve_decision. Defined.

Definition ParseIP (v : string) : option IP * IPVersion :=
  match net_ParseIP v with
  | Some ip => (Some ip, if GoStr.contains_byte ":" v then IPv6 else IPv4)
  | None => (None, IPvUnknown)
  end.

(** The [IPValidator] interface, and its two implementations. *)
Class IPValidator := { ip_IsValid : IP -> IPVersion -> bool }.
Definition Public_IsValid (v : RequestValidation) (ip : IP) (ver : IPVersion) : bool :=
  match ver with
  | IPv4 => negb (existsb (fun n => Contains n ip) (IPv4PrivateNetworksParsed v))
  | IPv6 => negb (existsb (fun n => Contains n ip) (IPv6PrivateNetworksParsed v))
  | IPvUnknown => false
  end.
Definition PublicNetworkIPValidator (v : RequestValidation) : IPValidator :=
  {| ip_IsValid := Public_IsValid v |}.
Definition VersionIPValidator (version : IPVersion) : IPValidator :=
  {| ip_IsValid _ ver := bool_decide (ver = version) |}.

(** ** [util/httputil] *)

(** What is read of an [http.Request]; header names are canonical. *)
Record Request := mkHttpRequest {
  http_Header : gmap string (list string); http_Scheme : string; http_TLS : bool; http_RemoteAddr : string }.
Definition Header_Get (r : Request) (key : string) : string :=
  match http_Header r !! key with Some (v :: _) => v | _ => ""%string end.

Definition https : string := "https".
Definition IsSecure (r : Request) : bool :=
  if GoStr.equal_fold (Header_Get r "X-Forwarded-Proto") https then true
  else if GoStr.equal_fold (http_Scheme r) https then true
  else http_TLS r.

(** [net.SplitHostPort]: the host; an error is [None]. *)
Definition SplitHostPort (hostport : string) : option string :=
  match GoStr.last_index ":" hostport with
  | None => None
  | Some i =>
      match hostport with
      | String "[" _ =>
          match GoStr.split_after_first "]" hostport with
          | (_, None) => None
          | (before, Some after) =>
              let end_ := (GoStr.len before - 1)%nat in
              if negb (end_ + 1 =? i)%nat then None
              else if GoStr.contains_byte "[" (GoStr.drop 1 hostport) then None
              else if GoStr.contains_byte "]" after then None
              else Some (GoStr.drop 1 (GoStr.take end_ hostport))
          end
      | _ =>
          let host := GoStr.take i hostport in
          if GoStr.contains_byte ":" host then None
          else if GoStr.contains_byte "[" hostport || GoStr.contains_byte "]" hostport then None
          else Some host
      end
  end.

Section FindIP.
Context `{IPValidator}.

Definition accept (value : string) : option (IP * IPVersion) :=
  match ParseIP value with
  | (Some ip, ver) => if ip_IsValid ip ver then Some (ip, ver) else None
  | (None, _) => None
  end.
Definition findTrueClientIP (r : Request) : option (IP * IPVersion) :=
  let value := Header_Get r "True-Client-Ip" in
  if GoStr.is_empty value then None else accept (TrimSpace value).
Definition first_accepted (l : list string) : option (IP * IPVersion) :=
  match omap (fun p => accept (TrimSpace p)) l with x :: _ => Some x | [] => None end.
Definition findForwardedFor (r : Request) : option (IP * IPVersion) :=
  let value := Header_Get r "X-Forwarded-For" in
  if GoStr.is_empty value then None else first_accepted (GoStr.split "," value).
Definition findRealIP (r : Request) : option (IP * IPVersion) :=
  let value := Header_Get r "X-Real-Ip" in
  if GoStr.is_empty value then None else accept (TrimSpace value).
Definition findRemoteAddr (r : Request) : option (IP * IPVersion) :=
  match SplitHostPort (http_RemoteAddr r) with None => None | Some host => accept host end.
(** [FindIP]. *)
Definition FindIP (r : Request) : option (IP * IPVersion) :=
  match findTrueClientIP r with
  | Some x => Some x
  | None =>
      match findForwardedFor r with
      | Some x => Some x
      | None => match findRealIP r with Some x => Some x | None => findRemoteAddr r end
      end
  end.
End FindIP.

(** ** Facts: the text of an IPv4 address parses to it *)
Definition byte_range (n : Z) : Prop := (0 <= n <= 255)%Z.

Lemma forall_byte (P : Z -> bool) : forallb (fun n => P (Z.of_nat n)) (seq 0 256) = true -> forall n, byte_range n -> P n = true.
Proof.
  rw forallb_forall. intros H n Hn. unfold byte_range in Hn. rw -(Z2Nat.id n); [lia|]. apply H, in_seq. lia.
Qed.

(** A text that does not begin with a digit ends a number. *)
Definition no_digit (s : string) : bool :=
  match s with EmptyString => true | String a _ => bool_decide (GoStr.digit_val a = None) end.
Lemma number_app s rest n first m : no_digit rest = true ->
  number 10 GoStr.digit_val n first s = Some (m, EmptyString) -> number 10 GoStr.digit_val n first (s ⧺ rest) = Some (m, rest).
Proof.
  intros Hr. revert n first. induction s as [|a s IH]; intros n first.
  - cbn [number]. destruct first; [done|]. intros [= <-]. change ("" ⧺ rest) with rest.
    destruct rest as [|b rest]; [done|]. cbn [number]. simpl in Hr. apply bool_decide_eq_true_1 in Hr. by rw Hr.
  - cbn [number String.append]. destruct (GoStr.digit_val a) as [d|].
    + cbv zeta. destruct (big <=? _)%Z; [done|]. apply IH.
    + by destruct first.
Qed.
Lemma dtoi_itoa n rest : byte_range n -> no_digit rest = true -> dtoi (GoStr.itoa n ⧺ rest) = Some (n, rest).
Proof.
  intros Hn Hr. apply number_app; [done|].
  assert (bool_decide (dtoi (GoStr.itoa n) = Some (n, EmptyString)) = true) as H.
  { revert n Hn. refine (forall_byte _ _). by vm_compute. }
  by apply bool_decide_eq_true_1 in H.
Qed.

Lemma dot_or_colon_app s t : dot_or_colon s = None -> dot_or_colon (s ⧺ t) = dot_or_colon t.
Proof. induction s as [|a s IH]; [done|]. simpl. by destruct (Ascii.eqb a "."), (Ascii.eqb a ":"). Qed.
Lemma itoa_plain n : byte_range n -> dot_or_colon (GoStr.itoa n) = None /\ GoStr.contains_byte ":" (GoStr.itoa n) = false.
Proof.
  intros Hn.
  assert (bool_decide (dot_or_colon (GoStr.itoa n) = None /\ GoStr.contains_byte ":" (GoStr.itoa n) = false) = true) as H.
  { revert n Hn. refine (forall_byte _ _). by vm_compute. }
  by apply bool_decide_eq_true_1 in H.
Qed.

Lemma number_nonneg n first s m rest : number 10 GoStr.digit_val n first s = Some (m, rest) -> (0 <= n)%Z -> (0 <= m)%Z.
Proof.
  revert n first. induction s as [|a s IH]; intros n first; cbn [number].
  - destruct first; [done|]. by intros [= -> _].
  - unfold GoStr.digit_val. destruct (_ && _) eqn:Ea.
    + cbv zeta. destruct (big <=? _)%Z; [done|]. intros Hn H0. eapply IH; [exact Hn|].
      apply andb_true_iff in Ea as [Ea _]. apply Nat.leb_le in Ea. lia.
    + destruct first; [done|]. by intros [= -> _].
Qed.
Lemma ipv4_bytes_range k first s l rest : ipv4_bytes k first s = Some (l, rest) -> length l = k /\ Forall byte_range l.
Proof.
  revert first s l. induction k as [|k IH]; intros first s l; cbn [ipv4_bytes]; [by intros [= <- _]|].
  destruct (if first then Some s else _) as [s1|]; [|done].
  destruct (dtoi s1) as [[n s2]|] eqn:En; [|done]. destruct (Z.ltb_spec 255 n); [done|].
  destruct (ipv4_bytes k false s2) as [[l' s3]|] eqn:E; [|done]. intros [= <- ->].
  destruct (IH _ _ _ E) as [<- Hl]. split; [done|]. constructor; [|done].
  pose proof (number_nonneg _ _ _ _ _ En). unfold byte_range. lia.
Qed.

(** What parses as IPv4 is printed so that it parses to the same address. *)
Lemma ipv4_roundtrip text ip : ParseIP text = (Some ip, IPv4) -> ParseIP (IP_String ip) = (Some ip, IPv4).
Proof.
  unfold ParseIP at 1, net_ParseIP. destruct (dot_or_colon text) as [[]|] eqn:Ed; [|..|done].
  { destruct (parseIPv6 text); [|done]. assert (GoStr.contains_byte ":" text = true) as ->; [|done].
    clear -Ed. induction text as [|a t IH]; [done|]. simpl in *. destruct (Ascii.eqb a "."); [done|].
    destruct (Ascii.eqb a ":"); [done|]. by apply IH. }
  unfold parseIPv4 at 1, ipv4_of. destruct (ipv4_bytes 4 true text) as [[l [|]]|] eqn:E; [|done..].
  intros Hip. assert (ip = v4InV6Prefix ++ l) as -> by (cbn [fmap option_fmap option_map] in Hip; congruence).
  clear Ed Hip. apply ipv4_bytes_range in E as [Hlen Hl].
  destruct l as [|a [|b [|c [|d [|]]]]]; try done. clear Hlen text.
  inversion Hl as [|? ? Ha Hl1]; inversion Hl1 as [|? ? Hb Hl2]; inversion Hl2 as [|? ? Hc Hl3]; inversion Hl3 as [|? ? Hd _]; subst.
  assert (IP_String (v4InV6Prefix ++ [a; b; c; d]) = GoStr.itoa a ⧺ "." ⧺ GoStr.itoa b ⧺ "." ⧺ GoStr.itoa c ⧺ "." ⧺ GoStr.itoa d) as -> by done.
  unfold ParseIP, net_ParseIP. rw (dot_or_colon_app _ _ (proj1 (itoa_plain a Ha))). cbn [dot_or_colon String.append Ascii.eqb].
  unfold parseIPv4, ipv4_of. cbn [ipv4_bytes].
  rw (dtoi_itoa a _ Ha) //. unfold byte_range in *. destruct (Z.ltb_spec 255 a); [lia|].
  cbn [String.append]. rw (dtoi_itoa b _ Hb) //. destruct (Z.ltb_spec 255 b); [lia|].
  cbn [String.append]. rw (dtoi_itoa c _ Hc) //. destruct (Z.ltb_spec 255 c); [lia|].
  cbn [String.append]. rw -(str_app_nil_r (GoStr.itoa d)) (dtoi_itoa d _ Hd) //. destruct (Z.ltb_spec 255 d); [lia|].
  assert (forall n t, byte_range n -> GoStr.contains_byte ":" (GoStr.itoa n ⧺ t) = GoStr.contains_byte ":" t) as Hno.
  { intros n t Hn. by rw contains_byte_app (proj2 (itoa_plain n Hn)). }
  cbn [fmap option_fmap option_map]. rw Hno //. cbn [String.append GoStr.contains_byte]. rw Hno //.
  cbn [String.append GoStr.contains_byte]. rw Hno //. cbn [String.append GoStr.contains_byte]. by rw Hno.
Qed.
