(* ===== verification/Json.v ===== *)
(** * JSON

    Extension fields are [json.RawMessage] values that the program decodes,
    edits and encodes again.  A message is modelled by what Go can observe of
    it: nil, empty, malformed, or a JSON value; whitespace and escapes are not
    represented, and numbers keep their literal text.  The decoders follow
    [encoding/json]: null leaves the zero value (a nil map, slice or pointer),
    object members match struct fields without regard to case, the last of
    several equal keys wins, and a value of the wrong kind is an error.  The
    text of the library's own errors is fixed to one message. *)

From S2P Require Import Prelude Float64 ErrorTypes.

Inductive json : Type :=
  | JNull
  | JBool (b : bool)
  | JNum (lit : string)
  | JStr (s : string)
  | JArr (l : list json)
  | JObj (kvs : list (string * json)).

Inductive RawMessage : Type :=
  | RawNil
  | RawEmpty
  | RawBad
  | RawJson (j : json).

(** [len(raw) == 0]. *)
Definition raw_len0 (r : RawMessage) : bool :=
  match r with RawNil | RawEmpty => true | _ => false end.
Definition raw_is_nil (r : RawMessage) : bool :=
  match r with RawNil => true | _ => false end.

Definition json_syntax_error : error := EPlain "unexpected end of JSON input".
Definition json_type_error : error := EPlain "json: cannot unmarshal".

(** A decoder of Go values; [None] is an [UnmarshalTypeError]. *)
Definition decoder (A : Type) : Type := json -> option A.

(** [json.Unmarshal]. *)
Definition unmarshal {A} (d : decoder A) (r : RawMessage) : A + error :=
  match r with
  | RawJson j => match d j with Some a => inl a | None => inr json_type_error end
  | _ => inr json_syntax_error
  end.

Definition dec_any : decoder json := Some.

Definition dec_string : decoder string := fun j =>
  match j with JStr s => Some s | JNull => Some ""%string | _ => None end.
Definition dec_bool : decoder bool := fun j =>
  match j with JBool b => Some b | JNull => Some false | _ => None end.
Definition dec_int : decoder Z := fun j =>
  match j with JNum lit => GoStr.atoi lit | JNull => Some 0%Z | _ => None end.
(** JSON has no spelling of NaN or of the infinities. *)
Definition dec_float : decoder float64 := fun j =>
  match j with
  | JNum lit =>
      match F64.parse_float lit with
      | Some x => if F64.is_finite x then Some x else None
      | None => None
      end
  | JNull => Some F64.zero
  | _ => None
  end.

Definition dec_ptr {A} (d : decoder A) : decoder (option A) := fun j =>
  match j with JNull => Some None | _ => Some <$> d j end.
Definition dec_list {A} (d : decoder A) : decoder (list A) := fun j =>
  match j with JArr l => mapM d l | JNull => Some [] | _ => None end.

Fixpoint dec_members {A} (d : decoder A) (kvs : list (string * json)) (acc : gmap string A) :
  option (gmap string A) :=
  match kvs with
  | [] => Some acc
  | (k, j) :: rest =>
      match d j with
      | Some a => dec_members d rest (<[k := a]> acc)
      | None => None
      end
  end.

(** Decoding into a map; [Some None] is the nil map that null leaves. *)
Definition dec_map {A} (d : decoder A) : decoder (option (gmap string A)) := fun j =>
  match j with
  | JObj kvs => Some <$> dec_members d kvs ∅
  | JNull => Some None
  | _ => None
  end.

(** Reading from a map that may be nil. *)
Definition map_or_empty {A} (m : option (gmap string A)) : gmap string A := default ∅ m.

(** The member a struct field is decoded from. *)
Fixpoint find_field (name : string) (kvs : list (string * json)) : option json :=
  match kvs with
  | [] => None
  | (k, j) :: rest =>
      match find_field name rest with
      | Some j' => Some j'
      | None => if GoStr.equal_fold k name then Some j else None
      end
  end.

(** Decodes one struct field, [zero] when the object has no such member. *)
Definition dec_field {A} (d : decoder A) (zero : A) (name : string)
    (kvs : list (string * json)) : option A :=
  match find_field name kvs with Some j => d j | None => Some zero end.

(** Decodes a struct from its members; null is the zero struct. *)
Definition dec_struct {A} (f : list (string * json) -> option A) : decoder A := fun j =>
  match j with JObj kvs => f kvs | JNull => f [] | _ => None end.

(** ** Encoding *)
Definition key_le (p q : string * json) : Prop := String.leb p.1 q.1 = true.
#[export] Instance key_le_dec : RelDecision key_le.
Proof. intros p q. unfold key_le. apply _. Defined.

(** A map encodes with its keys sorted. *)
Definition map_json (m : gmap string json) : json :=
  JObj (merge_sort key_le (map_to_list m)).

Definition enc_list {A} (f : A -> json) (l : list A) : json := JArr (f <$> l).
Definition enc_int (z : Z) : json := JNum (GoStr.itoa z).

(** A member of a struct that is left out when it is empty. *)
Definition omitempty (empty : bool) (name : string) (j : json) : list (string * json) :=
  if empty then [] else [(name, j)].

(** [RawMessage] as a member: nil encodes as null, malformed text fails. *)
Definition enc_raw (r : RawMessage) : option json :=
  match r with RawJson j => Some j | RawNil => Some JNull | _ => None end.

(** ** Facts *)
Lemma unmarshal_error_fatal {A} (d : decoder A) r err : unmarshal d r = inr err -> isFatal err = true.
Proof. destruct r as [| | |j]; [..|rw /unmarshal; destruct (d j)]; by intros [= <-]. Qed.

Lemma dec_members_any kvs acc :
  dec_members dec_any kvs acc = Some (fold_left (fun m kj => <[kj.1 := kj.2]> m) kvs acc).
Proof. revert acc. induction kvs as [|[k j] kvs IH]; intros acc; simpl; auto. Qed.

Lemma fold_insert_nodup {A} (kvs : list (string * A)) (acc : gmap string A) :
  NoDup kvs.*1 ->
  fold_left (fun m kj => <[kj.1 := kj.2]> m) kvs acc = list_to_map kvs ∪ acc.
Proof.
  revert acc. induction kvs as [|[k j] kvs IH]; intros acc Hnd; simpl.
  - by rw left_id_L.
  - rw fmap_cons in Hnd. apply list.NoDup_cons in Hnd as [Hk Hnd]. rw IH //.
    assert ((list_to_map kvs : gmap string A) !! k = None)
      by by apply not_elem_of_list_to_map_1.
    by rw -insert_union_r // insert_union_l.
Qed.

(** Encoding a map and decoding it gives the map back. *)
Lemma map_json_roundtrip m : dec_map dec_any (map_json m) = Some (Some m).
Proof.
  rw /map_json /dec_map. cbn [dec_members]. rw dec_members_any /=.
  assert (merge_sort key_le (map_to_list m) ≡ₚ map_to_list m) as Hp
    by apply merge_sort_Permutation.
  assert (NoDup (merge_sort key_le (map_to_list m)).*1) as Hnd.
  { rw Hp. apply NoDup_fst_map_to_list. }
  do 2 f_equal. rw fold_insert_nodup // right_id_L.
  by apply map_range_to_map.
Qed.
