(* ===== verification/Codec.v ===== *)
(** * Encoders and decoders that invert each other

    A value that is encoded and decoded again comes back: the interface
    [Codec] that the round trips of the extension contracts are assembled
    from, with its instances for strings, flags, integers, lists, pointers and
    maps, and the lookup of a field in an object put together from optional
    members. *)

From S2P Require Import Prelude Url Float64 ErrorTypes Json.

(** [e] is inverted by [d] on the values of [P]. *)
Class Codec {A} (d : decoder A) (e : A -> json) (P : A -> Prop) : Prop :=
  codec : forall a, P a -> d (e a) = Some a.
(** The values [e] does not encode as null. *)
Class NotNull {A} (e : A -> json) : Prop := not_null : forall a, e a <> JNull.

Definition always {A} (_ : A) : Prop := True.
Definition int_ok (z : Z) : Prop := Int64.in_range z = true.

#[export] Instance string_codec : Codec dec_string JStr always.
Proof. by intros s _. Qed.
#[export] Instance bool_codec : Codec dec_bool JBool always.
Proof. by intros b _. Qed.
#[export] Instance int_codec : Codec dec_int enc_int int_ok.
Proof. intros z Hz. by apply atoi_itoa. Qed.
#[export] Instance string_not_null : NotNull JStr.
Proof. by intros s. Qed.
#[export] Instance bool_not_null : NotNull JBool.
Proof. by intros b. Qed.
#[export] Instance int_not_null : NotNull enc_int.
Proof. by intros z. Qed.

(** Pointers encode nil as null. *)
Definition enc_ptr {A} (f : A -> json) (o : option A) : json := match o with None => JNull | Some a => f a end.
Definition opt_ok {A} (P : A -> Prop) (o : option A) : Prop := match o with None => True | Some a => P a end.
Lemma ptr_codec {A} (d : decoder A) (e : A -> json) P a : Codec d e P -> P a -> e a <> JNull -> dec_ptr d (e a) = Some (Some a).
Proof. intros Hc Hp Hn. unfold dec_ptr. rw (codec a Hp). by destruct (e a). Qed.
#[export] Instance opt_codec {A} (d : decoder A) (e : A -> json) P `{!Codec d e P, !NotNull e} :
  Codec (dec_ptr d) (enc_ptr e) (opt_ok P).
Proof. intros [a|] Hp; [|done]. by apply (ptr_codec d e P); [| |apply not_null]. Qed.

#[export] Instance list_codec {A} (d : decoder A) (e : A -> json) P `{!Codec d e P} :
  Codec (dec_list d) (enc_list e) (Forall P).
Proof. intros l Hl. cbn. induction Hl as [|a l Ha Hl IH]; [done|]. cbn. by rw (codec a Ha) IH. Qed.
#[export] Instance list_not_null {A} (e : A -> json) : NotNull (enc_list e).
Proof. by intros l. Qed.

(** Maps: the members come sorted, and each is read back. *)
Definition enc_map {A} (f : A -> json) (m : gmap string A) : json := map_json (f <$> m).
Lemma dec_members_codec {A} (d : decoder A) (enc : A -> json) P kvs acc :
  Codec d enc P -> Forall (fun kv => P kv.2) kvs ->
  dec_members d ((fun kv => (kv.1, enc kv.2)) <$> kvs) acc = Some (fold_left (fun m kv => <[kv.1 := kv.2]> m) kvs acc).
Proof.
  intros Hd Hall. revert acc. induction Hall as [|[k a] kvs Ha Hall IH]; intros acc; cbn; [done|]. by rw (codec (d := d) a Ha) IH.
Qed.
Lemma dec_map_enc {A} (d : decoder A) (e : A -> json) P (m : gmap string A) :
  Codec d e P -> map_Forall (fun _ => P) m -> dec_map d (enc_map e m) = Some (Some m).
Proof.
  intros Hd Hm. unfold enc_map, map_json. set (l := merge_sort key_le (map_to_list (e <$> m))).
  assert (l ≡ₚ (fun kv => (kv.1, e kv.2)) <$> map_to_list m) as Hp.
  { unfold l. rw merge_sort_Permutation map_to_list_fmap. by apply reflexive_eq, list_fmap_ext; intros ? []. }
  apply Permutation_map_inv in Hp as (l' & Hl & Hp'). symmetry in Hp'.
  assert (Forall (fun kv : string * A => P kv.2) l') as Hall.
  { apply Forall_forall. intros [k a] Hin%list_elem_of_In. rw Hp' in Hin. by apply elem_of_map_to_list in Hin as ?%Hm. }
  cbn. rw Hl (dec_members_codec d e P) //. cbn.
  assert (NoDup l'.*1) as Hnd by by eapply map_range_nodup.
  by rw (fold_insert_nodup _ _ Hnd) right_id_L (map_range_to_map m).
Qed.
#[export] Instance map_codec {A} (d : decoder A) (e : A -> json) P `{!Codec d e P} :
  Codec (dec_map d) (fun m => enc_ptr (enc_map e) m) (opt_ok (map_Forall (fun _ => P))).
Proof. intros [m|] Hm; [|done]. by apply (dec_map_enc d e P). Qed.
#[export] Instance map_not_null {A} (e : A -> json) : NotNull (enc_map e).
Proof. by intros m. Qed.

(** ** Members *)
Lemma find_app name k1 k2 :
  find_field name (k1 ++ k2) = match find_field name k2 with Some j => Some j | None => find_field name k1 end.
Proof.
  induction k1 as [|[k j] k1 IH]; simpl; [by destruct (find_field name k2)|]. rw IH. by destruct (find_field name k2).
Qed.

(** An optional member. *)
Definition part (name : string) (o : option json) : list (string * json) :=
  match o with None => [] | Some j => [(name, j)] end.
Lemma find_part name n o : find_field name (part n o) = if GoStr.equal_fold n name then o else None.
Proof. destruct o; cbn; by destruct (GoStr.equal_fold n name). Qed.
Lemma find_cons name n j rest :
  find_field name ((n, j) :: rest) =
  match find_field name rest with Some j' => Some j' | None => if GoStr.equal_fold n name then Some j else None end.
Proof. done. Qed.
Definition dec_opt {A} (d : decoder A) (zero : A) (o : option json) : option A :=
  match o with Some j => d j | None => Some zero end.
Lemma omitempty_part e name j : omitempty e name j = part name (if e then None else Some j).
Proof. by destruct e. Qed.

(** Fields of an object made of parts. *)
Lemma dec_field_opt {A} (d : decoder A) (zero : A) name kvs : dec_field d zero name kvs = dec_opt d zero (find_field name kvs).
Proof. done. Qed.
Lemma find_nil name : find_field name [] = None.
Proof. done. Qed.
Lemma orelse_none (o : option json) : match o with Some j => Some j | None => None end = o.
Proof. by destruct o. Qed.
Ltac find_parts :=
  rw ?dec_field_opt; rw ?find_app ?find_part ?find_cons ?find_nil;
  repeat match goal with |- context [GoStr.equal_fold ?a ?b] =>
    let r := eval vm_compute in (GoStr.equal_fold a b) in change (GoStr.equal_fold a b) with r end;
  cbv iota beta; rw ?orelse_none.
