(* ===== verification/OpenRTB.v ===== *)
(** * The OpenRTB data model

    The request and bid structures of [openrtb2], field by field, and the bid
    types of [openrtb_ext].  A Go pointer that only marks presence is an
    [option]; a pointer whose target the program mutates while others hold it
    is an address into a store ([loc]): bids (the auction, the caches and the
    seat lists refer to the same objects) and the request's Source (shared by
    the per-bidder copies of a request).  Site, App, the media objects of an imp
    and its deals keep the fields the modelled code reads or writes. *)

From S2P Require Import Prelude Float64 Json.

(** An address of the heap. *)
Abbreviation loc := positive.

Record Geo := mkGeo {
  geo_Lat : float64; geo_Lon : float64; geo_Type : Z; geo_Accuracy : Z; geo_LastFix : Z;
  geo_IPService : Z; geo_Country : string; geo_Region : string; geo_RegionFIPS104 : string;
  geo_Metro : string; geo_City : string; geo_ZIP : string; geo_UTCOffset : Z;
  geo_Ext : RawMessage }.

Definition emptyGeo : Geo :=
  mkGeo F64.zero F64.zero 0 0 0 0 "" "" "" "" "" "" 0 RawNil.

Definition geo_set_LatLon (g : Geo) (lat lon : float64) : Geo :=
  let 'mkGeo _ _ t a lf ips co re rf me ci zip utc ext := g in
  mkGeo lat lon t a lf ips co re rf me ci zip utc ext.

Record Device := mkDevice {
  dev_UA : string; dev_Geo : option Geo; dev_DNT : option Z; dev_Lmt : option Z;
  dev_IP : string; dev_IPv6 : string; dev_DeviceType : Z; dev_Make : string;
  dev_Model : string; dev_OS : string; dev_OSV : string; dev_HWV : string;
  dev_H : Z; dev_W : Z; dev_PPI : Z; dev_PxRatio : float64; dev_JS : Z; dev_GeoFetch : Z;
  dev_FlashVer : string; dev_Language : string; dev_Carrier : string; dev_MCCMNC : string;
  dev_ConnectionType : option Z; dev_IFA : string; dev_DIDSHA1 : string; dev_DIDMD5 : string;
  dev_DPIDSHA1 : string; dev_DPIDMD5 : string; dev_MACSHA1 : string; dev_MACMD5 : string;
  dev_Ext : RawMessage }.

Definition emptyDevice : Device :=
  mkDevice "" None None None "" "" 0 "" "" "" "" "" 0 0 0 F64.zero 0 0 "" "" "" "" None
    "" "" "" "" "" "" "" RawNil.

(** The hardware and device identifiers, cleared. *)
Definition dev_clear_IDs (d : Device) : Device :=
  let 'mkDevice ua geo dnt lmt ip ip6 dt mk mo os osv hwv h w ppi px js gf fv la ca mcc ct
        _ _ _ _ _ _ _ ext := d in
  mkDevice ua geo dnt lmt ip ip6 dt mk mo os osv hwv h w ppi px js gf fv la ca mcc ct
        "" "" "" "" "" "" "" ext.
Definition dev_set_IP (d : Device) (ip : string) : Device :=
  let 'mkDevice ua geo dnt lmt _ ip6 dt mk mo os osv hwv h w ppi px js gf fv la ca mcc ct
        i1 i2 i3 i4 i5 i6 i7 ext := d in
  mkDevice ua geo dnt lmt ip ip6 dt mk mo os osv hwv h w ppi px js gf fv la ca mcc ct
        i1 i2 i3 i4 i5 i6 i7 ext.
Definition dev_set_IPv6 (d : Device) (ip6 : string) : Device :=
  let 'mkDevice ua geo dnt lmt ip _ dt mk mo os osv hwv h w ppi px js gf fv la ca mcc ct
        i1 i2 i3 i4 i5 i6 i7 ext := d in
  mkDevice ua geo dnt lmt ip ip6 dt mk mo os osv hwv h w ppi px js gf fv la ca mcc ct
        i1 i2 i3 i4 i5 i6 i7 ext.
Definition dev_set_Geo (d : Device) (geo : option Geo) : Device :=
  let 'mkDevice ua _ dnt lmt ip ip6 dt mk mo os osv hwv h w ppi px js gf fv la ca mcc ct
        i1 i2 i3 i4 i5 i6 i7 ext := d in
  mkDevice ua geo dnt lmt ip ip6 dt mk mo os osv hwv h w ppi px js gf fv la ca mcc ct
        i1 i2 i3 i4 i5 i6 i7 ext.
Definition dev_set_UA (d : Device) (ua : string) : Device :=
  let 'mkDevice _ geo dnt lmt ip ip6 dt mk mo os osv hwv h w ppi px js gf fv la ca mcc ct
        i1 i2 i3 i4 i5 i6 i7 ext := d in
  mkDevice ua geo dnt lmt ip ip6 dt mk mo os osv hwv h w ppi px js gf fv la ca mcc ct
        i1 i2 i3 i4 i5 i6 i7 ext.
Definition dev_set_DNT (d : Device) (dnt : option Z) : Device :=
  let 'mkDevice ua geo _ lmt ip ip6 dt mk mo os osv hwv h w ppi px js gf fv la ca mcc ct
        i1 i2 i3 i4 i5 i6 i7 ext := d in
  mkDevice ua geo dnt lmt ip ip6 dt mk mo os osv hwv h w ppi px js gf fv la ca mcc ct
        i1 i2 i3 i4 i5 i6 i7 ext.
Definition dev_set_Lmt (d : Device) (lmt : option Z) : Device :=
  let 'mkDevice ua geo dnt _ ip ip6 dt mk mo os osv hwv h w ppi px js gf fv la ca mcc ct
        i1 i2 i3 i4 i5 i6 i7 ext := d in
  mkDevice ua geo dnt lmt ip ip6 dt mk mo os osv hwv h w ppi px js gf fv la ca mcc ct
        i1 i2 i3 i4 i5 i6 i7 ext.

Record User := mkUser {
  usr_ID : string; usr_BuyerUID : string; usr_Yob : Z; usr_Gender : string;
  usr_Keywords : string; usr_CustomData : string; usr_Geo : option Geo;
  usr_Data : list json; usr_Ext : RawMessage }.

Definition emptyUser : User := mkUser "" "" 0 "" "" "" None [] RawNil.
Definition usr_set_BuyerUID (u : User) (b : string) : User :=
  let 'mkUser id _ y g k c geo d ext := u in mkUser id b y g k c geo d ext.
Definition usr_set_Ext (u : User) (ext : RawMessage) : User :=
  let 'mkUser id b y g k c geo d _ := u in mkUser id b y g k c geo d ext.
Definition usr_set_Geo (u : User) (geo : option Geo) : User :=
  let 'mkUser id b y g k c _ d ext := u in mkUser id b y g k c geo d ext.

Record Regs := mkRegs { regs_COPPA : Z; regs_Ext : RawMessage }.
Definition emptyRegs : Regs := mkRegs 0 RawNil.
Definition regs_set_Ext (r : Regs) (ext : RawMessage) : Regs :=
  let 'mkRegs c _ := r in mkRegs c ext.

Record Source := mkSource {
  src_FD : Z; src_TID : string; src_PChain : string; src_Ext : RawMessage }.
Definition emptySource : Source := mkSource 0 "" "" RawNil.
Definition src_set_TID (s : Source) (tid : string) : Source :=
  let 'mkSource f _ p e := s in mkSource f tid p e.
Definition src_set_Ext (s : Source) (ext : RawMessage) : Source :=
  let 'mkSource f t p _ := s in mkSource f t p ext.

Record Publisher := mkPublisher { pub_ID : string; pub_Ext : RawMessage }.
Definition emptyPublisher : Publisher := mkPublisher "" RawNil.
Definition pub_set_ID (p : Publisher) (id : string) : Publisher := mkPublisher id (pub_Ext p).
(** The content object is only passed on. *)
Abbreviation Content := json (only parsing).
Record App := mkApp {
  app_ID : string; app_Bundle : string; app_Publisher : option Publisher; app_Content : option Content;
  app_Ext : RawMessage }.
Definition app_set_Publisher (a : App) (pub : option Publisher) : App :=
  let 'mkApp i b _ c e := a in mkApp i b pub c e.
Definition app_set_Content (a : App) (c : option Content) : App :=
  let 'mkApp i b p _ e := a in mkApp i b p c e.
Definition app_set_Ext (a : App) (ext : RawMessage) : App :=
  let 'mkApp i b p c _ := a in mkApp i b p c ext.
Record Site := mkSite {
  site_ID : string; site_Domain : string; site_Page : string; site_Publisher : option Publisher;
  site_Content : option Content; site_Ext : RawMessage }.
Definition emptySite : Site := mkSite "" "" "" None None RawNil.
Definition site_set_Publisher (s : Site) (pub : option Publisher) : Site :=
  let 'mkSite i d p _ c e := s in mkSite i d p pub c e.
Definition site_set_Content (s : Site) (c : option Content) : Site :=
  let 'mkSite i d p pub _ e := s in mkSite i d p pub c e.
Definition site_set_Domain (s : Site) (d : string) : Site :=
  let 'mkSite i _ p pub c e := s in mkSite i d p pub c e.
Definition site_set_Page (s : Site) (p : string) : Site :=
  let 'mkSite i d _ pub c e := s in mkSite i d p pub c e.
Definition site_set_Ext (s : Site) (e : RawMessage) : Site :=
  let 'mkSite i d p pub c _ := s in mkSite i d p pub c e.

Record Native := mkNative { nat_Request : string; nat_Ver : string; nat_Ext : RawMessage }.
Definition nat_set_Request (n : Native) (r : string) : Native :=
  let 'mkNative _ v e := n in mkNative r v e.
Record Format := mkFormat {
  fmt_W : Z; fmt_H : Z; fmt_WRatio : Z; fmt_HRatio : Z; fmt_WMin : Z; fmt_Ext : RawMessage }.
Definition fmt_set_W (f : Format) (w : Z) : Format :=
  let 'mkFormat _ h wr hr wm e := f in mkFormat w h wr hr wm e.
Definition fmt_set_H (f : Format) (h : Z) : Format :=
  let 'mkFormat w _ wr hr wm e := f in mkFormat w h wr hr wm e.
Record Banner := mkBanner {
  ban_Format : list Format; ban_W : option Z; ban_H : option Z; ban_WMax : Z; ban_HMax : Z;
  ban_WMin : Z; ban_HMin : Z; ban_Ext : RawMessage }.
Definition ban_set_Format (b : Banner) (l : list Format) : Banner :=
  let 'mkBanner _ w h wx hx wn hn e := b in mkBanner l w h wx hx wn hn e.
Definition ban_set_Ext (b : Banner) (ext : RawMessage) : Banner :=
  let 'mkBanner l w h wx hx wn hn _ := b in mkBanner l w h wx hx wn hn ext.
Record Video := mkVideo {
  vid_MIMEs : list string; vid_MinDuration : Z; vid_MaxDuration : Z; vid_Protocols : list Z; vid_W : Z; vid_H : Z; vid_MinBitRate : Z; vid_MaxBitRate : Z;
  vid_Ext : RawMessage }.
Definition vid_set_MIMEs (v : Video) (m : list string) : Video :=
  let 'mkVideo _ mn mx pr w h nb xb e := v in mkVideo m mn mx pr w h nb xb e.
Definition vid_set_MinDuration (v : Video) (d : Z) : Video :=
  let 'mkVideo m _ mx pr w h nb xb e := v in mkVideo m d mx pr w h nb xb e.
Definition vid_set_MaxDuration (v : Video) (d : Z) : Video :=
  let 'mkVideo m mn _ pr w h nb xb e := v in mkVideo m mn d pr w h nb xb e.
Definition vid_set_Ext (v : Video) (ext : RawMessage) : Video :=
  let 'mkVideo m mn mx pr w h nb xb _ := v in mkVideo m mn mx pr w h nb xb ext.
Record Audio := mkAudio {
  aud_MIMEs : list string; aud_Sequence : Z; aud_MinBitrate : Z; aud_MaxBitrate : Z; aud_MaxSeq : Z }.
Record Deal := mkDeal { deal_ID : string; deal_BidFloor : float64; deal_Ext : RawMessage }.
Record PMP := mkPMP { pmp_PrivateAuction : Z; pmp_Deals : list Deal; pmp_Ext : RawMessage }.

Record Imp := mkImp {
  imp_ID : string; imp_Metric : list json; imp_Banner : option Banner; imp_Video : option Video;
  imp_Audio : option Audio; imp_Native : option Native; imp_PMP : option PMP;
  imp_DisplayManager : string; imp_DisplayManagerVer : string; imp_Instl : Z; imp_TagID : string;
  imp_BidFloor : float64; imp_BidFloorCur : string; imp_ClickBrowser : Z; imp_Secure : option Z;
  imp_IframeBuster : list string; imp_Exp : Z; imp_Ext : RawMessage }.
Definition imp_set_Ext (i : Imp) (ext : RawMessage) : Imp :=
  let 'mkImp id me b v a n pmp dm dmv ins tag bf bfc cb sec ifb ex _ := i in
  mkImp id me b v a n pmp dm dmv ins tag bf bfc cb sec ifb ex ext.
Definition imp_set_Banner (i : Imp) (b : option Banner) : Imp :=
  let 'mkImp id me _ v a n pmp dm dmv ins tag bf bfc cb sec ifb ex ext := i in
  mkImp id me b v a n pmp dm dmv ins tag bf bfc cb sec ifb ex ext.
Definition imp_set_Video (i : Imp) (v : option Video) : Imp :=
  let 'mkImp id me b _ a n pmp dm dmv ins tag bf bfc cb sec ifb ex ext := i in
  mkImp id me b v a n pmp dm dmv ins tag bf bfc cb sec ifb ex ext.
Definition imp_set_Audio (i : Imp) (a : option Audio) : Imp :=
  let 'mkImp id me b v _ n pmp dm dmv ins tag bf bfc cb sec ifb ex ext := i in
  mkImp id me b v a n pmp dm dmv ins tag bf bfc cb sec ifb ex ext.
Definition imp_set_Native (i : Imp) (n : option Native) : Imp :=
  let 'mkImp id me b v a _ pmp dm dmv ins tag bf bfc cb sec ifb ex ext := i in
  mkImp id me b v a n pmp dm dmv ins tag bf bfc cb sec ifb ex ext.
Definition imp_set_Secure (i : Imp) (sec : option Z) : Imp :=
  let 'mkImp id me b v a n pmp dm dmv ins tag bf bfc cb _ ifb ex ext := i in
  mkImp id me b v a n pmp dm dmv ins tag bf bfc cb sec ifb ex ext.
Definition imp_set_ID (i : Imp) (id : string) : Imp :=
  let 'mkImp _ me b v a n pmp dm dmv ins tag bf bfc cb sec ifb ex ext := i in
  mkImp id me b v a n pmp dm dmv ins tag bf bfc cb sec ifb ex ext.
Definition imp_set_TagID (i : Imp) (tag : string) : Imp :=
  let 'mkImp id me b v a n pmp dm dmv ins _ bf bfc cb sec ifb ex ext := i in
  mkImp id me b v a n pmp dm dmv ins tag bf bfc cb sec ifb ex ext.
(** An imp of which only the id and the extension are set. *)
Definition simpleImp (id : string) (ext : RawMessage) : Imp :=
  mkImp id [] None None None None None "" "" 0 "" F64.zero "" 0 None [] 0 ext.

Record BidRequest := mkBidRequest {
  req_ID : string; req_Imp : list Imp; req_Site : option Site; req_App : option App;
  req_Device : option Device; req_User : option User; req_Test : Z; req_AT : Z; req_TMax : Z;
  req_Cur : list string; req_BCat : list string; req_BAdv : list string;
  req_Source : option loc; req_Regs : option Regs;
  req_Ext : RawMessage }.

Definition req_set_Imp_Ext (r : BidRequest) (imps : list Imp) (ext : RawMessage) : BidRequest :=
  let 'mkBidRequest id _ si ap dv us te at_ tm cu bc ba so re _ := r in
  mkBidRequest id imps si ap dv us te at_ tm cu bc ba so re ext.
Definition req_set_Source (r : BidRequest) (s : option loc) : BidRequest :=
  let 'mkBidRequest id im si ap dv us te at_ tm cu bc ba _ re ext := r in
  mkBidRequest id im si ap dv us te at_ tm cu bc ba s re ext.
Definition req_set_User (r : BidRequest) (u : option User) : BidRequest :=
  let 'mkBidRequest id im si ap dv _ te at_ tm cu bc ba so re ext := r in
  mkBidRequest id im si ap dv u te at_ tm cu bc ba so re ext.
Definition req_set_Device (r : BidRequest) (d : option Device) : BidRequest :=
  let 'mkBidRequest id im si ap _ us te at_ tm cu bc ba so re ext := r in
  mkBidRequest id im si ap d us te at_ tm cu bc ba so re ext.
Definition req_set_Cur (r : BidRequest) (cur : list string) : BidRequest :=
  let 'mkBidRequest id im si ap dv us te at_ tm _ bc ba so re ext := r in
  mkBidRequest id im si ap dv us te at_ tm cur bc ba so re ext.

Definition req_set_Imp (r : BidRequest) (imps : list Imp) : BidRequest :=
  let 'mkBidRequest id _ si ap dv us te at_ tm cu bc ba so re ext := r in
  mkBidRequest id imps si ap dv us te at_ tm cu bc ba so re ext.
Definition req_set_Site (r : BidRequest) (s : option Site) : BidRequest :=
  let 'mkBidRequest id im _ ap dv us te at_ tm cu bc ba so re ext := r in
  mkBidRequest id im s ap dv us te at_ tm cu bc ba so re ext.
Definition req_set_AT (r : BidRequest) (a : Z) : BidRequest :=
  let 'mkBidRequest id im si ap dv us te _ tm cu bc ba so re ext := r in
  mkBidRequest id im si ap dv us te a tm cu bc ba so re ext.
Definition req_set_Regs (r : BidRequest) (re : option Regs) : BidRequest :=
  let 'mkBidRequest id im si ap dv us te at_ tm cu bc ba so _ ext := r in
  mkBidRequest id im si ap dv us te at_ tm cu bc ba so re ext.
Definition req_set_Ext (r : BidRequest) (ext : RawMessage) : BidRequest :=
  let 'mkBidRequest id im si ap dv us te at_ tm cu bc ba so re _ := r in
  mkBidRequest id im si ap dv us te at_ tm cu bc ba so re ext.

Definition req_set_ID (r : BidRequest) (id : string) : BidRequest :=
  let 'mkBidRequest _ im si ap dv us te at_ tm cu bc ba so re ext := r in
  mkBidRequest id im si ap dv us te at_ tm cu bc ba so re ext.
Definition req_set_App (r : BidRequest) (ap : option App) : BidRequest :=
  let 'mkBidRequest id im si _ dv us te at_ tm cu bc ba so re ext := r in
  mkBidRequest id im si ap dv us te at_ tm cu bc ba so re ext.
Definition req_set_Test (r : BidRequest) (te : Z) : BidRequest :=
  let 'mkBidRequest id im si ap dv us _ at_ tm cu bc ba so re ext := r in
  mkBidRequest id im si ap dv us te at_ tm cu bc ba so re ext.
Definition req_set_TMax (r : BidRequest) (tm : Z) : BidRequest :=
  let 'mkBidRequest id im si ap dv us te at_ _ cu bc ba so re ext := r in
  mkBidRequest id im si ap dv us te at_ tm cu bc ba so re ext.
Definition req_set_BCat (r : BidRequest) (bc : list string) : BidRequest :=
  let 'mkBidRequest id im si ap dv us te at_ tm cu _ ba so re ext := r in
  mkBidRequest id im si ap dv us te at_ tm cu bc ba so re ext.
Definition req_set_BAdv (r : BidRequest) (ba : list string) : BidRequest :=
  let 'mkBidRequest id im si ap dv us te at_ tm cu bc _ so re ext := r in
  mkBidRequest id im si ap dv us te at_ tm cu bc ba so re ext.

(** A request with nothing set, for concrete runs. *)
Definition emptyBidRequest : BidRequest :=
  mkBidRequest "" [] None None None None 0 0 0 [] [] [] None None RawNil.

Record Bid := mkBid {
  bid_ID : string; bid_ImpID : string; bid_Price : float64; bid_NURL : string;
  bid_BURL : string; bid_LURL : string; bid_AdM : string; bid_AdID : string;
  bid_ADomain : list string; bid_Bundle : string; bid_IURL : string; bid_CID : string;
  bid_CrID : string; bid_Tactic : string; bid_Cat : list string; bid_Attr : list Z;
  bid_API : Z; bid_Protocol : Z; bid_QAGMediaRating : Z; bid_Language : string;
  bid_DealID : string; bid_W : Z; bid_H : Z; bid_WRatio : Z; bid_HRatio : Z;
  bid_Exp : Z; bid_Ext : RawMessage }.

Definition emptyBid : Bid :=
  mkBid "" "" F64.zero "" "" "" "" "" [] "" "" "" "" "" [] [] 0 0 0 "" "" 0 0 0 0 0 RawNil.

Definition bid_set_ID (b : Bid) (id : string) : Bid :=
  let 'mkBid _ im p nu bu lu adm ad dom bun iu cid cr ta cat att api pro q la de w h wr hr ex ext := b in
  mkBid id im p nu bu lu adm ad dom bun iu cid cr ta cat att api pro q la de w h wr hr ex ext.
Definition bid_set_Price (b : Bid) (p : float64) : Bid :=
  let 'mkBid id im _ nu bu lu adm ad dom bun iu cid cr ta cat att api pro q la de w h wr hr ex ext := b in
  mkBid id im p nu bu lu adm ad dom bun iu cid cr ta cat att api pro q la de w h wr hr ex ext.
Definition bid_set_AdM (b : Bid) (a : string) : Bid :=
  let 'mkBid id im p nu bu lu _ ad dom bun iu cid cr ta cat att api pro q la de w h wr hr ex ext := b in
  mkBid id im p nu bu lu a ad dom bun iu cid cr ta cat att api pro q la de w h wr hr ex ext.
Definition bid_set_Ext (b : Bid) (e : RawMessage) : Bid :=
  let 'mkBid id im p nu bu lu adm ad dom bun iu cid cr ta cat att api pro q la de w h wr hr ex _ := b in
  mkBid id im p nu bu lu adm ad dom bun iu cid cr ta cat att api pro q la de w h wr hr ex e.

(** A bid of which only the auction-relevant fields are set, for concrete runs. *)
Definition simpleBid (id impid : string) (price : float64) (crid deal : string) : Bid :=
  mkBid id impid price "" "" "" "" "" [] "" "" "" crid "" [] [] 0 0 0 "" deal 0 0 0 0 0 RawNil.

(** ** Bid types, [openrtb_ext/bid.go] *)
Module BidType.
Definition Banner : string := "banner".
Definition Video : string := "video".
Definition Audio : string := "audio".
Definition Native : string := "native".
End BidType.

Record ExtBidPrebidVideo := mkBidVideo { bv_Duration : Z; bv_PrimaryCategory : string }.
Record ExtBidPrebidEvents := mkBidEvents { be_Win : string; be_Imp : string }.

(** [pbsOrtbBid]: a bid inside the exchange.  [pb_bid] is the address of the
    bidder's [openrtb2.Bid], nil when the bidder returned none. *)
Record pbsOrtbBid := mkPbsBid {
  pb_bid : option loc; pb_bidType : string; pb_bidTargets : gmap string string;
  pb_bidVideo : option ExtBidPrebidVideo; pb_bidEvents : option ExtBidPrebidEvents;
  pb_dealPriority : Z; pb_dealTierSatisfied : bool; pb_generatedBidID : string }.

Definition pb_set_targets (b : pbsOrtbBid) (t : gmap string string) : pbsOrtbBid :=
  let 'mkPbsBid bid ty _ v e dp dts g := b in mkPbsBid bid ty t v e dp dts g.
Definition pb_set_events (b : pbsOrtbBid) (ev : option ExtBidPrebidEvents) : pbsOrtbBid :=
  let 'mkPbsBid bid ty t v _ dp dts g := b in mkPbsBid bid ty t v ev dp dts g.
Definition pb_set_dealTierSatisfied (b : pbsOrtbBid) (x : bool) : pbsOrtbBid :=
  let 'mkPbsBid bid ty t v e dp _ g := b in mkPbsBid bid ty t v e dp x g.
Definition pb_set_generatedBidID (b : pbsOrtbBid) (g : string) : pbsOrtbBid :=
  let 'mkPbsBid bid ty t v e dp dts _ := b in mkPbsBid bid ty t v e dp dts g.

Record ExtHttpCall := mkExtHttpCall {
  hc_Uri : string; hc_RequestBody : string; hc_RequestHeaders : option (gmap string (list string));
  hc_ResponseBody : string; hc_Status : Z }.

(** [pbsOrtbSeatBid]. *)
Record pbsOrtbSeatBid := mkSeatBid {
  sb_bids : list loc; sb_currency : string; sb_httpCalls : list ExtHttpCall }.
Definition sb_set_bids (s : pbsOrtbSeatBid) (l : list loc) : pbsOrtbSeatBid :=
  let 'mkSeatBid _ c h := s in mkSeatBid l c h.

(** The heap of one auction: the exchange's bids and the bidders' bids. *)
Record Store := mkStore { st_pbs : gmap loc pbsOrtbBid; st_bid : gmap loc Bid }.

Definition put_pbs (st : Store) (p : loc) (b : pbsOrtbBid) : Store :=
  mkStore (<[p := b]> (st_pbs st)) (st_bid st).
Definition put_bid (st : Store) (p : loc) (b : Bid) : Store :=
  mkStore (st_pbs st) (<[p := b]> (st_bid st)).

(** [p.bid]: the exchange's bid at [p] and the bidder's bid it refers to;
    [None] is a nil dereference. *)
Definition deref (st : Store) (p : loc) : option (pbsOrtbBid * Bid) :=
  match st_pbs st !! p with
  | None => None
  | Some pb =>
      match pb_bid pb with
      | None => None
      | Some q => match st_bid st !! q with None => None | Some b => Some (pb, b) end
      end
  end.
Definition bid_at (st : Store) (p : loc) : option Bid := snd <$> deref st p.
