(* ===== verification/JsonParser.v ===== *)
(** * The jsonparser library

    The program reads single members out of JSON texts with
    [github.com/buger/jsonparser], without decoding the whole.  This is the
    interface of what it uses, as a class, with the documented laws the proofs
    rely on, and an instance for concrete runs. *)

From S2P Require Import Prelude ErrorTypes Json.

(** [jsonparser.ValueType]. *)
Inductive JpType :=
  | JpNotExist | JpString | JpNumber | JpObject | JpArray | JpBoolean | JpNull | JpUnknown.
#[export] Instance jptype_eq_dec : EqDecision JpType.
Proof. solve_decision. Defined.

(** The value as bytes (a string without its quotes) and as the JSON message
    the bytes are, its type, the error. *)
Record JpAnswer := mkJpAnswer {
  jp_value : string; jp_raw : RawMessage; jp_type : JpType; jp_err : option error }.
Definition KeyPathNotFoundError : error := EPlain "Key path not found".

Class JsonParser := {
  jp_Get : RawMessage -> list string -> JpAnswer;
  jp_Set : RawMessage -> json -> string -> RawMessage + error;
  (** The elements [ArrayEach] gives to its callback. *)
  jp_ArrayEach : RawMessage -> list RawMessage }.

Definition json_type (j : json) : JpType :=
  match j with
  | JNull => JpNull
  | JBool _ => JpBoolean
  | JNum _ => JpNumber
  | JStr _ => JpString
  | JArr _ => JpArray
  | JObj _ => JpObject
  end.
(** The text of a scalar; texts of objects and arrays are not read. *)
Definition scalar_text (j : json) : string :=
  match j with
  | JNull => "null"
  | JBool b => if b then "true" else "false"
  | JNum lit => lit
  | JStr s => s
  | JArr _ => "[]"
  | JObj _ => "{}"
  end.
Definition found (a : JpAnswer) (j : json) : Prop :=
  jp_value a = scalar_text j /\ jp_raw a = RawJson j /\ jp_type a = json_type j /\ jp_err a = None.

(** A member that was set, and the only member of an object, are found. *)
Class JsonParserLaws (P : JsonParser) : Prop := {
  jp_get_set : forall r j k r', jp_Set r (JNum j) k = inl r' -> found (jp_Get r' [k]) (JNum j);
  jp_get_single : forall k j, found (jp_Get (RawJson (JObj [(k, JNum j)])) [k]) (JNum j) }.

(** ** An instance for concrete runs: the first member of that exact name. *)
Fixpoint find_exact (name : string) (kvs : list (string * json)) : option json :=
  match kvs with
  | [] => None
  | (k, j) :: rest => if GoStr.eqb k name then Some j else find_exact name rest
  end.
Fixpoint find_path (path : list string) (j : json) : option json :=
  match path with
  | [] => Some j
  | k :: rest => match j with JObj kvs => find_exact k kvs ≫= find_path rest | _ => None end
  end.
Definition exact_Get (r : RawMessage) (path : list string) : JpAnswer :=
  match r with
  | RawJson j => match find_path path j with
                 | Some x => mkJpAnswer (scalar_text x) (RawJson x) (json_type x) None
                 | None => mkJpAnswer "" RawNil JpNotExist (Some KeyPathNotFoundError)
                 end
  | _ => mkJpAnswer "" RawNil JpNotExist (Some KeyPathNotFoundError)
  end.
Fixpoint set_exact (name : string) (x : json) (kvs : list (string * json)) : list (string * json) :=
  match kvs with
  | [] => [(name, x)]
  | (k, j) :: rest => if GoStr.eqb k name then (k, x) :: rest else (k, j) :: set_exact name x rest
  end.
Definition exact_Set (r : RawMessage) (x : json) (name : string) : RawMessage + error :=
  match r with
  | RawJson (JObj kvs) => inl (RawJson (JObj (set_exact name x kvs)))
  | _ => inr KeyPathNotFoundError
  end.

Definition exact_ArrayEach (r : RawMessage) : list RawMessage :=
  match r with RawJson (JArr l) => RawJson <$> l | _ => [] end.

#[export] Instance exact_parser : JsonParser :=
  { jp_Get := exact_Get; jp_Set := exact_Set; jp_ArrayEach := exact_ArrayEach }.

Lemma find_set_exact name x kvs : find_exact name (set_exact name x kvs) = Some x.
Proof.
  induction kvs as [|[k j] kvs IH]; simpl; [by rw eqb_refl|].
  destruct (eqb_spec k name) as [->|Hne]; simpl; [by rw eqb_refl|]. by destruct (eqb_spec k name).
Qed.

#[export] Instance exact_parser_laws : JsonParserLaws exact_parser.
Proof.
  split.
  - intros r j k r'. simpl. destruct r as [| | |[]]; try done. intros [= <-]. by rw /found /= find_set_exact.
  - intros k j. by rw /found /= eqb_refl.
Qed.
