(* ===== verification/Interstitial.v ===== *)
(** * Interstitials

    [endpoints/openrtb2/interstitial.go] with the size table of
    [config/interstitial.go] and the device extension of
    [openrtb_ext/device.go]: the banner sizes of a full-screen imp are
    replaced by those of a fixed table that fit the screen. *)

From S2P Require Import Prelude Float64 ErrorTypes Json OpenRTB JsonParser.

Record ExtDeviceInt := mkDeviceInt { MinWidthPerc : Z; MinHeightPerc : Z }.

(** [ResolvedInterstitialSizes]: width and height. *)
Definition ResolvedInterstitialSizes : list (Z * Z) :=
  [(300, 250); (728, 90); (160, 600); (320, 50); (300, 600); (970, 250); (2000, 1400); (1920, 1200);
   (1800, 1000); (1920, 1080); (1600, 1150); (1696, 900); (1600, 900); (1270, 800); (970, 1000);
   (1920, 480); (320, 320); (1600, 500); (768, 1024); (1024, 768); (828, 910); (728, 970); (120, 600);
   (640, 960); (980, 600); (620, 891); (930, 600); (980, 552); (1272, 328); (300, 50); (500, 1000);
   (900, 550); (980, 500); (970, 500); (800, 600); (336, 280); (1250, 360); (980, 400); (320, 250);
   (320, 480); (980, 240); (580, 400); (970, 415); (480, 820); (620, 620); (980, 300); (970, 90);
   (600, 600); (1800, 200); (970, 310); (720, 480); (1295, 250); (300, 1050); (1272, 250); (300, 300);
   (640, 480); (320, 100); (580, 500); (1000, 300); (1250, 240); (600, 500); (300, 1000); (728, 410);
   (800, 250); (970, 300); (950, 300); (994, 250); (940, 300); (640, 320); (468, 600); (970, 200);
   (930, 180); (250, 600); (491, 555); (550, 480); (750, 300); (980, 250); (1000, 260); (980, 150);
   (350, 240); (970, 210); (640, 360); (580, 415); (480, 300); (750, 200); (360, 640); (624, 368);
   (900, 250); (468, 400); (608, 226); (690, 300); (605, 340); (320, 640); (450, 450); (300, 480);
   (250, 800); (640, 300); (320, 160); (980, 200); (950, 200); (480, 400); (740, 250); (336, 544);
   (303, 603); (320, 568); (301, 601); (300, 601); (600, 300); (180, 500); (980, 120); (950, 180);
   (935, 180); (994, 170); (468, 360); (320, 400); (320, 240); (320, 500); (316, 513); (630, 250);
   (480, 320); (320, 481); (520, 290); (250, 250); (300, 500); (1000, 150); (320, 460); (970, 150);
   (800, 180); (468, 60); (482, 282); (680, 200); (320, 416); (480, 280); (300, 431); (728, 180);
   (300, 430); (180, 701); (840, 150); (600, 200); (768, 150); (200, 600); (350, 350); (202, 600);
   (400, 300); (414, 286); (656, 180); (994, 118); (638, 180); (650, 170); (1000, 90); (300, 360);
   (600, 180); (240, 400); (161, 601); (610, 138); (164, 601); (980, 100); (970, 100); (468, 200);
   (250, 360); (320, 180); (605, 150); (600, 150); (980, 90); (750, 100); (150, 600); (630, 140);
   (696, 120); (307, 254); (303, 253); (703, 110); (550, 140); (300, 251); (298, 250); (500, 150);
   (413, 180); (728, 100); (269, 269); (640, 106); (768, 90); (320, 200); (728, 93); (729, 90);
   (727, 90); (640, 100); (720, 90); (300, 100); (970, 66); (480, 110); (300, 200); (707, 83);
   (900, 65); (467, 120); (200, 200); (450, 121); (320, 150); (600, 90); (300, 170); (468, 100);
   (300, 169); (500, 100); (300, 150); (990, 50); (140, 350); (160, 300); (300, 158); (190, 240);
   (180, 150); (300, 145); (310, 122); (468, 90); (594, 70); (480, 80); (600, 65); (484, 80);
   (320, 75); (335, 100); (375, 80); (300, 75); (120, 240); (480, 60); (300, 90); (120, 60);
   (100, 200); (320, 80); (160, 160); (400, 63); (300, 81); (1, 1); (300, 80); (375, 58); (232, 90);
   (321, 51); (320, 63); (319, 49); (300, 65); (360, 50); (125, 125); (298, 60); (300, 60); (299, 60);
   (301, 50); (234, 60); (280, 47); (120, 90); (13, 13); (17, 17); (168, 50); (140, 50); (120, 20)]%Z.

Section Interstitial.
Context `{JsonParser}.

(** One percentage of [ExtDeviceInt.UnmarshalJSON]. *)
Definition read_perc (j : json) (key : string) : option Z :=
  let a := jp_Get (RawJson j) [key] in
  if negb (bool_decide (jp_type a = JpNumber)) then None
  else match GoStr.atoi (jp_value a) with
       | None => None
       | Some perc => if (perc <? 0)%Z || (100 <? perc)%Z then None else Some perc
       end.
Definition ExtDeviceInt_UnmarshalJSON : decoder ExtDeviceInt := fun j =>
  w ← read_perc j "minwidthperc";
  h ← read_perc j "minheightperc";
  Some (mkDeviceInt w h).

(** [ExtDevice]: the interstitial request; the tracking status must be an
    integer. *)
Definition dec_device_prebid : decoder (option ExtDeviceInt) := dec_struct (fun kvs =>
  dec_field (dec_ptr ExtDeviceInt_UnmarshalJSON) None "interstitial" kvs).
Definition dec_ext_device : decoder (option ExtDeviceInt) := dec_struct (fun kvs =>
  _ ← dec_field (dec_ptr dec_int) None "atts" kvs;
  dec_field dec_device_prebid None "prebid" kvs).

(** The loop stops at ten sizes. *)
Definition in_bounds (minWidth maxWidth minHeight maxHeight : Z) (size : Z * Z) : bool :=
  ((minWidth <=? size.1) && (size.1 <=? maxWidth) && (minHeight <=? size.2) && (size.2 <=? maxHeight))%Z.
Fixpoint collect_sizes (minWidth maxWidth minHeight maxHeight : Z) (table sizes : list (Z * Z)) :
  list (Z * Z) :=
  match table with
  | [] => sizes
  | size :: rest =>
      if in_bounds minWidth maxWidth minHeight maxHeight size then
        let sizes := sizes ++ [size] in
        if (10 <=? length sizes)%nat then sizes
        else collect_sizes minWidth maxWidth minHeight maxHeight rest sizes
      else collect_sizes minWidth maxWidth minHeight maxHeight rest sizes
  end.
Definition genInterstitialFormat (minWidth maxWidth minHeight maxHeight : Z) : list Format :=
  (fun s : Z * Z => mkFormat s.1 s.2 0 0 0 RawNil) <$>
  collect_sizes minWidth maxWidth minHeight maxHeight ResolvedInterstitialSizes [].

(** The greatest width and height: the first format, else the screen. *)
Definition first_size (banner : Banner) : Z * Z :=
  match ban_Format banner with [] => (0, 0)%Z | f :: _ => (fmt_W f, fmt_H f) end.
Definition percent (size perc : Z) : Z := Z.quot (Int64.wrap (size * perc)) 100.

Definition no_device_msg (imp : Imp) : string :=
  "Unable to read max interstitial size for Imp id=" ⧺ imp_ID imp ⧺ " (No Device and no Format objects)".
Definition no_sizes_msg (imp : Imp) (minWidth minHeight maxWidth maxHeight : Z) : string :=
  "Unable to set interstitial size list for Imp id=" ⧺ imp_ID imp ⧺ " (No valid sizes between " ⧺
  GoStr.itoa minWidth ⧺ "x" ⧺ GoStr.itoa minHeight ⧺ " and " ⧺ GoStr.itoa maxWidth ⧺ "x" ⧺
  GoStr.itoa maxHeight ⧺ ")".

Definition processInterstitialsForImp (imp : Imp) (devInt : ExtDeviceInt) (device : option Device) :
  Imp * option error :=
  match imp_Banner imp with
  | None => (imp, None)
  | Some banner =>
      let '(maxWidth, maxHeight) := first_size banner in
      let max := if ((maxWidth <? 2) && (maxHeight <? 2))%Z
                 then match device with None => None | Some d => Some (dev_W d, dev_H d) end
                 else Some (maxWidth, maxHeight) in
      match max with
      | None => (imp, Some (EBadInput (no_device_msg imp)))
      | Some (maxWidth, maxHeight) =>
          let minWidth := percent maxWidth (MinWidthPerc devInt) in
          let minHeight := percent maxHeight (MinHeightPerc devInt) in
          let formats := genInterstitialFormat minWidth maxWidth minHeight maxHeight in
          (imp_set_Banner imp (Some (ban_set_Format banner formats)),
           match formats with
           | [] => Some (EBadInput (no_sizes_msg imp minWidth minHeight maxWidth maxHeight))
           | _ => None
           end)
      end
  end.

(** The loop over the imps; [None] is the nil device that is dereferenced.
    The extension is decoded again for each imp. *)
Fixpoint interstitial_loop (device : option Device) (imps : list Imp) : option (list Imp * option error) :=
  match imps with
  | [] => Some ([], None)
  | imp :: rest =>
      if negb (imp_Instl imp =? 1)%Z then
        '(rest, err) ← interstitial_loop device rest; Some (imp :: rest, err)
      else
        d ← device;
        if raw_is_nil (dev_Ext d) then Some (imp :: rest, None)
        else match unmarshal dec_ext_device (dev_Ext d) with
             | inr err => Some (imp :: rest, Some err)
             | inl None => Some (imp :: rest, None)
             | inl (Some devInt) =>
                 match processInterstitialsForImp imp devInt device with
                 | (imp, Some err) => Some (imp :: rest, Some err)
                 | (imp, None) => '(rest, err) ← interstitial_loop device rest; Some (imp :: rest, err)
                 end
             end
  end.
Definition processInterstitials (req : BidRequest) : option (BidRequest * option error) :=
  '(imps, err) ← interstitial_loop (req_Device req) (req_Imp req);
  Some (req_set_Imp req imps, err).
End Interstitial.

(** ** The specification *)

(** The frame of an interstitial imp: greatest width and height. *)
Definition frame (d : Device) (banner : Banner) : Z * Z :=
  let '(w, h) := first_size banner in if ((w <? 2) && (h <? 2))%Z then (dev_W d, dev_H d) else (w, h).
(** The sizes of the table that fit the frame and fill enough of it. *)
Definition fitting (d : Device) (p : ExtDeviceInt) (banner : Banner) : list (Z * Z) :=
  let '(w, h) := frame d banner in
  List.filter (in_bounds (percent w (MinWidthPerc p)) w (percent h (MinHeightPerc p)) h) ResolvedInterstitialSizes.
Definition as_format (s : Z * Z) : Format := mkFormat s.1 s.2 0 0 0 RawNil.
(** Full-screen banners get the first ten; nothing else changes. *)
Definition resized (d : Device) (p : ExtDeviceInt) (imp : Imp) : Imp :=
  match imp_Banner imp with
  | Some banner =>
      if (imp_Instl imp =? 1)%Z
      then imp_set_Banner imp (Some (ban_set_Format banner (as_format <$> take 10 (fitting d p banner))))
      else imp
  | None => imp
  end.
Definition is_stuck (d : Device) (p : ExtDeviceInt) (imp : Imp) : bool :=
  match imp_Banner imp with
  | Some banner => (imp_Instl imp =? 1)%Z && match fitting d p banner with [] => true | _ => false end
  | None => false
  end.

Lemma collect_sizes_spec a b c d table sizes :
  (length sizes < 10)%nat ->
  collect_sizes a b c d table sizes =
  sizes ++ take (10 - length sizes) (List.filter (in_bounds a b c d) table).
Proof.
  revert sizes. induction table as [|s table IH]; intros sizes Hl; cbn [collect_sizes List.filter].
  - by rw take_nil app_nil_r.
  - destruct (in_bounds a b c d s); [|by apply IH]. rw length_app. cbn [length].
    destruct (10 <=? length sizes + 1)%nat eqn:E.
    + apply Nat.leb_le in E. assert (10 - length sizes = 1)%nat as -> by lia. done.
    + apply Nat.leb_gt in E. rw IH; [rw length_app /=; lia|]. rw -app_assoc length_app. cbn [app length].
      by assert (10 - length sizes = S (10 - (length sizes + 1)))%nat as -> by lia.
Qed.

Section InterstitialFacts.
Context `{JsonParser}.

Lemma processInterstitialsForImp_spec imp p d :
  imp_Instl imp = 1%Z ->
  exists err, processInterstitialsForImp imp p (Some d) = (resized d p imp, err) /\
    (is_Some err <-> is_stuck d p imp = true).
Proof.
  intros Hi. rw /processInterstitialsForImp /resized /is_stuck Hi /fitting /frame.
  destruct (imp_Banner imp) as [banner|]; [|exists None; split; [done|split; [by intros [? ?]|done]]].
  destruct (first_size banner) as [w h].
  assert ((if ((w <? 2) && (h <? 2))%Z then Some (dev_W d, dev_H d) else Some (w, h)) =
    Some (if ((w <? 2) && (h <? 2))%Z then (dev_W d, dev_H d) else (w, h))) as ->
    by by destruct ((w <? 2) && (h <? 2))%Z.
  destruct (if ((w <? 2) && (h <? 2))%Z then _ else _) as [mw mh].
  rw /genInterstitialFormat collect_sizes_spec; [simpl; lia|]. cbn [app length Nat.sub].
  eexists. split; [reflexivity|]. destruct (List.filter _ _); simpl; split; intros Hx; first [done|by eexists|by destruct Hx].
Qed.

(** For a device that asks for interstitial support, processing a request
    never fails to answer; when it reports no error every full-screen banner
    has the first ten sizes of the table that fit between the asked percentage
    of the frame and the whole frame, at least one, and everything else is as
    it was; an error means that no size of the table fits some full-screen
    banner. *)
Theorem interstitials_resized req d p
    (Hd : req_Device req = Some d) (Hnil : raw_is_nil (dev_Ext d) = false)
    (Hp : unmarshal dec_ext_device (dev_Ext d) = inl (Some p)) :
  exists req' err, processInterstitials req = Some (req', err) /\
    req' = req_set_Imp req (req_Imp req') /\
    match err with
    | None => req_Imp req' = resized d p <$> req_Imp req /\
              Forall (fun imp => is_stuck d p imp = false) (req_Imp req)
    | Some _ => exists imp, imp ∈ req_Imp req /\ is_stuck d p imp = true
    end.
Proof.
  rw /processInterstitials Hd.
  assert (exists imps err, interstitial_loop (Some d) (req_Imp req) = Some (imps, err) /\
    match err with
    | None => imps = resized d p <$> req_Imp req /\ Forall (fun imp => is_stuck d p imp = false) (req_Imp req)
    | Some _ => exists imp, imp ∈ req_Imp req /\ is_stuck d p imp = true
    end) as (imps & err & -> & Hspec).
  { induction (req_Imp req) as [|imp rest (imps & err & E & Hspec)]; cbn [interstitial_loop]; [by eexists _, None|].
    assert (forall imp', imp' = resized d p imp -> is_stuck d p imp = false -> exists imps0 err0,
      Some (imp' :: imps, err) = Some (imps0, err0) /\
      match err0 with
      | None => imps0 = resized d p <$> imp :: rest /\ Forall (fun imp => is_stuck d p imp = false) (imp :: rest)
      | Some _ => exists i, i ∈ imp :: rest /\ is_stuck d p i = true
      end) as Hcons.
    { intros imp' -> Hs. eexists _, err. split; [done|]. destruct err.
      - destruct Hspec as (i & Hi & ?). exists i. split; [by apply list_elem_of_further|done].
      - destruct Hspec as [-> Hf]. split; [done|]. by constructor. }
    rw E. destruct (imp_Instl imp =? 1)%Z eqn:Ei; cbn [negb mbind option_bind].
    - rw Hnil Hp. destruct (processInterstitialsForImp_spec imp p d) as (e & -> & He); [lia|].
      destruct e as [e|].
      + eexists _, (Some e). split; [done|]. exists imp. split; [apply list_elem_of_here|]. apply He. by eexists.
      + apply Hcons; [done|]. destruct (is_stuck d p imp); [|done]. by destruct (proj2 He eq_refl).
    - apply Hcons; rw /resized /is_stuck Ei; by destruct (imp_Banner imp). }
  eexists _, err. split; [reflexivity|]. by destruct req.
Qed.

(** A full-screen imp in a request without a device is a nil dereference,
    before the check that would have reported the missing device. *)
Lemma interstitial_without_device_panics req imp :
  req_Device req = None -> imp ∈ req_Imp req -> imp_Instl imp = 1%Z -> processInterstitials req = None.
Proof.
  intros Hd Hin Hi. rw /processInterstitials Hd. clear Hd.
  induction (req_Imp req) as [|i rest IH]; [by apply not_elem_of_nil in Hin|]. cbn [interstitial_loop].
  destruct (imp_Instl i =? 1)%Z eqn:E; [done|]. apply elem_of_cons in Hin as [->|Hin]; [by rw Hi in E|].
  specialize (IH Hin). destruct (interstitial_loop None rest) as [[]|]; [done|done].
Qed.
End InterstitialFacts.

Definition demo_interstitial_request : BidRequest :=
  req_set_Imp (req_set_Device emptyBidRequest (Some
      (let 'mkDevice ua geo dnt lmt ip ip6 dt mk mo os osv hwv _ _ ppi px js gf fv la ca mcc ct a b c d e f g _ := emptyDevice in
       mkDevice ua geo dnt lmt ip ip6 dt mk mo os osv hwv 480 320 ppi px js gf fv la ca mcc ct a b c d e f g
         (RawJson (JObj [("prebid"%string, JObj [("interstitial"%string,
            JObj [("minwidthperc"%string, JNum "60"); ("minheightperc"%string, JNum "50")])])])))))
    [(let 'mkImp id me _ v a n pmp dm dmv _ tag bf bfc cb sec ifb ex ext := simpleImp "i1" RawNil in
      mkImp id me (Some (mkBanner [as_format (1, 1)%Z] None None 0 0 0 0 RawNil)) v a n pmp dm dmv 1 tag bf bfc cb sec ifb ex ext)].


(** The theorem on a phone screen of 320 by 480, of which at least 60% of the
    width and 50% of the height must be filled. *)
Lemma interstitials_resized_witness :
  exists req', processInterstitials demo_interstitial_request = Some (req', None) /\
    exists d p, req_Imp req' = resized d p <$> req_Imp demo_interstitial_request /\
      map (fun imp => hd_error (default [] (ban_Format <$> imp_Banner imp))) (req_Imp req') =
        [Some (as_format (300, 250)%Z)].
Proof.
  destruct (interstitials_resized demo_interstitial_request
    (default emptyDevice (req_Device demo_interstitial_request)) (mkDeviceInt 60 50)
    ltac:(reflexivity) ltac:(reflexivity) ltac:(vm_compute; reflexivity)) as (req' & err & Hrun & _ & Hspec).
  destruct err as [err|]; [vm_compute in Hrun; discriminate Hrun|].
  destruct Hspec as [Hspec _]. exists req'. split; [exact Hrun|].
  exists (default emptyDevice (req_Device demo_interstitial_request)), (mkDeviceInt 60 50).
  split; [exact Hspec|]. rw Hspec. vm_compute. reflexivity.
Defined.
