(* ===== verification/NativeValidation.v ===== *)
(** * Validation of native requests

    The native part of the request validation in
    [endpoints/openrtb2/auction.go]: [fillAndValidateNative] and what it calls.
    The request is a JSON text inside the imp; decoding and encoding it as the
    native library's [Request] are parameters, the structure itself is the
    record below; an error of either is its text. *)

From S2P Require Import Prelude Float64 ErrorTypes Json OpenRTB.

Module NativeReq.
Record Title := mkTitle { ti_Len : Z; ti_Ext : RawMessage }.
Record Image := mkImage {
  im_Type : Z; im_W : Z; im_WMin : Z; im_H : Z; im_HMin : Z; im_MIMEs : list string; im_Ext : RawMessage }.
Record Video := mkVideo {
  vi_MIMEs : list string; vi_MinDuration : Z; vi_MaxDuration : Z; vi_Protocols : list Z; vi_Ext : RawMessage }.
Record Data := mkData { da_Type : Z; da_Len : Z; da_Ext : RawMessage }.
Record Asset := mkAsset {
  as_ID : Z; as_Required : Z; as_Title : option Title; as_Img : option Image; as_Video : option Video;
  as_Data : option Data; as_Ext : RawMessage }.
Record EventTracker := mkTracker { et_Event : Z; et_Methods : list Z; et_Ext : RawMessage }.
Record Request := mkRequest {
  rq_Ver : string; rq_Layout : Z; rq_AdUnit : Z; rq_Context : Z; rq_ContextSubType : Z; rq_PlcmtType : Z;
  rq_PlcmtCnt : Z; rq_Seq : Z; rq_Assets : list Asset; rq_AURLSupport : Z; rq_DURLSupport : Z;
  rq_EventTrackers : list EventTracker; rq_Privacy : Z; rq_Ext : RawMessage }.

Definition as_set_ID (a : Asset) (id : Z) : Asset :=
  let 'mkAsset _ r t i v d e := a in mkAsset id r t i v d e.
Definition rq_set_Assets (q : Request) (l : list Asset) : Request :=
  let 'mkRequest v la au c cs pt pc s _ a d et p e := q in mkRequest v la au c cs pt pc s l a d et p e.
End NativeReq.
Import NativeReq.

(** [openrtb_ext.NativeExchangeSpecificLowerBound]. *)
Definition NativeExchangeSpecificLowerBound : Z := 500.

(** The messages: [request.imp[i]REST]. *)
Definition imp_msg (impIndex : nat) (rest : string) : error :=
  EPlain ("request.imp[" ⧺ GoStr.itoa (Z.of_nat impIndex) ⧺ "]" ⧺ rest).
Definition asset_msg (impIndex assetIndex : nat) (rest : string) : error :=
  imp_msg impIndex (".native.request.assets[" ⧺ GoStr.itoa (Z.of_nat assetIndex) ⧺ "]" ⧺ rest).
Definition native_spec : string :=
  "https://iabtechlab.com/wp-content/uploads/2016/07/OpenRTB-Native-Ads-Specification-Final-1.2.pdf".
Definition see_page (page : string) : string := " See " ⧺ native_spec ⧺ "#page=" ⧺ page.

(** Constants of the native library. *)
Definition ContextTypeContent : Z := 1.
Definition ContextTypeSocial : Z := 2.
Definition ContextTypeProduct : Z := 3.
Definition ContextSubTypeGeneral : Z := 10.
Definition ContextSubTypeUserGenerated : Z := 15.
Definition ContextSubTypeSocial : Z := 20.
Definition ContextSubTypeChat : Z := 22.
Definition ContextSubTypeSelling : Z := 30.
Definition ContextSubTypeProductReview : Z := 32.
Definition PlacementTypeFeed : Z := 1.
Definition PlacementTypeRecommendationWidget : Z := 4.
Definition EventTypeImpression : Z := 1.
Definition EventTypeViewableVideo50 : Z := 4.
Definition EventTrackingMethodImage : Z := 1.
Definition EventTrackingMethodJS : Z := 2.
Definition DataAssetTypeSponsored : Z := 1.
Definition DataAssetTypeCTAText : Z := 12.
Definition ProtocolVAST10 : Z := 1.
Definition ProtocolDAAST10Wrapper : Z := 10.

(** Below the first value, or between the last and the exchange-specific ones. *)
Definition outside (first last v : Z) : bool :=
  ((v <? first) || ((v >? last) && (v <? NativeExchangeSpecificLowerBound)))%Z.

Definition bad_combination (cType cSubtype : Z) (impIndex : nat) : error :=
  imp_msg impIndex (".native.request.context is " ⧺ GoStr.itoa cType ⧺ ", but contextsubtype is " ⧺
    GoStr.itoa cSubtype ⧺ ". This is an invalid combination." ⧺ see_page "39").

Definition validateNativeContextTypes (cType cSubtype : Z) (impIndex : nat) : option error :=
  let needs t := if negb (cType =? t)%Z && (cType <? NativeExchangeSpecificLowerBound)%Z
                 then Some (bad_combination cType cSubtype impIndex) else None in
  if (cType =? 0)%Z then None
  else if outside ContextTypeContent ContextTypeProduct cType then
    Some (imp_msg impIndex (".native.request.context is invalid." ⧺ see_page "39"))
  else if (cSubtype <? 0)%Z then
    Some (imp_msg impIndex (".native.request.contextsubtype value can't be less than 0." ⧺ see_page "39"))
  else if (cSubtype =? 0)%Z then None
  else if ((ContextSubTypeGeneral <=? cSubtype) && (cSubtype <=? ContextSubTypeUserGenerated))%Z then
    needs ContextTypeContent
  else if ((ContextSubTypeSocial <=? cSubtype) && (cSubtype <=? ContextSubTypeChat))%Z then
    needs ContextTypeSocial
  else if ((ContextSubTypeSelling <=? cSubtype) && (cSubtype <=? ContextSubTypeProductReview))%Z then
    needs ContextTypeProduct
  else if (NativeExchangeSpecificLowerBound <=? cSubtype)%Z then None
  else Some (imp_msg impIndex (".native.request.contextsubtype is invalid." ⧺ see_page "39")).

Definition validateNativePlacementType (pt : Z) (impIndex : nat) : option error :=
  if (pt =? 0)%Z then None
  else if outside PlacementTypeFeed PlacementTypeRecommendationWidget pt then
    Some (imp_msg impIndex (".native.request.plcmttype is invalid." ⧺ see_page "40"))
  else None.

Definition validateNativeAssetTitle (title : Title) (impIndex assetIndex : nat) : option error :=
  if (ti_Len title <? 1)%Z then Some (asset_msg impIndex assetIndex ".title.len must be a positive number") else None.

Definition validateNativeAssetImage (img : Image) (impIndex assetIndex : nat) : option error :=
  let bad field := Some (asset_msg impIndex assetIndex (".img." ⧺ field ⧺ " must be a positive integer")) in
  if (im_W img <? 0)%Z then bad "w"%string
  else if (im_H img <? 0)%Z then bad "h"%string
  else if (im_WMin img <? 0)%Z then bad "wmin"%string
  else if (im_HMin img <? 0)%Z then bad "hmin"%string
  else None.

Definition openrtb_spec : string :=
  "https://www.iab.com/wp-content/uploads/2016/03/OpenRTB-API-Specification-Version-2-5-FINAL.pdf#page=52".
Definition validateNativeVideoProtocol (protocol : Z) (impIndex assetIndex protocolIndex : nat) : option error :=
  if ((protocol <? ProtocolVAST10) || (protocol >? ProtocolDAAST10Wrapper))%Z then
    Some (asset_msg impIndex assetIndex (".video.protocols[" ⧺ GoStr.itoa (Z.of_nat protocolIndex) ⧺
      "] is invalid. See Section 5.8: " ⧺ openrtb_spec))
  else None.

(** The first error of a loop that calls a check on every element. *)
Fixpoint first_error {A} (check : A -> nat -> option error) (l : list A) (i : nat) : option error :=
  match l with
  | [] => None
  | x :: rest => match check x i with Some err => Some err | None => first_error check rest (S i) end
  end.

Definition validateNativeVideoProtocols (protocols : list Z) (impIndex assetIndex : nat) : option error :=
  match protocols with
  | [] => Some (asset_msg impIndex assetIndex ".video.protocols must be an array with at least one element")
  | _ => first_error (fun p i => validateNativeVideoProtocol p impIndex assetIndex i) protocols 0
  end.

Definition validateNativeAssetVideo (video : Video) (impIndex assetIndex : nat) : option error :=
  match vi_MIMEs video with
  | [] => Some (asset_msg impIndex assetIndex ".video.mimes must be an array with at least one MIME type")
  | _ =>
      if (vi_MinDuration video <? 1)%Z then
        Some (asset_msg impIndex assetIndex ".video.minduration must be a positive integer")
      else if (vi_MaxDuration video <? 1)%Z then
        Some (asset_msg impIndex assetIndex ".video.maxduration must be a positive integer")
      else validateNativeVideoProtocols (vi_Protocols video) impIndex assetIndex
  end.

Definition validateNativeAssetData (data : Data) (impIndex assetIndex : nat) : option error :=
  if ((da_Type data <? DataAssetTypeSponsored) || ((da_Type data >? DataAssetTypeCTAText) && (da_Type data <? 500)))%Z then
    Some (asset_msg impIndex assetIndex (".data.type is invalid. See section 7.4: " ⧺ native_spec ⧺ "#page=40"))
  else None.

(** One of the four parts: it may not follow another. *)
Definition part_step {A} (part : option A) (check : A -> option error) (assetErr : error)
    (acc : bool + error) : bool + error :=
  match acc, part with
  | inl foundType, Some a =>
      if (foundType : bool) then inr assetErr
      else match check a with Some err => inr err | None => inl true end
  | _, _ => acc
  end.
Definition validateNativeAsset (asset : Asset) (impIndex assetIndex : nat) : option error :=
  let assetErr := asset_msg impIndex assetIndex " must define exactly one of {title, img, video, data}" in
  let acc := part_step (as_Title asset) (fun t => validateNativeAssetTitle t impIndex assetIndex) assetErr (inl false) in
  let acc := part_step (as_Img asset) (fun i => validateNativeAssetImage i impIndex assetIndex) assetErr acc in
  let acc := part_step (as_Video asset) (fun v => validateNativeAssetVideo v impIndex assetIndex) assetErr acc in
  let acc := part_step (as_Data asset) (fun d => validateNativeAssetData d impIndex assetIndex) assetErr acc in
  match acc with
  | inr err => Some err
  | inl false => Some assetErr
  | inl true => None
  end.

(** The loop over the assets, with the ids seen so far. *)
Fixpoint assets_loop (assignAssetIDs : bool) (impIndex i : nat) (assets : list Asset) (assetIDs : gset Z) :
  list Asset + error :=
  match assets with
  | [] => inl []
  | a :: rest =>
      match validateNativeAsset a impIndex i with
      | Some err => inr err
      | None =>
          if assignAssetIDs then
            match assets_loop assignAssetIDs impIndex (S i) rest assetIDs with
            | inl rest => inl (as_set_ID a (Z.of_nat i) :: rest)
            | inr err => inr err
            end
          else if bool_decide (as_ID a ∈ assetIDs) then
            inr (asset_msg impIndex i ".id is already being used by another asset. Each asset ID must be unique.")
          else match assets_loop assignAssetIDs impIndex (S i) rest ({[as_ID a]} ∪ assetIDs) with
               | inl rest => inl (a :: rest)
               | inr err => inr err
               end
      end
  end.
Definition fillAndValidateNativeAssets (assets : list Asset) (impIndex : nat) : list Asset + error :=
  match assets with
  | [] => inr (imp_msg impIndex ".native.request.assets must be an array containing at least one object")
  | _ =>
      let assignAssetIDs := forallb (fun a => as_ID a =? 0)%Z assets in
      assets_loop assignAssetIDs impIndex 0 assets ∅
  end.

Definition tracker_msg (impIndex eventIndex : nat) (rest : string) : error :=
  imp_msg impIndex (".native.request.eventtrackers[" ⧺ GoStr.itoa (Z.of_nat eventIndex) ⧺ "]" ⧺ rest ⧺
    native_spec ⧺ "#page=43").
Definition validateNativeEventTracker (tracker : EventTracker) (impIndex eventIndex : nat) : option error :=
  if outside EventTypeImpression EventTypeViewableVideo50 (et_Event tracker) then
    Some (tracker_msg impIndex eventIndex ".event is invalid. See section 7.6: ")
  else match et_Methods tracker with
       | [] => Some (tracker_msg impIndex eventIndex ".method is required. See section 7.7: ")
       | methods =>
           first_error (fun method methodIndex =>
             if outside EventTrackingMethodImage EventTrackingMethodJS method then
               Some (tracker_msg impIndex eventIndex (".methods[" ⧺ GoStr.itoa (Z.of_nat methodIndex) ⧺
                 "] is invalid. See section 7.7: "))
             else None) methods 0
       end.
Definition validateNativeEventTrackers (trackers : list EventTracker) (impIndex : nat) : option error :=
  first_error (fun t i => validateNativeEventTracker t impIndex i) trackers 0.

Section Native.
Context (UnmarshalNative : string -> Request + string).
Context (MarshalNative : Request -> string + string).

(** The text of the request is replaced by the one with the ids filled in. *)
Definition fillAndValidateNative (n : option Native) (impIndex : nat) : option Native + error :=
  match n with
  | None => inl None
  | Some n =>
      if GoStr.is_empty (nat_Request n) then
        inr (imp_msg impIndex (".native missing required property " ⧺ GoStr.quoted "request"))
      else match UnmarshalNative (nat_Request n) with
           | inr err => inr (EPlain err)
           | inl payload =>
               match validateNativeContextTypes (rq_Context payload) (rq_ContextSubType payload) impIndex with
               | Some err => inr err
               | None =>
                   match validateNativePlacementType (rq_PlcmtType payload) impIndex with
                   | Some err => inr err
                   | None =>
                       match fillAndValidateNativeAssets (rq_Assets payload) impIndex with
                       | inr err => inr err
                       | inl assets =>
                           match validateNativeEventTrackers (rq_EventTrackers payload) impIndex with
                           | Some err => inr err
                           | None =>
                               match MarshalNative (rq_set_Assets payload assets) with
                               | inr err => inr (EPlain err)
                               | inl serialized => inl (Some (nat_set_Request n serialized))
                               end
                           end
                       end
                   end
               end
           end
  end.
End Native.

(** ** The specification *)

(** A value of an enumeration of the standard, or an exchange-specific one. *)
Definition enum (first last v : Z) : Prop := (first <= v <= last \/ 500 <= v)%Z.
Definition optional_enum (first last v : Z) : Prop := v = 0%Z \/ enum first last v.

(** The subtype refines the context it belongs to, whose contexts above 500
    take any. *)
Definition context_ok (context subtype : Z) : Prop :=
  context = 0%Z \/
  (enum 1 3 context /\
   (subtype = 0 \/ 500 <= subtype \/
    ((10 <= subtype <= 15) /\ (context = 1 \/ 500 <= context)) \/
    ((20 <= subtype <= 22) /\ (context = 2 \/ 500 <= context)) \/
    ((30 <= subtype <= 32) /\ (context = 3 \/ 500 <= context)))%Z).

Definition title_ok (t : Title) : Prop := (1 <= ti_Len t)%Z.
Definition image_ok (i : Image) : Prop := (0 <= im_W i /\ 0 <= im_H i /\ 0 <= im_WMin i /\ 0 <= im_HMin i)%Z.
Definition video_ok (v : Video) : Prop :=
  vi_MIMEs v <> [] /\ (1 <= vi_MinDuration v)%Z /\ (1 <= vi_MaxDuration v)%Z /\ vi_Protocols v <> [] /\
  Forall (fun p => 1 <= p <= 10)%Z (vi_Protocols v).
Definition data_ok (d : Data) : Prop := enum 1 12 (da_Type d).
(** Exactly one of the four parts, and that part is right. *)
Definition asset_ok (a : Asset) : Prop :=
  match as_Title a, as_Img a, as_Video a, as_Data a with
  | Some t, None, None, None => title_ok t
  | None, Some i, None, None => image_ok i
  | None, None, Some v, None => video_ok v
  | None, None, None, Some d => data_ok d
  | _, _, _, _ => False
  end.
Definition tracker_ok (t : EventTracker) : Prop :=
  enum 1 4 (et_Event t) /\ et_Methods t <> [] /\ Forall (enum 1 2) (et_Methods t).
(** What validation promises of a native request. *)
Definition native_ok (q : Request) : Prop :=
  context_ok (rq_Context q) (rq_ContextSubType q) /\ optional_enum 1 4 (rq_PlcmtType q) /\
  rq_Assets q <> [] /\ Forall asset_ok (rq_Assets q) /\ NoDup (as_ID <$> rq_Assets q) /\
  Forall tracker_ok (rq_EventTrackers q).

(** The ids a caller left out are the positions. *)
Definition ids_filled (q : Request) : Request :=
  if forallb (fun a => as_ID a =? 0)%Z (rq_Assets q)
  then rq_set_Assets q (imap (fun i a => as_set_ID a (Z.of_nat i)) (rq_Assets q)) else q.

(** ** Each check decides its condition *)
Lemma outside_spec a b v : (a <= b)%Z -> (b < 500)%Z -> outside a b v = false <-> enum a b v.
Proof. rw /outside /enum /NativeExchangeSpecificLowerBound. intros. lia. Qed.

(** A chain of checks is over when every test has failed. *)
Ltac check_chain :=
  repeat match goal with |- context [if ?b then _ else _] => destruct b eqn:? end.

Lemma context_spec c s i : validateNativeContextTypes c s i = None <-> context_ok c s.
Proof.
  rw /validateNativeContextTypes /context_ok /enum /outside /NativeExchangeSpecificLowerBound
    /ContextTypeContent /ContextTypeSocial /ContextTypeProduct /ContextSubTypeGeneral /ContextSubTypeUserGenerated
    /ContextSubTypeSocial /ContextSubTypeChat /ContextSubTypeSelling /ContextSubTypeProductReview.
  check_chain; split; intros; try done; lia.
Qed.

Lemma placement_spec pt i : validateNativePlacementType pt i = None <-> optional_enum 1 4 pt.
Proof.
  rw /validateNativePlacementType /optional_enum -(outside_spec 1 4) //.
  rw /PlacementTypeFeed /PlacementTypeRecommendationWidget.
  destruct (pt =? 0)%Z eqn:E; [split; [left; lia|done]|].
  destruct (outside 1 4 pt); split; try done; [intros [?|?]; [lia|done]|by right].
Qed.

Lemma first_error_spec {A} (check : A -> nat -> option error) (ok : A -> Prop) l i :
  (forall x i, check x i = None <-> ok x) -> first_error check l i = None <-> Forall ok l.
Proof.
  intros Hc. revert i. induction l as [|x l IH]; intros i; simpl; [by split|].
  rw list.Forall_cons -(Hc x i). destruct (check x i); [split; [done|by intros [? ?]]|].
  rw IH. split; [done|by intros [? ?]].
Qed.

(** Every error of a check is fatal. *)
Definition fatal_check (e : option error) : Prop := forall err, e = Some err -> isFatal err = true.
Lemma first_error_fatal {A} (check : A -> nat -> option error) l i :
  (forall x i, fatal_check (check x i)) -> fatal_check (first_error check l i).
Proof.
  intros Hc. revert i. induction l as [|x l IH]; intros i err; simpl; [done|].
  destruct (check x i) eqn:E; [|apply IH]. intros [= <-]. by eapply Hc.
Qed.
Ltac fatal_chain := intros ?err; check_chain; try done; by intros [= <-].

Lemma title_spec t i j : validateNativeAssetTitle t i j = None <-> title_ok t.
Proof. rw /validateNativeAssetTitle /title_ok. check_chain; split; intros; try done; lia. Qed.
Lemma image_spec m i j : validateNativeAssetImage m i j = None <-> image_ok m.
Proof. rw /validateNativeAssetImage /image_ok. check_chain; split; intros; try done; lia. Qed.
Lemma data_spec d i j : validateNativeAssetData d i j = None <-> data_ok d.
Proof.
  rw /validateNativeAssetData /data_ok /enum /DataAssetTypeSponsored /DataAssetTypeCTAText.
  check_chain; split; intros; try done; lia.
Qed.

Lemma video_spec v i j : validateNativeAssetVideo v i j = None <-> video_ok v.
Proof.
  rw /validateNativeAssetVideo /video_ok.
  assert (validateNativeVideoProtocols (vi_Protocols v) i j = None <->
    vi_Protocols v <> [] /\ Forall (fun p => 1 <= p <= 10)%Z (vi_Protocols v)) as Hp.
  { rw /validateNativeVideoProtocols -(first_error_spec (fun p k => validateNativeVideoProtocol p i j k) _ _ 0).
    - intros p k. rw /validateNativeVideoProtocol /ProtocolVAST10 /ProtocolDAAST10Wrapper.
      check_chain; split; intros; try done; lia.
    - destruct (vi_Protocols v); [split; [done|by intros [? ?]]|]. split; [by split|by intros [_ ?]]. }
  destruct (vi_MIMEs v) as [|m ms]; [split; [done|by intros [? ?]]|].
  destruct (vi_MinDuration v <? 1)%Z eqn:E1; [split; [done|intros (_ & ? & _); lia]|].
  destruct (vi_MaxDuration v <? 1)%Z eqn:E2; [split; [done|intros (_ & _ & ? & _); lia]|].
  rw Hp. split; [intros [? ?]|intros (_ & _ & _ & ? & ?)]; repeat split; try done; lia.
Qed.

Lemma asset_spec a i j : validateNativeAsset a i j = None <-> asset_ok a.
Proof.
  rw /validateNativeAsset /asset_ok.
  destruct (as_Title a) as [t|], (as_Img a) as [m|], (as_Video a) as [v|], (as_Data a) as [d|]; cbn [part_step];
    rw -?(title_spec t i j) -?(image_spec m i j) -?(video_spec v i j) -?(data_spec d i j);
    repeat match goal with |- context [match ?c with Some _ => _ | None => _ end] => destruct c end; simpl; by split.
Qed.

Lemma tracker_spec t i j : validateNativeEventTracker t i j = None <-> tracker_ok t.
Proof.
  rw /validateNativeEventTracker /tracker_ok -(outside_spec 1 4) //.
  rw /EventTypeImpression /EventTypeViewableVideo50.
  destruct (outside 1 4 _); [split; [done|by intros [? ?]]|].
  destruct (et_Methods t) as [|m ms]; [split; [done|by intros (_ & ? & _)]|].
  rw (first_error_spec _ (enum 1 2)).
  - intros x k. rw -(outside_spec 1 2) // /EventTrackingMethodImage /EventTrackingMethodJS.
    by destruct (outside 1 2 x).
  - split; [by repeat split|by intros (_ & _ & ?)].
Qed.

Lemma asset_ok_set_ID a id : asset_ok (as_set_ID a id) <-> asset_ok a.
Proof. by destruct a. Qed.

Lemma asset_error a i j err : validateNativeAsset a i j = Some err -> ~ asset_ok a.
Proof. intros H Hok. by rw (proj2 (asset_spec a i j) Hok) in H. Qed.

Lemma assets_loop_assign i k l s :
  match assets_loop true i k l s with
  | inl r => Forall asset_ok l /\ r = imap (fun j a => as_set_ID a (Z.of_nat (k + j))) l
  | inr _ => ~ Forall asset_ok l
  end.
Proof.
  revert k. induction l as [|a l IH]; intros k; cbn [assets_loop]; [done|].
  destruct (validateNativeAsset a i k) eqn:Ea; [by intros [? _]%list.Forall_cons; eapply asset_error|].
  apply asset_spec in Ea. specialize (IH (S k)). destruct (assets_loop _ _ _ _ _).
  - destruct IH as [Hf ->]. split; [by constructor|]. rw imap_cons Nat.add_0_r. f_equal. apply imap_ext.
    intros j x _. simpl. do 2 f_equal. lia.
  - by intros [_ ?]%list.Forall_cons.
Qed.

Lemma assets_loop_keep i k l s :
  match assets_loop false i k l s with
  | inl r => r = l /\ Forall asset_ok l /\ NoDup (as_ID <$> l) /\ forall a, a ∈ l -> as_ID a ∉ s
  | inr _ => ~ (Forall asset_ok l /\ NoDup (as_ID <$> l) /\ forall a, a ∈ l -> as_ID a ∉ s)
  end.
Proof.
  revert k s. induction l as [|a l IH]; intros k s; cbn [assets_loop].
  { repeat split; [constructor..|]. by intros ? ?%not_elem_of_nil. }
  destruct (validateNativeAsset a i k) eqn:Ea; [by intros [[? _]%list.Forall_cons _]; eapply asset_error|].
  apply asset_spec in Ea. case_bool_decide as Hs.
  { intros (_ & _ & Hn). apply (Hn a); [apply list_elem_of_here|done]. }
  specialize (IH (S k) ({[as_ID a]} ∪ s)). rw fmap_cons. destruct (assets_loop _ _ _ _ _).
  - destruct IH as (-> & Hf & Hnd & Hn). split; [done|]. split; [by constructor|]. split.
    + constructor; [|done]. intros (x & Hx & Hin)%list_elem_of_fmap. apply (Hn x Hin). set_solver.
    + intros x [->|Hin]%elem_of_cons; [done|]. specialize (Hn x Hin). set_solver.
  - intros ([_ Hf]%list.Forall_cons & [Hni Hnd]%list.NoDup_cons & Hn). apply IH. split; [done|]. split; [done|].
    intros x Hin [Hx%elem_of_singleton|Hx]%elem_of_union.
    + apply Hni. rw -Hx. by apply list_elem_of_fmap_2.
    + apply (Hn x); [by apply list_elem_of_further|done].
Qed.

Lemma filled_ids_nodup (l : list Asset) k :
  NoDup (as_ID <$> imap (fun j a => as_set_ID a (Z.of_nat (k + j))) l).
Proof.
  revert k. induction l as [|a l IH]; intros k; [constructor|]. rw imap_cons fmap_cons.
  assert (imap ((fun j a => as_set_ID a (Z.of_nat (k + j))) ∘ S) l =
    imap (fun j a => as_set_ID a (Z.of_nat (S k + j))) l) as ->.
  { apply imap_ext. intros j x _. simpl. do 2 f_equal. lia. }
  constructor; [|apply IH]. intros (x & Hx & (j & y & -> & _)%elem_of_lookup_imap_1)%list_elem_of_fmap.
  destruct a, y. simpl in Hx. lia.
Qed.

Lemma forall_imap_ids (f : nat -> Asset -> Z) (l : list Asset) :
  Forall asset_ok (imap (fun j a => as_set_ID a (f j a)) l) <-> Forall asset_ok l.
Proof.
  revert f. induction l as [|a l IH]; intros f; [done|]. rw imap_cons !list.Forall_cons asset_ok_set_ID.
  by rw (IH (fun j a => f (S j) a)).
Qed.

Lemma fill_assets_spec q i :
  match fillAndValidateNativeAssets (rq_Assets q) i with
  | inl r => r = rq_Assets (ids_filled q) /\ rq_Assets (ids_filled q) <> [] /\
             Forall asset_ok (rq_Assets (ids_filled q)) /\ NoDup (as_ID <$> rq_Assets (ids_filled q))
  | inr _ => ~ (rq_Assets (ids_filled q) <> [] /\ Forall asset_ok (rq_Assets (ids_filled q)) /\
                NoDup (as_ID <$> rq_Assets (ids_filled q)))
  end.
Proof.
  assert (forall l, rq_Assets (rq_set_Assets q l) = l) as Hset by (by destruct q).
  rw /fillAndValidateNativeAssets /ids_filled. destruct (rq_Assets q) as [|a l] eqn:Ea.
  { rw /= Hset. by intros [? _]. }
  set (al := a :: l) in *. destruct (forallb _ al).
  - rw Hset. pose proof (assets_loop_assign i 0 al ∅) as H.
    destruct (assets_loop _ _ _ _ _).
    + destruct H as [Hf ->]. split; [done|]. split; [done|]. split; [by apply forall_imap_ids|apply (filled_ids_nodup al 0)].
    + by intros (_ & Hf%forall_imap_ids & _).
  - rw Ea. pose proof (assets_loop_keep i 0 al ∅) as H. destruct (assets_loop _ _ _ _ _).
    + by destruct H as (-> & Hf & Hnd & _).
    + intros (_ & Hf & Hnd). apply H. split; [done|]. split; [done|]. set_solver.
Qed.

Lemma part_step_fatal {A} (part : option A) check e acc :
  isFatal e = true -> (forall a, fatal_check (check a)) -> (forall err, acc = inr err -> isFatal err = true) ->
  forall err, part_step part check e acc = inr err -> isFatal err = true.
Proof.
  intros He Hc Ha err. destruct acc as [b|], part as [a|]; cbn [part_step]; try done; [|apply Ha..].
  destruct b; [by intros [= <-]|]. destruct (check a) eqn:E; [|done]. intros [= <-]. by eapply Hc.
Qed.

Lemma asset_video_fatal v i j : fatal_check (validateNativeAssetVideo v i j).
Proof.
  intros err. rw /validateNativeAssetVideo. destruct (vi_MIMEs v); [by intros [= <-]|]. check_chain; try (by intros [= <-]).
  rw /validateNativeVideoProtocols. destruct (vi_Protocols v); [by intros [= <-]|].
  revert err. apply first_error_fatal. intros y k. rw /validateNativeVideoProtocol. fatal_chain.
Qed.

Lemma asset_fatal a i j : fatal_check (validateNativeAsset a i j).
Proof.
  intros err. rw /validateNativeAsset. destruct (part_step (as_Data a) _ _ _) as [[]|e] eqn:E; try (by intros [= <-]).
  intros [= <-]. revert e E. apply part_step_fatal; [done|intros d; rw /validateNativeAssetData; fatal_chain|].
  apply part_step_fatal; [done|intros v; apply asset_video_fatal|].
  apply part_step_fatal; [done|intros m; rw /validateNativeAssetImage; fatal_chain|].
  by apply part_step_fatal; [|intros t; rw /validateNativeAssetTitle; fatal_chain|].
Qed.

Lemma native_fatal un ma n i err : fillAndValidateNative un ma n i = inr err -> isFatal err = true.
Proof.
  destruct n as [n|]; [|done]. rw /fillAndValidateNative. destruct (GoStr.is_empty _); [by intros [= <-]|].
  destruct (un _) as [q|]; [|by intros [= <-]].
  destruct (validateNativeContextTypes _ _ _) as [e|] eqn:Ec.
  { intros [= <-]. revert e Ec. rw /validateNativeContextTypes. fatal_chain. }
  destruct (validateNativePlacementType _ _) as [e|] eqn:Ep.
  { intros [= <-]. revert e Ep. rw /validateNativePlacementType. fatal_chain. }
  destruct (fillAndValidateNativeAssets _ _) as [l|e] eqn:Ea.
  - destruct (validateNativeEventTrackers _ _) as [e|] eqn:Et.
    { intros [= <-]. revert e Et. apply first_error_fatal. intros t k e. rw /validateNativeEventTracker.
      destruct (outside _ _ _); [by intros [= <-]|]. destruct (et_Methods t); [by intros [= <-]|].
      revert e. apply first_error_fatal. intros x j. fatal_chain. }
    destruct (ma _); by intros [= <-].
  - intros [= <-]. revert Ea. rw /fillAndValidateNativeAssets. destruct (rq_Assets q) as [|a l]; [by intros [= <-]|].
    generalize (forallb (fun a => as_ID a =? 0)%Z (a :: l)), (∅ : gset Z), 0%nat. induction (a :: l) as [|b r IH]; intros as_ s k; [done|].
    cbn [assets_loop]. destruct (validateNativeAsset b i k) eqn:E; [intros [= <-]; by eapply asset_fatal|].
    destruct as_; [destruct (assets_loop _ _ _ _ _) eqn:El; [done|intros [= <-]; by eapply IH]|].
    case_bool_decide; [by intros [= <-]|]. destruct (assets_loop _ _ _ _ _) eqn:El; [done|intros [= <-]; by eapply IH].
Qed.

Section NativeFacts.
Context (UnmarshalNative : string -> Request + string).
Context (MarshalNative : Request -> string + string).

(** The native validation accepts a request exactly when, with the asset
    ids filled in where the caller gave none, it satisfies the native
    specification: a known context with a subtype that fits it, a known
    placement, assets with distinct ids that each hold exactly one well-formed
    part, well-formed trackers.  What it stores is that request and nothing
    else of the imp changes; apart from that it only fails when the request
    cannot be encoded. *)
Theorem native_validation n impIndex q
    (Htext : nat_Request n <> ""%string) (Hq : UnmarshalNative (nat_Request n) = inl q) :
  match fillAndValidateNative UnmarshalNative MarshalNative (Some n) impIndex with
  | inl r => native_ok (ids_filled q) /\
             exists text, MarshalNative (ids_filled q) = inl text /\ r = Some (nat_set_Request n text)
  | inr _ => ~ native_ok (ids_filled q) \/ exists err, MarshalNative (ids_filled q) = inr err
  end.
Proof.
  rw /fillAndValidateNative Hq. assert (GoStr.is_empty (nat_Request n) = false) as -> by by destruct (nat_Request n).
  pose proof (context_spec (rq_Context q) (rq_ContextSubType q) impIndex) as Hc.
  pose proof (placement_spec (rq_PlcmtType q) impIndex) as Hpl.
  pose proof (fill_assets_spec q impIndex) as Ha.
  pose proof (first_error_spec (fun t i => validateNativeEventTracker t impIndex i) tracker_ok (rq_EventTrackers q) 0
    (fun x i => tracker_spec x impIndex i)) as Ht.
  assert (native_ok (ids_filled q) <->
    context_ok (rq_Context q) (rq_ContextSubType q) /\ optional_enum 1 4 (rq_PlcmtType q) /\
    (rq_Assets (ids_filled q) <> [] /\ Forall asset_ok (rq_Assets (ids_filled q)) /\
     NoDup (as_ID <$> rq_Assets (ids_filled q))) /\ Forall tracker_ok (rq_EventTrackers q)) as Hok.
  { rw /native_ok /ids_filled. destruct (forallb _ _), q; simpl; tauto. }
  destruct (validateNativeContextTypes _ _ _); [left; by intros [?%Hc _]%Hok|].
  destruct (validateNativePlacementType _ _); [left; by intros (_ & ?%Hpl & _)%Hok|].
  destruct (fillAndValidateNativeAssets _ _) as [assets|]; [|left; by intros (_ & _ & ? & _)%Hok].
  destruct Ha as [-> Ha]. rw /validateNativeEventTrackers.
  destruct (first_error _ _ _); [left; by intros (_ & _ & _ & ?%Ht)%Hok|].
  assert (rq_set_Assets q (rq_Assets (ids_filled q)) = ids_filled q) as ->.
  { rw /ids_filled. destruct (forallb _ _); by destruct q. }
  destruct (MarshalNative (ids_filled q)) as [text|err]; [|right; by exists err].
  split; [apply Hok; split; [by apply Hc|split; [by apply Hpl|split; [done|by apply Ht]]]|by exists text].
Qed.
End NativeFacts.

Definition demo_native_request : Request :=
  mkRequest "1.2" 0 0 1 11 4 0 0
    [mkAsset 0 1 (Some (mkTitle 90 RawNil)) None None None RawNil;
     mkAsset 0 0 None (Some (mkImage 3 300 0 250 0 [] RawNil)) None None RawNil] 0 0
    [mkTracker 1 [1; 2]%Z RawNil] 0 RawNil.
Definition demo_unmarshal_native (s : string) : Request + string :=
  if GoStr.eqb s "{}" then inl demo_native_request else inr "unexpected end of JSON input"%string.
Definition demo_marshal_native (q : Request) : string + string :=
  inl (GoStr.join "," (map (fun a => GoStr.itoa (as_ID a)) (rq_Assets q))).

(** The theorem on a request of two assets without ids. *)
Lemma native_validation_witness :
  native_ok (ids_filled demo_native_request) /\
  fillAndValidateNative demo_unmarshal_native demo_marshal_native (Some (mkNative "{}" "1.2" RawNil)) 0 =
    inl (Some (mkNative "0,1" "1.2" RawNil)).
Proof.
  assert (fillAndValidateNative demo_unmarshal_native demo_marshal_native (Some (mkNative "{}" "1.2" RawNil)) 0 =
    inl (Some (mkNative "0,1" "1.2" RawNil))) as E by (vm_compute; reflexivity).
  split; [|exact E].
  pose proof (native_validation demo_unmarshal_native demo_marshal_native (mkNative "{}" "1.2" RawNil) 0
    demo_native_request ltac:(discriminate) eq_refl) as H. rw E in H. by destruct H.
Defined.
