(* ===== verification/PriceGranularity.v ===== *)
(** * Price granularity

    [openrtb_ext.PriceGranularity] with its decoder, and the bucketing of
    [exchange/price_granularity.go].  The precision of a granularity is a
    natural number: the decoder refuses negative ones and the built-in
    granularities all use 2. *)

From S2P Require Import Prelude Float64 ErrorTypes Json.

Record GranularityRange := mkRange {
  gr_Min : float64; gr_Max : float64; gr_Increment : float64 }.
Record PriceGranularity := mkPG { pg_Precision : nat; pg_Ranges : list GranularityRange }.

Definition MaxDecimalFigures : Z := 15.

Definition priceGranularityLow : PriceGranularity :=
  mkPG 2 [mkRange F64.zero (F64.of_Z 5) (F64.of_ratio 5 10)].
Definition priceGranularityMed : PriceGranularity :=
  mkPG 2 [mkRange F64.zero (F64.of_Z 20) (F64.of_ratio 1 10)].
Definition priceGranularityHigh : PriceGranularity :=
  mkPG 2 [mkRange F64.zero (F64.of_Z 20) (F64.of_ratio 1 100)].
Definition priceGranularityDense : PriceGranularity :=
  mkPG 2 [mkRange F64.zero (F64.of_Z 3) (F64.of_ratio 1 100);
          mkRange (F64.of_Z 3) (F64.of_Z 8) (F64.of_ratio 5 100);
          mkRange (F64.of_Z 8) (F64.of_Z 20) (F64.of_ratio 5 10)].
Definition priceGranularityAuto : PriceGranularity :=
  mkPG 2 [mkRange F64.zero (F64.of_Z 5) (F64.of_ratio 5 100);
          mkRange (F64.of_Z 5) (F64.of_Z 10) (F64.of_ratio 1 10);
          mkRange (F64.of_Z 10) (F64.of_Z 20) (F64.of_ratio 5 10)].

Definition PriceGranularityFromString (gran : string) : PriceGranularity :=
  if GoStr.eqb gran "low" then priceGranularityLow
  else if GoStr.eqb gran "med" || GoStr.eqb gran "medium" then priceGranularityMed
  else if GoStr.eqb gran "high" then priceGranularityHigh
  else if GoStr.eqb gran "auto" then priceGranularityAuto
  else if GoStr.eqb gran "dense" then priceGranularityDense
  else mkPG 0 [].

(** Decoding into a field that already holds [prev]: null leaves it. *)
Definition dec_keep {A} (prev : A) (d : decoder A) : decoder A := fun j =>
  match j with JNull => Some prev | _ => d j end.

Definition dec_range : decoder GranularityRange := dec_struct (fun kvs =>
  mn ← dec_field dec_float F64.zero "min" kvs;
  mx ← dec_field dec_float F64.zero "max" kvs;
  inc ← dec_field dec_float F64.zero "increment" kvs;
  Some (mkRange mn mx inc)).

(** [PriceGranularityRaw], with the precision preset to 2. *)
Definition dec_granularity_raw : decoder (Z * list GranularityRange) := dec_struct (fun kvs =>
  p ← dec_field (dec_keep 2%Z dec_int) 2%Z "precision" kvs;
  rs ← dec_field (dec_list dec_range) [] "ranges" kvs;
  Some (p, rs)).

(** The loop over the ranges: checks them and sets every "min". *)
Fixpoint check_ranges (prevMax : float64) (rs : list GranularityRange) :
  list GranularityRange + error :=
  match rs with
  | [] => inl []
  | gr :: rest =>
      if F64.leb (gr_Max gr) prevMax then
        inr (EPlain ("Price granularity error: range list must be ordered with increasing " ⧺ GoStr.quoted "max"))
      else if F64.leb (gr_Increment gr) F64.zero then
        inr (EPlain "Price granularity error: increment must be a nonzero positive number")
      else match check_ranges (gr_Max gr) rest with
           | inl rest' => inl (mkRange prevMax (gr_Max gr) (gr_Increment gr) :: rest')
           | inr e => inr e
           end
  end.

(** [PriceGranularity.UnmarshalJSON] on a JSON value. *)
Definition PriceGranularity_UnmarshalJSON (j : json) : PriceGranularity + error :=
  let legacy := match dec_string j with
                | Some s => PriceGranularityFromString s
                | None => mkPG 0 []
                end in
  match pg_Ranges legacy with
  | _ :: _ => inl legacy
  | [] =>
      match dec_granularity_raw j with
      | None => inr json_type_error
      | Some (precision, ranges) =>
          if (precision <? 0)%Z then
            inr (EPlain "Price granularity error: precision must be non-negative")
          else if (MaxDecimalFigures <? precision)%Z then
            inr (EPlain "Price granularity error: precision of more than 15 significant figures is not supported")
          else match ranges with
               | [] => inl priceGranularityMed
               | _ :: _ =>
                   match check_ranges F64.zero ranges with
                   | inl rs => inl (mkPG (Z.to_nat precision) rs)
                   | inr e => inr e
                   end
               end
      end
  end.

(** ** Buckets *)
Definition getCpmTarget (cpm increment : float64) (precision : nat) : string :=
  let roundedCPM := F64.mul (F64.floor (F64.div cpm increment)) increment in
  F64.format_f roundedCPM precision.

(** One iteration of the loop of [GetPriceBucket]. *)
Definition bucket_step (cpm : float64) (acc : float64 * float64) (r : GranularityRange) :
  float64 * float64 :=
  let '(bucketMax, increment) := acc in
  let bucketMax := if F64.gtb (gr_Max r) bucketMax then gr_Max r else bucketMax in
  let increment := if F64.geb cpm (gr_Min r) && F64.leb cpm (gr_Max r)
                   then gr_Increment r else increment in
  (bucketMax, increment).

Definition GetPriceBucket (cpm : float64) (config : PriceGranularity) : string :=
  let '(bucketMax, increment) :=
    fold_left (bucket_step cpm) (pg_Ranges config) (F64.zero, F64.zero) in
  if F64.gtb cpm bucketMax then F64.format_f bucketMax (pg_Precision config)
  else if F64.gtb increment F64.zero then getCpmTarget cpm increment (pg_Precision config)
  else "".

(** ** Well-formed granularities

    Ranges follow each other from 0, each above the previous one, with
    positive increments. *)
Fixpoint wf_ranges (lo : float64) (rs : list GranularityRange) : bool :=
  match rs with
  | [] => true
  | r :: rest =>
      F64.eqb (gr_Min r) lo && F64.ltb (gr_Min r) (gr_Max r) &&
      F64.ltb F64.zero (gr_Increment r) && wf_ranges (gr_Max r) rest
  end.
Definition wf_granularity (pg : PriceGranularity) : bool :=
  (pg_Precision pg <=? 15)%nat && bool_decide (pg_Ranges pg <> []) &&
  wf_ranges F64.zero (pg_Ranges pg).

(** The reference: the range a price falls into (the later one at a shared
    boundary) and the largest price with a bucket of its own. *)
Definition in_bucket (cpm : float64) (r : GranularityRange) : bool :=
  F64.geb cpm (gr_Min r) && F64.leb cpm (gr_Max r).
Fixpoint last_range (cpm : float64) (rs : list GranularityRange) : option GranularityRange :=
  match rs with
  | [] => None
  | r :: rest =>
      match last_range cpm rest with
      | Some r' => Some r'
      | None => if in_bucket cpm r then Some r else None
      end
  end.
Definition top_price (lo : float64) (rs : list GranularityRange) : float64 :=
  match list.last rs with Some r => gr_Max r | None => lo end.

Section Buckets.
Implicit Types (rs : list GranularityRange) (cpm lo : float64).

Lemma wf_ranges_cons lo r rs :
  wf_ranges lo (r :: rs) = true ->
  F64.eqb (gr_Min r) lo = true /\ F64.ltb (gr_Min r) (gr_Max r) = true /\
  F64.ltb F64.zero (gr_Increment r) = true /\ wf_ranges (gr_Max r) rs = true.
Proof. simpl. rw !andb_true_iff. tauto. Qed.

Lemma top_price_cons lo r rs : top_price lo (r :: rs) = top_price (gr_Max r) rs.
Proof.
  rw /top_price list.last_cons. by destruct (list.last rs).
Qed.

Lemma bucket_fold cpm rs lo bm inc :
  wf_ranges lo rs = true -> F64.eqb bm lo = true ->
  fold_left (bucket_step cpm) rs (bm, inc) =
    (top_price bm rs, match last_range cpm rs with Some r => gr_Increment r | None => inc end).
Proof.
  revert lo bm inc. induction rs as [|r rs IH]; intros lo bm inc Hwf Hbm; [done|].
  apply wf_ranges_cons in Hwf as (Hmin & Hmax & _ & Hwf).
  rw top_price_cons. cbn [fold_left bucket_step].
  assert (F64.gtb (gr_Max r) bm = true) as ->.
  { rw /F64.gtb (ltb_eqb_l _ _ _ Hbm) -(ltb_eqb_l _ _ _ Hmin). done. }
  assert (F64.eqb (gr_Max r) (gr_Max r) = true)
    by (apply eqb_refl_num; apply ltb_not_nan in Hmax; tauto).
  rw (IH (gr_Max r)) //.
  cbn [last_range]. fold (in_bucket cpm r). by destruct (last_range cpm rs), (in_bucket cpm r).
Qed.

Lemma last_range_Some cpm rs lo r :
  wf_ranges lo rs = true -> last_range cpm rs = Some r ->
  r ∈ rs /\ in_bucket cpm r = true /\ F64.ltb F64.zero (gr_Increment r) = true.
Proof.
  revert lo. induction rs as [|r' rs IH]; intros lo Hwf; [done|].
  apply wf_ranges_cons in Hwf as (_ & _ & Hinc & Hwf). cbn [last_range].
  destruct (last_range cpm rs) as [r''|] eqn:E.
  - intros [= <-]. destruct (IH _ Hwf eq_refl). set_solver.
  - destruct (in_bucket cpm r') eqn:Hb; [|done]. intros [= <-]. set_solver.
Qed.

(** It is the last of the ranges that has the price. *)
Lemma last_range_split cpm rs r : last_range cpm rs = Some r ->
  exists before after, rs = before ++ r :: after /\ in_bucket cpm r = true /\ Forall (fun r' => in_bucket cpm r' = false) after.
Proof.
  revert r. induction rs as [|r0 rs IH]; intros r; [done|]. cbn [last_range].
  destruct (last_range cpm rs) as [r'|] eqn:E.
  - intros [= <-]. destruct (IH _ eq_refl) as (before & after & -> & Hr & Ha). by exists (r0 :: before), after.
  - destruct (in_bucket cpm r0) eqn:Hb; [|done]. intros [= <-]. exists [], rs. split_and!; [done|done|].
    clear -E. induction rs as [|r1 rs IH]; [constructor|]. cbn [last_range] in E.
    destruct (last_range cpm rs); [done|]. destruct (in_bucket cpm r1) eqn:?; [done|]. constructor; [done|by apply IH].
Qed.

Lemma last_range_exists cpm rs lo :
  wf_ranges lo rs = true -> rs <> [] ->
  F64.leb lo cpm = true -> F64.leb cpm (top_price lo rs) = true ->
  exists r, last_range cpm rs = Some r.
Proof.
  revert lo. induction rs as [|r rs IH]; intros lo Hwf Hne Hlo Htop; [done|].
  apply wf_ranges_cons in Hwf as (Hmin & Hmax & _ & Hwf).
  rw top_price_cons in Htop. cbn [last_range].
  destruct (last_range cpm rs) as [r'|] eqn:E; [by eauto|].
  destruct (leb_not_nan _ _ Hlo) as [Hlon Hcpmn]. apply ltb_not_nan in Hmax as Hn.
  destruct (F64.leb cpm (gr_Max r)) eqn:Hle.
  - exists r. rw /in_bucket Hle /F64.geb leb_ltb; try tauto.
    rw leb_ltb // in Hlo. by rw (ltb_eqb_r _ _ _ Hmin) Hlo.
  - exfalso. assert (F64.ltb (gr_Max r) cpm = true) as Hlt.
    { rw leb_ltb in Hle; try tauto. by apply negb_false_iff in Hle. }
    destruct rs as [|r2 rs]; [by rw /top_price /= Hle in Htop|].
    destruct (IH (gr_Max r)) as [r' Hr']; [done|done|by apply ltb_leb|done|].
    congruence.
Qed.

Lemma last_range_below cpm rs lo :
  wf_ranges lo rs = true -> F64.ltb cpm lo = true -> last_range cpm rs = None.
Proof.
  revert lo. induction rs as [|r rs IH]; intros lo Hwf Hlt; [done|].
  apply wf_ranges_cons in Hwf as (Hmin & Hmax & _ & Hwf). cbn [last_range].
  rw -(ltb_eqb_r _ _ _ Hmin) in Hlt.
  assert (F64.ltb cpm (gr_Max r) = true) by eauto using ltb_trans.
  rw (IH (gr_Max r)) //.
  apply ltb_not_nan in Hlt as Hn. rw /in_bucket /F64.geb leb_ltb; try tauto.
  by rw Hlt.
Qed.

Lemma wf_granularity_inv pg :
  wf_granularity pg = true ->
  pg_Precision pg <= 15 /\ pg_Ranges pg <> [] /\ wf_ranges F64.zero (pg_Ranges pg) = true.
Proof.
  rw /wf_granularity !andb_true_iff bool_decide_eq_true Nat.leb_le. tauto.
Qed.

Lemma zero_le_top rs lo :
  wf_ranges lo rs = true -> F64.is_nan lo = false -> F64.ltb (top_price lo rs) lo = false.
Proof.
  revert lo. induction rs as [|r rs IH]; intros lo Hwf Hn; [apply ltb_irrefl|].
  apply wf_ranges_cons in Hwf as (Hmin & Hmax & _ & Hwf).
  rw top_price_cons. apply ltb_not_nan in Hmax as Hm.
  destruct (F64.ltb _ lo) eqn:E; [|done]. exfalso.
  rw -(ltb_eqb_r _ _ _ Hmin) in E.
  pose proof (ltb_trans _ _ _ E Hmax) as Hc. rw (IH (gr_Max r)) // in Hc. tauto.
Qed.
End Buckets.

(** C40: on a well-formed granularity the loop of [GetPriceBucket] computes the
    intended bucket: a price above the last range gives the cap; a price in the
    ranges is divided by the increment of its range (the last one that has it,
    so the later one at a shared boundary), rounded down to a whole number and
    multiplied by it, all as floats; a negative price has no bucket.  What is
    computed is printed with as many decimals as the granularity says. *)
Theorem price_bucket_spec pg cpm
    (Hwf : wf_granularity pg = true) (Hnum : F64.is_nan cpm = false) :
  exists initial top, pg_Ranges pg = initial ++ [top] /\
  (F64.ltb cpm F64.zero = true -> GetPriceBucket cpm pg = ""%string) /\
  (F64.ltb (gr_Max top) cpm = true -> GetPriceBucket cpm pg = F64.format_f (gr_Max top) (pg_Precision pg)) /\
  (F64.leb F64.zero cpm = true -> F64.leb cpm (gr_Max top) = true ->
   exists before r after, pg_Ranges pg = before ++ r :: after /\
     F64.leb (gr_Min r) cpm = true /\ F64.leb cpm (gr_Max r) = true /\
     Forall (fun r' => F64.leb (gr_Min r') cpm && F64.leb cpm (gr_Max r') = false) after /\
     GetPriceBucket cpm pg =
       F64.format_f (F64.mul (F64.floor (F64.div cpm (gr_Increment r))) (gr_Increment r)) (pg_Precision pg)).
Proof.
  apply wf_granularity_inv in Hwf as (_ & Hne & Hwf).
  destruct (exists_last Hne) as (initial & r0 & Heq). exists initial, r0. split; [done|].
  assert (gr_Max r0 = top_price F64.zero (pg_Ranges pg)) as -> by (by rw /top_price Heq list.last_snoc).
  set (top := top_price F64.zero (pg_Ranges pg)).
  rw /GetPriceBucket (bucket_fold _ _ F64.zero) // -/top /F64.gtb.
  split; [|split].
  - intros Hneg. rw (last_range_below _ _ _ Hwf Hneg) ltb_irrefl.
    destruct (F64.ltb top cpm) eqn:E; [|done].
    pose proof (ltb_trans _ _ _ E Hneg) as Hc. by rw (zero_le_top _ _ Hwf) in Hc.
  - by intros ->.
  - intros H0 Htop. destruct (last_range_exists _ _ _ Hwf Hne H0 Htop) as [r Hr].
    destruct (last_range_Some _ _ _ _ Hwf Hr) as (_ & _ & Hinc).
    destruct (last_range_split _ _ _ Hr) as (before & after & Hsplit & [Hmin Hmax]%andb_true_iff & Hafter).
    exists before, r, after. rw Hr Hinc. destruct (leb_not_nan _ _ Htop) as [_ Htn].
    rw leb_ltb // in Htop. apply negb_true_iff in Htop. by rw Htop.
Qed.

(** The theorem at a price of 1.87 with the medium granularity. *)
Lemma price_bucket_spec_witness :
  GetPriceBucket (F64.of_ratio 187 100) priceGranularityMed = "1.80"%string.
Proof.
  destruct (price_bucket_spec priceGranularityMed (F64.of_ratio 187 100)) as (initial & top & Ht & _ & _ & H);
    [reflexivity|reflexivity|].
  destruct initial as [|x initial]; [injection Ht as <-|destruct initial; discriminate Ht].
  destruct H as (before & r & after & Hr & _ & _ & _ & ->); [reflexivity|reflexivity|].
  destruct before as [|x before]; [injection Hr as <- _; reflexivity|destruct before; discriminate Hr].
Defined.

(** The cases of the repository's test: the printing may round up what was
    rounded down. *)
Example precision_cases :
  let bucket precision increment :=
    GetPriceBucket (F64.of_ratio 1876 1000) (mkPG precision [mkRange F64.zero (F64.of_Z 5) increment]) in
  bucket 0 (F64.of_ratio 5 100) = "2"%string /\ bucket 15 (F64.of_ratio 5 100) = "1.850000000000000"%string /\
  bucket 2 F64.zero = ""%string /\ bucket 2 (F64.of_ratio 1877 1000) = "0.00"%string.
Proof. by vm_compute. Qed.

(** ** Decoded granularities are well formed *)
Lemma dec_float_num j x : dec_float j = Some x -> F64.is_nan x = false.
Proof.
  destruct j as [| |lit| | |]; simpl; try done; [by intros [= <-]|].
  destruct (F64.parse_float lit) as [y|]; [|done].
  destruct (F64.is_finite y) eqn:E; [|done]. intros [= <-]. by destruct y.
Qed.

Lemma dec_range_num j r :
  dec_range j = Some r -> F64.is_nan (gr_Max r) = false /\ F64.is_nan (gr_Increment r) = false.
Proof.
  assert (Hf : forall name kvs x, dec_field dec_float F64.zero name kvs = Some x -> F64.is_nan x = false).
  { intros name kvs x. rw /dec_field. destruct (find_field name kvs); [apply dec_float_num|].
    by intros [= <-]. }
  rw /dec_range /dec_struct.
  destruct j; try done; intros (mn & ? & (mx & Hmx & (inc & Hinc & [= <-])%bind_Some)%bind_Some)%bind_Some;
    simpl; eauto.
Qed.

Lemma dec_list_elem {A} (d : decoder A) j l x :
  dec_list d j = Some l -> x ∈ l -> exists j', d j' = Some x.
Proof.
  destruct j as [| | | |js|]; simpl; try done; [intros [= <-]; by rw elem_of_nil|].
  intros Hm%mapM_Some_1 Hx. apply list_elem_of_lookup in Hx as [i Hi].
  destruct (Forall2_lookup_r _ _ _ _ _ Hm Hi) as (j' & _ & Hd). by exists j'.
Qed.

Lemma check_ranges_wf rs prevMax rs' :
  (forall r, r ∈ rs -> F64.is_nan (gr_Max r) = false /\ F64.is_nan (gr_Increment r) = false) ->
  F64.is_nan prevMax = false ->
  check_ranges prevMax rs = inl rs' ->
  wf_ranges prevMax rs' = true /\ length rs' = length rs.
Proof.
  revert prevMax rs'. induction rs as [|r rs IH]; intros prevMax rs' Hnum Hp; simpl.
  - by intros [= <-].
  - destruct (Hnum r) as [Hmx Hinc]; [set_solver|].
    destruct (F64.leb (gr_Max r) prevMax) eqn:Hle; [done|].
    destruct (F64.leb (gr_Increment r) F64.zero) eqn:Hi; [done|].
    destruct (check_ranges (gr_Max r) rs) as [rest|] eqn:E; [|done]. intros [= <-].
    destruct (IH (gr_Max r) rest) as [Hwf Hlen]; [set_solver|done|done|].
    simpl. rw eqb_refl_num // Hwf Hlen.
    rw leb_ltb // in Hle. rw leb_ltb // in Hi.
    apply negb_false_iff in Hle, Hi. by rw Hle Hi.
Qed.

Lemma legacy_wf s : pg_Ranges (PriceGranularityFromString s) <> [] ->
  wf_granularity (PriceGranularityFromString s) = true.
Proof.
  rw /PriceGranularityFromString.
  repeat match goal with |- context [if ?b then _ else _] => destruct b end; done.
Qed.

(** Whatever JSON a request carries, a granularity the decoder accepts is
    well formed: at most 15 decimals, at least one range, ranges contiguous
    from 0 with increasing bounds and positive increments. *)
Theorem granularity_decoded_wf j pg (Hdec : PriceGranularity_UnmarshalJSON j = inl pg) :
  wf_granularity pg = true.
Proof.
  rw /PriceGranularity_UnmarshalJSON in Hdec.
  destruct (dec_string j) as [s|]; [destruct (pg_Ranges (PriceGranularityFromString s)) eqn:El|];
    simpl in Hdec; rw ?El in Hdec.
  2: { simplify_eq. apply legacy_wf. by rw El. }
  all: destruct (dec_granularity_raw j) as [[p rs]|] eqn:Er; [|done].
  all: destruct (p <? 0)%Z eqn:Hp; [done|]; destruct (MaxDecimalFigures <? p)%Z eqn:Hm; [done|].
  all: destruct rs as [|r rs]; [by simplify_eq|].
  all: destruct (check_ranges F64.zero (r :: rs)) as [rs'|] eqn:Hc; [|done]; simplify_eq.
  all: assert (wf_ranges F64.zero rs' = true /\ length rs' = length (r :: rs)) as [Hwf Hlen].
  1, 3: apply check_ranges_wf; [|done|done]; intros r' Hr'.
  1, 2: rw /dec_granularity_raw /dec_struct in Er;
        destruct j; try done; apply bind_Some in Er as (? & _ & (l & Hl & [= -> ->])%bind_Some);
        rw /dec_field in Hl; destruct (find_field _ _); simplify_eq;
        destruct (dec_list_elem _ _ _ _ Hl Hr') as [j' Hj']; by eapply dec_range_num.
  all: assert (rs' <> []) by (by destruct rs').
  all: rw /wf_granularity /= Hwf bool_decide_eq_true_2 // !andb_true_r Nat.leb_le.
  all: rw /MaxDecimalFigures in Hm; lia.
Qed.

(** The theorem at a custom granularity with two ranges. *)
Lemma granularity_decoded_wf_witness :
  exists pg, PriceGranularity_UnmarshalJSON
      (JObj [("ranges"%string,
              JArr [JObj [("max"%string, JNum "3"); ("increment"%string, JNum "0.05")];
                    JObj [("max"%string, JNum "7.5"); ("increment"%string, JNum "0.5")]])]) = inl pg /\
    wf_granularity pg = true.
Proof.
  eexists. split; [reflexivity|].
  apply (granularity_decoded_wf
      (JObj [("ranges"%string,
              JArr [JObj [("max"%string, JNum "3"); ("increment"%string, JNum "0.05")];
                    JObj [("max"%string, JNum "7.5"); ("increment"%string, JNum "0.5")]])])).
  reflexivity.
Defined.

(** A price that lies exactly on a bucket boundary can be put one bucket
    too low: 0.30 and 0.70 with the medium granularity (step 0.10) are
    reported as 0.20 and 0.60, because the quotient by 0.1 rounds below the
    integer before it is floored. *)
Theorem price_bucket_boundary_undershoot :
  GetPriceBucket (F64.of_ratio 30 100) priceGranularityMed = "0.20"%string /\
  GetPriceBucket (F64.of_ratio 70 100) priceGranularityMed = "0.60"%string /\
  GetPriceBucket (F64.of_ratio 40 100) priceGranularityMed = "0.40"%string.
Proof. by vm_compute. Qed.
