(* ===== verification/ExtRequest.v ===== *)
(** * Request extensions

    The contracts of [request.ext], [request.regs.ext], [request.user.ext] and
    [request.source.ext] ([openrtb_ext/request.go], [regs.go], [user.go]) with
    their decoders and the encoders the exchange uses.  An [UnmarshalJSON]
    method that fails makes the enclosing decoding fail; only the fact of the
    failure is kept there. *)

From S2P Require Import Prelude Float64 ErrorTypes Json Codec PriceGranularity.

(** A [json.RawMessage] field: nil when absent. *)
Definition dec_raw : decoder RawMessage := fun j => Some (RawJson j).

Definition dec_int8 : decoder Z := fun j =>
  match dec_int j with
  | Some z => if ((-128 <=? z) && (z <=? 127))%Z then Some z else None
  | None => None
  end.

(** ** Supply chains *)
Record SChainNode := mkSChainNode {
  sn_ASI : string; sn_SID : string; sn_RID : string; sn_Name : string; sn_Domain : string;
  sn_HP : Z; sn_Ext : RawMessage }.
Record SChain := mkSChain {
  sc_Complete : Z; sc_Nodes : option (list (option SChainNode)); sc_Ver : string; sc_Ext : RawMessage }.
Record ExtRequestPrebidSChain := mkPrebidSChain { ps_Bidders : list string; ps_SChain : SChain }.

Definition dec_schain_node : decoder SChainNode := dec_struct (fun kvs =>
  asi ← dec_field dec_string ""%string "asi" kvs;
  sid ← dec_field dec_string ""%string "sid" kvs;
  rid ← dec_field dec_string ""%string "rid" kvs;
  name ← dec_field dec_string ""%string "name" kvs;
  domain ← dec_field dec_string ""%string "domain" kvs;
  hp ← dec_field dec_int 0%Z "hp" kvs;
  ext ← dec_field dec_raw RawNil "ext" kvs;
  Some (mkSChainNode asi sid rid name domain hp ext)).
Definition dec_schain : decoder SChain := dec_struct (fun kvs =>
  complete ← dec_field dec_int 0%Z "complete" kvs;
  nodes ← dec_field (dec_ptr (dec_list (dec_ptr dec_schain_node))) None "nodes" kvs;
  ver ← dec_field dec_string ""%string "ver" kvs;
  ext ← dec_field dec_raw RawNil "ext" kvs;
  Some (mkSChain complete nodes ver ext)).
Definition dec_prebid_schain : decoder ExtRequestPrebidSChain := dec_struct (fun kvs =>
  bidders ← dec_field (dec_list dec_string) [] "bidders" kvs;
  schain ← dec_field dec_schain (mkSChain 0 None "" RawNil) "schain" kvs;
  Some (mkPrebidSChain bidders schain)).

(** Encoding; a nil slice is null, and an extension that was decoded is always
    a JSON value. *)
Definition enc_omit_str (name s : string) : list (string * json) :=
  omitempty (GoStr.is_empty s) name (JStr s).
Definition enc_omit_raw (name : string) (r : RawMessage) : list (string * json) :=
  match r with RawJson j => [(name, j)] | _ => [] end.
Definition enc_schain_node (n : option SChainNode) : json :=
  match n with
  | None => JNull
  | Some n =>
      JObj ([("asi"%string, JStr (sn_ASI n)); ("sid"%string, JStr (sn_SID n))] ++
            enc_omit_str "rid" (sn_RID n) ++ enc_omit_str "name" (sn_Name n) ++
            enc_omit_str "domain" (sn_Domain n) ++
            [("hp"%string, enc_int (sn_HP n))] ++ enc_omit_raw "ext" (sn_Ext n))
  end.
Definition enc_schain (s : SChain) : json :=
  JObj ([("complete"%string, enc_int (sc_Complete s));
         ("nodes"%string, match sc_Nodes s with None => JNull | Some l => enc_list enc_schain_node l end);
         ("ver"%string, JStr (sc_Ver s))] ++ enc_omit_raw "ext" (sc_Ext s)).
(** [SourceExt]. *)
Definition enc_source_ext (s : SChain) : json := JObj [("schain"%string, enc_schain s)].

(** ** [request.ext.prebid] *)
Record ExtRequestPrebidCache := mkCache {
  cache_Bids : option (option bool); cache_VastXML : option (option bool) }.

Definition dec_cache_item : decoder (option bool) := dec_struct (fun kvs =>
  dec_field (dec_ptr dec_bool) None "returnCreative" kvs).
(** [ExtRequestPrebidCache.UnmarshalJSON]: one of the two members is needed. *)
Definition ExtRequestPrebidCache_UnmarshalJSON : decoder ExtRequestPrebidCache := fun j =>
  proxy ← dec_struct (fun kvs =>
    bids ← dec_field (dec_ptr dec_cache_item) None "bids" kvs;
    vast ← dec_field (dec_ptr dec_cache_item) None "vastxml" kvs;
    Some (mkCache bids vast)) j;
  match cache_Bids proxy, cache_VastXML proxy with
  | None, None => None
  | _, _ => Some proxy
  end.

Record ExtIncludeBrandCategory := mkBrandCategory {
  bc_PrimaryAdServer : Z; bc_Publisher : string; bc_WithCategory : bool;
  bc_TranslateCategories : option bool }.
Definition dec_brand_category : decoder ExtIncludeBrandCategory := dec_struct (fun kvs =>
  pas ← dec_field dec_int 0%Z "primaryadserver" kvs;
  pub ← dec_field dec_string ""%string "publisher" kvs;
  wc ← dec_field dec_bool false "withcategory" kvs;
  tc ← dec_field (dec_ptr dec_bool) None "translatecategories" kvs;
  Some (mkBrandCategory pas pub wc tc)).

Record ExtRequestTargeting := mkTargeting {
  tg_PriceGranularity : PriceGranularity; tg_IncludeWinners : bool;
  tg_IncludeBidderKeys : bool; tg_IncludeBrandCategory : option ExtIncludeBrandCategory;
  tg_IncludeFormat : bool; tg_DurationRangeSec : option (list Z); tg_PreferDeals : bool;
  tg_AppendBidderNames : bool }.

Definition dec_granularity : decoder PriceGranularity := fun j =>
  match PriceGranularity_UnmarshalJSON j with inl pg => Some pg | inr _ => None end.

(** [ExtRequestTargeting.UnmarshalJSON]: winners and bidder keys are on by
    default and cannot both be off. *)
Definition ExtRequestTargeting_UnmarshalJSON : decoder ExtRequestTargeting := fun j =>
  match j with
  | JNull => Some (mkTargeting (mkPG 0 []) false false None false None false false)
  | _ =>
      t ← dec_struct (fun kvs =>
        pg ← dec_field dec_granularity priceGranularityMed "pricegranularity" kvs;
        iw ← dec_field (dec_keep true dec_bool) true "includewinners" kvs;
        ibk ← dec_field (dec_keep true dec_bool) true "includebidderkeys" kvs;
        ibc ← dec_field (dec_ptr dec_brand_category) None "includebrandcategory" kvs;
        fmt ← dec_field dec_bool false "includeformat" kvs;
        dur ← dec_field (dec_ptr (dec_list dec_int)) None "durationrangesec" kvs;
        pd ← dec_field dec_bool false "preferdeals" kvs;
        abn ← dec_field dec_bool false "appendbiddernames" kvs;
        Some (mkTargeting pg iw ibk ibc fmt dur pd abn)) j;
      if negb (tg_IncludeWinners t) && negb (tg_IncludeBidderKeys t) then None else Some t
  end.

Record EidPermission := mkEidPermission { ep_Source : string; ep_Bidders : option (list string) }.
Definition dec_eid_permission : decoder EidPermission := dec_struct (fun kvs =>
  s ← dec_field dec_string ""%string "source" kvs;
  b ← dec_field (dec_ptr (dec_list dec_string)) None "bidders" kvs;
  Some (mkEidPermission s b)).
Definition dec_prebid_data : decoder (option (list EidPermission)) := dec_struct (fun kvs =>
  dec_field (dec_ptr (dec_list dec_eid_permission)) None "eidpermissions" kvs).

Record ExtRequestCurrency := mkExtCurrency {
  ec_ConversionRates : option (gmap string (option (gmap string float64))); ec_UsePBSRates : option bool }.
Definition flatten_maps (c : option (gmap string (option (gmap string float64)))) :
  option (gmap string (gmap string float64)) :=
  match c with None => None | Some m => Some (fmap (M := gmap string) map_or_empty m) end.
Definition dec_ext_currency : decoder ExtRequestCurrency := dec_struct (fun kvs =>
  r ← dec_field (dec_map (dec_map dec_float)) None "rates" kvs;
  u ← dec_field (dec_ptr dec_bool) None "usepbsrates" kvs;
  Some (mkExtCurrency r u)).

Record ExtRequestPrebid := mkPrebid {
  pre_Aliases : gmap string string; pre_BidAdjustmentFactors : gmap string float64;
  pre_Cache : option ExtRequestPrebidCache; pre_Data : option (option (list EidPermission));
  pre_Debug : bool; pre_Events : RawMessage; pre_SChains : list (option ExtRequestPrebidSChain);
  pre_StoredRequest : option string; pre_SupportDeals : bool;
  pre_Targeting : option ExtRequestTargeting; pre_NoSale : list string;
  pre_CurrencyConversions : option ExtRequestCurrency }.

Definition emptyPrebid : ExtRequestPrebid :=
  mkPrebid ∅ ∅ None None false RawNil [] None false None [] None.

Definition dec_prebid : decoder ExtRequestPrebid := dec_struct (fun kvs =>
  aliases ← dec_field (dec_map dec_string) None "aliases" kvs;
  factors ← dec_field (dec_map dec_float) None "bidadjustmentfactors" kvs;
  cache ← dec_field (dec_ptr ExtRequestPrebidCache_UnmarshalJSON) None "cache" kvs;
  data ← dec_field (dec_ptr dec_prebid_data) None "data" kvs;
  debug ← dec_field dec_bool false "debug" kvs;
  events ← dec_field dec_raw RawNil "events" kvs;
  schains ← dec_field (dec_list (dec_ptr dec_prebid_schain)) [] "schains" kvs;
  stored ← dec_field (dec_ptr (dec_struct (dec_field dec_string ""%string "id"))) None "storedrequest" kvs;
  deals ← dec_field dec_bool false "supportdeals" kvs;
  targeting ← dec_field (dec_ptr ExtRequestTargeting_UnmarshalJSON) None "targeting" kvs;
  nosale ← dec_field (dec_list dec_string) [] "nosale" kvs;
  currency ← dec_field (dec_ptr dec_ext_currency) None "currency" kvs;
  Some (mkPrebid (map_or_empty aliases) (map_or_empty factors) cache data debug events schains
          stored deals targeting nosale currency)).

(** [ExtRequest]. *)
Definition dec_ext_request : decoder ExtRequestPrebid := dec_struct (fun kvs =>
  dec_field dec_prebid emptyPrebid "prebid" kvs).

(** ** [request.regs.ext] and [request.user.ext] *)
Record ExtRegs := mkExtRegs { er_GDPR : option Z; er_USPrivacy : string }.
Definition dec_ext_regs : decoder ExtRegs := dec_struct (fun kvs =>
  g ← dec_field (dec_ptr dec_int8) None "gdpr" kvs;
  u ← dec_field dec_string ""%string "us_privacy" kvs;
  Some (mkExtRegs g u)).

Record ExtUserDigiTrust := mkDigiTrust { dt_ID : string; dt_KeyV : Z; dt_Pref : Z }.
Record ExtUserEidUid := mkEidUid { eu_ID : string; eu_Atype : Z; eu_Ext : RawMessage }.
(** Nil and empty slices of ids are told apart by the request validation. *)
Record ExtUserEid := mkEid {
  eid_Source : string; eid_ID : string; eid_Uids : option (list ExtUserEidUid); eid_Ext : RawMessage }.
Record ExtUser := mkExtUser {
  eu_Consent : string; eu_BuyerUIDs : option (gmap string string);
  eu_DigiTrust : option ExtUserDigiTrust; eu_Eids : option (list ExtUserEid) }.

Definition dec_digitrust : decoder ExtUserDigiTrust := dec_struct (fun kvs =>
  i ← dec_field dec_string ""%string "id" kvs;
  k ← dec_field dec_int 0%Z "keyv" kvs;
  p ← dec_field dec_int 0%Z "pref" kvs;
  Some (mkDigiTrust i k p)).
Definition dec_eid_uid : decoder ExtUserEidUid := dec_struct (fun kvs =>
  i ← dec_field dec_string ""%string "id" kvs;
  a ← dec_field dec_int 0%Z "atype" kvs;
  e ← dec_field dec_raw RawNil "ext" kvs;
  Some (mkEidUid i a e)).
Definition dec_eid : decoder ExtUserEid := dec_struct (fun kvs =>
  s ← dec_field dec_string ""%string "source" kvs;
  i ← dec_field dec_string ""%string "id" kvs;
  u ← dec_field (dec_ptr (dec_list dec_eid_uid)) None "uids" kvs;
  e ← dec_field dec_raw RawNil "ext" kvs;
  Some (mkEid s i u e)).
(** [ExtUserPrebid]: a nil pointer and an empty struct both read as no ids. *)
Definition dec_user_prebid : decoder (gmap string string) := dec_struct (fun kvs =>
  m ← dec_field (dec_map dec_string) None "buyeruids" kvs;
  Some (map_or_empty m)).
Definition dec_ext_user : decoder ExtUser := dec_struct (fun kvs =>
  c ← dec_field dec_string ""%string "consent" kvs;
  p ← dec_field (dec_ptr dec_user_prebid) None "prebid" kvs;
  d ← dec_field (dec_ptr dec_digitrust) None "digitrust" kvs;
  e ← dec_field (dec_ptr (dec_list dec_eid)) None "eids" kvs;
  Some (mkExtUser c p d e)).

Definition enc_eid_uid (u : ExtUserEidUid) : json :=
  JObj ([("id"%string, JStr (eu_ID u))] ++
        omitempty (eu_Atype u =? 0)%Z "atype" (enc_int (eu_Atype u)) ++
        enc_omit_raw "ext" (eu_Ext u)).
Definition enc_eid (e : ExtUserEid) : json :=
  JObj ([("source"%string, JStr (eid_Source e))] ++ enc_omit_str "id" (eid_ID e) ++
        match eid_Uids e with Some ((_ :: _) as l) => [("uids"%string, enc_list enc_eid_uid l)] | _ => [] end ++
        enc_omit_raw "ext" (eid_Ext e)).
Definition enc_digitrust (d : ExtUserDigiTrust) : json :=
  JObj [("id"%string, JStr (dt_ID d)); ("keyv"%string, enc_int (dt_KeyV d));
        ("pref"%string, enc_int (dt_Pref d))].
(** [ExtUser] once its prebid member is cleared. *)
Definition enc_ext_user_no_prebid (u : ExtUser) : json :=
  JObj (enc_omit_str "consent" (eu_Consent u) ++
        match eu_DigiTrust u with None => [] | Some d => [("digitrust"%string, enc_digitrust d)] end ++
        match eu_Eids u with Some ((_ :: _) as l) => [("eids"%string, enc_list enc_eid l)] | _ => [] end).

(** ** Encoding [request.ext]

    The shortest decimal text of a float is a parameter. *)
Section Encode.
Context (float_text : float64 -> string).

Definition enc_float (x : float64) : json := JNum (float_text x).
Definition omit_ptr {A} (name : string) (f : A -> json) (o : option A) : list (string * json) :=
  match o with None => [] | Some a => [(name, f a)] end.
Definition omit_map {A} (name : string) (f : A -> json) (m : gmap string A) : list (string * json) :=
  omitempty (bool_decide (map_to_list m = [])) name (enc_map f m).

Definition enc_cache_item (c : option bool) : json :=
  JObj [("returnCreative"%string, enc_ptr JBool c)].
Definition enc_cache (c : ExtRequestPrebidCache) : json :=
  JObj [("bids"%string, enc_ptr enc_cache_item (cache_Bids c));
        ("vastxml"%string, enc_ptr enc_cache_item (cache_VastXML c))].
Definition enc_eid_permission (p : EidPermission) : json :=
  JObj [("source"%string, JStr (ep_Source p)); ("bidders"%string, enc_ptr (enc_list JStr) (ep_Bidders p))].
Definition enc_prebid_data (d : option (list EidPermission)) : json :=
  JObj [("eidpermissions"%string, enc_ptr (enc_list enc_eid_permission) d)].
Definition enc_range (r : GranularityRange) : json :=
  JObj [("min"%string, enc_float (gr_Min r)); ("max"%string, enc_float (gr_Max r));
        ("increment"%string, enc_float (gr_Increment r))].
Definition enc_granularity (g : PriceGranularity) : json :=
  JObj (omitempty (bool_decide (pg_Precision g = 0)) "precision" (enc_int (Z.of_nat (pg_Precision g))) ++
        match pg_Ranges g with [] => [] | l => [("ranges"%string, enc_list enc_range l)] end).
Definition enc_brand_category (b : ExtIncludeBrandCategory) : json :=
  JObj ([("primaryadserver"%string, enc_int (bc_PrimaryAdServer b));
         ("publisher"%string, JStr (bc_Publisher b)); ("withcategory"%string, JBool (bc_WithCategory b))] ++
        omit_ptr "translatecategories" JBool (bc_TranslateCategories b)).
Definition enc_targeting (t : ExtRequestTargeting) : json :=
  JObj ([("pricegranularity"%string, enc_granularity (tg_PriceGranularity t));
         ("includewinners"%string, JBool (tg_IncludeWinners t));
         ("includebidderkeys"%string, JBool (tg_IncludeBidderKeys t));
         ("includebrandcategory"%string, enc_ptr enc_brand_category (tg_IncludeBrandCategory t));
         ("includeformat"%string, JBool (tg_IncludeFormat t));
         ("durationrangesec"%string, enc_ptr (enc_list enc_int) (tg_DurationRangeSec t));
         ("preferdeals"%string, JBool (tg_PreferDeals t))] ++
        omitempty (negb (tg_AppendBidderNames t)) "appendbiddernames" (JBool true)).
Definition enc_ext_currency (c : ExtRequestCurrency) : json :=
  JObj [("rates"%string, enc_ptr (enc_map (enc_ptr (enc_map enc_float))) (ec_ConversionRates c));
        ("usepbsrates"%string, enc_ptr JBool (ec_UsePBSRates c))].
Definition enc_prebid_schain (p : ExtRequestPrebidSChain) : json :=
  JObj (match ps_Bidders p with [] => [] | l => [("bidders"%string, enc_list JStr l)] end ++
        [("schain"%string, enc_schain (ps_SChain p))]).

Definition enc_prebid (p : ExtRequestPrebid) : json :=
  JObj (omit_map "aliases" JStr (pre_Aliases p) ++
        omit_map "bidadjustmentfactors" enc_float (pre_BidAdjustmentFactors p) ++
        omit_ptr "cache" enc_cache (pre_Cache p) ++
        omit_ptr "data" enc_prebid_data (pre_Data p) ++
        omitempty (negb (pre_Debug p)) "debug" (JBool true) ++
        enc_omit_raw "events" (pre_Events p) ++
        match pre_SChains p with
        | [] => []
        | l => [("schains"%string, enc_list (enc_ptr enc_prebid_schain) l)]
        end ++
        omit_ptr "storedrequest" (fun i => JObj [("id"%string, JStr i)]) (pre_StoredRequest p) ++
        omitempty (negb (pre_SupportDeals p)) "supportdeals" (JBool true) ++
        omit_ptr "targeting" enc_targeting (pre_Targeting p) ++
        match pre_NoSale p with [] => [] | l => [("nosale"%string, enc_list JStr l)] end ++
        omit_ptr "currency" enc_ext_currency (pre_CurrencyConversions p)).
(** [json.Marshal] of an [ExtRequest]. *)
Definition enc_ext_request (p : ExtRequestPrebid) : json := JObj [("prebid"%string, enc_prebid p)].
End Encode.

Definition pre_set_SChains (p : ExtRequestPrebid) (l : list (option ExtRequestPrebidSChain)) :
  ExtRequestPrebid :=
  let 'mkPrebid a f c d b e _ s sd t n cc := p in mkPrebid a f c d b e l s sd t n cc.
