(* ===== verification/ExtRoundtrip.v ===== *)
(** * The request extension round trip

    [request.ext] is decoded, changed and encoded again before a bidder or a
    later stage of an endpoint reads it.  This file shows that nothing is lost
    on the way: [dec_ext_request] undoes [enc_ext_request] on every extension
    whose numbers fit and whose price granularity is one the decoder accepts
    and gives out.  A precision of 0 is the exception, which is left out of
    the encoding and decoded as 2. *)

From S2P Require Import Prelude Url Float64 ErrorTypes Json Codec PriceGranularity ExtRequest.

Section Roundtrip.
Context (float_text : float64 -> string).

(** The extensions that round-trip; a float has a text that reads back as it. *)
Definition finite (x : float64) : Prop := F64.is_finite x = true /\ F64.parse_float (float_text x) = Some x.
Definition raw_ok (r : RawMessage) : Prop := match r with RawNil | RawJson _ => True | _ => False end.
Definition cache_ok (c : ExtRequestPrebidCache) : Prop := cache_Bids c <> None \/ cache_VastXML c <> None.
Definition range_ok (r : GranularityRange) : Prop := finite (gr_Min r) /\ finite (gr_Max r) /\ finite (gr_Increment r).
Definition granularity_ok (g : PriceGranularity) : Prop :=
  1 <= pg_Precision g <= 15 /\ pg_Ranges g <> [] /\ Forall range_ok (pg_Ranges g) /\
  check_ranges F64.zero (pg_Ranges g) = inl (pg_Ranges g).
Definition brand_ok (b : ExtIncludeBrandCategory) : Prop := int_ok (bc_PrimaryAdServer b).
Definition targeting_ok (t : ExtRequestTargeting) : Prop :=
  granularity_ok (tg_PriceGranularity t) /\ (tg_IncludeWinners t || tg_IncludeBidderKeys t) = true /\
  opt_ok brand_ok (tg_IncludeBrandCategory t) /\ opt_ok (Forall int_ok) (tg_DurationRangeSec t).
Definition node_ok (n : SChainNode) : Prop := int_ok (sn_HP n) /\ raw_ok (sn_Ext n).
Definition schain_ok (s : SChain) : Prop :=
  int_ok (sc_Complete s) /\ opt_ok (Forall (opt_ok node_ok)) (sc_Nodes s) /\ raw_ok (sc_Ext s).
Definition prebid_schain_ok (p : ExtRequestPrebidSChain) : Prop := schain_ok (ps_SChain p).
Definition currency_ok (c : ExtRequestCurrency) : Prop :=
  opt_ok (map_Forall (fun _ => opt_ok (map_Forall (fun _ => finite)))) (ec_ConversionRates c).
Record prebid_ok (p : ExtRequestPrebid) : Prop := {
  ok_factors : map_Forall (fun _ => finite) (pre_BidAdjustmentFactors p);
  ok_cache : opt_ok cache_ok (pre_Cache p);
  ok_events : raw_ok (pre_Events p);
  ok_schains : Forall (opt_ok prebid_schain_ok) (pre_SChains p);
  ok_targeting : opt_ok targeting_ok (pre_Targeting p);
  ok_currency : opt_ok currency_ok (pre_CurrencyConversions p) }.

(** ** Members as parts *)
Definition raw_part (r : RawMessage) : option json := match r with RawJson j => Some j | _ => None end.
Definition list_part {A} (f : A -> json) (l : list A) : option json := match l with [] => None | _ => Some (enc_list f l) end.
Definition map_part {A} (f : A -> json) (m : gmap string A) : option json :=
  if bool_decide (map_to_list m = []) then None else Some (enc_map f m).
Definition flag_part (b : bool) : option json := if negb b then None else Some (JBool true).
Lemma omit_raw_part n r : enc_omit_raw n r = part n (raw_part r).
Proof. by destruct r. Qed.
Lemma omit_str_part n s : enc_omit_str n s = part n (if GoStr.is_empty s then None else Some (JStr s)).
Proof. by destruct s. Qed.
Lemma omit_ptr_part {A} n (f : A -> json) o : omit_ptr n f o = part n (f <$> o).
Proof. by destruct o. Qed.
Lemma omit_map_part {A} n (f : A -> json) m : omit_map n f m = part n (map_part f m).
Proof. unfold omit_map, map_part. by case_bool_decide. Qed.
Lemma omit_flag_part n b : omitempty (negb b) n (JBool true) = part n (flag_part b).
Proof. by destruct b. Qed.

(** What the parts decode to. *)
Lemma dec_str_part s : dec_opt dec_string ""%string (if GoStr.is_empty s then None else Some (JStr s)) = Some s.
Proof. by destruct s. Qed.
Lemma dec_raw_part r : raw_ok r -> dec_opt dec_raw RawNil (raw_part r) = Some r.
Proof. by destruct r. Qed.
Lemma dec_flag_part b : dec_opt dec_bool false (flag_part b) = Some b.
Proof. by destruct b. Qed.
Lemma dec_list_part {A} (d : decoder A) e P `{!Codec d e P} l : Forall P l -> dec_opt (dec_list d) [] (list_part e l) = Some l.
Proof. intros Hl. destruct l as [|a l]; [done|]. by apply (codec (Codec := list_codec d e P)). Qed.
Lemma dec_map_part {A} (d : decoder A) e P `{!Codec d e P} (m : gmap string A) : map_Forall (fun _ => P) m ->
  map_or_empty <$> dec_opt (dec_map d) None (map_part e m) = Some m.
Proof.
  intros Hm. unfold map_part. case_bool_decide as Hb.
  - apply map_to_list_empty_iff in Hb as ->. done.
  - change (map_or_empty <$> dec_map d (enc_map e m) = Some m). by rw (dec_map_enc d e P).
Qed.
Lemma dec_ptr_part {A} (d : decoder A) (e : A -> json) P `{!Codec d e P, !NotNull e} o : opt_ok P o ->
  dec_opt (dec_ptr d) None (e <$> o) = Some o.
Proof. intros Ho. destruct o as [a|]; [|done]. by apply (ptr_codec d e P); [| |apply not_null]. Qed.

#[local] Instance float_codec : Codec dec_float (enc_float float_text) finite.
Proof. intros x [Hx Htext]. cbn. by rw Htext Hx. Qed.

(** *** Caches *)
#[local] Instance cache_item_codec : Codec dec_cache_item enc_cache_item always.
Proof. by intros [[]|] _. Qed.
#[local] Instance cache_item_not_null : NotNull enc_cache_item.
Proof. by intros c. Qed.
#[local] Instance cache_codec : Codec ExtRequestPrebidCache_UnmarshalJSON enc_cache cache_ok.
Proof. intros [[[[]|]|] [[[]|]|]] [H|H]; done. Qed.
#[local] Instance cache_not_null : NotNull enc_cache.
Proof. by intros c. Qed.

(** *** Permissions *)
#[local] Instance strings_codec : Codec (dec_list dec_string) (enc_list JStr) always.
Proof. intros l _. apply (codec (Codec := list_codec dec_string JStr always)). by apply Forall_true. Qed.
Lemma permission_fields s b : dec_eid_permission (JObj [("source", JStr s); ("bidders", b)]%string) =
  (b ← dec_ptr (dec_list dec_string) b; Some (mkEidPermission s b)).
Proof. by cbv -[dec_ptr dec_list dec_string]. Qed.
#[local] Instance permission_codec : Codec dec_eid_permission enc_eid_permission always.
Proof.
  intros [s b] _. unfold enc_eid_permission. rw permission_fields.
  rw (codec (Codec := opt_codec (dec_list dec_string) (enc_list JStr) always) b) //. by destruct b.
Qed.
#[local] Instance permissions_codec : Codec (dec_list dec_eid_permission) (enc_list enc_eid_permission) always.
Proof. intros l _. apply (codec (Codec := list_codec dec_eid_permission enc_eid_permission always)). by apply Forall_true. Qed.
Lemma data_fields x : dec_prebid_data (JObj [("eidpermissions", x)]%string) = dec_ptr (dec_list dec_eid_permission) x.
Proof. by cbv -[dec_ptr dec_list dec_eid_permission]. Qed.
#[local] Instance data_codec : Codec dec_prebid_data enc_prebid_data always.
Proof.
  intros d _. unfold enc_prebid_data. rw data_fields.
  apply (codec (Codec := opt_codec (dec_list dec_eid_permission) (enc_list enc_eid_permission) always)). by destruct d.
Qed.
#[local] Instance data_not_null : NotNull enc_prebid_data.
Proof. by intros d. Qed.

(** *** Price granularity *)
Lemma range_fields a b c : dec_range (JObj [("min", a); ("max", b); ("increment", c)]%string) =
  (a ← dec_float a; b ← dec_float b; c ← dec_float c; Some (mkRange a b c)).
Proof. by cbv -[dec_float]. Qed.
#[local] Instance range_codec : Codec dec_range (enc_range float_text) range_ok.
Proof.
  intros [a b c] (Ha & Hb & Hc). unfold enc_range. rw range_fields.
  by rw !(codec (Codec := float_codec)).
Qed.
Lemma granularity_fields p r : dec_granularity_raw (JObj (part "precision" (Some p) ++ part "ranges" (Some r))) =
  (p ← dec_keep 2%Z dec_int p; r ← dec_list dec_range r; Some (p, r)).
Proof. by cbv -[dec_keep dec_int dec_list dec_range]. Qed.
#[local] Instance granularity_codec : Codec dec_granularity (enc_granularity float_text) granularity_ok.
Proof.
  intros [p rs] ([Hp1 Hp2] & Hne & Hrs & Hcheck). cbn [pg_Precision pg_Ranges] in *.
  unfold enc_granularity, dec_granularity. cbn [pg_Precision pg_Ranges]. rw omitempty_part.
  rw bool_decide_eq_false_2; [lia|]. destruct rs as [|r rs]; [done|].
  change (match (r :: rs) with [] => [] | l => [("ranges"%string, enc_list (enc_range float_text) l)] end)
    with (part "ranges" (Some (enc_list (enc_range float_text) (r :: rs)))).
  unfold PriceGranularity_UnmarshalJSON. cbn [dec_string pg_Ranges]. rw granularity_fields.
  change (dec_keep 2%Z dec_int (enc_int (Z.of_nat p))) with (dec_int (enc_int (Z.of_nat p))).
  rw (codec (Codec := int_codec)); [unfold int_ok, Int64.in_range, Int64.min_value, Int64.max_value; lia|].
  rw (codec (Codec := list_codec dec_range (enc_range float_text) range_ok)) //. cbn [mbind option_bind].
  assert ((Z.of_nat p <? 0)%Z = false) as -> by lia. assert ((MaxDecimalFigures <? Z.of_nat p)%Z = false) as -> by (unfold MaxDecimalFigures; lia).
  by rw Hcheck Nat2Z.id.
Qed.

(** *** Targeting *)
Lemma brand_fields a b c o : dec_brand_category (JObj ([("primaryadserver", a); ("publisher", JStr b); ("withcategory", JBool c)]%string ++
    part "translatecategories" o)) =
  (a ← dec_int a; o ← dec_opt (dec_ptr dec_bool) None o; Some (mkBrandCategory a b c o)).
Proof. destruct o; by cbv -[dec_int dec_ptr dec_bool]. Qed.
#[local] Instance brand_codec : Codec dec_brand_category enc_brand_category brand_ok.
Proof.
  intros [a b c o] Ha. unfold enc_brand_category.
  cbn [bc_PrimaryAdServer bc_Publisher bc_WithCategory bc_TranslateCategories].
  rw omit_ptr_part brand_fields (codec (Codec := int_codec)) //. cbn [mbind option_bind].
  rw (dec_ptr_part dec_bool JBool always) //. by destruct o.
Qed.
#[local] Instance brand_not_null : NotNull enc_brand_category.
Proof. by intros b. Qed.
Lemma targeting_fields pg iw ib bc fmt dur pd abn :
  ExtRequestTargeting_UnmarshalJSON (JObj ([("pricegranularity", pg); ("includewinners", JBool iw); ("includebidderkeys", JBool ib);
    ("includebrandcategory", bc); ("includeformat", JBool fmt); ("durationrangesec", dur); ("preferdeals", JBool pd)]%string ++
    part "appendbiddernames" (flag_part abn))) =
  (pg ← dec_granularity pg; bc ← dec_ptr dec_brand_category bc; dur ← dec_ptr (dec_list dec_int) dur;
   if negb iw && negb ib then None else Some (mkTargeting pg iw ib bc fmt dur pd abn)).
Proof.
  unfold ExtRequestTargeting_UnmarshalJSON, dec_struct. find_parts. cbn [dec_opt dec_keep dec_bool mbind option_bind].
  destruct (dec_granularity pg) as [g|]; [|done]. cbn [mbind option_bind].
  destruct (dec_ptr dec_brand_category bc) as [b|]; [|done]. cbn [mbind option_bind].
  destruct (dec_ptr (dec_list dec_int) dur) as [d|]; [|done]. cbn [mbind option_bind]. by destruct abn.
Qed.
#[local] Instance targeting_codec : Codec ExtRequestTargeting_UnmarshalJSON (enc_targeting float_text) targeting_ok.
Proof.
  intros [pg iw ib bc fmt dur pd abn] (Hpg & Hon & Hbc & Hdur).
  cbn [tg_PriceGranularity tg_IncludeWinners tg_IncludeBidderKeys tg_IncludeBrandCategory tg_DurationRangeSec] in *.
  unfold enc_targeting. cbn [tg_PriceGranularity tg_IncludeWinners tg_IncludeBidderKeys tg_IncludeBrandCategory
    tg_IncludeFormat tg_DurationRangeSec tg_PreferDeals tg_AppendBidderNames].
  rw omit_flag_part targeting_fields (codec (Codec := granularity_codec)) //.
  rw (codec (Codec := opt_codec dec_brand_category enc_brand_category brand_ok)) //.
  rw (codec (Codec := opt_codec (dec_list dec_int) (enc_list enc_int) (Forall int_ok))) //. cbn [mbind option_bind].
  by destruct iw, ib.
Qed.
#[local] Instance targeting_not_null : NotNull (enc_targeting float_text).
Proof. by intros t. Qed.

(** *** Supply chains *)
Lemma node_fields asi sid rid name domain hp ext :
  dec_schain_node (JObj ([("asi", JStr asi); ("sid", JStr sid)]%string ++ part "rid" rid ++ part "name" name ++ part "domain" domain ++
    [("hp"%string, hp)] ++ part "ext" ext)) =
  (rid ← dec_opt dec_string ""%string rid; name ← dec_opt dec_string ""%string name; domain ← dec_opt dec_string ""%string domain;
   hp ← dec_int hp; ext ← dec_opt dec_raw RawNil ext; Some (mkSChainNode asi sid rid name domain hp ext)).
Proof. unfold dec_schain_node, dec_struct. by find_parts. Qed.
#[local] Instance node_codec : Codec (dec_ptr dec_schain_node) enc_schain_node (opt_ok node_ok).
Proof.
  intros [[asi sid rid name domain hp ext]|]; [|done]. intros [Hhp Hext]. cbn [sn_HP sn_Ext] in *.
  unfold enc_schain_node. cbn [sn_ASI sn_SID sn_RID sn_Name sn_Domain sn_HP sn_Ext]. rw !omit_str_part omit_raw_part.
  set (j := JObj _). change (dec_ptr dec_schain_node j) with (Some <$> dec_schain_node j). unfold j.
  rw node_fields !dec_str_part. cbn [mbind option_bind]. rw (codec (Codec := int_codec)) //. by rw dec_raw_part.
Qed.
Lemma schain_fields c n v ext : dec_schain (JObj ([("complete", c); ("nodes", n); ("ver", JStr v)]%string ++ part "ext" ext)) =
  (c ← dec_int c; n ← dec_ptr (dec_list (dec_ptr dec_schain_node)) n; ext ← dec_opt dec_raw RawNil ext; Some (mkSChain c n v ext)).
Proof. unfold dec_schain, dec_struct. by find_parts. Qed.
#[local] Instance schain_codec : Codec dec_schain enc_schain schain_ok.
Proof.
  intros [c n v ext] (Hc & Hn & Hext). cbn [sc_Complete sc_Nodes sc_Ext] in *.
  unfold enc_schain. cbn [sc_Complete sc_Nodes sc_Ver sc_Ext]. rw omit_raw_part schain_fields (codec (Codec := int_codec)) //.
  change (match n with None => JNull | Some l => enc_list enc_schain_node l end) with (enc_ptr (enc_list enc_schain_node) n).
  rw (codec (Codec := opt_codec (dec_list (dec_ptr dec_schain_node)) (enc_list enc_schain_node) (Forall (opt_ok node_ok)))) //.
  by rw dec_raw_part.
Qed.
Lemma prebid_schain_fields b s : dec_prebid_schain (JObj (part "bidders" b ++ [("schain"%string, s)])) =
  (b ← dec_opt (dec_list dec_string) [] b; s ← dec_schain s; Some (mkPrebidSChain b s)).
Proof. unfold dec_prebid_schain, dec_struct. by find_parts. Qed.
#[local] Instance prebid_schain_codec : Codec dec_prebid_schain enc_prebid_schain prebid_schain_ok.
Proof.
  intros [b s] Hs.
  assert (enc_prebid_schain (mkPrebidSChain b s) = JObj (part "bidders" (list_part JStr b) ++ [("schain"%string, enc_schain s)])) as ->
    by by destruct b.
  rw prebid_schain_fields.
  rw (dec_list_part dec_string JStr always); [by apply Forall_true|]. cbn [mbind option_bind]. by rw (codec (Codec := schain_codec)).
Qed.
#[local] Instance prebid_schain_not_null : NotNull enc_prebid_schain.
Proof. by intros s. Qed.

(** *** Currencies *)
#[local] Instance rates_codec :
  Codec (dec_map (dec_map dec_float)) (enc_ptr (enc_map (enc_ptr (enc_map (enc_float float_text)))))
    (opt_ok (map_Forall (fun _ => opt_ok (map_Forall (fun _ => finite))))).
Proof. apply map_codec, map_codec, _. Qed.
Lemma currency_fields r u : dec_ext_currency (JObj [("rates", r); ("usepbsrates", u)]%string) =
  (r ← dec_map (dec_map dec_float) r; u ← dec_ptr dec_bool u; Some (mkExtCurrency r u)).
Proof. by cbv -[dec_map dec_float dec_ptr dec_bool]. Qed.
#[local] Instance currency_codec : Codec dec_ext_currency (enc_ext_currency float_text) currency_ok.
Proof.
  intros [r u] Hr. unfold enc_ext_currency. rw currency_fields (codec (Codec := rates_codec)) //. cbn [mbind option_bind].
  by rw (codec (Codec := opt_codec dec_bool JBool always)); [destruct u|].
Qed.
#[local] Instance currency_not_null : NotNull (enc_ext_currency float_text).
Proof. by intros c. Qed.

(** *** The whole extension *)
Lemma enc_prebid_parts p : enc_prebid float_text p = JObj (
  part "aliases" (map_part JStr (pre_Aliases p)) ++
  part "bidadjustmentfactors" (map_part (enc_float float_text) (pre_BidAdjustmentFactors p)) ++
  part "cache" (enc_cache <$> pre_Cache p) ++ part "data" (enc_prebid_data <$> pre_Data p) ++
  part "debug" (flag_part (pre_Debug p)) ++ part "events" (raw_part (pre_Events p)) ++
  part "schains" (list_part (enc_ptr enc_prebid_schain) (pre_SChains p)) ++
  part "storedrequest" ((fun i => JObj [("id"%string, JStr i)]) <$> pre_StoredRequest p) ++
  part "supportdeals" (flag_part (pre_SupportDeals p)) ++ part "targeting" (enc_targeting float_text <$> pre_Targeting p) ++
  part "nosale" (list_part JStr (pre_NoSale p)) ++ part "currency" (enc_ext_currency float_text <$> pre_CurrencyConversions p)).
Proof.
  unfold enc_prebid. rw !omit_map_part !omit_ptr_part !omit_flag_part omit_raw_part.
  by destruct (pre_SChains p), (pre_NoSale p).
Qed.
Lemma prebid_fields al fa ca da de ev sc st sd ta ns cu : dec_prebid (JObj (
    part "aliases" al ++ part "bidadjustmentfactors" fa ++ part "cache" ca ++ part "data" da ++ part "debug" de ++ part "events" ev ++
    part "schains" sc ++ part "storedrequest" st ++ part "supportdeals" sd ++ part "targeting" ta ++ part "nosale" ns ++
    part "currency" cu)) =
  (al ← dec_opt (dec_map dec_string) None al; fa ← dec_opt (dec_map dec_float) None fa;
   ca ← dec_opt (dec_ptr ExtRequestPrebidCache_UnmarshalJSON) None ca; da ← dec_opt (dec_ptr dec_prebid_data) None da;
   de ← dec_opt dec_bool false de; ev ← dec_opt dec_raw RawNil ev; sc ← dec_opt (dec_list (dec_ptr dec_prebid_schain)) [] sc;
   st ← dec_opt (dec_ptr (dec_struct (dec_field dec_string ""%string "id"))) None st; sd ← dec_opt dec_bool false sd;
   ta ← dec_opt (dec_ptr ExtRequestTargeting_UnmarshalJSON) None ta; ns ← dec_opt (dec_list dec_string) [] ns;
   cu ← dec_opt (dec_ptr dec_ext_currency) None cu;
   Some (mkPrebid (map_or_empty al) (map_or_empty fa) ca da de ev sc st sd ta ns cu)).
Proof. unfold dec_prebid, dec_struct. by find_parts. Qed.
Lemma dec_stored_part o :
  dec_opt (dec_ptr (dec_struct (dec_field dec_string ""%string "id"))) None ((fun i => JObj [("id"%string, JStr i)]) <$> o) = Some o.
Proof. by destruct o. Qed.
Lemma prebid_roundtrip p : prebid_ok p -> dec_prebid (enc_prebid float_text p) = Some p.
Proof.
  intros [Hfa Hca Hev Hsc Hta Hcu]. rw enc_prebid_parts prebid_fields.
  assert (map_or_empty <$> dec_opt (dec_map dec_string) None (map_part JStr (pre_Aliases p)) = Some (pre_Aliases p)) as Hal
    by by apply (dec_map_part dec_string JStr always).
  assert (map_or_empty <$> dec_opt (dec_map dec_float) None (map_part (enc_float float_text) (pre_BidAdjustmentFactors p)) =
    Some (pre_BidAdjustmentFactors p)) as Hfs by by apply (dec_map_part dec_float (enc_float float_text) finite).
  destruct (dec_opt (dec_map dec_string) None _) as [al|]; [|done]. injection Hal as Hal.
  destruct (dec_opt (dec_map dec_float) None _) as [fa|]; [|done]. injection Hfs as Hfs. cbn [mbind option_bind].
  rw (dec_ptr_part ExtRequestPrebidCache_UnmarshalJSON enc_cache cache_ok) //. cbn [mbind option_bind].
  rw (dec_ptr_part dec_prebid_data enc_prebid_data always); [by destruct (pre_Data p)|]. cbn [mbind option_bind].
  rw !dec_flag_part dec_raw_part // dec_stored_part. cbn [mbind option_bind].
  rw (dec_list_part (dec_ptr dec_prebid_schain) (enc_ptr enc_prebid_schain) (opt_ok prebid_schain_ok)) //. cbn [mbind option_bind].
  rw (dec_ptr_part ExtRequestTargeting_UnmarshalJSON (enc_targeting float_text) targeting_ok) //. cbn [mbind option_bind].
  rw (dec_list_part dec_string JStr always); [by apply Forall_true|]. cbn [mbind option_bind].
  rw (dec_ptr_part dec_ext_currency (enc_ext_currency float_text) currency_ok) //. cbn [mbind option_bind].
  rw Hal Hfs. by destruct p.
Qed.
Lemma ext_request_fields j : dec_ext_request (JObj [("prebid"%string, j)]) = dec_prebid j.
Proof. by cbv -[dec_prebid]. Qed.

Lemma ext_request_codec p : prebid_ok p -> dec_ext_request (enc_ext_request float_text p) = Some p.
Proof. intros Hp. unfold enc_ext_request. rw ext_request_fields. by apply prebid_roundtrip. Qed.

(** C36: the request extension survives being encoded and decoded: whatever
    aliases, factors, caches, chains, permissions, targeting and currency
    rates it has, as long as its integers are [int]s, its floats finite with a
    text that reads back, and its price granularity has a precision of 1 to 15
    and ranges the decoder gives out. *)
Theorem ext_request_roundtrip p : prebid_ok p -> dec_ext_request (enc_ext_request float_text p) = Some p.
Proof. exact (ext_request_codec p). Qed.
End Roundtrip.

(** ** Extended user ids

    An id that was decoded encodes to itself, except that an empty list of
    uids is left out. *)
Definition uid_ok (u : ExtUserEidUid) : Prop := int_ok (eu_Atype u) /\ raw_ok (eu_Ext u).
Definition eid_ok (e : ExtUserEid) : Prop :=
  opt_ok (Forall uid_ok) (eid_Uids e) /\ raw_ok (eid_Ext e) /\ eid_Uids e <> Some [].
Definition eid_norm (e : ExtUserEid) : ExtUserEid :=
  mkEid (eid_Source e) (eid_ID e) (match eid_Uids e with Some [] => None | uids => uids end) (eid_Ext e).

Lemma uid_fields i a x : dec_eid_uid (JObj ([("id"%string, JStr i)] ++ part "atype" a ++ part "ext" x)) =
  (a ← dec_opt dec_int 0%Z a; x ← dec_opt dec_raw RawNil x; Some (mkEidUid i a x)).
Proof. unfold dec_eid_uid, dec_struct. by find_parts. Qed.
#[export] Instance uid_codec : Codec dec_eid_uid enc_eid_uid uid_ok.
Proof.
  intros [i a x] [Ha Hx]. cbn [eu_Atype eu_Ext] in *. unfold enc_eid_uid. cbn [eu_ID eu_Atype eu_Ext].
  rw omitempty_part omit_raw_part uid_fields dec_raw_part //.
  destruct (Z.eqb_spec a 0) as [->|Hne]; [done|]. cbn [dec_opt]. by rw (codec (Codec := int_codec)).
Qed.
Lemma eid_fields s i u x : dec_eid (JObj ([("source"%string, JStr s)] ++ part "id" i ++ part "uids" u ++ part "ext" x)) =
  (i ← dec_opt dec_string ""%string i; u ← dec_opt (dec_ptr (dec_list dec_eid_uid)) None u; x ← dec_opt dec_raw RawNil x;
   Some (mkEid s i u x)).
Proof. unfold dec_eid, dec_struct. by find_parts. Qed.
#[export] Instance eid_codec : Codec dec_eid enc_eid eid_ok.
Proof.
  intros [s i u x] (Hu & Hx & Hne). cbn [eid_Uids eid_Ext] in *.
  assert (enc_eid (mkEid s i u x) = JObj ([("source"%string, JStr s)] ++ part "id" (if GoStr.is_empty i then None else Some (JStr i)) ++
    part "uids" (enc_list enc_eid_uid <$> u) ++ part "ext" (raw_part x))) as ->.
  { unfold enc_eid. cbn [eid_Source eid_ID eid_Uids eid_Ext]. rw omit_str_part omit_raw_part. by destruct u as [[|]|]. }
  rw eid_fields dec_str_part. cbn [mbind option_bind].
  rw (dec_ptr_part (dec_list dec_eid_uid) (enc_list enc_eid_uid) (Forall uid_ok)) //. by rw dec_raw_part.
Qed.

(** Decoded ids are representable. *)
Lemma atoi_in_range s z : GoStr.atoi s = Some z -> int_ok z.
Proof. unfold GoStr.atoi, int_ok. case_match; [|done]. destruct (Int64.in_range _) eqn:E; [|done]. by intros [= <-]. Qed.
Lemma dec_int_ok j z : dec_int j = Some z -> int_ok z.
Proof. destruct j; cbn; try done; [by intros [= <-]|]. apply atoi_in_range. Qed.
Lemma dec_field_ok {A} (d : decoder A) (zero : A) (P : A -> Prop) name kvs a :
  P zero -> (forall j a, d j = Some a -> P a) -> dec_field d zero name kvs = Some a -> P a.
Proof. unfold dec_field. intros Hz Hd. destruct (find_field name kvs); [by apply Hd|by intros [= <-]]. Qed.
Lemma dec_list_ok {A} (d : decoder A) (P : A -> Prop) j l : (forall j a, d j = Some a -> P a) -> dec_list d j = Some l -> Forall P l.
Proof.
  intros Hd. destruct j; cbn; try done; [by intros [= <-]|]. revert l. induction l0 as [|j js IH]; intros l; cbn; [by intros [= <-]|].
  destruct (d j) as [a|] eqn:Ea; cbn; [|done]. destruct (mapM d js) as [as_|]; cbn; [|done]. intros [= <-]. constructor; eauto.
Qed.
Lemma dec_raw_ok j r : dec_raw j = Some r -> raw_ok r.
Proof. by intros [= <-]. Qed.
Lemma dec_struct_ok {A} (f : list (string * json) -> option A) (P : A -> Prop) j a :
  (forall kvs a, f kvs = Some a -> P a) -> dec_struct f j = Some a -> P a.
Proof. intros Hf. destruct j; cbn; try done; apply Hf. Qed.
Lemma dec_uid_ok j u : dec_eid_uid j = Some u -> uid_ok u.
Proof.
  apply dec_struct_ok. intros kvs a. destruct (dec_field dec_string _ "id" kvs); cbn; [|done].
  destruct (dec_field dec_int _ _ _) as [z|] eqn:Ez; cbn; [|done]. destruct (dec_field dec_raw _ _ _) as [r|] eqn:Er; cbn; [|done].
  intros [= <-]. split; cbn.
  - by apply (dec_field_ok _ _ int_ok _ _ _ (eq_refl : int_ok 0) dec_int_ok Ez).
  - by apply (dec_field_ok dec_raw RawNil raw_ok _ _ _ I dec_raw_ok Er).
Qed.
Lemma dec_uids_ok j u : dec_ptr (dec_list dec_eid_uid) j = Some u -> opt_ok (Forall uid_ok) u.
Proof.
  intros Hu. assert (u = None \/ exists l, u = Some l /\ dec_list dec_eid_uid j = Some l) as [->|(l & -> & Hl)]; [|done|].
  { destruct j; cbn in Hu; try done; [injection Hu as <-; by left|].
    destruct (mapM dec_eid_uid l) as [us|] eqn:E; cbn in Hu; [|done]. injection Hu as <-. right. by exists us. }
  by eapply dec_list_ok, Hl; apply dec_uid_ok.
Qed.
Lemma dec_eid_ok j e : dec_eid j = Some e -> eid_ok (eid_norm e).
Proof.
  apply (dec_struct_ok _ (fun e => eid_ok (eid_norm e))). intros kvs a.
  destruct (dec_field dec_string _ "source" kvs) as [s|]; cbn [mbind option_bind]; [|done].
  destruct (dec_field dec_string _ "id" kvs) as [i|]; cbn [mbind option_bind]; [|done].
  destruct (dec_field (dec_ptr _) _ _ _) as [u|] eqn:Eu; cbn [mbind option_bind]; [|done].
  destruct (dec_field dec_raw _ _ _) as [r|] eqn:Er; cbn [mbind option_bind]; [|done].
  intros [= <-]. assert (opt_ok (Forall uid_ok) u) as Hu by exact (dec_field_ok _ None _ _ _ _ (I : opt_ok (Forall uid_ok) None) dec_uids_ok Eu).
  assert (raw_ok r) as Hr by exact (dec_field_ok dec_raw RawNil raw_ok _ _ _ I dec_raw_ok Er).
  unfold eid_ok, eid_norm. cbn. split_and!; [by destruct u as [[|]|]|done|by destruct u as [[|]|]].
Qed.
Lemma enc_eid_norm e : enc_eid (eid_norm e) = enc_eid e.
Proof. by destruct e as [s i [[|]|] x]. Qed.
(** Ids that were decoded, and some of them encoded again, come back. *)
Lemma eids_reread j eids l : dec_list dec_eid j = Some eids -> (forall e, e ∈ l -> e ∈ eids) ->
  dec_list dec_eid (enc_list enc_eid l) = Some (eid_norm <$> l).
Proof.
  intros Hj Hl. assert (enc_list enc_eid l = enc_list enc_eid (eid_norm <$> l)) as ->.
  { unfold enc_list. f_equal. rw -list_fmap_compose. apply list_fmap_ext. intros ? e _. by rw /= enc_eid_norm. }
  apply (codec (Codec := list_codec dec_eid enc_eid eid_ok)). apply Forall_fmap. apply list.Forall_forall. intros e He.
  apply (dec_list_ok _ (fun e => eid_ok (eid_norm e)) j eids) in Hj; [|apply dec_eid_ok]. rw list.Forall_forall in Hj. by apply Hj, Hl.
Qed.

(** ** A concrete extension *)
Definition two_decimals (x : float64) : string := F64.format_f x 2.
Definition demo_prebid : ExtRequestPrebid :=
  mkPrebid {["dist" := "districtm"]}%string {["appnexus"%string := F64.of_ratio 9 10]} (Some (mkCache (Some None) None))
    (Some (Some [mkEidPermission "adserver.org" (Some ["appnexus"%string])])) true (RawJson (JObj []))
    [None; Some (mkPrebidSChain ["appnexus"%string] (mkSChain 1 (Some [None]) "1.0" RawNil))] (Some "s1"%string) false
    (Some (mkTargeting priceGranularityMed true false None true (Some [15; 30]%Z) false true)) ["*"%string]
    (Some (mkExtCurrency (Some {["USD"%string := Some {["EUR"%string := F64.of_ratio 85 100]}]}) (Some false))).
Lemma med_granularity_ok : granularity_ok two_decimals priceGranularityMed.
Proof.
  split; [cbn; lia|]. split; [done|]. split; [|vm_compute; reflexivity].
  constructor; [|constructor]. split_and!; split; vm_compute; reflexivity.
Qed.
Lemma ext_request_roundtrip_witness :
  dec_ext_request (enc_ext_request two_decimals demo_prebid) = Some demo_prebid.
Proof.
  apply (ext_request_roundtrip two_decimals demo_prebid). split.
  - apply map_Forall_singleton. split; vm_compute; reflexivity.
  - by left.
  - done.
  - repeat constructor.
  - split; [exact med_granularity_ok|]. split; [done|]. split; [done|]. by repeat constructor.
  - apply map_Forall_singleton. cbn [opt_ok]. apply map_Forall_singleton. split; vm_compute; reflexivity.
Defined.
(** A precision of 0 comes back as 2. *)
Example zero_precision_lost :
  let range := mkRange F64.zero (F64.of_Z 20) (F64.of_Z 1) in
  dec_granularity (JObj [("precision"%string, JNum "0");
    ("ranges"%string, JArr [JObj [("max"%string, JNum "20"); ("increment"%string, JNum "1")]])]) = Some (mkPG 0 [range]) /\
  dec_granularity (enc_granularity two_decimals (mkPG 0 [range])) = Some (mkPG 2 [range]).
Proof. split; vm_compute; reflexivity. Qed.
