(* ===== verification/ImplicitFields.v ===== *)
(** * Fields filled in from the HTTP request

    [setFieldsImplicitly] of [endpoints/openrtb2/auction.go] and what it
    calls: the device's addresses are removed unless they are public, then the
    address, user agent, do-not-track, site, secure flags and auction type
    that the request leaves out are taken from the HTTP request; [setAmpExt]
    of [amp_auction.go] marks the site.  The effective top-level domain of a
    host is a parameter ([golang.org/x/net/publicsuffix]). *)

From S2P Require Import Prelude Float64 ErrorTypes IpNet Json OpenRTB JsonParser ExtRequest Url.

(** ** The address *)
Section Addresses.
Context `{IPValidator}.

(** What [sanitizeRequest] keeps: an address of this version that is valid. *)
Definition ip_kept (version : IPVersion) (text : string) : bool :=
  match ParseIP text with
  | (Some ip, ver) => bool_decide (ver = version) && ip_IsValid ip ver
  | (None, _) => false
  end.
Definition sanitizeRequest (r : BidRequest) : BidRequest :=
  match req_Device r with
  | None => r
  | Some d =>
      let d := if ip_kept IPv4 (dev_IP d) then d else dev_set_IP d "" in
      let d := if ip_kept IPv6 (dev_IPv6 d) then d else dev_set_IPv6 d "" in
      req_set_Device r (Some d)
  end.

Definition with_device (r : BidRequest) (f : Device -> Device) : BidRequest :=
  req_set_Device r (Some (f (default emptyDevice (req_Device r)))).

Definition setIPImplicitly (httpReq : Request) (bidReq : BidRequest) : BidRequest :=
  let missing := match req_Device bidReq with
                 | None => true
                 | Some d => GoStr.is_empty (dev_IP d) && GoStr.is_empty (dev_IPv6 d)
                 end in
  if missing then
    match FindIP httpReq with
    | Some (ip, IPv4) => with_device bidReq (fun d => dev_set_IP d (IP_String ip))
    | Some (ip, IPv6) => with_device bidReq (fun d => dev_set_IPv6 d (IP_String ip))
    | Some (_, IPvUnknown) | None => bidReq
    end
  else bidReq.
End Addresses.

Definition setUAImplicitly (httpReq : Request) (bidReq : BidRequest) : BidRequest :=
  if match req_Device bidReq with None => true | Some d => GoStr.is_empty (dev_UA d) end then
    let ua := Header_Get httpReq "User-Agent" in
    if GoStr.is_empty ua then bidReq else with_device bidReq (fun d => dev_set_UA d ua)
  else bidReq.
Definition setDoNotTrackImplicitly (httpReq : Request) (bidReq : BidRequest) : BidRequest :=
  if match req_Device bidReq with None => true | Some d => bool_decide (dev_DNT d = None) end then
    let dnt := Header_Get httpReq "Dnt" in
    if GoStr.eqb dnt "0" then with_device bidReq (fun d => dev_set_DNT d (Some 0%Z))
    else if GoStr.eqb dnt "1" then with_device bidReq (fun d => dev_set_DNT d (Some 1%Z))
    else bidReq
  else bidReq.
Definition setDeviceImplicitly `{IPValidator} (httpReq : Request) (bidReq : BidRequest) : BidRequest :=
  setDoNotTrackImplicitly httpReq (setUAImplicitly httpReq (setIPImplicitly httpReq bidReq)).

Definition setAuctionTypeImplicitly (bidReq : BidRequest) : BidRequest :=
  if (req_AT bidReq =? 0)%Z then req_set_AT bidReq 1 else bidReq.
Definition setImpsImplicitly (httpReq : Request) (imps : list Imp) : list Imp :=
  (fun imp => if bool_decide (imp_Secure imp = None) && IsSecure httpReq then imp_set_Secure imp (Some 1%Z) else imp) <$> imps.

(** ** The site *)
Section Site.
Context `{JsonParser} (EffectiveTLDPlusOne : string -> string + error).

(** [value] is the literal [amp] is given. *)
Definition setAmpExt (site : Site) (value : string) : Site :=
  if raw_len0 (site_Ext site) then site_set_Ext site (RawJson (JObj [("amp"%string, JNum value)]))
  else
    match jp_type (jp_Get (site_Ext site) ["amp"%string]) with
    | JpNotExist =>
        match jp_Set (site_Ext site) (JNum value) "amp" with
        | inl val => site_set_Ext site val
        | inr _ => site
        end
    | _ => site
    end.

(** The domain of the page that called, and its address. *)
Definition referrer (httpReq : Request) : option (string * string) :=
  let referrerCandidate := Header_Get httpReq "Referer" in
  match Parse_Host referrerCandidate with
  | None => None
  | Some host =>
      match EffectiveTLDPlusOne host with inl domain => Some (domain, referrerCandidate) | inr _ => None end
  end.
Definition setSiteImplicitly (httpReq : Request) (bidReq : BidRequest) : BidRequest :=
  let incomplete := match req_Site bidReq with
                    | None => true
                    | Some s => GoStr.is_empty (site_Page s) || GoStr.is_empty (site_Domain s)
                    end in
  let site := if incomplete then
                match referrer httpReq with
                | None => req_Site bidReq
                | Some (domain, page) =>
                    let s := default emptySite (req_Site bidReq) in
                    let s := if GoStr.is_empty (site_Domain s) then site_set_Domain s domain else s in
                    let s := if GoStr.is_empty (site_Page s) then site_set_Page s page else s in
                    Some s
                end
              else req_Site bidReq in
  match site with
  | None => bidReq
  | Some s => req_set_Site bidReq (Some (setAmpExt s "0"))
  end.

(** ** [setFieldsImplicitly] *)
Context `{IPValidator}.
Definition setFieldsImplicitly (httpReq : Request) (bidReq : BidRequest) : BidRequest :=
  let bidReq := setDeviceImplicitly httpReq (sanitizeRequest bidReq) in
  let bidReq := match req_App bidReq with None => setSiteImplicitly httpReq bidReq | Some _ => bidReq end in
  let bidReq := req_set_Imp bidReq (setImpsImplicitly httpReq (req_Imp bidReq)) in
  setAuctionTypeImplicitly bidReq.
End Site.

(** ** Facts *)
Lemma accept_valid `{IPValidator} text ip ver : accept text = Some (ip, ver) -> ParseIP text = (Some ip, ver) /\ ip_IsValid ip ver = true.
Proof. unfold accept. destruct (ParseIP text) as [[i|] v]; [|done]. destruct (ip_IsValid i v) eqn:E; [|done]. by intros [= <- <-]. Qed.

(** An address that is found was parsed from some text and is valid. *)
Lemma FindIP_valid `{IPValidator} httpReq ip ver : FindIP httpReq = Some (ip, ver) ->
  exists text, ParseIP text = (Some ip, ver) /\ ip_IsValid ip ver = true.
Proof.
  unfold FindIP, findTrueClientIP, findForwardedFor, findRealIP, findRemoteAddr.
  assert (forall l, first_accepted l = Some (ip, ver) -> exists t, accept t = Some (ip, ver)) as Hfirst.
  { unfold first_accepted. induction l as [|p l IH]; [done|]. cbn [omap list_omap].
    destruct (accept (TrimSpace p)) eqn:E; [|exact IH]. intros [= ->]. eauto. }
  intros Hf. assert (exists t, accept t = Some (ip, ver)) as [t Ht]; [|exists t; by apply accept_valid].
  destruct (GoStr.is_empty (Header_Get httpReq "True-Client-Ip")); [|destruct (accept (TrimSpace (Header_Get httpReq "True-Client-Ip"))) eqn:?; [simplify_eq; eauto|]].
  all: destruct (GoStr.is_empty (Header_Get httpReq "X-Forwarded-For")); [|destruct (first_accepted _) eqn:?; [simplify_eq; eauto|]].
  all: destruct (GoStr.is_empty (Header_Get httpReq "X-Real-Ip")); [|destruct (accept (TrimSpace (Header_Get httpReq "X-Real-Ip"))) eqn:?; [simplify_eq; eauto|]].
  all: destruct (SplitHostPort _); [eauto|done].
Qed.

(** The parts that leave the device alone, and those that keep its addresses. *)
Lemma at_device r : req_Device (setAuctionTypeImplicitly r) = req_Device r.
Proof. unfold setAuctionTypeImplicitly. destruct (_ =? _)%Z, r; done. Qed.
Lemma site_device `{JsonParser} e h r : req_Device (setSiteImplicitly e h r) = req_Device r.
Proof. unfold setSiteImplicitly. case_match; [|done]. by destruct r. Qed.
Lemma fields_device `{JsonParser} `{IPValidator} e h r :
  req_Device (setFieldsImplicitly e h r) = req_Device (setDeviceImplicitly h (sanitizeRequest r)).
Proof.
  unfold setFieldsImplicitly. rw at_device.
  assert (forall q l, req_Device (req_set_Imp q l) = req_Device q) as -> by by intros [].
  case_match; [done|]. apply site_device.
Qed.
Definition addresses (d : Device) : string * string := (dev_IP d, dev_IPv6 d).
Definition device_of (r : BidRequest) : Device := default emptyDevice (req_Device r).
Lemma ua_addresses h r : addresses (device_of (setUAImplicitly h r)) = addresses (device_of r).
Proof.
  unfold setUAImplicitly, device_of. destruct r as [? ? ? ? [d|] ]; cbn; repeat case_match; try done; by destruct d.
Qed.
Lemma dnt_addresses h r : addresses (device_of (setDoNotTrackImplicitly h r)) = addresses (device_of r).
Proof.
  unfold setDoNotTrackImplicitly, device_of. destruct r as [? ? ? ? [d|] ]; cbn; repeat case_match; try done; by destruct d.
Qed.

(** ** The addresses a bidder may see *)

(** No network of [nets] has the address. *)
Definition outside (nets : list IPNet) (ip : IP) : Prop := Forall (fun n => Contains n ip = false) nets.
Definition public_ipv4 (v : RequestValidation) (text : string) : Prop :=
  text = ""%string \/ exists ip, ParseIP text = (Some ip, IPv4) /\ outside (IPv4PrivateNetworksParsed v) ip.
Definition public_ipv6 (v : RequestValidation) (text : string) : Prop :=
  text = ""%string \/ exists source ip, ParseIP source = (Some ip, IPv6) /\ outside (IPv6PrivateNetworksParsed v) ip /\
    (text = source \/ text = IP_String ip).

Lemma existsb_outside nets ip : negb (existsb (fun n => Contains n ip) nets) = true -> outside nets ip.
Proof.
  intros H%negb_true_iff. apply list.Forall_forall. intros n Hn. destruct (Contains n ip) eqn:E; [|done].
  rw -H. symmetry. apply existsb_exists. exists n. by rw -list_elem_of_In.
Qed.

Section Public.
Context (v : RequestValidation).
#[local] Instance public_validator : IPValidator := PublicNetworkIPValidator v.

Lemma kept_public text :
  (ip_kept IPv4 text = true -> public_ipv4 v text) /\ (ip_kept IPv6 text = true -> public_ipv6 v text).
Proof.
  unfold ip_kept. destruct (ParseIP text) as [[ip|] ver] eqn:E; [|done].
  split; intros [->%bool_decide_eq_true_1 Hok]%andb_true_iff; right; [exists ip|exists text, ip];
    (split; [done|]); [|split; [|by left]]; by apply existsb_outside.
Qed.
Lemma sanitized_addresses r : let d := device_of (sanitizeRequest r) in public_ipv4 v (dev_IP d) /\ public_ipv6 v (dev_IPv6 d).
Proof.
  unfold sanitizeRequest, device_of. destruct (req_Device r) as [d|] eqn:E; [|rw E; by split; left].
  assert (forall r d, req_Device (req_set_Device r d) = d) as -> by by intros [].
  cbv zeta. cbn [default from_option id].
  assert (forall (b c : bool), let d0 := if b then d else dev_set_IP d "" in let d' := if c then d0 else dev_set_IPv6 d0 "" in
    dev_IP d' = (if b then dev_IP d else ""%string) /\ dev_IPv6 d' = (if c then dev_IPv6 d else ""%string)) as Hset
    by (intros [] []; by destruct d).
  assert (forall c : bool, dev_IPv6 (if c then d else dev_set_IP d "") = dev_IPv6 d) as -> by (intros []; by destruct d).
  destruct (Hset (ip_kept IPv4 (dev_IP d)) (ip_kept IPv6 (dev_IPv6 d))) as [-> ->].
  destruct (kept_public (dev_IP d)) as [H4 _], (kept_public (dev_IPv6 d)) as [_ H6].
  split; case_match; auto; by left.
Qed.
Lemma implicit_addresses h r : let d := device_of r in public_ipv4 v (dev_IP d) -> public_ipv6 v (dev_IPv6 d) ->
  let d' := device_of (setIPImplicitly h r) in public_ipv4 v (dev_IP d') /\ public_ipv6 v (dev_IPv6 d').
Proof.
  cbv zeta. intros H4 H6. unfold setIPImplicitly. case_match; [|done].
  destruct (FindIP h) as [[ip ver]|] eqn:Ef; [|done]. destruct (FindIP_valid _ _ _ Ef) as (text & Ht & Hok).
  assert (forall f, device_of (with_device r f) = f (device_of r)) as Hw by (intros f; by destruct r).
  destruct ver; [done|rw Hw..]; (split; destruct (device_of r); [|]); try done; right.
  - exists ip. split; [by eapply ipv4_roundtrip|]. by apply existsb_outside.
  - exists text, ip. split; [done|]. split; [by apply existsb_outside|by right].
Qed.

Lemma fields_addresses_public `{JsonParser} EffectiveTLDPlusOne httpReq bidReq d' :
  req_Device (setFieldsImplicitly EffectiveTLDPlusOne httpReq bidReq) = Some d' ->
  public_ipv4 v (dev_IP d') /\ public_ipv6 v (dev_IPv6 d').
Proof.
  intros Hd. assert (device_of (setFieldsImplicitly EffectiveTLDPlusOne httpReq bidReq) = d') as <- by (unfold device_of; by rw Hd).
  unfold device_of at 1 2. rw fields_device -/(device_of _). unfold setDeviceImplicitly.
  pose proof (sanitized_addresses bidReq) as [H4 H6].
  pose proof (implicit_addresses httpReq _ H4 H6) as Himp.
  pose proof (eq_trans (dnt_addresses httpReq _) (ua_addresses httpReq (setIPImplicitly httpReq (sanitizeRequest bidReq)))) as Hsame.
  unfold addresses in Hsame. injection Hsame as -> ->. exact Himp.
Qed.

(** C31: the device addresses an auction works with are public: after
    [setFieldsImplicitly] the IPv4 address is empty or parses as IPv4 and is in
    none of the configured private networks, whether it came with the request
    or from a header; the IPv6 address is empty or was read from a text that
    parses as IPv6 and is in none of the private IPv6 networks. *)
Theorem client_address_public `{JsonParser} EffectiveTLDPlusOne httpReq bidReq d' :
  req_Device (setFieldsImplicitly EffectiveTLDPlusOne httpReq bidReq) = Some d' ->
  public_ipv4 v (dev_IP d') /\ public_ipv6 v (dev_IPv6 d').
Proof. exact (fields_addresses_public EffectiveTLDPlusOne httpReq bidReq d'). Qed.
End Public.

(** ** Explicit fields are not overridden *)

(** Two devices that differ at most in the four fields. *)
Definition dev_blank (d : Device) : Device := dev_set_IP (dev_set_IPv6 (dev_set_UA (dev_set_DNT d None) "") "") "".
(** What the site of a web request becomes. *)
Definition site_filled `{JsonParser} (s s' : Site) : Prop :=
  site_ID s' = site_ID s /\ site_Publisher s' = site_Publisher s /\
  (site_Domain s <> ""%string -> site_Domain s' = site_Domain s) /\ (site_Page s <> ""%string -> site_Page s' = site_Page s) /\
  (if raw_len0 (site_Ext s) then site_Ext s' = RawJson (JObj [("amp"%string, JNum "0")])
   else site_Ext s' = site_Ext s \/
        (jp_type (jp_Get (site_Ext s) ["amp"%string]) = JpNotExist /\
         found (jp_Get (site_Ext s') ["amp"%string]) (JNum "0"))).

Section Filled.
Context `{JL : JsonParserLaws} `{IPValidator} (EffectiveTLDPlusOne : string -> string + error) (httpReq : Request).

Lemma amp_filled s : site_filled s (setAmpExt s "0").
Proof.
  unfold site_filled, setAmpExt. destruct (raw_len0 (site_Ext s)) eqn:El; [by destruct s|].
  destruct (jp_type (jp_Get (site_Ext s) _)) eqn:Et; try (split_and!; by [|left]).
  destruct (jp_Set (site_Ext s) (JNum "0") "amp") as [val|] eqn:Es; [|split_and!; by [|left]].
  pose proof (jp_get_set _ _ _ _ Es) as Hf. destruct s. split_and!; try done. by right.
Qed.
Lemma site_filled_from s s1 : site_ID s1 = site_ID s -> site_Publisher s1 = site_Publisher s -> site_Ext s1 = site_Ext s ->
  (site_Domain s <> ""%string -> site_Domain s1 = site_Domain s) -> (site_Page s <> ""%string -> site_Page s1 = site_Page s) ->
  site_filled s (setAmpExt s1 "0").
Proof.
  intros Hi Hp He Hd Hg. destruct (amp_filled s1) as (H1 & H2 & H3 & H4 & H5). unfold site_filled. rw -He.
  split_and!; try congruence; intros Hne.
  - rw H3; [by rw Hd|]. by apply Hd.
  - rw H4; [by rw Hg|]. by apply Hg.
Qed.
Lemma site_step r s : req_Site r = Some s ->
  exists s', setSiteImplicitly EffectiveTLDPlusOne httpReq r = req_set_Site r (Some s') /\ site_filled s s'.
Proof.
  intros Hs. unfold setSiteImplicitly. rw Hs. cbn [default from_option id].
  destruct (_ || _); [|eexists; split; [done|apply amp_filled]].
  destruct (referrer EffectiveTLDPlusOne httpReq) as [[domain page]|]; [|eexists; split; [done|apply amp_filled]].
  eexists. split; [done|]. destruct s as [i d p pub ext]. destruct d, p; apply site_filled_from; done.
Qed.

(** [x] is [r], its device [d] changed only where [d] said nothing. *)
Definition device_kept (r : BidRequest) (d : Device) (x : BidRequest) : Prop :=
  exists d', x = req_set_Device r (Some d') /\ dev_blank d' = dev_blank d /\
    (ip_kept IPv4 (dev_IP d) = true -> dev_IP d' = dev_IP d) /\ (ip_kept IPv6 (dev_IPv6 d) = true -> dev_IPv6 d' = dev_IPv6 d) /\
    (dev_UA d <> ""%string -> dev_UA d' = dev_UA d) /\ (is_Some (dev_DNT d) -> dev_DNT d' = dev_DNT d).

Lemma kept_nonempty version text : ip_kept version text = true -> GoStr.is_empty text = false.
Proof. by destruct text. Qed.
Lemma sanitize_kept r d : req_Device r = Some d -> device_kept r d (sanitizeRequest r).
Proof.
  intros Hd. unfold sanitizeRequest, device_kept. rw Hd. eexists. split; [done|].
  assert (forall c : bool, dev_IPv6 (if c then d else dev_set_IP d "") = dev_IPv6 d) as -> by (intros []; by destruct d).
  destruct (ip_kept IPv4 (dev_IP d)), (ip_kept IPv6 (dev_IPv6 d)); destruct d; split_and!; done.
Qed.
(** A further change of one of the four fields, where [d] said nothing. *)
Lemma kept_step r d x f : device_kept r d x ->
  (forall d', x = req_set_Device r (Some d') -> dev_blank (f d') = dev_blank d' /\
    (dev_IP (f d') = dev_IP d' \/ GoStr.is_empty (dev_IP d') = true) /\
    (dev_IPv6 (f d') = dev_IPv6 d' \/ GoStr.is_empty (dev_IPv6 d') = true) /\
    (dev_UA (f d') = dev_UA d' \/ GoStr.is_empty (dev_UA d') = true) /\ (dev_DNT (f d') = dev_DNT d' \/ dev_DNT d' = None)) ->
  device_kept r d (with_device x f).
Proof.
  intros (d' & -> & Hb & H4 & H6 & Hu & Hn) Hf. destruct (Hf d' eq_refl) as (Fb & F4 & F6 & Fu & Fn).
  exists (f d'). split; [by destruct r|]. split; [congruence|]. split_and!.
  - intros Hk. destruct F4 as [->|F4]; [auto|]. rw (H4 Hk) (kept_nonempty _ _ Hk) in F4. done.
  - intros Hk. destruct F6 as [->|F6]; [auto|]. rw (H6 Hk) (kept_nonempty _ _ Hk) in F6. done.
  - intros Hne. destruct Fu as [->|Fu]; [auto|]. rw (Hu Hne) in Fu. by destruct (dev_UA d).
  - intros Hs. destruct Fn as [->|Fn]; [auto|]. rw (Hn Hs) in Fn. rw Fn in Hs. by destruct Hs.
Qed.
Lemma set_device_id r d : req_Device (req_set_Device r (Some d)) = Some d.
Proof. by destruct r. Qed.
Lemma ip_device_kept r d x : device_kept r d x -> device_kept r d (setIPImplicitly httpReq x).
Proof.
  intros Hx. unfold setIPImplicitly. destruct (req_Device x) as [d1|] eqn:E.
  - destruct (GoStr.is_empty (dev_IP d1)) eqn:E4; cbn [andb]; [|done]. destruct (GoStr.is_empty (dev_IPv6 d1)) eqn:E6; [|done].
    destruct (FindIP httpReq) as [[ip []]|]; try done; apply kept_step; try done;
      intros d' ->; rw set_device_id in E; injection E as ->; destruct d1; cbn in *; auto 10.
  - destruct Hx as (d' & -> & _). by rw set_device_id in E.
Qed.
Lemma ua_device_kept r d x : device_kept r d x -> device_kept r d (setUAImplicitly httpReq x).
Proof.
  intros Hx. unfold setUAImplicitly. destruct (req_Device x) as [d1|] eqn:E.
  - destruct (GoStr.is_empty (dev_UA d1)) eqn:Eu; [|done]. case_match; [done|]. apply kept_step; [done|].
    intros d' ->; rw set_device_id in E; injection E as ->; destruct d1; cbn in *; auto 10.
  - destruct Hx as (d' & -> & _). by rw set_device_id in E.
Qed.
Lemma dnt_device_kept r d x : device_kept r d x -> device_kept r d (setDoNotTrackImplicitly httpReq x).
Proof.
  intros Hx. unfold setDoNotTrackImplicitly. destruct (req_Device x) as [d1|] eqn:E.
  - case_bool_decide; [|done]. repeat case_match; try done; apply kept_step; try done;
      intros d' ->; rw set_device_id in E; injection E as ->; destruct d1; cbn in *; auto 10.
  - destruct Hx as (d' & -> & _). by rw set_device_id in E.
Qed.
Lemma device_step r d : req_Device r = Some d -> device_kept r d (setDeviceImplicitly httpReq (sanitizeRequest r)).
Proof. intros Hd. by apply dnt_device_kept, ua_device_kept, ip_device_kept, sanitize_kept. Qed.

(** Only the device, only the site is touched. *)
Definition device_only (r x : BidRequest) : Prop := x = req_set_Device r (req_Device x).
Lemma with_device_only r x f : device_only r x -> device_only r (with_device x f).
Proof. unfold device_only. intros ->. by destruct r. Qed.
Lemma device_frame r : device_only r (setDeviceImplicitly httpReq (sanitizeRequest r)).
Proof.
  assert (device_only r (sanitizeRequest r)) as H0.
  { unfold sanitizeRequest, device_only. destruct (req_Device r) eqn:E; [|rw E]; destruct r; cbn in *; by subst. }
  unfold setDeviceImplicitly, setDoNotTrackImplicitly, setUAImplicitly, setIPImplicitly.
  repeat case_match; repeat apply with_device_only; exact H0.
Qed.
Lemma site_frame r : setSiteImplicitly EffectiveTLDPlusOne httpReq r =
  req_set_Site r (req_Site (setSiteImplicitly EffectiveTLDPlusOne httpReq r)).
Proof. unfold setSiteImplicitly. case_match; by destruct r. Qed.

(** What the endpoints after it rely on. *)
Lemma fields_frame r : let r' := setFieldsImplicitly EffectiveTLDPlusOne httpReq r in
  req_ID r' = req_ID r /\ req_App r' = req_App r /\ req_Ext r' = req_Ext r /\ req_TMax r' = req_TMax r /\
  imp_ID <$> req_Imp r' = imp_ID <$> req_Imp r.
Proof.
  unfold setFieldsImplicitly. rw (device_frame r). set (od := req_Device _). clearbody od.
  assert (forall x, imp_ID <$> setImpsImplicitly httpReq x = imp_ID <$> x) as Hids.
  { intros x. unfold setImpsImplicitly. induction x as [|imp x IH]; [done|]. rw !fmap_cons IH. case_match; by destruct imp. }
  destruct (req_App (req_set_Device r od)) as [app|] eqn:Ea; [|rw (site_frame (req_set_Device r od)); set (os := req_Site _); clearbody os];
    unfold setAuctionTypeImplicitly; case_match; destruct r; cbn in *; by rw Hids.
Qed.

(** An imp gets [secure] only when it has none and the call was secure. *)
Definition imp_filled (imp imp' : Imp) : Prop :=
  imp' = (if bool_decide (imp_Secure imp = None) && IsSecure httpReq then imp_set_Secure imp (Some 1%Z) else imp).

(** What the request says is not overridden: [setFieldsImplicitly] leaves
    every field but device, site, the imps' secure flag and the auction type;
    an app request's site stays; a device keeps a valid address, its user agent
    and its do-not-track, and all else; a site keeps its domain and page and
    an [ext.amp] it has, and one that is missing is set to 0 if the library can
    set it. *)
Theorem explicit_fields_kept bidReq bidReq' :
  setFieldsImplicitly EffectiveTLDPlusOne httpReq bidReq = bidReq' ->
  bidReq' = req_set_Imp (req_set_AT (req_set_Device (req_set_Site bidReq (req_Site bidReq')) (req_Device bidReq')) (req_AT bidReq'))
              (req_Imp bidReq') /\
  Forall2 imp_filled (req_Imp bidReq) (req_Imp bidReq') /\
  req_AT bidReq' = (if (req_AT bidReq =? 0)%Z then 1%Z else req_AT bidReq) /\
  (is_Some (req_App bidReq) -> req_Site bidReq' = req_Site bidReq) /\
  (forall s, req_App bidReq = None -> req_Site bidReq = Some s -> exists s', req_Site bidReq' = Some s' /\ site_filled s s') /\
  (forall d, req_Device bidReq = Some d -> exists d', req_Device bidReq' = Some d' /\
     device_kept bidReq d (req_set_Device bidReq (Some d'))).
Proof.
  intros <-. unfold setFieldsImplicitly. rw (device_frame bidReq).
  pose proof (device_step bidReq) as Hdev. rw (device_frame bidReq) in Hdev.
  set (od := req_Device (setDeviceImplicitly httpReq (sanitizeRequest bidReq))) in *. clearbody od.
  set (web := match req_App _ with None => _ | Some _ => _ end).
  assert (exists os, web = req_set_Site (req_set_Device bidReq od) os /\ (is_Some (req_App bidReq) -> os = req_Site bidReq) /\
    forall s, req_App bidReq = None -> req_Site bidReq = Some s -> exists s', os = Some s' /\ site_filled s s') as (os & -> & Ha & Hs).
  { subst web. assert (req_App (req_set_Device bidReq od) = req_App bidReq) as -> by by destruct bidReq.
    destruct (req_App bidReq) as [app|].
    - exists (req_Site bidReq). split_and!; by destruct bidReq.
    - eexists. split; [apply site_frame|]. split; [by intros []|]. intros s _ Hsite.
      destruct (site_step (req_set_Device bidReq od) s) as (s' & -> & Hf); [by destruct bidReq|].
      exists s'. by destruct bidReq. }
  destruct bidReq as [id im si ap dv us te at0 tm cu bc ba so re ext]. unfold setAuctionTypeImplicitly. cbn in *.
  split_and!; try (destruct (at0 =? 0)%Z; cbn; done || exact Hs || exact Ha).
  - destruct (at0 =? 0)%Z; cbn; clear; by induction im; constructor.
  - intros d Hd. destruct (Hdev d Hd) as (d' & Heq & Hk). exists d'.
    assert (od = Some d') as -> by by inversion Heq.
    split; [by destruct (at0 =? 0)%Z|]. by exists d'.
Qed.
End Filled.

(** ** A concrete request *)
Definition demo_networks : RequestValidation :=
  match RequestValidation_Parse ["10.0.0.0/8"; "192.168.0.0/16"]%string ["fc00::/7"]%string with
  | inl v => v
  | inr _ => mkRequestValidation [] []
  end.
Definition demo_domain (host : string) : string + error := inl host.
Definition demo_http (forwarded : string) : Request :=
  mkHttpRequest {["X-Forwarded-For" := [forwarded]; "X-Forwarded-Proto" := ["https"]; "Dnt" := ["1"];
    "Referer" := ["https://example.com/page"]]}%string "http" false "192.168.1.9:4242".
Definition demo_bare : BidRequest :=
  req_set_Imp (req_set_Device emptyBidRequest (Some (dev_set_IP emptyDevice "10.1.2.3"))) [simpleImp "i1" RawNil].
Definition demo_filled (forwarded : string) : BidRequest :=
  @setFieldsImplicitly exact_parser demo_domain (public_validator demo_networks) (demo_http forwarded) demo_bare.

Lemma client_address_public_witness :
  exists d, req_Device (demo_filled "10.9.9.9, 203.0.113.7") = Some d /\ dev_IP d = "203.0.113.7"%string /\
    public_ipv4 demo_networks (dev_IP d).
Proof.
  destruct (req_Device (demo_filled "10.9.9.9, 203.0.113.7")) as [d|] eqn:E; [|by vm_compute in E].
  exists d. split; [done|]. split; [by vm_compute in E; injection E as <-|].
  unfold demo_filled in E.
  exact (proj1 (client_address_public demo_networks demo_domain (demo_http "10.9.9.9, 203.0.113.7") demo_bare d E)).
Defined.

Lemma explicit_fields_kept_witness :
  let r := demo_filled "203.0.113.7" in
  imp_Secure <$> req_Imp r = [Some 1%Z] /\ req_AT r = 1%Z /\ req_ID r = req_ID demo_bare.
Proof.
  destruct (@explicit_fields_kept exact_parser exact_parser_laws (public_validator demo_networks) demo_domain
    (demo_http "203.0.113.7") demo_bare _ eq_refl) as (H1 & H2 & H3 & _).
  split; [by vm_compute|]. split; [exact H3|].
  unfold demo_filled. by rw H1.
Defined.

(** An IPv4-mapped IPv6 address is only checked against the IPv6 networks and
    is stored as the IPv4 address it maps: a private one passes. *)
Example mapped_private_address_passes :
  option_map dev_IPv6 (req_Device (demo_filled "::ffff:10.0.0.1")) = Some "10.0.0.1"%string /\
  option_map dev_IP (req_Device (demo_filled "10.0.0.1")) = Some ""%string.
Proof. by vm_compute. Qed.
