(* ===== verification/Bidders.v ===== *)
(** * Bidder names

    [openrtb_ext/bidders.go]: the reserved names, the core bidders and the
    lookup that finds a core bidder without regard to case.  [ToLower] is
    exact on the strings whose lower case is ASCII, the only ones that can
    match a core bidder. *)

From S2P Require Import Prelude.

(** [strings.ToLower]; U+0130 lowers to i and U+212A to k. *)
Fixpoint to_lower (s : string) : string :=
  match s with
  | EmptyString => EmptyString
  | String a s' =>
      match Ascii.nat_of_ascii a, s' with
      | 196%nat, String b s'' =>
          if (Ascii.nat_of_ascii b =? 176)%nat then String "i"%char (to_lower s'')
          else String a (to_lower s')
      | 226%nat, String b (String c s'') =>
          if ((Ascii.nat_of_ascii b =? 132) && (Ascii.nat_of_ascii c =? 170))%nat
          then String "k"%char (to_lower s'')
          else String a (to_lower s')
      | _, _ => String (GoStr.byte_lower a) (to_lower s')
      end
  end.

Definition BidderReservedAll : string := "all".
Definition BidderReservedContext : string := "context".
Definition BidderReservedData : string := "data".
Definition BidderReservedGeneral : string := "general".
Definition BidderReservedPrebid : string := "prebid".
Definition BidderReservedSKAdN : string := "skadn".

Definition IsBidderNameReserved (name : string) : bool :=
  if GoStr.equal_fold name BidderReservedAll then true
  else if GoStr.equal_fold name BidderReservedContext then true
  else if GoStr.equal_fold name BidderReservedData then true
  else if GoStr.equal_fold name BidderReservedGeneral then true
  else if GoStr.equal_fold name BidderReservedSKAdN then true
  else if GoStr.equal_fold name BidderReservedPrebid then true
  else false.

Definition CoreBidderNames : list string :=
  ["33across"; "acuityads"; "adf"; "adform"; "adgeneration"; "adhese"; "adkernel"; "adkernelAdn";
   "adman"; "admixer"; "adocean"; "adoppler"; "adot"; "adpone"; "adprime"; "adtarget";
   "adtelligent"; "advangelists"; "adxcg"; "adyoulike"; "aja"; "algorix"; "amx"; "applogy";
   "appnexus"; "audienceNetwork"; "avocet"; "beachfront"; "beintoo"; "between"; "bidmachine";
   "bidscube"; "bmtm"; "brightroll"; "colossus"; "connectad"; "consumable"; "conversant";
   "cpmstar"; "criteo"; "crossinstall"; "datablocks"; "decenterads"; "deepintent"; "dmx";
   "dv360"; "emx_digital"; "engagebdr"; "eplanning"; "epom"; "e_volution"; "gamma"; "gamoshi";
   "grid"; "gumgum"; "improvedigital"; "inmobi"; "interactiveoffers"; "invibes"; "ix"; "jixie";
   "kayzen"; "kidoz"; "krushmedia"; "kubient"; "liftoff"; "lockerdome"; "logicad"; "lunamedia";
   "madvertise"; "marsmedia"; "mediafuse"; "mgid"; "mobfoxpb"; "mobilefuse"; "moloco";
   "molococloud"; "nanointeractive"; "ninthdecimal"; "nobid"; "onetag"; "openx"; "orbidder";
   "outbrain"; "pangle"; "pubmatic"; "pubnative"; "pulsepoint"; "revcontent"; "rhythmone";
   "rtbhouse"; "rubicon"; "rubiconmraid"; "sharethrough"; "silvermob"; "smaato"; "smartadserver";
   "smartrtb"; "smartyads"; "smilewanted"; "somoaudience"; "sonobi"; "sovrn"; "synacormedia";
   "tappx"; "taurusx"; "telaria"; "triplelift"; "triplelift_native"; "trustx"; "ucfunnel";
   "unicorn"; "unruly"; "valueimpression"; "verizonmedia"; "viewdeos"; "visx"; "vrtcal";
   "yeahmobi"; "yieldlab"; "yieldmo"; "yieldone"; "zeroclickfraud"]%string.

Definition BuildBidderMap : gmap string string :=
  fold_left (fun lookup name => <[name := name]> lookup) CoreBidderNames ∅.
Definition BuildBidderStringSlice : list string := CoreBidderNames.
Definition BuildBidderNameHashSet : gset string :=
  fold_left (fun hashSet name => {[name]} ∪ hashSet) CoreBidderNames ∅.

Definition bidderNameLookup : gmap string string :=
  fold_left (fun lookup name => <[to_lower name := name]> lookup) CoreBidderNames ∅.
Definition NormalizeBidderName (name : string) : option string := bidderNameLookup !! to_lower name.

(** ** Facts *)
Lemma fold_insert_lookup {A} (f : A -> string) (l : list A) (m : gmap string A) k :
  NoDup (f <$> l) ->
  fold_left (fun m x => <[f x := x]> m) l m !! k =
  match list_find (fun x => f x = k) l with Some (_, x) => Some x | None => m !! k end.
Proof.
  revert m. induction l as [|x l IH]; intros m Hnd; [done|].
  rw fmap_cons in Hnd. apply list.NoDup_cons in Hnd as [Hx Hnd]. cbn [fold_left].
  rw IH // /=. destruct (decide (f x = k)) as [<-|Hne].
  - destruct (list_find (fun y => f y = f x) l) as [[i y]|] eqn:E; simpl.
    + apply list_find_Some in E as (Hi & Hy & _). destruct Hx. rw -Hy.
      apply list_elem_of_fmap_2. by eapply list_elem_of_lookup_2.
    + by rw lookup_insert_eq.
  - rw lookup_insert_ne //. by destruct (list_find (fun y => f y = k) l) as [[i y]|].
Qed.

Lemma core_names_nodup : NoDup (to_lower <$> CoreBidderNames).
Proof.
  apply (iffLR (bool_decide_eq_true _)). vm_compute. reflexivity.
Qed.

Lemma BuildBidderNameHashSet_elem name : name ∈ BuildBidderNameHashSet <-> name ∈ CoreBidderNames.
Proof.
  rw /BuildBidderNameHashSet.
  assert (forall l (s : gset string), name ∈ fold_left (fun h n => {[n]} ∪ h) l s <-> name ∈ l \/ name ∈ s) as H.
  { induction l as [|x l IH]; intros s; cbn [fold_left]; [set_solver|]. rw IH. set_solver. }
  rw H. generalize CoreBidderNames. intros l. rw elem_of_empty. by rw right_id.
Qed.

Lemma to_lower_core_inj n c :
  n ∈ CoreBidderNames -> c ∈ CoreBidderNames -> to_lower n = to_lower c -> n = c.
Proof.
  intros [i Hi]%list_elem_of_lookup [j Hj]%list_elem_of_lookup He.
  assert (i = j) as <-.
  { eapply (proj1 (NoDup_alt _) core_names_nodup); rw list_lookup_fmap; [by rw Hi|by rw Hj /= He]. }
  congruence.
Qed.

(** Looking a bidder up without regard to case is sound and complete: a
    name normalises to a core bidder exactly when the bidder is a core bidder
    that the name spells up to case, so every core bidder normalises to
    itself and no two core bidders can be confused; and no core bidder has a
    reserved name, so an imp extension key that names one is never mistaken
    for prebid, context, data or skadn. *)
Theorem normalize_bidder_correct name b :
  (NormalizeBidderName name = Some b <-> b ∈ CoreBidderNames /\ to_lower name = to_lower b) /\
  (b ∈ CoreBidderNames -> IsBidderNameReserved b = false /\ NormalizeBidderName b = Some b).
Proof.
  assert (forall n c, NormalizeBidderName n = Some c <-> c ∈ CoreBidderNames /\ to_lower n = to_lower c) as Hn.
  { intros n c. rw /NormalizeBidderName /bidderNameLookup.
    rw (fold_insert_lookup to_lower CoreBidderNames ∅ (to_lower n) core_names_nodup).
    destruct (list_find _ CoreBidderNames) as [[i x]|] eqn:E.
    - apply list_find_Some in E as (Hi & Hx & _). split.
      + intros [= <-]. split; [by eapply list_elem_of_lookup_2|done].
      + intros [Hc Hl]. f_equal. apply to_lower_core_inj; [by eapply list_elem_of_lookup_2|done|congruence].
    - split; [by rw lookup_empty|]. intros [Hc Hl]. apply list_find_None in E.
      rw list.Forall_forall in E. by destruct (E c Hc). }
  split; [apply Hn|]. intros Hb. split; [|by apply Hn].
  assert (forallb (fun n => negb (IsBidderNameReserved n)) CoreBidderNames = true) as Hr by (vm_compute; reflexivity).
  rw forallb_forall in Hr. apply negb_true_iff, Hr. by apply list_elem_of_In.
Qed.
