(* ===== verification/InfoBidder.v ===== *)
(** * Bidders and what they support

    [config/bidderinfo.go], the static information on each bidder;
    [exchange/adapter_util.go], which builds the adapters of the enabled ones
    and tells requests which names are active and which disabled; and
    [adapters/infoawarebidder.go], the wrapper that keeps from an adapter what
    it does not support.  The text of a file and its YAML are parameters; so
    are the builders of the adapters.  A loop over a map takes its order. *)

From S2P Require Import Prelude Float64 ErrorTypes Json OpenRTB Bidders.

(** ** Bidder infos *)
Record PlatformInfo := mkPlatformInfo { pi_MediaTypes : list string }.
Record CapabilitiesInfo := mkCapabilities { cap_App : option PlatformInfo; cap_Site : option PlatformInfo }.
Record BidderInfo := mkBidderInfo {
  bi_Enabled : bool; bi_Capabilities : option CapabilitiesInfo; bi_ModifyingVastXmlAllowed : bool;
  bi_DebugAllow : option bool; bi_GVLVendorID : Z }.
Definition bi_set_Enabled (i : BidderInfo) (b : bool) : BidderInfo :=
  let 'mkBidderInfo _ c m d g := i in mkBidderInfo b c m d g.

(** The host's configuration of an adapter, of which this part is read here. *)
Record AdapterConfig := mkAdapterConfig { ac_Disabled : bool }.
Definition isEnabledByConfig (adapterConfigs : gmap string AdapterConfig) (bidderName : string) : bool :=
  match adapterConfigs !! to_lower bidderName with Some a => negb (ac_Disabled a) | None => false end.

Section Load.
Context (Read : string -> string + error) (Unmarshal : string -> BidderInfo + error).

Fixpoint load_loop (adapterConfigs : gmap string AdapterConfig) (bidders : list string) (infos : gmap string BidderInfo) :
  gmap string BidderInfo + error :=
  match bidders with
  | [] => inl infos
  | bidder :: rest =>
      match Read bidder with
      | inr err => inr err
      | inl data =>
          match Unmarshal data with
          | inr err => inr (EPlain ("error parsing yaml for bidder " ⧺ bidder ⧺ ": " ⧺ error_string err))
          | inl info =>
              load_loop adapterConfigs rest (<[bidder := bi_set_Enabled info (isEnabledByConfig adapterConfigs bidder)]> infos)
          end
      end
  end.
Definition loadBidderInfo (adapterConfigs : gmap string AdapterConfig) (bidders : list string) : gmap string BidderInfo + error :=
  load_loop adapterConfigs bidders ∅.
End Load.

(** A map is filtered whatever the order of the visits. *)
Definition ToGVLVendorIDMap (infos : gmap string BidderInfo) : gmap string Z :=
  omap (fun info => if bi_Enabled info && negb (bi_GVLVendorID info =? 0)%Z then Some (bi_GVLVendorID info) else None) infos.

(** ** Active and disabled bidders *)
Definition GetActiveBidders (infos : gmap string BidderInfo) : gmap string string :=
  map_imap (fun name info => if bi_Enabled info then Some name else None) infos.
Definition lifestreet_msg : string :=
  "Bidder " ⧺ GoStr.quoted "lifestreet" ⧺ " is no longer available in Prebid Server. Please update your configuration.".
Definition disabled_bidder_msg (name : string) : string :=
  "Bidder " ⧺ GoStr.quoted name ⧺
  " has been disabled on this instance of Prebid Server. Please work with the PBS host to enable this bidder again.".
Definition GetDisabledBiddersErrorMessages (infos : gmap string BidderInfo) : gmap string string :=
  map_imap (fun name info => if bi_Enabled info then None else Some (disabled_bidder_msg name)) infos ∪
  {["lifestreet"%string := lifestreet_msg]}.

(** ** The wrapper *)
Record parsedSupports := mkSupports { ps_enabled : bool; ps_banner : bool; ps_video : bool; ps_audio : bool; ps_native : bool }.
Definition no_supports : parsedSupports := mkSupports false false false false false.
Definition allow_step (acc : bool * bool * bool * bool) (allowedType : string) : bool * bool * bool * bool :=
  let '(b, v, a, n) := acc in
  if GoStr.eqb allowedType BidType.Banner then (true, v, a, n)
  else if GoStr.eqb allowedType BidType.Video then (b, true, a, n)
  else if GoStr.eqb allowedType BidType.Audio then (b, v, true, n)
  else if GoStr.eqb allowedType BidType.Native then (b, v, a, true)
  else acc.
Definition parseAllowedTypes (allowedTypes : list string) : bool * bool * bool * bool :=
  fold_left allow_step allowedTypes (false, false, false, false).
Definition parse_platform (p : option PlatformInfo) : parsedSupports :=
  match p with
  | None => no_supports
  | Some p => let '(b, v, a, n) := parseAllowedTypes (pi_MediaTypes p) in mkSupports true b v a n
  end.
Record parsedBidderInfo := mkParsedInfo { pbi_app : parsedSupports; pbi_site : parsedSupports }.
Definition parseBidderInfo (info : BidderInfo) : parsedBidderInfo :=
  match bi_Capabilities info with
  | None => mkParsedInfo no_supports no_supports
  | Some c => mkParsedInfo (parse_platform (cap_App c)) (parse_platform (cap_Site c))
  end.

Definition hasAnyTypes (imp : Imp) : bool :=
  bool_decide (is_Some (imp_Banner imp)) || bool_decide (is_Some (imp_Video imp)) ||
  bool_decide (is_Some (imp_Audio imp)) || bool_decide (is_Some (imp_Native imp)).
Definition unsupported_msg (i : nat) (kind : string) : error :=
  EBadInput ("request.imp[" ⧺ GoStr.itoa (Z.of_nat i) ⧺ "] uses " ⧺ kind ⧺ ", but this bidder doesn't support it").
Definition no_types_msg (i : nat) : error :=
  EBadInput ("request.imp[" ⧺ GoStr.itoa (Z.of_nat i) ⧺ "] has no supported MediaTypes. It will be ignored").

(** One imp of [pruneImps]. *)
Definition prune_imp (allowed : parsedSupports) (i : nat) (imp : Imp) : Imp * list error :=
  let '(imp, e1) := if negb (ps_banner allowed) && bool_decide (is_Some (imp_Banner imp))
                    then (imp_set_Banner imp None, [unsupported_msg i "banner"]) else (imp, []) in
  let '(imp, e2) := if negb (ps_video allowed) && bool_decide (is_Some (imp_Video imp))
                    then (imp_set_Video imp None, [unsupported_msg i "video"]) else (imp, []) in
  let '(imp, e3) := if negb (ps_audio allowed) && bool_decide (is_Some (imp_Audio imp))
                    then (imp_set_Audio imp None, [unsupported_msg i "audio"]) else (imp, []) in
  let '(imp, e4) := if negb (ps_native allowed) && bool_decide (is_Some (imp_Native imp))
                    then (imp_set_Native imp None, [unsupported_msg i "native"]) else (imp, []) in
  (imp, e1 ++ e2 ++ e3 ++ e4).
(** [pruneImps]: the imps, edited in place, the number without types, errors. *)
Fixpoint pruneImps (i : nat) (imps : list Imp) (allowed : parsedSupports) : list Imp * nat * list error :=
  match imps with
  | [] => ([], 0, [])
  | imp :: rest =>
      let '(imp, errs) := prune_imp allowed i imp in
      let '(rest, numToFilter, more) := pruneImps (S i) rest allowed in
      (imp :: rest, if hasAnyTypes imp then numToFilter else S numToFilter, errs ++ more)
  end.
Fixpoint filterImps (i : nat) (imps : list Imp) : list Imp * list error :=
  match imps with
  | [] => ([], [])
  | imp :: rest =>
      let '(newImps, errs) := filterImps (S i) rest in
      if hasAnyTypes imp then (imp :: newImps, errs) else (newImps, no_types_msg i :: errs)
  end.

Section Wrapper.
Context {RequestData : Type}.
(** [adapters.Bidder.MakeRequests]. *)
Definition Bidder : Type := BidRequest -> BidRequest * list RequestData * list error.

(** The part of [MakeRequests] below the platforms: the request it leaves, what
    the delegate made of it, the errors. *)
Definition forward (delegate : Bidder) (allowedMediaTypes : parsedSupports) (request : BidRequest) :
  BidRequest * list RequestData * list error :=
  let '(imps, numToFilter, errs) := pruneImps 0 (req_Imp request) allowedMediaTypes in
  let request := req_set_Imp request imps in
  if (numToFilter =? length imps)%nat then
    (request, [], errs ++ [EBadInput "Bid request didn't contain media types supported by the bidder"])
  else
    let '(request, errs) :=
      if (numToFilter =? 0)%nat then (request, errs)
      else let '(filteredImps, newErrs) := filterImps 0 imps in (req_set_Imp request filteredImps, errs ++ newErrs) in
    let '(request, reqs, delegateErrs) := delegate request in
    (request, reqs, errs ++ delegateErrs).
(** [InfoAwareBidder.MakeRequests]. *)
Definition info_MakeRequests (delegate : Bidder) (info : parsedBidderInfo) (request : BidRequest) :
  BidRequest * list RequestData * list error :=
  let refused msg := (request, [], [EBadInput msg]) in
  if bool_decide (is_Some (req_Site request)) && negb (ps_enabled (pbi_site info)) then
    refused "this bidder does not support site requests"%string
  else if bool_decide (is_Some (req_App request)) && negb (ps_enabled (pbi_app info)) then
    refused "this bidder does not support app requests"%string
  else
    forward delegate (if bool_decide (is_Some (req_App request)) then pbi_app info
                      else if bool_decide (is_Some (req_Site request)) then pbi_site info else no_supports) request.

(** [buildBidders], over the adapters' configurations in the order of a visit. *)
Definition Builder : Type := string -> AdapterConfig -> Bidder + error.
Definition wrapped (bidder : Bidder) (info : BidderInfo) : BidRequest -> BidRequest * list RequestData * list error :=
  info_MakeRequests bidder (parseBidderInfo info).
Definition build_step (infos : gmap string BidderInfo) (builders : gmap string Builder)
    (acc : gmap string (BidRequest -> BidRequest * list RequestData * list error) * list error) (kc : string * AdapterConfig) :
  gmap string (BidRequest -> BidRequest * list RequestData * list error) * list error :=
  let '(bidders, errs) := acc in
  let '(bidder, cfg) := kc in
  let fail msg := (bidders, errs ++ [EPlain (bidder ⧺ ": " ⧺ msg)]) in
  match NormalizeBidderName bidder with
  | None => fail "unknown bidder"%string
  | Some bidderName =>
      match infos !! bidderName with
      | None => fail "bidder info not found"%string
      | Some info =>
          match builders !! bidderName with
          | None => fail "builder not registered"%string
          | Some builder =>
              if bi_Enabled info then
                match builder bidderName cfg with
                | inr builderErr => fail (error_string builderErr)
                | inl bidderInstance => (<[bidderName := wrapped bidderInstance info]> bidders, errs)
                end
              else (bidders, errs)
          end
      end
  end.
Definition buildBidders (infos : gmap string BidderInfo) (builders : gmap string Builder) (visit : list (string * AdapterConfig)) :=
  fold_left (build_step infos builders) visit (∅, []).
End Wrapper.
Arguments Bidder : clear implicits.
Arguments Builder : clear implicits.

(** ** What the wrapper promises *)

(** An imp with only the media types that are supported. *)
Definition restrict (a : parsedSupports) (imp : Imp) : Imp :=
  imp_set_Native (imp_set_Audio (imp_set_Video (imp_set_Banner imp
    (if ps_banner a then imp_Banner imp else None)) (if ps_video a then imp_Video imp else None))
    (if ps_audio a then imp_Audio imp else None)) (if ps_native a then imp_Native imp else None).
(** How many media types that takes away. *)
Definition taken (allowed : bool) {A} (o : option A) : nat := match o with Some _ => if allowed then 0 else 1 | None => 0 end.
Definition types_taken (a : parsedSupports) (imp : Imp) : nat :=
  taken (ps_banner a) (imp_Banner imp) + taken (ps_video a) (imp_Video imp) +
  taken (ps_audio a) (imp_Audio imp) + taken (ps_native a) (imp_Native imp).
(** What the bidder supports on the platform of a request; [None] when it does
    not take requests of that platform. *)
Definition platform (info : parsedBidderInfo) (request : BidRequest) : option parsedSupports :=
  match req_Site request, req_App request with
  | Some _, None => if ps_enabled (pbi_site info) then Some (pbi_site info) else None
  | None, Some _ => if ps_enabled (pbi_app info) then Some (pbi_app info) else None
  | Some _, Some _ => if ps_enabled (pbi_site info) && ps_enabled (pbi_app info) then Some (pbi_app info) else None
  | None, None => Some no_supports
  end.
Definition bad_input (e : error) : Prop := exists msg, e = EBadInput msg.

Lemma prune_imp_spec a i imp : let '(imp', errs) := prune_imp a i imp in
  imp' = restrict a imp /\ length errs = types_taken a imp /\ Forall bad_input errs.
Proof.
  destruct imp as [id me b v au n], a as [en [] [] [] []]; destruct b, v, au, n; unfold prune_imp; cbn;
    (split; [done|]; split; [done|]); repeat constructor; by eexists.
Qed.
Lemma pruneImps_spec a imps : forall i, let '(imps', n, errs) := pruneImps i imps a in
  imps' = restrict a <$> imps /\ n + length (List.filter hasAnyTypes imps') = length imps' /\
  length errs = sum_list_with (types_taken a) imps /\ Forall bad_input errs.
Proof.
  induction imps as [|imp imps IH]; intros i; cbn [pruneImps]; [by split_and!|].
  pose proof (prune_imp_spec a i imp) as Hp. destruct (prune_imp a i imp) as [imp' e1]. destruct Hp as (-> & Hl1 & Hb1).
  specialize (IH (S i)). destruct (pruneImps (S i) imps a) as [[rest n] e2]. destruct IH as (-> & Hn & Hl2 & Hb2).
  cbn. rw length_app Hl1 Hl2. split_and!; [done| |done|by apply list.Forall_app].
  destruct (hasAnyTypes (restrict a imp)); cbn; lia.
Qed.
Lemma filterImps_spec imps : forall i, let '(kept, errs) := filterImps i imps in
  kept = List.filter hasAnyTypes imps /\ length errs + length kept = length imps /\ Forall bad_input errs.
Proof.
  induction imps as [|imp imps IH]; intros i; cbn [filterImps List.filter]; [by split_and!|].
  specialize (IH (S i)). destruct (filterImps (S i) imps) as [kept errs]. destruct IH as (-> & Hl & Hb).
  destruct (hasAnyTypes imp); cbn; split_and!; try done; [lia|lia|]. constructor; [by eexists|done].
Qed.
Lemma filter_full {A} (p : A -> bool) l : length (List.filter p l) = length l -> List.filter p l = l.
Proof.
  induction l as [|x l IH]; [done|]. cbn. destruct (p x); cbn; [intros [= H]; by rw IH|].
  intros H. pose proof (filter_length_le p l). lia.
Qed.

(** What is forwarded, for the supports [a]. *)
Definition forwarded {RequestData} (delegate : Bidder RequestData) (a : parsedSupports) (request : BidRequest)
    (answer : BidRequest * list RequestData * list error) : Prop :=
  let '(request', reqs, errs) := answer in
  let kept := List.filter hasAnyTypes (restrict a <$> req_Imp request) in
  let taken := sum_list_with (types_taken a) (req_Imp request) in
  match kept with
  | [] => reqs = [] /\ length errs = taken + 1 /\ Forall bad_input errs
  | _ => let answer := delegate (req_set_Imp request kept) in
         (request', reqs) = answer.1 /\
         exists own, errs = own ++ answer.2 /\ Forall bad_input own /\
           length own = taken + (length (req_Imp request) - length kept)
  end.
Lemma forward_spec {RequestData} (delegate : Bidder RequestData) a request :
  forwarded delegate a request (forward delegate a request).
Proof.
  unfold forward, forwarded. pose proof (pruneImps_spec a (req_Imp request) 0) as Hp.
  destruct (pruneImps 0 (req_Imp request) a) as [[imps n] errs]. destruct Hp as (-> & Hn & Hl & Hb).
  assert (length (req_Imp request) = length (restrict a <$> req_Imp request)) as Hlen by by rw length_fmap.
  rw Hlen. set (imps := restrict a <$> req_Imp request) in *. clearbody imps. clear Hlen.
  set (kept := List.filter hasAnyTypes imps) in *. destruct (Nat.eqb_spec n (length imps)) as [->|Hne].
  { assert (kept = []) as -> by (destruct kept; [done|]; cbn in Hn; lia).
    split_and!; [done|by rw length_app Hl|]. apply list.Forall_app. split; [done|]. repeat constructor. by eexists. }
  assert (kept <> []) as Hk by (intros Hnil; rw Hnil in Hn; cbn in Hn; lia).
  destruct (Nat.eqb_spec n 0) as [->|Hn0].
  - assert (imps = kept) as Himps by (symmetry; apply filter_full; subst kept; cbn in Hn; done).
    rw {1 2}Himps. destruct (delegate (req_set_Imp request kept)) as [[request' reqs] derrs] eqn:Ed.
    destruct kept as [|k ks]; [done|]. split; [done|]. exists errs. split_and!; [done|done|]. rw Hl. lia.
  - pose proof (filterImps_spec imps 0) as Hf. destruct (filterImps 0 imps) as [kept' newErrs]. destruct Hf as (-> & Hfl & Hfb).
    fold kept in Hfl |- *.
    assert (req_set_Imp (req_set_Imp request imps) kept = req_set_Imp request kept) as -> by by destruct request.
    destruct (delegate (req_set_Imp request kept)) as [[request' reqs] derrs] eqn:Ed.
    destruct kept as [|k ks]; [done|]. split; [done|]. exists (errs ++ newErrs).
    rw length_app Hl. split_and!; [done|by apply list.Forall_app|lia].
Qed.

(** What an adapter is given: nothing when the bidder does not take
    requests of the platform, or when no imp has a media type it supports
    there; otherwise it is called once, with the imps reduced to the supported
    media types and those without any left out, in their order, all else
    unchanged.  There is one error for each media type taken away and each
    imp left out, before the adapter's own. *)
Theorem info_bidder_restricts {RequestData} (delegate : Bidder RequestData) info request :
  match platform info request with
  | None => exists e, bad_input e /\ info_MakeRequests delegate info request = (request, [], [e])
  | Some a => forwarded delegate a request (info_MakeRequests delegate info request)
  end.
Proof.
  unfold info_MakeRequests, platform. destruct (req_Site request) as [site|], (req_App request) as [app|]; cbn.
  all: try (destruct (ps_enabled (pbi_site info)); cbn); try (destruct (ps_enabled (pbi_app info)); cbn).
  all: try apply forward_spec. all: eexists; split; [|done]; by eexists.
Qed.

(** ** Which bidders there are *)
Lemma load_loop_spec Read Unmarshal configs bidders : forall acc infos, load_loop Read Unmarshal configs bidders acc = inl infos ->
  forall n info, infos !! n = Some info ->
    ((n ∈ bidders) /\ bi_Enabled info = isEnabledByConfig configs n) \/ ((n ∉ bidders) /\ acc !! n = Some info).
Proof.
  induction bidders as [|b bidders IH]; intros acc infos; cbn [load_loop].
  { intros [= <-] n info Hn. right. split; [apply not_elem_of_nil|done]. }
  destruct (Read b) as [data|]; [|done]. destruct (Unmarshal data) as [i|]; [|done].
  intros Hl n info Hn. destruct (IH _ _ Hl _ _ Hn) as [[Hin He]|[Hnin Ha]]; [left; split; [by right|done]|].
  destruct (decide (b = n)) as [->|Hne].
  - rw lookup_insert_eq in Ha. injection Ha as <-. left. split; [by left|]. by destruct i.
  - rw lookup_insert_ne // in Ha. right. split; [|done]. by intros [->|?]%elem_of_cons.
Qed.
Lemma load_loop_total Read Unmarshal configs bidders : forall acc infos, load_loop Read Unmarshal configs bidders acc = inl infos ->
  forall n, n ∈ bidders \/ is_Some (acc !! n) -> is_Some (infos !! n).
Proof.
  induction bidders as [|b bidders IH]; intros acc infos; cbn [load_loop].
  { intros [= <-] n [?%not_elem_of_nil|?]; done. }
  destruct (Read b) as [data|]; [|done]. destruct (Unmarshal data) as [i|]; [|done].
  intros Hl n Hn. apply (IH _ _ Hl). destruct (decide (b = n)) as [->|Hne]; [right; by rw lookup_insert_eq|].
  rw lookup_insert_ne //. destruct Hn as [[->|?]%elem_of_cons|?]; [done|by left|by right].
Qed.

#[local] Opaque NormalizeBidderName bidderNameLookup CoreBidderNames.
Section Build.
Context {RequestData : Type} (infos : gmap string BidderInfo) (builders : gmap string (Builder RequestData)).

Lemma build_errors_grow visit acc : exists more, (fold_left (build_step infos builders) visit acc).2 = acc.2 ++ more.
Proof.
  revert acc. induction visit as [|[k c] visit IH]; intros acc; [exists []; by rw app_nil_r|]. cbn [fold_left].
  destruct (IH (build_step infos builders acc (k, c))) as [more ->].
  destruct acc as [bidders errs]. unfold build_step. repeat case_match; cbn; rw -?app_assoc; by eexists.
Qed.
(** Without errors, the adapters built are those of the enabled bidders that
    some configuration names. *)
Lemma buildBidders_spec visit bidders : buildBidders infos builders visit = (bidders, []) ->
  forall n, is_Some (bidders !! n) <->
    exists k c info, (k, c) ∈ visit /\ NormalizeBidderName k = Some n /\ infos !! n = Some info /\ bi_Enabled info = true.
Proof.
  unfold buildBidders. revert bidders. induction visit as [|[k c] visit IH] using rev_ind; intros bidders.
  { cbn. intros [= <-] n. split; [by intros [? ?]|]. by intros (? & ? & ? & ?%not_elem_of_nil & _). }
  rw fold_left_app. cbn [fold_left]. intros Hrun.
  destruct (fold_left (build_step infos builders) visit (∅, [])) as [bs errs] eqn:Ef.
  assert (errs = []) as ->.
  { destruct (build_errors_grow [(k, c)] (bs, errs)) as [more Hm]. cbn [fold_left] in Hm. rw Hrun in Hm. cbn in Hm.
    by destruct errs. }
  assert (forall n, (exists k' c' info, (k', c') ∈ visit ++ [(k, c)] /\ NormalizeBidderName k' = Some n /\ infos !! n = Some info /\
      bi_Enabled info = true) <-> is_Some (bs !! n) \/
      (NormalizeBidderName k = Some n /\ exists info, infos !! n = Some info /\ bi_Enabled info = true)) as Hsplit.
  { intros n. rw (IH bs eq_refl n). setoid_rewrite elem_of_app. setoid_rewrite list_elem_of_singleton. split.
    - intros (k' & c' & info & [Hin|[= -> ->]] & ? & ? & ?); [left; exists k', c', info; auto|right; split; [done|exists info; auto]].
    - intros [(k' & c' & info & ? & ? & ? & ?)|(? & info & ? & ?)]; [exists k', c', info; auto|].
      exists k, c, info. auto. }
  intros n. rw Hsplit. clear Hsplit IH Ef. unfold build_step in Hrun. cbn [app] in Hrun.
  destruct (NormalizeBidderName k) as [b|]; [|done].
  destruct (infos !! b) as [info|] eqn:Ei; [|done]. destruct (builders !! b) as [builder|]; [|done].
  destruct (bi_Enabled info) eqn:Ee.
  - destruct (builder b c) as [inst|]; [|done]. injection Hrun as <-. destruct (decide (b = n)) as [->|Hne].
    + rw lookup_insert_eq. split; [|by eexists]. intros _. right. split; [done|]. exists info; auto.
    + rw lookup_insert_ne //. split; [by left|]. intros [?|[[= ->] _]]; done.
  - injection Hrun as <-. split; [by left|]. intros [?|[[= ->] (info' & Hi & He)]]; [done|]. congruence.
Qed.
End Build.

(** The names a request may use are those there are adapters for: when the
    infos were loaded for the core bidders and the adapters were built without
    an error from a configuration with lower-case keys, in whatever order, a
    bidder has an adapter exactly when it is active, which is when it is a core
    bidder whose configuration is there and not disabled; every other core
    bidder is reported as disabled and none is both. *)
Theorem active_bidders_have_adapters {RequestData} Read Unmarshal configs infos (builders : gmap string (Builder RequestData))
    visit bidders :
  loadBidderInfo Read Unmarshal configs CoreBidderNames = inl infos ->
  (forall k, is_Some (configs !! k) -> to_lower k = k) ->
  visit ≡ₚ map_to_list configs ->
  buildBidders infos builders visit = (bidders, []) ->
  forall n,
    (is_Some (bidders !! n) <-> GetActiveBidders infos !! n = Some n) /\
    (GetActiveBidders infos !! n = Some n <->
       n ∈ CoreBidderNames /\ exists c, configs !! to_lower n = Some c /\ ac_Disabled c = false) /\
    (n ∈ CoreBidderNames -> GetActiveBidders infos !! n = None <->
       GetDisabledBiddersErrorMessages infos !! n = Some (disabled_bidder_msg n)).
Proof.
  unfold loadBidderInfo. intros Hload Hlower Hvisit Hbuild n.
  pose proof (load_loop_spec _ _ _ _ _ _ Hload) as Hinfo. pose proof (load_loop_total _ _ _ _ _ _ Hload) as Htotal.
  assert (GetActiveBidders infos !! n = Some n <-> exists info, infos !! n = Some info /\ bi_Enabled info = true) as Hactive.
  { unfold GetActiveBidders. rw map_lookup_imap. destruct (infos !! n) as [info|]; cbn; [|by split; [|intros (? & ? & _)]].
    destruct (bi_Enabled info) eqn:E; split; try done; [by exists info|]. intros (? & [= <-] & ?). congruence. }
  assert ((exists info, infos !! n = Some info /\ bi_Enabled info = true) <->
    n ∈ CoreBidderNames /\ exists c, configs !! to_lower n = Some c /\ ac_Disabled c = false) as Henabled.
  { unfold isEnabledByConfig in Hinfo. split.
    - intros (info & Hi & He). destruct (Hinfo _ _ Hi) as [[Hin Hen]|[_ Hn]]; [|by rw lookup_empty in Hn]. split; [done|].
      rw Hen in He. destruct (configs !! to_lower n) as [c|]; [|done]. exists c. split; [done|]. by apply negb_true_iff.
    - intros [Hin (c & Hc & Hd)]. destruct (Htotal n (or_introl Hin)) as [info Hi]. exists info. split; [done|].
      destruct (Hinfo _ _ Hi) as [[_ ->]|[Hnin _]]; [|done]. by rw Hc Hd. }
  split; [|split].
  - rw (buildBidders_spec _ _ _ _ Hbuild n) Hactive. split.
    + intros (k & c & info & _ & _ & Hi & He). by exists info.
    + intros Hen. pose proof Hen as (info & Hi & He). apply Henabled in Hen as [Hin (c & Hc & _)].
      exists (to_lower n), c, info. split_and!; [|apply normalize_bidder_correct|done|done].
      * rw Hvisit. by apply elem_of_map_to_list.
      * split; [done|]. by apply Hlower.
  - by rw Hactive.
  - intros Hin. unfold GetActiveBidders, GetDisabledBiddersErrorMessages. rw map_lookup_imap.
    destruct (Htotal n (or_introl Hin)) as [info Hi]. rw lookup_union map_lookup_imap Hi. cbn.
    destruct (bi_Enabled info); cbn; [|by rw union_Some_l]. split; [done|]. rw left_id.
    intros [<- Heq]%lookup_singleton_Some. by vm_compute in Heq.
Qed.

Definition demo_info_read (bidder : string) : string + error := inl bidder.
Definition demo_info_unmarshal (data : string) : BidderInfo + error :=
  inl (mkBidderInfo false (Some (mkCapabilities None (Some (mkPlatformInfo [BidType.Banner])))) false None 1).
Definition demo_adapter_configs : gmap string AdapterConfig :=
  {["appnexus" := mkAdapterConfig false; "rubicon" := mkAdapterConfig true]}%string.
Definition demo_builder : Builder nat := fun name cfg => inl (fun r => (r, [length (req_Imp r)], [])).
Definition demo_infos : gmap string BidderInfo :=
  match loadBidderInfo demo_info_read demo_info_unmarshal demo_adapter_configs CoreBidderNames with inl m => m | inr _ => ∅ end.
Definition demo_loads : bool :=
  match loadBidderInfo demo_info_read demo_info_unmarshal demo_adapter_configs CoreBidderNames with inl _ => true | inr _ => false end.
Lemma active_bidders_have_adapters_witness :
  let built := buildBidders demo_infos (map_imap (fun _ _ => Some demo_builder) demo_infos) (map_to_list demo_adapter_configs) in
  built.2 = [] /\ GetActiveBidders demo_infos !! "appnexus"%string = Some "appnexus"%string /\
  is_Some (built.1 !! "appnexus"%string) /\ ~ is_Some (built.1 !! "rubicon"%string).
Proof.
  intros built. assert (built.2 = [] /\ GetActiveBidders demo_infos !! "appnexus"%string = Some "appnexus"%string) as [He Ha]
    by (vm_compute; split; reflexivity).
  assert (loadBidderInfo demo_info_read demo_info_unmarshal demo_adapter_configs CoreBidderNames = inl demo_infos) as Hload.
  { assert (demo_loads = true) as Hl by (vm_compute; reflexivity). unfold demo_loads in Hl. unfold demo_infos.
    destruct (loadBidderInfo _ _ _ _); [reflexivity|discriminate Hl]. }
  assert (forall k, is_Some (demo_adapter_configs !! k) -> to_lower k = k) as Hlow.
  { intros k [c Hc]. unfold demo_adapter_configs in Hc. apply lookup_insert_Some in Hc as [[<- _]|[_ Hc]]; [reflexivity|].
    apply lookup_singleton_Some in Hc as [<- _]. reflexivity. }
  destruct built as [bs errs] eqn:Eb. cbn in He. subst errs.
  pose proof (active_bidders_have_adapters _ _ _ _ _ _ _ Hload Hlow (reflexivity _) Eb) as Hall.
  split; [reflexivity|]. split; [exact Ha|]. split.
  - apply Hall. exact Ha.
  - intros Hr. apply Hall in Hr. apply Hall in Hr as [_ (c & Hc & Hd)]. vm_compute in Hc. injection Hc as <-. discriminate Hd.
Defined.
