(* ===== verification/Pubstack.v ===== *)
(** * Batched analytics

    The pubstack module of [analytics/pubstack]: events are pushed into a
    channel per feature, which compresses them into a buffer and sends it when
    it is full, when some time has passed or when it is closed
    ([eventchannel/eventchannel.go]); the module opens and closes the channels
    as its remote configuration says ([pubstack_module.go], [config.go]).  A
    push is handed over to the goroutine of its channel, so the operations on
    one channel happen one after the other.  A flush starts a goroutine that
    posts the payload ([sender.go]): these senders run at any later time, in
    any order, and nobody looks at their errors; they are threads of a step
    relation.  A payload is represented by the events that were written into
    its gzip stream. *)

From S2P Require Import Prelude ErrorTypes.

(** ** One channel *)
Record Limit := mkLimit { maxByteSize : Z; maxEventCount : Z }.
Record EventChannel := mkEventChannel {
  ec_written : list string; ec_eventCount : Z; ec_bufferSize : Z; ec_limit : Limit }.
Definition NewEventChannel (limit : Limit) : EventChannel := mkEventChannel [] 0 0 limit.
Definition Payload : Type := list string.

Definition buffer (c : EventChannel) (event : string) : EventChannel :=
  mkEventChannel (ec_written c ++ [event]) (ec_eventCount c + 1) (ec_bufferSize c + Z.of_nat (GoStr.len event)) (ec_limit c).
Definition isBufferFull (c : EventChannel) : bool :=
  ((maxEventCount (ec_limit c) <=? ec_eventCount c) || (maxByteSize (ec_limit c) <=? ec_bufferSize c))%Z.
Definition reset (c : EventChannel) : EventChannel := mkEventChannel [] 0 0 (ec_limit c).
(** With the payloads that a sender is started for.  Closing and copying the
    buffer do not fail in memory. *)
Definition flush (c : EventChannel) : EventChannel * list Payload :=
  if ((ec_eventCount c =? 0) || (ec_bufferSize c =? 0))%Z then (c, []) else (reset c, [ec_written c]).
(** The cases of the loop of [start]: an event, the ticker, the end. *)
Definition on_event (c : EventChannel) (event : string) : EventChannel * list Payload :=
  let c := buffer c event in if isBufferFull c then flush c else (c, []).
Definition on_tick (c : EventChannel) : EventChannel * list Payload := flush c.
Definition on_end (c : EventChannel) : list Payload := (flush c).2.

(** *** The senders *)
(** How a post can end, and the error that [NewHttpSender]'s function gives. *)
Inductive HttpResult := RequestFailed (err : error) | PostFailed (err : error) | Answered (StatusCode : Z).
Definition HttpSender (result : HttpResult) : option error :=
  match result with
  | RequestFailed err | PostFailed err => Some err
  | Answered code =>
      if (code =? 200)%Z then None else Some (EPlain ("wrong code received " ⧺ GoStr.itoa code ⧺ " instead of 200"))
  end.

(** ** The module *)
Inductive Feature := Auction | CookieSync | Amp | SetUID | Video.
#[export] Instance feature_dec : EqDecision Feature.
Proof. solve_decision. Defined.
Definition feature_name (f : Feature) : string :=
  match f with Auction => "auction" | CookieSync => "cookiesync" | Amp => "amp" | SetUID => "setuid" | Video => "video" end.
Record Configuration := mkConfiguration { cfg_ScopeID : string; cfg_Endpoint : string; cfg_Features : gmap string bool }.
(** [isSameAs]; the features of the first are looked up in the second. *)
Definition isSameAs (a b : Configuration) : bool :=
  (size (cfg_Features a) =? size (cfg_Features b)) &&
  forallb (fun kv => Bool.eqb kv.2 (default false (cfg_Features b !! kv.1))) (map_to_list (cfg_Features a)) &&
  GoStr.eqb (cfg_Endpoint a) (cfg_Endpoint b) && GoStr.eqb (cfg_ScopeID a) (cfg_ScopeID b).

(** The senders that were started, each with its feature, endpoint and payload.
    Those of one feature are in the order of their start; a map is visited in
    any order, so the order between features says nothing. *)
Definition Senders : Type := list (string * string * Payload).
Record PubstackModule := mkPubstack {
  ps_cfg : Configuration; ps_eventChannels : gmap string (string * EventChannel); ps_limit : Limit; ps_senders : Senders }.
Definition isFeatureEnable (p : PubstackModule) (feature : string) : bool := default false (cfg_Features (ps_cfg p) !! feature).
(** [NewPubstackModule]: every feature is off until the configuration comes. *)
Definition NewPubstackModule (scope endpoint : string) (limit : Limit) : PubstackModule :=
  mkPubstack (mkConfiguration scope endpoint
    (list_to_map ((fun f => (feature_name f, false)) <$> [Auction; Video; Amp; CookieSync; SetUID]))) ∅ limit [].

Definition sends (name endpoint : string) (payloads : list Payload) : Senders := (fun p => (name, endpoint, p)) <$> payloads.
(** [LogAuctionObject] and the others, with the serialised object; [None] is
    the nil channel that is pushed to. *)
Definition LogObject (p : PubstackModule) (f : Feature) (serialised : option string) : option PubstackModule :=
  let name := feature_name f in
  if isFeatureEnable p name then
    match serialised with
    | None => Some p
    | Some payload =>
        '(endpoint, c) ← ps_eventChannels p !! name;
        let '(c, payloads) := on_event c payload in
        Some (mkPubstack (ps_cfg p) (<[name := (endpoint, c)]> (ps_eventChannels p)) (ps_limit p) (ps_senders p ++ sends name endpoint payloads))
    end
  else Some p.
(** The ticker of a channel. *)
Definition tick_channel (p : PubstackModule) (name : string) : PubstackModule :=
  match ps_eventChannels p !! name with
  | None => p
  | Some (endpoint, c) =>
      let '(c, payloads) := on_tick c in
      mkPubstack (ps_cfg p) (<[name := (endpoint, c)]> (ps_eventChannels p)) (ps_limit p) (ps_senders p ++ sends name endpoint payloads)
  end.
Definition closeAllEventChannels (p : PubstackModule) : PubstackModule :=
  mkPubstack (ps_cfg p) ∅ (ps_limit p)
    (ps_senders p ++ concat ((fun '(name, (endpoint, c)) => sends name endpoint (on_end c)) <$> map_to_list (ps_eventChannels p))).
Definition open_channel (p : PubstackModule) (f : Feature) : PubstackModule :=
  let name := feature_name f in
  if isFeatureEnable p name then
    mkPubstack (ps_cfg p) (<[name := (cfg_Endpoint (ps_cfg p), NewEventChannel (ps_limit p))]> (ps_eventChannels p)) (ps_limit p) (ps_senders p)
  else p.
Definition updateConfig (p : PubstackModule) (config : Configuration) : PubstackModule :=
  if isSameAs (ps_cfg p) config then p
  else
    let p := closeAllEventChannels (mkPubstack config (ps_eventChannels p) (ps_limit p) (ps_senders p)) in
    fold_left open_channel [Amp; Auction; CookieSync; Video; SetUID] p.

(** The life of a module until it is told to stop: with the senders that have
    run, each with the error it returned. *)
Record System := mkSystem { sy_module : PubstackModule; sy_done : list (nat * option error) }.
Inductive Event :=
  | Logs (f : Feature) (serialised : option string) | Ticks (f : Feature) | Configures (config : Configuration)
  | Sends (i : nat) (result : HttpResult).
Inductive step : System -> Event -> System -> Prop :=
  | StepLog p ran f serialised p' : LogObject p f serialised = Some p' -> step (mkSystem p ran) (Logs f serialised) (mkSystem p' ran)
  | StepTick p ran f : step (mkSystem p ran) (Ticks f) (mkSystem (tick_channel p (feature_name f)) ran)
  | StepConfig p ran config : step (mkSystem p ran) (Configures config) (mkSystem (updateConfig p config) ran)
  | StepSend p ran i sender result : ps_senders p !! i = Some sender -> i ∉ ran.*1 ->
      step (mkSystem p ran) (Sends i result) (mkSystem p (ran ++ [(i, HttpSender result)])).
Inductive runs : System -> list Event -> System -> Prop :=
  | RunsNil s : runs s [] s
  | RunsCons s e s1 l s2 : step s e s1 -> runs s1 l s2 -> runs s (e :: l) s2.

(** ** Facts *)
Fixpoint text (l : list string) : string := match l with [] => ""%string | e :: rest => e ⧺ text rest end.
Definition total (l : list string) : Z := Z.of_nat (GoStr.len (text l)).
Lemma text_app l k : text (l ++ k) = text l ⧺ text k.
Proof. induction l as [|e l IH]; [done|]. cbn. by rw IH str_app_assoc. Qed.
Lemma total_app l k : total (l ++ k) = (total l + total k)%Z.
Proof. unfold total. rw text_app str_len_app. lia. Qed.
Lemma total_0 l : total l = 0%Z <-> text l = ""%string.
Proof. unfold total. destruct (text l) as [|a s]; [by split|]. split; [|done]. intros H. unfold GoStr.len in H. cbn in H. lia. Qed.
Definition full (limit : Limit) (l : list string) : bool :=
  ((maxEventCount limit <=? Z.of_nat (length l)) || (maxByteSize limit <=? total l))%Z.

Section Channel.
(** The counters count, and a buffer with something in it is not full. *)
Definition channel_ok (limit : Limit) (c : EventChannel) : Prop :=
  ec_limit c = limit /\ ec_eventCount c = Z.of_nat (length (ec_written c)) /\ ec_bufferSize c = total (ec_written c) /\
  (full limit (ec_written c) = true -> total (ec_written c) = 0%Z).
(** A payload has something in it, and its last event made it full, if any. *)
Definition payload_ok (limit : Limit) (p : Payload) : Prop :=
  total p <> 0%Z /\ exists before last, p = before ++ [last] /\ (full limit before = true -> total before = 0%Z).
Lemma flush_spec limit c : ec_limit c = limit -> ec_eventCount c = Z.of_nat (length (ec_written c)) -> ec_bufferSize c = total (ec_written c) ->
  (exists before last, ec_written c = before ++ [last] /\ (full limit before = true -> total before = 0%Z)) \/ ec_written c = [] ->
  channel_ok limit (flush c).1 /\ Forall (payload_ok limit) (flush c).2 /\ total (ec_written (flush c).1) = 0%Z /\
  text (concat (flush c).2 ++ ec_written (flush c).1) = text (ec_written c).
Proof.
  intros Hl Hc Hb Hlast. unfold flush. destruct (Z.eqb_spec (ec_bufferSize c) 0) as [Hz|Hnz].
  - rw orb_true_r. cbn [fst snd concat app]. split_and!; [unfold channel_ok; rw -Hb; by split_and!|constructor|by rw -Hb|done].
  - rw orb_false_r. destruct (Z.eqb_spec (ec_eventCount c) 0) as [Hz|Hcz].
    { exfalso. rw Hc in Hz. destruct (ec_written c) eqn:E; [by rw Hb in Hnz|cbn in Hz; lia]. }
    cbn [fst snd concat app ec_written reset]. rw !app_nil_r. split_and!; [|constructor; [|constructor]|done|done].
    + unfold channel_ok. by split_and!.
    + split; [by rw -Hb|]. destruct Hlast as [?|Hn]; [done|]. by rw Hb Hn in Hnz.
Qed.
Lemma channel_last limit c : channel_ok limit c ->
  (exists before last, ec_written c = before ++ [last] /\ (full limit before = true -> total before = 0%Z)) \/ ec_written c = [].
Proof.
  intros (_ & _ & _ & Hf). destruct (ec_written c) as [|x l _] using rev_ind; [by right|left]. exists l, x. split; [done|].
  intros Hfull. assert (total (l ++ [x]) = 0%Z) as Ht.
  { apply Hf. revert Hfull. unfold full. rw length_app total_app. assert (0 <= total [x])%Z by (unfold total; lia). cbn.
    rw !orb_true_iff !Z.leb_le. lia. }
  rw total_app in Ht. unfold total in *. lia.
Qed.
Lemma tick_spec limit c : channel_ok limit c ->
  channel_ok limit (on_tick c).1 /\ Forall (payload_ok limit) (on_tick c).2 /\ total (ec_written (on_tick c).1) = 0%Z /\
  text (concat (on_tick c).2 ++ ec_written (on_tick c).1) = text (ec_written c).
Proof. intros Hok. pose proof (channel_last _ _ Hok). destruct Hok as (? & ? & ? & _). by apply flush_spec. Qed.
Lemma event_spec limit c event : channel_ok limit c ->
  channel_ok limit (on_event c event).1 /\ Forall (payload_ok limit) (on_event c event).2 /\
  text (concat (on_event c event).2 ++ ec_written (on_event c event).1) = text (ec_written c) ⧺ event.
Proof.
  intros (Hl & Hc & Hb & Hf). unfold on_event. set (c' := buffer c event).
  assert (ec_eventCount c' = Z.of_nat (length (ec_written c'))) as Hc' by (cbn; rw length_app Hc; cbn; lia).
  assert (ec_bufferSize c' = total (ec_written c')) as Hb'.
  { cbn. rw total_app Hb. unfold total at 3. cbn. by rw str_app_nil_r. }
  assert (text (ec_written c') = text (ec_written c) ⧺ event) as Ht by (cbn; rw text_app; cbn; by rw str_app_nil_r).
  destruct (isBufferFull c') eqn:E.
  - destruct (flush_spec limit c' Hl Hc' Hb') as (H1 & H2 & _ & H4); [left; by exists (ec_written c), event|]. by rw H4.
  - cbn [fst snd concat app]. split; [|by split]. split_and!; try done. unfold isBufferFull in E. unfold full. rw -Hc' -Hb' Hl in E |- *.
    by rw E.
Qed.
Lemma end_spec limit c : channel_ok limit c -> Forall (payload_ok limit) (on_end c) /\ text (concat (on_end c)) = text (ec_written c).
Proof.
  intros Hok. destruct (tick_spec limit c Hok) as (_ & Hp & Ht & E). split; [exact Hp|]. rw -E text_app. apply total_0 in Ht.
  unfold on_tick in Ht. unfold on_tick, on_end. by rw Ht str_app_nil_r.
Qed.
End Channel.

Section Module.
Context (limit : Limit).
(** The payloads sent for a feature, and what its channel holds. *)
Definition payloads_of (name : string) (sent : Senders) : list Payload := (List.filter (fun s => GoStr.eqb s.1.1 name) sent).*2.
Definition pending (name : string) (p : PubstackModule) : list string :=
  match ps_eventChannels p !! name with Some (_, c) => ec_written c | None => [] end.
(** The text that was accepted for a feature, sent or not. *)
Definition accepted (name : string) (p : PubstackModule) : string :=
  text (concat (payloads_of name (ps_senders p)) ++ pending name p).
(** Every enabled feature has a channel. *)
Definition module_ok (p : PubstackModule) : Prop :=
  ps_limit p = limit /\ (forall f, isFeatureEnable p (feature_name f) = true -> is_Some (ps_eventChannels p !! feature_name f)) /\
  map_Forall (fun _ ec => channel_ok limit ec.2) (ps_eventChannels p) /\ Forall (fun s => payload_ok limit s.2) (ps_senders p).

Lemma payloads_app name s t : payloads_of name (s ++ t) = payloads_of name s ++ payloads_of name t.
Proof. unfold payloads_of. by rw filter_app fmap_app. Qed.
Lemma payloads_sends name name' endpoint ps : payloads_of name (sends name' endpoint ps) = if GoStr.eqb name' name then ps else [].
Proof.
  unfold payloads_of, sends. induction ps as [|p ps IH]; [by destruct (GoStr.eqb _ _)|].
  rw fmap_cons. cbn [List.filter fst snd]. destruct (GoStr.eqb name' name); [by rw fmap_cons IH|done].
Qed.
Lemma sends_ok name endpoint ps : Forall (payload_ok limit) ps -> Forall (fun s => payload_ok limit s.2) (sends name endpoint ps).
Proof. induction 1; constructor; done. Qed.
Lemma feature_name_inj f g : feature_name f = feature_name g -> f = g.
Proof. by destruct f, g. Qed.

(** A channel's step is a step of its feature only. *)
Lemma channel_step_ok p name endpoint c c' ps : module_ok p -> ps_eventChannels p !! name = Some (endpoint, c) ->
  channel_ok limit c' -> Forall (payload_ok limit) ps ->
  let p' := mkPubstack (ps_cfg p) (<[name := (endpoint, c')]> (ps_eventChannels p)) (ps_limit p) (ps_senders p ++ sends name endpoint ps) in
  module_ok p' /\
  forall other, accepted other p' =
    if GoStr.eqb name other then text (concat (payloads_of name (ps_senders p)) ++ concat ps ++ ec_written c') else accepted other p.
Proof.
  intros (Hl & Hen & Hch & Hs) Hc Hok Hps. cbv zeta. split.
  - split; [done|]. split; [|split].
    + intros f Hf. cbn [ps_eventChannels]. destruct (decide (name = feature_name f)) as [->|Hne];
        [rw lookup_insert_eq; by eexists|rw lookup_insert_ne //; by apply Hen].
    + cbn [ps_eventChannels]. by apply map_Forall_insert_2.
    + cbn [ps_senders]. apply Forall_app. split; [done|by apply sends_ok].
  - intros other. unfold accepted, pending. cbn [ps_senders ps_eventChannels]. rw payloads_app payloads_sends.
    destruct (eqb_spec name other) as [->|Hne]; [rw lookup_insert_eq concat_app; by rw -app_assoc|].
    by rw lookup_insert_ne // app_nil_r.
Qed.
Lemma log_ok p f serialised : module_ok p -> exists p', LogObject p f serialised = Some p' /\ module_ok p' /\
  forall name, accepted name p' = accepted name p ⧺
    (if isFeatureEnable p (feature_name f) && GoStr.eqb (feature_name f) name then default ""%string serialised else ""%string).
Proof.
  intros Hok. unfold LogObject. destruct (isFeatureEnable p (feature_name f)) eqn:Ef; cbn [andb].
  2: { exists p. split; [done|]. split; [done|]. intros name. by rw str_app_nil_r. }
  destruct serialised as [payload|]; [|exists p; split; [done|]; split; [done|]; intros name; case_match; by rw str_app_nil_r].
  destruct Hok as (Hl & Hen & Hch & Hs). destruct (Hen f Ef) as [[endpoint c] Hc]. rw Hc. cbn [mbind option_bind].
  destruct (event_spec limit c payload (Hch _ _ Hc)) as (Hok' & Hps & Ht). destruct (on_event c payload) as [c' ps]. cbn [fst snd] in *.
  eexists. split; [done|]. destruct (channel_step_ok p (feature_name f) endpoint c c' ps) as [Hmod Hacc]; try done. split; [done|].
  intros name. rw Hacc. destruct (eqb_spec (feature_name f) name) as [<-|Hne]; [|by rw str_app_nil_r].
  unfold accepted, pending. rw Hc !text_app. rw text_app in Ht. by rw Ht str_app_assoc.
Qed.
Lemma tick_ok p name0 : module_ok p -> module_ok (tick_channel p name0) /\ forall name, accepted name (tick_channel p name0) = accepted name p.
Proof.
  intros Hok. unfold tick_channel. destruct (ps_eventChannels p !! name0) as [[endpoint c]|] eqn:Hc; [|done].
  pose proof Hok as (Hl & Hen & Hch & Hs). destruct (tick_spec limit c (Hch _ _ Hc)) as (Hok' & Hps & _ & Ht).
  destruct (on_tick c) as [c' ps]. cbn [fst snd] in *.
  destruct (channel_step_ok p name0 endpoint c c' ps) as [Hmod Hacc]; try done. split; [done|].
  intros name. rw Hacc. destruct (eqb_spec name0 name) as [<-|Hne]; [|done]. unfold accepted, pending. rw text_app in Ht. by rw Hc !text_app Ht.
Qed.

(** Closing sends what is pending, each feature's own. *)
Lemma close_sends name (l : list (string * (string * EventChannel))) : NoDup l.*1 ->
  payloads_of name (concat ((fun '(name, (endpoint, c)) => sends name endpoint (on_end c)) <$> l)) =
  match (list_to_map l : gmap string (string * EventChannel)) !! name with Some (_, c) => on_end c | None => [] end.
Proof.
  induction l as [|[n [endpoint c]] l IH]; [done|]. rw !fmap_cons. intros [Hn Hnd]%list.NoDup_cons. cbn [concat list_to_map foldr].
  rw payloads_app payloads_sends (IH Hnd). destruct (eqb_spec n name) as [->|Hne].
  - rw lookup_insert_eq. assert ((list_to_map l : gmap string (string * EventChannel)) !! name = None) as -> by by apply not_elem_of_list_to_map_1.
    by rw app_nil_r.
  - by rw lookup_insert_ne.
Qed.
Lemma close_ok p : module_ok p -> let p' := closeAllEventChannels p in
  Forall (fun s => payload_ok limit s.2) (ps_senders p') /\ ps_eventChannels p' = ∅ /\ forall name, accepted name p' = accepted name p.
Proof.
  intros (Hl & Hen & Hch & Hs). cbv zeta. split; [|split; [done|]].
  - cbn. apply Forall_app. split; [done|]. apply Forall_concat, Forall_fmap, list.Forall_forall. intros [n [e c]] Hin%elem_of_map_to_list.
    cbn. apply sends_ok. by destruct (end_spec limit c (Hch _ _ Hin)).
  - intros name. unfold accepted, pending. cbn [closeAllEventChannels ps_senders ps_eventChannels]. rw payloads_app concat_app.
    rw close_sends; [apply NoDup_fst_map_to_list|]. rw list_to_map_to_list lookup_empty app_nil_r.
    destruct (ps_eventChannels p !! name) as [[e c]|] eqn:Hc; [|done]. rw !text_app. f_equal. by destruct (end_spec limit c (Hch _ _ Hc)).
Qed.
(** Opening channels: nothing is pending, and the enabled ones are there. *)
Definition opened (p p' : PubstackModule) : Prop :=
  ps_cfg p' = ps_cfg p /\ ps_limit p' = ps_limit p /\ ps_senders p' = ps_senders p /\
  map_Forall (fun _ ec => channel_ok limit ec.2) (ps_eventChannels p') /\ (forall name, pending name p' = []) /\
  (forall name, is_Some (ps_eventChannels p !! name) -> is_Some (ps_eventChannels p' !! name)).
Lemma open_ok p f : ps_limit p = limit -> opened p p -> opened p (open_channel p f) /\
  (isFeatureEnable p (feature_name f) = true -> is_Some (ps_eventChannels (open_channel p f) !! feature_name f)).
Proof.
  intros Hl Hp. unfold open_channel. destruct (isFeatureEnable p (feature_name f)) eqn:Ef; [|done].
  destruct Hp as (_ & _ & _ & Hch & Hpend & _). split.
  - unfold opened, pending. cbn. split_and!; try done.
    + apply map_Forall_insert_2; [|done]. unfold channel_ok. cbn. by rw Hl.
    + intros name. specialize (Hpend name). unfold pending in Hpend.
      destruct (decide (feature_name f = name)) as [->|Hne]; [by rw lookup_insert_eq|by rw lookup_insert_ne].
    + intros name Hs. destruct (decide (feature_name f = name)) as [->|Hne]; [rw lookup_insert_eq; by eexists|by rw lookup_insert_ne].
  - intros _. cbn. rw lookup_insert_eq. by eexists.
Qed.
Lemma open_all_ok fs p : ps_limit p = limit -> opened p p -> opened p (fold_left open_channel fs p) /\
  forall f, f ∈ fs -> isFeatureEnable p (feature_name f) = true -> is_Some (ps_eventChannels (fold_left open_channel fs p) !! feature_name f).
Proof.
  revert p. induction fs as [|f fs IH]; intros p Hl Hp; cbn [fold_left]; [split; [done|]; by intros f Hn%elem_of_nil|].
  destruct (open_ok p f Hl Hp) as [(Hc & Hl' & Hs & Hch & Hpend & Hmono) Hf]. set (p1 := open_channel p f) in *.
  destruct (IH p1) as [(Hc2 & Hl2 & Hs2 & Hch2 & Hpend2 & Hmono2) Hfs]; [congruence|by unfold opened|].
  split; [unfold opened; split_and!; try congruence; auto|]. intros g [->|Hg]%elem_of_cons He.
  - by apply Hmono2, Hf.
  - apply Hfs; [done|]. unfold isFeatureEnable in *. by rw Hc.
Qed.
Lemma config_ok p config : module_ok p ->
  module_ok (updateConfig p config) /\ forall name, accepted name (updateConfig p config) = accepted name p.
Proof.
  intros Hok. unfold updateConfig. destruct (isSameAs _ _); [done|]. pose proof Hok as (Hl & Hen & Hch & Hs).
  destruct (close_ok p Hok) as (Hsent & Hempty & Hacc). set (p0 := mkPubstack config _ _ _). set (p1 := closeAllEventChannels p0).
  assert (ps_senders p1 = ps_senders (closeAllEventChannels p)) as Hs1 by done.
  destruct (open_all_ok [Amp; Auction; CookieSync; Video; SetUID] p1) as [(Hc2 & Hl2 & Hs2 & Hch2 & Hpend2 & _) Hfs]; [done|by unfold opened|].
  set (p2 := fold_left open_channel _ p1) in *. split.
  - split; [rw Hl2; exact Hl|]. split; [|split; [done|by rw Hs2 Hs1]]. intros f Hf. apply Hfs; [apply (bool_decide_eq_true_1 (_ ∈ _)); by destruct f|].
    unfold isFeatureEnable in *. by rw -Hc2.
  - intros name. rw -Hacc. unfold accepted. rw Hpend2 Hs2 Hs1. unfold pending. cbn [closeAllEventChannels ps_eventChannels]. by rw lookup_empty.
Qed.

Lemma new_module_ok scope endpoint : module_ok (NewPubstackModule scope endpoint limit).
Proof. split; [done|]. split; [by intros []|]. split; [apply map_Forall_empty|constructor]. Qed.
End Module.

(** *** The specification *)
(** When a configuration is taken for the one there is: as many features, and
    those there are have the same value. *)
Definition same (a b : Configuration) : Prop :=
  size (cfg_Features a) = size (cfg_Features b) /\
  (forall k v, cfg_Features a !! k = Some v -> v = default false (cfg_Features b !! k)) /\
  cfg_Endpoint a = cfg_Endpoint b /\ cfg_ScopeID a = cfg_ScopeID b.
Lemma isSameAs_iff a b : isSameAs a b = true <-> same a b.
Proof.
  unfold isSameAs, same. rw !andb_true_iff Nat.eqb_eq !String.eqb_eq forallb_forall. split.
  - intros (((? & Hf) & ?) & ?). split_and!; try done. intros k v Hk. apply eqb_prop, (Hf (k, v)), list_elem_of_In. by apply elem_of_map_to_list.
  - intros (? & Hf & ? & ?). split_and!; try done. intros [k v] Hin%list_elem_of_In%elem_of_map_to_list. rw (Hf k v Hin). apply eqb_reflx.
Qed.
#[export] Instance same_dec a b : Decision (same a b).
Proof. destruct (isSameAs a b) eqn:E; [left; by apply isSameAs_iff|right]. intros H%isSameAs_iff. congruence. Defined.
(** What is logged for a feature while the configuration has it on. *)
Fixpoint logged (name : string) (cfg : Configuration) (trace : list Event) : string :=
  match trace with
  | [] => ""%string
  | Logs f (Some e) :: rest =>
      (if bool_decide (feature_name f = name /\ cfg_Features cfg !! name = Some true) then e else ""%string) ⧺ logged name cfg rest
  | Configures config :: rest => logged name (if bool_decide (same cfg config) then cfg else config) rest
  | _ :: rest => logged name cfg rest
  end.
Definition all_off (scope endpoint : string) : Configuration :=
  mkConfiguration scope endpoint
    {["auction" := false; "video" := false; "amp" := false; "cookiesync" := false; "setuid" := false]}%string.

Section Runs.
Context (limit : Limit).
Definition system_ok (s : System) : Prop :=
  module_ok limit (sy_module s) /\ NoDup (sy_done s).*1 /\ Forall (fun d => d.1 < length (ps_senders (sy_module s))) (sy_done s).
Lemma opened_cfg fs p : ps_cfg (fold_left open_channel fs p) = ps_cfg p.
Proof. revert p. induction fs as [|f fs IH]; intros p; [done|]. cbn. rw IH. unfold open_channel. by case_match. Qed.
Lemma opened_senders fs p : ps_senders (fold_left open_channel fs p) = ps_senders p.
Proof. revert p. induction fs as [|f fs IH]; intros p; [done|]. cbn. rw IH. unfold open_channel. by case_match. Qed.
Lemma enabled_iff p name : isFeatureEnable p name = true <-> cfg_Features (ps_cfg p) !! name = Some true.
Proof. unfold isFeatureEnable. by destruct (_ !! name) as [[]|]. Qed.
(** Senders that were started stay where they are. *)
Lemma senders_grow s e s' : step s e s' -> length (ps_senders (sy_module s)) <= length (ps_senders (sy_module s')).
Proof.
  intros [p ran f e' p' H|p ran f|p ran config|]; cbn [sy_module]; [..|done].
  - unfold LogObject in H. destruct (isFeatureEnable _ _); [|by injection H as <-]. destruct e'; [|by injection H as <-].
    destruct (_ !! _) as [[endpoint c]|]; cbn [mbind option_bind] in H; [|done]. destruct (on_event c _). injection H as <-. cbn. rw length_app. lia.
  - unfold tick_channel. destruct (_ !! _) as [[endpoint c]|]; [|done]. destruct (on_tick c). cbn. rw length_app. lia.
  - unfold updateConfig. destruct (isSameAs _ _); [done|]. rw opened_senders. cbn. rw length_app. lia.
Qed.
Lemma step_ok s e s' : step s e s' -> system_ok s -> system_ok s' /\
  forall name trace, accepted name (sy_module s) ⧺ logged name (ps_cfg (sy_module s)) (e :: trace) =
                     accepted name (sy_module s') ⧺ logged name (ps_cfg (sy_module s')) trace.
Proof.
  intros Hs (Hok & Hnd & Hlt). pose proof (senders_grow _ _ _ Hs) as Hgrow.
  assert (Forall (fun d => d.1 < length (ps_senders (sy_module s'))) (sy_done s)) as Hlt'.
  { eapply list.Forall_impl; [exact Hlt|]. intros d. cbn. lia. }
  destruct Hs as [p ran f e p' H|p ran f|p ran config|p ran i sender result Hi Hn]; cbn [sy_module sy_done] in *.
  - destruct (log_ok limit p f e Hok) as (p1 & Hp1 & Hok1 & Hacc). rw H in Hp1. injection Hp1 as <-. split; [done|].
    intros name trace. rw Hacc str_app_assoc. f_equal. assert (ps_cfg p' = ps_cfg p) as ->.
    { unfold LogObject in H. destruct (isFeatureEnable _ _); [|by injection H as <-]. destruct e; [|by injection H as <-].
      destruct (_ !! _) as [[endpoint c]|]; cbn [mbind option_bind] in H; [|done]. destruct (on_event c _). by injection H as <-. }
    cbn [logged]. destruct e as [e|]; [|by case_match]. f_equal.
    case_bool_decide as Hb.
    + destruct Hb as [<- Hen]. apply enabled_iff in Hen. by rw Hen eqb_refl.
    + destruct (isFeatureEnable p (feature_name f)) eqn:Ef; [|done]. cbn [andb]. destruct (eqb_spec (feature_name f) name) as [<-|]; [|done].
      destruct Hb. split; [done|]. by apply enabled_iff.
  - destruct (tick_ok limit p (feature_name f) Hok) as [Hok1 Hacc]. split; [done|]. intros name trace. rw Hacc. cbn [logged].
    assert (ps_cfg (tick_channel p (feature_name f)) = ps_cfg p) as ->; [|done]. unfold tick_channel.
    destruct (_ !! _) as [[endpoint c]|]; [|done]. by destruct (on_tick c).
  - destruct (config_ok limit p config Hok) as [Hok1 Hacc]. split; [done|]. intros name trace. rw Hacc. cbn [logged]. f_equal.
    assert (ps_cfg (updateConfig p config) = if bool_decide (same (ps_cfg p) config) then ps_cfg p else config) as ->; [|done].
    unfold updateConfig. case_bool_decide as Hsame; [by rw (proj2 (isSameAs_iff _ _) Hsame)|].
    destruct (isSameAs _ _) eqn:E; [by apply isSameAs_iff in E|]. by rw opened_cfg.
  - split; [|done]. split; [done|]. cbn [sy_done sy_module]. rw fmap_app. split.
    + apply list.NoDup_app. split_and!; [done| |apply NoDup_singleton]. by intros j Hj ->%list_elem_of_singleton.
    + apply Forall_app. split; [done|]. constructor; [|constructor]. by eapply lookup_lt_Some.
Qed.
Lemma runs_ok s trace s' : runs s trace s' -> system_ok s -> system_ok s' /\
  forall name, accepted name (sy_module s') = accepted name (sy_module s) ⧺ logged name (ps_cfg (sy_module s)) trace.
Proof.
  induction 1 as [s|s e s1 l s2 Hs _ IH]; intros Hok; [split; [done|]; intros name; by rw str_app_nil_r|].
  destruct (step_ok _ _ _ Hs Hok) as [Hok1 Hacc]. destruct (IH Hok1) as [Hok2 Hacc2]. split; [done|].
  intros name. by rw Hacc2 Hacc.
Qed.
(** Where payloads go: to a configuration that turned the feature on. *)
Definition configured (trace : list Event) (name endpoint : string) : Prop :=
  exists config, Configures config ∈ trace /\ cfg_Endpoint config = endpoint /\ cfg_Features config !! name = Some true.
Definition addressed (trace : list Event) (p : PubstackModule) : Prop :=
  map_Forall (fun name ec => configured trace name ec.1) (ps_eventChannels p) /\
  Forall (fun s => configured trace s.1.1 s.1.2) (ps_senders p).
Lemma addressed_sends trace name endpoint payloads : configured trace name endpoint ->
  Forall (fun s => configured trace s.1.1 s.1.2) (sends name endpoint payloads).
Proof. intros H. by induction payloads; constructor. Qed.
(** A channel's step sends to the channel's endpoint. *)
Lemma channel_addressed trace p name endpoint c c' payloads : addressed trace p -> ps_eventChannels p !! name = Some (endpoint, c) ->
  addressed trace (mkPubstack (ps_cfg p) (<[name := (endpoint, c')]> (ps_eventChannels p)) (ps_limit p)
                     (ps_senders p ++ sends name endpoint payloads)).
Proof.
  intros [Hch Hs] Hc. pose proof (Hch _ _ Hc) as Hconf. split; cbn.
  - by apply map_Forall_insert_2.
  - apply Forall_app. split; [done|by apply addressed_sends].
Qed.
Lemma close_addressed trace p : addressed trace p -> addressed trace (closeAllEventChannels p).
Proof.
  intros [Hch Hs]. split; cbn; [apply map_Forall_empty|]. apply Forall_app. split; [done|].
  apply Forall_concat, Forall_fmap, list.Forall_forall. intros [n [e c]] Hin%elem_of_map_to_list. apply addressed_sends, (Hch _ _ Hin).
Qed.
Lemma open_addressed trace fs p : Configures (ps_cfg p) ∈ trace -> addressed trace p -> addressed trace (fold_left open_channel fs p).
Proof.
  revert p. induction fs as [|f fs IH]; intros p Hin Hp; [done|]. cbn [fold_left].
  assert (ps_cfg (open_channel p f) = ps_cfg p) as Hcfg by (unfold open_channel; by case_match).
  apply IH; [by rw Hcfg|]. unfold open_channel. destruct (isFeatureEnable p (feature_name f)) eqn:E; [|done].
  destruct Hp as [Hch Hs]. split; [|done]. cbn. apply map_Forall_insert_2; [|done].
  exists (ps_cfg p). split_and!; [done|done|]. by apply enabled_iff.
Qed.
Lemma step_addressed trace s e s' : step s e s' -> e ∈ trace -> addressed trace (sy_module s) -> addressed trace (sy_module s').
Proof.
  intros [p ran f e' p' H|p ran f|p ran config|] Hin Hp; cbn [sy_module] in *; [..|done].
  - unfold LogObject in H. destruct (isFeatureEnable _ _); [|by injection H as <-]. destruct e'; [|by injection H as <-].
    destruct (_ !! _) as [[endpoint c]|] eqn:Hc; cbn [mbind option_bind] in H; [|done]. destruct (on_event c _). injection H as <-.
    by eapply channel_addressed.
  - unfold tick_channel. destruct (_ !! _) as [[endpoint c]|] eqn:Hc; [|done]. destruct (on_tick c). by eapply channel_addressed.
  - unfold updateConfig. destruct (isSameAs _ _); [done|]. apply open_addressed; [done|]. by apply close_addressed.
Qed.
Lemma runs_addressed trace s l s' : runs s l s' -> l ⊆ trace -> addressed trace (sy_module s) -> addressed trace (sy_module s').
Proof.
  induction 1 as [s|s e s1 l s2 Hs _ IH]; intros Hsub Hp; [done|]. apply IH; [set_solver|].
  eapply step_addressed; [exact Hs|set_solver|done].
Qed.
End Runs.


(** Two events that fill a buffer; the sender fails, and nothing follows. *)
Definition demo_on : Configuration := mkConfiguration "s" "e" {["auction"%string := true]}.
Definition demo_trace : list Event :=
  [Configures demo_on; Logs Auction (Some "ab"%string); Logs Amp (Some "x"%string); Logs Auction (Some "c"%string); Sends 0 (Answered 500)].
Lemma demo_pubstack_runs : exists s, runs (mkSystem (NewPubstackModule "s" "e" (mkLimit 100 2)) []) demo_trace s /\
  ps_senders (sy_module s) = [("auction", "e", ["ab"; "c"])]%string /\
  sy_done s = [(0, Some (EPlain "wrong code received 500 instead of 200"))].
Proof.
  eexists. split.
  - eapply RunsCons; [apply StepConfig|]. eapply RunsCons; [apply StepLog; vm_compute; reflexivity|].
    eapply RunsCons; [apply StepLog; vm_compute; reflexivity|]. eapply RunsCons; [apply StepLog; vm_compute; reflexivity|].
    eapply RunsCons; [eapply (StepSend _ _ 0); [reflexivity|apply not_elem_of_nil]|]. apply RunsNil.
  - split; reflexivity.
Qed.

(** When the module is told to stop it closes its channels but keeps its
    configuration: the next object that is logged pushes to a nil channel. *)
Example log_after_stop :
  let p := updateConfig (NewPubstackModule "s" "e" (mkLimit 100 10)) demo_on in
  LogObject p Auction (Some "x"%string) <> None /\ LogObject (closeAllEventChannels p) Auction (Some "x"%string) = None.
Proof. vm_compute. split; [discriminate|reflexivity]. Qed.
(** Two configurations can be taken for the same: the names of the second are
    not looked at. *)
Example new_feature_ignored :
  isSameAs (mkConfiguration "s" "e" {["old"%string := false]}) (mkConfiguration "s" "e" {["auction"%string := true]}) = true.
Proof. by vm_compute. Qed.
