(* ===== verification/Currency.v ===== *)
(** * Currency conversion

    The [currency] package: rate tables ([Rates], [ConstantRates],
    [AggregateConversions]) behind the [Conversions] interface, and the
    [RateConverter], which refreshes its table periodically and falls back to
    constant rates when the table is too old.

    [currency.ParseISO] of golang.org/x/text is a parameter: it maps a code to
    the text of its unit or to an error.  So is [time.Parse] on the date of
    the rates file. *)

From S2P Require Import Prelude Float64 ErrorTypes Json.

Definition RateMap : Type := gmap string (gmap string float64).

(** The [Conversions] interface; [GetRates] is a pointer that may be nil to a
    map that may be nil. *)
Record Conversions := mkConversions {
  GetRate : string -> string -> float64 + error;
  GetRates : option (option RateMap) }.

Record Rates := mkRates { DataAsOf : Z; rates_Conversions : option RateMap }.

Definition one : float64 := F64.of_Z 1.

Section Currency.
Context (ParseISO : string -> string + error).

Definition rate_lookup (m : RateMap) (from to : string) : option float64 :=
  m !! from ≫= fun row => row !! to.

Definition Rates_GetRate (r : Rates) (from to : string) : float64 + error :=
  match ParseISO from with
  | inr err => inr err
  | inl fromUnit =>
      match ParseISO to with
      | inr err => inr err
      | inl toUnit =>
          if GoStr.eqb fromUnit toUnit then inl one
          else match rates_Conversions r with
               | None => inr (EPlain "rates are nil")
               | Some m =>
                   match rate_lookup m fromUnit toUnit with
                   | Some conversion => inl conversion
                   | None =>
                       match rate_lookup m toUnit fromUnit with
                       | Some conversion => inl (F64.div one conversion)
                       | None => inr (EConversionRateNotFound fromUnit toUnit)
                       end
                   end
               end
      end
  end.
Definition Rates_Conv (r : Rates) : Conversions :=
  mkConversions (Rates_GetRate r) (Some (rates_Conversions r)).

Definition ConstantRates_GetRate (from to : string) : float64 + error :=
  match ParseISO from with
  | inr err => inr err
  | inl fromUnit =>
      match ParseISO to with
      | inr err => inr err
      | inl toUnit =>
          if negb (GoStr.eqb fromUnit toUnit)
          then inr (EConversionRateNotFound fromUnit toUnit)
          else inl one
      end
  end.
Definition ConstantRates_Conv : Conversions := mkConversions ConstantRates_GetRate None.

Definition AggregateConversions_GetRate (customRates serverRates : Conversions)
    (from to : string) : float64 + error :=
  match GetRate customRates from to with
  | inl rate => inl rate
  | inr (EConversionRateNotFound _ _) => GetRate serverRates from to
  | inr err => inr err
  end.
Definition AggregateConversions_Conv (customRates serverRates : Conversions) : Conversions :=
  mkConversions (AggregateConversions_GetRate customRates serverRates) None.

(** What every implementation promises to the exchange: a code that is not a
    currency is an error, a currency converts to itself at rate 1, whatever
    its spelling, and the result depends on the codes only through their
    units. *)
Class LawfulConversions (c : Conversions) : Prop := {
  conv_bad_from from to err : ParseISO from = inr err -> GetRate c from to = inr err;
  conv_bad_to from to u err :
    ParseISO from = inl u -> ParseISO to = inr err -> GetRate c from to = inr err;
  conv_same from to u : ParseISO from = inl u -> ParseISO to = inl u -> GetRate c from to = inl one;
  conv_units from from' to to' :
    ParseISO from = ParseISO from' -> ParseISO to = ParseISO to' ->
    GetRate c from to = GetRate c from' to' }.

#[export] Instance Rates_lawful r : LawfulConversions (Rates_Conv r).
Proof.
  split; simpl; rw /Rates_GetRate.
  - by intros from to err ->.
  - by intros from to u err -> ->.
  - intros from to u -> ->. by rw eqb_refl.
  - by intros from from' to to' -> ->.
Qed.

#[export] Instance ConstantRates_lawful : LawfulConversions ConstantRates_Conv.
Proof.
  split; simpl; rw /ConstantRates_GetRate.
  - by intros from to err ->.
  - by intros from to u err -> ->.
  - intros from to u -> ->. by rw eqb_refl.
  - by intros from from' to to' -> ->.
Qed.

(** The reference reading of a pair of tables: the first that lists the pair
    in either direction decides, custom rates before server rates. *)
Definition table_rate (m : option RateMap) (f t : string) : option float64 :=
  m ≫= fun m => match rate_lookup m f t with
                | Some x => Some x
                | None => F64.div one <$> rate_lookup m t f
                end.

Lemma Rates_GetRate_table r f t uf ut :
  ParseISO f = inl uf -> ParseISO t = inl ut -> uf <> ut ->
  Rates_GetRate r f t =
    match table_rate (rates_Conversions r) uf ut with
    | Some x => inl x
    | None => inr (match rates_Conversions r with
                   | None => EPlain "rates are nil"
                   | Some _ => EConversionRateNotFound uf ut
                   end)
    end.
Proof.
  intros Hf Ht Hne. rw /Rates_GetRate Hf Ht.
  apply eqb_neq in Hne as ->. destruct (rates_Conversions r) as [m|]; [|done]. simpl.
  destruct (rate_lookup m uf ut); [done|]. by destruct (rate_lookup m ut uf).
Qed.

#[export] Instance AggregateConversions_lawful c s :
  LawfulConversions c -> LawfulConversions s ->
  LawfulConversions (AggregateConversions_Conv c s).
Proof.
  intros Hc Hs. split; simpl; rw /AggregateConversions_GetRate.
  - intros from to err He. rw (conv_bad_from _ to _ He).
    destruct err; try done. by apply conv_bad_from.
  - intros from to u err Hu He. rw (conv_bad_to _ _ _ _ Hu He).
    destruct err; try done. by eapply conv_bad_to.
  - intros from to u Hf Ht. by rw (conv_same _ _ _ Hf Ht).
  - intros from from' to to' Hf Ht.
    rw (conv_units from from' to to' Hf Ht).
    destruct (GetRate c from' to') as [|[]]; try done. by apply conv_units.
Qed.

End Currency.

(** With the request's own rates in front of the server's, a conversion
    between two different currencies uses the request's table when it lists
    the pair in either direction (inverting when only the reverse is listed),
    otherwise the server's table, otherwise fails with the missing-rate error
    of the two units. *)
Theorem aggregate_rate_priority ParseISO (custom server : Rates) mc ms from to uf ut
    (Hcm : rates_Conversions custom = Some mc) (Hsm : rates_Conversions server = Some ms)
    (Hf : ParseISO from = inl uf) (Ht : ParseISO to = inl ut) (Hne : uf <> ut) :
  GetRate (AggregateConversions_Conv (Rates_Conv ParseISO custom) (Rates_Conv ParseISO server)) from to =
    match table_rate (Some mc) uf ut, table_rate (Some ms) uf ut with
    | Some x, _ => inl x
    | None, Some x => inl x
    | None, None => inr (EConversionRateNotFound uf ut)
    end.
Proof.
  cbn [GetRate AggregateConversions_Conv]. rw /AggregateConversions_GetRate.
  cbn [GetRate Rates_Conv].
  rw !(Rates_GetRate_table _ _ _ _ _ _ Hf Ht Hne) Hcm Hsm.
  by destruct (table_rate (Some mc) uf ut), (table_rate (Some ms) uf ut).
Qed.

(** Reading codes as they are, enough for concrete runs. *)
Definition plain_iso (s : string) : string + error :=
  if (GoStr.len s =? 3)%nat then inl (GoStr.to_upper s) else inr (EPlain "currency: tag is not well-formed").

(** The theorem with a server table for EUR in USD and a custom one for GBP. *)
Lemma aggregate_rate_priority_witness :
  GetRate (AggregateConversions_Conv
             (Rates_Conv plain_iso (mkRates 0 (Some {["GBP" := {["USD" := F64.of_Z 2]}]})))
             (Rates_Conv plain_iso (mkRates 0 (Some {["USD" := {["GBP" := F64.of_Z 9]}]})))) "usd" "GBP"
  = inl (F64.of_ratio 1 2).
Proof.
  rw (aggregate_rate_priority plain_iso
        (mkRates 0 (Some {["GBP" := {["USD" := F64.of_Z 2]}]}))
        (mkRates 0 (Some {["USD" := {["GBP" := F64.of_Z 9]}]}))
        {["GBP" := {["USD" := F64.of_Z 2]}]} {["USD" := {["GBP" := F64.of_Z 9]}]}
        "usd" "GBP" "USD" "GBP");
    first [reflexivity | done].
Defined.

(** ** The rate converter *)

(** [time.Duration]: nanoseconds, and its seconds as a float. *)
Definition second : Z := 1000000000.
(** The zero [time.Time], in nanoseconds from 1970. *)
Definition zero_time : Z := (- 62135596800 * second)%Z.
Definition Duration_Seconds (d : Z) : float64 :=
  F64.add (F64.of_Z (Z.quot d second)) (F64.div (F64.of_Z (Z.rem d second)) (F64.of_Z second)).
(** [t.Sub(u)] saturates at the ends of int64. *)
Definition Time_Sub (t u : Z) : Z :=
  Z.max Int64.min_value (Z.min Int64.max_value (t - u)).

(** What the HTTP client answers: an error, or a status and a body that may
    fail to be read. *)
Record HttpResponse := mkHttpResponse { resp_Status : Z; resp_Body : RawMessage + error }.

Section RateConverter.
Context (ParseISO : string -> string + error).
Context (ParseDate : string -> option Z).

(** An inner map that is nil reads as an empty one. *)
Definition flatten_rates (c : option (gmap string (option (gmap string float64)))) : option RateMap :=
  match c with None => None | Some m => Some (fmap (M := gmap string) map_or_empty m) end.

Definition dec_rates_file : decoder (string * option RateMap) := dec_struct (fun kvs =>
  d ← dec_field dec_string ""%string "dataAsOf" kvs;
  c ← dec_field (dec_map (dec_map dec_float)) None "conversions" kvs;
  Some (d, flatten_rates c)).

(** [Rates.UnmarshalJSON].  The auxiliary struct is held by pointer, which a
    JSON null sets to nil, so null is a nil dereference ([None]). *)
Definition Rates_UnmarshalJSON (r : Rates) (b : RawMessage) : option (Rates + error) :=
  match b with
  | RawJson JNull => None
  | _ =>
      match unmarshal dec_rates_file b with
      | inr err => Some (inr err)
      | inl (dataAsOf, conversions) =>
          let asOf := match ParseDate dataAsOf with Some date => date | None => DataAsOf r end in
          Some (inl (mkRates asOf conversions))
      end
  end.

Record RateConverter := mkRateConverter {
  rc_staleRatesThreshold : Z;
  rc_rates : option (option Rates);
  rc_lastUpdated : option Z }.

Definition NewRateConverter (threshold : Z) : RateConverter := mkRateConverter threshold None None.

Definition fetch (http : HttpResponse + error) : option (Rates + error) :=
  match http with
  | inr err => Some (inr err)
  | inl response =>
      if (400 <=? resp_Status response)%Z then
        Some (inr (EBadServerResponse
          ("The currency rates request failed with status code " ⧺ GoStr.itoa (resp_Status response))))
      else match resp_Body response with
           | inr err => Some (inr err)
           | inl bytesJSON => Rates_UnmarshalJSON (mkRates zero_time None) bytesJSON
           end
  end.

Definition clearRates (rc : RateConverter) : RateConverter :=
  mkRateConverter (rc_staleRatesThreshold rc) (Some None) (rc_lastUpdated rc).

Definition checkStaleRates (rc : RateConverter) (now : Z) : bool :=
  if (rc_staleRatesThreshold rc <=? 0)%Z then false
  else match rc_lastUpdated rc with
       | Some lastUpdated =>
           F64.gtb (Duration_Seconds (Time_Sub now lastUpdated))
                   (Duration_Seconds (rc_staleRatesThreshold rc))
       | None => false
       end.

Definition update (rc : RateConverter) (now : Z) (http : HttpResponse + error) :
  option (RateConverter * option error) :=
  match fetch http with
  | None => None
  | Some (inl rates) =>
      Some (mkRateConverter (rc_staleRatesThreshold rc) (Some (Some rates)) (Some now), None)
  | Some (inr err) =>
      if checkStaleRates rc now then Some (clearRates rc, Some err) else Some (rc, Some err)
  end.

Definition LastUpdated (rc : RateConverter) : Z := default zero_time (rc_lastUpdated rc).

(** [RateConverter.Rates]: the table in use. *)
Definition RateConverter_Rates (rc : RateConverter) : Conversions :=
  match rc_rates rc with
  | Some (Some rates) => Rates_Conv ParseISO rates
  | _ => ConstantRates_Conv ParseISO
  end.

Definition GetInfo (rc : RateConverter) : Z * option (option RateMap) :=
  (LastUpdated rc, GetRates (RateConverter_Rates rc)).

(** A run of the periodic task: the answers it gets, with their times. *)
Fixpoint run_updates (rc : RateConverter) (evs : list (Z * (HttpResponse + error))) :
  option RateConverter :=
  match evs with
  | [] => Some rc
  | (now, http) :: rest =>
      match update rc now http with
      | None => None
      | Some (rc', _) => run_updates rc' rest
      end
  end.

(** ** What the converter promises

    The specification looks at the history only: the last table that was
    fetched, when it was fetched, and the failures since. *)
Fixpoint history (acc : option (Z * Rates * list Z)) (evs : list (Z * (HttpResponse + error))) :
  option (Z * Rates * list Z) :=
  match evs with
  | [] => acc
  | (now, http) :: rest =>
      history (match fetch http with
               | Some (inl r) => Some (now, r, [])
               | _ => (fun '(t, r, fails) => (t, r, fails ++ [now])) <$> acc
               end) rest
  end.

Definition stale (threshold fetched now : Z) : bool :=
  negb (threshold <=? 0)%Z &&
  F64.gtb (Duration_Seconds (Time_Sub now fetched)) (Duration_Seconds threshold).

(** The table the specification has in use. *)
Definition spec_table (threshold : Z) (h : option (Z * Rates * list Z)) : option Rates :=
  match h with
  | None => None
  | Some (t, r, fails) => if existsb (stale threshold t) fails then None else Some r
  end.

Definition rc_refines (threshold : Z) (rc : RateConverter) (h : option (Z * Rates * list Z)) : Prop :=
  rc_staleRatesThreshold rc = threshold /\
  rc_lastUpdated rc = (fun '(t, _, _) => t) <$> h /\
  default None (rc_rates rc) = spec_table threshold h.

Lemma checkStale_spec threshold rc t now :
  rc_staleRatesThreshold rc = threshold -> rc_lastUpdated rc = Some t ->
  checkStaleRates rc now = stale threshold t now.
Proof.
  intros <- Ht. rw /checkStaleRates /stale Ht. by destruct (_ <=? 0)%Z.
Qed.

Lemma update_refines threshold rc h now http rc' err :
  rc_refines threshold rc h -> update rc now http = Some (rc', err) ->
  rc_refines threshold rc' (history h [(now, http)]).
Proof.
  intros (Hth & Hlu & Hr). rw /update. cbn [history].
  destruct (fetch http) as [[r|e]|] eqn:Ef; [|..|done].
  - by intros [= <- _].
  - destruct h as [[[t r] fails]|]; simpl in *.
    + rw (checkStale_spec _ _ _ now Hth Hlu). rw /rc_refines /= existsb_app /= orb_false_r.
      destruct (stale threshold t now); intros [= <- _]; simpl;
        rw ?orb_true_r ?orb_false_r; by rw ?Hr.
    + rw /checkStaleRates Hlu. destruct (_ <=? 0)%Z; by intros [= <- _].
Qed.

Lemma run_refines threshold rc h evs rc' :
  rc_refines threshold rc h -> run_updates rc evs = Some rc' ->
  rc_refines threshold rc' (history h evs).
Proof.
  revert rc h. induction evs as [|[now http] evs IH]; intros rc h Href; simpl; [by intros [= <-]|].
  destruct (update rc now http) as [[rc1 e]|] eqn:Eu; [|done].
  apply IH. by apply (update_refines _ _ _ _ _ _ _ Href Eu).
Qed.
End RateConverter.

(** C39: after any sequence of refreshes the converter serves the rates of the
    last successful fetch, unless a later refresh failed when those rates were
    already older than the threshold; from then on, until the next success, it
    serves constant rates.  A threshold that is not positive keeps the rates
    for ever. *)
Theorem rate_converter_refines ParseISO ParseDate threshold evs rc
    (Hrun : run_updates ParseDate (NewRateConverter threshold) evs = Some rc) :
  RateConverter_Rates ParseISO rc =
    match spec_table threshold (history ParseDate None evs) with
    | Some r => Rates_Conv ParseISO r
    | None => ConstantRates_Conv ParseISO
    end.
Proof.
  assert (rc_refines threshold (NewRateConverter threshold) None) as H0 by done.
  destruct (run_refines ParseDate threshold _ None _ _ H0 Hrun) as (_ & _ & <-).
  rw /RateConverter_Rates. by destruct (rc_rates rc) as [[r|]|].
Qed.

Definition demo_rates_body : RawMessage :=
  RawJson (JObj [("dataAsOf"%string, JStr "2018-09-12");
                 ("conversions"%string, JObj [("USD"%string, JObj [("GBP"%string, JNum "0.5")])])]).

(** One success and two failures, the second one past a threshold of 60s. *)
Lemma rate_converter_refines_witness :
  let evs := [(0%Z, inl (mkHttpResponse 200 (inl demo_rates_body)));
              (30 * second, inr (EPlain "no route"));
              (61 * second, inl (mkHttpResponse 503 (inl RawNil)))]%Z in
  exists rc, run_updates (fun _ => None) (NewRateConverter (60 * second)) evs = Some rc /\
    RateConverter_Rates plain_iso rc = ConstantRates_Conv plain_iso.
Proof.
  intros evs.
  assert (is_Some (run_updates (fun _ => None) (NewRateConverter (60 * second)) evs)) as [rc Hrun]
    by (vm_compute; eauto).
  assert (spec_table (60 * second) (history (fun _ => None) None evs) = None) as Hs
    by (vm_compute; reflexivity).
  exists rc. split; [done|].
  by rw (rate_converter_refines plain_iso (fun _ => None) (60 * second) evs rc Hrun) Hs.
Defined.

(** A refresh panics exactly when the rates server answers with a status
    below 400 and the JSON body null; every other answer gives a table or an
    error. *)
Theorem update_panics_on_null ParseDate rc now http :
  update ParseDate rc now http = None <->
  exists status, (status < 400)%Z /\ http = inl (mkHttpResponse status (inl (RawJson JNull))).
Proof.
  rw /update /fetch. split.
  - destruct http as [[status [b|e]]|e]; simpl; [| |by destruct (checkStaleRates _ _)].
    + destruct (400 <=? status)%Z eqn:Es; [by destruct (checkStaleRates _ _)|].
      rw /Rates_UnmarshalJSON.
      destruct b as [| | |[]];
        repeat first [done | case_match; simplify_eq]; intros _; exists status;
        split; [lia|done].
    + destruct (400 <=? status)%Z; by destruct (checkStaleRates _ _).
  - intros (status & Hs & ->). simpl. by assert ((400 <=? status)%Z = false) as -> by lia.
Qed.
