(* ===== verification/Privacy.v ===== *)
(** * Privacy enforcement

    [privacy/scrubber.go] and [privacy/enforcement.go]: what is removed from a
    request for which a policy; [privacy/enforcer.go]; the Limit Ad Tracking
    policy with its iOS rules ([privacy/lmt], [util/iosutil],
    [openrtb_ext/device.go]).  [jsonparser.GetInt] is a parameter. *)

From S2P Require Import Prelude Float64 ErrorTypes Json OpenRTB.

Inductive ScrubStrategyIPV4 := ScrubStrategyIPV4None | ScrubStrategyIPV4Lowest8.
Inductive ScrubStrategyIPV6 :=
  ScrubStrategyIPV6None | ScrubStrategyIPV6Lowest16 | ScrubStrategyIPV6Lowest32.
Inductive ScrubStrategyGeo :=
  ScrubStrategyGeoNone | ScrubStrategyGeoFull | ScrubStrategyGeoReducedPrecision.
Inductive ScrubStrategyUser :=
  ScrubStrategyUserNone | ScrubStrategyUserIDAndDemographic | ScrubStrategyUserID.
Inductive ScrubStrategyDeviceID := ScrubStrategyDeviceIDNone | ScrubStrategyDeviceIDAll.

Definition dot : Ascii.ascii := ".".
Definition colon : Ascii.ascii := ":".

Definition scrubIPV4Lowest8 (ip : string) : string :=
  match GoStr.last_index dot ip with
  | None => ""
  | Some i => GoStr.take i ip ⧺ ".0"
  end.

Definition removeLowestIPV6Segment (ip : string) : string :=
  match GoStr.last_index colon ip with
  | None => ""
  | Some i => GoStr.take i ip
  end.

Definition scrubIPV6Lowest16Bits (ip : string) : string :=
  let ip := removeLowestIPV6Segment ip in
  if GoStr.is_empty ip then ip else ip ⧺ ":0".

Definition scrubIPV6Lowest32Bits (ip : string) : string :=
  let ip := removeLowestIPV6Segment (removeLowestIPV6Segment ip) in
  if GoStr.is_empty ip then ip else ip ⧺ ":0:0".

Definition scrubGeoFull (geo : option Geo) : option Geo :=
  match geo with None => None | Some _ => Some emptyGeo end.

Definition half : float64 := F64.of_ratio 1 2.
Definition hundred : float64 := F64.of_Z 100.
Definition round_coordinate (x : float64) : float64 :=
  F64.div (F64.of_Z (F64.to_int (F64.add (F64.mul x hundred) half))) hundred.

Definition scrubGeoPrecision (geo : option Geo) : option Geo :=
  match geo with
  | None => None
  | Some g => Some (geo_set_LatLon g (round_coordinate (geo_Lat g)) (round_coordinate (geo_Lon g)))
  end.

(** Marshalling a map of raw values that were decoded does not fail. *)
Definition scrubUserExtIDs (userExt : RawMessage) : RawMessage :=
  if raw_len0 userExt then userExt
  else match unmarshal (dec_map dec_any) userExt with
       | inr _ => userExt
       | inl userExtParsed =>
           let m := map_or_empty userExtParsed in
           if bool_decide (is_Some (m !! "eids"%string)) || bool_decide (is_Some (m !! "digitrust"%string))
           then RawJson (map_json (delete "digitrust"%string (delete "eids"%string m)))
           else userExt
       end.

Definition ScrubDevice (device : option Device) (id : ScrubStrategyDeviceID)
    (ipv4 : ScrubStrategyIPV4) (ipv6 : ScrubStrategyIPV6) (geo : ScrubStrategyGeo) : option Device :=
  match device with
  | None => None
  | Some device =>
      let deviceCopy := device in
      let deviceCopy := match id with
                        | ScrubStrategyDeviceIDAll => dev_clear_IDs deviceCopy
                        | ScrubStrategyDeviceIDNone => deviceCopy
                        end in
      let deviceCopy := match ipv4 with
                        | ScrubStrategyIPV4Lowest8 => dev_set_IP deviceCopy (scrubIPV4Lowest8 (dev_IP device))
                        | ScrubStrategyIPV4None => deviceCopy
                        end in
      let deviceCopy := match ipv6 with
                        | ScrubStrategyIPV6Lowest16 =>
                            dev_set_IPv6 deviceCopy (scrubIPV6Lowest16Bits (dev_IPv6 device))
                        | ScrubStrategyIPV6Lowest32 =>
                            dev_set_IPv6 deviceCopy (scrubIPV6Lowest32Bits (dev_IPv6 device))
                        | ScrubStrategyIPV6None => deviceCopy
                        end in
      let deviceCopy := match geo with
                        | ScrubStrategyGeoFull => dev_set_Geo deviceCopy (scrubGeoFull (dev_Geo device))
                        | ScrubStrategyGeoReducedPrecision =>
                            dev_set_Geo deviceCopy (scrubGeoPrecision (dev_Geo device))
                        | ScrubStrategyGeoNone => deviceCopy
                        end in
      Some deviceCopy
  end.

Definition usr_scrub_ids (u : User) : User :=
  let 'mkUser _ _ y g k c geo d ext := u in mkUser "" "" y g k c geo d (scrubUserExtIDs ext).
Definition usr_scrub_demographic (u : User) : User :=
  let 'mkUser i b _ _ k c geo d ext := u in mkUser i b 0 "" k c geo d ext.

Definition ScrubUser (user : option User) (strategy : ScrubStrategyUser) (geo : ScrubStrategyGeo) :
  option User :=
  match user with
  | None => None
  | Some user =>
      let userCopy := match strategy with
                      | ScrubStrategyUserIDAndDemographic => usr_scrub_demographic (usr_scrub_ids user)
                      | ScrubStrategyUserID => usr_scrub_ids user
                      | ScrubStrategyUserNone => user
                      end in
      let userCopy := match geo with
                      | ScrubStrategyGeoFull => usr_set_Geo userCopy (scrubGeoFull (usr_Geo user))
                      | ScrubStrategyGeoReducedPrecision =>
                          usr_set_Geo userCopy (scrubGeoPrecision (usr_Geo user))
                      | ScrubStrategyGeoNone => userCopy
                      end in
      Some userCopy
  end.

(** ** Enforcement *)
Record Enforcement := mkEnforcement {
  enf_CCPA : bool; enf_COPPA : bool; enf_GDPRGeo : bool; enf_GDPRID : bool; enf_LMT : bool }.

Definition Enforcement_Any (e : Enforcement) : bool :=
  enf_CCPA e || enf_COPPA e || enf_GDPRGeo e || enf_GDPRID e || enf_LMT e.

Definition getDeviceIDScrubStrategy (e : Enforcement) : ScrubStrategyDeviceID :=
  if enf_COPPA e || enf_GDPRID e || enf_CCPA e || enf_LMT e
  then ScrubStrategyDeviceIDAll else ScrubStrategyDeviceIDNone.
Definition getIPv4ScrubStrategy (e : Enforcement) : ScrubStrategyIPV4 :=
  if enf_COPPA e || enf_GDPRGeo e || enf_CCPA e || enf_LMT e
  then ScrubStrategyIPV4Lowest8 else ScrubStrategyIPV4None.
Definition getIPv6ScrubStrategy (e : Enforcement) : ScrubStrategyIPV6 :=
  if enf_COPPA e then ScrubStrategyIPV6Lowest32
  else if enf_GDPRGeo e || enf_CCPA e || enf_LMT e then ScrubStrategyIPV6Lowest16
  else ScrubStrategyIPV6None.
Definition getGeoScrubStrategy (e : Enforcement) : ScrubStrategyGeo :=
  if enf_COPPA e then ScrubStrategyGeoFull
  else if enf_GDPRGeo e || enf_CCPA e || enf_LMT e then ScrubStrategyGeoReducedPrecision
  else ScrubStrategyGeoNone.
Definition getUserScrubStrategy (e : Enforcement) : ScrubStrategyUser :=
  if enf_COPPA e then ScrubStrategyUserIDAndDemographic
  else if enf_CCPA e || enf_LMT e then ScrubStrategyUserID
  else if enf_GDPRID e then ScrubStrategyUserID
  else ScrubStrategyUserNone.

Definition Enforcement_Apply (e : Enforcement) (bidRequest : BidRequest) : BidRequest :=
  if Enforcement_Any e then
    let r := req_set_Device bidRequest
               (ScrubDevice (req_Device bidRequest) (getDeviceIDScrubStrategy e)
                  (getIPv4ScrubStrategy e) (getIPv6ScrubStrategy e) (getGeoScrubStrategy e)) in
    req_set_User r (ScrubUser (req_User r) (getUserScrubStrategy e) (getGeoScrubStrategy e))
  else bidRequest.

(** ** Policy enforcers *)
Record PolicyEnforcer := mkEnforcer { CanEnforce : bool; ShouldEnforce : string -> bool }.
Definition NilPolicyEnforcer : PolicyEnforcer := mkEnforcer false (fun _ => false).
Definition EnabledPolicyEnforcer (enabled : bool) (p : PolicyEnforcer) : PolicyEnforcer :=
  mkEnforcer (CanEnforce p) (fun bidder => if enabled then ShouldEnforce p bidder else false).

(** ** Limit Ad Tracking *)
Module Lmt.
Record Policy := mkPolicy { Signal : Z; SignalProvided : bool }.
Definition trackingRestricted : Z := 1.

Definition ReadFromRequest (req : BidRequest) : Policy :=
  match req_Device req with
  | Some d => match dev_Lmt d with
              | Some lmt => mkPolicy lmt true
              | None => mkPolicy 0 false
              end
  | None => mkPolicy 0 false
  end.
Definition enforcer (p : Policy) : PolicyEnforcer :=
  mkEnforcer (SignalProvided p) (fun _ => SignalProvided p && (Signal p =? trackingRestricted)%Z).
End Lmt.

(** ** iOS versions *)
Record IosVersion := mkVersion { v_Major : Z; v_Minor : Z }.
Definition ParseVersion (v : string) : IosVersion + error :=
  match GoStr.split dot v with
  | [p0; p1] =>
      match GoStr.atoi p0 with
      | None => inr (EPlain "major version is not an integer")
      | Some major =>
          match GoStr.atoi p1 with
          | None => inr (EPlain "minor version is not an integer")
          | Some minor => inl (mkVersion major minor)
          end
      end
  | _ => inr (EPlain "expected major.minor format")
  end.
Definition EqualOrGreater (v : IosVersion) (major minor : Z) : bool :=
  if (v_Major v =? major)%Z then (minor <=? v_Minor v)%Z else (major <? v_Major v)%Z.

Inductive VersionClassification := VersionUnknown | Version140 | Version141 | Version142OrGreater.
Definition DetectVersionClassification (v : string) : VersionClassification :=
  if GoStr.eqb v "14.0" then Version140
  else if GoStr.eqb v "14.1" then Version141
  else match ParseVersion v with
       | inl iosVersion => if EqualOrGreater iosVersion 14 2 then Version142OrGreater else VersionUnknown
       | inr _ => VersionUnknown
       end.

Definition IsKnownIOSAppTrackingStatus (v : Z) : bool :=
  (v =? 0)%Z || (v =? 1)%Z || (v =? 2)%Z || (v =? 3)%Z.

Section Ios.
(** [jsonparser.GetInt]: [None] is the key-not-found error. *)
Context (GetInt : RawMessage -> string -> option (Z + error)).

Definition ParseDeviceExtATTS (deviceExt : RawMessage) : option Z + error :=
  match GetInt deviceExt "atts" with
  | None => inl None
  | Some (inr err) => inr err
  | Some (inl v) =>
      if IsKnownIOSAppTrackingStatus v then inl (Some v) else inr (EPlain "invalid status")
  end.

Definition modifyForIOS14X (d : Device) : Device :=
  if GoStr.is_empty (dev_IFA d) || GoStr.eqb (dev_IFA d) "00000000-0000-0000-0000-000000000000"
  then dev_set_Lmt d (Some 1%Z) else dev_set_Lmt d (Some 0%Z).

Definition modifyForIOS142OrGreater (d : Device) : Device :=
  match ParseDeviceExtATTS (dev_Ext d) with
  | inr _ | inl None => d
  | inl (Some atts) =>
      if (atts =? 0)%Z then dev_set_Lmt d (Some 0%Z)
      else if (atts =? 1)%Z then dev_set_Lmt d (Some 1%Z)
      else if (atts =? 2)%Z then dev_set_Lmt d (Some 1%Z)
      else if (atts =? 3)%Z then dev_set_Lmt d (Some 0%Z)
      else d
  end.

Definition isRequestForIOS (req : BidRequest) : bool :=
  match req_App req, req_Device req with
  | Some _, Some d => GoStr.equal_fold (dev_OS d) "ios"
  | _, _ => false
  end.

Definition ModifyForIOS (req : BidRequest) : BidRequest :=
  if negb (isRequestForIOS req) then req
  else match req_Device req with
       | None => req
       | Some d =>
           match DetectVersionClassification (dev_OSV d) with
           | Version140 | Version141 => req_set_Device req (Some (modifyForIOS14X d))
           | Version142OrGreater => req_set_Device req (Some (modifyForIOS142OrGreater d))
           | VersionUnknown => req
           end
       end.
End Ios.

(** ** Facts *)
Section Addresses.
Lemma scrub4_last p a : GoStr.contains_byte dot a = false ->
  scrubIPV4Lowest8 (p ⧺ String dot a) = p ⧺ ".0".
Proof. intros Ha. by rw /scrubIPV4Lowest8 last_index_app // take_app_exact. Qed.

Lemma remove_segment p a : GoStr.contains_byte colon a = false ->
  removeLowestIPV6Segment (p ⧺ String colon a) = p.
Proof. intros Ha. by rw /removeLowestIPV6Segment last_index_app // take_app_exact. Qed.

Lemma no_separator c ip : GoStr.contains_byte c ip = false -> GoStr.last_index c ip = None.
Proof. by rw last_index_None. Qed.
End Addresses.

(** Scrubbing an IP address hides its low bits: the result does not depend
    on the last segment of an IPv4 address, nor on the last segment (two under
    COPPA) of an IPv6 address, and text that is not such an address is removed
    altogether. *)
Theorem scrub_ip_noninterference p a b c d
    (Ha : GoStr.contains_byte dot a = false) (Hb : GoStr.contains_byte dot b = false)
    (Hac : GoStr.contains_byte colon a = false) (Hbc : GoStr.contains_byte colon b = false)
    (Hcc : GoStr.contains_byte colon c = false) (Hdc : GoStr.contains_byte colon d = false) :
  scrubIPV4Lowest8 (p ⧺ String dot a) = scrubIPV4Lowest8 (p ⧺ String dot b) /\
  scrubIPV6Lowest16Bits (p ⧺ String colon a) = scrubIPV6Lowest16Bits (p ⧺ String colon b) /\
  scrubIPV6Lowest32Bits (p ⧺ String colon (c ⧺ String colon a)) =
    scrubIPV6Lowest32Bits (p ⧺ String colon (d ⧺ String colon b)) /\
  scrubIPV4Lowest8 a = ""%string /\ scrubIPV6Lowest16Bits a = ""%string /\
  scrubIPV6Lowest32Bits a = ""%string.
Proof.
  assert (forall x y, p ⧺ String colon (x ⧺ String colon y) = (p ⧺ String colon x) ⧺ String colon y) as Hre.
  { intros x y. by rw str_app_assoc. }
  rw !scrub4_last // /scrubIPV6Lowest16Bits /scrubIPV6Lowest32Bits !Hre !remove_segment //.
  rw /scrubIPV4Lowest8 /removeLowestIPV6Segment !no_separator //.
Qed.

(** The theorem at 203.0.113.77, read with both separators. *)
Lemma scrub_ip_noninterference_witness :
  scrubIPV4Lowest8 "203.0.113.77" = scrubIPV4Lowest8 "203.0.113.5" /\
  scrubIPV4Lowest8 "203.0.113.5" = "203.0.113.0"%string.
Proof.
  destruct (scrub_ip_noninterference "203.0.113" "77" "5" "" "") as [H _]; [reflexivity..|].
  split; [exact H|reflexivity].
Defined.

Definition dev_ids (d : Device) : list string :=
  [dev_DIDMD5 d; dev_DIDSHA1 d; dev_DPIDMD5 d; dev_DPIDSHA1 d; dev_IFA d; dev_MACMD5 d; dev_MACSHA1 d].

(** *** What protection is *)
(** An IPv4 address without its last part; a text without a dot goes. *)
Inductive ipv4_reduced : string -> string -> Prop :=
  | V4Cut p a : GoStr.contains_byte "." a = false -> ipv4_reduced (p ⧺ "." ⧺ a) (p ⧺ ".0")
  | V4Gone ip : GoStr.contains_byte "." ip = false -> ipv4_reduced ip "".
(** An IPv6 address without its last part, or its last two; what has nothing
    before these goes. *)
Inductive ipv6_reduced : string -> string -> Prop :=
  | V6Cut p a : GoStr.contains_byte ":" a = false -> p <> ""%string -> ipv6_reduced (p ⧺ ":" ⧺ a) (p ⧺ ":0")
  | V6Bare a : GoStr.contains_byte ":" a = false -> ipv6_reduced (":" ⧺ a) ""
  | V6Gone ip : GoStr.contains_byte ":" ip = false -> ipv6_reduced ip "".
Inductive ipv6_cut : string -> string -> Prop :=
  | V6Cut2 p c a : GoStr.contains_byte ":" c = false -> GoStr.contains_byte ":" a = false -> p <> ""%string ->
      ipv6_cut (p ⧺ ":" ⧺ c ⧺ ":" ⧺ a) (p ⧺ ":0:0")
  | V6Bare2 c a : GoStr.contains_byte ":" c = false -> GoStr.contains_byte ":" a = false -> ipv6_cut (":" ⧺ c ⧺ ":" ⧺ a) ""
  | V6Short c a : GoStr.contains_byte ":" c = false -> GoStr.contains_byte ":" a = false -> ipv6_cut (c ⧺ ":" ⧺ a) ""
  | V6Gone2 ip : GoStr.contains_byte ":" ip = false -> ipv6_cut ip "".
(** A coordinate in hundredths: a half is added, and the fraction dropped. *)
Definition hundredths (x : float64) : float64 :=
  F64.div (F64.of_Z (F64.to_int (F64.add (F64.mul x (F64.of_Z 100)) (F64.of_ratio 1 2)))) (F64.of_Z 100).
Definition geo_reduced (g : Geo) : Geo :=
  mkGeo (hundredths (geo_Lat g)) (hundredths (geo_Lon g)) (geo_Type g) (geo_Accuracy g) (geo_LastFix g) (geo_IPService g)
    (geo_Country g) (geo_Region g) (geo_RegionFIPS104 g) (geo_Metro g) (geo_City g) (geo_ZIP g) (geo_UTCOffset g) (geo_Ext g).

Section Protection.
Context (e : Enforcement).
(** What is hidden: the ids, the place, and for children all of it. *)
Definition hides_ids : bool := enf_COPPA e || enf_GDPRID e || enf_CCPA e || enf_LMT e.
Definition hides_place : bool := enf_COPPA e || enf_GDPRGeo e || enf_CCPA e || enf_LMT e.
Definition unless_ids (text : string) : string := if hides_ids then "" else text.
Definition protected_geo (geo : option Geo) : option Geo :=
  (fun g => if enf_COPPA e then mkGeo F64.zero F64.zero 0 0 0 0 "" "" "" "" "" "" 0 RawNil
            else if hides_place then geo_reduced g else g) <$> geo.
Definition device_protected (d d' : Device) : Prop :=
  exists ip ip6,
    (if hides_place then ipv4_reduced (dev_IP d) ip else ip = dev_IP d) /\
    (if enf_COPPA e then ipv6_cut (dev_IPv6 d) ip6 else if hides_place then ipv6_reduced (dev_IPv6 d) ip6 else ip6 = dev_IPv6 d) /\
    d' = mkDevice (dev_UA d) (protected_geo (dev_Geo d)) (dev_DNT d) (dev_Lmt d) ip ip6 (dev_DeviceType d) (dev_Make d)
           (dev_Model d) (dev_OS d) (dev_OSV d) (dev_HWV d) (dev_H d) (dev_W d) (dev_PPI d) (dev_PxRatio d) (dev_JS d)
           (dev_GeoFetch d) (dev_FlashVer d) (dev_Language d) (dev_Carrier d) (dev_MCCMNC d) (dev_ConnectionType d)
           (unless_ids (dev_IFA d)) (unless_ids (dev_DIDSHA1 d)) (unless_ids (dev_DIDMD5 d)) (unless_ids (dev_DPIDSHA1 d))
           (unless_ids (dev_DPIDMD5 d)) (unless_ids (dev_MACSHA1 d)) (unless_ids (dev_MACMD5 d)) (dev_Ext d).
(** The extension loses two members; one that is no object, or has neither, is
    left as it is. *)
Definition ext_protected (ext ext' : RawMessage) : Prop :=
  match unmarshal (dec_map dec_any) ext with
  | inl m =>
      let m := map_or_empty m in
      if bool_decide (is_Some (m !! "eids"%string) \/ is_Some (m !! "digitrust"%string)) then
        exists m', unmarshal (dec_map dec_any) ext' = inl (Some m') /\
          forall k, m' !! k = if bool_decide (k = "eids" \/ k = "digitrust")%string then None else m !! k
      else ext' = ext
  | inr _ => ext' = ext
  end.
Definition user_protected (u u' : User) : Prop :=
  exists ext, (if hides_ids then ext_protected (usr_Ext u) ext else ext = usr_Ext u) /\
    u' = mkUser (unless_ids (usr_ID u)) (unless_ids (usr_BuyerUID u)) (if enf_COPPA e then 0%Z else usr_Yob u)
           (if enf_COPPA e then ""%string else usr_Gender u) (usr_Keywords u) (usr_CustomData u) (protected_geo (usr_Geo u))
           (usr_Data u) ext.
End Protection.

Lemma scrub_ipv4 ip : ipv4_reduced ip (scrubIPV4Lowest8 ip).
Proof.
  unfold scrubIPV4Lowest8. destruct (GoStr.last_index dot ip) as [i|] eqn:E; [|by constructor; apply last_index_None].
  apply last_index_Some in E as (a & Hip & Ha). rw {1}Hip. by apply V4Cut.
Qed.
Lemma remove_cases ip : (removeLowestIPV6Segment ip = ""%string /\ GoStr.contains_byte ":" ip = false) \/
  exists p a, GoStr.contains_byte ":" a = false /\ ip = p ⧺ ":" ⧺ a /\ removeLowestIPV6Segment ip = p.
Proof.
  unfold removeLowestIPV6Segment. destruct (GoStr.last_index colon ip) as [i|] eqn:E; [|by left; split; [|apply last_index_None]].
  apply last_index_Some in E as (a & Hip & Ha). right. by exists (GoStr.take i ip), a.
Qed.
Lemma scrub_ipv6 ip : ipv6_reduced ip (scrubIPV6Lowest16Bits ip).
Proof.
  unfold scrubIPV6Lowest16Bits. destruct (remove_cases ip) as [[-> H]|(p & a & Ha & Hip & ->)]; [by constructor|].
  subst ip. destruct p as [|c p]; [by apply V6Bare|by apply (V6Cut (String c p))].
Qed.
Lemma scrub_ipv6_cut ip : ipv6_cut ip (scrubIPV6Lowest32Bits ip).
Proof.
  unfold scrubIPV6Lowest32Bits. destruct (remove_cases ip) as [[-> H]|(q & a & Ha & Hip & ->)]; [by apply V6Gone2|].
  subst ip. destruct (remove_cases q) as [[-> H]|(p & c & Hc & Hq & ->)]; [by apply V6Short|]. subst q.
  rw !str_app_assoc. destruct p as [|x p]; [by apply V6Bare2|by apply (V6Cut2 (String x p))].
Qed.
Lemma scrub_ext ext : ext_protected ext (scrubUserExtIDs ext).
Proof.
  unfold ext_protected, scrubUserExtIDs. destruct (raw_len0 ext) eqn:E0; [by destruct ext|].
  destruct (unmarshal (dec_map dec_any) ext) as [m|err]; [|done]. cbv zeta. set (mm := map_or_empty m).
  assert (bool_decide (is_Some (mm !! "eids"%string)) || bool_decide (is_Some (mm !! "digitrust"%string)) =
          bool_decide (is_Some (mm !! "eids"%string) \/ is_Some (mm !! "digitrust"%string))) as ->
    by (do 3 case_bool_decide; naive_solver).
  case_bool_decide; [|done]. eexists. split; [by rw /unmarshal map_json_roundtrip|]. intros k. rw !lookup_delete.
  do 3 case_decide; case_bool_decide; naive_solver.
Qed.
Lemma scrub_geo e geo :
  match getGeoScrubStrategy e with
  | ScrubStrategyGeoFull => scrubGeoFull geo
  | ScrubStrategyGeoReducedPrecision => scrubGeoPrecision geo
  | ScrubStrategyGeoNone => geo
  end = protected_geo e geo.
Proof.
  unfold getGeoScrubStrategy, protected_geo, hides_place. destruct (enf_COPPA e); [by destruct geo|]. cbn [orb].
  destruct (enf_GDPRGeo e || enf_CCPA e || enf_LMT e); [by destruct geo as [ [] |]|by destruct geo].
Qed.

Lemma scrub_device_protected e d :
  exists d', ScrubDevice (Some d) (getDeviceIDScrubStrategy e) (getIPv4ScrubStrategy e)
               (getIPv6ScrubStrategy e) (getGeoScrubStrategy e) = Some d' /\ device_protected e d d'.
Proof.
  eexists. split; [reflexivity|]. unfold device_protected. rw -scrub_geo.
  exists (if hides_place e then scrubIPV4Lowest8 (dev_IP d) else dev_IP d),
    (if enf_COPPA e then scrubIPV6Lowest32Bits (dev_IPv6 d) else if hides_place e then scrubIPV6Lowest16Bits (dev_IPv6 d) else dev_IPv6 d).
  split; [destruct (hides_place e); [apply scrub_ipv4|done]|].
  split; [destruct (enf_COPPA e); [apply scrub_ipv6_cut|]; destruct (hides_place e); [apply scrub_ipv6|done]|].
  rw /getDeviceIDScrubStrategy /getIPv4ScrubStrategy /getIPv6ScrubStrategy /getGeoScrubStrategy /unless_ids /hides_ids /hides_place.
  by destruct d, e as [[] [] [] [] []].
Qed.
Lemma scrub_user_protected e u :
  exists u', ScrubUser (Some u) (getUserScrubStrategy e) (getGeoScrubStrategy e) = Some u' /\ user_protected e u u'.
Proof.
  eexists. split; [reflexivity|]. unfold user_protected. rw -scrub_geo.
  exists (if hides_ids e then scrubUserExtIDs (usr_Ext u) else usr_Ext u).
  split; [destruct (hides_ids e); [apply scrub_ext|done]|].
  rw /getUserScrubStrategy /getGeoScrubStrategy /unless_ids /hides_ids. by destruct u, e as [[] [] [] [] []].
Qed.
Lemma device_protected_ids e d d' : device_protected e d d' -> hides_ids e = true -> Forall (fun s => s = ""%string) (dev_ids d').
Proof. intros (ip & ip6 & _ & _ & ->) He. unfold dev_ids, unless_ids. cbn. rw He. by repeat constructor. Qed.

(** With no policy the strategies are all the identity. *)
Lemma apply_unconditional e req :
  Enforcement_Apply e req =
    let r := req_set_Device req
               (ScrubDevice (req_Device req) (getDeviceIDScrubStrategy e)
                  (getIPv4ScrubStrategy e) (getIPv6ScrubStrategy e) (getGeoScrubStrategy e)) in
    req_set_User r (ScrubUser (req_User r) (getUserScrubStrategy e) (getGeoScrubStrategy e)).
Proof.
  rw /Enforcement_Apply. destruct (Enforcement_Any e) eqn:E; [done|].
  destruct e as [[] [] [] [] []]; try done.
  by destruct req as [? ? ? ? [] [] ? ? ? ? ? ? ?].
Qed.

(** C24: enforcing a policy on a request gives exactly the protection the
    policy calls for: device identifiers, user ids and the eids and digitrust
    members of user.ext go for COPPA, GDPR-id, CCPA and LMT; IP addresses lose
    their last part and coordinates all but hundredths for COPPA, GDPR-geo, CCPA
    and LMT, and COPPA takes two parts of an IPv6 address; COPPA also empties
    the geo objects and the demographics; nothing else of the request changes,
    and with no policy the request is untouched. *)
Theorem enforcement_protects e req :
  exists dev usr,
    Enforcement_Apply e req =
      mkBidRequest (req_ID req) (req_Imp req) (req_Site req) (req_App req) dev usr (req_Test req) (req_AT req) (req_TMax req)
        (req_Cur req) (req_BCat req) (req_BAdv req) (req_Source req) (req_Regs req) (req_Ext req) /\
    match req_Device req, dev with
    | None, None => True
    | Some d, Some d' => device_protected e d d'
    | _, _ => False
    end /\
    match req_User req, usr with
    | None, None => True
    | Some u, Some u' => user_protected e u u'
    | _, _ => False
    end /\
    (e = mkEnforcement false false false false false -> Enforcement_Apply e req = req).
Proof.
  rw apply_unconditional. destruct req as [? ? ? ? dev usr ? ? ? ? ? ? ? ? ?]. eexists _, _. split; [reflexivity|].
  cbn [req_Device req_User req_set_Device]. split; [|split].
  - destruct dev as [d|]; [|done]. by destruct (scrub_device_protected e d) as (d' & -> & H).
  - destruct usr as [u|]; [|done]. by destruct (scrub_user_protected e u) as (u' & -> & H).
  - intros ->. by destruct dev, usr.
Qed.

(** The coordinate rounding of the reduced-precision strategy adds one half
    and truncates toward zero, which rounds to the nearest hundredth only for
    positive coordinates. *)
(** Coordinates west of Greenwich or south of the equator are not rounded
    to the nearest hundredth: 33.8688 becomes 33.87 but -33.8688 becomes
    -33.86, and rounding that again moves it to -33.85. *)
Theorem scrub_geo_negative_rounding :
  round_coordinate (F64.of_ratio 338688 10000) = F64.of_ratio 3387 100 /\
  round_coordinate (F64.of_ratio (-338688) 10000) = F64.of_ratio (-3386) 100 /\
  round_coordinate (round_coordinate (F64.of_ratio (-338688) 10000)) = F64.of_ratio (-3385) 100.
Proof. by vm_compute. Qed.

(** On an iOS app request the tracking status decides the policy from
    version 14.2 on: a restricted or denied status makes the LMT policy apply,
    an undetermined or authorised one lifts it, and a missing or malformed one
    leaves the flag of the request.  On 14.0 and 14.1 it is a missing or
    all-zero advertising id that makes it apply. *)
Theorem ios_tracking_policy GetInt req d bidder
    (Hdev : req_Device req = Some d) (Hios : isRequestForIOS req = true) :
  let should r := ShouldEnforce (Lmt.enforcer (Lmt.ReadFromRequest r)) bidder in
  let r := ModifyForIOS GetInt req in
  match DetectVersionClassification (dev_OSV d) with
  | VersionUnknown => r = req
  | Version140 | Version141 =>
      should r = bool_decide (dev_IFA d = ""%string \/
                              dev_IFA d = "00000000-0000-0000-0000-000000000000"%string)
  | Version142OrGreater =>
      match GetInt (dev_Ext d) "atts"%string with
      | Some (inl 1%Z) | Some (inl 2%Z) => should r = true
      | Some (inl 0%Z) | Some (inl 3%Z) => should r = false
      | _ => should r = should req
      end
  end.
Proof.
  intros should r. rw /r /ModifyForIOS Hios Hdev. cbn [negb].
  assert (forall z, should (req_set_Device req (Some (dev_set_Lmt d (Some z)))) = (z =? 1)%Z) as Hset
    by (intros z; by destruct req, d).
  assert (should (req_set_Device req (Some d)) = should req) as Hsame
    by (destruct req; simpl in Hdev; by subst).
  assert (should (req_set_Device req (Some (modifyForIOS14X d))) =
    bool_decide (dev_IFA d = ""%string \/ dev_IFA d = "00000000-0000-0000-0000-000000000000"%string)) as H14.
  { rw /modifyForIOS14X. destruct (dev_IFA d) as [|c s] eqn:E; cbn [GoStr.is_empty orb].
    - by rw Hset.
    - destruct (eqb_spec (String c s) "00000000-0000-0000-0000-000000000000") as [->|Hne];
        rw Hset; symmetry; [by apply bool_decide_eq_true_2; right|].
      apply bool_decide_eq_false_2. by intros [|]. }
  destruct (DetectVersionClassification (dev_OSV d)); try done.
  rw /modifyForIOS142OrGreater /ParseDeviceExtATTS.
  destruct (GetInt (dev_Ext d) "atts"%string) as [[z|]|]; [|done|done].
  rw /IsKnownIOSAppTrackingStatus.
  destruct z as [|[[p|p|]|[p|p|]|]|p]; cbn; try done; apply Hset.
Qed.

Definition demo_ios_request : BidRequest :=
  req_set_Device (mkBidRequest "r" [] None (Some (mkApp "a" "" None None RawNil)) None None 0 0 0 [] [] [] None None RawNil)
    (Some (mkDevice "" None None None "" "" 0 "" "" "iOS" "14.5" "" 0 0 0 F64.zero 0 0 "" "" "" "" None
             "" "" "" "" "" "" "" (RawJson (JObj [("atts"%string, JNum "2")])))).

(** The theorem on iOS 14.5 with the tracking status denied. *)
Lemma ios_tracking_policy_witness :
  ShouldEnforce (Lmt.enforcer (Lmt.ReadFromRequest
    (ModifyForIOS (fun _ _ => Some (inl 2%Z)) demo_ios_request))) "appnexus" = true.
Proof.
  refine (ios_tracking_policy (fun _ _ => Some (inl 2%Z)) demo_ios_request _ "appnexus" eq_refl _).
  vm_compute. reflexivity.
Defined.
