(* ===== verification/Ccpa.v ===== *)
(** * CCPA

    [privacy/ccpa/parsedpolicy.go] and the reading half of
    [privacy/ccpa/policy.go]: the US privacy string, the no-sale list, and the
    decision whether the policy applies to a bidder. *)

From S2P Require Import Prelude Float64 ErrorTypes Json OpenRTB ExtRequest Privacy.

Record CcpaPolicy := mkCcpaPolicy { Consent : string; NoSaleBidders : list string }.

Definition err_msg (e : error) : string := error_string e.

Definition Ccpa_ReadFromRequest (req : BidRequest) : CcpaPolicy + error :=
  let consent :=
    match req_Regs req with
    | Some regs =>
        if raw_len0 (regs_Ext regs) then inl ""%string
        else match unmarshal dec_ext_regs (regs_Ext regs) with
             | inr err => inr (EPlain ("error reading request.regs.ext: " ⧺ err_msg err))
             | inl ext => inl (er_USPrivacy ext)
             end
    | None => inl ""%string
    end in
  match consent with
  | inr err => inr err
  | inl consent =>
      if raw_len0 (req_Ext req) then inl (mkCcpaPolicy consent [])
      else match unmarshal dec_ext_request (req_Ext req) with
           | inr err => inr (EPlain ("error reading request.ext.prebid: " ⧺ err_msg err))
           | inl ext => inl (mkCcpaPolicy consent (pre_NoSale ext))
           end
  end.

Definition allBiddersMarker : string := "*".
Definition ccpaYes : Ascii.ascii := "Y".
Definition ccpaNo : Ascii.ascii := "N".
Definition ccpaNotApplicable : Ascii.ascii := "-".

Definition bad_flag (c : Ascii.ascii) : bool :=
  negb (Ascii.eqb c ccpaNo) && negb (Ascii.eqb c ccpaYes) && negb (Ascii.eqb c ccpaNotApplicable).

Definition parseConsent (consent : string) : bool + error :=
  match consent with
  | EmptyString => inl false
  | String version (String notice (String optout (String lspa EmptyString))) =>
      if negb (Ascii.eqb version "1") then inr (EPlain "must specify version 1")
      else if bad_flag notice then
        inr (EPlain "must specify 'N', 'Y', or '-' for the explicit notice")
      else if bad_flag optout then
        inr (EPlain "must specify 'N', 'Y', or '-' for the opt-out sale")
      else if bad_flag lspa then
        inr (EPlain "must specify 'N', 'Y', or '-' for the limited service provider agreement")
      else inl (Ascii.eqb optout ccpaYes)
  | _ => inr (EPlain "must contain 4 characters")
  end.

Definition Ccpa_ValidateConsent (consent : string) : bool :=
  match parseConsent consent with inl _ => true | inr _ => false end.

(** The loop over the named bidders. *)
Fixpoint parse_no_sale_loop (bidders : list string) (validBidders acc : gset string) :
  gset string + error :=
  match bidders with
  | [] => inl acc
  | bidder :: rest =>
      if GoStr.eqb bidder allBiddersMarker then
        inr (EPlain "can only specify all bidders if no other bidders are provided")
      else if bool_decide (bidder ∈ validBidders) then
        parse_no_sale_loop rest validBidders ({[bidder]} ∪ acc)
      else inr (EPlain ("unrecognized bidder '" ⧺ bidder ⧺ "'"))
  end.
Definition parseNoSaleBidders (noSaleBidders : list string) (validBidders : gset string) :
  (bool * gset string) + error :=
  match noSaleBidders with
  | [b] =>
      if GoStr.eqb b allBiddersMarker then inl (true, ∅)
      else match parse_no_sale_loop noSaleBidders validBidders ∅ with
           | inl s => inl (false, s)
           | inr err => inr err
           end
  | _ => match parse_no_sale_loop noSaleBidders validBidders ∅ with
         | inl s => inl (false, s)
         | inr err => inr err
         end
  end.

Record ParsedPolicy := mkParsedPolicy {
  consentSpecified : bool; consentOptOutSale : bool; noSaleForAllBidders : bool;
  noSaleSpecificBidders : gset string }.

Definition Ccpa_Parse (p : CcpaPolicy) (validBidders : gset string) : ParsedPolicy + error :=
  match parseConsent (Consent p) with
  | inr err =>
      inr (EWarning ("request.regs.ext.us_privacy " ⧺ err_msg err) Code.InvalidPrivacyConsentWarningCode)
  | inl consentOptOut =>
      match parseNoSaleBidders (NoSaleBidders p) validBidders with
      | inr err => inr (EPlain ("request.ext.prebid.nosale is invalid: " ⧺ err_msg err))
      | inl (all, specific) =>
          inl (mkParsedPolicy (negb (GoStr.is_empty (Consent p))) consentOptOut all specific)
      end
  end.

Definition isNoSaleForBidder (p : ParsedPolicy) (bidder : string) : bool :=
  if noSaleForAllBidders p then true else bool_decide (bidder ∈ noSaleSpecificBidders p).
Definition ccpa_enforcer (p : ParsedPolicy) : PolicyEnforcer :=
  mkEnforcer (consentSpecified p) (fun bidder => negb (isNoSaleForBidder p bidder) && consentOptOutSale p).

(** ** The specification *)

(** The well-formed US privacy strings: version 1 and three flags. *)
Definition flag_chars : list Ascii.ascii := [ccpaNo; ccpaYes; ccpaNotApplicable].
Definition us_privacy (notice optout lspa : Ascii.ascii) : string :=
  String "1" (String notice (String optout (String lspa EmptyString))).

Lemma bad_flag_spec c : bad_flag c = false <-> c ∈ flag_chars.
Proof.
  rw /bad_flag /flag_chars !elem_of_cons elem_of_nil.
  destruct (Ascii.eqb_spec c ccpaNo), (Ascii.eqb_spec c ccpaYes),
    (Ascii.eqb_spec c ccpaNotApplicable); simpl; split; try done; tauto.
Qed.

Lemma parseConsent_ok s b :
  parseConsent s = inl b <->
  (s = ""%string /\ b = false) \/
  exists n o l, s = us_privacy n o l /\ n ∈ flag_chars /\ o ∈ flag_chars /\ l ∈ flag_chars /\
    b = Ascii.eqb o ccpaYes.
Proof.
  rw /us_privacy. split.
  - destruct s as [|v [|n [|o [|l []]]]]; cbn; try done; [intros [= <-]; by left|].
    destruct (Ascii.eqb_spec v "1") as [->|]; [|done]. cbn [negb].
    destruct (bad_flag n) eqn:En; [done|]. destruct (bad_flag o) eqn:Eo; [done|].
    destruct (bad_flag l) eqn:El; [done|]. intros [= <-]. right.
    exists n, o, l. by rw -!bad_flag_spec.
  - intros [[-> ->]|(n & o & l & -> & Hn & Ho & Hl & ->)]; [done|].
    apply bad_flag_spec in Hn, Ho, Hl. by rw /= Hn Ho Hl.
Qed.

Lemma no_sale_loop_ok bs valid acc r :
  parse_no_sale_loop bs valid acc = inl r ->
  r = list_to_set bs ∪ acc /\ Forall (fun b => b <> allBiddersMarker /\ b ∈ valid) bs.
Proof.
  revert acc. induction bs as [|b bs IH]; intros acc; simpl.
  - intros [= <-]. split; [set_solver|constructor].
  - destruct (eqb_spec b allBiddersMarker) as [|Hne]; [done|].
    case_bool_decide as Hv; [|done]. intros [-> Hall]%IH. split; [set_solver|by constructor].
Qed.

(** C25: once a CCPA policy has been accepted it applies to a bidder exactly
    when the privacy string opts out of sale and the no-sale list, which names
    known bidders only or is the single marker for all, does not exempt that
    bidder. *)
Theorem ccpa_decision p valid pp bidder
    (Hparse : Ccpa_Parse p valid = inl pp) :
  (CanEnforce (ccpa_enforcer pp) = true <-> Consent p <> ""%string) /\
  (ShouldEnforce (ccpa_enforcer pp) bidder = true <->
   (exists n l, Consent p = us_privacy n ccpaYes l) /\
   NoSaleBidders p <> [allBiddersMarker] /\ bidder ∉ NoSaleBidders p) /\
  (NoSaleBidders p = [allBiddersMarker] \/ Forall (fun b => b ∈ valid) (NoSaleBidders p)).
Proof.
  rw /Ccpa_Parse in Hparse. destruct (parseConsent (Consent p)) as [optout|] eqn:Ec; [|done].
  destruct (parseNoSaleBidders (NoSaleBidders p) valid) as [[all spec]|] eqn:En; [|done].
  injection Hparse as <-. simpl. split.
  { rw negb_true_iff. apply is_empty_false. }
  assert (optout = true <-> exists n l, Consent p = us_privacy n ccpaYes l) as Hopt.
  { apply parseConsent_ok in Ec as [[Hc ->]|(n & o & l & Hc & _ & _ & _ & ->)].
    - rw Hc. split; [done|]. by intros (? & ? & ?).
    - rw Hc. destruct (Ascii.eqb_spec o ccpaYes) as [->|Hne]; split; eauto; [done|].
      rw /us_privacy. by intros (? & ? & [= ]). }
  assert ((all = true /\ NoSaleBidders p = [allBiddersMarker]) \/
          (all = false /\ NoSaleBidders p <> [allBiddersMarker] /\ spec = list_to_set (NoSaleBidders p) /\
           Forall (fun b => b ∈ valid) (NoSaleBidders p))) as Hns.
  { assert (forall s, parse_no_sale_loop (NoSaleBidders p) valid ∅ = inl s ->
      NoSaleBidders p <> [allBiddersMarker] /\ s = list_to_set (NoSaleBidders p) /\
      Forall (fun b => b ∈ valid) (NoSaleBidders p)) as Hloop.
    { intros s [-> Hall]%no_sale_loop_ok. split; [|split; [set_solver|]].
      - intros Heq. rw Heq in Hall. by inversion Hall as [|? ? [? _] _].
      - eapply Forall_impl; [|exact Hall]. by intros ? []. }
    rw /parseNoSaleBidders in En.
    destruct (NoSaleBidders p) as [|b [|b' bs]] eqn:Eb; try (destruct (eqb_spec b allBiddersMarker) as [->|]);
      try (destruct (parse_no_sale_loop _ valid ∅) eqn:El; simplify_eq; right; by eauto);
      simplify_eq; by left. }
  rw andb_true_iff negb_true_iff Hopt /isNoSaleForBidder /=.
  destruct Hns as [[-> Hb]|(-> & Hne & -> & Hall)].
  - rw Hb. split; [|by left]. by split; [intros [? _]|intros (_ & ? & _)].
  - split; [|by right]. rw bool_decide_eq_false elem_of_list_to_set. tauto.
Qed.

(** The theorem with a sale opt-out and one exempt bidder. *)
Lemma ccpa_decision_witness :
  exists pp, Ccpa_Parse (mkCcpaPolicy "1YYN" ["appnexus"%string]) {["appnexus"%string; "rubicon"%string]} = inl pp /\
    ShouldEnforce (ccpa_enforcer pp) "rubicon" = true.
Proof.
  eexists. split; [reflexivity|].
  apply (ccpa_decision (mkCcpaPolicy "1YYN" ["appnexus"%string]) {["appnexus"%string; "rubicon"%string]});
    [reflexivity|].
  split; [by exists "Y"%char, "N"%char|]. split; [done|]. simpl. set_solver.
Defined.
