(* ===== verification/ConsentWriters.v ===== *)
(** * Writing a consent into a request

    The writing half of [privacy/ccpa/policy.go], [privacy/ccpa/consentwriter.go],
    [privacy/gdpr/consentwriter.go] and [privacy/writer.go]: the AMP endpoint
    stores the consent of the query string in the request, and the request
    validation removes a malformed US privacy string.  An extension is decoded
    to a [map[string]interface{}] and encoded again, which sorts its members
    and turns every number into a float64; the text of a float is a parameter.
    [None] is a panic. *)

From S2P Require Import Prelude Float64 ErrorTypes Json OpenRTB ExtRequest Privacy Ccpa.

Section Writers.
Context (float_text : float64 -> string).

(** Decoding a value to an [interface{}] and encoding it again. *)
Fixpoint iface (j : json) : option json :=
  match j with
  | JNull | JBool _ | JStr _ => Some j
  | JNum _ => x ← dec_float j; Some (JNum (float_text x))
  | JArr l =>
      JArr <$> (fix go (l : list json) : option (list json) :=
                  match l with
                  | [] => Some []
                  | x :: l => y ← iface x; r ← go l; Some (y :: r)
                  end) l
  | JObj kvs =>
      (fun l : list (string * json) => map_json (fold_left (fun m kj => <[kj.1 := kj.2]> m) l ∅)) <$>
      (fix go (l : list (string * json)) : option (list (string * json)) :=
         match l with
         | [] => Some []
         | (k, x) :: l => y ← iface x; r ← go l; Some ((k, y) :: r)
         end) kvs
  end.
Definition dec_iface_map : decoder (option (gmap string json)) := dec_map iface.

(** A nil map can be read and deleted from, and not written to. *)
Definition map_set (m : option (gmap string json)) (key : string) (j : json) : option (gmap string json) :=
  match m with None => None | Some m => Some (<[key := j]> m) end.

Definition usPrivacyKey : string := "us_privacy".
Definition noSaleKey : string := "nosale".
Definition prebidKey : string := "prebid".
Definition consentKey : string := "consent".

(** ** CCPA *)
Definition marshalRegsExt (regs : Regs) (ext : json) : Regs := regs_set_Ext regs (RawJson ext).

Definition buildRegsClear (regs : option Regs) : option Regs + error :=
  match regs with
  | None => inl regs
  | Some r =>
      if raw_len0 (regs_Ext r) then inl regs
      else match unmarshal dec_iface_map (regs_Ext r) with
           | inr err => inr err
           | inl extMap =>
               let extMap := delete usPrivacyKey (map_or_empty extMap) in
               if bool_decide (extMap = ∅) then inl (Some (regs_set_Ext r RawNil))
               else inl (Some (regs_set_Ext r (RawJson (map_json extMap))))
           end
  end.

(** [ExtRegs] with only the US privacy string set. *)
Definition enc_regs_usp (consent : string) : json := JObj (enc_omit_str usPrivacyKey consent).

Definition buildRegsWrite (consent : string) (regs : option Regs) : option (Regs + error) :=
  match regs with
  | None => Some (inl (marshalRegsExt emptyRegs (enc_regs_usp consent)))
  | Some r =>
      if raw_is_nil (regs_Ext r) then Some (inl (marshalRegsExt r (enc_regs_usp consent)))
      else match unmarshal dec_iface_map (regs_Ext r) with
           | inr err => Some (inr err)
           | inl extMap =>
               extMap ← map_set extMap usPrivacyKey (JStr consent);
               Some (inl (marshalRegsExt r (map_json extMap)))
           end
  end.

Definition buildRegs (consent : string) (regs : option Regs) : option (option Regs + error) :=
  if GoStr.is_empty consent then Some (buildRegsClear regs)
  else r ← buildRegsWrite consent regs;
       Some (match r with inl x => inl (Some x) | inr err => inr err end).

(** [map[string]interface{}] behind an interface value. *)
Definition as_map (j : json) : option (gmap string json) :=
  match j with JObj kvs => Some (list_to_map kvs) | _ => None end.
Definition prebid_not_object : error := EPlain "request.ext.prebid is not a json object".

Definition buildExtClear (ext : RawMessage) : RawMessage + error :=
  if raw_len0 ext then inl ext
  else match unmarshal dec_iface_map ext with
       | inr err => inr err
       | inl extMap =>
           let extMap := map_or_empty extMap in
           match extMap !! prebidKey with
           | None => inl ext
           | Some prebidExt =>
               match as_map prebidExt with
               | None => inr prebid_not_object
               | Some prebidExtMap =>
                   let prebidExtMap := delete noSaleKey prebidExtMap in
                   let extMap := if bool_decide (prebidExtMap = ∅) then delete prebidKey extMap
                                 else <[prebidKey := map_json prebidExtMap]> extMap in
                   if bool_decide (extMap = ∅) then inl RawNil else inl (RawJson (map_json extMap))
               end
           end
       end.

Definition buildExtWrite (noSaleBidders : list string) (ext : RawMessage) : option (RawMessage + error) :=
  let nosale := enc_list JStr noSaleBidders in
  if raw_len0 ext then
    Some (inl (RawJson (enc_ext_request float_text
      (mkPrebid ∅ ∅ None None false RawNil [] None false None noSaleBidders None))))
  else match unmarshal dec_iface_map ext with
       | inr err => Some (inr err)
       | inl extMap =>
           match map_or_empty extMap !! prebidKey with
           | Some prebidExt =>
               match as_map prebidExt with
               | None => Some (inr prebid_not_object)
               | Some prebidExtMap =>
                   m ← map_set extMap prebidKey (map_json (<[noSaleKey := nosale]> prebidExtMap));
                   Some (inl (RawJson (map_json m)))
               end
           | None =>
               m ← map_set extMap prebidKey (map_json {[noSaleKey := nosale]});
               Some (inl (RawJson (map_json m)))
           end
       end.

Definition buildExt (noSaleBidders : list string) (ext : RawMessage) : option (RawMessage + error) :=
  match noSaleBidders with [] => Some (buildExtClear ext) | _ => buildExtWrite noSaleBidders ext end.

(** [Policy.Write]. *)
Definition Ccpa_Write (p : CcpaPolicy) (req : BidRequest) : option (BidRequest + error) :=
  regs ← buildRegs (Consent p) (req_Regs req);
  match regs with
  | inr err => Some (inr err)
  | inl regs =>
      ext ← buildExt (NoSaleBidders p) (req_Ext req);
      Some (match ext with
            | inr err => inr err
            | inl ext => inl (req_set_Ext (req_set_Regs req regs) ext)
            end)
  end.

(** [ccpa.ConsentWriter.Write]. *)
Definition Ccpa_ConsentWriter_Write (consent : string) (req : BidRequest) : option (BidRequest + error) :=
  regs ← buildRegs consent (req_Regs req);
  Some (match regs with inr err => inr err | inl regs => inl (req_set_Regs req regs) end).

(** ** GDPR *)
(** [ExtUser] with only the consent set. *)
Definition enc_user_consent (consent : string) : json := JObj (enc_omit_str consentKey consent).

(** [gdpr.ConsentWriter.Write]: the user is created before the extension is
    read, so the request changes even when the extension is malformed. *)
Definition Gdpr_ConsentWriter_Write (consent : string) (req : BidRequest) :
  option (BidRequest * option error) :=
  if GoStr.is_empty consent then Some (req, None)
  else
    let user := default emptyUser (req_User req) in
    let put ext := req_set_User req (Some (usr_set_Ext user ext)) in
    if raw_is_nil (usr_Ext user) then Some (put (RawJson (enc_user_consent consent)), None)
    else match unmarshal dec_iface_map (usr_Ext user) with
         | inr err => Some (req_set_User req (Some user), Some err)
         | inl extMap =>
             extMap ← map_set extMap consentKey (JStr consent);
             Some (put (RawJson (map_json extMap)), None)
         end.
End Writers.

(** ** Facts on members *)

(** Every member whose name differs from [key] at most in case is [key]. *)
Definition spelled_exactly (m : gmap string json) (key : string) : Prop :=
  forall k, is_Some (m !! k) -> GoStr.equal_fold k key = true -> k = key.

Lemma find_field_none name kvs :
  (forall k j, (k, j) ∈ kvs -> GoStr.equal_fold k name = false) -> find_field name kvs = None.
Proof.
  induction kvs as [|[k j] kvs IH]; intros H; simpl; [done|].
  rw IH; [intros; eapply H; by apply list_elem_of_further|]. rw (H k j) //. apply list_elem_of_here.
Qed.

Lemma find_field_elem name kvs j :
  find_field name kvs = Some j -> exists k, (k, j) ∈ kvs /\ GoStr.equal_fold k name = true.
Proof.
  induction kvs as [|[k x] kvs IH]; simpl; [done|]. destruct (find_field name kvs) as [y|].
  - intros [= ->]. destruct IH as (k' & Hk & He); [done|]. exists k'. split; [|done]. by apply list_elem_of_further.
  - destruct (GoStr.equal_fold k name) eqn:E; [|done]. intros [= ->]. exists k. split; [apply list_elem_of_here|done].
Qed.

Lemma equal_fold_refl s : GoStr.equal_fold s s = true.
Proof. rw /GoStr.equal_fold. apply eqb_refl. Qed.

Lemma map_json_members m : exists kvs, map_json m = JObj kvs /\ kvs ≡ₚ map_to_list m.
Proof. eexists. split; [reflexivity|]. apply merge_sort_Permutation. Qed.

(** A field of an encoded map is the map's member of that name. *)
Lemma find_field_map m key kvs :
  kvs ≡ₚ map_to_list m -> spelled_exactly m key -> find_field key kvs = m !! key.
Proof.
  intros Hp Hs. destruct (find_field key kvs) as [j|] eqn:E.
  - apply find_field_elem in E as (k & Hk & He). rw Hp in Hk. apply elem_of_map_to_list in Hk.
    assert (k = key) as <- by (apply Hs; [by eexists|done]). done.
  - destruct (m !! key) as [j|] eqn:Em; [|done]. apply elem_of_map_to_list in Em. rw -Hp in Em.
    clear -E Em. revert E. induction kvs as [|[k x] kvs IH]; simpl; [by apply not_elem_of_nil in Em|].
    apply elem_of_cons in Em as [[= <- <-]|Em].
    + by destruct (find_field key kvs); rw ?equal_fold_refl.
    + destruct (find_field key kvs); [done|]. intros _. by apply IH.
Qed.

Lemma dec_members_keys {A} (d : decoder A) kvs acc m :
  dec_members d kvs acc = Some m ->
  (forall k, is_Some (acc !! k) -> is_Some (m !! k)) /\ forall k j, (k, j) ∈ kvs -> is_Some (m !! k).
Proof.
  revert acc. induction kvs as [|[k x] kvs IH]; intros acc; simpl.
  - intros [= <-]. split; [done|]. by intros ? ? ?%not_elem_of_nil.
  - destruct (d x) as [a|]; [|done]. intros [H1 H2]%IH. split.
    + intros k' Hk. apply H1. destruct (decide (k' = k)) as [->|]; [by rw lookup_insert_eq|by rw lookup_insert_ne].
    + intros k' j [[= -> ->]|Hin]%elem_of_cons; [|by eapply H2]. apply H1. by rw lookup_insert_eq.
Qed.

Lemma find_field_absent {A} (d : decoder A) kvs m key :
  dec_members d kvs ∅ = Some m -> (forall k, is_Some (m !! k) -> GoStr.equal_fold k key = true -> k = key) ->
  m !! key = None -> find_field key kvs = None.
Proof.
  intros [_ Hm]%dec_members_keys Hs Hn. apply find_field_none. intros k j Hin.
  destruct (GoStr.equal_fold k key) eqn:E; [|done]. destruct (Hm _ _ Hin) as [x Hx].
  assert (k = key) as -> by (apply Hs; [by eexists|done]). by rw Hn in Hx.
Qed.

Lemma spelled_insert m key j : spelled_exactly m key -> spelled_exactly (<[key := j]> m) key.
Proof.
  intros H k Hk He. destruct (decide (k = key)) as [->|Hne]; [done|]. apply H; [|done].
  by rw lookup_insert_ne in Hk.
Qed.
Lemma spelled_delete m key key' : spelled_exactly m key -> spelled_exactly (delete key' m) key.
Proof. intros H k [j Hk] He. apply lookup_delete_Some in Hk as [_ Hk]. apply H; [by eexists|done]. Qed.

Lemma spelled_singleton key j : spelled_exactly {[key := j]} key.
Proof. by intros k [x [<- _]%lookup_singleton_Some] _. Qed.

Lemma mapM_dec_string l : mapM dec_string (JStr <$> l) = Some l.
Proof. induction l as [|s l IH]; simpl; [done|]. by rw IH. Qed.

(** ** The writers undo and are undone by the readers *)
Section WriterFacts.
Context (float_text : float64 -> string).

(** The members of an extension, as the writers see them. *)
Definition ext_map (r : RawMessage) : gmap string json :=
  match unmarshal (dec_iface_map float_text) r with inl m => map_or_empty m | inr _ => ∅ end.
Definition prebid_map (r : RawMessage) : gmap string json := default ∅ (ext_map r !! prebidKey ≫= as_map).
Definition regs_ext (req : BidRequest) : RawMessage := default RawNil (regs_Ext <$> req_Regs req).

(** What [json.Unmarshal] reads of a US privacy string. *)
Lemma read_regs_map m consent x :
  spelled_exactly m usPrivacyKey -> m !! usPrivacyKey = JStr <$> consent ->
  unmarshal dec_ext_regs (RawJson (map_json m)) = inl x -> er_USPrivacy x = default ""%string consent.
Proof.
  intros Hs Hm. destruct (map_json_members m) as (kvs & -> & Hp). rw /unmarshal /dec_ext_regs /dec_struct.
  pose proof (find_field_map m usPrivacyKey kvs Hp Hs) as Hf. rw /usPrivacyKey in Hf.
  destruct (dec_field _ _ "gdpr" kvs); simpl; [|done]. rw /dec_field Hf Hm. destruct consent; by intros [= <-].
Qed.

Lemma enc_regs_usp_map consent :
  consent <> ""%string -> enc_regs_usp consent = map_json {[usPrivacyKey := JStr consent]}.
Proof. intros Hc. rw /map_json map_to_list_singleton. by destruct consent. Qed.

(** What the CCPA writer leaves in the regulations. *)
Lemma buildRegs_cases c regs regs' :
  buildRegs float_text c regs = Some (inl regs') ->
  (c = ""%string /\ regs' = regs /\ raw_len0 (default RawNil (regs_Ext <$> regs)) = true) \/
  (exists r, regs' = Some r /\ c = ""%string /\ regs_Ext r = RawNil /\
     delete usPrivacyKey (ext_map (default RawNil (regs_Ext <$> regs))) = ∅) \/
  (exists r, regs' = Some r /\
     regs_Ext r = RawJson (map_json ((if GoStr.is_empty c then delete usPrivacyKey else insert usPrivacyKey (JStr c))
                                       (ext_map (default RawNil (regs_Ext <$> regs)))))).
Proof.
  rw /buildRegs. destruct (GoStr.is_empty c) eqn:Ec.
  - assert (c = ""%string) as -> by by destruct c. intros [= H]. revert H. rw /buildRegsClear.
    destruct regs as [r|]; [|intros [= <-]; by left]. cbn [fmap option_fmap option_map default].
    destruct (raw_len0 (regs_Ext r)) eqn:E0; [intros [= <-]; by left|]. rw /ext_map.
    destruct (unmarshal _ _) as [m|]; [|done]. case_bool_decide; intros [= <-]; right.
    + left. eexists. split; [done|]. split; [done|]. split; [by destruct r|done].
    + right. eexists. split; [done|]. by destruct r.
  - assert (c <> ""%string) as Hc by by intros ->. rw /buildRegsWrite. intros H. right. right. revert H.
    destruct regs as [r|]; cbn [fmap option_fmap option_map default].
    + destruct (regs_Ext r) eqn:Er; cbn [raw_is_nil].
      * intros [= <-]. eexists. split; [done|]. rw /marshalRegsExt enc_regs_usp_map //. by destruct r.
      * done.
      * done.
      * rw /ext_map. destruct (unmarshal _ _) as [[m|]|]; simpl; try done.
        intros [= <-]. eexists. split; [done|]. by destruct r.
    + intros [= <-]. eexists. split; [done|]. by rw /marshalRegsExt enc_regs_usp_map.
Qed.

Lemma read_regs_written c regs regs' :
  buildRegs float_text c regs = Some (inl regs') ->
  spelled_exactly (ext_map (default RawNil (regs_Ext <$> regs))) usPrivacyKey ->
  match regs' with
  | None => c = ""%string
  | Some r => if raw_len0 (regs_Ext r) then c = ""%string
              else forall x, unmarshal dec_ext_regs (regs_Ext r) = inl x -> er_USPrivacy x = c
  end.
Proof.
  intros [(-> & -> & H0)|[(r & -> & -> & Hr & _)|(r & -> & Hr)]]%buildRegs_cases Hs.
  - destruct regs as [r|]; simpl in *; [by rw H0|done].
  - by rw Hr.
  - rw Hr. cbn [raw_len0]. intros x Hx. destruct (GoStr.is_empty c) eqn:Ec.
    + assert (c = ""%string) as -> by by destruct c.
      apply (read_regs_map _ None _ (spelled_delete _ _ _ Hs)) in Hx; [done|apply lookup_delete_eq].
    + apply (read_regs_map _ (Some c) _ (spelled_insert _ _ _ Hs)) in Hx; [done|apply lookup_insert_eq].
Qed.

Lemma dec_prebid_nosale kvs x :
  dec_prebid (JObj kvs) = Some x -> dec_field (dec_list dec_string) [] "nosale" kvs = Some (pre_NoSale x).
Proof.
  rw /dec_prebid /dec_struct. intros H.
  do 10 (apply bind_Some in H as (? & _ & H)). apply bind_Some in H as (l & Hl & H).
  apply bind_Some in H as (? & _ & H). injection H as <-. exact Hl.
Qed.

Lemma read_no_prebid m x :
  spelled_exactly m prebidKey -> m !! prebidKey = None ->
  unmarshal dec_ext_request (RawJson (map_json m)) = inl x -> pre_NoSale x = [].
Proof.
  intros Hs Hm. destruct (map_json_members m) as (kvs & -> & Hp).
  pose proof (find_field_map m prebidKey kvs Hp Hs) as Hf. rw /prebidKey in Hf, Hm.
  rw /unmarshal /dec_ext_request /dec_struct /dec_field Hf Hm. by intros [= <-].
Qed.

Lemma read_prebid_map m pm l x :
  spelled_exactly m prebidKey -> m !! prebidKey = Some (map_json pm) ->
  spelled_exactly pm noSaleKey ->
  pm !! noSaleKey = match l with [] => None | _ => Some (enc_list JStr l) end ->
  unmarshal dec_ext_request (RawJson (map_json m)) = inl x -> pre_NoSale x = l.
Proof.
  intros Hs Hm Hs' Hpm. destruct (map_json_members m) as (kvs & -> & Hp).
  pose proof (find_field_map m prebidKey kvs Hp Hs) as Hf. rw /prebidKey in Hf, Hm.
  rw /unmarshal /dec_ext_request {1}/dec_struct {1}/dec_field Hf Hm.
  destruct (map_json_members pm) as (kvs' & -> & Hp').
  destruct (dec_prebid (JObj kvs')) as [y|] eqn:Ey; [|done]. intros [= <-].
  apply dec_prebid_nosale in Ey. revert Ey. pose proof (find_field_map pm noSaleKey kvs' Hp' Hs') as Hf'.
  rw /noSaleKey in Hf', Hpm. rw /dec_field Hf' Hpm. destruct l as [|a l]; [by intros [= <-]|].
  rw /enc_list /dec_list mapM_dec_string. by intros [= <-].
Qed.

Lemma unmarshal_map_null (m : gmap string json) r :
  unmarshal (dec_iface_map float_text) r = inl None -> r = RawJson JNull.
Proof.
  destruct r as [| | |[]]; try done. rw /unmarshal /dec_iface_map /dec_map. by destruct (dec_members _ _ _).
Qed.

(** An extension without a prebid member names no bidders. *)
Lemma read_absent_prebid r x :
  spelled_exactly (ext_map r) prebidKey -> ext_map r !! prebidKey = None ->
  is_Some (match unmarshal (dec_iface_map float_text) r with inl m => Some m | inr _ => None end) ->
  unmarshal dec_ext_request r = inl x -> pre_NoSale x = [].
Proof.
  rw /ext_map. destruct r as [| | |j]; try done. destruct j; try done. { by intros _ _ _ [= <-]. }
  cbn [unmarshal dec_iface_map dec_map]. destruct (dec_members _ _ _) as [m|] eqn:Em; [|by intros _ _ [? ?]].
  cbn [fmap option_fmap option_map map_or_empty default]. intros Hs Hn _.
  pose proof (find_field_absent _ _ _ prebidKey Em Hs Hn) as Hf. rw /prebidKey in Hf.
  rw /dec_ext_request /dec_struct /dec_field Hf. by intros [= <-].
Qed.

Lemma read_ext_written l ext ext' :
  buildExt float_text l ext = Some (inl ext') ->
  spelled_exactly (ext_map ext) prebidKey -> spelled_exactly (prebid_map ext) noSaleKey ->
  if raw_len0 ext' then l = [] else forall x, unmarshal dec_ext_request ext' = inl x -> pre_NoSale x = l.
Proof.
  rw /prebid_map. pose proof (read_absent_prebid ext) as Habs. revert Habs. rw /ext_map.
  destruct l as [|a l]; cbn [buildExt]; [rw /buildExtClear|rw /buildExtWrite];
    destruct (raw_len0 ext) eqn:E0; cbn beta iota.
  - intros _ [= <-] _ _. by rw E0.
  - destruct (unmarshal _ _) as [om|] eqn:Eu; [|done]. set (m := map_or_empty om). intros Habs H Hs Hs'. revert H.
    destruct (m !! prebidKey) as [pj|] eqn:Em.
    + destruct (as_map pj) as [pm|] eqn:Ep; [|done]. rw /= Ep /= in Hs'. do 2 case_bool_decide; intros [= <-]; cbn [raw_len0]; try done; intros x.
      * apply read_no_prebid; [by apply spelled_delete|apply lookup_delete_eq].
      * apply (read_prebid_map _ (delete noSaleKey pm)); [by apply spelled_insert|by rw lookup_insert_eq|by apply spelled_delete|apply lookup_delete_eq].
    + intros [= <-]. rw E0. intros x Hx. apply (Habs x); try done.
  - intros _ [= <-] _ _ x. cbn [raw_len0].
    assert (enc_ext_request float_text (mkPrebid ∅ ∅ None None false RawNil [] None false None (a :: l) None) =
      map_json {[prebidKey := map_json {[noSaleKey := enc_list JStr (a :: l)]}]}) as ->.
    { by rw /map_json !map_to_list_singleton /enc_ext_request /enc_prebid /omit_map map_to_list_empty. }
    apply (read_prebid_map _ {[noSaleKey := enc_list JStr (a :: l)]}); auto using spelled_singleton;
      by rw lookup_singleton_eq.
  - destruct (unmarshal _ _) as [om|] eqn:Eu; [|done]. set (m := map_or_empty om). intros _ H Hs Hs'. revert H.
    destruct (m !! prebidKey) as [pj|] eqn:Em.
    + destruct (as_map pj) as [pm|] eqn:Ep; [|done]. rw /= Ep /= in Hs'. destruct om as [m'|]; [|done].
      intros [= <-]. cbn [raw_len0]. intros x.
      apply (read_prebid_map _ (<[noSaleKey := enc_list JStr (a :: l)]> pm)); auto using spelled_insert;
        by rw lookup_insert_eq.
    + destruct om as [m'|]; [|done]. intros [= <-]. cbn [raw_len0]. intros x.
      apply (read_prebid_map _ {[noSaleKey := enc_list JStr (a :: l)]}); auto using spelled_insert, spelled_singleton;
        by rw ?lookup_insert_eq ?lookup_singleton_eq.
Qed.

(** The members of an extension as they are. *)
Definition member_map (r : RawMessage) : gmap string json :=
  match unmarshal (dec_map dec_any) r with inl m => map_or_empty m | inr _ => ∅ end.

Lemma member_map_json m : member_map (RawJson (map_json m)) = m.
Proof. by rw /member_map /unmarshal map_json_roundtrip. Qed.

Lemma buildRegs_keeps c regs regs' k :
  buildRegs float_text c regs = Some (inl regs') -> k <> usPrivacyKey ->
  member_map (default RawNil (regs_Ext <$> regs')) !! k = ext_map (default RawNil (regs_Ext <$> regs)) !! k.
Proof.
  intros [(-> & -> & H0)|[(r & -> & -> & Hr & Hd)|(r & -> & Hr)]]%buildRegs_cases Hk.
  - destruct (default RawNil _); done.
  - transitivity ((∅ : gmap string json) !! k); [by rw /= Hr|]. by rw -Hd lookup_delete_ne.
  - cbn [fmap option_fmap option_map] in Hr |- *. cbn [default]. rw Hr member_map_json.
    by destruct (GoStr.is_empty c); [rw lookup_delete_ne|rw lookup_insert_ne].
Qed.

(** Writing the empty consent leaves no US privacy member. *)
Lemma buildRegs_clears regs regs' :
  buildRegs float_text "" regs = Some (inl regs') ->
  member_map (default RawNil (regs_Ext <$> regs')) !! usPrivacyKey = None.
Proof.
  intros [(_ & -> & H0)|[(r & -> & _ & Hr & _)|(r & -> & Hr)]]%buildRegs_cases.
  - by destruct (default RawNil _).
  - by rw /= Hr.
  - cbn [fmap option_fmap option_map] in Hr |- *. cbn [default]. rw Hr member_map_json. apply lookup_delete_eq.
Qed.

(** Where the reader takes the policy from. *)
Lemma read_policy_inv req p :
  Ccpa_ReadFromRequest req = inl p ->
  match req_Regs req with
  | None => Consent p = ""%string
  | Some r => if raw_len0 (regs_Ext r) then Consent p = ""%string
              else exists x, unmarshal dec_ext_regs (regs_Ext r) = inl x /\ Consent p = er_USPrivacy x
  end /\
  if raw_len0 (req_Ext req) then NoSaleBidders p = []
  else exists x, unmarshal dec_ext_request (req_Ext req) = inl x /\ NoSaleBidders p = pre_NoSale x.
Proof.
  rw /Ccpa_ReadFromRequest.
  destruct (req_Regs req) as [r|]; [destruct (raw_len0 (regs_Ext r)); [|destruct (unmarshal dec_ext_regs _) as [x|]; [|done]]|];
    (destruct (raw_len0 (req_Ext req)); [|destruct (unmarshal dec_ext_request _) as [y|]; [|done]]);
    intros [= <-]; split; by eauto.
Qed.

(** Writing a CCPA policy into a request and reading it back gives the
    same policy; every other member of the regulations' extension stays (with
    its numbers reprinted), and so does every other field of the request.  The
    member names the policy uses may not also occur in another case, which Go
    would read in their place. *)
Theorem ccpa_policy_roundtrip p req req' p'
    (Hregs : spelled_exactly (ext_map (regs_ext req)) usPrivacyKey)
    (Hext : spelled_exactly (ext_map (req_Ext req)) prebidKey)
    (Hprebid : spelled_exactly (prebid_map (req_Ext req)) noSaleKey)
    (Hw : Ccpa_Write float_text p req = Some (inl req')) (Hr : Ccpa_ReadFromRequest req' = inl p') :
  p' = p /\
  (forall k, k <> usPrivacyKey -> member_map (regs_ext req') !! k = ext_map (regs_ext req) !! k) /\
  req' = req_set_Ext (req_set_Regs req (req_Regs req')) (req_Ext req').
Proof.
  revert Hw. rw /Ccpa_Write. destruct (buildRegs float_text _ _) as [[regs'|]|] eqn:Er; try done.
  cbn [mbind option_bind]. destruct (buildExt float_text _ _) as [[ext'|]|] eqn:Ee; try done. intros [= <-].
  pose proof (read_regs_written _ _ _ Er Hregs) as H1. pose proof (read_ext_written _ _ _ Ee Hext Hprebid) as H2.
  pose proof (fun k => buildRegs_keeps _ _ _ k Er) as H3.
  destruct req as [id im si ap dv us te at_ tm cu bc ba so re ext]. split; [|split; [exact H3|done]].
  apply read_policy_inv in Hr as [Hc Hl]. destruct p as [c l], p' as [c' l'].
  cbn [req_set_Ext req_set_Regs req_Regs req_Ext Consent NoSaleBidders] in *. f_equal.
  - destruct regs' as [r|]; [|by rw H1]. destruct (raw_len0 (regs_Ext r)); [by rw H1|].
    destruct Hc as (x & Hx & ->). by apply H1.
  - destruct (raw_len0 ext'); [by rw H2|]. destruct Hl as (x & Hx & ->). by apply H2.
Qed.
End WriterFacts.

Definition demo_policy : CcpaPolicy := mkCcpaPolicy "1-Y-" ["appnexus"%string].
Definition demo_policy_request : BidRequest :=
  req_set_Ext (req_set_Regs emptyBidRequest (Some (mkRegs 1 (RawJson (JObj [("gdpr"%string, JNum "0")])))))
    (RawJson (JObj [("prebid"%string, JObj [("debug"%string, JBool true)])])).
Definition demo_float_text (_ : float64) : string := "0".

(** The theorem on a request that has both extensions. *)
Lemma ccpa_policy_roundtrip_witness :
  exists req', Ccpa_Write demo_float_text demo_policy demo_policy_request = Some (inl req') /\
    member_map (regs_ext req') !! "gdpr"%string = Some (JNum "0") /\
    forall p', Ccpa_ReadFromRequest req' = inl p' -> p' = demo_policy.
Proof.
  eexists. split; [vm_compute; reflexivity|]. split; [vm_compute; reflexivity|]. intros p' Hp.
  refine (proj1 (ccpa_policy_roundtrip demo_float_text demo_policy demo_policy_request _ p' _ _ _ _ Hp));
    [| | |vm_compute; reflexivity].
  - intros k [x Hx]. assert (ext_map demo_float_text (regs_ext demo_policy_request) = {["gdpr"%string := JNum "0"]}) as E
      by (vm_compute; reflexivity). rw E in Hx. apply lookup_singleton_Some in Hx as [<- _]. intros H. vm_compute in H. discriminate H.
  - intros k [x Hx]. assert (ext_map demo_float_text (req_Ext demo_policy_request) =
      {["prebid"%string := JObj [("debug"%string, JBool true)]]}) as E by (vm_compute; reflexivity).
    rw E in Hx. by apply lookup_singleton_Some in Hx as [<- _].
  - intros k [x Hx]. assert (prebid_map demo_float_text (req_Ext demo_policy_request) =
      {["debug"%string := JBool true]}) as E by (vm_compute; reflexivity).
    rw E in Hx. apply lookup_singleton_Some in Hx as [<- _]. intros H. vm_compute in H. discriminate H.
Defined.

(** The GDPR consent that was written is the one that is read. *)
Lemma gdpr_consent_roundtrip float_text c req req' u x :
  c <> ""%string ->
  spelled_exactly (ext_map float_text (default RawNil (usr_Ext <$> req_User req))) consentKey ->
  Gdpr_ConsentWriter_Write float_text c req = Some (req', None) ->
  req_User req' = Some u -> unmarshal dec_ext_user (usr_Ext u) = inl x -> eu_Consent x = c.
Proof.
  intros Hc Hs. assert (forall m, spelled_exactly m consentKey -> m !! consentKey = Some (JStr c) ->
    unmarshal dec_ext_user (RawJson (map_json m)) = inl x -> eu_Consent x = c) as Hread.
  { intros m Hsm Hm. destruct (map_json_members m) as (kvs & -> & Hp).
    pose proof (find_field_map m consentKey kvs Hp Hsm) as Hf. rw /consentKey in Hf, Hm.
    rw /unmarshal. destruct (dec_ext_user (JObj kvs)) as [y|] eqn:Ey; [|done]. intros [= <-].
    rw /dec_ext_user /dec_struct in Ey. apply bind_Some in Ey as (c' & Hc' & Ey).
    do 3 (apply bind_Some in Ey as (? & _ & Ey)). injection Ey as <-.
    rw /dec_field Hf Hm in Hc'. by injection Hc'. }
  rw /Gdpr_ConsentWriter_Write. assert (GoStr.is_empty c = false) as -> by by destruct c.
  assert (enc_user_consent c = map_json {[consentKey := JStr c]}) as Henc.
  { rw /map_json map_to_list_singleton. by destruct c. }
  assert (forall r, usr_Ext (default emptyUser r) = default RawNil (usr_Ext <$> r)) as Hu by by intros [].
  rw !Hu. set (user := default emptyUser (req_User req)).
  assert (forall ext, req_User (req_set_User req (Some (usr_set_Ext user ext))) = Some u -> usr_Ext u = ext) as Hset.
  { intros ext. destruct req as [id im si ap dv us te at_ tm cu bc ba so re e]. cbn [req_set_User req_User].
    intros [= <-]. by destruct user. }
  clearbody user. destruct (default RawNil _) as [| | |j] eqn:Er; cbn [raw_is_nil].
  2, 3: intros H; discriminate H.
  - intros [= <-] Hq%Hset. rw Hq Henc. apply Hread; [apply spelled_singleton|by rw lookup_singleton_eq].
  - revert Hs. rw /ext_map. destruct (unmarshal _ _) as [[m|]|]; [|intros _ H; discriminate H..]. intros Hs [= <-] Hq%Hset. rw Hq.
    apply Hread; [by apply spelled_insert|by rw lookup_insert_eq].
Qed.

(** A consent cannot be written into an extension that is the literal null:
    the nil map it decodes to is written to. *)
Example consent_write_null_panics :
  Ccpa_ConsentWriter_Write demo_float_text "1-Y-"
    (req_set_Regs emptyBidRequest (Some (mkRegs 0 (RawJson JNull)))) = None /\
  Gdpr_ConsentWriter_Write demo_float_text "C"
    (req_set_User emptyBidRequest (Some (usr_set_Ext emptyUser (RawJson JNull)))) = None.
Proof. by split; vm_compute. Qed.
