(* ===== verification/Gdpr.v ===== *)
(** * GDPR

    [gdpr/gdpr.go], [gdpr/impl.go] and [gdpr/vendorlist-fetching.go]: the GDPR
    signal, the permission questions the exchange and the cookie endpoints
    ask, and the cache of vendor lists.  Consent strings and vendor lists are
    objects of the go-gdpr library: they are records of the questions the
    source asks them, and the parsers are parameters. *)

From S2P Require Import Prelude Float64 ErrorTypes Json OpenRTB Currency.

(** [gdpr.Signal] is an integer type; a request can carry other values. *)
Definition SignalAmbiguous : Z := -1.
Definition SignalNo : Z := 0.
Definition SignalYes : Z := 1.

Definition SignalParse (rawSignal : string) : Z * option error :=
  if GoStr.is_empty rawSignal then (SignalAmbiguous, None)
  else match GoStr.atoi rawSignal with
       | None => (SignalAmbiguous, Some (EPlain "strconv.Atoi: invalid syntax"))
       | Some i =>
           if negb (i =? 0)%Z && negb (i =? 1)%Z
           then (SignalAmbiguous, Some (EBadInput "GDPR signal should be integer 0 or 1"))
           else (i, None)
       end.

(** [exchange/gdpr.go]. *)
Definition dec_regs_gdpr : decoder (option Z) := dec_struct (fun kvs =>
  dec_field (dec_ptr dec_int) None "gdpr" kvs).
Definition extractGDPR (bidRequest : BidRequest) : Z * option error :=
  match req_Regs bidRequest with
  | None => (SignalAmbiguous, None)
  | Some regs =>
      if raw_is_nil (regs_Ext regs) then (SignalAmbiguous, None)
      else match unmarshal dec_regs_gdpr (regs_Ext regs) with
           | inr err => (SignalAmbiguous, Some err)
           | inl None => (SignalAmbiguous, None)
           | inl (Some g) => (g, None)
           end
  end.
Definition dec_user_consent : decoder string := dec_struct (fun kvs =>
  dec_field dec_string ""%string "consent" kvs).
Definition extractConsent (bidRequest : BidRequest) : string + error :=
  match req_User bidRequest with
  | None => inl ""%string
  | Some u =>
      if raw_is_nil (usr_Ext u) then inl ""%string
      else unmarshal dec_user_consent (usr_Ext u)
  end.

(** ** go-gdpr's objects *)
Record Vendor := mkVendor {
  Purpose : Z -> bool; LegitimateInterest : Z -> bool; SpecialPurpose : Z -> bool }.
Record ConsentMetadata := mkConsentMetadata {
  PurposeOneTreatment : bool;
  CheckPubRestriction : Z -> Z -> Z -> bool;
  PurposeAllowed : Z -> bool;
  VendorConsent : Z -> bool;
  PurposeLITransparency : Z -> bool;
  VendorLegitInterest : Z -> bool;
  SpecialFeatureOptIn : Z -> bool }.
(** [api.VendorConsents]; the metadata is present when it is a TCF2 consent. *)
Record VendorConsents := mkVendorConsents {
  vc_Version : Z; vc_VendorListVersion : Z; vc_meta : option ConsentMetadata }.
Record VendorList := mkVendorList { vl_Version : Z; vl_Vendor : Z -> option Vendor }.

Definition vendorTrue : Vendor := mkVendor (fun _ => true) (fun _ => true) (fun _ => true).

Record TCF2 := mkTCF2 {
  tcf2_Enabled : bool; tcf2_Purpose1 : bool; tcf2_Purpose2 : bool;
  tcf2_SpecialPurpose1 : bool; tcf2_PurposeOneTreatment_Enabled : bool;
  tcf2_PurposeOneTreatment_AccessAllowed : bool }.
Record GdprConfig := mkGdprConfig {
  gc_Enabled : bool; gc_DefaultValue : string; gc_HostVendorID : Z;
  gc_NonStandardPublishers : gset string; gc_TCF2 : TCF2 }.

(** [Permissions]: the interface the rest of the program uses. *)
Record Permissions := mkPermissions {
  HostCookiesAllowed : Z -> string -> bool * option error;
  BidderSyncAllowed : string -> Z -> string -> bool * option error;
  AuctionActivitiesAllowed : string -> string -> Z -> string -> bool -> bool * bool * bool * option error }.

Section Permissions.
(** [vendorconsent.ParseString] and the list fetcher for version 2. *)
Context (ParseString : string -> VendorConsents + error).
Context (fetchVendorList : Z -> VendorList + error).
Context (cfg : GdprConfig) (gdprDefaultValue : Z) (vendorIDs : gmap string Z).

Definition normalizeGDPR (gdprSignal : Z) : Z :=
  if negb (gdprSignal =? SignalAmbiguous)%Z then gdprSignal
  else if (gdprDefaultValue =? SignalNo)%Z then SignalNo
  else SignalYes.

Definition parseVendor (vendorID : Z) (consent : string) : (VendorConsents * option Vendor) + error :=
  match ParseString consent with
  | inr err => inr (EMalformedConsent consent (error_string err))
  | inl parsedConsent =>
      if negb (vc_Version parsedConsent =? 2)%Z then inl (parsedConsent, None)
      else match fetchVendorList (vc_VendorListVersion parsedConsent) with
           | inr err => inr err
           | inl vendorList => inl (parsedConsent, vl_Vendor vendorList vendorID)
           end
  end.

Definition InfoStorageAccess : Z := 1.
Definition pubRestrictNotAllowed : Z := 0.
Definition pubRestrictRequireConsent : Z := 1.
Definition pubRestrictRequireLegitInterest : Z := 2.

Definition checkPurpose (consent : ConsentMetadata) (vendor : Vendor) (vendorID purpose : Z)
    (weakVendorEnforcement : bool) : bool :=
  if (purpose =? InfoStorageAccess)%Z && tcf2_PurposeOneTreatment_Enabled (gc_TCF2 cfg)
     && PurposeOneTreatment consent
  then tcf2_PurposeOneTreatment_AccessAllowed (gc_TCF2 cfg)
  else if CheckPubRestriction consent purpose pubRestrictNotAllowed vendorID then false
  else
    let purposeAllowed := PurposeAllowed consent purpose &&
      (weakVendorEnforcement || (Purpose vendor purpose && VendorConsent consent vendorID)) in
    let legitInterest := PurposeLITransparency consent purpose &&
      (weakVendorEnforcement || (LegitimateInterest vendor purpose && VendorLegitInterest consent vendorID)) in
    if CheckPubRestriction consent purpose pubRestrictRequireConsent vendorID then purposeAllowed
    else if CheckPubRestriction consent purpose pubRestrictRequireLegitInterest vendorID then legitInterest
    else purposeAllowed || legitInterest.

Definition allowSync (vendorID : Z) (consent : string) : bool * option error :=
  if GoStr.is_empty consent then (false, None)
  else match parseVendor vendorID consent with
       | inr err => (false, Some err)
       | inl (parsedConsent, None) => (false, None)
       | inl (parsedConsent, Some vendor) =>
           if negb (tcf2_Purpose1 (gc_TCF2 cfg)) then (true, None)
           else match vc_meta parsedConsent with
                | None => (false, Some (EPlain "Unable to access TCF2 parsed consent"))
                | Some consentMeta =>
                    (checkPurpose consentMeta vendor vendorID InfoStorageAccess false, None)
                end
       end.

(** The loop over purposes 2 to 10. *)
Definition purposes_2_to_10 : list Z := [2; 3; 4; 5; 6; 7; 8; 9; 10]%Z.

Definition allowActivities (vendorID : Z) (consent : string) (weakVendorEnforcement : bool) :
  bool * bool * bool * option error :=
  match parseVendor vendorID consent with
  | inr err => (false, false, false, Some err)
  | inl (parsedConsent, vendor) =>
      let vendor := match vendor with
                    | Some v => Some v
                    | None => if weakVendorEnforcement && (vc_Version parsedConsent =? 2)%Z
                              then Some vendorTrue else None
                    end in
      match vendor with
      | None => (false, false, false, None)
      | Some vendor =>
          if negb (tcf2_Enabled (gc_TCF2 cfg)) then (true, false, false, None)
          else match vc_meta parsedConsent with
               | None => (false, false, false, Some (EPlain "Unable to access TCF2 parsed consent"))
               | Some consentMeta =>
                   let passGeo := if tcf2_SpecialPurpose1 (gc_TCF2 cfg)
                                  then SpecialFeatureOptIn consentMeta 1 &&
                                       (SpecialPurpose vendor 1 || weakVendorEnforcement)
                                  else true in
                   let allowBidRequest := if tcf2_Purpose2 (gc_TCF2 cfg)
                                          then checkPurpose consentMeta vendor vendorID 2 weakVendorEnforcement
                                          else true in
                   let passID := existsb (fun i => checkPurpose consentMeta vendor vendorID i weakVendorEnforcement)
                                   purposes_2_to_10 in
                   (allowBidRequest, passGeo, passID, None)
               end
      end
  end.

Definition impl_HostCookiesAllowed (gdprSignal : Z) (consent : string) : bool * option error :=
  if (normalizeGDPR gdprSignal =? SignalNo)%Z then (true, None)
  else allowSync (gc_HostVendorID cfg mod 2 ^ 16)%Z consent.

Definition impl_BidderSyncAllowed (bidder : string) (gdprSignal : Z) (consent : string) :
  bool * option error :=
  if (normalizeGDPR gdprSignal =? SignalNo)%Z then (true, None)
  else match vendorIDs !! bidder with
       | Some id => allowSync id consent
       | None => (false, None)
       end.

(** The consent "1" lets everything through; the TCF rules of
    [allowActivities] are commented out in the source. *)
Definition impl_AuctionActivitiesAllowed (bidder PublisherID : string) (gdprSignal : Z)
    (consent : string) (weakVendorEnforcement : bool) : bool * bool * bool * option error :=
  if bool_decide (PublisherID ∈ gc_NonStandardPublishers cfg) then (true, true, true, None)
  else
    let gdprSignal := normalizeGDPR gdprSignal in
    if (gdprSignal =? SignalNo)%Z then (true, true, true, None)
    else if GoStr.eqb consent "1" && (gdprSignal =? SignalYes)%Z then (true, true, true, None)
    else (true, false, false, None).

Definition permissionsImpl : Permissions :=
  mkPermissions impl_HostCookiesAllowed impl_BidderSyncAllowed impl_AuctionActivitiesAllowed.
Definition AllowHostCookies : Permissions :=
  mkPermissions (fun _ _ => (true, None)) impl_BidderSyncAllowed impl_AuctionActivitiesAllowed.
End Permissions.

Section Purposes.
Context (cfg : GdprConfig).

(** Dropping the vendor's own conditions can only allow more. *)
Lemma checkPurpose_weak meta v vid p :
  checkPurpose cfg meta v vid p false = true -> checkPurpose cfg meta v vid p true = true.
Proof.
  rw /checkPurpose. repeat case_match; rw ?orb_false_l ?orb_true_l ?andb_true_r;
    try done; rw ?orb_true_iff ?andb_true_iff; tauto.
Qed.

(** The vendor does not matter once its conditions are dropped. *)
Lemma checkPurpose_vendor meta v v' vid p :
  checkPurpose cfg meta v vid p true = checkPurpose cfg meta v' vid p true.
Proof. done. Qed.

Lemma checkPurpose_restricted meta v vid p weak :
  p <> InfoStorageAccess -> CheckPubRestriction meta p pubRestrictNotAllowed vid = true ->
  checkPurpose cfg meta v vid p weak = false.
Proof. rw /checkPurpose -Z.eqb_neq. by intros -> ->. Qed.
End Purposes.

Definition AlwaysAllow : Permissions :=
  mkPermissions (fun _ _ => (true, None)) (fun _ _ _ => (true, None))
    (fun _ _ _ _ _ => (true, true, true, None)).

Definition NewPermissions (ParseString : string -> VendorConsents + error)
    (fetchVendorList : Z -> VendorList + error) (cfg : GdprConfig) (vendorIDs : gmap string Z) : Permissions :=
  if negb (gc_Enabled cfg) then AlwaysAllow
  else
    let gdprDefaultValue := if GoStr.eqb (gc_DefaultValue cfg) "0" then SignalNo else SignalYes in
    if (gc_HostVendorID cfg =? 0)%Z
    then AllowHostCookies ParseString fetchVendorList cfg gdprDefaultValue vendorIDs
    else permissionsImpl ParseString fetchVendorList cfg gdprDefaultValue vendorIDs.

(** Each permission of [a] is one of [b]. *)
Definition activities_le (a b : bool * bool * bool * option error) : Prop :=
  let '(a1, a2, a3, _) := a in let '(b1, b2, b3, _) := b in
  (a1 = true -> b1 = true) /\ (a2 = true -> b2 = true) /\ (a3 = true -> b3 = true).

(** Enforcing vendors weakly never takes a permission away: whatever
    [allowActivities] grants a vendor under strict enforcement it grants under
    weak enforcement, for every consent string, vendor list and configuration,
    and an error stays the same error. *)
Theorem weak_enforcement_monotone ParseString fetchVL cfg vendorID consent :
  activities_le (allowActivities ParseString fetchVL cfg vendorID consent false)
                (allowActivities ParseString fetchVL cfg vendorID consent true) /\
  ((allowActivities ParseString fetchVL cfg vendorID consent false).2 <> None ->
   (allowActivities ParseString fetchVL cfg vendorID consent true).2 =
   (allowActivities ParseString fetchVL cfg vendorID consent false).2).
Proof.
  rw /allowActivities. destruct (parseVendor _ _ _ _) as [[pc vendor]|e]; [|done].
  assert (forall v, existsb (fun i => checkPurpose cfg v.1 v.2 vendorID i false) purposes_2_to_10 = true ->
    existsb (fun i => checkPurpose cfg v.1 v.2 vendorID i true) purposes_2_to_10 = true) as Hex.
  { intros v (i & Hi & Hc)%existsb_exists. apply existsb_exists. exists i.
    split; [done|]. by apply checkPurpose_weak. }
  destruct vendor as [v|]; simpl; [|by destruct (vc_Version pc =? 2)%Z; simpl; repeat case_match].
  destruct (tcf2_Enabled (gc_TCF2 cfg)); simpl; [|done].
  destruct (vc_meta pc) as [meta|]; simpl; [|done].
  split; [|done]. split_and!.
  - destruct (tcf2_Purpose2 _); [apply checkPurpose_weak|done].
  - destruct (tcf2_SpecialPurpose1 _); [|done]. rw orb_true_r andb_true_r andb_true_iff. by intros [].
  - apply (Hex (meta, v)).
Qed.

(** The user let the vendor [id] read and store on the device (purpose 1).
    Where the host has a rule for consent strings that treat purpose 1 apart,
    the rule decides.  Otherwise the publisher must not forbid it; by consent
    it takes the user's consent to the purpose and to the vendor, and a vendor
    that declares it; by legitimate interest the same of legitimate interests;
    the publisher may insist on one of the two. *)
Definition by_consent (meta : ConsentMetadata) (v : Vendor) (id : Z) : Prop :=
  PurposeAllowed meta 1 = true /\ Purpose v 1 = true /\ VendorConsent meta id = true.
Definition by_interest (meta : ConsentMetadata) (v : Vendor) (id : Z) : Prop :=
  PurposeLITransparency meta 1 = true /\ LegitimateInterest v 1 = true /\ VendorLegitInterest meta id = true.
Definition storage_allowed (t : TCF2) (meta : ConsentMetadata) (v : Vendor) (id : Z) : Prop :=
  if tcf2_PurposeOneTreatment_Enabled t && PurposeOneTreatment meta then tcf2_PurposeOneTreatment_AccessAllowed t = true
  else CheckPubRestriction meta 1 0 id = false /\
       match CheckPubRestriction meta 1 1 id, CheckPubRestriction meta 1 2 id with
       | true, _ => by_consent meta v id
       | false, true => by_interest meta v id
       | false, false => by_consent meta v id \/ by_interest meta v id
       end.
Lemma checkPurpose_storage cfg meta v id : checkPurpose cfg meta v id 1 false = true <-> storage_allowed (gc_TCF2 cfg) meta v id.
Proof.
  unfold checkPurpose, storage_allowed, by_consent, by_interest, InfoStorageAccess, pubRestrictNotAllowed,
    pubRestrictRequireConsent, pubRestrictRequireLegitInterest. cbn [Z.eqb Pos.eqb andb orb].
  destruct (_ && PurposeOneTreatment meta); [done|]. destruct (CheckPubRestriction meta 1 0 id); [by split; [|intros [? _]]|].
  destruct (CheckPubRestriction meta 1 1 id), (CheckPubRestriction meta 1 2 id); rw ?orb_true_iff !andb_true_iff; naive_solver.
Qed.

(** C26: when GDPR applies - the signal says so, or says nothing and the
    default does - a cookie sync is allowed exactly on the strength of a
    consent string: the string parses as TCF version 2, its vendor list names
    the bidder's vendor, and, unless purpose 1 enforcement is off, purpose 1
    passes the publisher's restrictions and the user's and vendor's choices, or
    the host's own rule where the string treats that purpose apart. *)
Theorem bidder_sync_requires_consent ParseString fetchVL cfg def vendorIDs bidder signal consent err
    (Hyes : signal <> 0%Z /\ (signal = -1 -> def <> 0)%Z) :
  impl_BidderSyncAllowed ParseString fetchVL cfg def vendorIDs bidder signal consent = (true, err) <->
  err = None /\ consent <> ""%string /\
  exists id pc vl v, vendorIDs !! bidder = Some id /\ ParseString consent = inl pc /\
    vc_Version pc = 2%Z /\ fetchVL (vc_VendorListVersion pc) = inl vl /\ vl_Vendor vl id = Some v /\
    (tcf2_Purpose1 (gc_TCF2 cfg) = true -> exists meta, vc_meta pc = Some meta /\ storage_allowed (gc_TCF2 cfg) meta v id).
Proof.
  unfold impl_BidderSyncAllowed. assert ((normalizeGDPR def signal =? SignalNo)%Z = false) as ->.
  { unfold normalizeGDPR, SignalAmbiguous, SignalNo, SignalYes. destruct (Z.eqb_spec signal (-1)), (Z.eqb_spec def 0); cbn; lia. }
  destruct (vendorIDs !! bidder) as [id|]; [|split; [done|]; by intros (_ & _ & ? & ? & ? & ? & ? & _)].
  unfold allowSync, parseVendor. destruct (GoStr.is_empty consent) eqn:Ee.
  { apply is_empty_true in Ee. split; [done|]. by intros (_ & ? & _). }
  apply is_empty_false in Ee. destruct (ParseString consent) as [pc|]; [|split; [done|]; by intros (_ & _ & ? & ? & ? & ? & _ & ? & _)].
  destruct (Z.eqb_spec (vc_Version pc) 2) as [Ev|Hv]; cbn [negb]; [|split; [done|]; intros (_ & _ & ? & ? & ? & ? & _ & [= <-] & ? & _); lia].
  destruct (fetchVL (vc_VendorListVersion pc)) as [vl|] eqn:Ef; [|split; [done|]; intros (_ & _ & ? & ? & ? & ? & _ & [= <-] & _ & ? & _); congruence].
  destruct (vl_Vendor vl id) as [v|] eqn:Evl.
  2: { split; [done|]. intros (_ & _ & id' & ? & ? & ? & [= <-] & [= <-] & _ & Hf & Hl & _). congruence. }
  split.
  - intros H. assert (err = None /\ (tcf2_Purpose1 (gc_TCF2 cfg) = true ->
      exists meta, vc_meta pc = Some meta /\ storage_allowed (gc_TCF2 cfg) meta v id)) as [-> Hp].
    { destruct (tcf2_Purpose1 (gc_TCF2 cfg)); cbn [negb] in H; [|by injection H as <-].
      destruct (vc_meta pc) as [meta|]; [|done]. injection H as Hc <-. split; [done|]. intros _. exists meta.
      split; [done|]. by apply checkPurpose_storage. }
    split_and!; [done|done|]. by exists id, pc, vl, v.
  - intros (-> & _ & id' & pc' & vl' & v' & [= <-] & [= <-] & _ & Hf & Hl & Hp).
    rw Ef in Hf. injection Hf as <-. rw Evl in Hl. injection Hl as <-.
    destruct (tcf2_Purpose1 (gc_TCF2 cfg)); cbn [negb]; [|done]. destruct (Hp eq_refl) as (meta & -> & Hs).
    apply checkPurpose_storage in Hs. change 1%Z with InfoStorageAccess in Hs. by rw Hs.
Qed.

Definition demo_meta : ConsentMetadata :=
  mkConsentMetadata false (fun _ _ _ => false) (fun p => (p =? 1)%Z) (fun v => (v =? 32)%Z)
    (fun _ => false) (fun _ => false) (fun _ => false).
Definition demo_gdpr_cfg : GdprConfig :=
  mkGdprConfig true "1" 0 ∅ (mkTCF2 true true true true false false).

(** The theorem for vendor 32 with consent for purpose 1. *)
Lemma bidder_sync_requires_consent_witness :
  impl_BidderSyncAllowed (fun _ => inl (mkVendorConsents 2 7 (Some demo_meta)))
    (fun _ => inl (mkVendorList 7 (fun _ => Some vendorTrue))) demo_gdpr_cfg SignalYes
    {["appnexus"%string := 32%Z]} "appnexus" SignalYes "CO..." = (true, None).
Proof.
  apply (bidder_sync_requires_consent (fun _ => inl (mkVendorConsents 2 7 (Some demo_meta)))
    (fun _ => inl (mkVendorList 7 (fun _ => Some vendorTrue))) demo_gdpr_cfg SignalYes
    {["appnexus"%string := 32%Z]} "appnexus" SignalYes "CO..." None); [split; discriminate|].
  split; [reflexivity|]. split; [discriminate|]. eexists 32%Z, _, _, _.
  split; [reflexivity|]. split; [reflexivity|]. split; [reflexivity|]. split; [reflexivity|]. split; [reflexivity|].
  intros _. exists demo_meta. split; [reflexivity|]. split; [reflexivity|]. left. split_and!; reflexivity.
Defined.

(** In an auction the consent string is not read: whatever the consent
    parser and the vendor list say, a request under GDPR from an ordinary
    publisher keeps geo and ids only when its consent is the text 1, is never
    withheld from a bidder, and never fails, even on a malformed string. *)
Theorem auction_activities_ignore_tcf ParseString fetchVL cfg vendorIDs bidder pub signal consent weak
    (Hen : gc_Enabled cfg = true) (Hpub : pub ∉ gc_NonStandardPublishers cfg)
    (Hsig : signal = SignalYes) :
  AuctionActivitiesAllowed (NewPermissions ParseString fetchVL cfg vendorIDs) bidder pub signal consent weak =
    (true, bool_decide (consent = "1"%string), bool_decide (consent = "1"%string), None).
Proof.
  subst signal. rw /NewPermissions Hen. cbn [negb].
  assert (forall def, impl_AuctionActivitiesAllowed cfg def bidder pub SignalYes consent weak =
    (true, bool_decide (consent = "1"%string), bool_decide (consent = "1"%string), None)) as Himpl.
  { intros def. rw /impl_AuctionActivitiesAllowed bool_decide_eq_false_2 //=.
    destruct (eqb_spec consent "1") as [->|Hne]; [done|]. by rw bool_decide_eq_false_2. }
  destruct (gc_HostVendorID cfg =? 0)%Z; apply Himpl.
Qed.

(** The theorem on a real TCF string. *)
Lemma auction_activities_ignore_tcf_witness :
  AuctionActivitiesAllowed (NewPermissions (fun _ => inl (mkVendorConsents 2 7 (Some demo_meta)))
    (fun _ => inl (mkVendorList 7 (fun _ => Some vendorTrue))) demo_gdpr_cfg {["appnexus"%string := 32%Z]})
    "appnexus" "pub" SignalYes "COzTVhaOzTVhaGvAAAENAiCIAP_AAH_AAAAAAEEUACCKAAA" true = (true, false, false, None).
Proof.
  apply (auction_activities_ignore_tcf (fun _ => inl (mkVendorConsents 2 7 (Some demo_meta)))
    (fun _ => inl (mkVendorList 7 (fun _ => Some vendorTrue))) demo_gdpr_cfg {["appnexus"%string := 32%Z]}
    "appnexus" "pub" SignalYes "COzTVhaOzTVhaGvAAAENAiCIAP_AAH_AAAAAAEEUACCKAAA" true);
    [reflexivity|set_solver|reflexivity].
Defined.

(** ** The vendor list cache *)
Definition Duration_Minutes (d : Z) : float64 :=
  F64.add (F64.of_Z (Z.quot d (60 * second)))
          (F64.div (F64.of_Z (Z.rem d (60 * second))) (F64.of_Z (60 * second))).

Definition vendorListURLMaker (vendorListVersion : Z) : string :=
  if (vendorListVersion =? 0)%Z then "https://vendor-list.consensu.org/v2/vendor-list.json"
  else "https://vendor-list.consensu.org/v2/archives/vendor-list-v" ⧺ GoStr.itoa vendorListVersion ⧺ ".json".

Record VendorCache := mkVendorCache { vca_lists : gmap Z VendorList; vca_lastSaved : Z }.

Section VendorListFetcher.
(** What a GET answers (status and body), and [vendorlist2.ParseEagerly]. *)
Context (ParseEagerly : string -> VendorList + error).
Definition World : Type := string -> (Z * (string + error)) + error.

Definition saveOne (http : World) (url : string) (lists : gmap Z VendorList) : Z * gmap Z VendorList :=
  match http url with
  | inr _ => (0%Z, lists)
  | inl (status, inr _) => (0%Z, lists)
  | inl (status, inl respBody) =>
      if negb (status =? 200)%Z then (0%Z, lists)
      else match ParseEagerly respBody with
           | inr _ => (0%Z, lists)
           | inl newList => (vl_Version newList, <[vl_Version newList := newList]> lists)
           end
  end.

(** The versions [2 .. latest - 1], each fetched in turn. *)
Definition preloadCache (http : World) (lists : gmap Z VendorList) : gmap Z VendorList :=
  let '(latestVersion, lists) := saveOne http (vendorListURLMaker 0) lists in
  fold_left (fun ls i => (saveOne http (vendorListURLMaker i) ls).2)
    (seqZ 2 (latestVersion - 2)) lists.

(** The rate-limited save; the flag tells whether it went to the network. *)
Definition occasionalSave (http : World) (now : Z) (url : string) (c : VendorCache) : bool * VendorCache :=
  let timeSinceLastSave := Time_Sub now (vca_lastSaved c) in
  if F64.gtb (Duration_Minutes timeSinceLastSave) (F64.of_Z 10)
  then (true, mkVendorCache (saveOne http url (vca_lists c)).2 now)
  else (false, c).

Definition fetchVendorList (http : World) (now vendorListVersion : Z) (c : VendorCache) :
  (VendorList + error) * bool * VendorCache :=
  match vca_lists c !! vendorListVersion with
  | Some list => (inl list, false, c)
  | None =>
      let '(net, c) := occasionalSave http now (vendorListURLMaker vendorListVersion) c in
      match vca_lists c !! vendorListVersion with
      | Some list => (inl list, net, c)
      | None =>
          (inr (EPlain ("gdpr vendor list version " ⧺ GoStr.itoa vendorListVersion ⧺
             " does not exist, or has not been loaded yet. Try again in a few minutes")), net, c)
      end
  end.

Definition newVendorListFetcher (http : World) : VendorCache :=
  mkVendorCache (preloadCache http ∅) zero_time.

(** A run of lookups: (time, state of the network, version asked). *)
Fixpoint fetch_run (c : VendorCache) (evs : list (Z * World * Z)) : list (Z * bool * (VendorList + error)) * VendorCache :=
  match evs with
  | [] => ([], c)
  | (now, http, v) :: rest =>
      let '(r, net, c) := fetchVendorList http now v c in
      let '(out, c) := fetch_run c rest in
      ((now, net, r) :: out, c)
  end.

(** Every cached list is filed under its own version. *)
Definition versions_ok (lists : gmap Z VendorList) : Prop :=
  map_Forall (fun v l => vl_Version l = v) lists.

Lemma saveOne_ok http url lists : versions_ok lists -> versions_ok (saveOne http url lists).2.
Proof.
  intros Hok. rw /saveOne. repeat case_match; simpl; try done. by apply map_Forall_insert_2.
Qed.

Lemma preload_ok http lists : versions_ok lists -> versions_ok (preloadCache http lists).
Proof.
  intros Hok. rw /preloadCache. destruct (saveOne _ _ lists) as [latest ls] eqn:E.
  assert (versions_ok ls) as Hls by (pose proof (saveOne_ok http (vendorListURLMaker 0) lists Hok) as H; by rw E in H).
  clear -Hls. revert ls Hls. induction (seqZ 2 (latest - 2)) as [|i zs IH]; simpl; [done|].
  intros ls Hls. by apply IH, saveOne_ok.
Qed.

(** The times at which a run went to the network. *)
Definition net_times (out : list (Z * bool * (VendorList + error))) : list Z :=
  omap (fun '(t, net, _) => if net : bool then Some t else None) out.

(** Consecutive network times are more than ten minutes apart. *)
Fixpoint spaced (last : Z) (ts : list Z) : Prop :=
  match ts with
  | [] => True
  | t :: rest => F64.gtb (Duration_Minutes (Time_Sub t last)) (F64.of_Z 10) = true /\ spaced t rest
  end.

Lemma fetch_step http now v c r net c' :
  versions_ok (vca_lists c) -> fetchVendorList http now v c = (r, net, c') ->
  versions_ok (vca_lists c') /\
  match r with inl l => vl_Version l = v | inr _ => True end /\
  (if net : bool
   then F64.gtb (Duration_Minutes (Time_Sub now (vca_lastSaved c))) (F64.of_Z 10) = true /\ vca_lastSaved c' = now
   else c' = c).
Proof.
  intros Hok. rw /fetchVendorList /occasionalSave.
  destruct (vca_lists c !! v) as [l|] eqn:El.
  { intros [= <- <- <-]. split; [done|]. split; [by apply Hok in El|done]. }
  destruct (F64.gtb _ _) eqn:Eg; simpl.
  - pose proof (saveOne_ok http (vendorListURLMaker v) _ Hok) as Hok'.
    destruct ((saveOne http (vendorListURLMaker v) (vca_lists c)).2 !! v) as [l|] eqn:El';
      intros [= <- <- <-]; split; try done. split; [by apply Hok' in El'|done].
  - rw El. by intros [= <- <- <-].
Qed.
End VendorListFetcher.

(** The vendor list fetcher, over any run of lookups from start-up and
    whatever the network answers, returns only lists of the version that was
    asked for, and goes to the network again only when more than ten minutes
    have passed since it last did. *)
Theorem vendor_fetcher_sound ParseEagerly http0 evs out c
    (Hrun : fetch_run ParseEagerly (newVendorListFetcher ParseEagerly http0) evs = (out, c)) :
  spaced zero_time (net_times out) /\
  Forall2 (fun ev o => match o.2 with inl l => vl_Version l = ev.2 | inr _ => True end) evs out.
Proof.
  assert (versions_ok (vca_lists (newVendorListFetcher ParseEagerly http0))) as Hok
    by by apply preload_ok.
  change zero_time with (vca_lastSaved (newVendorListFetcher ParseEagerly http0)).
  revert Hrun Hok. generalize (newVendorListFetcher ParseEagerly http0). revert out c.
  induction evs as [|[[now http] v] evs IH]; intros out c c0; simpl.
  - intros [= <- <-] _. by split; [|constructor].
  - destruct (fetchVendorList ParseEagerly http now v c0) as [[r net] c1] eqn:Ef.
    destruct (fetch_run ParseEagerly c1 evs) as [out' c2] eqn:Er.
    intros [= <- <-] Hok. destruct (fetch_step _ _ _ _ _ _ _ _ Hok Ef) as (Hok1 & Hv & Hnet).
    destruct (IH _ _ _ Er Hok1) as [Hsp Hall].
    split; [|by constructor]. cbn. destruct net; [|by subst c1].
    destruct Hnet as [? <-]. done.
Qed.

Definition demo_vl (v : Z) : VendorList := mkVendorList v (fun _ => None).

(** The theorem on two lookups a minute apart; only the first one downloads. *)
Lemma vendor_fetcher_sound_witness :
  let parse b := if GoStr.eqb b "l9" then inl (demo_vl 9) else inr (EPlain "bad") in
  let ask9 : World := fun _ => inl (200%Z, inl "l9"%string) in
  let down : World := fun _ => inr (EPlain "down") in
  exists out c, fetch_run parse (newVendorListFetcher parse down)
     [(0%Z, ask9, 9%Z); ((60 * second)%Z, ask9, 8%Z)] = (out, c) /\
   spaced zero_time (net_times out) /\ net_times out = [0%Z].
Proof.
  intros parse ask9 down. do 2 eexists. split; [reflexivity|]. split; [|vm_compute; reflexivity].
  eapply (vendor_fetcher_sound parse down [(0%Z, ask9, 9%Z); ((60 * second)%Z, ask9, 8%Z)]).
  reflexivity.
Defined.
