(* ===== verification/UserSync.v ===== *)
(** * The user sync cookie

    [usersync/cookie.go]: the cookie that stores a user's id for each bidder
    family.  The clock is an argument, in nanoseconds; the eviction loop reads
    it for every uid of every pass, so there it is a function of the number of
    readings.  The text of a cookie (base64 of JSON) and the text of a time are
    standard encodings, given by parameters with their round-trip laws; the
    length of the Set-Cookie header that the loop measures is a parameter too,
    and what is added to the header after that is written out. *)

From S2P Require Import Prelude Float64 ErrorTypes Json Codec Currency.

Record uidWithExpiry := mkUid { UID : string; Expires : Z }.
#[export] Instance uid_eq_dec : EqDecision uidWithExpiry.
Proof. solve_decision. Defined.

Record PBSCookie := mkCookie {
  ck_uids : gmap string uidWithExpiry; ck_optOut : bool; ck_birthday : option Z }.

Definition DEFAULT_TTL : Z := (14 * 24 * 3600 * second)%Z.
Definition BidderAudienceNetwork : string := "audienceNetwork".
Definition bidderToFamilyNames : gmap string string := {["appnexus"%string := "adnxs"%string]}.

Definition getExpiry (now : Z) (familyName : string) : Z := (now + DEFAULT_TTL)%Z.

Definition NewPBSCookie (now : Z) : PBSCookie := mkCookie ∅ false (Some now).
Definition NewPBSCookieWithOptOut (now : Z) : PBSCookie := mkCookie ∅ true (Some now).

Definition AllowSyncs (cookie : PBSCookie) : bool := negb (ck_optOut cookie).

Definition SetPreference (cookie : PBSCookie) (allow : bool) : PBSCookie :=
  if allow then mkCookie (ck_uids cookie) false (ck_birthday cookie)
  else mkCookie ∅ true (ck_birthday cookie).

Definition GetUID (cookie : PBSCookie) (now : Z) (familyName : string) : string * bool * bool :=
  match ck_uids cookie !! familyName with
  | Some uid => (UID uid, true, (now <? Expires uid)%Z)
  | None => (""%string, false, false)
  end.

Definition GetUIDs (cookie : PBSCookie) : gmap string string := UID <$> ck_uids cookie.

Definition GetId (cookie : PBSCookie) (bidderName : string) : string * bool :=
  let familyName := match bidderToFamilyNames !! bidderName with Some f => f | None => bidderName end in
  let '(id, exists_, _) := GetUID cookie 0 familyName in (id, exists_).

Definition Unsync (cookie : PBSCookie) (familyName : string) : PBSCookie :=
  mkCookie (delete familyName (ck_uids cookie)) (ck_optOut cookie) (ck_birthday cookie).

Definition HasLiveSync (cookie : PBSCookie) (now : Z) (familyName : string) : bool :=
  let '(_, _, isLive) := GetUID cookie now familyName in isLive.

Definition LiveSyncCount (cookie : PBSCookie) (now : Z) : nat :=
  size (filter (fun kv => (now < Expires kv.2)%Z) (ck_uids cookie)).

Definition TrySync (cookie : PBSCookie) (now : Z) (familyName uid : string) : PBSCookie * option error :=
  if negb (AllowSyncs cookie) then
    (cookie, Some (EPlain "The user has opted out of prebid server PBSCookie syncs."))
  else if GoStr.eqb familyName BidderAudienceNetwork && GoStr.eqb uid "0" then
    (cookie, Some (EPlain ("audienceNetwork uses a UID of 0 as " ⧺ GoStr.quoted "not yet recognized" ⧺ ".")))
  else (mkCookie (<[familyName := mkUid uid (getExpiry now familyName)]> (ck_uids cookie))
          (ck_optOut cookie) (ck_birthday cookie), None).

(** ** Storage format *)
Section Storage.
(** [time.Time]'s JSON text. *)
Context (fmt_time : Z -> string) (parse_time : string -> option Z).

Definition dec_time : decoder Z := fun j =>
  match j with JStr s => parse_time s | JNull => Some zero_time | _ => None end.
Definition dec_uid : decoder uidWithExpiry := dec_struct (fun kvs =>
  u ← dec_field dec_string ""%string "uid" kvs;
  e ← dec_field dec_time zero_time "expires" kvs;
  Some (mkUid u e)).
Definition enc_uid (u : uidWithExpiry) : json :=
  JObj [("uid"%string, JStr (UID u)); ("expires"%string, JStr (fmt_time (Expires u)))].

(** [pbsCookieJson]. *)
Record pbsCookieJson := mkCookieJson {
  cj_LegacyUIDs : option (gmap string string); cj_UIDs : option (gmap string uidWithExpiry);
  cj_OptOut : bool; cj_Birthday : option Z }.
Definition dec_cookie_json : decoder pbsCookieJson := dec_struct (fun kvs =>
  l ← dec_field (dec_map dec_string) None "uids" kvs;
  u ← dec_field (dec_map dec_uid) None "tempUIDs" kvs;
  o ← dec_field dec_bool false "optout" kvs;
  b ← dec_field (dec_ptr dec_time) None "bday" kvs;
  Some (mkCookieJson l u o b)).

Definition Cookie_MarshalJSON (cookie : PBSCookie) : json :=
  JObj (omitempty (bool_decide (ck_uids cookie = ∅)) "tempUIDs" (map_json (enc_uid <$> ck_uids cookie)) ++
        omitempty (negb (ck_optOut cookie)) "optout" (JBool (ck_optOut cookie)) ++
        match ck_birthday cookie with
        | None => []
        | Some b => [("bday"%string, JStr (fmt_time b))]
        end).

(** Legacy uids count as expired five minutes ago. *)
Definition legacy_expiry (now : Z) : Z := (now - 5 * 60 * second)%Z.
Definition Cookie_UnmarshalJSON (cookie : PBSCookie) (now : Z) (b : RawMessage) :
  PBSCookie * option error :=
  match unmarshal dec_cookie_json b with
  | inr err => (cookie, Some err)
  | inl contract =>
      if cj_OptOut contract then (mkCookie ∅ (cj_OptOut contract) (cj_Birthday contract), None)
      else
        let uids := default ∅ (cj_UIDs contract) in
        let uids := uids ∪ ((fun uid => mkUid uid (legacy_expiry now)) <$> map_or_empty (cj_LegacyUIDs contract)) in
        let uids := match uids !! BidderAudienceNetwork with
                    | Some id => if GoStr.eqb (UID id) "0" then delete BidderAudienceNetwork uids else uids
                    | None => uids
                    end in
        (mkCookie uids (cj_OptOut contract) (cj_Birthday contract), None)
  end.

(** ** HTTP *)
(** The value of a cookie for some JSON, and back. *)
Context (encode : json -> string) (decode : string -> option RawMessage).

Definition ParsePBSCookie (now : Z) (uidCookie : string) : PBSCookie :=
  let pc := NewPBSCookie now in
  match decode uidCookie with
  | None => pc
  | Some j => (Cookie_UnmarshalJSON pc now j).1
  end.

Record HostCookie := mkHostCookie {
  hc_Domain : string; hc_Family : string; hc_CookieName : string;
  hc_OptOutName : string; hc_OptOutValue : string; hc_MaxCookieSizeBytes : Z }.

(** [r.Cookie] is the lookup function of the request. *)
Definition ParsePBSCookieFromRequest (now : Z) (r : string -> option string) (cookie : HostCookie) : PBSCookie :=
  let optedOut :=
    if GoStr.is_empty (hc_OptOutName cookie) then false
    else match r (hc_OptOutName cookie) with
         | Some value => GoStr.eqb value (hc_OptOutValue cookie)
         | None => false
         end in
  if optedOut then SetPreference (NewPBSCookie now) false
  else
    let parsed := match r "uids"%string with
                  | Some uidCookie => ParsePBSCookie now uidCookie
                  | None => NewPBSCookie now
                  end in
    let '(uid, _, _) := GetUID parsed now (hc_Family cookie) in
    if GoStr.is_empty uid && negb (GoStr.is_empty (hc_CookieName cookie)) then
      match r (hc_CookieName cookie) with
      | Some hostCookie => (TrySync parsed now (hc_Family cookie) hostCookie).1
      | None => parsed
      end
    else parsed.

Definition ToHTTPCookie (cookie : PBSCookie) : string := encode (Cookie_MarshalJSON cookie).
End Storage.

(** ** Fitting the cookie into a response *)
Section Eviction.
(** The length of the Set-Cookie header for a cookie value, as the loop measures
    it, the order in which a pass visits the uids, and the clock at each of its
    readings. *)
Context (header_size : PBSCookie -> Z).
Context (order : gmap string uidWithExpiry -> list (string * uidWithExpiry)).
Context (clock : nat -> Z) (maxSize : Z).

Definition set_uids (c : PBSCookie) (m : gmap string uidWithExpiry) : PBSCookie :=
  mkCookie m (ck_optOut c) (ck_birthday c).

(** [time.Until] at the reading [n]. *)
Definition until (n : nat) (u : uidWithExpiry) : Z := Time_Sub (Expires u) (clock n).

(** The inner loop: the uid closest to its expiry. *)
Definition oldest_step (n : nat) (acc : string * Z) (kv : string * uidWithExpiry) : string * Z :=
  if (until n kv.2 <? acc.2)%Z then (kv.1, until n kv.2) else acc.
Fixpoint oldest_loop (n : nat) (acc : string * Z) (l : list (string * uidWithExpiry)) : string * Z :=
  match l with
  | [] => acc
  | kv :: rest => oldest_loop (S n) (oldest_step n acc kv) rest
  end.
Definition oldestElem (n : nat) (l : list (string * uidWithExpiry)) : string :=
  (oldest_loop n (""%string, Int64.max_value) l).1.

Definition too_big (cookie : PBSCookie) : bool :=
  (0 <? maxSize)%Z && (maxSize <? header_size cookie)%Z && bool_decide (ck_uids cookie <> ∅).

(** The eviction loop, after [n] readings of the clock; [None] when [fuel]
    passes are not enough. *)
Fixpoint evict (fuel n : nat) (cookie : PBSCookie) : option PBSCookie :=
  if too_big cookie then
    match fuel with
    | O => None
    | S fuel' =>
        let l := order (ck_uids cookie) in
        evict fuel' (n + length l) (set_uids cookie (delete (oldestElem n l) (ck_uids cookie)))
    end
  else Some cookie.

(** A Set-Cookie header: name, value, and whether it is secure with
    SameSite=None. *)
Record SetCookieHeader := mkSetCookie { sch_Name : string; sch_Value : string; sch_SameSiteNone : bool }.

(** [encode] is [ToHTTPCookie]'s value. *)
Definition SetCookieOnResponse (encode : PBSCookie -> string) (fuel : nat) (cookie : PBSCookie)
    (setSiteCookie : bool) : option (PBSCookie * list SetCookieHeader) :=
  match evict fuel 0 cookie with
  | None => None
  | Some cookie =>
      Some (cookie,
        (if setSiteCookie then [mkSetCookie "SSCookie" "1" true] else []) ++
        [mkSetCookie "uids" (encode cookie) setSiteCookie])
  end.

(** The length of the header that is sent: the attributes of a site cookie come
    after the measuring. *)
Definition SameSiteAttribute : string := "; SameSite=None".
Definition sent_size (cookie : PBSCookie) (setSiteCookie : bool) : Z :=
  (header_size cookie + if setSiteCookie then Z.of_nat (GoStr.len ("; Secure" ⧺ SameSiteAttribute)) else 0)%Z.
End Eviction.

(** ** Invariant

    A user who opted out has no uids, and the sentinel id of audienceNetwork
    is never stored. *)
Definition cookie_ok (c : PBSCookie) : Prop :=
  (ck_optOut c = true -> ck_uids c = ∅) /\
  (forall u, ck_uids c !! BidderAudienceNetwork = Some u -> UID u <> "0"%string).

(** What the program does with a cookie once it has it. *)
Inductive cookie_step : PBSCookie -> PBSCookie -> Prop :=
  | step_pref c allow : cookie_step c (SetPreference c allow)
  | step_sync c now family uid : cookie_step c (TrySync c now family uid).1
  | step_unsync c family : cookie_step c (Unsync c family)
  | step_write c c' size order clock maxSize fuel n :
      evict size order clock maxSize fuel n c = Some c' -> cookie_step c c'.

Lemma cookie_ok_sub c m :
  cookie_ok c -> m ⊆ ck_uids c -> cookie_ok (set_uids c m).
Proof.
  intros [Hopt Han] Hsub. split; simpl.
  - intros Ho. rw (Hopt Ho) in Hsub. apply map_empty. intros i. destruct (m !! i) eqn:E; [|done]. by eapply lookup_weaken in E; [|exact Hsub].
  - intros u Hu. apply Han. by eapply lookup_weaken.
Qed.

Lemma evict_sub size order clock maxSize fuel n c c' :
  evict size order clock maxSize fuel n c = Some c' ->
  exists m, m ⊆ ck_uids c /\ c' = set_uids c m.
Proof.
  revert n c. induction fuel as [|fuel IH]; intros n c; simpl; destruct (too_big _ _ c); try done;
    try by (intros [= <-]; exists (ck_uids c); split; [done|by destruct c]).
  intros (m & Hm & ->)%IH. exists m. split; [|done]. simpl in Hm.
  etrans; [exact Hm|]. apply delete_subseteq.
Qed.

Lemma cookie_step_ok c c' : cookie_ok c -> cookie_step c c' -> cookie_ok c'.
Proof.
  intros Hok. destruct 1 as [c allow|c now family uid|c family|c c' size order clock maxSize fuel n He].
  - destruct Hok as [Hopt Han]. by destruct allow; split; simpl.
  - rw /TrySync /AllowSyncs. destruct (ck_optOut c) eqn:Eo; simpl; [done|].
    destruct (eqb_spec family BidderAudienceNetwork) as [->|Hf];
      destruct (eqb_spec uid "0") as [->|Hu]; simpl; try done; destruct Hok as [Hopt Han];
      (split; simpl; [done|]); intros u.
    + rw lookup_insert_eq. by intros [= <-].
    + rw lookup_insert_ne //. apply Han.
    + rw lookup_insert_ne //. apply Han.
  - apply (cookie_ok_sub c); [done|]. apply delete_subseteq.
  - destruct (evict_sub _ _ _ _ _ _ _ _ He) as (m & Hm & ->). by apply cookie_ok_sub.
Qed.

Lemma unmarshal_ok parse_time c now b : cookie_ok c -> cookie_ok (Cookie_UnmarshalJSON parse_time c now b).1.
Proof.
  intros Hok. rw /Cookie_UnmarshalJSON. destruct (unmarshal _ b) as [ct|]; [|done].
  destruct (cj_OptOut ct); [done|]. split; [done|]. simpl.
  set (uids := default ∅ (cj_UIDs ct) ∪ _).
  destruct (uids !! BidderAudienceNetwork) as [id|] eqn:E; [|intros u; by rw E].
  destruct (eqb_spec (UID id) "0") as [|Hne]; intros u; [by rw lookup_delete_eq|].
  rw E. by intros [= <-].
Qed.

Lemma parse_request_ok parse_time decode now r cfg :
  cookie_ok (ParsePBSCookieFromRequest parse_time decode now r cfg).
Proof.
  rw /ParsePBSCookieFromRequest. destruct (if GoStr.is_empty _ then _ else _); [done|].
  assert (cookie_ok (match r "uids"%string with
    | Some uidCookie => ParsePBSCookie parse_time decode now uidCookie
    | None => NewPBSCookie now end)) as Hp.
  { destruct (r "uids"%string) as [v|]; [|done]. rw /ParsePBSCookie.
    destruct (decode v) as [j|]; [|done]. by apply unmarshal_ok. }
  set (parsed := match r "uids"%string with Some _ => _ | None => _ end) in *.
  destruct (GetUID parsed now (hc_Family cfg)) as [[uid ?] ?].
  destruct (_ && _); [|done]. destruct (r (hc_CookieName cfg)) as [h|]; [|done].
  eapply cookie_step_ok; [exact Hp|constructor].
Qed.

(** How a user opts out: with the host's opt-out cookie, or with a readable
    sync cookie that says so. *)
Definition opt_out_cookie (r : string -> option string) (cfg : HostCookie) : Prop :=
  hc_OptOutName cfg <> ""%string /\ r (hc_OptOutName cfg) = Some (hc_OptOutValue cfg).
Definition stored_opt_out (parse_time : string -> option Z) (decode : string -> option RawMessage) (r : string -> option string) : Prop :=
  exists value kvs, r "uids"%string = Some value /\ decode value = Some (RawJson (JObj kvs)) /\
    is_Some (dec_cookie_json parse_time (JObj kvs)) /\ dec_field dec_bool false "optout" kvs = Some true.

Lemma optout_member parse_time kvs contract : dec_cookie_json parse_time (JObj kvs) = Some contract ->
  dec_field dec_bool false "optout" kvs = Some (cj_OptOut contract).
Proof.
  unfold dec_cookie_json, dec_struct. destruct (dec_field _ _ "uids" kvs); cbn [mbind option_bind]; [|done].
  destruct (dec_field _ _ "tempUIDs" kvs); cbn [mbind option_bind]; [|done].
  destruct (dec_field _ _ "optout" kvs); cbn [mbind option_bind]; [|done].
  destruct (dec_field _ _ "bday" kvs); cbn [mbind option_bind]; [|done]. by intros [= <-].
Qed.
Lemma sync_optout c now family uid : ck_optOut (TrySync c now family uid).1 = ck_optOut c.
Proof. unfold TrySync. destruct (negb _); [done|]. by destruct (_ && _). Qed.
Lemma read_optout parse_time decode now r : stored_opt_out parse_time decode r <->
  ck_optOut (match r "uids"%string with
             | Some uidCookie => ParsePBSCookie parse_time decode now uidCookie
             | None => NewPBSCookie now
             end) = true.
Proof.
  unfold stored_opt_out, ParsePBSCookie, Cookie_UnmarshalJSON, unmarshal. split.
  - intros (value & kvs & -> & -> & [contract Hc] & Ho). rw (optout_member _ _ _ Hc) in Ho. injection Ho as Ho. by rw Hc Ho.
  - destruct (r "uids"%string) as [value|]; [|done]. destruct (decode value) as [j|] eqn:Ed; [|done].
    destruct j as [| | |j]; try done. destruct (dec_cookie_json parse_time j) as [contract|] eqn:Ec; [|done].
    destruct (cj_OptOut contract) eqn:Eo; [|done]. intros _.
    destruct j as [| | | | |kvs]; try done; [by injection Ec as <-|]. exists value, kvs. split_and!; [done|done|by eexists|].
    by rw (optout_member _ _ _ Ec) Eo.
Qed.
Lemma parsed_optout parse_time decode now r cfg :
  ck_optOut (ParsePBSCookieFromRequest parse_time decode now r cfg) = true <-> opt_out_cookie r cfg \/ stored_opt_out parse_time decode r.
Proof.
  rw (read_optout _ _ now). unfold ParsePBSCookieFromRequest, opt_out_cookie.
  set (parsed := match r "uids"%string with Some _ => _ | None => _ end).
  assert (forall b : bool, b = true <-> (hc_OptOutName cfg <> ""%string /\ r (hc_OptOutName cfg) = Some (hc_OptOutValue cfg)) ->
    ck_optOut (if b then SetPreference (NewPBSCookie now) false else
      let '(uid, _, _) := GetUID parsed now (hc_Family cfg) in
      if GoStr.is_empty uid && negb (GoStr.is_empty (hc_CookieName cfg)) then
        match r (hc_CookieName cfg) with Some hostCookie => (TrySync parsed now (hc_Family cfg) hostCookie).1 | None => parsed end
      else parsed) = true <->
    (hc_OptOutName cfg <> ""%string /\ r (hc_OptOutName cfg) = Some (hc_OptOutValue cfg)) \/ ck_optOut parsed = true) as Hb.
  { intros [|] Hb; [split; [by left; apply Hb|done]|]. destruct (GetUID parsed now (hc_Family cfg)) as [[uid ?] ?].
    assert (~ (hc_OptOutName cfg <> ""%string /\ r (hc_OptOutName cfg) = Some (hc_OptOutValue cfg))) by (intros H; by apply Hb in H).
    destruct (_ && _); [destruct (r (hc_CookieName cfg)); [rw sync_optout|]|]; tauto. }
  apply Hb. destruct (GoStr.is_empty (hc_OptOutName cfg)) eqn:En.
  - apply is_empty_true in En. split; [done|]. by intros [? _].
  - apply is_empty_false in En. destruct (r (hc_OptOutName cfg)) as [value|]; [|split; [done|by intros [_ ?]]].
    rw /GoStr.eqb String.eqb_eq. split; [by intros ->|]. by intros [_ [= ->]].
Qed.

(** C35: whatever cookies a request carries: the sync cookie read from it is
    that of a user who opted out exactly when the request has the host's
    opt-out cookie or a stored cookie that says so, and then it has no uid and
    takes none; and it, and every cookie the program makes from it by changing
    the preference, syncing, unsyncing and evicting, holds no uid of a user who
    opted out and never the sentinel id 0 of audienceNetwork. *)
Theorem cookie_invariant parse_time decode now r cfg c
    (Hreach : rtc cookie_step (ParsePBSCookieFromRequest parse_time decode now r cfg) c) :
  (ck_optOut (ParsePBSCookieFromRequest parse_time decode now r cfg) = true <->
     opt_out_cookie r cfg \/ stored_opt_out parse_time decode r) /\
  (opt_out_cookie r cfg \/ stored_opt_out parse_time decode r ->
     ck_uids (ParsePBSCookieFromRequest parse_time decode now r cfg) = ∅ /\
     forall now' family uid, is_Some (TrySync (ParsePBSCookieFromRequest parse_time decode now r cfg) now' family uid).2 /\
       (TrySync (ParsePBSCookieFromRequest parse_time decode now r cfg) now' family uid).1 =
         ParsePBSCookieFromRequest parse_time decode now r cfg) /\
  (ck_optOut c = true -> ck_uids c = ∅) /\
  (forall u, ck_uids c !! "audienceNetwork"%string = Some u -> UID u <> "0"%string).
Proof.
  split; [apply parsed_optout|]. split.
  - intros Ho%(parsed_optout _ _ now). split; [by apply parse_request_ok|]. intros now' family uid. unfold TrySync, AllowSyncs. by rw Ho.
  - assert (forall c0, rtc cookie_step c0 c -> cookie_ok c0 -> cookie_ok c) as Hrtc.
    { intros c0. induction 1; eauto using cookie_step_ok. }
    eapply Hrtc; [exact Hreach|apply parse_request_ok].
Qed.

(** The theorem for a stored opt-out and a host cookie, which is not taken. *)
Lemma cookie_invariant_witness :
  let cfg := mkHostCookie "" "audienceNetwork" "fbuid" "" "" 0 in
  let r := fun n => if GoStr.eqb n "fbuid" then Some "7"%string else if GoStr.eqb n "uids" then Some "v"%string else None in
  let decode := fun _ : string => Some (RawJson (JObj [("optout"%string, JBool true)])) in
  let c := ParsePBSCookieFromRequest (fun _ => None) decode 0 r cfg in
  ck_optOut c = true /\ ck_uids c = ∅ /\ (ck_optOut (SetPreference c false) = true -> ck_uids (SetPreference c false) = ∅).
Proof.
  intros cfg r decode c.
  destruct (cookie_invariant (fun _ => None) decode 0 r cfg (SetPreference c false)) as (Hiff & Hnone & Hopt & _).
  { eapply rtc_l; [apply (step_pref _ false)|apply rtc_refl]. }
  assert (opt_out_cookie r cfg \/ stored_opt_out (fun _ => None) decode r) as Ho.
  { right. exists "v"%string, [("optout"%string, JBool true)]. split; [reflexivity|]. split; [reflexivity|].
    split; [vm_compute; eexists; reflexivity|reflexivity]. }
  split; [apply Hiff; exact Ho|]. split; [apply (Hnone Ho)|exact Hopt].
Defined.

(** ** Round trip *)
Section RoundTrip.
Context (fmt_time : Z -> string) (parse_time : string -> option Z).
Hypothesis time_roundtrip : forall t, parse_time (fmt_time t) = Some t.

Lemma uid_roundtrip u : dec_uid parse_time (enc_uid fmt_time u) = Some u.
Proof. destruct u. by rw /dec_uid /enc_uid /dec_struct /dec_field /= time_roundtrip. Qed.

Lemma uids_roundtrip (m : gmap string uidWithExpiry) :
  dec_map (dec_uid parse_time) (map_json (enc_uid fmt_time <$> m)) = Some (Some m).
Proof. apply (dec_map_enc _ _ always); [by intros u _; apply uid_roundtrip|by intros ?]. Qed.

Lemma contract_roundtrip c :
  dec_cookie_json parse_time (Cookie_MarshalJSON fmt_time c) =
    Some (mkCookieJson None (if bool_decide (ck_uids c = ∅) then None else Some (ck_uids c))
            (ck_optOut c) (ck_birthday c)).
Proof.
  rw /Cookie_MarshalJSON /dec_cookie_json /dec_struct.
  pose proof (uids_roundtrip (ck_uids c)) as Hu.
  set (j := map_json _) in *. clearbody j.
  destruct (bool_decide (ck_uids c = ∅)), (ck_optOut c), (ck_birthday c) as [b|];
    rw /dec_field /omitempty /= ?Hu /= ?time_roundtrip //.
Qed.
End RoundTrip.

(** A cookie that satisfies the invariant survives being written to its
    storage format and read back, whatever the cookie it is read into:
    preference, birthday and every uid with its expiry come back. *)
Theorem cookie_roundtrip fmt_time parse_time c c0 now
    (time_roundtrip : forall t, parse_time (fmt_time t) = Some t) (Hok : cookie_ok c) :
  Cookie_UnmarshalJSON parse_time c0 now (RawJson (Cookie_MarshalJSON fmt_time c)) = (c, None).
Proof.
  rw /Cookie_UnmarshalJSON /unmarshal (contract_roundtrip _ _ time_roundtrip). cbn.
  destruct Hok as [Hopt Han]. destruct c as [uids [] bday]; simpl in *.
  { by rw Hopt. }
  assert (default ∅ (if bool_decide (uids = ∅) then None else Some uids) = uids) as ->.
  { by case_bool_decide. }
  rw fmap_empty right_id_L. destruct (uids !! BidderAudienceNetwork) as [id|] eqn:E; [|done].
  destruct (eqb_spec (UID id) "0") as [H0|]; [|done]. by apply Han in H0.
Qed.

(** A codec for times in unary, enough for a concrete run. *)
Definition unary_fmt (t : Z) : string := Nat.iter (Pos.to_nat (countable.encode t)) (String "x") ""%string.
Definition unary_parse (s : string) : option Z := countable.decode (Pos.of_nat (GoStr.len s)).

Lemma unary_time t : unary_parse (unary_fmt t) = Some t.
Proof.
  rw /unary_parse /unary_fmt.
  assert (forall n, GoStr.len (Nat.iter n (String "x") ""%string) = n) as ->
    by (intros n; rw /GoStr.len; induction n as [|n IH]; simpl; congruence).
  by rw Pos2Nat.id countable.decode_encode.
Qed.

(** The theorem for one synced family. *)
Lemma cookie_roundtrip_witness :
  let c := mkCookie {["adnxs"%string := mkUid "abc" 1234]} false (Some 7%Z) in
  cookie_ok c /\
  Cookie_UnmarshalJSON unary_parse (NewPBSCookie 0) 5 (RawJson (Cookie_MarshalJSON unary_fmt c)) = (c, None).
Proof.
  intros c. assert (cookie_ok c) as Hok.
  { split; [done|]. intros u Hu. vm_compute in Hu. discriminate Hu. }
  split; [exact Hok|]. apply (cookie_roundtrip unary_fmt unary_parse c (NewPBSCookie 0) 5 unary_time Hok).
Defined.

(** ** Eviction *)
(** The time that a uid has left at some time. *)
Definition left_at (t : Z) (u : uidWithExpiry) : Z := Time_Sub (Expires u) t.
(** What the loop has done when it stops, for readings between two times: a
    uid that it dropped had at the later one no more time left than any uid
    that it kept had at the earlier one. *)
Definition evicted_oldest (lo hi : Z) (m m' : gmap string uidWithExpiry) : Prop :=
  m' ⊆ m /\ forall k u k' u', m !! k = Some u -> m' !! k = None -> m' !! k' = Some u' ->
    (left_at hi u <= left_at lo u')%Z.
(** No more is dropped than must be: with the last uid that was dropped the
    header was still too long. *)
Definition needed (header_size : PBSCookie -> Z) (maxSize : Z) (c c' : PBSCookie) : Prop :=
  ck_uids c' = ck_uids c \/
  exists k u, ck_uids c !! k = Some u /\ ck_uids c' !! k = None /\
    (maxSize < header_size (mkCookie (<[k := u]> (ck_uids c')) (ck_optOut c) (ck_birthday c)))%Z.
(** Every uid expires within the range of a duration. *)
Definition expiries_finite (lo : Z) (m : gmap string uidWithExpiry) : Prop :=
  map_Forall (fun _ u => (left_at lo u < Int64.max_value)%Z) m.

Section EvictionFacts.
Context (header_size : PBSCookie -> Z).
Context (order : gmap string uidWithExpiry -> list (string * uidWithExpiry)).
Context (clock : nat -> Z) (maxSize lo hi : Z).
Hypothesis order_ok : forall m, map_range m (order m).
Hypothesis clock_ok : forall n, (lo <= clock n <= hi)%Z.

Lemma until_between n u : (left_at hi u <= until clock n u <= left_at lo u)%Z.
Proof. unfold left_at, until, Time_Sub. pose proof (clock_ok n). lia. Qed.

(** The inner loop keeps the smallest remaining time seen so far. *)
Lemma oldest_fold l n acc k d :
  oldest_loop clock n acc l = (k, d) ->
  (d <= acc.2)%Z /\ (forall kv, kv ∈ l -> (d <= left_at lo kv.2)%Z) /\
  ((k, d) = acc \/ exists kv, kv ∈ l /\ kv.1 = k /\ (left_at hi kv.2 <= d)%Z).
Proof.
  revert n acc. induction l as [|kv l IH]; intros n acc; simpl.
  - intros ->. split; [simpl; lia|]. split; [|by left]. intros ?. by rw elem_of_nil.
  - intros (Hle & Hall & Hor)%IH. rw /oldest_step in Hle, Hor. pose proof (until_between n kv.2).
    destruct (Z.ltb_spec (until clock n kv.2) acc.2) as [Hlt|Hge]; simpl in *.
    + split; [lia|]. split; [|right; destruct Hor as [[= -> ->]|(kv' & ? & ? & ?)]; [exists kv; split_and!; [by left|done|lia]|]].
      * intros kv' [->|Hin]%elem_of_cons; [lia|by apply Hall].
      * exists kv'. split_and!; [by right|done|done].
    + split; [lia|]. split; [|destruct Hor as [?|(kv' & ? & ? & ?)]; [by left|right; exists kv'; split_and!; [by right|done|done]]].
      intros kv' [->|Hin]%elem_of_cons; [lia|by apply Hall].
Qed.

Lemma oldest_spec n m :
  m <> ∅ -> expiries_finite lo m ->
  exists u, m !! oldestElem clock n (order m) = Some u /\
    forall k v, m !! k = Some v -> (left_at hi u <= left_at lo v)%Z.
Proof.
  intros Hne Hfin. rw /oldestElem.
  destruct (oldest_loop clock n (""%string, Int64.max_value) (order m)) as [k d] eqn:E.
  apply oldest_fold in E as (Hle & Hall & Hor). simpl.
  apply map_choose in Hne as (k0 & u0 & H0).
  assert (d <= left_at lo u0)%Z as Hd.
  { apply (Hall (k0, u0)). by apply (map_range_elem m). }
  pose proof (Hfin _ _ H0) as Hlt. simpl in Hlt.
  destruct Hor as [[= -> ->]|([k' u] & Hin & Hk & Hu)]; [lia|]. simpl in *. subst k'.
  apply (map_range_elem m) in Hin; [|done]. exists u. split; [done|].
  intros k' v Hv. etrans; [exact Hu|]. apply (Hall (k', v)). by apply (map_range_elem m).
Qed.

Lemma evict_spec fuel n c :
  size (ck_uids c) <= fuel -> expiries_finite lo (ck_uids c) ->
  exists c', evict header_size order clock maxSize fuel n c = Some c' /\
    too_big header_size maxSize c' = false /\ c' = set_uids c (ck_uids c') /\
    evicted_oldest lo hi (ck_uids c) (ck_uids c') /\ needed header_size maxSize c c'.
Proof.
  revert n c. induction fuel as [|fuel IH]; intros n c Hsz Hfin; simpl.
  - assert (ck_uids c = ∅) as He by (apply map_size_empty_inv; lia).
    exists c. assert (too_big header_size maxSize c = false) as Ht.
    { assert (bool_decide (ck_uids c <> ∅) = false) as Hd by (apply bool_decide_eq_false_2; tauto).
      by rw /too_big Hd andb_false_r. }
    rw Ht. split_and!; try done; [by destruct c| |by left]. split; [done|]. intros k u k' u' Hk Hn. congruence.
  - destruct (too_big header_size maxSize c) eqn:Ht.
    + assert (ck_uids c <> ∅) as Hne.
      { rw /too_big !andb_true_iff bool_decide_eq_true in Ht. tauto. }
      destruct (oldest_spec n _ Hne Hfin) as (u0 & Hu0 & Hmin).
      set (k0 := oldestElem clock n (order (ck_uids c))) in *.
      destruct (IH (n + length (order (ck_uids c))) (set_uids c (delete k0 (ck_uids c)))) as (c' & He & Hb & Hc & [Hsub Hold] & Hneed).
      * simpl. rw (map_size_delete_Some _ _ (mk_is_Some _ _ Hu0)). lia.
      * simpl. by apply map_Forall_delete.
      * exists c'. simpl in Hsub, Hold. split_and!; try done; [|right].
        2: { destruct Hneed as [Hsame|(k & u & Hk & Hn & Hlt)].
             - exists k0, u0. rw Hsame. cbn. rw lookup_delete_eq insert_delete_eq insert_id //. split_and!; [done|done|].
               rw /too_big !andb_true_iff in Ht. destruct c. cbn in *. lia.
             - exists k, u. cbn in *. by apply lookup_delete_Some in Hk as [_ Hk]. }
        split. { etrans; [exact Hsub|]. apply delete_subseteq. }
        intros k u k' u' Hk Hn Hk'.
        destruct (decide (k = k0)) as [->|Hkne].
        { rw Hu0 in Hk. injection Hk as <-. apply (Hmin k').
          eapply lookup_weaken in Hk'; [|exact Hsub]. by apply lookup_delete_Some in Hk' as []. }
        eapply Hold; [|exact Hn|exact Hk']. by rw lookup_delete_ne.
    + exists c. split_and!; try done; [by destruct c| |by left]. split; [done|].
      intros k u k' u' Hk Hn. congruence.
Qed.
End EvictionFacts.

(** A uid whose remaining time saturates is never chosen. *)
Lemma oldest_saturated clock n (l : list (string * uidWithExpiry)) acc :
  (forall kv i, kv ∈ l -> until clock i kv.2 = Int64.max_value) -> (acc.2 <= Int64.max_value)%Z -> oldest_loop clock n acc l = acc.
Proof.
  revert n acc. induction l as [|kv l IH]; intros n acc Hl Hle; simpl; [done|].
  assert (oldest_step clock n acc kv = acc) as ->.
  { rw /oldest_step (Hl kv n); [by left|]. by assert ((Int64.max_value <? acc.2)%Z = false) as -> by lia. }
  apply IH; [|done]. intros kv' i Hin. apply Hl. by right.
Qed.

(** C37: fitting the cookie under a positive size limit terminates, after at
    most as many passes as there are uids, when every uid expires within 292
    years, whatever the clock reads at each uid; the result is a part of the
    cookie, its header as it is measured fits or it is empty, it was too long
    with the last uid that was dropped, and every uid
    that was dropped had at the last time no more time left than any that was
    kept had at the first.  A limit of zero or less drops nothing.  The header
    that is sent is longer than the one that is measured by the attributes of
    a site cookie. *)
Theorem eviction_terminates header_size order clock lo hi maxSize c
    (Horder : forall m, map_range m (order m))
    (Hclock : forall n, (lo <= clock n <= hi)%Z)
    (Hfin : expiries_finite lo (ck_uids c)) :
  exists c', evict header_size order clock maxSize (size (ck_uids c)) 0 c = Some c' /\
    ((0 < maxSize)%Z -> (header_size c' <= maxSize)%Z \/ ck_uids c' = ∅) /\
    ((maxSize <= 0)%Z \/ (header_size c <= maxSize)%Z -> c' = c) /\
    ck_optOut c' = ck_optOut c /\ ck_birthday c' = ck_birthday c /\ evicted_oldest lo hi (ck_uids c) (ck_uids c') /\
    needed header_size maxSize c c' /\
    sent_size header_size c' false = header_size c' /\ sent_size header_size c' true = (header_size c' + 23)%Z.
Proof.
  destruct (evict_spec header_size order clock maxSize lo hi Horder Hclock (size (ck_uids c)) 0 c (le_n _) Hfin)
    as (c' & He & Hb & Hc & Hold & Hneed).
  exists c'. split; [done|]. split; [|split; [|split_and!; [by rw Hc|by rw Hc|done|done| |]]].
  - intros Hpos. rw /too_big !andb_false_iff bool_decide_eq_false in Hb.
    destruct Hb as [[?|?]|?]; [lia|left; lia|right]. by destruct (decide (ck_uids c' = ∅)).
  - intros Hsmall. assert (too_big header_size maxSize c = false) as Ht.
    { rw /too_big !andb_false_iff. left. destruct Hsmall; [left|right]; lia. }
    destruct (size (ck_uids c)); simpl in He; rw Ht in He; by injection He.
  - unfold sent_size. lia.
  - done.
Qed.

(** A header as long as the number of uids. *)
Definition count_size (c : PBSCookie) : Z := Z.of_nat (size (ck_uids c)).

(** The theorem with two uids and room for one, on a clock that goes on. *)
Lemma eviction_terminates_witness :
  let c := mkCookie (<["a"%string := mkUid "1" 10]> {["b"%string := mkUid "2" 20]}) false None in
  let clock n := Z.min (Z.of_nat n) 5 in
  exists c', evict count_size map_to_list clock 1 2 0 c = Some c' /\ ck_optOut c' = false /\
    evicted_oldest 0 5 (ck_uids c) (ck_uids c').
Proof.
  intros c clock.
  destruct (eviction_terminates count_size map_to_list clock 0 5 1 c map_range_self) as (c' & He & _ & _ & Ho & _ & Hold & _).
  { intros n. unfold clock. lia. }
  { apply map_Forall_insert_2; [vm_compute; reflexivity|]. apply map_Forall_singleton. vm_compute. reflexivity. }
  exists c'. split; [exact He|]. split; [exact Ho|exact Hold].
Defined.
(** A negative limit drops nothing, although a test says that it should drop
    everything (its cookie was emptied by the case before). *)
Example negative_limit_drops_nothing :
  let c := mkCookie {["a"%string := mkUid "1" 10]} false None in
  evict (fun _ => 5000%Z) map_to_list (fun _ => 0%Z) (-100) 5 0 c = Some c.
Proof. reflexivity. Qed.
(** A cookie that just fits is sent over the limit to a browser that gets a
    site cookie. *)
Example site_cookie_over_limit :
  let c := mkCookie {["a"%string := mkUid "1" 10]} false None in
  evict (fun _ => 500%Z) map_to_list (fun _ => 0%Z) 500 5 0 c = Some c /\ sent_size (fun _ => 500%Z) c true = 523%Z.
Proof. by split. Qed.

(** A cookie whose uids all expire more than 292 years from now and which
    does not fit makes the eviction loop run for ever: the remaining times all
    saturate at the largest duration, none is below the initial value of the
    search, and each pass deletes nothing. *)
Theorem eviction_diverges header_size order clock maxSize c fuel n
    (Horder : forall m, map_range m (order m))
    (Hsat : map_Forall (fun _ u => forall i, until clock i u = Int64.max_value) (ck_uids c))
    (Hnokey : ck_uids c !! ""%string = None)
    (Hbig : too_big header_size maxSize c = true) :
  evict header_size order clock maxSize fuel n c = None.
Proof.
  revert n. induction fuel as [|fuel IH]; intros n; simpl; rw Hbig; [done|]. unfold oldestElem.
  rw oldest_saturated; [|done|].
  - intros [k u] i Hin. apply (map_range_elem (ck_uids c)) in Hin; [|done]. by apply Hsat in Hin.
  - cbn [fst]. assert (set_uids c (delete ""%string (ck_uids c)) = c) as ->; [|done].
    rw delete_id //. by destruct c.
Qed.

(** The theorem for one uid expiring in the year 9999. *)
Definition far_cookie : PBSCookie := mkCookie {["adnxs"%string := mkUid "abc" (253402300799 * second)%Z]} false None.
Lemma eviction_diverges_witness :
  too_big (fun _ => 5000%Z) 4096 far_cookie = true /\
  forall fuel, evict (fun _ => 5000%Z) map_to_list (fun _ => (1600000000 * second)%Z) 4096 fuel 0 far_cookie = None.
Proof.
  split; [reflexivity|]. intros fuel.
  apply (eviction_diverges (fun _ => 5000%Z) map_to_list (fun _ => (1600000000 * second)%Z) 4096 far_cookie fuel 0);
    [exact map_range_self| |reflexivity|reflexivity].
  apply map_Forall_singleton. intros i. vm_compute. reflexivity.
Defined.
