(* ===== verification/SyncEndpoints.v ===== *)
(** * The user sync endpoints

    [endpoints/cookie_sync.go], [endpoints/setuid.go] and
    [endpoints/getuids.go], with [adapters/syncer.go]: which bidders a page may
    sync with, and what is stored when a sync comes back.  The cookie is
    [UserSync]'s, the consent rules are [Gdpr]'s permissions and [Ccpa]'s policy.
    The text templates of the sync URLs are a parameter, so are the random
    numbers of the limit and the order in which the map of syncers is visited. *)

From S2P Require Import Prelude Float64 ErrorTypes IpNet Json JsonParser Url Privacy Ccpa Gdpr UserSync.

(** ** Browsers *)
(** The value [strconv.Atoi] returns, whatever its error: 0 for malformed text,
    the nearest [int] when it is out of range. *)
Fixpoint parse_uint (n : Z) (s : string) : Z :=
  match s with
  | EmptyString => n
  | String a s' =>
      match GoStr.digit_val a with
      | None => 0%Z
      | Some d =>
          if (1844674407370955162 <=? n)%Z then (2 ^ 64 - 1)%Z
          else let n1 := (n * 10 + d)%Z in if (2 ^ 64 <=? n1)%Z then (2 ^ 64 - 1)%Z else parse_uint n1 s'
      end
  end.
Definition atoi_returned (s : string) : Z :=
  match s with
  | String "-" s' => Z.max (- parse_uint 0%Z s')%Z Int64.min_value
  | String "+" s' => Z.min (parse_uint 0%Z s') Int64.max_value
  | _ => Z.min (parse_uint 0%Z s) Int64.max_value
  end.
Definition chromeMinVer : Z := 67.
Definition checkChromeBrowserVersion (ua : string) (index chromeStrLength : nat) : bool :=
  let rest := GoStr.drop (index + chromeStrLength) ua in
  let dotIndex := default (GoStr.len rest) (index_byte "." rest) in
  (chromeMinVer <=? atoi_returned (GoStr.take dotIndex rest))%Z.
Definition siteCookieCheck (ua : string) : bool :=
  match index_text "Chrome/" ua, index_text "CriOS/" ua with
  | Some index, _ => checkChromeBrowserVersion ua index 7
  | None, Some criOSIndex => checkChromeBrowserVersion ua criOSIndex 6
  | None, None => false
  end.
Example site_cookie_examples :
  siteCookieCheck "Mozilla/5.0 Chrome/67.0.3396.99 Safari" = true /\ siteCookieCheck "Mozilla/5.0 Chrome/66.9 Safari" = false /\
  siteCookieCheck "iPhone CriOS/72" = true /\ siteCookieCheck "Firefox/99" = false /\
  siteCookieCheck "Chrome/99999999999999999999999" = true.
Proof. by vm_compute. Qed.

(** ** Syncers *)
Record Policies := mkPolicies { pp_Signal : string; pp_Consent : string; pp_USPrivacy : string }.
Record UsersyncInfo := mkUsersyncInfo { ui_URL : string; ui_Type : string; ui_SupportCORS : bool }.
(** The interface, and the implementation of [adapters/syncer.go] over the
    execution of a template. *)
Record Usersyncer := mkUsersyncer {
  FamilyName : string; GetUsersyncInfo : Policies -> UsersyncInfo + error }.
Definition NewSyncer (familyName : string) (execute : Policies -> string + error) (syncType : string) : Usersyncer :=
  mkUsersyncer familyName (fun privacyPolicies =>
    match execute privacyPolicies with
    | inr err => inr err
    | inl syncURL => inl (mkUsersyncInfo syncURL syncType false)
    end).

(** ** Cookie sync *)
Record cookieSyncRequest := mkCookieSyncRequest {
  cs_Bidders : list string; cs_GDPR : option Z; cs_Consent : string; cs_USPrivacy : string; cs_Limit : Z }.
Definition cs_set_Bidders (r : cookieSyncRequest) (l : list string) : cookieSyncRequest :=
  let 'mkCookieSyncRequest _ g c u n := r in mkCookieSyncRequest l g c u n.
Definition dec_cookie_sync_request : decoder cookieSyncRequest := dec_struct (fun kvs =>
  bidders ← dec_field (dec_list dec_string) [] "bidders" kvs;
  gdpr ← dec_field (dec_ptr dec_int) None "gdpr" kvs;
  consent ← dec_field dec_string ""%string "gdpr_consent" kvs;
  usprivacy ← dec_field dec_string ""%string "us_privacy" kvs;
  limit ← dec_field dec_int 0%Z "limit" kvs;
  Some (mkCookieSyncRequest bidders gdpr consent usprivacy limit)).

(** [parseRequest]: an absent signal becomes the host's default. *)
Definition sync_parseRequest (body : RawMessage) (gdprDefaultValue : string) : cookieSyncRequest + error :=
  match unmarshal dec_cookie_sync_request body with
  | inr err => inr (EPlain ("JSON parsing failed: " ⧺ error_string err))
  | inl (mkCookieSyncRequest bidders gdpr consent usprivacy limit) =>
      if bool_decide (gdpr = Some 1%Z) && GoStr.is_empty consent then inr (EPlain "gdpr_consent is required if gdpr=1")
      else
        let gdpr := match gdpr with
                    | Some g => g
                    | None => if GoStr.eqb gdprDefaultValue "0" then 0%Z else 1%Z
                    end in
        inl (mkCookieSyncRequest bidders (Some gdpr) consent usprivacy limit)
  end.
Definition gdprToString (gdpr : option Z) : string := match gdpr with None => "" | Some g => GoStr.itoa g end.
(** [parseBidders]: the bytes, nil when there is no member. *)
Definition parseBidders `{JsonParser} (request : RawMessage) : string + error :=
  let a := jp_Get request ["bidders"%string] in
  match jp_err a with
  | None => inl (if bool_decide (jp_type a = JpNotExist) then "" else jp_value a)
  | Some err => if bool_decide (err = KeyPathNotFoundError) then inl ""%string else inr err
  end.
Definition cookieSyncStatus (syncCount : nat) : string := if (syncCount =? 0)%nat then "no_cookie" else "ok".

(** The loop of the filters: the elements that [drop_it] are cut out of the
    slice, in place.  The fuel is the number of elements left. *)
Fixpoint cut_loop (drop_it : string -> bool) (fuel i : nat) (l : list string) : list string :=
  match fuel with
  | O => l
  | S fuel =>
      match l !! i with
      | None => l
      | Some b => if drop_it b then cut_loop drop_it fuel i (take i l ++ drop (S i) l) else cut_loop drop_it fuel (S i) l
      end
  end.
Definition cut_out (drop_it : string -> bool) (l : list string) : list string := cut_loop drop_it (length l) 0 l.

Definition filterExistingSyncs (valid : gmap string Usersyncer) (cookie : PBSCookie) (now : Z) (needSyncupForSameSite : bool)
    (l : list string) : list string :=
  cut_out (fun thisBidder =>
    match valid !! thisBidder with
    | None => true
    | Some syncer => HasLiveSync cookie now (FamilyName syncer) && negb needSyncupForSameSite
    end) l.
Definition refuses (answer : bool * option error) : bool :=
  let '(allowed, err) := answer in bool_decide (is_Some err) || negb allowed.
Definition filterForGDPR (permissions : Permissions) (req : cookieSyncRequest) : list string :=
  if bool_decide (cs_GDPR req = Some 0%Z) then cs_Bidders req
  else if refuses (HostCookiesAllowed permissions SignalYes (cs_Consent req)) then []
  else cut_out (fun b => refuses (BidderSyncAllowed permissions b SignalYes (cs_Consent req))) (cs_Bidders req).
Definition filterForCCPA (bidderMap : gset string) (req : cookieSyncRequest) : list string :=
  match Ccpa_Parse (mkCcpaPolicy (cs_USPrivacy req) []) bidderMap with
  | inl ccpaParsedPolicy => cut_out (ShouldEnforce (ccpa_enforcer ccpaParsedPolicy)) (cs_Bidders req)
  | inr _ => cs_Bidders req
  end.
(** [filterToLimit]; [rand i] is [rand.Intn(i + 1)]. *)
Fixpoint limit_loop (rand : nat -> nat) (n i : nat) (l : list string) : list string :=
  match n with
  | O => l
  | S n =>
      let j := rand i in
      let l := if (i =? j)%nat then l else match l !! i with Some b => <[j := b]> l | None => l end in
      limit_loop rand n (i - 1) l
  end.
Definition filterToLimit (rand : nat -> nat) (limit : Z) (l : list string) : list string :=
  if (limit <=? 0)%Z || (Z.of_nat (length l) <=? limit)%Z then l
  else let limit := Z.to_nat limit in
       take limit (limit_loop rand (length l - limit) (length l - 1) l).

(** The bidders of a response, each with the info of its sync. *)
Record CookieSyncBidders := mkCookieSyncBidders { csb_BidderCode : string; csb_NoCookie : bool; csb_UsersyncInfo : UsersyncInfo }.
Record SyncAnswer := mkSyncAnswer { sa_Code : Z; sa_Status : string; sa_BidderStatus : list CookieSyncBidders; sa_Text : string }.
Definition refuse_sync (code : Z) (text : string) : SyncAnswer := mkSyncAnswer code "" [] text.

(** [None] is the call on a missing syncer. *)
Fixpoint bidder_statuses (syncers : gmap string Usersyncer) (policies : Policies) (bidders : list string) :
  option (list CookieSyncBidders) :=
  match bidders with
  | [] => Some []
  | bidder :: rest =>
      syncer ← syncers !! bidder;
      statuses ← bidder_statuses syncers policies rest;
      Some (match GetUsersyncInfo syncer policies with
            | inl syncInfo => mkCookieSyncBidders bidder true syncInfo :: statuses
            | inr _ => statuses
            end)
  end.

Record cookieSyncDeps := mkCookieSyncDeps {
  csd_syncers : gmap string Usersyncer; csd_hostCookie : HostCookie; csd_gdprDefault : string;
  csd_permissions : Permissions; csd_enforceCCPA : bool; csd_bidderLookup : gset string }.

Section CookieSync.
Context `{JsonParser} (parse_time : string -> option Z) (decode : string -> option RawMessage).
Context (deps : cookieSyncDeps) (all_bidders : list string) (rand : nat -> nat).

(** The bidders that may be synced, before the limit: those asked for, less
    the ones with a live sync and the ones a policy protects. *)
Definition sync_bidders (req : cookieSyncRequest) (cookie : PBSCookie) (now : Z) (needSyncupForSameSite : bool) : list string :=
  let req := cs_set_Bidders req (filterExistingSyncs (csd_syncers deps) cookie now needSyncupForSameSite (cs_Bidders req)) in
  let req := cs_set_Bidders req (filterForGDPR (csd_permissions deps) req) in
  if csd_enforceCCPA deps then filterForCCPA (csd_bidderLookup deps) req else cs_Bidders req.

(** [cookieSyncDeps.Endpoint]: the body is its text, or the error of reading
    it. *)
Definition cookie_sync (now : Z) (r : string -> option string) (ua : string) (body : RawMessage + error) : option SyncAnswer :=
  let userSyncCookie := ParsePBSCookieFromRequest parse_time decode now r (csd_hostCookie deps) in
  if negb (AllowSyncs userSyncCookie) then Some (refuse_sync 401 "User has opted out")
  else
    match body with
    | inr _ => Some (refuse_sync 400 "Failed to read request body")
    | inl bodyBytes =>
        match parseBidders bodyBytes with
        | inr _ => Some (refuse_sync 400 "Failed to check request.bidders in request body. Was your JSON well-formed?")
        | inl biddersJSON =>
            match sync_parseRequest bodyBytes (csd_gdprDefault deps) with
            | inr err => Some (refuse_sync 400 (error_string err))
            | inl parsedReq =>
                let parsedReq := if GoStr.is_empty biddersJSON then cs_set_Bidders parsedReq all_bidders else parsedReq in
                let needSyncupForSameSite := siteCookieCheck ua && bool_decide (r "SSCookie"%string = None) in
                let bidders := sync_bidders parsedReq userSyncCookie now needSyncupForSameSite in
                let policies := mkPolicies (gdprToString (cs_GDPR parsedReq)) (cs_Consent parsedReq) (cs_USPrivacy parsedReq) in
                statuses ← bidder_statuses (csd_syncers deps) policies (filterToLimit rand (cs_Limit parsedReq) bidders);
                Some (mkSyncAnswer 200 (cookieSyncStatus (LiveSyncCount userSyncCookie now)) statuses "")
            end
        end
    end.
End CookieSync.

(** ** Set uid *)
Definition getFamilyName (query : Values) (validFamilyNameMap : gset string) : string + error :=
  let familyName := Url.Get query "bidder" in
  if GoStr.is_empty familyName then inr (EPlain (GoStr.quoted "bidder" ⧺ " query param is required"))
  else if bool_decide (familyName ∈ validFamilyNameMap) then inl familyName
  else inr (EPlain "The bidder name provided is not supported by Prebid Server").

(** [preventSyncsGDPR]: the status and text that end the request, if any. *)
Definition preventSyncsGDPR (gdprEnabled gdprConsent : string) (perms : Permissions) : option (Z * string) :=
  if negb (GoStr.is_empty gdprEnabled) && negb (GoStr.eqb gdprEnabled "0") && negb (GoStr.eqb gdprEnabled "1") then
    Some (400%Z, "the gdpr query param must be either 0 or 1. You gave " ⧺ gdprEnabled)
  else if GoStr.eqb gdprEnabled "1" && GoStr.is_empty gdprConsent then Some (400%Z, "gdpr_consent is required when gdpr=1"%string)
  else
    let gdprSignal := default SignalAmbiguous (GoStr.atoi gdprEnabled) in
    match HostCookiesAllowed perms gdprSignal gdprConsent with
    | (_, Some (EMalformedConsent _ _ as err)) => Some (400%Z, "gdpr_consent was invalid. " ⧺ error_string err)
    | (_, Some _) =>
        Some (400%Z, "No global vendor list was available to interpret this consent string. If this is a new, valid version, it should become available soon."%string)
    | (true, None) => None
    | (false, None) => Some (200%Z, "The gdpr_consent string prevents cookies from being saved"%string)
    end.

(** The answer of [/setuid]: a status, a text, and the Set-Cookie headers. *)
Record SetUidAnswer := mkSetUid { su_Code : Z; su_Text : string; su_Headers : list SetCookieHeader }.

Section SetUid.
Context (parse_time : string -> option Z) (decode : string -> option RawMessage).
Context (header_size : PBSCookie -> Z) (order : gmap string uidWithExpiry -> list (string * uidWithExpiry)).
Context (encode : PBSCookie -> string) (clock : nat -> Z) (fuel : nat).
Context (cfg : HostCookie) (validFamilyNameMap : gset string) (perms : Permissions).

(** The cookie after the change, or the answer that ends the request. *)
Definition change_uid (now : Z) (r : string -> option string) (query : Values) : PBSCookie + SetUidAnswer :=
  let pc := ParsePBSCookieFromRequest parse_time decode now r cfg in
  if negb (AllowSyncs pc) then inr (mkSetUid 401 "" [])
  else
    match getFamilyName query validFamilyNameMap with
    | inr err => inr (mkSetUid 400 (error_string err) [])
    | inl familyName =>
        match preventSyncsGDPR (Url.Get query "gdpr") (Url.Get query "gdpr_consent") perms with
        | Some (status, body) => inr (mkSetUid status body [])
        | None =>
            let uid := Url.Get query "uid" in
            inl (if GoStr.is_empty uid then Unsync pc familyName else (TrySync pc now familyName uid).1)
        end
    end.
(** The handler; [None] when [fuel] passes of the eviction are not enough. *)
Definition setuid (now : Z) (r : string -> option string) (ua : string) (query : Values) : option SetUidAnswer :=
  match change_uid now r query with
  | inr ans => Some ans
  | inl pc =>
      '(_, headers) ← SetCookieOnResponse header_size order clock (hc_MaxCookieSizeBytes cfg) encode fuel pc (siteCookieCheck ua);
      Some (mkSetUid 200 "" headers)
  end.
End SetUid.

(** ** Get uids *)
Definition getuids (parse_time : string -> option Z) (decode : string -> option RawMessage) (cfg : HostCookie) (now : Z)
    (r : string -> option string) : json :=
  let uids := GetUIDs (ParsePBSCookieFromRequest parse_time decode now r cfg) in
  JObj (omitempty (bool_decide (uids = ∅)) "buyeruids" (map_json (JStr <$> uids))).

(** ** Facts *)

(** Cutting elements out of the slice in place is filtering it. *)
Lemma cut_loop_filter p fuel : forall i l, length l - i <= fuel ->
  cut_loop p fuel i l = take i l ++ List.filter (fun b => negb (p b)) (drop i l).
Proof.
  induction fuel as [|fuel IH]; intros i l Hf; cbn [cut_loop].
  { rw drop_ge; [lia|]. rw app_nil_r take_ge //. lia. }
  destruct (l !! i) as [b|] eqn:E.
  - apply lookup_lt_Some in E as Hi. rw (drop_S _ _ _ E). cbn [List.filter]. destruct (p b) eqn:Ep; cbn.
    + rw IH; [rw length_app length_take length_drop; lia|].
      assert (length (take i l) = i) as Hl by (rw length_take; lia). by rw take_app_length' // drop_app_length'.
    + rw IH; [lia|]. rw (take_S_r _ _ _ E). by rw -app_assoc.
  - apply lookup_ge_None in E. rw drop_ge; [lia|]. by rw app_nil_r take_ge.
Qed.
Lemma cut_out_filter p l : cut_out p l = List.filter (fun b => negb (p b)) l.
Proof. unfold cut_out. rw cut_loop_filter; [lia|]. by rw take_0 drop_0. Qed.

(** Moving the last element over another keeps the prefix a part of the list. *)
Lemma insert_last_submseteq {A} (t : list A) j b : j < length t -> <[j := b]> t ⊆+ t ++ [b].
Proof.
  intros Hj. rw insert_take_drop // -{3}(take_drop j t). rw -app_assoc. apply submseteq_app; [done|].
  destruct (lookup_lt_is_Some_2 t j Hj) as [x Hx]. rw (drop_S _ _ _ Hx) /=.
  apply (submseteq_trans _ (x :: b :: drop (S j) t)); [by apply submseteq_cons|].
  apply submseteq_skip, Permutation_submseteq. by rw -Permutation_cons_append.
Qed.
Lemma limit_loop_sub rand : (forall i, rand i <= i) -> forall n i l, i < length l -> n <= S i ->
  length (limit_loop rand n i l) = length l /\ take (S i - n) (limit_loop rand n i l) ⊆+ take (S i) l.
Proof.
  intros Hr n. induction n as [|n IH]; intros i l Hi Hn; cbn [limit_loop]; [split; [done|by rw Nat.sub_0_r]|].
  set (l' := if (i =? rand i)%nat then l else _).
  assert (length l' = length l /\ take i l' ⊆+ take (S i) l) as [Hlen Hsub].
  { subst l'. destruct (lookup_lt_is_Some_2 l i Hi) as [b Hb]. rw (take_S_r _ _ _ Hb). specialize (Hr i).
    destruct (Nat.eqb_spec i (rand i)) as [_|Hne]; [split; [done|by apply submseteq_inserts_r]|].
    rw Hb length_insert. split; [done|]. rw take_insert_lt; [lia|]. apply insert_last_submseteq. rw length_take. lia. }
  destruct i as [|i].
  - assert (n = 0) as -> by lia. cbn [limit_loop]. split; [done|]. cbn. by apply submseteq_nil_l.
  - destruct (IH i l') as [IHl IHs]; [lia..|]. rw Nat.sub_succ Nat.sub_0_r. split; [by rw IHl|].
    rw Nat.sub_succ. by etrans.
Qed.
Lemma filterToLimit_spec rand limit l : (forall i, rand i <= i) ->
  filterToLimit rand limit l ⊆+ l /\
  length (filterToLimit rand limit l) = (if (limit <=? 0)%Z then length l else Nat.min (Z.to_nat limit) (length l)) /\
  ((limit <= 0)%Z \/ (Z.of_nat (length l) <= limit)%Z -> filterToLimit rand limit l = l).
Proof.
  intros Hr. unfold filterToLimit. destruct (Z.leb_spec limit 0); cbn; [done|].
  destruct (Z.leb_spec (Z.of_nat (length l)) limit); [split; [done|]; split; [lia|done]|].
  destruct (limit_loop_sub rand Hr (length l - Z.to_nat limit) (length l - 1) l) as [Hl Hs]; [lia..|].
  replace (S (length l - 1)) with (length l) in Hs by lia. rw (take_ge l) in Hs; [lia|].
  replace (length l - (length l - Z.to_nat limit)) with (Z.to_nat limit) in Hs by lia.
  split; [done|]. split; [rw length_take Hl; lia|lia].
Qed.

(** ** The specification *)

(** A browser whose cookies must say where they may be sent: Chrome of version
    67 on, on a desktop or on iOS.  The version is the text between the first
    mark and the next dot. *)
Definition has_text (mark text : string) : Prop := exists before rest, text = before ⧺ mark ⧺ rest.
Definition version_of (rest version : string) : Prop :=
  ~ has_text "." version /\ (rest = version \/ exists tail, rest = version ⧺ String "." tail).
Definition chrome_version (ua version : string) : Prop :=
  exists mark before rest, (mark = "Chrome/"%string \/ (mark = "CriOS/"%string /\ ~ has_text "Chrome/" ua)) /\
    ua = before ⧺ mark ⧺ rest /\ (forall before' rest', ua = before' ⧺ mark ⧺ rest' -> GoStr.len before <= GoStr.len before') /\
    version_of rest version.
Definition recent_chrome (ua : string) : Prop := exists version, chrome_version ua version /\ (67 <= atoi_returned version)%Z.
(** Syncs are repeated for such a browser as long as it has not kept the cookie
    that says it got the others. *)
Definition repeated (ua : string) (r : string -> option string) : Prop := recent_chrome ua /\ r "SSCookie"%string = None.

Lemma version_iff rest version : version_of rest version <-> version = GoStr.take (default (GoStr.len rest) (index_byte "." rest)) rest.
Proof.
  revert version. induction rest as [|a rest IH]; intros version; cbn [index_byte].
  - split.
    + intros [_ [<-|[tail Hs]]]; [done|]. by destruct version.
    + intros ->. split; [|by left]. by intros ([|] & rest & Hs).
  - destruct (Ascii.eqb_spec a ".") as [->|Hne].
    + split.
      * intros [Hn Hs]. destruct version as [|b version]; [done|]. exfalso. apply Hn. exists ""%string, version.
        destruct Hs as [Hs|[tail Hs]]; by injection Hs as <- _.
      * intros ->. split; [by intros ([|] & rest' & Hs)|]. right. by exists rest.
    + assert (GoStr.take (default (GoStr.len (String a rest)) (S <$> index_byte "." rest)) (String a rest) =
              String a (GoStr.take (default (GoStr.len rest) (index_byte "." rest)) rest)) as ->
        by by destruct (index_byte "." rest).
      split.
      * intros [Hn Hs]. destruct version as [|b version]; [destruct Hs as [Hs|[tail Hs]]; [done|]; by injection Hs as -> _|].
        assert (b = a) as -> by (by destruct Hs as [Hs|[tail Hs]]; injection Hs). f_equal. apply IH. split.
        { intros (before & r & ->). apply Hn. by exists (String a before), r. }
        destruct Hs as [Hs|[tail Hs]]; injection Hs as Hs; [by left|right; by exists tail].
      * intros ->. assert (version_of rest (GoStr.take (default (GoStr.len rest) (index_byte "." rest)) rest)) as [Hn Hs] by by apply IH.
        split.
        { intros ([|b before] & r & Hv); injection Hv as ? Hv; [by subst|]. apply Hn. by exists before, r. }
        destruct Hs as [Hs|[tail Hs]]; [left|right; exists tail]; by rw {1}Hs.
Qed.
Lemma version_checked ua mark before rest : ua = before ⧺ mark ⧺ rest ->
  checkChromeBrowserVersion ua (GoStr.len before) (GoStr.len mark) = true <->
  exists version, version_of rest version /\ (67 <= atoi_returned version)%Z.
Proof.
  intros ->. unfold checkChromeBrowserVersion, chromeMinVer. rw -str_app_assoc -str_len_app drop_app_exact Z.leb_le.
  split; [intros ?; eexists; split; [by apply version_iff|done]|]. by intros (version & ->%version_iff & ?).
Qed.
Lemma siteCookieCheck_iff ua : siteCookieCheck ua = true <-> recent_chrome ua.
Proof.
  assert (forall mark i, index_text mark ua = Some i -> (mark = "Chrome/"%string \/ (mark = "CriOS/"%string /\ ~ has_text "Chrome/" ua)) ->
    (mark <> "Chrome/"%string -> ~ has_text "Chrome/" ua) -> (mark = "Chrome/"%string -> has_text "Chrome/" ua) ->
    checkChromeBrowserVersion ua i (GoStr.len mark) = true <-> recent_chrome ua) as Hmark.
  { intros mark i Hi Hm Hno Hyes. destruct (index_text_first _ _ _ Hi) as (before & rest & Hua & <- & Hmin).
    rw (version_checked ua mark before rest Hua). unfold recent_chrome, chrome_version. split.
    - intros (version & Hv & Hle). exists version. split; [|done]. by exists mark, before, rest.
    - intros (version & (mark' & before' & rest' & Hm' & Hua' & Hmin' & Hv) & Hle). exists version. split; [|done].
      assert (mark' = mark) as ->.
      { destruct Hm' as [->|[-> Hn']], Hm as [->|[-> Hn]]; try done; [destruct Hn; by exists before', rest'|].
        destruct Hn'. by apply Hyes. }
      enough (rest' = rest) as <- by done. pose proof (Hmin _ _ Hua'). pose proof (Hmin' _ _ Hua).
      assert (GoStr.len before = GoStr.len before') as Hl by lia. assert (before' ⧺ mark ⧺ rest' = before ⧺ mark ⧺ rest) as Heq by congruence.
      apply (f_equal (GoStr.drop (GoStr.len before))) in Heq. rw {1}Hl !drop_app_exact in Heq. by apply str_app_inj_l in Heq. }
  unfold siteCookieCheck. destruct (index_text "Chrome/" ua) as [i|] eqn:Ei.
  - apply (Hmark "Chrome/"%string i Ei); [by left|done|]. intros _. apply index_text_iff. by rw Ei.
  - assert (~ has_text "Chrome/" ua) as Hn by (intros Hh%index_text_iff; by rw Ei in Hh; destruct Hh).
    destruct (index_text "CriOS/" ua) as [i|] eqn:Ec.
    + apply (Hmark "CriOS/"%string i Ec); [by right|done|done].
    + split; [done|]. intros (version & (mark & before & rest & [->|[-> _]] & Hua & _) & _); exfalso.
      * apply Hn. by exists before, rest.
      * assert (is_Some (index_text "CriOS/" ua)) as [? ?] by (apply index_text_iff; by exists before, rest). congruence.
Qed.

(** A bidder that may be synced: it has a syncer, no live sync unless all are
    to be repeated, and no policy that applies protects the user from it. *)
Definition live_sync (deps : cookieSyncDeps) (cookie : PBSCookie) (now : Z) (b : string) : Prop :=
  exists s u, csd_syncers deps !! b = Some s /\ ck_uids cookie !! FamilyName s = Some u /\ (now < Expires u)%Z.
Definition syncable (deps : cookieSyncDeps) (req : cookieSyncRequest) (cookie : PBSCookie) (now : Z) (again : Prop) (b : string) : Prop :=
  is_Some (csd_syncers deps !! b) /\ (again \/ ~ live_sync deps cookie now b) /\
  (cs_GDPR req = Some 0%Z \/
   (HostCookiesAllowed (csd_permissions deps) SignalYes (cs_Consent req) = (true, None) /\
    BidderSyncAllowed (csd_permissions deps) b SignalYes (cs_Consent req) = (true, None))) /\
  (csd_enforceCCPA deps = true -> forall policy, Ccpa_Parse (mkCcpaPolicy (cs_USPrivacy req) []) (csd_bidderLookup deps) = inl policy ->
     ShouldEnforce (ccpa_enforcer policy) b = false).

Lemma filter_filter_and {A} (p q : A -> bool) l : List.filter p (List.filter q l) = List.filter (fun x => q x && p x) l.
Proof. induction l as [|x l IH]; [done|]. cbn. destruct (q x); cbn; [|done]. by destruct (p x); rw IH. Qed.
Lemma filter_all {A} (l : list A) : List.filter (fun _ => true) l = l.
Proof. induction l as [|x l IH]; [done|]. cbn. by rw IH. Qed.
Lemma refuses_false answer : refuses answer = false <-> answer = (true, None).
Proof. destruct answer as [[] [e|]]; vm_compute; split; congruence. Qed.

Section CookieSyncFacts.
Context (deps : cookieSyncDeps).

(** Each filter keeps the bidders of its own condition. *)
Lemma existing_kept cookie now again l : exists p, filterExistingSyncs (csd_syncers deps) cookie now again l = List.filter p l /\
  forall b, p b = true <-> is_Some (csd_syncers deps !! b) /\ (again = true \/ ~ live_sync deps cookie now b).
Proof.
  eexists. split; [apply cut_out_filter|]. intros b. cbn beta. rw negb_true_iff. unfold live_sync, HasLiveSync, GetUID.
  destruct (csd_syncers deps !! b) as [s|]; [|by split; [|intros [[? ?] _]]].
  destruct again; [rw andb_false_r; split; eauto|]. rw andb_true_r.
  destruct (ck_uids cookie !! FamilyName s) as [u|] eqn:Eu; cbn.
  - rw Z.ltb_ge. split.
    + intros Hle. split; [done|]. right. intros (s' & u' & [= <-] & Hu & Hlt). rw Eu in Hu. injection Hu as <-. lia.
    + intros [_ [?|Hn]]; [done|]. destruct (Z.le_gt_cases (Expires u) now); [done|]. destruct Hn. exists s, u. split_and!; [done..|lia].
  - split; [|done]. intros _. split; [done|]. right. intros (s' & u' & [= <-] & Hu & _). by rw Eu in Hu.
Qed.
Lemma gdpr_kept req l : exists p, filterForGDPR (csd_permissions deps) (cs_set_Bidders req l) = List.filter p l /\
  forall b, p b = true <-> cs_GDPR req = Some 0%Z \/
    (HostCookiesAllowed (csd_permissions deps) SignalYes (cs_Consent req) = (true, None) /\
     BidderSyncAllowed (csd_permissions deps) b SignalYes (cs_Consent req) = (true, None)).
Proof.
  destruct req as [bs g c u n]. unfold filterForGDPR. cbn. case_bool_decide as Hg.
  { exists (fun _ => true). split; [by rw filter_all|]. intros b. split; [by left|done]. }
  destruct (refuses (HostCookiesAllowed _ _ _)) eqn:Er.
  { exists (fun _ => false). split; [by induction l|]. intros b. split; [done|]. intros [?|[Hh _]]; [done|].
    apply refuses_false in Hh. congruence. }
  eexists. split; [apply cut_out_filter|]. intros b. cbn beta. rw negb_true_iff refuses_false. apply refuses_false in Er. tauto.
Qed.
Lemma ccpa_kept req l : exists p, filterForCCPA (csd_bidderLookup deps) (cs_set_Bidders req l) = List.filter p l /\
  forall b, p b = true <-> forall policy, Ccpa_Parse (mkCcpaPolicy (cs_USPrivacy req) []) (csd_bidderLookup deps) = inl policy ->
    ShouldEnforce (ccpa_enforcer policy) b = false.
Proof.
  destruct req as [bs g c u n]. unfold filterForCCPA. cbn. destruct (Ccpa_Parse _ _) as [policy|err].
  - eexists. split; [apply cut_out_filter|]. intros b. cbn beta. rw negb_true_iff. split; [by intros H ? [= <-]|auto].
  - exists (fun _ => true). by split; [rw filter_all|].
Qed.
(** All of them together, in order. *)
Lemma filters_kept req cookie now again :
  exists p : string -> bool, sync_bidders deps req cookie now again = List.filter p (cs_Bidders req) /\
    forall b, p b = true <-> syncable deps req cookie now (again = true) b.
Proof.
  unfold sync_bidders. cbv zeta. destruct (existing_kept cookie now again (cs_Bidders req)) as (p1 & E1 & H1).
  set (l1 := filterExistingSyncs _ _ _ _ _) in *.
  destruct (gdpr_kept req l1) as (p2 & E2 & H2). set (l2 := filterForGDPR _ _) in *.
  assert (cs_set_Bidders (cs_set_Bidders req l1) l2 = cs_set_Bidders req l2) as -> by by destruct req.
  destruct (ccpa_kept req l2) as (p3 & E3 & H3). unfold syncable. destruct (csd_enforceCCPA deps).
  - exists (fun b => p1 b && (p2 b && p3 b)). split; [by rw E3 E2 E1 !filter_filter_and|].
    intros b. rw !andb_true_iff H1 H2 H3. tauto.
  - exists (fun b => p1 b && p2 b). split.
    + assert (forall r l, cs_Bidders (cs_set_Bidders r l) = l) as -> by by intros []. by rw E2 E1 filter_filter_and.
    + intros b. rw andb_true_iff H1 H2. intuition congruence.
Qed.

(** The infos of the bidders that have one. *)
Definition sync_status (policies : Policies) (b : string) : option CookieSyncBidders :=
  match csd_syncers deps !! b with
  | Some s => match GetUsersyncInfo s policies with inl info => Some (mkCookieSyncBidders b true info) | inr _ => None end
  | None => None
  end.
Lemma bidder_statuses_total policies l : Forall (fun b => is_Some (csd_syncers deps !! b)) l ->
  bidder_statuses (csd_syncers deps) policies l = Some (omap (sync_status policies) l).
Proof.
  induction 1 as [|b l [s Hs] _ IH]; [done|]. cbn [bidder_statuses omap list_omap]. unfold sync_status at 1. rw Hs IH. cbn.
  by destruct (GetUsersyncInfo s policies).
Qed.

Context `{JsonParser} (parse_time : string -> option Z) (decode : string -> option RawMessage).
Context (all_bidders : list string) (rand : nat -> nat) (Hrand : forall i, rand i <= i).

(** The part after the checks of the request. *)
Lemma sync_chosen req cookie now again policies : exists p chosen, (forall b, p b = true <-> syncable deps req cookie now (again = true) b) /\
  let asked := List.filter p (cs_Bidders req) in
  chosen ⊆+ asked /\ ((cs_Limit req <= 0)%Z -> chosen = asked) /\
  ((0 < cs_Limit req)%Z -> length chosen = Nat.min (Z.to_nat (cs_Limit req)) (length asked)) /\
  bidder_statuses (csd_syncers deps) policies (filterToLimit rand (cs_Limit req) (sync_bidders deps req cookie now again)) =
    Some (omap (sync_status policies) chosen).
Proof.
  destruct (filters_kept req cookie now again) as (p & -> & Hp).
  set (asked := List.filter p (cs_Bidders req)). exists p, (filterToLimit rand (cs_Limit req) asked).
  destruct (filterToLimit_spec rand (cs_Limit req) asked Hrand) as (Hsub & Hlen & Hall).
  split; [done|]. cbv zeta. split_and!; [done|auto| |].
  - intros Hl. rw Hlen. by destruct (Z.leb_spec (cs_Limit req) 0); [lia|].
  - apply bidder_statuses_total. apply list.Forall_forall. intros b Hb.
    apply (elem_of_submseteq _ _ _ Hb) in Hsub. apply list_elem_of_In, filter_In in Hsub as [_ Hpb].
    by apply Hp in Hpb as [? _].
Qed.

(** C28: who may be synced: [/cookie_sync] always answers; when it answers with
    syncs, the user has not opted out, and the bidders are those of the
    request (all of them when it names none) that have a syncer, no live sync
    (unless the browser is a Chrome of version 67 on without the cookie that
    says it was synced since) and, when GDPR applies, the host's and their own consent, and that CCPA
    does not protect the user from; a limit picks some of these, no bidder
    more often than it was asked for. *)
Theorem cookie_sync_respects_privacy now r ua body :
  exists ans, cookie_sync parse_time decode deps all_bidders rand now r ua body = Some ans /\
    let cookie := ParsePBSCookieFromRequest parse_time decode now r (csd_hostCookie deps) in
    (sa_BidderStatus ans <> [] -> sa_Code ans = 200%Z) /\
    (sa_Code ans = 200%Z ->
     AllowSyncs cookie = true /\
     exists req bs p chosen policies, body = inl bs /\ sync_parseRequest bs (csd_gdprDefault deps) = inl req /\
       (forall b, p b = true <-> syncable deps req cookie now (repeated ua r) b) /\
       let asked := List.filter p (if bool_decide (parseBidders bs = inl ""%string) then all_bidders else cs_Bidders req) in
       chosen ⊆+ asked /\ ((cs_Limit req <= 0)%Z -> chosen = asked) /\
       ((0 < cs_Limit req)%Z -> length chosen = Nat.min (Z.to_nat (cs_Limit req)) (length asked)) /\
       sa_BidderStatus ans = omap (sync_status policies) chosen).
Proof.
  unfold cookie_sync. set (cookie := ParsePBSCookieFromRequest _ _ _ _ _).
  destruct (AllowSyncs cookie) eqn:Ea; cbn [negb]; [|eexists; split; [done|]; by split].
  destruct body as [bs|]; [|eexists; split; [done|]; by split].
  destruct (parseBidders bs) as [bj|] eqn:Eb; [|eexists; split; [done|]; by split].
  destruct (sync_parseRequest bs (csd_gdprDefault deps)) as [req|] eqn:Er; [|eexists; split; [done|]; by split].
  set (req' := if GoStr.is_empty bj then _ else req). set (again := siteCookieCheck ua && _).
  set (policies := mkPolicies _ _ _).
  destruct (sync_chosen req' cookie now again policies) as (p & chosen & Hp & Hsub & Hnolim & Hlim & Hst).
  cbn [mbind option_bind]. rw Hst. eexists. split; [done|]. split; [done|]. intros _. split; [done|].
  exists req, bs, p, chosen, policies.
  assert (cs_Limit req' = cs_Limit req) as Hl by (subst req'; by destruct (GoStr.is_empty bj), req).
  assert (cs_Bidders req' = if bool_decide (@inl _ error bj = inl ""%string) then all_bidders else cs_Bidders req) as Hbs.
  { subst req'. destruct bj; cbn; by destruct req. }
  rw Hl Hbs in Hsub Hnolim Hlim. cbv zeta. rw Eb. split_and!; try done.
  intros b. rw Hp. assert (again = true <-> repeated ua r) as Hag.
  { unfold again, repeated. by rw andb_true_iff siteCookieCheck_iff bool_decide_eq_true. }
  unfold syncable. rw Hag. subst req'. by destruct (GoStr.is_empty bj), req.
Qed.
End CookieSyncFacts.

(** ** Setting a uid *)
Section SetUidFacts.
Context (parse_time : string -> option Z) (decode : string -> option RawMessage).
Context (header_size : PBSCookie -> Z) (order : gmap string uidWithExpiry -> list (string * uidWithExpiry)).
Context (encode : PBSCookie -> string) (clock : nat -> Z) (fuel : nat).
Context (cfg : HostCookie) (validFamilyNameMap : gset string) (perms : Permissions).

(** The signal of a [gdpr] parameter. *)
Definition query_signal (gdpr : string) : option Z :=
  if GoStr.is_empty gdpr then Some SignalAmbiguous
  else if GoStr.eqb gdpr "0" then Some SignalNo
  else if GoStr.eqb gdpr "1" then Some SignalYes
  else None.
Lemma prevent_none gdpr consent : preventSyncsGDPR gdpr consent perms = None ->
  exists signal, query_signal gdpr = Some signal /\ HostCookiesAllowed perms signal consent = (true, None) /\
    (signal = SignalYes -> consent <> ""%string).
Proof.
  unfold preventSyncsGDPR, query_signal. intros Hn.
  assert (forall signal answer, HostCookiesAllowed perms signal consent = answer ->
    match answer with
    | (_, Some (EMalformedConsent _ _ as err)) => Some (400%Z, "gdpr_consent was invalid. " ⧺ error_string err)
    | (_, Some _) => Some (400%Z, "No global vendor list was available to interpret this consent string. If this is a new, valid version, it should become available soon."%string)
    | (true, None) => None
    | (false, None) => Some (200%Z, "The gdpr_consent string prevents cookies from being saved"%string)
    end = None -> HostCookiesAllowed perms signal consent = (true, None)) as Hok.
  { intros signal [[] [[]|]] ->; done. }
  destruct (GoStr.is_empty gdpr) eqn:Ee; cbn [negb andb] in Hn.
  { destruct gdpr; [|done]. exists SignalAmbiguous. split_and!; try done. by eapply Hok. }
  destruct (eqb_spec gdpr "0") as [->|H0]; cbn [negb andb] in Hn.
  { exists SignalNo. split_and!; try done. by eapply Hok. }
  destruct (eqb_spec gdpr "1") as [->|H1]; cbn [negb andb] in Hn; [|done].
  destruct (GoStr.is_empty consent) eqn:Ec; [done|]. exists SignalYes. split_and!; try done; [by eapply Hok|].
  intros _. by apply is_empty_false.
Qed.

(** C32: when a uid is stored: [/setuid] sends cookies only if the user has not
    opted out, the family is known, the parameters give a GDPR signal and the
    host may keep cookies under it; the cookie it sends (before old ids are
    evicted to fit) has the id for that family, or has it removed when the id
    is empty, or keeps what it had when the id is the placeholder of
    Facebook, and has every other family as it was. *)
Theorem setuid_requires_consent now r ua query ans :
  setuid parse_time decode header_size order encode clock fuel cfg validFamilyNameMap perms now r ua query = Some ans ->
  su_Headers ans <> [] ->
  let pc := ParsePBSCookieFromRequest parse_time decode now r cfg in
  let familyName := Url.Get query "bidder" in
  let uid := Url.Get query "uid" in
  AllowSyncs pc = true /\ familyName ∈ validFamilyNameMap /\
  (exists signal, query_signal (Url.Get query "gdpr") = Some signal /\
     HostCookiesAllowed perms signal (Url.Get query "gdpr_consent") = (true, None)) /\
  exists pc' sent, SetCookieOnResponse header_size order clock (hc_MaxCookieSizeBytes cfg) encode fuel pc' (siteCookieCheck ua) =
      Some (sent, su_Headers ans) /\
    ck_uids pc' !! familyName =
      (if GoStr.is_empty uid then None
       else if GoStr.eqb familyName BidderAudienceNetwork && GoStr.eqb uid "0" then ck_uids pc !! familyName
       else Some (mkUid uid (now + DEFAULT_TTL))) /\
    (forall f, f <> familyName -> ck_uids pc' !! f = ck_uids pc !! f).
Proof.
  unfold setuid, change_uid. set (pc := ParsePBSCookieFromRequest _ _ _ _ _). cbv zeta.
  destruct (AllowSyncs pc) eqn:Ea; cbn [negb]; [|by intros [= <-]].
  unfold getFamilyName. destruct (GoStr.is_empty (Url.Get query "bidder")); [by intros [= <-]|].
  case_bool_decide as Hfam; [|by intros [= <-]].
  destruct (preventSyncsGDPR _ _ _) as [[status body]|] eqn:Ep; [by intros [= <-]|].
  set (pc' := if GoStr.is_empty (Url.Get query "uid") then _ else _). intros Hrun _.
  destruct (SetCookieOnResponse _ _ _ _ _ _ _ _) as [[sent headers]|] eqn:Es; cbn in Hrun; [|done]. injection Hrun as <-.
  destruct (prevent_none _ _ Ep) as (signal & Hs & Hh & _).
  split_and!; [done|done|by exists signal|]. exists pc', sent. split; [exact Es|]. subst pc'.
  destruct (GoStr.is_empty (Url.Get query "uid")).
  { cbn. split; [by rw lookup_delete_eq|]. intros f Hf. by rw lookup_delete_ne. }
  unfold TrySync. rw Ea. cbn [negb]. destruct (_ && _); [done|]. cbn.
  split; [by rw lookup_insert_eq|]. intros f Hf. by rw lookup_insert_ne.
Qed.
End SetUidFacts.

(** ** Concrete calls *)
Definition demo_syncer (family : string) : Usersyncer :=
  NewSyncer family (fun p => inl ("//sync/" ⧺ family ⧺ "?gdpr=" ⧺ pp_Signal p)) "redirect".
(** The host may set cookies, and only rubicon has the user's consent. *)
Definition demo_permissions : Permissions :=
  mkPermissions (fun _ consent => (negb (GoStr.is_empty consent), None)) (fun b _ _ => (GoStr.eqb b "rubicon", None))
    (fun _ _ _ _ _ => (true, true, true, None)).
Definition demo_sync_deps : cookieSyncDeps :=
  mkCookieSyncDeps {["appnexus" := demo_syncer "adnxs"; "rubicon" := demo_syncer "rubicon"]}%string
    (mkHostCookie "" "" "" "" "" 0) "1" demo_permissions true {["appnexus"; "rubicon"]}%string.
Definition demo_sync_body : RawMessage :=
  RawJson (JObj [("bidders", JArr [JStr "appnexus"; JStr "rubicon"; JStr "nobody"; JStr "rubicon"]); ("gdpr_consent", JStr "CO...");
                 ("limit", JNum "1")])%string.
Definition demo_cookie_sync : option SyncAnswer :=
  cookie_sync (fun _ => None) (fun _ => None) demo_sync_deps ["appnexus"; "rubicon"]%string (fun i => i) 0 (fun _ => None)
    "Firefox" (inl demo_sync_body).
Example demo_cookie_sync_answer :
  demo_cookie_sync = Some (mkSyncAnswer 200 "no_cookie"
    [mkCookieSyncBidders "rubicon" true (mkUsersyncInfo "//sync/rubicon?gdpr=1" "redirect" false)] "").
Proof. by vm_compute. Qed.

Lemma cookie_sync_respects_privacy_witness :
  exists ans, demo_cookie_sync = Some ans /\ sa_Code ans = 200%Z /\ length (sa_BidderStatus ans) = 1 /\
    (sa_BidderStatus ans <> [] -> sa_Code ans = 200%Z).
Proof.
  destruct (cookie_sync_respects_privacy demo_sync_deps (fun _ => None) (fun _ => None) ["appnexus"; "rubicon"]%string
    (fun i => i) (fun i => le_n i) 0 (fun _ => None) "Firefox" (inl demo_sync_body)) as (ans & Hans & Hcode & _).
  exists ans. split; [exact Hans|].
  assert (Some ans = Some (mkSyncAnswer 200 "no_cookie"
    [mkCookieSyncBidders "rubicon" true (mkUsersyncInfo "//sync/rubicon?gdpr=1" "redirect" false)] "")) as Hval
    by (rewrite <- Hans; vm_compute; reflexivity).
  injection Hval as ->. split; [reflexivity|]. split; [reflexivity|]. exact Hcode.
Defined.

Definition demo_setuid (query : Values) : option SetUidAnswer :=
  setuid (fun _ => None) (fun _ => None) (fun _ => 0%Z) map_to_list (fun c => default ""%string (UID <$> ck_uids c !! "rubicon"%string)) (fun _ => 0%Z) 0
    (mkHostCookie "" "" "" "" "" 0) {["rubicon"%string]} demo_permissions 5 (fun _ => None) "Firefox" query.
Definition demo_query : Values := [("bidder", "rubicon"); ("gdpr", "1"); ("gdpr_consent", "CO..."); ("uid", "u-1")]%string.
Lemma setuid_requires_consent_witness :
  demo_setuid demo_query = Some (mkSetUid 200 "" [mkSetCookie "uids" "u-1" false]) /\
  exists signal, query_signal "1" = Some signal /\ HostCookiesAllowed demo_permissions signal "CO..." = (true, None).
Proof.
  assert (demo_setuid demo_query = Some (mkSetUid 200 "" [mkSetCookie "uids" "u-1" false])) as Hrun by (vm_compute; reflexivity).
  split; [exact Hrun|].
  destruct (setuid_requires_consent (fun _ => None) (fun _ => None) (fun _ => 0%Z) map_to_list
    (fun c => default ""%string (UID <$> ck_uids c !! "rubicon"%string)) (fun _ => 0%Z) 0 (mkHostCookie "" "" "" "" "" 0) {["rubicon"%string]}
    demo_permissions 5 (fun _ => None) "Firefox" demo_query _ Hrun ltac:(discriminate)) as (_ & _ & Hs & _).
  exact Hs.
Defined.
