(* ===== verification/StoredRequests.v ===== *)
(** * Stored requests

    The [stored_requests] package: the [CacheJSON] interface with the
    in-memory, empty and composed caches, the fetcher that puts a cache in
    front of a backend, [MultiFetcher], the empty and file backends, and the
    listener that keeps a cache up to date from events.  Backends answer from a
    snapshot: a fetcher is a function of the ids it is asked for. *)

From S2P Require Import Prelude Float64 ErrorTypes Json.

Definition Data : Type := gmap string RawMessage.

(** ** Caches *)
Class CacheJSON (S : Type) := {
  Get : S -> list string -> Data;
  Save : S -> Data -> S;
  Invalidate : S -> list string -> S }.

(** What a cache promises.  [holds s id v]: some layer of [s] has [v] stored
    for [id].  A cache may forget, but it answers only what was asked and what
    it holds, and an invalidated id is gone. *)
Class LawfulCache (S : Type) `{CacheJSON S} := {
  holds : S -> string -> RawMessage -> Prop;
  get_holds s ids id v : Get s ids !! id = Some v -> (id ∈ ids) /\ holds s id v;
  save_holds s d id v : holds (Save s d) id v -> d !! id = Some v \/ (d !! id = None /\ holds s id v);
  invalidate_holds s ids id v : holds (Invalidate s ids) id v -> (id ∉ ids) /\ holds s id v }.

(** The unbounded in-memory cache: a synchronised map. *)
Record MemoryCache := mkMemoryCache { mc_map : Data }.
Definition memory_Get (c : MemoryCache) (ids : list string) : Data :=
  fold_left (fun data id => match mc_map c !! id with
                            | Some val => <[id := val]> data
                            | None => data
                            end) ids ∅.
Definition memory_Save (c : MemoryCache) (data : Data) : MemoryCache :=
  mkMemoryCache (data ∪ mc_map c).
Definition memory_Invalidate (c : MemoryCache) (ids : list string) : MemoryCache :=
  mkMemoryCache (fold_left (fun m id => delete id m) ids (mc_map c)).
#[export] Instance memory_cache : CacheJSON MemoryCache := {|
  Get := memory_Get; Save := memory_Save; Invalidate := memory_Invalidate |}.

Lemma fold_get_lookup (m acc : Data) ids id :
  fold_left (fun data id => match m !! id with Some val => <[id := val]> data | None => data end) ids acc !! id =
    if bool_decide (id ∈ ids) then (match m !! id with Some v => Some v | None => acc !! id end) else acc !! id.
Proof.
  revert acc. induction ids as [|i ids IH]; intros acc; simpl; [done|]. rw IH.
  destruct (decide (i = id)) as [->|Hne].
  - assert (bool_decide (id ∈ id :: ids) = true) as -> by (apply bool_decide_eq_true_2; set_solver).
    destruct (m !! id); rw ?lookup_insert_eq; by case_bool_decide.
  - assert (bool_decide (id ∈ i :: ids) = bool_decide (id ∈ ids)) as ->
      by (apply bool_decide_ext; set_solver).
    by destruct (m !! i); rw ?lookup_insert_ne.
Qed.

#[export] Instance memory_lawful : LawfulCache MemoryCache.
Proof.
  refine (Build_LawfulCache _ _ (fun c id v => mc_map c !! id = Some v) _ _ _).
  - intros c ids id v. cbn. rw /memory_Get fold_get_lookup. case_bool_decide; [|done].
    by destruct (mc_map c !! id).
  - intros c d id v. cbn. rw lookup_union_Some_raw. tauto.
  - intros c ids id v. cbn. rw fold_delete_lookup. by case_bool_decide.
Defined.

(** The cache that stores nothing. *)
Record NilCache := mkNilCache {}.
#[export] Instance nil_cache : CacheJSON NilCache := {|
  Get := fun _ _ => ∅; Save := fun c _ => c; Invalidate := fun c _ => c |}.
#[export] Instance nil_lawful : LawfulCache NilCache.
Proof. by refine (Build_LawfulCache _ _ (fun _ _ _ => False) _ _ _). Defined.

(** [updateFromCache]. *)
Fixpoint update_loop (data : Data) (ids : list string) (newData : Data) : Data * list string :=
  match ids with
  | [] => (data, [])
  | id :: rest =>
      match newData !! id with
      | Some config => update_loop (<[id := config]> data) rest newData
      | None => let '(d, rem) := update_loop data rest newData in (d, id :: rem)
      end
  end.
Definition updateFromCache (data : Data) (ids : list string) (newData : Data) : Data * list string :=
  if bool_decide (newData = ∅) then (data, ids) else update_loop data ids newData.

Section Composed.
Context {S : Type} `{LawfulCache S}.

Fixpoint composed_loop (c : list S) (data : Data) (remainingIDs : list string) : Data :=
  match c with
  | [] => data
  | cache :: rest =>
      let cachedData := Get cache remainingIDs in
      let '(data, remainingIDs) := updateFromCache data remainingIDs cachedData in
      match remainingIDs with
      | [] => data
      | _ => composed_loop rest data remainingIDs
      end
  end.
Definition composed_Get (c : list S) (ids : list string) : Data := composed_loop c ∅ ids.
Definition composed_Save (c : list S) (data : Data) : list S := (fun cache => Save cache data) <$> c.
Definition composed_Invalidate (c : list S) (ids : list string) : list S :=
  (fun cache => Invalidate cache ids) <$> c.

#[export] Instance composed_cache : CacheJSON (list S) := {|
  Get := composed_Get; Save := composed_Save; Invalidate := composed_Invalidate |}.

Lemma update_sound data ids newData data' ids' id v :
  updateFromCache data ids newData = (data', ids') ->
  (data' !! id = Some v -> data !! id = Some v \/ (id ∈ ids /\ newData !! id = Some v)) /\
  (forall i, i ∈ ids' -> i ∈ ids).
Proof.
  rw /updateFromCache. case_bool_decide; [intros [= <- <-]; tauto|].
  revert data data' ids'. induction ids as [|i ids IH]; intros data data' ids'; simpl.
  - intros [= <- <-]. tauto.
  - destruct (newData !! i) as [c|] eqn:Ei.
    + intros Hu. destruct (IH _ _ _ Hu) as [Hd Hi]. split; [|set_solver].
      intros [Hl|[? ?]]%Hd; [|set_solver].
      apply lookup_insert_Some in Hl as [[-> ->]|[? ?]]; set_solver.
    + destruct (update_loop data ids newData) as [d rem] eqn:El. intros [= <- <-].
      destruct (IH _ _ _ El) as [Hd Hi]. set_solver.
Qed.

Lemma composed_loop_sound c data ids id v :
  composed_loop c data ids !! id = Some v ->
  data !! id = Some v \/ (id ∈ ids /\ exists cache, cache ∈ c /\ holds cache id v).
Proof.
  revert data ids. induction c as [|cache c IH]; intros data ids; simpl; [by left|].
  destruct (updateFromCache data ids (Get cache ids)) as [data' ids'] eqn:Eu.
  destruct (update_sound _ _ _ _ _ id v Eu) as [Hd Hi].
  assert (data' !! id = Some v -> data !! id = Some v \/
    (id ∈ ids /\ exists cache', cache' ∈ cache :: c /\ holds cache' id v)) as Hhere.
  { intros [?|[? [_ ?]%get_holds]]%Hd; [by left|right]. set_solver. }
  destruct ids' as [|i ids']; [done|].
  intros [?|[? (cache' & ? & ?)]]%IH; [by apply Hhere|right]. set_solver.
Qed.

#[export] Instance composed_lawful : LawfulCache (list S).
Proof.
  refine (Build_LawfulCache _ _ (fun c id v => exists cache, cache ∈ c /\ holds cache id v) _ _ _).
  - intros c ids id v [H1|?]%composed_loop_sound; [|done]. by rw lookup_empty in H1.
  - intros c d id v (cache & Hin & Hh). cbn in Hin. rw /composed_Save in Hin.
    apply list_elem_of_fmap in Hin as (cache' & -> & ?).
    apply save_holds in Hh as [?|[? ?]]; eauto.
  - intros c ids id v (cache & Hin & Hh). cbn in Hin. rw /composed_Invalidate in Hin.
    apply list_elem_of_fmap in Hin as (cache' & -> & ?).
    apply invalidate_holds in Hh as [? ?]; eauto.
Defined.
End Composed.

(** ** Fetchers *)
Record Fetched := mkFetched { f_requests : Data; f_imps : Data; f_errs : list error }.

(** [AllFetcher]; an account is its data or errors. *)
Record AllFetcher := mkFetcher {
  FetchRequests : list string -> list string -> Fetched;
  FetchAccount : string -> RawMessage * list error;
  FetchCategories : string -> string -> string -> string * option error }.

Definition missing (data : Data) (id : string) : bool := bool_decide (data !! id = None).

Definition findLeftovers (ids : list string) (data : Data) : list string :=
  List.filter (missing data) ids.

(** A nil map of cached data is replaced; the caches never return one. *)
Definition mergeData (cachedData : option Data) (fetchedData : Data) : Data :=
  match cachedData with
  | None => fetchedData
  | Some cached => fetchedData ∪ cached
  end.

(** [Cache]: one cache per kind of data. *)
Record Cache (S : Type) := mkCacheSet { c_Requests : S; c_Imps : S; c_Accounts : S }.
Arguments mkCacheSet {S} _ _ _.
Arguments c_Requests {S} _.
Arguments c_Imps {S} _.
Arguments c_Accounts {S} _.

Section WithCache.
Context {S : Type} `{LawfulCache S}.

Definition cached_FetchRequests (fetcher : AllFetcher) (cache : Cache S) (requestIDs impIDs : list string) :
  Fetched * Cache S :=
  let requestData := Get (c_Requests cache) requestIDs in
  let impData := Get (c_Imps cache) impIDs in
  let leftoverImps := findLeftovers impIDs impData in
  let leftoverReqs := findLeftovers requestIDs requestData in
  match leftoverReqs, leftoverImps with
  | [], [] => (mkFetched requestData impData [], cache)
  | _, _ =>
      let fetched := FetchRequests fetcher leftoverReqs leftoverImps in
      let cache := mkCacheSet (Save (c_Requests cache) (f_requests fetched))
                              (Save (c_Imps cache) (f_imps fetched)) (c_Accounts cache) in
      (mkFetched (mergeData (Some requestData) (f_requests fetched))
                 (mergeData (Some impData) (f_imps fetched)) (f_errs fetched), cache)
  end.

Definition cached_FetchAccount (fetcher : AllFetcher) (cache : Cache S) (accountID : string) :
  (RawMessage * list error) * Cache S :=
  match Get (c_Accounts cache) [accountID] !! accountID with
  | Some account => ((account, []), cache)
  | None =>
      let '(account, errs) := FetchAccount fetcher accountID in
      ((account, errs),
       match errs with
       | [] => mkCacheSet (c_Requests cache) (c_Imps cache)
                 (Save (c_Accounts cache) {[accountID := account]})
       | _ => cache
       end)
  end.

(** ** Events *)
Record SaveEvent := mkSave { sv_Requests : Data; sv_Imps : Data; sv_Accounts : Data }.
Record Invalidation := mkInvalidation {
  iv_Requests : list string; iv_Imps : list string; iv_Accounts : list string }.
Inductive Event := EvSave (s : SaveEvent) | EvInvalidate (i : Invalidation) | EvStop.

(** One turn of the loop of [Listen].  The [break] of the stop case leaves
    the select statement, not the loop. *)
Definition listen_turn (cache : Cache S) (ev : Event) : Cache S :=
  match ev with
  | EvSave s => mkCacheSet (Save (c_Requests cache) (sv_Requests s))
                  (Save (c_Imps cache) (sv_Imps s)) (Save (c_Accounts cache) (sv_Accounts s))
  | EvInvalidate i => mkCacheSet (Invalidate (c_Requests cache) (iv_Requests i))
                        (Invalidate (c_Imps cache) (iv_Imps i)) (Invalidate (c_Accounts cache) (iv_Accounts i))
  | EvStop => cache
  end.
Definition Listen (cache : Cache S) (evs : list Event) : Cache S := fold_left listen_turn evs cache.
End WithCache.

(** ** Combining fetchers *)
Definition filter_ids (original : list string) (exclude : Data) : list string :=
  if bool_decide (exclude = ∅) then original else List.filter (missing exclude) original.
Definition is_not_found (e : error) : bool := match e with ENotFound _ _ => true | _ => false end.
Definition dropMissingIDs (errs : list error) : list error :=
  List.filter (fun e => negb (is_not_found e)) errs.
Definition addAll (base toAdd : Data) : Data := toAdd ∪ base.
Definition appendNotFoundErrors (dataType : string) (expected : list string) (contains : Data)
    (errs : list error) : list error :=
  errs ++ ((fun id => ENotFound id dataType) <$> List.filter (missing contains) expected).

(** The loop over the fetchers. *)
Fixpoint multi_loop (mf : list AllFetcher) (requestIDs impIDs : list string) (requestData impData : Data)
    (errs : list error) : list string * list string * Fetched :=
  match mf with
  | [] => (requestIDs, impIDs, mkFetched requestData impData errs)
  | f :: rest =>
      let requestIDs := filter_ids requestIDs requestData in
      let impIDs := filter_ids impIDs impData in
      let these := FetchRequests f requestIDs impIDs in
      multi_loop rest requestIDs impIDs (addAll requestData (f_requests these))
        (addAll impData (f_imps these)) (errs ++ dropMissingIDs (f_errs these))
  end.
Definition multi_FetchRequests (mf : list AllFetcher) (requestIDs impIDs : list string) : Fetched :=
  let '(requestIDs, impIDs, r) := multi_loop mf requestIDs impIDs ∅ ∅ [] in
  let errs := appendNotFoundErrors "Request" requestIDs (f_requests r) (f_errs r) in
  let errs := appendNotFoundErrors "Imp" impIDs (f_imps r) errs in
  mkFetched (f_requests r) (f_imps r) errs.

Fixpoint multi_account_loop (mf : list AllFetcher) (accountID : string) (errs : list error) :
  RawMessage * list error :=
  match mf with
  | [] => (RawNil, errs ++ [ENotFound accountID "Account"])
  | f :: rest =>
      let '(account, accErrs) := FetchAccount f accountID in
      match accErrs with
      | [] => (account, [])
      | _ => multi_account_loop rest accountID (errs ++ dropMissingIDs accErrs)
      end
  end.
Definition multi_FetchAccount (mf : list AllFetcher) (accountID : string) : RawMessage * list error :=
  multi_account_loop mf accountID [].

Fixpoint multi_FetchCategories (mf : list AllFetcher) (primaryAdServer publisherId iabCategory : string) :
  string * option error :=
  match mf with
  | [] => (""%string, Some (ENotFound (primaryAdServer ⧺ "_" ⧺ publisherId ⧺ "." ⧺ iabCategory) "Category"))
  | f :: rest =>
      let '(cat, _) := FetchCategories f primaryAdServer publisherId iabCategory in
      if GoStr.is_empty cat then multi_FetchCategories rest primaryAdServer publisherId iabCategory
      else (cat, None)
  end.

(** ** Backends *)
Definition not_found (dataType : string) (ids : list string) : list error :=
  (fun id => ENotFound id dataType) <$> ids.
Definition EmptyFetcher : AllFetcher :=
  mkFetcher (fun requestIDs impIDs => mkFetched ∅ ∅ (not_found "Request" requestIDs ++ not_found "Imp" impIDs))
            (fun accountID => (RawNil, [ENotFound accountID "Account"]))
            (fun _ _ _ => (""%string, None)).

(** The file backend: the files of the directories below the root. *)
Definition Files : Type := gmap string Data.
Record eagerFetcher := mkEager { ef_dirs : Files; ef_Categories : gmap string (gmap string string) }.

Definition dir_files (dirs : Files) (name : string) : Data := default ∅ (dirs !! name).
Definition appendErrors (dataType : string) (ids : list string) (data : Data) (errs : list error) : list error :=
  errs ++ not_found dataType (List.filter (missing data) ids).
Definition eager_FetchRequests (fetcher : eagerFetcher) (requestIDs impIDs : list string) : Fetched :=
  let storedRequests := dir_files (ef_dirs fetcher) "stored_requests" in
  let storedImpressions := dir_files (ef_dirs fetcher) "stored_imps" in
  let errs := appendErrors "Request" requestIDs storedRequests [] in
  let errs := appendErrors "Imp" impIDs storedImpressions errs in
  mkFetched storedRequests storedImpressions errs.
Definition eager_FetchAccount (fetcher : eagerFetcher) (accountID : string) : RawMessage * list error :=
  if GoStr.is_empty accountID then (RawNil, [EPlain "Cannot look up an empty accountID"])
  else match dir_files (ef_dirs fetcher) "accounts" !! accountID with
       | None => (RawNil, [ENotFound accountID "Account"])
       | Some accountJSON => (accountJSON, [])
       end.

(** A category file maps IAB categories to their ids; the name is not used. *)
Definition dec_category : decoder string := dec_struct (fun kvs =>
  i ← dec_field dec_string ""%string "id" kvs;
  _ ← dec_field dec_string ""%string "name" kvs;
  Some i).
Definition eager_FetchCategories (fetcher : eagerFetcher) (primaryAdServer publisherId iabCategory : string) :
  (string * option error) * eagerFetcher :=
  let fileName := if GoStr.is_empty publisherId then primaryAdServer
                  else primaryAdServer ⧺ "_" ⧺ publisherId in
  match ef_Categories fetcher !! fileName with
  | Some data => ((default ""%string (data !! iabCategory), None), fetcher)
  | None =>
      match ef_dirs fetcher !! primaryAdServer with
      | Some dir =>
          match dir !! fileName with
          | Some file =>
              match unmarshal (dec_map dec_category) file with
              | inr _ =>
                  ((""%string, Some (EPlain ("Unable to unmarshal categories for adserver: '" ⧺ primaryAdServer ⧺
                      "', publisherId: '" ⧺ publisherId ⧺ "'"))), fetcher)
              | inl tmp =>
                  let tmp := map_or_empty tmp in
                  let fetcher := mkEager (<[primaryAdServer := <[fileName := RawNil]> dir]> (ef_dirs fetcher))
                                         (<[fileName := tmp]> (ef_Categories fetcher)) in
                  let resultCategory := default ""%string (tmp !! iabCategory) in
                  if GoStr.is_empty resultCategory then
                    ((""%string, Some (EPlain ("Unable to find category for adserver '" ⧺ primaryAdServer ⧺
                        "', publisherId: '" ⧺ publisherId ⧺ "', iab category: '" ⧺ iabCategory ⧺ "'"))), fetcher)
                  else ((resultCategory, None), fetcher)
              end
          | None =>
              ((""%string, Some (EPlain ("Unable to find mapping file for adserver: '" ⧺ primaryAdServer ⧺
                  "', publisherId: '" ⧺ publisherId ⧺ "'"))), fetcher)
          end
      | None =>
          ((""%string, Some (EPlain ("Category '" ⧺ iabCategory ⧺ "' not found for server: '" ⧺ primaryAdServer ⧺
              "', publisherId: '" ⧺ publisherId ⧺ "'"))), fetcher)
      end
  end.
(** The file backend as a fetcher at one moment. *)
Definition eager_fetcher (e : eagerFetcher) : AllFetcher :=
  mkFetcher (eager_FetchRequests e) (eager_FetchAccount e) (fun a p c => (eager_FetchCategories e a p c).1).

(** ** Correctness of caching *)
(** A backend that answers from the tables [dbR] and [dbI]: exactly the data
    of the ids it is asked for, and an error for each id it does not have. *)
Definition backend_of (dbR dbI : Data) (f : AllFetcher) : Prop :=
  forall rs is_, FetchRequests f rs is_ =
    mkFetched (filter (fun kv => kv.1 ∈ rs) dbR) (filter (fun kv => kv.1 ∈ is_) dbI)
      (not_found "Request" (List.filter (missing dbR) rs) ++ not_found "Imp" (List.filter (missing dbI) is_)).

Lemma filter_filter_imp {A} (p q : A -> bool) l :
  (forall x, p x = true -> q x = true) -> List.filter p (List.filter q l) = List.filter p l.
Proof.
  intros Hpq. induction l as [|x l IH]; simpl; [done|].
  destruct (q x) eqn:Eq; simpl; destruct (p x) eqn:Ep; rw IH //. by rw (Hpq x Ep) in Eq.
Qed.

Section CacheCorrect.
Context {S : Type} `{LawfulCache S}.

(** The cache holds nothing but what the table has. *)
Definition coherent (s : S) (db : Data) : Prop := forall id v, holds s id v -> db !! id = Some v.

Lemma coherent_save s db d :
  coherent s db -> d ⊆ db -> coherent (Save s d) db.
Proof.
  intros Hc Hd id v [Hv|[_ Hv]]%save_holds; [by eapply lookup_weaken|by apply Hc].
Qed.

Lemma missing_spec d id : missing d id = true <-> d !! id = None.
Proof. apply bool_decide_eq_true. Qed.

Lemma leftovers_elem ids d id : id ∈ findLeftovers ids d <-> id ∈ ids /\ d !! id = None.
Proof. rw /findLeftovers !list_elem_of_In List.filter_In missing_spec. done. Qed.

(** The data for one kind of id, whether or not the backend was asked. *)
Lemma merged_lookup s db ids id :
  coherent s db -> id ∈ ids ->
  mergeData (Some (Get s ids)) (filter (fun kv => kv.1 ∈ findLeftovers ids (Get s ids)) db) !! id = db !! id.
Proof.
  intros Hc Hid. cbn. destruct (Get s ids !! id) as [v|] eqn:E.
  - assert (db !! id = Some v) as Hdb by (apply get_holds in E as [_ ?]; by apply Hc).
    rw Hdb lookup_union_r //. apply map_lookup_filter_None_2. right. intros x _ Hin. simpl in Hin.
    apply leftovers_elem in Hin as [_ ?]. congruence.
  - rw lookup_union E right_id_L. destruct (db !! id) as [v|] eqn:Edb.
    + apply map_lookup_filter_Some_2; [done|]. simpl. by apply leftovers_elem.
    + apply map_lookup_filter_None_2. by left.
Qed.

Lemma missing_leftovers s db ids :
  coherent s db -> List.filter (missing db) (findLeftovers ids (Get s ids)) = List.filter (missing db) ids.
Proof.
  intros Hc. rw /findLeftovers. assert (forall i, missing db i = true -> missing (Get s ids) i = true) as Himp.
  { intros i. rw !missing_spec. intros Hi. destruct (Get s ids !! i) eqn:E; [|done].
    apply get_holds in E as [_ E]. apply Hc in E. congruence. }
  by apply filter_filter_imp.
Qed.

Lemma filter_nil_missing ids d : findLeftovers ids d = [] -> forall id, id ∈ ids -> is_Some (d !! id).
Proof.
  intros Hn id Hid. apply not_eq_None_Some. intros Hl.
  assert (id ∈ findLeftovers ids d) as Hin by by apply leftovers_elem. rw Hn in Hin. by apply elem_of_nil in Hin.
Qed.
End CacheCorrect.

(** C38: with coherent caches in front of a backend, a fetch answers for every
    id it is asked for exactly what the backend's table has, reports exactly
    the ids the table misses, and leaves the caches coherent. *)
Theorem cached_fetch_transparent {S} `{LawfulCache S} (f : AllFetcher) (dbR dbI : Data) (cache : Cache S) rs ims
    (Hb : backend_of dbR dbI f)
    (HR : coherent (c_Requests cache) dbR) (HI : coherent (c_Imps cache) dbI) :
  let '(r, cache') := cached_FetchRequests f cache rs ims in
  (forall id, id ∈ rs -> f_requests r !! id = dbR !! id) /\
  (forall id, id ∈ ims -> f_imps r !! id = dbI !! id) /\
  f_errs r = not_found "Request" (List.filter (missing dbR) rs) ++ not_found "Imp" (List.filter (missing dbI) ims) /\
  coherent (c_Requests cache') dbR /\ coherent (c_Imps cache') dbI.
Proof.
  rw /cached_FetchRequests Hb.
  set (lr := findLeftovers rs _). set (li := findLeftovers ims _).
  assert (forall id, id ∈ rs -> mergeData (Some (Get (c_Requests cache) rs)) (filter (fun kv => kv.1 ∈ lr) dbR) !! id = dbR !! id)
    as HdR by (intros; by apply merged_lookup).
  assert (forall id, id ∈ ims -> mergeData (Some (Get (c_Imps cache) ims)) (filter (fun kv => kv.1 ∈ li) dbI) !! id = dbI !! id)
    as HdI by (intros; by apply merged_lookup).
  assert (List.filter (missing dbR) lr = List.filter (missing dbR) rs) as HmR by by apply missing_leftovers.
  assert (List.filter (missing dbI) li = List.filter (missing dbI) ims) as HmI by by apply missing_leftovers.
  destruct (decide (lr = [] /\ li = [])) as [[Er Ei]|Hne].
  - rw Er Ei. cbn. rw Er /= in HmR. rw Ei /= in HmI. rw -HmR -HmI.
    assert (forall (m : Data), filter (fun kv : string * RawMessage => kv.1 ∈ ([] : list string)) m = ∅) as Hnil.
    { intros m. apply map_eq. intros i. rw lookup_empty. apply map_lookup_filter_None_2. right.
      intros x _. simpl. apply not_elem_of_nil. }
    rw Er Hnil /= in HdR. rw Ei Hnil /= in HdI.
    split_and!; try done; intros id Hid; [rw -(HdR id Hid)|rw -(HdI id Hid)]; by rw left_id_L.
  - assert (coherent (Save (c_Requests cache) (filter (fun kv => kv.1 ∈ lr) dbR)) dbR)
      by (apply coherent_save; [done|apply map_filter_subseteq]).
    assert (coherent (Save (c_Imps cache) (filter (fun kv => kv.1 ∈ li) dbI)) dbI)
      by (apply coherent_save; [done|apply map_filter_subseteq]).
    destruct lr, li; try tauto; cbn [f_requests f_imps f_errs c_Requests c_Imps]; rw HmR HmI; done.
Qed.

(** A backend over two tables. *)
Definition table_fetcher (dbR dbI : Data) : AllFetcher :=
  mkFetcher (fun rs is_ => mkFetched (filter (fun kv => kv.1 ∈ rs) dbR) (filter (fun kv => kv.1 ∈ is_) dbI)
      (not_found "Request" (List.filter (missing dbR) rs) ++ not_found "Imp" (List.filter (missing dbI) is_)))
    (fun id => (RawNil, [ENotFound id "Account"])) (fun _ _ _ => (""%string, None)).
Definition demo_db : Data :=
  <["a"%string := RawJson (JStr "A")]> {["b"%string := RawJson (JStr "B")]}.

(** The theorem with one id cached, one to fetch and one missing. *)
Lemma cached_fetch_transparent_witness :
  let cache := mkCacheSet [mkMemoryCache {["a"%string := RawJson (JStr "A")]}] [] [] in
  let '(r, _) := cached_FetchRequests (table_fetcher demo_db ∅) cache ["a"; "b"; "c"]%string [] in
  f_requests r !! "b"%string = Some (RawJson (JStr "B")) /\ f_errs r = [ENotFound "c" "Request"].
Proof.
  intros cache.
  pose proof (cached_fetch_transparent (table_fetcher demo_db ∅) demo_db ∅ cache ["a"; "b"; "c"]%string []) as H.
  destruct (cached_FetchRequests _ _ _ _) as [r cache'].
  destruct H as (HR & _ & He & _).
  - intros rs is_. reflexivity.
  - intros id v (m & Hm & Hv). apply list_elem_of_singleton in Hm as ->. simpl in Hv.
    apply lookup_singleton_Some in Hv as [<- <-]. reflexivity.
  - intros id v (m & Hm & _). by apply elem_of_nil in Hm.
  - assert ("b"%string ∈ ["a"; "b"; "c"]%string) as Hb by set_solver.
    rw He (HR _ Hb). split; reflexivity.
Defined.

(** ** Invalidation and listening *)
Lemma listen_forgets {S} `{LawfulCache S} (cache : Cache S) evs id :
  (forall v, ~ holds (c_Requests cache) id v) ->
  Forall (fun ev => match ev with EvSave s => sv_Requests s !! id = None | _ => True end) evs ->
  forall v, ~ holds (c_Requests (Listen cache evs)) id v.
Proof.
  rw /Listen. intros Hno Hevs. revert cache Hno.
  induction Hevs as [|ev evs Hev _ IH]; intros cache Hno; simpl; [done|]. apply IH.
  intros v. destruct ev as [s|i|]; simpl; [| |by apply Hno].
  - intros [Hs|[_ ?]]%save_holds; [congruence|by eapply Hno].
  - intros [_ ?]%invalidate_holds. by eapply Hno.
Qed.

(** An id that has been invalidated is not served from any layer of the
    cache again until some later event saves it, whatever else the listener
    processes in between. *)
Theorem invalidation_effective {S} `{LawfulCache S} (cache : Cache S) inv evs id ids
    (Hin : id ∈ iv_Requests inv)
    (Hevs : Forall (fun ev => match ev with EvSave s => sv_Requests s !! id = None | _ => True end) evs) :
  Get (c_Requests (Listen cache (EvInvalidate inv :: evs))) ids !! id = None.
Proof.
  destruct (Get _ ids !! id) as [v|] eqn:E; [|done]. apply get_holds in E as [_ Hv].
  exfalso. revert Hv. apply (listen_forgets (listen_turn cache (EvInvalidate inv)) evs id); [|done].
  intros v' [Hn _]%invalidate_holds. done.
Qed.

(** The theorem with a saved id, its invalidation and another save. *)
Lemma invalidation_effective_witness :
  let cache := mkCacheSet (mkMemoryCache demo_db) (mkMemoryCache ∅) (mkMemoryCache ∅) in
  Get (c_Requests (Listen cache [EvInvalidate (mkInvalidation ["a"%string] [] []);
                                 EvSave (mkSave {["z"%string := RawNil]} ∅ ∅)])) ["a"; "b"]%string !! "a"%string = None.
Proof.
  intros cache.
  apply (invalidation_effective cache (mkInvalidation ["a"%string] [] []) [EvSave (mkSave {["z"%string := RawNil]} ∅ ∅)]).
  - simpl. set_solver.
  - constructor; [reflexivity|constructor].
Defined.

(** Stopping a listener has no effect: it goes on applying the saves and
    invalidations that arrive after the stop signal exactly as if the signal
    had not been sent. *)
Theorem listener_ignores_stop {S} `{CacheJSON S} (cache : Cache S) before after :
  Listen cache (before ++ EvStop :: after) = Listen cache (before ++ after).
Proof. by rw /Listen !fold_left_app. Qed.

(** ** Combined fetchers *)
Section Multi.
(** A fetcher that answers from a table, whatever errors it reports. *)
Definition answers_from (dbR dbI : Data) (f : AllFetcher) : Prop :=
  forall rs is_, f_requests (FetchRequests f rs is_) = filter (fun kv => kv.1 ∈ rs) dbR /\
                 f_imps (FetchRequests f rs is_) = filter (fun kv => kv.1 ∈ is_) dbI.

Lemma filter_ids_elem ids d id : id ∈ filter_ids ids d <-> id ∈ ids /\ d !! id = None.
Proof.
  rw /filter_ids. case_bool_decide as Hd.
  - subst d. rw lookup_empty. tauto.
  - rw !list_elem_of_In List.filter_In missing_spec. done.
Qed.

(** The first table that has the id. *)
Fixpoint first_db (dbs : list Data) (id : string) : option RawMessage :=
  match dbs with
  | [] => None
  | db :: rest => match db !! id with Some v => Some v | None => first_db rest id end
  end.

Lemma table_round ids (data db : Data) id :
  id ∈ filter_ids ids data -> filter (fun kv => kv.1 ∈ filter_ids ids data) db !! id = db !! id.
Proof.
  intros Hid. destruct (db !! id) eqn:E; [by apply map_lookup_filter_Some_2|].
  apply map_lookup_filter_None_2. by left.
Qed.

Lemma multi_loop_requests mf dbs rs ims dR dI errs rs' ims' r id :
  Forall2 (fun f db => answers_from db.1 db.2 f) mf dbs ->
  multi_loop mf rs ims dR dI errs = (rs', ims', r) ->
  (id ∈ rs \/ is_Some (dR !! id)) ->
  f_requests r !! id = match dR !! id with Some v => Some v | None => first_db (fst <$> dbs) id end /\
  (id ∈ rs' \/ is_Some (f_requests r !! id)).
Proof.
  intros Hall. revert rs ims dR dI errs.
  induction Hall as [|f [dbR dbI] mf dbs Hf Hall IH]; intros rs ims dR dI errs; simpl.
  - intros [= <- <- <-] [?|?]; simpl; (split; [by destruct (dR !! id)|tauto]).
  - destruct (Hf (filter_ids rs dR) (filter_ids ims dI)) as [HfR _].
    set (these := FetchRequests f _ _) in *.
    intros Hm Hid. apply IH in Hm as [-> ?].
    + split; [|done]. rw /addAll HfR lookup_union.
      destruct (dR !! id) as [v|] eqn:EdR.
      * assert (filter (fun kv => kv.1 ∈ filter_ids rs dR) dbR !! id = None) as Hn.
        { apply map_lookup_filter_None_2. right. intros x _ [_ Hd]%filter_ids_elem. simpl in Hd. congruence. }
        by rw Hn EdR.
      * assert (id ∈ filter_ids rs dR) as Hin
          by (apply filter_ids_elem; destruct Hid as [?|[? ?]]; [done|congruence]).
        rw (table_round _ _ _ _ Hin) EdR /=. by destruct (dbR !! id).
    + rw /addAll HfR lookup_union. destruct (dR !! id) as [v|] eqn:EdR.
      * right. rw EdR. destruct (filter _ _ !! id); eexists; reflexivity.
      * left. apply filter_ids_elem. destruct Hid as [?|[? ?]]; [done|congruence].
Qed.

Lemma multi_loop_errs mf rs ims dR dI errs rs' ims' r e :
  multi_loop mf rs ims dR dI errs = (rs', ims', r) ->
  e ∈ f_errs r -> is_not_found e = true -> e ∈ errs.
Proof.
  revert rs ims dR dI errs. induction mf as [|f mf IH]; intros rs ims dR dI errs; simpl.
  - by intros [= _ _ <-].
  - intros Hm He Hn. pose proof (IH _ _ _ _ _ Hm He Hn) as [?|Hd]%elem_of_app; [done|].
    rw /dropMissingIDs list_elem_of_In List.filter_In Hn in Hd. by destruct Hd.
Qed.

Lemma multi_loop_sub mf rs ims dR dI errs rs' ims' r id :
  multi_loop mf rs ims dR dI errs = (rs', ims', r) -> id ∈ rs' -> id ∈ rs.
Proof.
  revert rs ims dR dI errs. induction mf as [|f mf IH]; intros rs ims dR dI errs; simpl.
  - by intros [= -> _ _].
  - intros Hm Hid. by apply (IH _ _ _ _ _ Hm), filter_ids_elem in Hid as [].
Qed.
End Multi.

(** A combination of fetchers that each answer from a table of their own
    gives, for every requested id, the data of the first table that has it,
    and reports an id as not found exactly when no table has it. *)
Theorem multifetcher_first_wins mf dbs rs ims id
    (Hall : Forall2 (fun f db => answers_from db.1 db.2 f) mf dbs) (Hid : id ∈ rs) :
  let r := multi_FetchRequests mf rs ims in
  f_requests r !! id = first_db (fst <$> dbs) id /\
  (ENotFound id "Request" ∈ f_errs r <-> first_db (fst <$> dbs) id = None).
Proof.
  rw /multi_FetchRequests. destruct (multi_loop mf rs ims ∅ ∅ []) as [[rs' ims'] r] eqn:Em. cbn.
  destruct (multi_loop_requests _ _ _ _ _ _ _ _ _ _ id Hall Em (or_introl Hid)) as [Hl Hrem].
  rw lookup_empty in Hl. split; [done|]. rw -Hl /appendNotFoundErrors !elem_of_app.
  assert (ENotFound id "Request" ∉ f_errs r) as Hno.
  { intros He. pose proof (multi_loop_errs _ _ _ _ _ _ _ _ _ _ Em He eq_refl) as Hn. by apply elem_of_nil in Hn. }
  rw !list_elem_of_fmap. split.
  - intros [[?|(i & [= <-] & Hi)]|(i & ? & _)]; [done| |done].
    by apply list_elem_of_In, List.filter_In in Hi as [_ ?%missing_spec].
  - intros Hn. left. right. exists id. split; [done|]. apply list_elem_of_In, List.filter_In.
    rw missing_spec. split; [|done]. apply list_elem_of_In.
    destruct Hrem as [?|[v Hv]]; [done|]. congruence.
Qed.

(** The theorem with two tables that both have the id. *)
Lemma multifetcher_first_wins_witness :
  let other : Data := {["b"%string := RawJson (JStr "other")]} in
  f_requests (multi_FetchRequests [table_fetcher demo_db ∅; table_fetcher other ∅] ["b"; "q"]%string []) !! "b"%string
  = Some (RawJson (JStr "B")).
Proof.
  intros other.
  rw (proj1 (multifetcher_first_wins [table_fetcher demo_db ∅; table_fetcher other ∅]
        [(demo_db, ∅); (other, ∅)] ["b"; "q"]%string [] "b"%string
        ltac:(repeat constructor) ltac:(set_solver))).
  reflexivity.
Defined.

(** The order of the fetchers is not respected when one of them is the
    file fetcher, which returns all its files whatever it is asked for: placed
    last, it overwrites the data an earlier fetcher found for the same id,
    although the id was no longer requested from it. *)
Theorem file_fetcher_overrides (v1 v2 : RawMessage) :
  let files := eager_fetcher (mkEager {["stored_requests"%string := {["a"%string := v2]}]} ∅) in
  let first := table_fetcher {["a"%string := v1]} ∅ in
  f_requests (multi_FetchRequests [first] ["a"%string] []) !! "a"%string = Some v1 /\
  f_requests (multi_FetchRequests [first; files] ["a"%string] []) !! "a"%string = Some v2.
Proof. split; reflexivity. Qed.

(** Asking the file fetcher for a category again gives the same category,
    although the first answer came from the file and later ones from memory,
    and the file was dropped in between. *)
Theorem file_categories_stable e server pub cat cat' :
  let '(r1, e1) := eager_FetchCategories e server pub cat in
  let '(r2, e2) := eager_FetchCategories e1 server pub cat' in
  let '(r3, e3) := eager_FetchCategories e2 server pub cat in
  r3.1 = r1.1.
Proof.
  rw /eager_FetchCategories. set (fileName := if GoStr.is_empty pub then server else _).
  destruct (ef_Categories e !! fileName) as [data|] eqn:Ec; cbn; [by rw !Ec|].
  destruct (ef_dirs e !! server) as [dir|] eqn:Ed; cbn; [|by rw Ec Ed /= Ec Ed].
  destruct (dir !! fileName) as [file|] eqn:Ef; cbn; [|by rw Ec Ed Ef /= Ec Ed Ef].
  destruct (unmarshal (dec_map dec_category) file) as [tmp|] eqn:Eu; cbn; [|by rw Ec Ed Ef Eu /= Ec Ed Ef Eu].
  destruct (GoStr.is_empty (default _ _)) eqn:Ee; cbn; rw !lookup_insert_eq /= ?lookup_insert_eq //=.
  by apply is_empty_true in Ee.
Qed.
