(* ===== verification/StoredEvents.v ===== *)
(** * Cache updates

    The event producers of [stored_requests/events]: polling an HTTP API
    ([http/http.go]), polling a database ([postgres/database.go]) and the API
    that is posted to ([api/api.go]).  A producer has two channels that hold
    one event each, from which the listener of [StoredRequests] keeps a cache
    up to date; the channels are read in any order.  The system of a polling
    producer, its channels and the listener is a step relation. *)

From stdpp Require Import relations.
From S2P Require Import Prelude ErrorTypes Json JsonParser StoredRequests.

(** ** Events as JSON, [events.go] *)
Definition dec_data : decoder Data := fun j => map_or_empty <$> dec_map (fun j => Some (RawJson j)) j.
Definition dec_save : decoder SaveEvent := dec_struct (fun kvs =>
  requests ← dec_field dec_data ∅ "requests" kvs;
  imps ← dec_field dec_data ∅ "imps" kvs;
  accounts ← dec_field dec_data ∅ "accounts" kvs;
  Some (mkSave requests imps accounts)).
Definition dec_invalidation : decoder Invalidation := dec_struct (fun kvs =>
  requests ← dec_field (dec_list dec_string) [] "requests" kvs;
  imps ← dec_field (dec_list dec_string) [] "imps" kvs;
  accounts ← dec_field (dec_list dec_string) [] "accounts" kvs;
  Some (mkInvalidation requests imps accounts)).

(** ** The API *)
Definition line (s : string) : string := s ⧺ String (Ascii.ascii_of_nat 10) "".
(** [HandleEvent]: the status and text of an error, or the event that is sent;
    [None] is a body that cannot be read. *)
Definition HandleEvent (method : string) (body : option RawMessage) : (Z * string) + Event :=
  if GoStr.eqb method "POST" then
    match body with
    | None => inl (400%Z, line "Missing update data.")
    | Some body => match unmarshal dec_save body with inl save => inr (EvSave save) | inr _ => inl (400%Z, line "Invalid update.") end
    end
  else if GoStr.eqb method "DELETE" then
    match body with
    | None => inl (400%Z, line "Missing invalidation data.")
    | Some body => match unmarshal dec_invalidation body with
                   | inl invalidation => inr (EvInvalidate invalidation)
                   | inr _ => inl (400%Z, line "Invalid invalidation.")
                   end
    end
  else inl (405%Z, ""%string).

(** What a producer sends after a poll, in this order. *)
Definition Emission : Type := option SaveEvent * option Invalidation.
Definition save_of (requests imps accounts : Data) : option SaveEvent :=
  if (0 <? size requests) || (0 <? size imps) || (0 <? size accounts) then Some (mkSave requests imps accounts) else None.
Definition invalidation_of (requests imps accounts : list string) : option Invalidation :=
  if (0 <? length requests) || (0 <? length imps) || (0 <? length accounts) then Some (mkInvalidation requests imps accounts) else None.

(** ** Polling an HTTP API *)
Section Http.
Context `{JsonParser} (order : Data -> list (string * RawMessage)).

(** A status and a body, or the error of the call or of reading the body. *)
Definition HttpResponse : Type := Z * RawMessage + error.
(** [parse]: the [responseContract] has the members of a save. *)
Definition parse (resp : HttpResponse) : option SaveEvent :=
  match resp with
  | inr _ => None
  | inl (status, body) =>
      if (status =? 200)%Z then match unmarshal dec_save body with inl respObj => Some respObj | inr _ => None end else None
  end.
(** [fetchAll]: what is sent. *)
Definition http_fetchAll (resp : HttpResponse) : Emission :=
  match parse resp with
  | Some respObj => (save_of (sv_Requests respObj) (sv_Imps respObj) (sv_Accounts respObj), None)
  | None => (None, None)
  end.

Definition is_deleted (msg : RawMessage) : bool :=
  let a := jp_Get msg ["deleted"%string] in bool_decide (jp_err a = None) && GoStr.eqb (jp_value a) "true".
(** [extractInvalidations]: what is left of the changes, the deleted ids. *)
Definition extract_step (acc : Data * list string) (change : string * RawMessage) : Data * list string :=
  let '(id, msg) := change in
  if is_deleted msg then (delete id acc.1, acc.2 ++ [id]) else acc.
Definition extractInvalidations (changes : Data) : Data * list string := fold_left extract_step (order changes) (changes, []).
(** One turn of [refresh]: what is sent and the new time; [None] when the
    response is of no use. *)
Definition http_refresh (resp : HttpResponse) (thisTime : Z) : option (Emission * Z) :=
  match parse resp with
  | None => None
  | Some respObj =>
      let '(requests, deletedRequests) := extractInvalidations (sv_Requests respObj) in
      let '(imps, deletedImps) := extractInvalidations (sv_Imps respObj) in
      let '(accounts, deletedAccounts) := extractInvalidations (sv_Accounts respObj) in
      Some ((save_of requests imps accounts, invalidation_of deletedRequests deletedImps deletedAccounts), thisTime)
  end.
End Http.

(** ** Polling a database *)
(** A row, or the error of scanning it. *)
Record Row := mkRow { row_id : string; row_data : RawMessage; row_type : string }.
Record RowsAcc := mkRowsAcc {
  ra_requests : Data; ra_imps : Data; ra_requestInvalidations : list string; ra_impInvalidations : list string }.
(** No data, or null. *)
Definition no_data (data : RawMessage) : bool :=
  raw_len0 data || match data with RawJson JNull => true | _ => false end.
Definition read_row (acc : RowsAcc) (row : Row) : RowsAcc :=
  let 'mkRowsAcc rs is_ ri ii := acc in
  if GoStr.eqb (row_type row) "request" then
    if no_data (row_data row) then mkRowsAcc rs is_ (ri ++ [row_id row]) ii
    else mkRowsAcc (<[row_id row := row_data row]> rs) is_ ri ii
  else if GoStr.eqb (row_type row) "imp" then
    if no_data (row_data row) then mkRowsAcc rs is_ ri (ii ++ [row_id row])
    else mkRowsAcc rs (<[row_id row := row_data row]> is_) ri ii
  else acc.
(** The rows, each of which may fail to scan, and the error at their end. *)
Fixpoint read_rows (rows : list (Row + error)) (rows_err : option error) (acc : RowsAcc) : RowsAcc + error :=
  match rows with
  | [] => match rows_err with None => inl acc | Some err => inr err end
  | inr err :: _ => inr err
  | inl row :: rest => read_rows rest rows_err (read_row acc row)
  end.
(** [sendEvents]; [lastUpdate] is [None] at the first run. *)
Definition sendEvents (lastUpdate : option Z) (rows : list (Row + error)) (rows_err : option error) : Emission + error :=
  match read_rows rows rows_err (mkRowsAcc ∅ ∅ [] []) with
  | inr err => inr err
  | inl (mkRowsAcc rs is_ ri ii) =>
      inl (save_of rs is_ ∅, if bool_decide (lastUpdate = None) then None else invalidation_of ri ii [])
  end.
(** A query: its error, or rows with the error at their end and of closing. *)
Record QueryResult := mkQueryResult {
  qr_rows : list (Row + error); qr_err : option error; qr_close : option error }.
(** [Run], that is [fetchAll] or [fetchDelta]: what is sent, the time of the
    last update and the error. *)
Definition postgres_Run (lastUpdate : option Z) (query : option Z -> QueryResult + error) (startTime : Z) :
  Emission * option Z * option error :=
  match query lastUpdate with
  | inr err => ((None, None), lastUpdate, Some err)
  | inl r =>
      match sendEvents lastUpdate (qr_rows r) (qr_err r) with
      | inr err => ((None, None), lastUpdate, match qr_close r with Some e => Some e | None => Some err end)
      | inl emission => (emission, Some startTime, qr_close r)
      end
  end.

(** The timeout of a query: the configured milliseconds, made a duration by
    [newEventProducers] and again by [fetchAll]. *)
Definition queryTimeout (configured : Z) : Z := Int64.wrap (Int64.wrap (configured * 1000000) * 1000000).

(** ** A producer, its channels and the listener *)
Inductive ProducerState := Idle | Sending (save : option SaveEvent) (invalidation : option Invalidation) (tick : Z).
Record System (S : Type) := mkSystem {
  sy_producer : ProducerState; sy_lastUpdate : Z; sy_saves : option SaveEvent; sy_invalidations : option Invalidation;
  sy_cache : Cache S }.
Arguments mkSystem {S}.
Arguments sy_producer {S}.
Arguments sy_lastUpdate {S}.
Arguments sy_saves {S}.
Arguments sy_invalidations {S}.
Arguments sy_cache {S}.

Section Steps.
Context {S : Type} `{CacheJSON S}.
(** A poll by an idle producer. *)
Inductive poll (emission : Emission) (tick : Z) : System S -> System S -> Prop :=
  | Poll last saves invs cache :
      poll emission tick (mkSystem Idle last saves invs cache) (mkSystem (Sending emission.1 emission.2 tick) last saves invs cache).
(** The producer sends when there is room, the save first, then notes the
    time; the listener takes what is there. *)
Inductive step : System S -> System S -> Prop :=
  | SendSave s i t last invs cache :
      step (mkSystem (Sending (Some s) i t) last None invs cache) (mkSystem (Sending None i t) last (Some s) invs cache)
  | SendInvalidation i t last saves cache :
      step (mkSystem (Sending None (Some i) t) last saves None cache) (mkSystem (Sending None None t) last saves (Some i) cache)
  | Finish t last saves invs cache :
      step (mkSystem (Sending None None t) last saves invs cache) (mkSystem Idle t saves invs cache)
  | TakeSave p last s invs cache :
      step (mkSystem p last (Some s) invs cache) (mkSystem p last None invs (listen_turn cache (EvSave s)))
  | TakeInvalidation p last saves i cache :
      step (mkSystem p last saves (Some i) cache) (mkSystem p last saves None (listen_turn cache (EvInvalidate i))).
End Steps.

(** ** What an emission must say *)
Record Tables := mkTables { tb_Requests : Data; tb_Imps : Data; tb_Accounts : Data }.
(** The saved data is that of the new table, and what changed is saved or
    invalidated. *)
Definition kind_describes (db0 db1 saved : Data) (gone : list string) : Prop :=
  saved ⊆ db1 /\ forall id, db1 !! id = db0 !! id \/ is_Some (saved !! id) \/ id ∈ gone.
Definition no_save : SaveEvent := mkSave ∅ ∅ ∅.
Definition no_invalidation : Invalidation := mkInvalidation [] [] [].
Definition describes (db0 db1 : Tables) (e : Emission) : Prop :=
  let s := default no_save e.1 in
  let i := default no_invalidation e.2 in
  kind_describes (tb_Requests db0) (tb_Requests db1) (sv_Requests s) (iv_Requests i) /\
  kind_describes (tb_Imps db0) (tb_Imps db1) (sv_Imps s) (iv_Imps i) /\
  kind_describes (tb_Accounts db0) (tb_Accounts db1) (sv_Accounts s) (iv_Accounts i).

Lemma save_of_default rs is_ acs : default no_save (save_of rs is_ acs) = mkSave rs is_ acs.
Proof.
  unfold save_of. destruct (Nat.ltb_spec 0 (size rs)); [done|]. destruct (Nat.ltb_spec 0 (size is_)); [done|].
  destruct (Nat.ltb_spec 0 (size acs)); [done|]. cbn. unfold no_save. f_equal; symmetry; by apply map_size_empty_inv, Nat.le_0_r.
Qed.
Lemma invalidation_of_default rs is_ acs : default no_invalidation (invalidation_of rs is_ acs) = mkInvalidation rs is_ acs.
Proof. unfold invalidation_of. by destruct rs, is_, acs. Qed.

(** A loop over the entries of a map that deletes those with [p] and notes
    their ids. *)
Section Dropping.
Context (order : Data -> list (string * RawMessage)) (order_visits : forall m, map_range m (order m)).
Context {R : Type} (p : RawMessage -> bool) (note : string -> R).
Definition drop_step (acc : Data * list R) (entry : string * RawMessage) : Data * list R :=
  let '(id, msg) := entry in
  if p msg then (delete id acc.1, acc.2 ++ [note id]) else acc.
Lemma drop_loop l acc :
  (forall id, (fold_left drop_step l acc).1 !! id =
     if existsb (fun q => GoStr.eqb q.1 id && p q.2) l then None else acc.1 !! id) /\
  (forall x, x ∈ (fold_left drop_step l acc).2 <-> x ∈ acc.2 \/ exists id msg, (id, msg) ∈ l /\ p msg = true /\ x = note id).
Proof.
  revert acc. induction l as [|[i m] l IH]; intros acc; cbn [fold_left existsb fst snd].
  { split; [done|]. intros x. split; [by left|]. by intros [?|(? & ? & Hin%elem_of_nil & _)]. }
  destruct (IH (drop_step acc (i, m))) as [IHl IHi]. split; [intros id; rw IHl|intros x; rw IHi]; unfold drop_step;
    destruct (p m) eqn:Em; cbn [fst snd].
  - rw andb_true_r. destruct (eqb_spec i id) as [->|Hne]; [rw lookup_delete_eq; by case_match|]. by rw lookup_delete_ne.
  - by rw andb_false_r.
  - rw elem_of_app list_elem_of_singleton. split.
    + intros [[?| ->]|(id & msg & ? & ?)]; [by left|right; exists i, m; split; [by left|done]|right; exists id, msg; split; [by right|done]].
    + intros [?|(id & msg & [[= -> ->]|Hin]%elem_of_cons & Hm & ->)]; [by left; left|by left; right|right; by exists id, msg].
  - split; (intros [?|(id & msg & Hin & Hm)]; [by left|right]); exists id, msg; (split; [|done]); [by right|].
    apply elem_of_cons in Hin as [[= -> ->]|Hin]; [destruct Hm; congruence|done].
Qed.
Lemma drop_spec (m : Data) notes :
  (forall id, (fold_left drop_step (order m) (m, notes)).1 !! id =
     match m !! id with Some msg => if p msg then None else Some msg | None => None end) /\
  (forall x, x ∈ (fold_left drop_step (order m) (m, notes)).2 <->
     x ∈ notes \/ exists id msg, m !! id = Some msg /\ p msg = true /\ x = note id).
Proof.
  pose proof (fun id msg => map_range_elem _ _ id msg (order_visits m)) as Hin.
  destruct (drop_loop (order m) (m, notes)) as [Hl Hi]. split.
  - intros id. rw Hl. cbn [fst]. destruct (existsb _ _) eqn:Ex.
    + apply existsb_exists in Ex as ([i msg] & He%list_elem_of_In & [Hid%eqb_eq Hm]%andb_true_iff). cbn in Hid, Hm. subst i.
      apply Hin in He. by rw He Hm.
    + destruct (m !! id) as [msg|] eqn:Ec; [|done]. destruct (p msg) eqn:Em; [|done].
      exfalso. apply not_true_iff_false in Ex. apply Ex, existsb_exists. exists (id, msg).
      split; [by apply list_elem_of_In, Hin|]. cbn [fst snd]. by rw eqb_refl Em.
  - intros x. rw Hi. cbn [snd]. split; (intros [?|(id & msg & He & Hm)]; [by left|right]); exists id, msg; (split; [by apply Hin|done]).
Qed.
End Dropping.

Section HttpFacts.
Context `{JsonParser} (order : Data -> list (string * RawMessage)).
Hypothesis order_visits : forall m, map_range m (order m).

Lemma extract_spec changes :
  (forall id, (extractInvalidations order changes).1 !! id =
     match changes !! id with Some msg => if is_deleted msg then None else Some msg | None => None end) /\
  (forall id, id ∈ (extractInvalidations order changes).2 <-> exists msg, changes !! id = Some msg /\ is_deleted msg = true).
Proof.
  destruct (drop_spec order order_visits is_deleted (fun id => id) changes []) as [Hl Hi]. split; [exact Hl|].
  intros id. etrans; [apply Hi|]. split.
  - intros [Hn%elem_of_nil|(i & msg & Hc & Hm & ->)]; [done|]. by exists msg.
  - intros (msg & Hc & Hm). right. by exists id, msg.
Qed.

(** What the polled API documents: a change is the new data, or says that the
    id was deleted. *)
Definition honours (db0 db1 changes : Data) : Prop :=
  forall id, match changes !! id with
             | None => db1 !! id = db0 !! id
             | Some msg => db1 !! id = if is_deleted msg then None else Some msg
             end.
Lemma extract_describes db0 db1 changes : honours db0 db1 changes ->
  kind_describes db0 db1 (extractInvalidations order changes).1 (extractInvalidations order changes).2.
Proof.
  intros Hh. destruct (extract_spec changes) as [Hl Hi]. split.
  - apply map_subseteq_spec. intros id v. rw Hl. specialize (Hh id). destruct (changes !! id) as [msg|]; [|done].
    destruct (is_deleted msg); [done|]. by intros [= <-].
  - intros id. rw Hl Hi. specialize (Hh id). destruct (changes !! id) as [msg|]; [|by left].
    right. destruct (is_deleted msg) eqn:Em; [right; by exists msg|by left].
Qed.
Lemma http_describes db0 db1 resp t e t' respObj :
  http_refresh order resp t = Some (e, t') -> parse resp = Some respObj ->
  honours (tb_Requests db0) (tb_Requests db1) (sv_Requests respObj) -> honours (tb_Imps db0) (tb_Imps db1) (sv_Imps respObj) ->
  honours (tb_Accounts db0) (tb_Accounts db1) (sv_Accounts respObj) -> describes db0 db1 e /\ t' = t.
Proof.
  unfold http_refresh. intros Hr Hp Hrs His Hacs. rw Hp in Hr.
  apply extract_describes in Hrs, His, Hacs. destruct (extractInvalidations order (sv_Requests respObj)) as [rs drs].
  destruct (extractInvalidations order (sv_Imps respObj)) as [is_ dis].
  destruct (extractInvalidations order (sv_Accounts respObj)) as [acs dacs]. injection Hr as <- <-. split; [|done].
  unfold describes. cbn [fst snd]. by rw save_of_default invalidation_of_default.
Qed.
End HttpFacts.

Section PostgresFacts.
(** The rows of one type. *)
Definition kind_step (ty : string) (acc : Data * list string) (row : Row) : Data * list string :=
  if GoStr.eqb (row_type row) ty then
    if no_data (row_data row) then (acc.1, acc.2 ++ [row_id row]) else (<[row_id row := row_data row]> acc.1, acc.2)
  else acc.
Lemma read_rows_kinds rows rows_err acc acc' : read_rows rows rows_err acc = inl acc' ->
  exists rs, rows = inl <$> rs /\ rows_err = None /\
    (ra_requests acc', ra_requestInvalidations acc') =
      fold_left (kind_step "request") rs (ra_requests acc, ra_requestInvalidations acc) /\
    (ra_imps acc', ra_impInvalidations acc') = fold_left (kind_step "imp") rs (ra_imps acc, ra_impInvalidations acc).
Proof.
  revert acc. induction rows as [|[row|err] rows IH]; intros acc; cbn [read_rows]; [|..|done].
  { destruct rows_err; [done|]. intros [= <-]. by exists []. }
  intros (rs & -> & -> & Hr & Hi)%IH. exists (row :: rs). split; [done|]. split; [done|]. cbn [fold_left]. rw Hr Hi.
  unfold read_row, kind_step. destruct acc as [rq im ri ii]. destruct (eqb_spec (row_type row) "request") as [->|Hne]; cbn [fst snd].
  - destruct (no_data (row_data row)); done.
  - destruct (GoStr.eqb (row_type row) "imp"), (no_data (row_data row)); done.
Qed.

(** What the queries are for: rows with the data of the new table, or none,
    for every id that changed. *)
Definition kind_rows (ty : string) (db0 db1 : Data) (rows : list Row) : Prop :=
  (forall row, row ∈ rows -> row_type row = ty ->
     db1 !! row_id row = if no_data (row_data row) then None else Some (row_data row)) /\
  (forall id, db1 !! id = db0 !! id \/ exists row, row ∈ rows /\ row_type row = ty /\ row_id row = id).
Lemma kind_rows_loop ty db0 db1 rows : kind_rows ty db0 db1 rows -> forall l acc,
  (forall row, row ∈ l -> row ∈ rows) -> acc.1 ⊆ db1 -> (forall id, id ∈ acc.2 -> db1 !! id = None) ->
  let r := fold_left (kind_step ty) l acc in
  r.1 ⊆ db1 /\ (forall id, id ∈ r.2 -> db1 !! id = None) /\
  (forall id, is_Some (acc.1 !! id) \/ id ∈ acc.2 -> is_Some (r.1 !! id) \/ id ∈ r.2) /\
  (forall row, row ∈ l -> row_type row = ty -> is_Some (r.1 !! row_id row) \/ row_id row ∈ r.2).
Proof.
  intros [Hdata _] l. induction l as [|row l IH]; intros acc Hsub Hacc Hgone; cbn [fold_left].
  { split_and!; try done. by intros row Hn%elem_of_nil. }
  assert (kind_step ty acc row = acc \/ row_type row = ty /\
    (no_data (row_data row) = true /\ kind_step ty acc row = (acc.1, acc.2 ++ [row_id row]) \/
     no_data (row_data row) = false /\ kind_step ty acc row = (<[row_id row := row_data row]> acc.1, acc.2))) as Hstep.
  { unfold kind_step. destruct (eqb_spec (row_type row) ty) as [Hty|]; [right|by left]. split; [done|].
    destruct (no_data (row_data row)); [by left|by right]. }
  destruct (IH (kind_step ty acc row)) as (H1 & H2 & H3 & H4).
  - intros r Hr. apply Hsub. by right.
  - destruct Hstep as [->|(Hty & [[Hd ->]|[Hd ->]])]; try done. apply insert_subseteq_l; [|done].
    rw (Hdata row ltac:(apply Hsub; by left) Hty). by rw Hd.
  - destruct Hstep as [->|(Hty & [[Hd ->]|[Hd ->]])]; try done. cbn [snd]. intros id [?| ->%list_elem_of_singleton]%elem_of_app; [auto|].
    rw (Hdata row ltac:(apply Hsub; by left) Hty). by rw Hd.
  - split_and!; [done|done|..].
    + intros id Hid. apply H3. destruct Hstep as [->|(Hty & [[Hd ->]|[Hd ->]])]; try done; cbn [fst snd].
      * rw elem_of_app. tauto.
      * destruct (decide (row_id row = id)) as [->|]; [left; exists (row_data row); apply lookup_insert_eq|by rw lookup_insert_ne].
    + intros r [->|Hin]%elem_of_cons Hty; [|by apply H4]. apply H3. unfold kind_step. rw Hty eqb_refl.
      destruct (no_data (row_data row)); cbn [fst snd]; [right; apply elem_of_app; right; by left|].
      left. exists (row_data row). apply lookup_insert_eq.
Qed.
Lemma kind_rows_describe ty db0 db1 rows : kind_rows ty db0 db1 rows ->
  let r := fold_left (kind_step ty) rows (∅, []) in
  kind_describes db0 db1 r.1 r.2 /\ (db0 = ∅ -> kind_describes db0 db1 r.1 []).
Proof.
  intros Hk. destruct (kind_rows_loop _ _ _ _ Hk rows (∅, [])) as (H1 & H2 & _ & H4); [done|apply map_empty_subseteq|by intros id Hn%elem_of_nil|].
  cbv zeta. destruct Hk as [_ Hall]. assert (forall id, db1 !! id = db0 !! id \/
    is_Some ((fold_left (kind_step ty) rows (∅, [])).1 !! id) \/ id ∈ (fold_left (kind_step ty) rows (∅, [])).2) as Hch.
  { intros id. destruct (Hall id) as [?|(row & Hin & Hty & <-)]; [by left|right; by apply H4]. }
  split; [by split|]. intros ->. split; [done|]. intros id. destruct (Hch id) as [?|[?|Hg%H2]]; [by left|by right; left|].
  left. by rw lookup_empty.
Qed.

(** The first run loads a table into an empty cache; it reports no deletions. *)
Lemma postgres_describes db0 db1 last query start r rows :
  query last = inl r -> qr_rows r = inl <$> rows -> qr_err r = None -> (last = None -> db0 = mkTables ∅ ∅ ∅) ->
  tb_Accounts db1 = tb_Accounts db0 -> kind_rows "request" (tb_Requests db0) (tb_Requests db1) rows ->
  kind_rows "imp" (tb_Imps db0) (tb_Imps db1) rows ->
  exists e, postgres_Run last query start = (e, Some start, qr_close r) /\ describes db0 db1 e.
Proof.
  intros Hq Hrows Herr Hfirst Hacc [Hr Hr0]%kind_rows_describe [Hi Hi0]%kind_rows_describe. unfold postgres_Run, sendEvents. rw Hq.
  destruct (read_rows (qr_rows r) (qr_err r) (mkRowsAcc ∅ ∅ [] [])) as [acc|err] eqn:E.
  2: { exfalso. rw Hrows Herr in E. clear -E. revert E. generalize (mkRowsAcc ∅ ∅ [] []).
       induction rows as [|row rows IH]; intros acc; [done|]. apply IH. }
  destruct (read_rows_kinds _ _ _ _ E) as (rs & Hrs & _ & Hreq & Himp). rw Hrows in Hrs.
  apply (inj (fmap inl)) in Hrs as <-. cbn [ra_requests ra_requestInvalidations ra_imps ra_impInvalidations] in Hreq, Himp.
  rw -Hreq in Hr Hr0. rw -Himp in Hi Hi0. destruct acc as [rq im ri ii].
  eexists. split; [done|]. unfold describes. cbn [fst snd] in *. rw save_of_default. cbn [sv_Requests sv_Imps sv_Accounts].
  assert (kind_describes (tb_Accounts db0) (tb_Accounts db1) ∅ []) as Ha.
  { rw Hacc. split; [apply map_empty_subseteq|by left]. }
  case_bool_decide as Hl; [|rw invalidation_of_default; by split_and!].
  pose proof (Hfirst Hl) as ->. split_and!; [by apply Hr0|by apply Hi0|done].
Qed.
End PostgresFacts.

(** ** Settling *)
Section Settling.
Context {S : Type} `{LawfulCache S}.

Definition fresh (cache : Cache S) (db : Tables) : Prop :=
  coherent (c_Requests cache) (tb_Requests db) /\ coherent (c_Imps cache) (tb_Imps db) /\
  coherent (c_Accounts cache) (tb_Accounts db).
(** Nothing is on its way, and the cache holds only what the tables have. *)
Definition settled (t : Z) (db : Tables) (st : System S) : Prop :=
  sy_producer st = Idle /\ sy_lastUpdate st = t /\ sy_saves st = None /\ sy_invalidations st = None /\ fresh (sy_cache st) db.

(** What is on its way still covers every stale entry. *)
Definition covered (s : S) (db saved : Data) (gone : list string) : Prop :=
  saved ⊆ db /\ forall id v, holds s id v -> db !! id = Some v \/ is_Some (saved !! id) \/ id ∈ gone.
Lemma covered_start s db0 db1 saved gone : coherent s db0 -> kind_describes db0 db1 saved gone -> covered s db1 saved gone.
Proof.
  intros Hc [Hsub Hch]. split; [done|]. intros id v Hv%Hc. destruct (Hch id) as [->|?]; [by left|by right].
Qed.
Lemma covered_save s db saved gone : covered s db saved gone -> covered (Save s saved) db ∅ gone.
Proof.
  intros [Hsub Hc]. split; [apply map_empty_subseteq|]. intros id v [Hv|[Hn Hv]]%save_holds; [left; by eapply lookup_weaken|].
  destruct (Hc id v Hv) as [?|[[w Hw]|?]]; [by left|congruence|by right; right].
Qed.
Lemma covered_invalidate s db saved gone : covered s db saved gone -> covered (Invalidate s gone) db saved [].
Proof.
  intros [Hsub Hc]. split; [done|]. intros id v [Hn Hv]%invalidate_holds. destruct (Hc id v Hv) as [?|[?|?]]; [by left|by right; left|done].
Qed.
Lemma covered_end s db : covered s db ∅ [] -> coherent s db.
Proof. intros [_ Hc] id v Hv. destruct (Hc id v Hv) as [?|[[w Hw]|Hn%elem_of_nil]]; [done|by rw lookup_empty in Hw|done]. Qed.

Definition cache_covered (cache : Cache S) (db : Tables) (s : SaveEvent) (i : Invalidation) : Prop :=
  covered (c_Requests cache) (tb_Requests db) (sv_Requests s) (iv_Requests i) /\
  covered (c_Imps cache) (tb_Imps db) (sv_Imps s) (iv_Imps i) /\
  covered (c_Accounts cache) (tb_Accounts db) (sv_Accounts s) (iv_Accounts i).
(** An event is with the producer or in its channel. *)
Definition one_of {A} (a b : option A) : option A := match a with Some x => Some x | None => b end.
Definition producer_events (p : ProducerState) : option SaveEvent * option Invalidation :=
  match p with Idle => (None, None) | Sending s i _ => (s, i) end.
Definition in_flight (t : Z) (db : Tables) (st : System S) : Prop :=
  let '(s, i) := producer_events (sy_producer st) in
  (s = None \/ sy_saves st = None) /\ (i = None \/ sy_invalidations st = None) /\
  match sy_producer st with Idle => sy_lastUpdate st = t | Sending _ _ t' => t' = t end /\
  cache_covered (sy_cache st) db (default no_save (one_of s (sy_saves st)))
    (default no_invalidation (one_of i (sy_invalidations st))).

Definition count {A} (a : option A) : nat := match a with Some _ => 1 | None => 0 end.
Definition weight (st : System S) : nat :=
  match sy_producer st with Idle => 0 | Sending s i _ => 1 + 2 * count s + 2 * count i end +
  count (sy_saves st) + count (sy_invalidations st).

Lemma step_in_flight t db st st' : step st st' -> in_flight t db st -> in_flight t db st'.
Proof.
  unfold in_flight. destruct 1 as [s i t' last invs cache|i t' last saves cache|t' last saves invs cache|p last s invs cache|p last saves i cache];
    cbn [sy_producer sy_lastUpdate sy_saves sy_invalidations sy_cache producer_events one_of].
  - intros (_ & Hi & Ht & Hc). by split_and!; [left|..].
  - intros (Hs & _ & Ht & Hc). by split_and!; [|left|..].
  - intros (Hs & Hi & Ht & Hc). by split_and!.
  - destruct (producer_events p) as [s0 i0]. intros ([->|?] & Hi & Ht & (C1 & C2 & C3)); [|done]. cbn [one_of] in *.
    split_and!; [by left|done|done|..]. by split_and!; apply covered_save.
  - destruct (producer_events p) as [s0 i0]. intros (Hs & [->|?] & Ht & (C1 & C2 & C3)); [|done]. cbn [one_of] in *.
    split_and!; [done|by left|done|..]. by split_and!; apply covered_invalidate.
Qed.
Lemma step_weight (st st' : System S) : step st st' -> weight st' < weight st.
Proof. unfold weight. destruct 1; cbn; lia. Qed.
(** Something can happen until everything has arrived. *)
Lemma progress t db st : in_flight t db st -> (exists st', step st st') \/ settled t db st.
Proof.
  destruct st as [p last saves invs cache]. unfold in_flight. cbn [sy_producer sy_lastUpdate sy_saves sy_invalidations sy_cache].
  destruct saves as [s|]; [intros _; left; eexists; apply TakeSave|]. destruct invs as [i|]; [intros _; left; eexists; apply TakeInvalidation|].
  destruct p as [|s i t']; cbn [producer_events].
  - intros (_ & _ & -> & (C1 & C2 & C3)). right. unfold settled, fresh. by split_and!; try done; apply covered_end.
  - intros _. left. destruct s as [s|]; [eexists; apply SendSave|]. destruct i as [i|]; [eexists; apply SendInvalidation|].
    eexists. apply Finish.
Qed.

(** A run in which the goroutines are scheduled: it may pause, but something
    that can happen is not put off for ever. *)
Definition fair_run (run : nat -> System S) : Prop :=
  (forall n, step (run n) (run (n + 1)) \/ run (n + 1) = run n) /\
  (forall n, (exists st', step (run n) st') -> exists m, n <= m /\ step (run m) (run (m + 1))).
Lemma run_in_flight t db run : fair_run run -> in_flight t db (run 0) -> forall n, in_flight t db (run n).
Proof.
  intros [Hstep _] Hst n. induction n as [|n IH]; [done|]. rw -Nat.add_1_r.
  destruct (Hstep n) as [Hs| ->]; [by eapply step_in_flight|done].
Qed.
Lemma settles t db run n w : fair_run run -> in_flight t db (run 0) -> weight (run n) <= w -> exists m, settled t db (run m).
Proof.
  intros Hfair Hst. revert n. induction w as [|w IH]; intros n Hw;
    (destruct (progress t db (run n)) as [Hex|]; [by apply run_in_flight| |by exists n]).
  - destruct Hex as [st' Hex%step_weight]. lia.
  - destruct Hfair as [Hstep Hf]. destruct (Hf n Hex) as (m & Hm & Hs).
    apply (IH (m + 1)). apply step_weight in Hs. assert (weight (run m) <= weight (run n)) as Hle; [|lia].
    clear -Hm Hstep. induction Hm as [|m Hm IH]; [done|]. etrans; [|exact IH]. rw -Nat.add_1_r.
    destruct (Hstep m) as [Hs%step_weight| ->]; [lia|done].
Qed.
Lemma settled_stays t db run m : fair_run run -> settled t db (run m) -> forall n, m <= n -> settled t db (run n).
Proof.
  intros [Hstep _] Hm n Hn. induction Hn as [|n Hn IH]; [done|]. rw -Nat.add_1_r. destruct (Hstep n) as [Hs| ->]; [|done].
  exfalso. apply step_weight in Hs. destruct IH as (Hp & _ & Es & Ei & _). unfold weight in Hs at 2. rw Hp Es Ei in Hs. cbn in Hs. lia.
Qed.
Lemma poll_in_flight e t t0 db0 db1 st st' : settled t0 db0 st -> describes db0 db1 e -> poll e t st st' -> in_flight t db1 st'.
Proof.
  intros (_ & _ & Hs & Hi & (C1 & C2 & C3)) (D1 & D2 & D3) Hp. destruct Hp as [last saves invs cache]. cbn in Hs, Hi. subst saves invs.
  destruct e as [s i]. unfold in_flight. cbn in *. split_and!; [by right|by right|done|].
  assert (one_of s None = s) as -> by by destruct s. assert (one_of i None = i) as -> by by destruct i.
  by split_and!; eapply covered_start.
Qed.

(** C8: Updates arrive. When the cache agreed with the tables at the last
    update, and a poll emits a save and an invalidation that describe how the
    tables have changed since, then however the producer and the listener are
    scheduled - as long as what can happen is not put off for ever, and the
    next poll waits - both events go through the channels, in either order,
    and from some moment on nothing is on its way, the time of the update is
    noted and the cache holds nothing but what the new tables have. *)
Theorem updates_reach_the_cache e t t0 db0 db1 st run :
  settled t0 db0 st -> describes db0 db1 e -> poll e t st (run 0) -> fair_run run ->
  exists n, forall m, n <= m -> settled t db1 (run m).
Proof.
  intros Hst Hd Hp Hf. pose proof (poll_in_flight _ _ _ _ _ _ _ Hst Hd Hp) as Hin.
  destruct (settles t db1 run 0 _ Hf Hin (le_n _)) as [n Hn]. exists n. by apply settled_stays.
Qed.
End Settling.

(** ** A concrete poll: [a] was changed and [b] deleted *)
Definition demo_table0 : Tables := mkTables {["a"%string := RawJson (JNum "1"); "b"%string := RawJson (JNum "2")]} ∅ ∅.
Definition demo_table1 : Tables := mkTables {["a"%string := RawJson (JNum "3")]} ∅ ∅.
Definition demo_changes : RawMessage :=
  RawJson (JObj [("requests"%string, JObj [("a"%string, JNum "3"); ("b"%string, JObj [("deleted"%string, JBool true)])])]).
Definition demo_save : SaveEvent := mkSave {["a"%string := RawJson (JNum "3")]} ∅ ∅.
Definition demo_invalidation : Invalidation := mkInvalidation ["b"%string] [] [].
Example demo_refresh : http_refresh map_to_list (inl (200%Z, demo_changes)) 7 = Some ((Some demo_save, Some demo_invalidation), 7%Z).
Proof. vm_compute. reflexivity. Qed.

Definition demo_start_cache : Cache MemoryCache := mkCacheSet (mkMemoryCache (tb_Requests demo_table0)) (mkMemoryCache ∅) (mkMemoryCache ∅).
Definition demo_start : System MemoryCache := mkSystem Idle 3 None None demo_start_cache.
Lemma demo_start_settled : settled 3 demo_table0 demo_start.
Proof. unfold settled, fresh, coherent. split_and!; try done; intros id v Hv; cbn in *; by rw ?lookup_empty in Hv |- *. Qed.
Lemma demo_describes : describes demo_table0 demo_table1 (Some demo_save, Some demo_invalidation).
Proof.
  destruct (http_describes map_to_list (fun m => map_range_self m) demo_table0 demo_table1 (inl (200%Z, demo_changes)) 7 _ 7
    (mkSave {["a"%string := RawJson (JNum "3"); "b"%string := RawJson (JObj [("deleted"%string, JBool true)])]} ∅ ∅) demo_refresh)
    as [Hd _]; [by vm_compute| |by intros id; rw !lookup_empty|by intros id; rw !lookup_empty|done].
  intros id. cbn [sv_Requests tb_Requests demo_table0 demo_table1].
  destruct (decide (id = "a"%string)) as [->|Ha]; [by vm_compute|]. destruct (decide (id = "b"%string)) as [->|Hb]; [by vm_compute|].
  by rw !lookup_insert_ne // !lookup_empty.
Qed.

(** The listener takes the invalidation before the save. *)
Definition demo_run (n : nat) : System MemoryCache :=
  let c0 := demo_start_cache in
  let c1 := listen_turn c0 (EvInvalidate demo_invalidation) in
  let c2 := listen_turn c1 (EvSave demo_save) in
  match n with
  | 0 => mkSystem (Sending (Some demo_save) (Some demo_invalidation) 7) 3 None None c0
  | 1 => mkSystem (Sending None (Some demo_invalidation) 7) 3 (Some demo_save) None c0
  | 2 => mkSystem (Sending None None 7) 3 (Some demo_save) (Some demo_invalidation) c0
  | 3 => mkSystem (Sending None None 7) 3 (Some demo_save) None c1
  | 4 => mkSystem Idle 7 (Some demo_save) None c1
  | _ => mkSystem Idle 7 None None c2
  end.
Lemma demo_run_fair : fair_run demo_run.
Proof.
  assert (forall n, n < 5 -> step (demo_run n) (demo_run (n + 1))) as Hstep.
  { intros n Hn. destruct n as [|[|[|[|[|n]]]]]; [apply SendSave|apply SendInvalidation|apply TakeInvalidation|apply Finish|apply TakeSave|lia]. }
  assert (forall n, demo_run (5 + n) = mkSystem Idle 7 None None
    (listen_turn (listen_turn demo_start_cache (EvInvalidate demo_invalidation)) (EvSave demo_save))) as Hend by done.
  split; intros n; destruct (decide (n < 5)) as [Hn|Hn].
  - left. by apply Hstep.
  - right. replace n with (5 + (n - 5)) by lia. rw -Nat.add_assoc. by rw !Hend.
  - intros _. exists n. split; [done|by apply Hstep].
  - replace n with (5 + (n - 5)) by lia. rw Hend. intros [st' Hs]. apply step_weight in Hs. cbn in Hs. lia.
Qed.
Lemma updates_reach_the_cache_witness :
  fair_run demo_run /\ exists n, forall m, n <= m -> settled 7 demo_table1 (demo_run m).
Proof.
  split; [exact demo_run_fair|].
  exact (updates_reach_the_cache (Some demo_save, Some demo_invalidation) 7 3 demo_table0 demo_table1 demo_start demo_run
    demo_start_settled demo_describes (Poll _ _ _ _ _ _) demo_run_fair).
Defined.

(** With a second poll before the listener has read its channels, an
    invalidation can overtake the save it should follow: [a] is changed, then
    deleted, and the deleted data stays in the cache. *)
Definition move (st st' : System MemoryCache) : Prop := step st st' \/ exists e t, poll e t st st'.
Example overtaken_invalidation : exists st,
  rtc move demo_start st /\ sy_producer st = Idle /\ sy_lastUpdate st = 9%Z /\ sy_saves st = None /\ sy_invalidations st = None /\
  Get (c_Requests (sy_cache st)) ["a"%string] !! "a"%string = Some (RawJson (JNum "3")).
Proof.
  eexists. split_and!.
  - eapply rtc_l; [right; exists (Some demo_save, None), 8%Z; apply Poll|].
    eapply rtc_l; [left; apply SendSave|]. eapply rtc_l; [left; apply Finish|].
    eapply rtc_l; [right; exists (None, Some (mkInvalidation ["a"%string] [] [])), 9%Z; apply Poll|].
    eapply rtc_l; [left; apply SendInvalidation|]. eapply rtc_l; [left; apply Finish|].
    eapply rtc_l; [left; apply TakeInvalidation|]. eapply rtc_l; [left; apply TakeSave|]. apply rtc_refl.
  - done.
  - done.
  - done.
  - done.
  - by vm_compute.
Qed.

(** Two conversions to milliseconds: five seconds are 57 days. *)
Example postgres_timeout_days : (queryTimeout 5000 / (86400 * 1000000000))%Z = 57%Z.
Proof. by vm_compute. Qed.
