(* ===== verification/StoredBackends.v ===== *)
(** * Backends of stored requests

    The fetchers of [stored_requests/backends] that ask another server: over
    HTTP ([http_fetcher/fetcher.go]) and in a database
    ([db_fetcher/fetcher.go]).  The server and the database are functions of
    what they are asked; the fetchers are implementations of [AllFetcher] of
    [StoredRequests]. *)

From S2P Require Import Prelude ErrorTypes Json StoredRequests StoredEvents.

(** ** HTTP *)
(** A status and a body, or the error of the call or of reading the body. *)
Record HttpFetcher := mkHttpFetcher { hf_Endpoint : string; hf_Categories : gmap string (gmap string string) }.
(** [NewFetcher]. *)
Definition http_NewFetcher (endpoint : string) : HttpFetcher :=
  mkHttpFetcher (endpoint ⧺ if GoStr.contains_byte "?" endpoint then "&" else "?") ∅.

Definition id_list (name : string) (ids : list string) : string :=
  name ⧺ "=[" ⧺ GoStr.quoted (GoStr.join (GoStr.dq ⧺ "," ⧺ GoStr.dq) ids) ⧺ "]".
(** The URL that [buildRequest] asks for. *)
Definition buildRequest (endpoint : string) (requestIDs impIDs : list string) : string :=
  match requestIDs, impIDs with
  | _ :: _, _ :: _ => endpoint ⧺ id_list "request-ids" requestIDs ⧺ "&" ⧺ id_list "imp-ids" impIDs
  | _ :: _, [] => endpoint ⧺ id_list "request-ids" requestIDs
  | [], _ => endpoint ⧺ id_list "imp-ids" impIDs
  end.

(** The [responseContract] and the [accountsResponseContract]. *)
Definition dec_response : decoder (Data * Data) := dec_struct (fun kvs =>
  requests ← dec_field dec_data ∅ "requests" kvs;
  imps ← dec_field dec_data ∅ "imps" kvs;
  Some (requests, imps)).
Definition dec_accounts_response : decoder Data := dec_struct (dec_field dec_data ∅ "accounts").

Section Http.
Context (order : Data -> list (string * RawMessage)).
(** [http.NewRequest] and the call: an error, or a status and a body that may
    fail to be read. *)
Context (Do : string -> (Z * (RawMessage + error)) + error).
(** The value is the JSON [null]. *)
Definition is_null (val : RawMessage) : bool := match val with RawJson JNull => true | _ => false end.
Definition null_step (dataType : string) (acc : Data * list error) (entry : string * RawMessage) : Data * list error :=
  let '(id, val) := entry in
  if is_null val then (delete id acc.1, acc.2 ++ [ENotFound id dataType]) else acc.
Definition convertNullsToErrs (m : Data) (dataType : string) (errs : list error) : Data * list error :=
  fold_left (null_step dataType) (order m) (m, errs).

Definition unpackResponse (resp : Z * (RawMessage + error)) : Fetched :=
  match resp with
  | (_, inr err) => mkFetched ∅ ∅ [err]
  | (status, inl respBytes) =>
      if (status =? 200)%Z then
        match unmarshal dec_response respBytes with
        | inr err => mkFetched ∅ ∅ [err]
        | inl (requests, imps) =>
            let '(requests, errs) := convertNullsToErrs requests "Request" [] in
            let '(imps, errs) := convertNullsToErrs imps "Imp" errs in
            mkFetched requests imps errs
        end
      else mkFetched ∅ ∅ [EPlain ("Error fetching Stored Requests via HTTP. Response code was " ⧺ GoStr.itoa status)]
  end.
Definition http_FetchRequests (fetcher : HttpFetcher) (requestIDs impIDs : list string) : Fetched :=
  match requestIDs, impIDs with
  | [], [] => mkFetched ∅ ∅ []
  | _, _ =>
      match Do (buildRequest (hf_Endpoint fetcher) requestIDs impIDs) with
      | inr err => mkFetched ∅ ∅ [err]
      | inl httpResp => unpackResponse httpResp
      end
  end.

(** The list of ids as [%v] prints it. *)
Definition ids_text (ids : list string) : string := "[" ⧺ GoStr.join " " ids ⧺ "]".
Definition accounts_error (accountIDs : list string) (rest : string) : list error :=
  [EPlain ("Error fetching accounts " ⧺ ids_text accountIDs ⧺ " via http: " ⧺ rest)].
Definition FetchAccounts (fetcher : HttpFetcher) (accountIDs : list string) : Data * list error :=
  match accountIDs with
  | [] => (∅, [])
  | _ =>
      match Do (hf_Endpoint fetcher ⧺ id_list "account-ids" accountIDs) with
      | inr err => (∅, accounts_error accountIDs (error_string err))
      | inl (_, inr err) => (∅, accounts_error accountIDs ("error reading response: " ⧺ error_string err))
      | inl (status, inl respBytes) =>
          if (status =? 200)%Z then
            match unmarshal dec_accounts_response respBytes with
            | inr err => (∅, accounts_error accountIDs ("failed to parse response: " ⧺ error_string err))
            | inl accounts => convertNullsToErrs accounts "Account" []
            end
          else (∅, accounts_error accountIDs ("unexpected response status " ⧺ GoStr.itoa status))
      end
  end.
Definition http_FetchAccount (fetcher : HttpFetcher) (accountID : string) : RawMessage * list error :=
  match FetchAccounts fetcher [accountID] with
  | (_, ((_ :: _) as errs)) => (RawNil, errs)
  | (accountData, []) =>
      match accountData !! accountID with
      | Some accountJSON => (accountJSON, [])
      | None => (RawNil, [ENotFound accountID "Account"])
      end
  end.

Definition trim_suffix (s suffix : string) : string :=
  if GoStr.has_suffix s suffix then GoStr.take (GoStr.len s - GoStr.len suffix) s else s.
(** [FetchCategories]: the category, and the fetcher with what it remembers;
    an error of reading the body is not looked at, and what was read of it is
    decoded. *)
Definition http_FetchCategories (fetcher : HttpFetcher) (primaryAdServer publisherId iabCategory : string) :
  (string * option error) * HttpFetcher :=
  let base := trim_suffix (hf_Endpoint fetcher) "?" in
  let '(dataName, url) :=
    if GoStr.is_empty publisherId then (primaryAdServer, base ⧺ "/" ⧺ primaryAdServer ⧺ ".json")
    else (primaryAdServer ⧺ "_" ⧺ publisherId, base ⧺ "/" ⧺ primaryAdServer ⧺ "/" ⧺ publisherId ⧺ ".json") in
  let about := "for adserver: '" ⧺ primaryAdServer ⧺ "', publisherId: '" ⧺ publisherId ⧺ "'" in
  let find (data : gmap string string) :=
    match data !! iabCategory with
    | Some id => (id, None)
    | None => (""%string, Some (EPlain ("Unable to find category mapping " ⧺ about)))
    end in
  match hf_Categories fetcher !! dataName with
  | Some data => (find data, fetcher)
  | None =>
      match Do url with
      | inr err => ((""%string, Some err), fetcher)
      | inl (_, body) =>
          match unmarshal (dec_map dec_category) (match body with inl b => b | inr _ => RawBad end) with
          | inr _ => ((""%string, Some (EPlain ("Unable to unmarshal categories " ⧺ about))), fetcher)
          | inl tmp =>
              let tmp := map_or_empty tmp in
              (find tmp, mkHttpFetcher (hf_Endpoint fetcher) (<[dataName := tmp]> (hf_Categories fetcher)))
          end
      end
  end.
(** The HTTP backend as a fetcher at one moment. *)
Definition http_fetcher (fetcher : HttpFetcher) : AllFetcher :=
  mkFetcher (http_FetchRequests fetcher) (http_FetchAccount fetcher) (fun a p c => (http_FetchCategories fetcher a p c).1).
End Http.

(** ** The database *)
(** [sql.Rows]: what [Next] and [Scan] give, and [Err]. *)
Record DbRows := mkDbRows { db_rows : list (Row + error); db_Err : option error }.
(** An error of a query, with what the code asks of it: that it is
    [context.DeadlineExceeded], and the SQLSTATE of a [pq.Error]. *)
Record DbError := mkDbError { de_error : error; de_deadline : bool; de_code : option string }.
Definition isBadInput (err : DbError) : bool := bool_decide (de_code err = Some "22P02"%string).

Section Db.
Context (queryMaker : nat -> nat -> string) (QueryContext : string -> list string -> DbRows + DbError).
Definition db_row (acc : Data * Data) (row : Row) : Data * Data :=
  if GoStr.eqb (row_type row) "request" then (<[row_id row := row_data row]> acc.1, acc.2)
  else if GoStr.eqb (row_type row) "imp" then (acc.1, <[row_id row := row_data row]> acc.2)
  else acc.
Fixpoint db_loop (rows : list (Row + error)) (acc : Data * Data) : (Data * Data) + error :=
  match rows with
  | [] => inl acc
  | inr err :: _ => inr err
  | inl row :: rest => db_loop rest (db_row acc row)
  end.
Definition db_FetchRequests (requestIDs impIDs : list string) : Fetched :=
  match requestIDs, impIDs with
  | [], [] => mkFetched ∅ ∅ []
  | _, _ =>
      match QueryContext (queryMaker (length requestIDs) (length impIDs)) (requestIDs ++ impIDs) with
      | inr err =>
          if negb (de_deadline err) && negb (isBadInput err) then
            mkFetched ∅ ∅ (appendErrors "Imp" impIDs ∅ (appendErrors "Request" requestIDs ∅ []))
          else mkFetched ∅ ∅ [de_error err]
      | inl rows =>
          match db_loop (db_rows rows) (∅, ∅) with
          | inr err => mkFetched ∅ ∅ [err]
          | inl (storedRequestData, storedImpData) =>
              match db_Err rows with
              | Some err => mkFetched ∅ ∅ [err]
              | None =>
                  mkFetched storedRequestData storedImpData
                    (appendErrors "Imp" impIDs storedImpData (appendErrors "Request" requestIDs storedRequestData []))
              end
          end
      end
  end.
Definition db_fetcher : AllFetcher :=
  mkFetcher db_FetchRequests (fun accountID => (RawNil, [ENotFound accountID "Account"])) (fun _ _ _ => (""%string, None)).
End Db.

(** ** The choice of backends, [config/config.go] *)
(** [consolidate]. *)
Definition consolidate (fetchers : list AllFetcher) : AllFetcher :=
  match fetchers with
  | [] => EmptyFetcher
  | [fetcher] => fetcher
  | _ => mkFetcher (multi_FetchRequests fetchers) (multi_FetchAccount fetchers) (multi_FetchCategories fetchers)
  end.

(** ** What the servers promise *)
Section Promises.
Context (dbR dbI : Data).

(** A table's data for some ids, from entries that are the table's and cover
    the ids. *)
Lemma table_data (db data : Data) (ids : list string) :
  (forall id v, data !! id = Some v <-> id ∈ ids /\ db !! id = Some v) -> data = filter (fun kv => kv.1 ∈ ids) db.
Proof.
  intros Hd. apply map_eq. intros id. apply option_eq. intros v. rw Hd map_lookup_filter_Some. cbn. tauto.
Qed.
Lemma missing_data (db : Data) (ids : list string) :
  List.filter (missing (filter (fun kv => kv.1 ∈ ids) db)) ids = List.filter (missing db) ids.
Proof.
  apply filter_ext_in. intros id Hin%list_elem_of_In. unfold missing. apply bool_decide_ext.
  rw map_lookup_filter_None. split; [|by left]. intros [?|Hn]; [done|]. destruct (db !! id) as [v|] eqn:E; [|done].
  exfalso. by apply (Hn v E).
Qed.

(** The database: a query gives a row for every id it is asked for that it
    has, with its data, and no other rows of these types. *)
Definition rows_of (ty : string) (db : Data) (ids : list string) (rows : list Row) : Prop :=
  (forall row, row ∈ rows -> row_type row = ty -> row_id row ∈ ids /\ db !! row_id row = Some (row_data row)) /\
  (forall id v, id ∈ ids -> db !! id = Some v -> mkRow id v ty ∈ rows).
Definition database_of (queryMaker : nat -> nat -> string) (QueryContext : string -> list string -> DbRows + DbError) : Prop :=
  forall rs is_, rs <> [] \/ is_ <> [] -> exists rows,
    QueryContext (queryMaker (length rs) (length is_)) (rs ++ is_) = inl (mkDbRows (inl <$> rows) None) /\
    rows_of "request" dbR rs rows /\ rows_of "imp" dbI is_ rows.

Lemma db_loop_rows rows acc : db_loop (inl <$> rows) acc = inl (fold_left db_row rows acc).
Proof. revert acc. induction rows as [|row rows IH]; intros acc; [done|]. apply IH. Qed.
Lemma db_rows_lookup rows acc id v :
  ((fold_left db_row rows acc).1 !! id = Some v -> acc.1 !! id = Some v \/ mkRow id v "request" ∈ rows) /\
  ((fold_left db_row rows acc).2 !! id = Some v -> acc.2 !! id = Some v \/ mkRow id v "imp" ∈ rows).
Proof.
  revert acc. induction rows as [|[i d ty] rows IH]; intros acc; [by split; left|]. cbn [fold_left].
  destruct (IH (db_row acc (mkRow i d ty))) as [Hr Hi]. unfold db_row in *. cbn [row_id row_data row_type] in *.
  destruct (eqb_spec ty "request") as [->|]; [|destruct (eqb_spec ty "imp") as [->|]]; cbn [fst snd] in *;
    split; intros Hl; [apply Hr in Hl|apply Hi in Hl|apply Hr in Hl|apply Hi in Hl|apply Hr in Hl|apply Hi in Hl];
    destruct Hl as [Hl|Hl]; try (by right; right); try (by left);
    (destruct (decide (i = id)) as [->|Hne]; [rw lookup_insert_eq in Hl; injection Hl as ->; right; by left|rw lookup_insert_ne // in Hl; by left]).
Qed.
Lemma db_rows_has rows acc : 
  (forall id, is_Some (acc.1 !! id) \/ (exists v, mkRow id v "request" ∈ rows) -> is_Some ((fold_left db_row rows acc).1 !! id)) /\
  (forall id, is_Some (acc.2 !! id) \/ (exists v, mkRow id v "imp" ∈ rows) -> is_Some ((fold_left db_row rows acc).2 !! id)).
Proof.
  revert acc. induction rows as [|[i d ty] rows IH]; intros acc; cbn [fold_left].
  { by split; intros id [?|(v & Hn%elem_of_nil)]. }
  destruct (IH (db_row acc (mkRow i d ty))) as [Hr Hi]. unfold db_row in *. cbn [row_id row_data row_type] in *.
  assert (forall (m : Data) id, is_Some (m !! id) \/ i = id -> is_Some (<[i := d]> m !! id)) as Hins.
  { intros m id Hm. destruct (decide (i = id)) as [->|Hne]; [rw lookup_insert_eq; by eexists|rw lookup_insert_ne //].
    by destruct Hm. }
  split; intros id Hid; [apply Hr|apply Hi]; destruct Hid as [Hid|(v & [[= <- <- <-]|Hin]%elem_of_cons)];
    try (by right; exists v); left; repeat case_match; cbn [fst snd]; try done; auto; by apply Hins; (left + right).
Qed.
Lemma db_rows_table rows rs is_ : rows_of "request" dbR rs rows -> rows_of "imp" dbI is_ rows ->
  fold_left db_row rows (∅, ∅) = (filter (fun kv => kv.1 ∈ rs) dbR, filter (fun kv => kv.1 ∈ is_) dbI).
Proof.
  intros [Hr1 Hr2] [Hi1 Hi2].
  assert ((fold_left db_row rows (∅, ∅)).1 = filter (fun kv => kv.1 ∈ rs) dbR) as H1.
  { apply table_data. intros id v. split.
    - intros [Hn|Hin]%db_rows_lookup; [by rw lookup_empty in Hn|by apply (Hr1 _ Hin)].
    - intros [Hid Hv]. destruct (proj1 (db_rows_has rows (∅, ∅)) id) as [w Hw]; [right; exists v; by apply Hr2|].
      rw Hw. apply db_rows_lookup in Hw as [Hn|Hin]; [by rw lookup_empty in Hn|]. apply Hr1 in Hin as [_ Hin]; [|done]. cbn in Hin. congruence. }
  assert ((fold_left db_row rows (∅, ∅)).2 = filter (fun kv => kv.1 ∈ is_) dbI) as H2.
  { apply table_data. intros id v. split.
    - intros [Hn|Hin]%db_rows_lookup; [by rw lookup_empty in Hn|by apply (Hi1 _ Hin)].
    - intros [Hid Hv]. destruct (proj2 (db_rows_has rows (∅, ∅)) id) as [w Hw]; [right; exists v; by apply Hi2|].
      rw Hw. apply db_rows_lookup in Hw as [Hn|Hin]; [by rw lookup_empty in Hn|]. apply Hi1 in Hin as [_ Hin]; [|done]. cbn in Hin. congruence. }
  rw -H1 -H2. by destruct (fold_left _ _ _).
Qed.
Lemma filter_empty_ids (db : Data) : filter (fun kv => kv.1 ∈ ([] : list string)) db = ∅.
Proof. symmetry. apply table_data. intros id v. rw lookup_empty. split; [done|]. by intros [?%elem_of_nil _]. Qed.
Lemma db_backend queryMaker QueryContext : database_of queryMaker QueryContext -> backend_of dbR dbI (db_fetcher queryMaker QueryContext).
Proof.
  intros Hdb rs is_. cbn [db_fetcher FetchRequests]. unfold db_FetchRequests.
  destruct (decide (rs = [] /\ is_ = [])) as [[-> ->]|Hne]; [by rw !filter_empty_ids|].
  destruct (Hdb rs is_) as (rows & Hq & Hr & Hi); [destruct rs; [right|by left]; intros ->; tauto|].
  assert (forall A (a b : A), match rs, is_ with [], [] => a | _, _ => b end = b) as -> by (intros; destruct rs, is_; tauto).
  rw Hq. cbn [db_rows db_Err]. rw db_loop_rows (db_rows_table _ _ _ Hr Hi). cbn.
  unfold appendErrors. by rw !missing_data.
Qed.
End Promises.

(** ** The HTTP server *)
Section HttpPromises.
Context (order : Data -> list (string * RawMessage)) (order_visits : forall m, map_range m (order m)).
Context (dbR dbI : Data).
(** The answer for some ids: the data of each that the table has, and null for
    each it has not. *)
Definition answer_of (db : Data) (ids : list string) (answer : Data) : Prop :=
  (forall id v, answer !! id = Some v -> id ∈ ids) /\
  forall id, id ∈ ids -> answer !! id = Some (default (RawJson JNull) (db !! id)).
Definition serves (fetcher : HttpFetcher) (Do : string -> (Z * (RawMessage + error)) + error) (rs is_ : list string) : Prop :=
  exists body requests imps,
    Do (buildRequest (hf_Endpoint fetcher) rs is_) = inl (200%Z, inl body) /\
    unmarshal dec_response body = inl (requests, imps) /\ answer_of dbR rs requests /\ answer_of dbI is_ imps.
(** A stored value is not null. *)
Definition no_nulls (db : Data) : Prop := map_Forall (fun _ v => is_null v = false) db.

Lemma nulls_to_errors db ids answer ty errs : no_nulls db -> answer_of db ids answer ->
  let r := convertNullsToErrs order answer ty errs in
  r.1 = filter (fun kv => kv.1 ∈ ids) db /\
  forall e, e ∈ r.2 <-> e ∈ errs \/ exists id, id ∈ ids /\ db !! id = None /\ e = ENotFound id ty.
Proof.
  intros Hnn [Hsub Hall]. destruct (drop_spec order order_visits is_null (fun id => ENotFound id ty) answer errs) as [Hl He].
  unfold convertNullsToErrs. split.
  - apply table_data. intros id v. etrans; [apply reflexive_eq; by rw Hl|]. destruct (answer !! id) as [w|] eqn:Ea.
    + pose proof (Hsub id w Ea) as Hid. rw (Hall id Hid) in Ea. injection Ea as <-. destruct (db !! id) as [x|] eqn:Ed; cbn.
      * rw (Hnn id x Ed). tauto.
      * split; [done|]. by intros [_ ?].
    + split; [done|]. intros [Hid _]. by rw (Hall id Hid) in Ea.
  - intros e. etrans; [apply He|]. split; (intros [?|H]; [by left|right]).
    + destruct H as (id & v & Ha & Hv & ->). pose proof (Hsub id v Ha) as Hid. exists id. split; [done|]. split; [|done].
      rw (Hall id Hid) in Ha. injection Ha as <-. destruct (db !! id) as [x|] eqn:Ed; [|done]. cbn in Hv. by rw (Hnn id x Ed) in Hv.
    + destruct H as (id & Hid & Hd & ->). exists id, (RawJson JNull). by rw (Hall id Hid) Hd.
Qed.
Lemma http_answers fetcher Do rs is_ : no_nulls dbR -> no_nulls dbI ->
  (rs <> [] \/ is_ <> [] -> serves fetcher Do rs is_) ->
  let r := http_FetchRequests order Do fetcher rs is_ in
  f_requests r = filter (fun kv => kv.1 ∈ rs) dbR /\ f_imps r = filter (fun kv => kv.1 ∈ is_) dbI /\
  forall e, e ∈ f_errs r <-> (exists id, id ∈ rs /\ dbR !! id = None /\ e = ENotFound id "Request") \/
                             (exists id, id ∈ is_ /\ dbI !! id = None /\ e = ENotFound id "Imp").
Proof.
  intros HnR HnI Hsrv. cbv zeta. unfold http_FetchRequests. destruct (decide (rs = [] /\ is_ = [])) as [[-> ->]|Hne].
  { rw !filter_empty_ids. split_and!; try done. intros e. split; [by intros Hn%elem_of_nil|].
    by intros [(id & Hn%elem_of_nil & _)|(id & Hn%elem_of_nil & _)]. }
  destruct Hsrv as (body & requests & imps & Hdo & Hbody & Hr & Hi); [destruct rs; [right|by left]; intros ->; tauto|].
  assert (forall A (a b : A), match rs, is_ with [], [] => a | _, _ => b end = b) as -> by (intros; destruct rs, is_; tauto).
  rw Hdo. unfold unpackResponse. cbn [Z.eqb Pos.eqb]. rw Hbody.
  destruct (nulls_to_errors _ _ _ "Request" [] HnR Hr) as [HrD HrE]. destruct (convertNullsToErrs _ requests _ _) as [requests' errs].
  destruct (nulls_to_errors _ _ _ "Imp" errs HnI Hi) as [HiD HiE]. destruct (convertNullsToErrs _ imps _ _) as [imps' errs'].
  cbn [f_requests f_imps f_errs fst snd] in *. split_and!; [done|done|]. intros e. rw HiE HrE. split.
  - intros [[Hn%elem_of_nil|?]|?]; [done|by left|by right].
  - intros [?|?]; [left; by right|by right].
Qed.
End HttpPromises.

(** C10: The backends are the tables they ask: over a database whose queries
    give exactly the rows asked for, the database fetcher is a fetcher of
    these tables as the caches need it ([backend_of]), whatever the order of
    the rows; where the server answers every id it is asked for, with its data
    or with null, the HTTP fetcher gives exactly the data of the ids the tables
    have and an error for exactly the others. *)
Theorem backends_answer_from_tables (dbR dbI : Data) :
  (forall queryMaker QueryContext, database_of dbR dbI queryMaker QueryContext ->
     backend_of dbR dbI (db_fetcher queryMaker QueryContext)) /\
  (forall order fetcher Do rs is_, (forall m, map_range m (order m)) -> no_nulls dbR -> no_nulls dbI ->
     (rs <> [] \/ is_ <> [] -> serves dbR dbI fetcher Do rs is_) ->
     let r := FetchRequests (http_fetcher order Do fetcher) rs is_ in
     f_requests r = filter (fun kv => kv.1 ∈ rs) dbR /\ f_imps r = filter (fun kv => kv.1 ∈ is_) dbI /\
     forall e, e ∈ f_errs r <-> (exists id, id ∈ rs /\ dbR !! id = None /\ e = ENotFound id "Request") \/
                                (exists id, id ∈ is_ /\ dbI !! id = None /\ e = ENotFound id "Imp")).
Proof.
  split; [apply db_backend|]. intros order fetcher Do rs is_ Hord HnR HnI Hsrv.
  exact (http_answers order Hord dbR dbI fetcher Do rs is_ HnR HnI Hsrv).
Qed.

(** ** Concrete servers *)
Definition demo_stored_row : Data := {["a"%string := RawJson (JNum "1")]}.
Fixpoint unary (n : nat) : string := match n with 0 => ""%string | S n => String "?" (unary n) end.
Lemma unary_len n : GoStr.len (unary n) = n.
Proof. induction n as [|n IH]; [done|]. cbn. by f_equal. Qed.
(** The query holds the number of request ids. *)
Definition demo_query (query : string) (ids : list string) : DbRows + DbError :=
  inl (mkDbRows (inl <$> omap (fun id => v ← demo_stored_row !! id; Some (mkRow id v "request")) (take (GoStr.len query) ids)) None).
Lemma demo_database : database_of demo_stored_row ∅ (fun n _ => unary n) demo_query.
Proof.
  intros rs is_ _. eexists. split; [unfold demo_query; by rw unary_len take_app_length|]. split; split.
  - intros row (id & Hid & Hrow)%list_elem_of_omap. destruct (demo_stored_row !! id) as [v|] eqn:E; cbn in Hrow; [|done].
    injection Hrow as <-. by cbn.
  - intros id v Hid Hv. apply list_elem_of_omap. exists id. split; [done|]. by rw Hv.
  - intros row (id & Hid & Hrow)%list_elem_of_omap. destruct (demo_stored_row !! id) as [v|]; cbn in Hrow; [|done]. by injection Hrow as <-.
  - intros id v _ Hn. by rw lookup_empty in Hn.
Qed.
Definition demo_server (url : string) : (Z * (RawMessage + error)) + error :=
  inl (200%Z, inl (RawJson (JObj [("requests"%string, JObj [("a"%string, JNum "1"); ("b"%string, JNull)])]))).
Lemma demo_serves : serves demo_stored_row ∅ (http_NewFetcher "http://host/stored") demo_server ["a"; "b"]%string [].
Proof.
  eexists _, _, _. split; [reflexivity|]. split; [reflexivity|]. split; split.
  - intros id v Hv. destruct (decide (id = "a"%string)) as [->|Ha]; [by left|].
    destruct (decide (id = "b"%string)) as [->|Hb]; [by right; left|]. by rw !lookup_insert_ne // lookup_empty in Hv.
  - intros id [->|[->|Hn%elem_of_nil]%elem_of_cons]%elem_of_cons; [by vm_compute|by vm_compute|done].
  - by intros id v Hv.
  - by intros id Hn%elem_of_nil.
Qed.
Lemma backends_answer_from_tables_witness :
  f_errs (FetchRequests (db_fetcher (fun n _ => unary n) demo_query) ["a"; "b"]%string []) = [ENotFound "b" "Request"] /\
  ENotFound "b" "Request" ∈ f_errs (FetchRequests (http_fetcher map_to_list demo_server (http_NewFetcher "http://host/stored"))
                                      ["a"; "b"]%string []).
Proof.
  destruct (backends_answer_from_tables demo_stored_row ∅) as [Hdb Hhttp]. split.
  - rw (Hdb _ _ demo_database ["a"; "b"]%string []). by vm_compute.
  - apply (Hhttp map_to_list (http_NewFetcher "http://host/stored") demo_server ["a"; "b"]%string []
      (fun m => map_range_self m) ltac:(by apply map_Forall_singleton) ltac:(by intros ? ? ?) (fun _ => demo_serves)).
    left. exists "b"%string. split; [by right; left|]. split; reflexivity.
Defined.

(** Ids are not escaped: one id can ask for two. *)
Example ids_not_escaped endpoint :
  buildRequest endpoint ["a" ⧺ GoStr.dq ⧺ "," ⧺ GoStr.dq ⧺ "b"]%string [] = buildRequest endpoint ["a"; "b"]%string [].
Proof. reflexivity. Qed.
(** An id that the server leaves out is missing without an error. *)
Example silently_missing :
  let r := FetchRequests (http_fetcher map_to_list demo_server (http_NewFetcher "http://host/stored")) ["c"%string] [] in
  f_requests r !! "c"%string = None /\ f_errs r = [ENotFound "b" "Request"].
Proof. split; vm_compute; reflexivity. Qed.
(** A query that fails for another reason reports every id as not found. *)
Example database_down_is_not_found :
  f_errs (FetchRequests (db_fetcher (fun _ _ => ""%string) (fun _ _ => inr (mkDbError (EPlain "connection refused") false None)))
            ["a"%string] []) = [ENotFound "a" "Request"].
Proof. reflexivity. Qed.
