(* ===== verification/StoredMerge.v ===== *)
(** * Stored requests merged into a request

    [processStoredRequests] of [endpoints/openrtb2/auction.go] and what it
    calls: the ids of stored data are read out of the request's text, the data
    is fetched ([StoredRequests]), and the request and its imps are merged over
    it as JSON merge patches.  The merge itself ([evanphx/json-patch]) is a
    parameter, and so is the place where a text stops being JSON. *)

From S2P Require Import Prelude Float64 ErrorTypes Json JsonParser StoredRequests.

Class JsonPatch := { MergePatch : RawMessage -> RawMessage -> RawMessage + error }.

Section Merge.
Context `{JsonParser} `{JsonPatch} (Offset : RawMessage -> Z).

(** The id, none, or an error. *)
Definition getStoredRequestId (data : RawMessage) : option string + error :=
  let a := jp_Get data ["ext"; "prebid"; "storedrequest"; "id"]%string in
  match jp_type a with
  | JpNotExist => inl None
  | t =>
      match jp_err a with
      | Some err => inr err
      | None =>
          match t with
          | JpString => inl (Some (jp_value a))
          | _ => inr (EPlain "ext.prebid.storedrequest.id must be a string")
          end
      end
  end.

(** The imps, the ids found, the index each belongs to, the errors. *)
Record ImpInfo := mkImpInfo {
  ii_imps : list RawMessage; ii_ids : list string; ii_indices : list nat; ii_errs : list error }.
Definition imp_info_step (acc : ImpInfo) (imp : RawMessage) : ImpInfo :=
  let 'mkImpInfo imps ids indices errs := acc in
  let i := length imps in
  match getStoredRequestId imp with
  | inr err => mkImpInfo (imps ++ [imp]) ids indices (errs ++ [err])
  | inl (Some storedImpId) => mkImpInfo (imps ++ [imp]) (ids ++ [storedImpId]) (indices ++ [i]) errs
  | inl None => mkImpInfo (imps ++ [imp]) ids indices errs
  end.
Definition parseImpInfo (requestJson : RawMessage) : ImpInfo :=
  let none := mkImpInfo [] [] [] [] in
  let a := jp_Get requestJson ["imp"%string] in
  match jp_err a, jp_type a with
  | None, JpArray => fold_left imp_info_step (jp_ArrayEach (jp_raw a)) none
  | _, _ => none
  end.

Definition getJsonSyntaxError (testJSON : RawMessage) : option string :=
  match testJSON with
  | RawJson _ => None
  | _ => Some (error_string json_syntax_error ⧺ " at offset " ⧺ GoStr.itoa (Offset testJSON))
  end.
(** The error of a merge: the patch's own text is blamed first, then the
    text it is applied to. *)
Definition merge_error (patch original : RawMessage) (in_patch in_original : string -> string) (err : error) : error :=
  match getJsonSyntaxError patch with
  | Some Err => EPlain (in_patch Err)
  | None => match getJsonSyntaxError original with Some Err => EPlain (in_original Err) | None => err end
  end.

(** [MergePatch] on maps of stored data: an absent id reads as nil. *)
Definition stored (data : Data) (id : string) : RawMessage := default RawNil (data !! id).

(** Stored imps, one id after the other, on the list of imps. *)
Fixpoint merge_imps (storedImps : Data) (i : nat) (ids : list string) (indices : list nat) (imps : list RawMessage) :
  list RawMessage + error :=
  match ids, indices with
  | id :: ids, idx :: indices =>
      let imp := default RawNil (imps !! idx) in
      match MergePatch (stored storedImps id) imp with
      | inl resolvedImp => merge_imps storedImps (S i) ids indices (<[idx := resolvedImp]> imps)
      | inr err =>
          inr (merge_error imp (stored storedImps id)
                 (fun e => "Invalid JSON in Imp[" ⧺ GoStr.itoa (Z.of_nat i) ⧺ "] of Incoming Request: " ⧺ e)
                 (fun e => "imp.ext.prebid.storedrequest.id " ⧺ id ⧺ ": Stored Imp has Invalid JSON: " ⧺ e) err)
      end
  | _, _ => inl imps
  end.

Definition incoming (e : string) : string := "Invalid JSON in Incoming Request: " ⧺ e.
(** The stored request under the incoming one. *)
Definition merge_stored_request (storedRequests : Data) (id : option string) (requestJson : RawMessage) : RawMessage + error :=
  match id with
  | None => inl requestJson
  | Some id =>
      match MergePatch (stored storedRequests id) requestJson with
      | inl r => inl r
      | inr err =>
          inr (merge_error requestJson (stored storedRequests id) incoming
                 (fun e => "ext.prebid.storedrequest.id refers to Stored Request " ⧺ id ⧺ " which contains Invalid JSON: " ⧺ e) err)
      end
  end.
(** The defaults under that; [None] is a host without default settings. *)
Definition merge_defaults (defReqJSON : option RawMessage) (resolvedRequest : RawMessage) : RawMessage + error :=
  match defReqJSON with
  | None => inl resolvedRequest
  | Some def =>
      match MergePatch def resolvedRequest with
      | inl r => inl r
      | inr err => inr (merge_error resolvedRequest def incoming
                          (fun e => "Invalid JSON in Default Request Settings: " ⧺ e) err)
      end
  end.
Definition set_imps (resolvedRequest : RawMessage) (imps : list RawMessage) : RawMessage + error :=
  match mapM enc_raw imps with
  | None => inr (EPlain "json: error calling MarshalJSON")
  | Some l => jp_Set resolvedRequest (JArr l) "imp"
  end.

(** [processStoredRequests]. *)
Definition processStoredRequests (fetcher : AllFetcher) (defReqJSON : option RawMessage) (requestJson : RawMessage) :
  RawMessage + list error :=
  match getStoredRequestId requestJson with
  | inr err => inr [err]
  | inl storedBidRequestId =>
      let 'mkImpInfo imps impIds idIndices errs := parseImpInfo requestJson in
      match errs with
      | _ :: _ => inr errs
      | [] =>
          let storedReqIds := match storedBidRequestId with Some id => [id] | None => [] end in
          let 'mkFetched storedRequests storedImps errs := FetchRequests fetcher storedReqIds impIds in
          match errs with
          | _ :: _ => inr errs
          | [] =>
              match merge_stored_request storedRequests storedBidRequestId requestJson with
              | inr err => inr [err]
              | inl resolvedRequest =>
                  match merge_defaults defReqJSON resolvedRequest with
                  | inr err => inr [err]
                  | inl resolvedRequest =>
                      match merge_imps storedImps 0 impIds idIndices imps with
                      | inr err => inr [err]
                      | inl imps =>
                          match impIds with
                          | [] => inl resolvedRequest
                          | _ => match set_imps resolvedRequest imps with inl r => inl r | inr err => inr [err] end
                          end
                      end
                  end
              end
          end
      end
  end.
End Merge.

(** ** The specification *)
Section MergeFacts.
Context `{JsonParser} `{JsonPatch} (Offset : RawMessage -> Z).

(** The imps of a request, as texts. *)
Definition request_imps (requestJson : RawMessage) : list RawMessage :=
  let a := jp_Get requestJson ["imp"%string] in
  match jp_err a, jp_type a with None, JpArray => jp_ArrayEach (jp_raw a) | _, _ => [] end.
Definition imp_stored_id (imp : RawMessage) : option string :=
  match getStoredRequestId imp with inl o => o | inr _ => None end.
(** An imp that names stored data is merged over it; another is kept. *)
Definition resolved_imp (storedImps : Data) (imp imp' : RawMessage) : Prop :=
  match getStoredRequestId imp with
  | inl (Some id) => MergePatch (stored storedImps id) imp = inl imp'
  | inl None => imp' = imp
  | inr _ => False
  end.
(** [merged original patch r]: [r] is the patch over the original, if there is
    one. *)
Definition merged (original : option RawMessage) (patch r : RawMessage) : Prop :=
  match original with None => r = patch | Some o => MergePatch o patch = inl r end.

(** The id of stored data that a request or an imp names: none, or a string at
    that place; anything else there names nothing. *)
Definition names (data : RawMessage) (o : option string) : Prop :=
  let a := jp_Get data ["ext"; "prebid"; "storedrequest"; "id"]%string in
  (jp_type a = JpNotExist /\ o = None) \/ (jp_type a = JpString /\ jp_err a = None /\ o = Some (jp_value a)).
(** An imp that names stored data is the patch of a merge; another is kept. *)
Definition imp_merged (storedImps : gmap string RawMessage) (imp imp' : RawMessage) : Prop :=
  (names imp None /\ imp' = imp) \/
  exists id, names imp (Some id) /\ MergePatch (default RawNil (storedImps !! id)) imp = inl imp'.
Lemma names_iff data o : getStoredRequestId data = inl o <-> names data o.
Proof.
  unfold getStoredRequestId, names. destruct (jp_type _); try (destruct (jp_err _); naive_solver); naive_solver.
Qed.
Lemma resolved_merged storedImps imp imp' : resolved_imp storedImps imp imp' <-> imp_merged storedImps imp imp'.
Proof.
  unfold resolved_imp, imp_merged. setoid_rewrite <- names_iff. destruct (getStoredRequestId imp) as [[id|]|]; naive_solver.
Qed.
Lemma names_ids imps oids : Forall2 names imps oids -> omap imp_stored_id imps = omap (fun o => o) oids.
Proof.
  induction 1 as [|imp o imps oids Ho%names_iff _ IH]; [done|]. cbn. rw /imp_stored_id Ho IH. done.
Qed.
Lemma names_all imps : Forall (fun imp => exists o, getStoredRequestId imp = inl o) imps -> exists oids, Forall2 names imps oids.
Proof.
  induction 1 as [|imp imps [o Ho%names_iff] _ [oids IH]]; [by exists []; constructor|]. exists (o :: oids). by constructor.
Qed.
Lemma set_imps_iff base imps r : set_imps base imps = inl r <->
  exists l, Forall2 (fun imp j => enc_raw imp = Some j) imps l /\ jp_Set base (JArr l) "imp" = inl r.
Proof.
  unfold set_imps. destruct (mapM enc_raw imps) as [l|] eqn:E.
  - apply mapM_Some in E. split; [by exists l|]. intros (l' & Hl' & Hs). enough (l' = l) as -> by done.
    apply mapM_Some in E, Hl'. congruence.
  - split; [done|]. intros (l & Hl%mapM_Some & _). congruence.
Qed.

(** *** Reading the imps *)
Definition info_ok (l : list RawMessage) (i : ImpInfo) : Prop :=
  ii_imps i = l /\ ii_ids i = omap imp_stored_id l /\ length (ii_indices i) = length (ii_ids i) /\
  NoDup (ii_indices i) /\ Forall (fun k => k < length l) (ii_indices i) /\
  (forall k id, (k, id) ∈ zip (ii_indices i) (ii_ids i) <-> exists imp, l !! k = Some imp /\ imp_stored_id imp = Some id) /\
  (ii_errs i = [] <-> Forall (fun imp => exists o, getStoredRequestId imp = inl o) l).
Lemma lookup_last_stored l imp k id : (exists imp', (l ++ [imp]) !! k = Some imp' /\ imp_stored_id imp' = Some id) <->
  (exists imp', l !! k = Some imp' /\ imp_stored_id imp' = Some id) \/ (k = length l /\ imp_stored_id imp = Some id).
Proof.
  setoid_rewrite lookup_snoc_Some. split.
  - intros (imp' & [[Hk ?]|[-> <-]] & Hs); [left; by exists imp'|by right].
  - intros [(imp' & Hk & ?)|[-> ?]]; [|by exists imp; split; [right|]].
    exists imp'. split; [|done]. left. split; [by eapply lookup_lt_Some|done].
Qed.
Lemma imp_info_ok l : info_ok l (fold_left imp_info_step l (mkImpInfo [] [] [] [])).
Proof.
  induction l as [|imp l IH] using rev_ind.
  { unfold info_ok. cbn. split_and!; try done; [constructor|]. intros k id. split; [by intros ?%not_elem_of_nil|]. by intros (? & ? & _). }
  rw fold_left_app /=. destruct (fold_left imp_info_step l _) as [imps ids indices errs].
  destruct IH as (Hi & Hids & Hlen & Hnd & Hlt & Hz & He). cbn in *. subst imps. unfold info_ok.
  assert (imp_stored_id imp = match getStoredRequestId imp with inl o => o | inr _ => None end) as Hid by done.
  assert (Forall (fun k => k < length (l ++ [imp])) indices) as Hlt'.
  { eapply list.Forall_impl; [exact Hlt|]. intros k. rw length_app. simpl. lia. }
  destruct (getStoredRequestId imp) as [[id|]|err] eqn:E; cbn.
  all: rw omap_app /= Hid ?app_nil_r; split_and!; try done.
  all: try (intros k id'; rw lookup_last_stored Hid -Hz ?zip_with_app ?elem_of_app ?list_elem_of_singleton //; intuition congruence).
  - by rw Hids.
  - rw !length_app. simpl. lia.
  - apply list.NoDup_app. split_and!; [done| |by apply NoDup_singleton]. intros k Hk ->%list_elem_of_singleton.
    rw list.Forall_forall in Hlt. specialize (Hlt _ Hk). lia.
  - rw list.Forall_app list.Forall_singleton length_app. simpl. split; [|lia]. by rw length_app in Hlt'.
  - rw He list.Forall_app list.Forall_singleton E. split; [intros ?; split; eauto|tauto].
  - rw He list.Forall_app list.Forall_singleton E. split; [intros ?; split; eauto|tauto].
  - rw list.Forall_app list.Forall_singleton E. split; [by intros []%app_eq_nil|]. by intros [_ [o Ho]].
Qed.

(** *** Merging the imps *)
Lemma merge_imps_spec storedImps ids : forall i indices imps imps', NoDup indices ->
  Forall (fun k => k < length imps) indices -> length indices = length ids ->
  merge_imps Offset storedImps i ids indices imps = inl imps' <->
  length imps' = length imps /\ forall k imp, imps !! k = Some imp ->
    (k ∉ indices -> imps' !! k = Some imp) /\
    (forall id, (k, id) ∈ zip indices ids -> exists r, MergePatch (stored storedImps id) imp = inl r /\ imps' !! k = Some r).
Proof.
  induction ids as [|id ids IH]; intros i [|idx indices] imps imps' Hnd Hlt Hlen; try done; cbn [merge_imps].
  { split.
    - intros [= <-]. split; [done|]. intros k imp Hk. split; [done|]. by intros id ?%not_elem_of_nil.
    - intros [Hl Hk]. f_equal. symmetry. apply list_eq_same_length with (length imps); [done..|].
      intros k x y _ Hx Hy. destruct (Hk _ _ Hy) as [Hs _]. rw Hs in Hx; [apply not_elem_of_nil|]. by injection Hx. }
  apply list.NoDup_cons in Hnd as [Hnin Hnd]. apply list.Forall_cons in Hlt as [Hidx Hlt]. injection Hlen as Hlen.
  destruct (lookup_lt_is_Some_2 _ _ Hidx) as [imp Himp]. rw Himp. change (default RawNil (Some imp)) with imp.
  destruct (MergePatch (stored storedImps id) imp) as [r|err] eqn:Em.
  - rw IH // ?length_insert //. apply and_iff_compat_l. split.
    + intros Hk k imp0 Hk0. destruct (decide (k = idx)) as [->|Hne].
      * rw Himp in Hk0. injection Hk0 as <-. split; [set_solver|]. intros id' [[= ->]|Hz]%elem_of_cons.
        { exists r. split; [done|]. apply (Hk idx r); [by apply list_lookup_insert_eq|done]. }
        exfalso. apply Hnin. apply elem_of_zip_l in Hz. done.
      * destruct (Hk k imp0) as [H1 H2]; [by rw list_lookup_insert_ne|]. split; [set_solver|].
        intros id' [[= -> ->]|Hz]%elem_of_cons; [done|]. by apply H2.
    + intros Hk k imp0 Hk0. destruct (decide (k = idx)) as [->|Hne].
      * rw list_lookup_insert_eq // in Hk0. injection Hk0 as <-. split.
        { intros _. destruct (Hk idx imp Himp) as [_ H2]. destruct (H2 id) as (r' & Hr & Hl); [by left|]. congruence. }
        intros id' Hz. exfalso. apply Hnin. by apply elem_of_zip_l in Hz.
      * rw list_lookup_insert_ne // in Hk0. destruct (Hk k imp0 Hk0) as [H1 H2]. split; [set_solver|].
        intros id' Hz. apply H2. by right.
  - split; [done|]. intros [_ Hk]. destruct (Hk idx imp Himp) as [_ H2]. destruct (H2 id) as (r & Hr & _); [by left|]. congruence.
Qed.

Lemma in_zip_l {A B} (l : list A) (k : list B) x : length l = length k -> x ∈ l <-> exists y, (x, y) ∈ zip l k.
Proof.
  intros Hlen. split; [|by intros [y ?%elem_of_zip_l]]. intros [j Hj]%list_elem_of_lookup.
  destruct (lookup_lt_is_Some_2 k j) as [y Hy]; [rw -Hlen; by eapply lookup_lt_Some|].
  exists y. apply list_elem_of_lookup. exists j. by apply lookup_zip_Some.
Qed.

(** The imps after the merge, one by one. *)
Lemma merge_imps_resolved storedImps imps imps' info : info = fold_left imp_info_step imps (mkImpInfo [] [] [] []) ->
  ii_errs info = [] ->
  merge_imps Offset storedImps 0 (ii_ids info) (ii_indices info) imps = inl imps' <-> Forall2 (resolved_imp storedImps) imps imps'.
Proof.
  intros Hinfo Herrs. pose proof (imp_info_ok imps) as Hok. rw -Hinfo in Hok. clear Hinfo.
  destruct Hok as (_ & _ & Hlen & Hnd & Hlt & Hz & He). apply He in Herrs.
  rw merge_imps_spec // Forall2_lookup. split.
  - intros [Hl Hk] k. destruct (imps !! k) as [imp|] eqn:E.
    + destruct (lookup_lt_is_Some_2 imps' k) as [imp' E']; [rw Hl; by eapply lookup_lt_Some|]. rw E'. constructor.
      destruct (Hk k imp E) as [H1 H2]. rw list.Forall_lookup in Herrs. destruct (Herrs k imp E) as [o Ho].
      unfold resolved_imp. rw Ho. destruct o as [id|].
      * destruct (H2 id) as (r & Hr & Hl'); [|congruence]. apply Hz. exists imp. by rw /imp_stored_id Ho.
      * rw H1 in E'; [|by injection E']. rw in_zip_l //. intros [id (imp2 & E2 & Hs)%Hz].
        rw E in E2. injection E2 as <-. by rw /imp_stored_id Ho in Hs.
    + assert (imps' !! k = None) as ->; [|constructor]. apply lookup_ge_None. rw Hl. by apply lookup_ge_None.
  - intros Hall. split; [symmetry; eapply Forall2_length, Forall2_lookup, Hall|].
    intros k imp E. specialize (Hall k). rw E in Hall. inversion Hall as [? imp' Hr Heq HE|]; subst.
    unfold resolved_imp in Hr. split.
    + intros Hnin. destruct (getStoredRequestId imp) as [[id|]|] eqn:Eg; [|by subst|done]. exfalso. apply Hnin.
      apply (in_zip_l _ _ _ Hlen). exists id. apply Hz. exists imp. by rw /imp_stored_id Eg.
    + intros id (imp2 & E2 & Hs)%Hz. rw E in E2. injection E2 as <-. rw /imp_stored_id in Hs.
      destruct (getStoredRequestId imp) as [o|]; [|done]. subst o. by exists imp'.
Qed.

Lemma resolved_readable storedImps imps imps' : Forall2 (resolved_imp storedImps) imps imps' ->
  Forall (fun imp => exists o, getStoredRequestId imp = inl o) imps.
Proof.
  induction 1 as [|imp imp' imps imps' Hr _ IH]; constructor; [|done]. unfold resolved_imp in Hr.
  destruct (getStoredRequestId imp) as [o|]; [by exists o|done].
Qed.
Lemma merge_stored_merged d id requestJson full :
  merge_stored_request Offset d id requestJson = inl full <-> merged (stored d <$> id) requestJson full.
Proof. destruct id as [i|]; cbn; [destruct (MergePatch _ _)|]; split; congruence. Qed.
Lemma merge_defaults_merged def r base : merge_defaults Offset def r = inl base <-> merged def r base.
Proof. destruct def as [d|]; cbn; [destruct (MergePatch _ _)|]; split; congruence. Qed.

Lemma processed_iff fetcher defReqJSON requestJson r :
  processStoredRequests Offset fetcher defReqJSON requestJson = inl r <->
  exists id full base imps',
    let imps := request_imps requestJson in
    let ids : list string := omap imp_stored_id imps in
    let fetched := FetchRequests fetcher (match id with Some i => [i] | None => [] end) ids in
    getStoredRequestId requestJson = inl id /\ f_errs fetched = [] /\
    merged (stored (f_requests fetched) <$> id) requestJson full /\ merged defReqJSON full base /\
    Forall2 (resolved_imp (f_imps fetched)) imps imps' /\
    (ids = [] -> r = base) /\ (ids <> [] -> set_imps base imps' = inl r).
Proof.
  unfold processStoredRequests.
  assert (parseImpInfo requestJson = fold_left imp_info_step (request_imps requestJson) (mkImpInfo [] [] [] [])) as ->.
  { unfold parseImpInfo, request_imps. destruct (jp_err _); [done|]. by destruct (jp_type _). }
  destruct (getStoredRequestId requestJson) as [id|err]; [|split; [done|]; by intros (? & ? & ? & ? & ? & _)].
  pose proof (imp_info_ok (request_imps requestJson)) as (Hi & Hids & _ & _ & _ & _ & He).
  pose proof (fun s i => merge_imps_resolved s (request_imps requestJson) i _ eq_refl) as Hm.
  destruct (fold_left imp_info_step _ _) as [imps ids indices errs]. cbn [ii_imps ii_ids ii_indices ii_errs] in *. subst imps ids.
  destruct errs as [|err errs].
  2: { split; [done|]. intros (? & ? & ? & ? & Hid & _ & _ & _ & Hall & _). by apply resolved_readable, He in Hall. }
  specialize (Hm (f_imps (FetchRequests fetcher (match id with Some i => [i] | None => [] end) (omap imp_stored_id (request_imps requestJson))))).
  setoid_rewrite <- merge_stored_merged. setoid_rewrite <- merge_defaults_merged.
  split.
  - destruct (FetchRequests _ _ _) as [reqs simps [|? ?]] eqn:Ef; [|done]. cbn [f_imps] in Hm.
    destruct (merge_stored_request _ _ _ _) as [full|] eqn:Es; [|done].
    destruct (merge_defaults _ _ _) as [base|] eqn:Ed; [|done].
    destruct (merge_imps _ _ _ _ _ _) as [imps'|] eqn:Ei; [|done]. intros Hr.
    exists id, full, base, imps'. cbv zeta. rw Ef. cbn. split_and!; try done; [by apply Hm| |].
    + intros Hnil. rw Hnil in Hr. by injection Hr.
    + intros Hne. destruct (omap imp_stored_id _); [done|]. destruct (set_imps base imps'); congruence.
  - intros (id0 & full & base & imps' & [= ->] & He0 & Hs & Hd & Hall & Hnil & Hne). apply (Hm imps' eq_refl) in Hall.
    destruct (FetchRequests _ _ _) as [reqs simps ferrs]. cbn in *. subst ferrs. rw Hs Hd Hall.
    destruct (omap imp_stored_id _); [by rw Hnil|]. by rw Hne.
Qed.

(** C7: what stored data does to a request: [processStoredRequests] gives [r]
    exactly when the ids that the request and its imps name are readable and
    all of them were fetched without error, [r] is the request merged over its
    stored request and the defaults under that, and, when an imp names stored
    data, with the encodings of all its imps, in their order, in the place of
    its imps: each one that names stored data merged over it, the others
    unchanged. *)
Theorem stored_requests_merged fetcher defReqJSON requestJson r :
  processStoredRequests Offset fetcher defReqJSON requestJson = inl r <->
  exists id oids full base imps',
    let imps := request_imps requestJson in
    let ids : list string := omap (fun o => o) oids in
    let fetched := FetchRequests fetcher (match id with Some i => [i] | None => [] end) ids in
    names requestJson id /\ Forall2 names imps oids /\ f_errs fetched = [] /\
    merged ((fun i => default RawNil (f_requests fetched !! i)) <$> id) requestJson full /\ merged defReqJSON full base /\
    Forall2 (imp_merged (f_imps fetched)) imps imps' /\
    (ids = [] -> r = base) /\
    (ids <> [] -> exists l, Forall2 (fun imp j => enc_raw imp = Some j) imps' l /\ jp_Set base (JArr l) "imp" = inl r).
Proof.
  transitivity (exists id full base imps',
    let imps := request_imps requestJson in
    let ids : list string := omap imp_stored_id imps in
    let fetched := FetchRequests fetcher (match id with Some i => [i] | None => [] end) ids in
    getStoredRequestId requestJson = inl id /\ f_errs fetched = [] /\
    merged (stored (f_requests fetched) <$> id) requestJson full /\ merged defReqJSON full base /\
    Forall2 (resolved_imp (f_imps fetched)) imps imps' /\
    (ids = [] -> r = base) /\ (ids <> [] -> set_imps base imps' = inl r)); [apply processed_iff|].
  split.
  - intros (id & full & base & imps' & Hid & He & Hs & Hd & Hall & Hnil & Hne).
    destruct (names_all _ (resolved_readable _ _ _ Hall)) as [oids Hoids]. exists id, oids, full, base, imps'.
    cbv zeta. rw -(names_ids _ _ Hoids). split_and!; try done; [by apply names_iff| |by intros ?%Hne%set_imps_iff].
    eapply list.Forall2_impl; [exact Hall|]. intros imp imp'. apply resolved_merged.
  - intros (id & oids & full & base & imps' & Hid & Hoids & He & Hs & Hd & Hall & Hnil & Hne).
    cbv zeta in *. rw -(names_ids _ _ Hoids) in He, Hs, Hall, Hnil, Hne. exists id, full, base, imps'.
    cbv zeta. split_and!; try done; [by apply names_iff| |by intros ?%Hne%set_imps_iff].
    eapply list.Forall2_impl; [exact Hall|]. intros imp imp'. apply resolved_merged.
Qed.
End MergeFacts.

(** ** A concrete run: JSON merge patch as RFC 7396 defines it *)
Definition remove_exact (name : string) (kvs : list (string * json)) : list (string * json) :=
  List.filter (fun kj => negb (GoStr.eqb kj.1 name)) kvs.
Fixpoint merge_json (target patch : json) {struct patch} : json :=
  match patch with
  | JObj kvs =>
      let fix go (kvs acc : list (string * json)) : list (string * json) :=
        match kvs with
        | [] => acc
        | (k, v) :: rest =>
            go rest (match v with
                     | JNull => remove_exact k acc
                     | _ => set_exact k (merge_json (default JNull (find_exact k acc)) v) acc
                     end)
        end in
      JObj (go kvs match target with JObj t => t | _ => [] end)
  | _ => patch
  end.
#[export] Instance rfc7396 : JsonPatch := {
  MergePatch doc patch :=
    match doc, patch with
    | RawJson d, RawJson p => inl (RawJson (merge_json d p))
    | _, _ => inr json_syntax_error
    end }.

Definition stored_ext (id : string) : string * json :=
  ("ext", JObj [("prebid", JObj [("storedrequest", JObj [("id", JStr id)])])])%string.
Definition demo_stored : AllFetcher :=
  mkFetcher (fun rs is_ => mkFetched {["r" := RawJson (JObj [("tmax", JNum "500"); ("at", JNum "2")])]}
                              {["i" := RawJson (JObj [("secure", JNum "1")])]} [])
    (fun _ => (RawNil, [])) (fun _ _ _ => (""%string, None)).
Definition demo_incoming : RawMessage :=
  RawJson (JObj [("id", JStr "x"); ("at", JNum "1"); stored_ext "r";
                 ("imp", JArr [JObj [("id", JStr "a")]; JObj [("id", JStr "b"); stored_ext "i"]])])%string.
Definition demo_merged : RawMessage :=
  RawJson (JObj [("tmax", JNum "500"); ("at", JNum "1"); ("id", JStr "x"); stored_ext "r";
                 ("imp", JArr [JObj [("id", JStr "a")]; JObj [("secure", JNum "1"); ("id", JStr "b"); stored_ext "i"]])])%string.
Example demo_merge : processStoredRequests (fun _ => 0%Z) demo_stored None demo_incoming = inl demo_merged.
Proof. by vm_compute. Qed.
