(* ===== verification/Auction.v ===== *)
(** * The auction

    [exchange/auction.go]: choosing the winning bids, rounding their prices,
    and sending bids and VAST to Prebid Cache.  Bids are addresses of the
    auction's store, so that a bid that two maps refer to is one bid.  A loop
    over a map takes the order in which the entries are visited. *)

From S2P Require Import Prelude Float64 ErrorTypes Json OpenRTB PriceGranularity.

Record auction := mkAuction {
  winningBids : gmap string loc;
  winningBidsByBidder : gmap string (gmap string loc);
  roundedPrices : gmap loc string;
  cacheIds : gmap loc string;
  vastCacheIds : gmap loc string }.

Definition nonempty (s : string) : bool := negb (GoStr.is_empty s).

Definition isNewWinningBid (bid wbid : Bid) (preferDeals : bool) : bool :=
  if preferDeals && nonempty (bid_DealID wbid) && negb (nonempty (bid_DealID bid)) then false
  else if preferDeals && negb (nonempty (bid_DealID wbid)) && nonempty (bid_DealID bid) then true
  else F64.gtb (bid_Price bid) (bid_Price wbid).

Definition AucMaps : Type := gmap string loc * gmap string (gmap string loc).

(** The body of the loop of [newAuction], for one bid of one bidder; [None] is
    a nil dereference. *)
Definition wins_step (st : Store) (preferDeals : bool) (wins : gmap string loc) (bid : loc) (b : Bid) :
  option (gmap string loc) :=
  match wins !! bid_ImpID b with
  | None => Some (<[bid_ImpID b := bid]> wins)
  | Some wbid =>
      match bid_at st wbid with
      | None => None
      | Some wb => if isNewWinningBid b wb preferDeals
                   then Some (<[bid_ImpID b := bid]> wins) else Some wins
      end
  end.
Definition by_bidder_step (st : Store) (byBidder : gmap string (gmap string loc)) (bidderName : string)
    (bid : loc) (b : Bid) : option (gmap string (gmap string loc)) :=
  match byBidder !! bid_ImpID b with
  | Some bidMap =>
      match bidMap !! bidderName with
      | None => Some (<[bid_ImpID b := <[bidderName := bid]> bidMap]> byBidder)
      | Some bestSoFar =>
          match bid_at st bestSoFar with
          | None => None
          | Some bb => if F64.gtb (bid_Price b) (bid_Price bb)
                       then Some (<[bid_ImpID b := <[bidderName := bid]> bidMap]> byBidder)
                       else Some byBidder
          end
      end
  | None => Some (<[bid_ImpID b := {[bidderName := bid]}]> byBidder)
  end.
Definition auction_step (st : Store) (preferDeals : bool) (bidderName : string) (acc : AucMaps) (bid : loc) :
  option AucMaps :=
  let '(wins, byBidder) := acc in
  match bid_at st bid with
  | None => None
  | Some b =>
      match wins_step st preferDeals wins bid b, by_bidder_step st byBidder bidderName bid b with
      | Some w, Some by_ => Some (w, by_)
      | _, _ => None
      end
  end.

(** [seatBids] in the order of the iteration; a nil seat is skipped. *)
Definition newAuction (st : Store) (seatBids : list (string * option pbsOrtbSeatBid)) (preferDeals : bool) :
  option auction :=
  match foldM (fun acc '(bidderName, seatBid) =>
                 match seatBid with
                 | None => Some acc
                 | Some seatBid => foldM (auction_step st preferDeals bidderName) (sb_bids seatBid) acc
                 end) seatBids (∅, ∅) with
  | Some (wins, byBidder) => Some (mkAuction wins byBidder ∅ ∅ ∅)
  | None => None
  end.

(** The order in which a nested loop visits the bids by imp and bidder. *)
Definition Visits : Type := list (string * list (string * loc)).
Definition visited (v : Visits) : list (string * string * loc) :=
  concat (map (fun iv => map (fun np => (iv.1, np.1, np.2)) iv.2) v).
Definition visits_of (m : gmap string (gmap string loc)) (v : Visits) : Prop :=
  exists order : list (string * gmap string loc), map_range m order /\
    Forall2 (fun im v => im.1 = v.1 /\ map_range im.2 v.2) order v.

Definition set_roundedPrices (a : auction) (r : gmap loc string) : auction :=
  mkAuction (winningBids a) (winningBidsByBidder a) r (cacheIds a) (vastCacheIds a).

Definition setRoundedPrices (st : Store) (v : Visits) (a : auction) (pg : PriceGranularity) : option auction :=
  match foldM (fun (r : gmap loc string) '(_, inner) =>
            foldM (fun (r : gmap loc string) '(_, top) =>
                match bid_at st top with
                | None => None
                | Some b => Some (<[top := GetPriceBucket (bid_Price b) pg]> r)
                end) inner r) v ∅ with
  | Some r => Some (set_roundedPrices a r)
  | None => None
  end.

(** ** Cache times *)
Definition addBuffer (base buffer : Z) : Z :=
  if (base <=? 0)%Z then 0%Z else Int64.add base buffer.
Definition cacheTTL (impTTL bidTTL defTTL buffer : Z) : Z :=
  if (impTTL <=? 0)%Z && (bidTTL <=? 0)%Z then addBuffer defTTL buffer
  else if (impTTL <=? 0)%Z then addBuffer bidTTL buffer
  else if (bidTTL <=? 0)%Z then addBuffer impTTL buffer
  else if (impTTL <? bidTTL)%Z then addBuffer impTTL buffer
  else addBuffer bidTTL buffer.

Record DefaultTTLs := mkDefaultTTLs { ttl_Banner : Z; ttl_Video : Z; ttl_Native : Z; ttl_Audio : Z }.
Definition defTTL (bidType : string) (d : DefaultTTLs) : Z :=
  if GoStr.eqb bidType BidType.Banner then ttl_Banner d
  else if GoStr.eqb bidType BidType.Video then ttl_Video d
  else if GoStr.eqb bidType BidType.Native then ttl_Native d
  else if GoStr.eqb bidType BidType.Audio then ttl_Audio d
  else 0%Z.

Definition makeVAST (bid : Bid) : string :=
  if GoStr.is_empty (bid_AdM bid) then
    "<VAST version=" ⧺ GoStr.quoted "3.0" ⧺ "><Ad><Wrapper><AdSystem>prebid.org wrapper</AdSystem><VASTAdTagURI><![CDATA[" ⧺
    bid_NURL bid ⧺ "]]></VASTAdTagURI><Impression></Impression><Creatives></Creatives></Wrapper></Ad></VAST>"
  else bid_AdM bid.

(** ** Caching *)
Inductive PayloadType := TypeJSON | TypeXML.
Record Cacheable := mkCacheable {
  ca_Type : PayloadType; ca_Data : json; ca_TTLSeconds : Z; ca_Key : string }.

Record CacheFlags := mkCacheFlags {
  includeBidderKeys : bool; includeWinners : bool; includeCacheBids : bool; includeCacheVast : bool }.

Record DebugLog := mkDebugLog {
  dl_Enabled : bool; dl_CacheType : PayloadType; dl_Request : string; dl_Headers : string;
  dl_Response : string; dl_TTL : Z; dl_CacheKey : string; dl_CacheString : string;
  dl_Regexp : option (string -> string); dl_DebugOverride : bool; dl_DebugEnabledOrOverridden : bool }.

Definition dl_set_CacheKey (d : DebugLog) (key : string) : DebugLog :=
  let 'mkDebugLog en ct rq hd rs ttl _ cs re ov eo := d in mkDebugLog en ct rq hd rs ttl key cs re ov eo.
Definition dl_set_Response (d : DebugLog) (response : string) : DebugLog :=
  let 'mkDebugLog en ct rq hd _ ttl ck cs re ov eo := d in mkDebugLog en ct rq hd response ttl ck cs re ov eo.
Definition dl_set_Enabled (d : DebugLog) (enabled : bool) : DebugLog :=
  let 'mkDebugLog _ ct rq hd rs ttl ck cs re ov eo := d in mkDebugLog enabled ct rq hd rs ttl ck cs re ov eo.
(** The zero value: an empty payload type is neither JSON nor XML, and it is
    used only when the log is enabled. *)
Definition emptyDebugLog : DebugLog := mkDebugLog false TypeJSON "" "" "" 0 "" "" None false false.

Definition newline : string := String (Ascii.ascii_of_nat 10) EmptyString.
(** [xml.Header]. *)
Definition xml_header : string :=
  "<?xml version=" ⧺ GoStr.quoted "1.0" ⧺ " encoding=" ⧺ GoStr.quoted "UTF-8" ⧺ "?>" ⧺ newline.

(** [BuildCacheString]; [Sprintf0] is [fmt.Sprintf] of a format without
    arguments, which the cleaned data is passed through. *)
Definition BuildCacheString (Sprintf0 : string -> string) (d : DebugLog) : DebugLog :=
  let clean s := match dl_Regexp d with Some re => Sprintf0 (re s) | None => s end in
  let request := "<Request>" ⧺ clean (dl_Request d) ⧺ "</Request>" in
  let headers := "<Headers>" ⧺ clean (dl_Headers d) ⧺ "</Headers>" in
  let response := "<Response>" ⧺ clean (dl_Response d) ⧺ "</Response>" in
  mkDebugLog (dl_Enabled d) (dl_CacheType d) request headers response (dl_TTL d) (dl_CacheKey d)
    (xml_header ⧺ "<Log>" ⧺ request ⧺ headers ⧺ response ⧺ "</Log>")
    (dl_Regexp d) (dl_DebugOverride d) (dl_DebugEnabledOrOverridden d).

Definition IsDebugOverrideEnabled (debugHeader configOverrideToken : string) : bool :=
  nonempty configOverrideToken && GoStr.eqb debugHeader configOverrideToken.

(** [PutDebugLogError]: the log afterwards and what is put into the cache, or
    the error of the UUID generator.  Encoding a string does not fail. *)
Definition PutDebugLogError (Sprintf0 : string -> string) (newUUID : string + error) (d : DebugLog)
    (errors : list error) : DebugLog * (Cacheable + error) :=
  let d := match errors with
           | [] => if GoStr.is_empty (dl_Response d) then dl_set_Response d "No response or errors created" else d
           | _ => dl_set_Response d (dl_Response d ⧺ newline ⧺ "Errors:" ⧺ newline ⧺
                                     GoStr.join newline (error_string <$> errors))
           end in
  let d := BuildCacheString Sprintf0 d in
  let put d := (d, inl (mkCacheable (dl_CacheType d) (JStr (dl_CacheString d)) (dl_TTL d) ("log_" ⧺ dl_CacheKey d))) in
  if GoStr.is_empty (dl_CacheKey d) then
    match newUUID with
    | inl rawUUID => put (dl_set_CacheKey d rawUUID)
    | inr err => (d, inr err)
    end
  else put d.

(** What the loop of [doCache] accumulates: the payloads, and which bid each
    index of them stands for. *)
Record CacheAcc := mkCacheAcc {
  toCache : list Cacheable; bidIndices : list (nat * loc); vastIndices : list (nat * loc);
  cacheErrs : list error }.

Section DoCache.
(** [json.Marshal] of a bid, [eventTracking.modifyBidJSON] and the building
    of the debug log's text. *)
Context (MarshalBid : Bid -> json + error).
Context (modifyBidJSON : pbsOrtbBid -> string -> json -> json * option error).
Context (Build : DebugLog -> DebugLog).
(** The client, which answers an id (empty when it failed) per payload. *)
Context (PutJson : list Cacheable -> list string * list error).

Section Loop.
Context (st : Store) (a : auction) (flags : CacheFlags) (imps : list Imp).
Context (ttlBuffer : Z) (defaultTTLs : DefaultTTLs) (bidCategory : gmap string string).
(** The UUID of the category keys, when competitive exclusion applies. *)
Context (hbCacheID : option string).

(** The last imp of an id decides its expiry. *)
Definition expByImp : gmap string Z := fold_left (fun m i => <[imp_ID i := imp_Exp i]> m) imps ∅.

Definition is_winner (impID : string) (p : loc) : bool :=
  bool_decide (winningBids a !! impID = Some p).

Definition customKey (b : Bid) (isOverallWinner : bool) : option string :=
  if (bool_decide (is_Some hbCacheID) && isOverallWinner) || includeBidderKeys flags then
    let catDur := default ""%string (bidCategory !! bid_ID b) in
    if nonempty catDur then Some (catDur ⧺ "_" ⧺ default ""%string hbCacheID) else None
  else None.

Definition cache_bids_part (name : string) (p : loc) (pb : pbsOrtbBid) (b : Bid) (useCustom : bool) (ttl : Z)
    (acc : CacheAcc) : CacheAcc :=
  if includeCacheBids flags then
    match MarshalBid b with
    | inr err => mkCacheAcc (toCache acc) (bidIndices acc) (vastIndices acc) (cacheErrs acc ++ [err])
    | inl jsonBytes =>
        let '(jsonBytes, merr) := modifyBidJSON pb name jsonBytes in
        let errs := cacheErrs acc ++ match merr with Some e => [e] | None => [] end ++
                    if useCustom then [EPlain "cannot use custom cache key for non-vast bids"] else [] in
        mkCacheAcc (toCache acc ++ [mkCacheable TypeJSON jsonBytes ttl ""])
          (bidIndices acc ++ [(length (toCache acc), p)]) (vastIndices acc) errs
    end
  else acc.

(** Marshalling a string does not fail. *)
Definition cache_vast_part (p : loc) (pb : pbsOrtbBid) (b : Bid) (key : option string) (ttl : Z)
    (acc : CacheAcc) : CacheAcc :=
  if includeCacheVast flags && GoStr.eqb (pb_bidType pb) BidType.Video then
    mkCacheAcc (toCache acc ++ [mkCacheable TypeXML (JStr (makeVAST b)) ttl (default ""%string key)])
      (bidIndices acc) (vastIndices acc ++ [(length (toCache acc), p)]) (cacheErrs acc)
  else acc.

Definition cache_step (acc : CacheAcc) (np : string * loc) : option CacheAcc :=
  let '(name, p) := np in
  match deref st p with
  | None => None
  | Some (pb, b) =>
      let impID := bid_ImpID b in
      let isOverallWinner := is_winner impID p in
      if negb (includeBidderKeys flags) && negb isOverallWinner then Some acc
      else
        let key := customKey b isOverallWinner in
        let ttl := cacheTTL (default 0%Z (expByImp !! impID)) (bid_Exp b)
                     (defTTL (pb_bidType pb) defaultTTLs) ttlBuffer in
        Some (cache_vast_part p pb b key ttl
                (cache_bids_part name p pb b (bool_decide (is_Some key)) ttl acc))
  end.

Definition cache_loop (v : Visits) (errs : list error) : option CacheAcc :=
  foldM (fun acc '(_, inner) => foldM cache_step inner acc) v (mkCacheAcc [] [] [] errs).
End Loop.

(** Reading the ids back; an index past the end of [ids] is a panic. *)
Definition collect_ids (ids : list string) (adjust : string -> string) (indices : list (nat * loc))
    (bid_of : loc -> loc) : option (gmap loc string) :=
  foldM (fun (m : gmap loc string) '(index, p) =>
      match ids !! index with
      | None => None
      | Some id => if nonempty id then Some (<[bid_of p := adjust id]> m) else Some m
      end) indices ∅.

(** The address of the bidder's bid behind an exchange bid. *)
Definition bid_ptr (st : Store) (p : loc) : loc :=
  match st_pbs st !! p with Some pb => default p (pb_bid pb) | None => p end.

Definition doCache (st : Store) (v : Visits) (a : auction) (flags : CacheFlags) (bidRequest : BidRequest)
    (ttlBuffer : Z) (defaultTTLs : DefaultTTLs) (bidCategory : gmap string string)
    (newUUID : string + error) (debugLog : option DebugLog) :
  option (auction * list error * option DebugLog) :=
  if negb ((includeCacheBids flags || includeCacheVast flags) &&
           (includeBidderKeys flags || includeWinners flags)) then Some (a, [], debugLog)
  else
    let '(hbCacheID, errs) :=
      if bool_decide (bidCategory = ∅) then (None, [])
      else match newUUID with
           | inl uuid => (Some uuid, [])
           | inr _ => (None, [EPlain "failed to create custom cache key"])
           end in
    match cache_loop st a flags (req_Imp bidRequest) ttlBuffer defaultTTLs bidCategory hbCacheID v errs with
    | None => None
    | Some acc =>
        let '(payloads, debugLog) :=
          match toCache acc, debugLog with
          | _ :: _, Some dl =>
              if dl_DebugEnabledOrOverridden dl then
                let dl := Build (dl_set_CacheKey dl (default ""%string hbCacheID)) in
                (toCache acc ++ [mkCacheable (dl_CacheType dl) (JStr (dl_CacheString dl)) (dl_TTL dl)
                                   ("log_" ⧺ dl_CacheKey dl)], Some dl)
              else (toCache acc, debugLog)
          | _, _ => (toCache acc, debugLog)
          end in
        let '(ids, putErrs) := PutJson payloads in
        let adjust id := match hbCacheID with
                         | Some uuid => if GoStr.has_suffix id uuid then uuid else id
                         | None => id
                         end in
        let cacheIds' := if includeCacheBids flags
                         then collect_ids ids (fun id => id) (bidIndices acc) (bid_ptr st) else Some (cacheIds a) in
        let vastIds' := if includeCacheVast flags
                        then collect_ids ids adjust (vastIndices acc) (bid_ptr st) else Some (vastCacheIds a) in
        match cacheIds', vastIds' with
        | Some c, Some vc =>
            Some (mkAuction (winningBids a) (winningBidsByBidder a) (roundedPrices a) c vc,
                  cacheErrs acc ++ putErrs, debugLog)
        | _, _ => None
        end
    end.
End DoCache.

(** ** Winners *)

(** The bid at an address (the empty bid where there is none). *)
Definition the_bid (st : Store) (p : loc) : Bid := default emptyBid (bid_at st p).

(** All the bids of the seats, in the order the loops visit them. *)
Definition bids_of (seats : list (string * option pbsOrtbSeatBid)) : list (string * loc) :=
  concat (map (fun '(name, sb) => match sb with
                                  | None => []
                                  | Some sb => map (pair name) (sb_bids sb)
                                  end) seats).
Definition bids_ok (st : Store) (l : list (string * loc)) : Prop :=
  Forall (fun np => is_Some (bid_at st np.2)) l.

Definition on_imp (st : Store) (imp : string) (l : list (string * loc)) : list loc :=
  map snd (List.filter (fun np => GoStr.eqb (bid_ImpID (the_bid st np.2)) imp) l).
Definition on_imp_by (st : Store) (imp name : string) (l : list (string * loc)) : list loc :=
  map snd (List.filter (fun np => GoStr.eqb (bid_ImpID (the_bid st np.2)) imp && GoStr.eqb np.1 name) l).

Definition outprices (st : Store) (p q : loc) : bool :=
  F64.gtb (bid_Price (the_bid st p)) (bid_Price (the_bid st q)).
(** The order of the overall winner: lexicographic in (has a deal, price)
    when deals are preferred, by price otherwise. *)
Definition has_deal (st : Store) (p : loc) : bool := nonempty (bid_DealID (the_bid st p)).
Definition beats (st : Store) (preferDeals : bool) (p q : loc) : bool :=
  if preferDeals then (has_deal st p && negb (has_deal st q)) ||
                      (eqb (has_deal st p) (has_deal st q) && outprices st p q)
  else outprices st p q.
Definition top_of (a : auction) (imp name : string) : option loc :=
  winningBidsByBidder a !! imp ≫= fun m => m !! name.

Lemma pick_fold_elem {A} (better : A -> A -> bool) l acc w :
  fold_left (pick better) l acc = Some w -> acc = Some w \/ w ∈ l.
Proof.
  revert acc. induction l as [|x l IH]; intros acc; simpl; [by left|].
  intros [Hp|?]%IH; [|set_solver]. destruct acc as [a|]; simpl in Hp.
  - destruct (better x a); simplify_eq; set_solver.
  - simplify_eq. set_solver.
Qed.
Lemma pick_all_elem {A} (better : A -> A -> bool) l w : pick_all better l = Some w -> w ∈ l.
Proof. by intros [?|?]%pick_fold_elem. Qed.

Section Winners.
Context (st : Store) (preferDeals : bool).

Lemma on_imp_elem imp l p :
  p ∈ on_imp st imp l <-> exists name, (name, p) ∈ l /\ bid_ImpID (the_bid st p) = imp.
Proof.
  rw /on_imp list_elem_of_In in_map_iff. split.
  - intros ([name q] & <- & [Hin Heq%eqb_eq]%List.filter_In). exists name. by rw list_elem_of_In.
  - intros (name & Hin & <-). exists (name, p). rw List.filter_In -list_elem_of_In. split; [done|].
    split; [done|]. apply eqb_refl.
Qed.

Lemma on_imp_by_elem imp name l p :
  p ∈ on_imp_by st imp name l <-> (name, p) ∈ l /\ bid_ImpID (the_bid st p) = imp.
Proof.
  rw /on_imp_by list_elem_of_In in_map_iff. split.
  - intros ([n q] & <- & [Hin [Heq%eqb_eq Hn%eqb_eq]%andb_true_iff]%List.filter_In). simpl in *. subst.
    by rw list_elem_of_In.
  - intros (Hin & <-). exists (name, p). rw List.filter_In -list_elem_of_In. split; [done|].
    split; [done|]. by rw /= !eqb_refl.
Qed.

Lemma on_imp_snoc imp l name p :
  on_imp st imp (l ++ [(name, p)]) =
    on_imp st imp l ++ if GoStr.eqb (bid_ImpID (the_bid st p)) imp then [p] else [].
Proof. rw /on_imp List.filter_app map_app /=. by destruct (GoStr.eqb _ imp). Qed.

Lemma on_imp_by_snoc imp name l n p :
  on_imp_by st imp name (l ++ [(n, p)]) =
    on_imp_by st imp name l ++ if GoStr.eqb (bid_ImpID (the_bid st p)) imp && GoStr.eqb n name then [p] else [].
Proof. rw /on_imp_by List.filter_app map_app /=. by destruct (_ && _). Qed.

Lemma bid_at_ok l name p : bids_ok st l -> (name, p) ∈ l -> bid_at st p = Some (the_bid st p).
Proof.
  rw /bids_ok list.Forall_forall. intros Hok [b Hb]%Hok. rw /the_bid. simpl in Hb. by rw Hb.
Qed.

(** What the two maps hold after the bids [l]. *)
Definition wins_inv (l : list (string * loc)) (w : gmap string loc) : Prop :=
  forall imp, w !! imp = pick_all (beats st preferDeals) (on_imp st imp l).
Definition top (m : gmap string (gmap string loc)) (imp name : string) : option loc :=
  m !! imp ≫= fun b => b !! name.
Definition by_inv (l : list (string * loc)) (m : gmap string (gmap string loc)) : Prop :=
  forall imp name, top m imp name = pick_all (outprices st) (on_imp_by st imp name l).

Lemma isNewWinningBid_beats p q :
  isNewWinningBid (the_bid st p) (the_bid st q) preferDeals = beats st preferDeals p q.
Proof.
  rw /isNewWinningBid /beats /outprices /has_deal.
  by destruct preferDeals, (nonempty (bid_DealID (the_bid st p))), (nonempty (bid_DealID (the_bid st q))).
Qed.

Lemma wins_step_inv l w name p :
  bids_ok st l -> wins_inv l w ->
  exists w', wins_step st preferDeals w p (the_bid st p) = Some w' /\ wins_inv (l ++ [(name, p)]) w'.
Proof.
  intros Hok Hw. rw /wins_step. set (imp := bid_ImpID (the_bid st p)).
  assert (forall w', (w' = <[imp := p]> w \/ w' = w) ->
      w' !! imp = pick (beats st preferDeals) (w !! imp) p -> wins_inv (l ++ [(name, p)]) w') as Hgen.
  { intros w' Hor Hi i. rw on_imp_snoc -/imp. destruct (eqb_spec imp i) as [<-|Hne].
    - by rw pick_all_snoc -Hw.
    - rw app_nil_r -Hw. destruct Hor as [->| ->]; [by rw lookup_insert_ne|done]. }
  destruct (w !! imp) as [q|] eqn:Eq.
  - pose proof Eq as Hq. rw Hw in Hq. apply pick_all_elem, on_imp_elem in Hq as (n & Hin & _).
    rw (bid_at_ok _ _ _ Hok Hin).
    rw isNewWinningBid_beats. destruct (beats st preferDeals p q) eqn:En;
      eexists; (split; [done|]); apply Hgen; eauto; rw /= En //; by rw lookup_insert_eq.
  - eexists. split; [done|]. apply Hgen; [by left|]. by rw lookup_insert_eq.
Qed.

Lemma by_step_inv l m name p :
  bids_ok st l -> by_inv l m ->
  exists m', by_bidder_step st m name p (the_bid st p) = Some m' /\ by_inv (l ++ [(name, p)]) m'.
Proof.
  intros Hok Hb. rw /by_bidder_step. set (imp := bid_ImpID (the_bid st p)).
  assert (forall m', (forall i n, (i <> imp \/ n <> name) -> top m' i n = top m i n) ->
    top m' imp name = pick (outprices st) (top m imp name) p -> by_inv (l ++ [(name, p)]) m') as Hgen.
  { intros m' Hor Hi i n. rw on_imp_by_snoc -/imp.
    destruct (eqb_spec imp i) as [<-|Hne]; [destruct (eqb_spec name n) as [<-|Hne]|]; simpl.
    - by rw pick_all_snoc -Hb.
    - rw app_nil_r -Hb. apply Hor. by right.
    - rw app_nil_r -Hb. apply Hor. left. congruence. }
  assert (forall b, (forall n, n <> name -> b !! n = default ∅ (m !! imp) !! n) ->
    forall i n, (i <> imp \/ n <> name) -> top (<[imp := b]> m) i n = top m i n) as Hother.
  { intros b Hbn i n Hor. rw /top. destruct (decide (i = imp)) as [->|?]; [|by rw lookup_insert_ne].
    rw lookup_insert_eq /=. destruct Hor; [done|]. rw Hbn //. by destruct (m !! imp). }
  destruct (m !! imp) as [bm|] eqn:Em.
  - destruct (bm !! name) as [q|] eqn:Eq.
    + assert (top m imp name = Some q) as Hq by by rw /top Em.
      pose proof Hq as Hin. rw Hb in Hin. apply pick_all_elem, on_imp_by_elem in Hin as [Hin _].
      rw (bid_at_ok _ _ _ Hok Hin).
      destruct (F64.gtb _ _) eqn:En; eexists; (split; [done|]); apply Hgen; try done;
        try (apply Hother; intros; by rw lookup_insert_ne);
        rw Hq /= /outprices En // /top lookup_insert_eq /= lookup_insert_eq //.
    + eexists. split; [done|]. apply Hgen; [apply Hother; intros; by rw lookup_insert_ne|].
      by rw /top lookup_insert_eq Em /= lookup_insert_eq Eq.
  - eexists. split; [done|]. apply Hgen; [apply Hother; intros; by rw lookup_singleton_ne|].
    by rw /top lookup_insert_eq Em /= lookup_singleton_eq.
Qed.

Lemma auction_fold l0 l acc :
  bids_ok st (l0 ++ l) -> wins_inv l0 acc.1 -> by_inv l0 acc.2 ->
  exists acc', foldM (fun acc np => auction_step st preferDeals np.1 acc np.2) l acc = Some acc' /\
    wins_inv (l0 ++ l) acc'.1 /\ by_inv (l0 ++ l) acc'.2.
Proof.
  revert l0 acc. induction l as [|[name p] l IH]; intros l0 [w m] Hok Hw Hb; simpl in *.
  - rw app_nil_r. by eexists.
  - assert ((l0 ++ [(name, p)]) ++ l = l0 ++ (name, p) :: l) as Hassoc by by rw -app_assoc.
    rw -Hassoc in Hok |- *. pose proof Hok as [[Hok0 _]%Forall_app _]%Forall_app.
    assert (bid_at st p = Some (the_bid st p)) as ->.
    { apply (bid_at_ok _ name _ Hok). rw !elem_of_app. left. right. by apply list_elem_of_singleton. }
    destruct (wins_step_inv l0 w name p Hok0 Hw) as (w' & -> & Hw').
    destruct (by_step_inv l0 m name p Hok0 Hb) as (m' & -> & Hm').
    by apply IH.
Qed.

Lemma newAuction_flat seats :
  newAuction st seats preferDeals =
    match foldM (fun acc np => auction_step st preferDeals np.1 acc np.2) (bids_of seats) (∅, ∅) with
    | Some (wins, byBidder) => Some (mkAuction wins byBidder ∅ ∅ ∅)
    | None => None
    end.
Proof.
  rw /newAuction /bids_of. generalize ((∅, ∅) : AucMaps).
  induction seats as [|[name [sb|]] seats IH]; intros acc; simpl; [done| |apply IH].
  rw foldM_app.
  assert (forall l acc, foldM (fun acc np => auction_step st preferDeals np.1 acc np.2) (map (pair name) l) acc =
            foldM (auction_step st preferDeals name) l acc) as ->.
  { induction l as [|p l IHl]; intros acc'; simpl; [done|]. by destruct (auction_step _ _ _ _ _). }
  destruct (foldM _ (sb_bids sb) acc) as [acc'|]; [apply IH|done].
Qed.

(** The whole of [newAuction]. *)
Lemma newAuction_spec seats :
  bids_ok st (bids_of seats) ->
  exists a, newAuction st seats preferDeals = Some a /\ wins_inv (bids_of seats) (winningBids a) /\
    by_inv (bids_of seats) (winningBidsByBidder a).
Proof.
  intros Hok. rw newAuction_flat.
  destruct (auction_fold [] (bids_of seats) (∅, ∅)) as ([w m] & -> & Hw & Hm); [done| | |by eexists].
  - intros imp. by rw /= lookup_empty.
  - intros imp name. by rw /top /= lookup_empty.
Qed.

(** The two comparisons are strict orders. *)
Lemma outprices_irrefl p : outprices st p p = false.
Proof. apply ltb_irrefl. Qed.
Lemma outprices_trans p q r : outprices st p q = true -> outprices st q r = true -> outprices st p r = true.
Proof. rw /outprices /F64.gtb. intros H1 H2. by eapply ltb_trans. Qed.

Lemma beats_irrefl p : beats st preferDeals p p = false.
Proof.
  rw /beats /outprices /F64.gtb ltb_irrefl. by destruct preferDeals, (has_deal st p).
Qed.
Lemma beats_trans p q r :
  beats st preferDeals p q = true -> beats st preferDeals q r = true -> beats st preferDeals p r = true.
Proof.
  rw /beats /outprices /F64.gtb.
  destruct preferDeals, (has_deal st p), (has_deal st q), (has_deal st r); simpl; try done; intros H1 H2;
    by eapply ltb_trans.
Qed.
End Winners.

(** C13: the auction never fails on well-formed seats and picks right winners:
    for every imp the overall winner is one of the bids on that imp and no
    other bid on it beats it (a deal beats a non-deal when deals are
    preferred, otherwise a strictly higher price is needed), each bidder's top
    bid is one of its bids on the imp and none of them has a higher price, and
    an imp or a bidder without bids has no winner. *)
Theorem newAuction_correct st preferDeals seats (Hok : bids_ok st (bids_of seats)) :
  exists a, newAuction st seats preferDeals = Some a /\
    (forall imp, match winningBids a !! imp with
                 | Some p => p ∈ on_imp st imp (bids_of seats) /\
                     forall q, q ∈ on_imp st imp (bids_of seats) -> beats st preferDeals q p = false
                 | None => on_imp st imp (bids_of seats) = []
                 end) /\
    (forall imp name, match top_of a imp name with
                 | Some p => p ∈ on_imp_by st imp name (bids_of seats) /\
                     forall q, q ∈ on_imp_by st imp name (bids_of seats) -> outprices st q p = false
                 | None => on_imp_by st imp name (bids_of seats) = []
                 end).
Proof.
  destruct (newAuction_spec st preferDeals seats Hok) as (a & Ha & Hw & Hb).
  exists a. split; [done|]. split.
  - intros imp. rw Hw. apply pick_all_spec; [apply beats_trans|apply beats_irrefl].
  - intros imp name. rw /top_of -/(top _ imp name) Hb.
    apply pick_all_spec; [apply outprices_trans|apply outprices_irrefl].
Qed.

(** A store for concrete runs: bid number [i] is at address [i], and the
    exchange's bid number [i] refers to it. *)
Definition demo_store (l : list Bid) : Store :=
  mkStore (list_to_map (imap (fun i b => (Pos.of_succ_nat i,
             mkPbsBid (Some (Pos.of_succ_nat i)) BidType.Banner ∅ None None 0 false "")) l))
          (list_to_map (imap (fun i b => (Pos.of_succ_nat i, b)) l)).
Definition demo_seats : list (string * option pbsOrtbSeatBid) :=
  [("appnexus"%string, Some (mkSeatBid [1%positive; 2%positive] "USD" [])); ("idle"%string, None);
   ("rubicon"%string, Some (mkSeatBid [3%positive] "USD" []))].
Definition demo_auction_store : Store :=
  demo_store [simpleBid "b1" "i1" (F64.of_Z 3) "c1" ""; simpleBid "b2" "i1" (F64.of_Z 5) "c2" "";
              simpleBid "b3" "i1" (F64.of_Z 4) "c3" "deal"].

(** The theorem with three bids of two bidders, deals preferred. *)
Lemma newAuction_correct_witness :
  bids_ok demo_auction_store (bids_of demo_seats) /\
  exists a, newAuction demo_auction_store demo_seats true = Some a /\
    winningBids a !! "i1"%string = Some 3%positive.
Proof.
  assert (bids_ok demo_auction_store (bids_of demo_seats)) as Hok.
  { repeat (apply List.Forall_cons; [eexists; reflexivity|]). apply List.Forall_nil. }
  split; [exact Hok|].
  destruct (newAuction_correct demo_auction_store true demo_seats Hok) as (a & Ha & _ & _).
  exists a. split; [exact Ha|]. vm_compute in Ha. injection Ha as <-. reflexivity.
Defined.

(** No two different bids on one imp tie. *)
Definition no_ties (st : Store) (preferDeals : bool) (l : list (string * loc)) : Prop :=
  forall imp p q, p ∈ on_imp st imp l -> q ∈ on_imp st imp l -> p <> q ->
    beats st preferDeals p q = true \/ beats st preferDeals q p = true.

Lemma on_imp_perm st imp l l' : l ≡ₚ l' -> on_imp st imp l ≡ₚ on_imp st imp l'.
Proof.
  intros Hp. rw /on_imp. apply Permutation_map. induction Hp; simpl.
  - done.
  - destruct (GoStr.eqb _ imp); [by constructor|done].
  - destruct (GoStr.eqb (bid_ImpID (the_bid st y.2)) imp), (GoStr.eqb (bid_ImpID (the_bid st x.2)) imp); try done; by constructor.
  - by etrans.
Qed.

Lemma bids_of_perm seats seats' : seats ≡ₚ seats' -> bids_of seats ≡ₚ bids_of seats'.
Proof.
  intros Hp. rw /bids_of. induction Hp; simpl.
  - done.
  - by apply Permutation_app_head.
  - rw !app_assoc. apply Permutation_app_tail, Permutation_app_comm.
  - by etrans.
Qed.

(** The overall winners do not depend on the order in which Go visits the
    seats, provided no two bids on one imp tie. *)
Theorem winners_order_independent st preferDeals (m : gmap string (option pbsOrtbSeatBid)) seats seats'
    (Hs : map_range m seats) (Hs' : map_range m seats')
    (Hok : bids_ok st (bids_of seats)) (Hties : no_ties st preferDeals (bids_of seats)) :
  exists a a', newAuction st seats preferDeals = Some a /\ newAuction st seats' preferDeals = Some a' /\
    winningBids a = winningBids a'.
Proof.
  assert (seats ≡ₚ seats') as Hp by by rw Hs Hs'.
  assert (bids_ok st (bids_of seats')) as Hok' by (rw /bids_ok -(bids_of_perm _ _ Hp); done).
  destruct (newAuction_spec st preferDeals seats Hok) as (a & Ha & Hw & _).
  destruct (newAuction_spec st preferDeals seats' Hok') as (a' & Ha' & Hw' & _).
  exists a, a'. split; [done|]. split; [done|]. apply map_eq. intros imp. rw Hw Hw'.
  pose proof (on_imp_perm st imp _ _ (bids_of_perm _ _ Hp)) as Hperm.
  pose proof (pick_all_spec (beats st preferDeals) (beats_trans st preferDeals) (beats_irrefl st preferDeals)) as Hspec.
  pose proof (Hspec (on_imp st imp (bids_of seats))) as H1.
  pose proof (Hspec (on_imp st imp (bids_of seats'))) as H2.
  destruct (pick_all _ (on_imp st imp (bids_of seats))) as [p|],
    (pick_all _ (on_imp st imp (bids_of seats'))) as [q|]; [|..|done].
  - destruct H1 as [Hpin Hpmax], H2 as [Hqin Hqmax]. f_equal.
    destruct (decide (p = q)) as [|Hne]; [done|].
    rw -Hperm in Hqin. destruct (Hties imp p q Hpin Hqin Hne) as [Hb|Hb].
    + rw Hperm in Hpin. by rw (Hqmax p Hpin) in Hb.
    + by rw (Hpmax q Hqin) in Hb.
  - destruct H1 as [Hpin _]. rw Hperm H2 in Hpin. by apply elem_of_nil in Hpin.
  - destruct H2 as [Hqin _]. rw -Hperm H1 in Hqin. by apply elem_of_nil in Hqin.
Qed.

(** The theorem with the two seats visited in either order. *)
Lemma winners_order_independent_witness :
  exists a a', newAuction demo_auction_store demo_seats false = Some a /\
    newAuction demo_auction_store (reverse demo_seats) false = Some a' /\ winningBids a = winningBids a'.
Proof.
  set (m := list_to_map demo_seats : gmap string (option pbsOrtbSeatBid)).
  assert (map_range m demo_seats) as Hr.
  { unfold map_range. symmetry. apply map_to_list_to_map. vm_compute. repeat constructor; set_solver. }
  apply (winners_order_independent demo_auction_store false m); [exact Hr| | |].
  - unfold map_range. etrans; [apply reverse_Permutation|exact Hr].
  - repeat (apply List.Forall_cons; [eexists; reflexivity|]). apply List.Forall_nil.
  - intros imp p q (np & Hp & <-)%on_imp_elem (nq & Hq & Hi)%on_imp_elem Hne.
    apply list_elem_of_In in Hp, Hq. simpl in Hp, Hq.
    destruct Hp as [[= <- <-]|[[= <- <-]|[[= <- <-]|[]]]], Hq as [[= <- <-]|[[= <- <-]|[[= <- <-]|[]]]];
      first [done | by (left; vm_compute) | by (right; vm_compute)].
Defined.

(** Every price is a number. *)
Definition prices_numeric (st : Store) (l : list (string * loc)) : Prop :=
  Forall (fun np => F64.is_nan (bid_Price (the_bid st np.2)) = false) l.

(** When deals are not preferred and every price is a number, the overall
    winner of an imp is the top bid of the bidder that made it, so it is among
    the bids that get cached and targeted. *)
Theorem winner_is_bidder_top st seats a imp p
    (Hok : bids_ok st (bids_of seats)) (Hnum : prices_numeric st (bids_of seats))
    (Ha : newAuction st seats false = Some a) (Hp : winningBids a !! imp = Some p) :
  exists name, top_of a imp name = Some p.
Proof.
  destruct (newAuction_spec st false seats Hok) as (a' & Ha' & Hw & Hb).
  rw Ha' in Ha. injection Ha as <-. rw Hw in Hp.
  set (l := bids_of seats) in *. set (pairs := List.filter (fun np => GoStr.eqb (bid_ImpID (the_bid st np.2)) imp) l).
  rw /on_imp (pick_all_map snd _ pairs) in Hp.
  destruct (pick_all _ pairs) as [[name p']|] eqn:E; [|done]. injection Hp as ->.
  exists name. rw /top_of -/(top _ imp name) Hb /on_imp_by.
  assert (forall np, np ∈ pairs -> F64.is_nan (bid_Price (the_bid st np.2)) = false) as Hn.
  { intros np [Hin _]%list_elem_of_In%List.filter_In. rw /prices_numeric list.Forall_forall in Hnum.
    apply Hnum. by apply list_elem_of_In. }
  assert (pick_all (fun x y => outprices st x.2 y.2) (List.filter (fun np => GoStr.eqb np.1 name) pairs) =
    Some (name, p)) as Hf.
  { apply pick_all_filter; try done; [| | |apply eqb_refl].
    - intros x y z. apply outprices_trans.
    - intros x. apply outprices_irrefl.
    - intros x y z Hx Hy Hz. rw /outprices /F64.gtb. intros H1 H2.
      destruct (F64.ltb (bid_Price (the_bid st z.2)) (bid_Price (the_bid st x.2))) eqn:H3; [|done].
      rw -H2. symmetry. apply (ltb_leb_trans _ _ _ H3). rw leb_ltb; auto. by rw H1. }
  assert (List.filter (fun np => GoStr.eqb (bid_ImpID (the_bid st np.2)) imp && GoStr.eqb np.1 name) l =
    List.filter (fun np => GoStr.eqb np.1 name) pairs) as ->.
  { rw /pairs. clear. induction l as [|np l IH]; simpl; [done|].
    destruct (GoStr.eqb _ imp); simpl; rw IH //. }
  by rw (pick_all_map snd) Hf.
Qed.

(** The theorem on the seats above. *)
Lemma winner_is_bidder_top_witness :
  exists a, newAuction demo_auction_store demo_seats false = Some a /\
    exists name, top_of a "i1" name = Some 2%positive.
Proof.
  assert (bids_ok demo_auction_store (bids_of demo_seats)) as Hok.
  { repeat (apply List.Forall_cons; [eexists; reflexivity|]). apply List.Forall_nil. }
  destruct (newAuction demo_auction_store demo_seats false) as [a|] eqn:Ha; [|vm_compute in Ha; discriminate Ha].
  exists a. split; [reflexivity|].
  apply (winner_is_bidder_top demo_auction_store demo_seats a "i1" 2%positive Hok).
  - repeat (apply List.Forall_cons; [reflexivity|]). apply List.Forall_nil.
  - exact Ha.
  - vm_compute in Ha. injection Ha as <-. reflexivity.
Defined.

(** ** Cache facts *)
(** A bid is cached for the shortest positive time that the imp or the bid
    asks for, or for the default time of its type when neither asks, plus the
    buffer; a default that is not positive means no expiry (0).  The times are
    such that the sum fits in an int64. *)
Theorem cache_ttl_spec impTTL bidTTL defTTL buffer
    (Hbuf : (0 <= buffer)%Z)
    (Hfit : (Z.max (Z.max impTTL bidTTL) defTTL + buffer <= Int64.max_value)%Z) :
  cacheTTL impTTL bidTTL defTTL buffer =
    match List.filter (fun t => 0 <? t)%Z [impTTL; bidTTL] with
    | [] => if (0 <? defTTL)%Z then (defTTL + buffer)%Z else 0%Z
    | t :: ts => (fold_left Z.min ts t + buffer)%Z
    end.
Proof.
  assert (forall b, (0 < b)%Z -> (b + buffer <= Int64.max_value)%Z -> Int64.add b buffer = (b + buffer)%Z) as Hadd.
  { intros b Hb Hle. apply Int64.wrap_id. rw /Int64.in_range /Int64.min_value in Hle *. lia. }
  rw /cacheTTL /addBuffer. simpl.
  destruct (Z.leb_spec impTTL 0), (Z.leb_spec bidTTL 0), (Z.ltb_spec 0 impTTL), (Z.ltb_spec 0 bidTTL),
    (Z.ltb_spec impTTL bidTTL), (Z.leb_spec defTTL 0), (Z.ltb_spec 0 defTTL); simpl; try lia;
    rw Hadd; lia.
Qed.

(** The theorem for an imp that asks for less time than its bid. *)
Lemma cache_ttl_spec_witness : cacheTTL 30 300 60 5 = 35%Z.
Proof. rw (cache_ttl_spec 30 300 60 5); [done|done|reflexivity]. Defined.

Section CacheFacts.
Context (MarshalBid : Bid -> json + error).
Context (modifyBidJSON : pbsOrtbBid -> string -> json -> json * option error).
Context (st : Store) (a : auction) (flags : CacheFlags) (imps : list Imp).
Context (ttlBuffer : Z) (defaultTTLs : DefaultTTLs) (bidCategory : gmap string string).
Context (hbCacheID : option string).

(** The bid at [p] may be cached: it is a winner, or bidder keys are on. *)
Definition cacheable_bid (p : loc) (pb : pbsOrtbBid) (b : Bid) : Prop :=
  deref st p = Some (pb, b) /\
  (includeBidderKeys flags = true \/ winningBids a !! bid_ImpID b = Some p).
Definition is_bid_payload (p : loc) (c : Cacheable) : Prop :=
  exists pb b name j, cacheable_bid p pb b /\ MarshalBid b = inl j /\
    ca_Type c = TypeJSON /\ ca_Data c = (modifyBidJSON pb name j).1.
Definition is_vast_payload (p : loc) (c : Cacheable) : Prop :=
  exists pb b, cacheable_bid p pb b /\ pb_bidType pb = BidType.Video /\
    ca_Type c = TypeXML /\ ca_Data c = JStr (makeVAST b).

(** Every index stands for the payload of its bid. *)
Definition indices_ok (P : loc -> Cacheable -> Prop) (l : list Cacheable) (ix : list (nat * loc)) : Prop :=
  Forall (fun ip => exists c, l !! ip.1 = Some c /\ P ip.2 c) ix.
Definition cache_inv (acc : CacheAcc) : Prop :=
  indices_ok is_bid_payload (toCache acc) (bidIndices acc) /\
  indices_ok is_vast_payload (toCache acc) (vastIndices acc).

Lemma indices_weaken P l l' ix : indices_ok P l ix -> indices_ok P (l ++ l') ix.
Proof.
  rw /indices_ok !list.Forall_forall. intros Hix ip (c & Hc & HP)%Hix. exists c. split; [|done]. by apply lookup_app_l_Some.
Qed.

Lemma indices_snoc (P : loc -> Cacheable -> Prop) l ix c p :
  indices_ok P l ix -> P p c -> indices_ok P (l ++ [c]) (ix ++ [(length l, p)]).
Proof.
  intros Hix HP. apply Forall_app. split; [by apply indices_weaken|].
  apply Forall_singleton. exists c. split; [|done]. by rw /= list_lookup_middle.
Qed.

Lemma cache_step_inv acc np acc' :
  cache_inv acc ->
  cache_step MarshalBid modifyBidJSON st a flags imps ttlBuffer defaultTTLs bidCategory hbCacheID acc np = Some acc' ->
  cache_inv acc'.
Proof.
  destruct np as [name p]. rw /cache_step. destruct (deref st p) as [[pb b]|] eqn:Ed; [|done].
  intros Hinv. destruct (negb (includeBidderKeys flags) && negb (is_winner a (bid_ImpID b) p)) eqn:Esk;
    [by intros [= <-]|]. intros [= <-].
  assert (cacheable_bid p pb b) as Hcb.
  { split; [done|]. apply andb_false_iff in Esk as [?%negb_false_iff|Hw%negb_false_iff]; [by left|right].
    by apply bool_decide_eq_true in Hw. }
  set (key := customKey _ _ _ _ _). set (ttl := cacheTTL _ _ _ _).
  assert (cache_inv (cache_bids_part MarshalBid modifyBidJSON flags name p pb b (bool_decide (is_Some key)) ttl acc)) as Hb.
  { rw /cache_bids_part. destruct (includeCacheBids flags); [|done].
    destruct (MarshalBid b) as [j|e] eqn:Em; [|done].
    destruct (modifyBidJSON pb name j) as [j' merr] eqn:Ej. destruct Hinv as [H1 H2].
    split; [|by apply indices_weaken]. apply indices_snoc; [done|].
    exists pb, b, name, j. by rw Ej. }
  rw /cache_vast_part. destruct (includeCacheVast flags); [|done].
  destruct (eqb_spec (pb_bidType pb) BidType.Video); [|done]. destruct Hb as [H1 H2].
  split; [by apply indices_weaken|]. apply indices_snoc; [done|]. by exists pb, b.
Qed.

Lemma cache_loop_inv v errs acc :
  cache_loop MarshalBid modifyBidJSON st a flags imps ttlBuffer defaultTTLs bidCategory hbCacheID v errs = Some acc ->
  cache_inv acc.
Proof.
  rw /cache_loop. apply (foldM_inv _ cache_inv); [by split; constructor|].
  intros b [imp inner] b' _ Hb. apply (foldM_inv _ cache_inv); [done|].
  intros b0 np b0' _. apply cache_step_inv.
Qed.

Lemma collect_ids_spec P payloads ids adjust ix bid_of m q id :
  indices_ok P payloads ix -> collect_ids ids adjust ix bid_of = Some m -> m !! q = Some id ->
  exists p i c raw, q = bid_of p /\ payloads !! i = Some c /\ P p c /\ ids !! i = Some raw /\
    raw <> ""%string /\ id = adjust raw.
Proof.
  intros Hix. set (Q := fun m : gmap loc string => forall q id, m !! q = Some id ->
    exists p i c raw, q = bid_of p /\ payloads !! i = Some c /\ P p c /\ ids !! i = Some raw /\
    raw <> ""%string /\ id = adjust raw).
  intros Hm. apply (foldM_inv _ Q) in Hm; [by apply Hm|intros ??; by rw lookup_empty|].
  intros m0 [i p] m1 Hin IH. destruct (ids !! i) as [raw|] eqn:Er; [|done].
  destruct (nonempty raw) eqn:En; [|by intros [= <-]]. intros [= <-] q0 id0.
  intros [[<- <-]|[_ ?]]%lookup_insert_Some; [|by apply IH].
  rw /indices_ok list.Forall_forall in Hix. destruct (Hix _ Hin) as (c & Hc & HP).
  exists p, i, c, raw. split_and!; try done. by apply is_empty_false, negb_true_iff.
Qed.
End CacheFacts.

(** The cache ids the auction records are those of the right bids: each
    comes, not empty, from the position of the answer at which the bid's own
    JSON (or, for a VAST id, the VAST of a video bid) was sent, and a bid is
    sent only when it wins its imp or bidder keys are on.  A VAST id that ends
    with the auction's own category key is recorded as that key. *)
Theorem doCache_ids_correct MarshalBid modifyBidJSON Build PutJson st v a flags req buf ttls cats uuid dl a' errs dl'
    (Hcache : doCache MarshalBid modifyBidJSON Build PutJson st v a flags req buf ttls cats uuid dl = Some (a', errs, dl'))
    (Hfresh : cacheIds a = ∅ /\ vastCacheIds a = ∅) :
  exists payloads,
    (forall q id, cacheIds a' !! q = Some id -> exists p i c, q = bid_ptr st p /\ payloads !! i = Some c /\
       is_bid_payload MarshalBid modifyBidJSON st a flags p c /\ (PutJson payloads).1 !! i = Some id /\ id <> ""%string) /\
    (forall q id, vastCacheIds a' !! q = Some id -> exists p i c raw, q = bid_ptr st p /\ payloads !! i = Some c /\
       is_vast_payload st a flags p c /\ (PutJson payloads).1 !! i = Some raw /\ raw <> ""%string /\
       (id = raw \/ exists u, uuid = inl u /\ id = u /\ GoStr.has_suffix raw u = true)) /\
    winningBids a' = winningBids a /\ winningBidsByBidder a' = winningBidsByBidder a /\
    roundedPrices a' = roundedPrices a.
Proof.
  destruct Hfresh as [Hf Hfv]. rw /doCache in Hcache.
  destruct (negb _).
  { injection Hcache as <- _ _. exists []. rw Hf Hfv. by split_and!; try done; intros q id; rw lookup_empty. }
  set (hb := if bool_decide (cats = ∅) then _ else _) in Hcache.
  assert (forall u, hb.1 = Some u -> uuid = inl u) as Hhb.
  { intros u. rw /hb. case_bool_decide; [done|]. destruct uuid; [by intros [= ->]|done]. }
  destruct hb as [hbID errs0]. simpl in Hhb.
  destruct (cache_loop _ _ _ _ _ _ _ _ _ _ _ _) as [acc|] eqn:El; [|done].
  apply cache_loop_inv in El as [Hbi Hvi].
  set (pd := match toCache acc with [] => _ | _ :: _ => _ end) in Hcache.
  assert (exists extra, pd.1 = toCache acc ++ extra) as [extra Hextra].
  { rw /pd. destruct (toCache acc) as [|c l]; [by exists []|].
    destruct dl as [dl0|]; [|exists []; by rw /= app_nil_r].
    destruct (dl_DebugEnabledOrOverridden dl0); [by eexists|exists []; by rw /= app_nil_r]. }
  destruct pd as [payloads dl2]. simpl in Hextra. subst payloads.
  destruct (PutJson (toCache acc ++ extra)) as [ids perrs] eqn:Ep.
  destruct (if includeCacheBids flags then _ else _) as [c1|] eqn:Ec1; [|done].
  destruct (if includeCacheVast flags then _ else _) as [c2|] eqn:Ec2; [|done].
  injection Hcache as <- _ _. exists (toCache acc ++ extra). rw Ep /=. split_and!; try done.
  - intros q id Hq. destruct (includeCacheBids flags).
    + destruct (collect_ids_spec _ _ _ _ _ _ _ q id (indices_weaken _ _ extra _ Hbi) Ec1 Hq)
        as (p & i & c & raw & -> & ? & ? & ? & ? & ->). by exists p, i, c.
    + injection Ec1 as <-. by rw Hf lookup_empty in Hq.
  - intros q id Hq. destruct (includeCacheVast flags).
    + destruct (collect_ids_spec _ _ _ _ _ _ _ q id (indices_weaken _ _ extra _ Hvi) Ec2 Hq)
        as (p & i & c & raw & -> & ? & ? & ? & ? & ->). exists p, i, c, raw. split_and!; try done.
      destruct hbID as [u|]; [|by left]. destruct (GoStr.has_suffix raw u) eqn:Es; [right|by left].
      exists u. split_and!; auto.
    + injection Ec2 as <-. by rw Hfv lookup_empty in Hq.
Qed.

Definition demo_auction : auction :=
  mkAuction {["i1"%string := 2%positive]}
    {["i1"%string := <["appnexus"%string := 2%positive]> {["rubicon"%string := 3%positive]}]} ∅ ∅ ∅.
Definition demo_visits : Visits := [("i1"%string, [("rubicon"%string, 3%positive); ("appnexus"%string, 2%positive)])].

(** The theorem when only winners are cached. *)
Lemma doCache_ids_correct_witness :
  let mb := fun b : Bid => inl (JStr (bid_ID b)) in
  let mj := fun (_ : pbsOrtbBid) (_ : string) j => (j, None) in
  let put := fun l : list Cacheable => (map (fun _ => "id"%string) l, []) in
  exists a' errs dl', doCache mb mj (fun d => d) put demo_auction_store demo_visits demo_auction
      (mkCacheFlags false true true true) emptyBidRequest 60 (mkDefaultTTLs 0 0 0 0) ∅ (inl "u"%string) None
      = Some (a', errs, dl') /\
    cacheIds a' = {[2%positive := "id"%string]} /\ winningBids a' = winningBids demo_auction.
Proof.
  intros mb mj put.
  destruct (doCache mb mj (fun d => d) put demo_auction_store demo_visits demo_auction
      (mkCacheFlags false true true true) emptyBidRequest 60 (mkDefaultTTLs 0 0 0 0) ∅ (inl "u"%string) None)
    as [[[a' errs] dl']|] eqn:E; [|vm_compute in E; discriminate E].
  exists a', errs, dl'. split; [reflexivity|].
  destruct (doCache_ids_correct mb mj (fun d => d) put demo_auction_store demo_visits demo_auction
      (mkCacheFlags false true true true) emptyBidRequest 60 (mkDefaultTTLs 0 0 0 0) ∅ (inl "u"%string) None
      a' errs dl' E (conj eq_refl eq_refl)) as (payloads & _ & _ & Hw & _).
  split; [|exact Hw]. vm_compute in E. injection E as <- _ _. reflexivity.
Defined.
