(* ===== verification/CacheClient.v ===== *)
(** * The Prebid Cache client

    [prebid_cache_client/client.go]: the request body, the reading of the
    answer and the external address of the cache.  The HTTP exchange is a
    value; [jsonparser] and the text of a JSON value are parameters. *)

From S2P Require Import Prelude Float64 ErrorTypes Json OpenRTB PriceGranularity Auction.

(** The configured address of the cache. *)
Record clientImpl := mkClient {
  externalCacheScheme : string; externalCacheHost : string; externalCachePath : string; putUrl : string }.

Definition GetExtCacheData (c : clientImpl) : string * string * string :=
  let path := externalCachePath c in
  let path := if GoStr.eqb path "/" then ""%string
              else if (0 <? GoStr.len path)%nat && negb (GoStr.has_prefix "/" path) then "/" ⧺ path else path in
  (externalCacheScheme c, externalCacheHost c, path).

(** The type of a value in a JSON document, as [jsonparser] reports it. *)
Inductive ValueType := VString | VOther (name : string).

(** How the request to the cache ends; the elapsed time is given as text. *)
Inductive CacheReply :=
  | NoRequest (e : error)
  | SendFailed (e : error) (elapsed : string)
  | Replied (status : Z) (body : string).

Section Client.
Context (json_text : json -> string).
(** [ArrayEach] over the member responses of the body: the elements it
    visits, and its error; [Get] of the member uuid; [ParseString]. *)
Context (ArrayEach : string -> list string * option error).
Context (Get_uuid : string -> string * ValueType * option error).
Context (ParseString : string -> string + error).

Definition type_text (t : PayloadType) : string := match t with TypeJSON => "json" | TypeXML => "xml" end.

(** The fields that only the vtrack endpoint sets are empty here. *)
Definition encodeValueToBuffer (value : Cacheable) (leadingComma : bool) (buffer : string) : string :=
  buffer ⧺ (if leadingComma then "," else "") ⧺ "{" ⧺ GoStr.quoted "type" ⧺ ":" ⧺ GoStr.dq ⧺ type_text (ca_Type value) ⧺
  (if (0 <? ca_TTLSeconds value)%Z
   then GoStr.dq ⧺ "," ⧺ GoStr.quoted "ttlseconds" ⧺ ":" ⧺ GoStr.itoa (ca_TTLSeconds value) ⧺ "," ⧺ GoStr.quoted "value" ⧺ ":"
   else GoStr.dq ⧺ "," ⧺ GoStr.quoted "value" ⧺ ":") ⧺
  json_text (ca_Data value) ⧺
  (if (0 <? GoStr.len (ca_Key value))%nat then "," ⧺ GoStr.quoted "key" ⧺ ":" ⧺ GoStr.quoted (ca_Key value) else "") ⧺
  "}".
Definition encodeValues (values : list Cacheable) : string :=
  fold_left (fun buf '(i, v) => encodeValueToBuffer v (negb (i =? 0)%nat) buf) (imap pair values)
    ("{" ⧺ GoStr.quoted "puts" ⧺ ":[") ⧺ "]}".

(** The body of the loop over the responses; writing past the end of the
    slice is a panic. *)
Definition process_response (responseBody : string) (acc : list string * list error * nat) (uuidObj : string) :
  option (list string * list error * nat) :=
  let '(uuids, errs, currentIndex) := acc in
  let index := GoStr.itoa (Z.of_nat currentIndex) in
  let '(uuid, valueType, err) := Get_uuid uuidObj in
  match err, valueType with
  | Some err, _ =>
      Some (uuids, errs ++ [EPlain ("Prebid Cache returned a bad value at index " ⧺ index ⧺ ". Error was: " ⧺
                                    error_string err ⧺ ". Response body was: " ⧺ responseBody)], S currentIndex)
  | None, VOther name =>
      Some (uuids, errs ++ [EPlain ("Prebid Cache returned a " ⧺ name ⧺ " at index " ⧺ index ⧺ " in: " ⧺ responseBody)],
            S currentIndex)
  | None, VString =>
      if (currentIndex <? length uuids)%nat then
        match ParseString uuid with
        | inl s => Some (<[currentIndex := s]> uuids, errs, S currentIndex)
        | inr err =>
            Some (<[currentIndex := ""%string]> uuids,
                  errs ++ [EPlain ("Prebid Cache response index " ⧺ index ⧺ " could not be parsed as string: " ⧺
                                   error_string err)], S currentIndex)
        end
      else None
  end.

(** [PutJson] on the reply the server gave. *)
Definition PutJson (putURL : string) (values : list Cacheable) (reply : CacheReply) : option (list string * list error) :=
  match values with
  | [] => Some ([], [])
  | _ =>
      let uuidsToReturn := replicate (length values) ""%string in
      match reply with
      | NoRequest err => Some (uuidsToReturn, [EPlain ("Error creating POST request to prebid cache: " ⧺ error_string err)])
      | SendFailed err elapsed =>
          Some (uuidsToReturn,
            [EPlain ("Error sending the request to Prebid Cache: " ⧺ error_string err ⧺ "; Duration=" ⧺ elapsed ⧺ ", Items=" ⧺
                     GoStr.itoa (Z.of_nat (length values)) ⧺ ", Payload Size=" ⧺
                     GoStr.itoa (Z.of_nat (GoStr.len (encodeValues values))))])
      | Replied status responseBody =>
          if negb (status =? 200)%Z then
            Some (uuidsToReturn, [EPlain ("Prebid Cache call to " ⧺ putURL ⧺ " returned " ⧺ GoStr.itoa status ⧺ ": " ⧺ responseBody)])
          else
            let '(elements, err) := ArrayEach responseBody in
            match foldM (process_response responseBody) elements (uuidsToReturn, [], 0) with
            | None => None
            | Some (uuids, errs, _) =>
                Some (uuids, errs ++ match err with
                                     | Some err => [EPlain ("Error interpreting Prebid Cache response: " ⧺ error_string err ⧺
                                                            newline ⧺ "Response was: " ⧺ responseBody)]
                                     | None => []
                                     end)
            end
      end
  end.

(** ** Facts *)
(** What one response of the cache says. *)
Definition response_id (uuidObj : string) : option string :=
  let '(uuid, valueType, err) := Get_uuid uuidObj in
  match err, valueType with
  | None, VString => match ParseString uuid with inl s => Some s | inr _ => None end
  | _, _ => None
  end.
Definition unreadable (uuidObj : string) : bool := match response_id uuidObj with Some _ => false | None => true end.

(** Reading one response: the slot it fills and whether it is an error. *)
Lemma process_response_spec body uuids errs k obj :
  (uuids !! k = None \/ uuids !! k = Some ""%string) ->
  match process_response body (uuids, errs, k) obj with
  | None => (Get_uuid obj).2 = None /\ length uuids <= k
  | Some (uuids', errs', k') => k' = S k /\
      uuids' = alter (fun _ => default ""%string (response_id obj)) k uuids /\
      length errs' = length errs + (if unreadable obj then 1 else 0)
  end.
Proof.
  intros Hk.
  assert (forall s, s = ""%string -> alter (fun _ => s) k uuids = uuids) as Hkeep.
  { intros s ->. apply list_eq. intros i. destruct (decide (k = i)) as [<-|Hne]; [|by rw list_lookup_alter_ne].
    rw list_lookup_alter_eq. by destruct Hk as [->| ->]. }
  rw /process_response /unreadable /response_id.
  destruct (Get_uuid obj) as [[uuid [|name]] [err|]]; cbn [default];
    try (split_and!; [done|by rw Hkeep|by rw length_app]).
  destruct (Nat.ltb_spec k (length uuids)) as [Hlt|Hge]; [|done].
  destruct (ParseString uuid); (split_and!; [done|by rw list_insert_alter|rw ?length_app /=; lia]).
Qed.

(** The loop fills the slots in order, and counts one error per response
    that cannot be read. *)
Lemma process_responses body elements uuids errs k :
  (forall i, k <= i -> uuids !! i = None \/ uuids !! i = Some ""%string) ->
  match foldM (process_response body) elements (uuids, errs, k) with
  | None => length uuids < k + length elements
  | Some (uuids', errs', _) => length uuids' = length uuids /\
      length errs' = length errs + length (List.filter unreadable elements) /\
      forall i, i < length uuids ->
        uuids' !! i = if (k <=? i)%nat then Some (default ""%string (elements !! (i - k) ≫= response_id)) else uuids !! i
  end.
Proof.
  revert uuids errs k. induction elements as [|obj elements IH]; intros uuids errs k Hblank.
  { cbn. split_and!; [done|lia|]. intros i Hi. destruct (Nat.leb_spec k i) as [Hle|]; [|done].
    destruct (Hblank i Hle) as [Hn| ->]; [by apply lookup_ge_None in Hn; lia|done]. }
  cbn [foldM length]. pose proof (process_response_spec body uuids errs k obj (Hblank k ltac:(lia))) as Hstep.
  destruct (process_response body (uuids, errs, k) obj) as [[[uuids1 errs1] k1]|]; [|lia].
  destruct Hstep as (-> & -> & He). set (u1 := alter _ k uuids) in *.
  assert (length u1 = length uuids) as Hlen by apply length_alter.
  assert (forall i, S k <= i -> u1 !! i = uuids !! i) as Hu1 by (intros i ?; rw /u1 list_lookup_alter_ne //; lia).
  specialize (IH u1 errs1 (S k)). destruct (foldM _ elements _) as [[[uuids' errs'] k']|].
  2: { assert (length u1 < S k + length elements) as ?; [|lia]. apply IH. intros i ?. rw Hu1 //. apply Hblank. lia. }
  destruct IH as (Hl & Hne & Hi); [intros i ?; rw Hu1 //; apply Hblank; lia|].
  split_and!; [lia|cbn [List.filter]; destruct (unreadable obj); cbn [length]; lia|].
  intros i Hlt. rw Hi; [lia|]. destruct (Nat.leb_spec k i) as [Hle|Hgt]; destruct (Nat.leb_spec (S k) i).
  - assert (i - k = S (i - S k)) as -> by lia. done.
  - assert (i = k) as -> by lia. rw Nat.sub_diag /u1 list_lookup_alter_eq /=.
    destruct (lookup_lt_is_Some_2 uuids k Hlt) as [x ->]. done.
  - lia.
  - rw /u1 list_lookup_alter_ne //. lia.
Qed.
End Client.

(** The body of a successful answer. *)
Definition answer_of (reply : CacheReply) : option string :=
  match reply with Replied status body => if (status =? 200)%Z then Some body else None | _ => None end.

(** The client answers one id per value that was sent: the id the cache's
    response holds at that position, empty where it is missing or cannot be
    read, and empty everywhere when the call fails; each failure leaves an
    error.  It panics only on an answer with more responses than values. *)
Theorem put_json_answers json_text ArrayEach Get_uuid ParseString putURL values reply :
  let id_at (body : string) i := default ""%string ((ArrayEach body).1 !! i ≫= response_id Get_uuid ParseString) in
  match PutJson json_text ArrayEach Get_uuid ParseString putURL values reply with
  | None => exists body, answer_of reply = Some body /\ length values < length (ArrayEach body).1
  | Some (ids, errs) =>
      length ids = length values /\
      match answer_of reply with
      | Some body =>
          (forall i, i < length values -> ids !! i = Some (id_at body i)) /\
          (values <> [] -> errs = [] <-> (ArrayEach body).2 = None /\
             Forall (fun obj => is_Some (response_id Get_uuid ParseString obj)) (ArrayEach body).1)
      | None => (forall i, i < length values -> ids !! i = Some ""%string) /\ (values <> [] -> errs <> [])
      end
  end.
Proof.
  intros id_at. rw /PutJson. destruct values as [|v values]; [split; [done|]; destruct (answer_of reply); split; try done; intros i Hi; cbn in Hi; lia|].
  set (n := length (v :: values)).
  assert (forall i, i < n -> replicate n ""%string !! i = Some ""%string) as Hblank by (intros; by apply lookup_replicate_2).
  destruct reply as [err|err elapsed|status body]; try (rw length_replicate; by split_and!).
  rw /answer_of. destruct (Z.eqb_spec status 200) as [->|Hs]; cbn [negb].
  2: { rw length_replicate. split; [done|]. by split. }
  rw /id_at. destruct (ArrayEach body) as [elements err] eqn:Ea. cbn [fst snd].
  pose proof (process_responses Get_uuid ParseString body elements (replicate n ""%string) [] 0) as H.
  destruct (foldM _ elements _) as [[[ids errs] k]|].
  2: { exists body. split; [done|]. rw Ea. cbn [fst]. rw length_replicate in H. apply H.
       intros i _. destruct (decide (i < n)); [right; by apply Hblank|left]. apply lookup_ge_None. rw length_replicate. lia. }
  destruct H as (Hl & He & Hi).
  { intros i _. destruct (decide (i < n)); [right; by apply Hblank|left]. apply lookup_ge_None. rw length_replicate. lia. }
  rw length_replicate in Hl Hi. split; [done|]. split.
  - intros i Hlt. rw Hi // Nat.sub_0_r. done.
  - intros _. cbn [length] in He. split.
    + intros [-> E]%app_nil. destruct err; [done|]. split; [done|]. apply list.Forall_forall. intros obj Hin.
      destruct (response_id Get_uuid ParseString obj) eqn:Er; [by eexists|]. exfalso.
      assert (obj ∈ List.filter (unreadable Get_uuid ParseString) elements) as Hf.
      { apply list_elem_of_In, filter_In. split; [by apply list_elem_of_In|]. by rw /unreadable Er. }
      destruct (List.filter _ elements); [by apply elem_of_nil in Hf|]. cbn in He. lia.
    + intros [-> HF]. rw app_nil_r. apply nil_length_inv. rw He.
      assert (List.filter (unreadable Get_uuid ParseString) elements = []) as ->; [|done].
      clear -HF. induction HF as [|obj elements [s Hs] _ IH]; [done|]. cbn. by rw /unreadable Hs.
Qed.
