(* ===== verification/Targeting.v ===== *)
(** * Targeting

    [exchange/targeting.go] and the targeting keys of [openrtb_ext/bid.go]:
    the ad-server key-values written into each bidder's top bid. *)

From S2P Require Import Prelude Float64 ErrorTypes Json OpenRTB PriceGranularity Auction.

Definition MaxKeyLength : nat := 20.

Module Key.
Definition HbpbConstantKey : string := "hb_pb".
Definition HbEnvKey : string := "hb_env".
Definition HbConstantCacheHostKey : string := "hb_cache_host".
Definition HbConstantCachePathKey : string := "hb_cache_path".
Definition HbBidderConstantKey : string := "hb_bidder".
Definition HbSizeConstantKey : string := "hb_size".
Definition HbDealIDConstantKey : string := "hb_deal".
Definition HbFormatKey : string := "hb_format".
Definition HbCacheKey : string := "hb_cache_id".
Definition HbVastCacheKey : string := "hb_uuid".
Definition HbEnvKeyApp : string := "mobile-app".
Definition HbCategoryDurationKey : string := "hb_pb_cat_dur".
End Key.

(** [TargetingKey.BidderKey]. *)
Definition BidderKey (key bidder : string) (maxLength : nat) : string :=
  let s := key ⧺ "_" ⧺ bidder in
  if (maxLength =? 0)%nat then s else GoStr.take (Nat.min (GoStr.len s) maxLength) s.

Record targetData := mkTargetData {
  td_priceGranularity : PriceGranularity; td_includeWinners : bool; td_includeBidderKeys : bool;
  td_includeCacheBids : bool; td_includeCacheVast : bool; td_includeFormat : bool;
  td_preferDeals : bool; td_cacheHost : string; td_cachePath : string }.

Definition addKeys (targData : targetData) (keys : gmap string string) (key value bidderName : string)
    (overallWinner : bool) : gmap string string :=
  let keys := if td_includeBidderKeys targData
              then <[BidderKey key bidderName MaxKeyLength := value]> keys else keys in
  if td_includeWinners targData && overallWinner then <[key := value]> keys else keys.

Definition makeHbSize (bid : Bid) : string :=
  if negb (bid_W bid =? 0)%Z && negb (bid_H bid =? 0)%Z
  then GoStr.itoa (bid_W bid) ⧺ "x" ⧺ GoStr.itoa (bid_H bid) else "".

(** The keys of one bid with their values, in the order they are added. *)
Definition target_keys (targData : targetData) (auc : auction) (isApp : bool)
    (categoryMapping : gmap string string) (bidderName : string) (p q : loc) (pb : pbsOrtbBid) (b : Bid) :
  list (string * string) :=
  match roundedPrices auc !! p with Some cpm => [(Key.HbpbConstantKey, cpm)] | None => [] end ++
  [(Key.HbBidderConstantKey, bidderName)] ++
  (if nonempty (makeHbSize b) then [(Key.HbSizeConstantKey, makeHbSize b)] else []) ++
  match cacheIds auc !! q with Some id => [(Key.HbCacheKey, id)] | None => [] end ++
  match vastCacheIds auc !! q with Some id => [(Key.HbVastCacheKey, id)] | None => [] end ++
  (if td_includeFormat targData then [(Key.HbFormatKey, pb_bidType pb)] else []) ++
  (if nonempty (td_cacheHost targData) then [(Key.HbConstantCacheHostKey, td_cacheHost targData)] else []) ++
  (if nonempty (td_cachePath targData) then [(Key.HbConstantCachePathKey, td_cachePath targData)] else []) ++
  (if nonempty (bid_DealID b) then [(Key.HbDealIDConstantKey, bid_DealID b)] else []) ++
  (if isApp then [(Key.HbEnvKey, Key.HbEnvKeyApp)] else []) ++
  (if bool_decide (categoryMapping = ∅) then []
   else [(Key.HbCategoryDurationKey, default ""%string (categoryMapping !! bid_ID b))]).

Definition bid_targets (targData : targetData) (keys : list (string * string)) (bidderName : string)
    (isOverallWinner : bool) : gmap string string :=
  fold_left (fun targets kv => addKeys targData targets kv.1 kv.2 bidderName isOverallWinner) keys ∅.

(** The body of the loop, for the top bid [p] of [bidderName] on [impId]. *)
Definition targeting_step (targData : targetData) (auc : auction) (isApp : bool)
    (categoryMapping : gmap string string) (impId : string) (st : Store) (np : string * loc) : option Store :=
  let '(bidderName, p) := np in
  match deref st p with
  | None => None
  | Some (pb, b) =>
      let isOverallWinner := bool_decide (winningBids auc !! impId = Some p) in
      let keys := target_keys targData auc isApp categoryMapping bidderName p (bid_ptr st p) pb b in
      Some (put_pbs st p (pb_set_targets pb (bid_targets targData keys bidderName isOverallWinner)))
  end.
Definition setTargeting (targData : targetData) (st : Store) (v : Visits) (auc : auction) (isApp : bool)
    (categoryMapping : gmap string string) : option Store :=
  foldM (fun st '(impId, inner) =>
           foldM (targeting_step targData auc isApp categoryMapping impId) inner st) v st.

(** The targets of a bid of the store. *)
Definition targets_at (st : Store) (p : loc) : gmap string string :=
  match st_pbs st !! p with Some pb => pb_bidTargets pb | None => ∅ end.

(** ** Facts *)
Lemma addKeys_lookup td m key v name w k :
  addKeys td m key v name w !! k =
    if td_includeWinners td && w && GoStr.eqb k key then Some v
    else if td_includeBidderKeys td && GoStr.eqb k (BidderKey key name MaxKeyLength) then Some v
    else m !! k.
Proof.
  rw /addKeys. destruct (td_includeWinners td && w); simpl.
  - destruct (eqb_spec k key) as [->|Hne]; [by rw lookup_insert_eq|]. rw lookup_insert_ne //.
    destruct (td_includeBidderKeys td); simpl; [|done].
    destruct (eqb_spec k (BidderKey key name MaxKeyLength)) as [->|?]; [by rw lookup_insert_eq|by rw lookup_insert_ne].
  - destruct (td_includeBidderKeys td); simpl; [|done].
    destruct (eqb_spec k (BidderKey key name MaxKeyLength)) as [->|?]; [by rw lookup_insert_eq|by rw lookup_insert_ne].
Qed.

(** Targets come from the key list, under a bidder key or, for the winner, the
    plain key. *)
Lemma bid_targets_lookup td keys name w k v :
  bid_targets td keys name w !! k = Some v ->
  exists key, (key, v) ∈ keys /\
    ((td_includeWinners td = true /\ w = true /\ k = key) \/
     (td_includeBidderKeys td = true /\ k = BidderKey key name MaxKeyLength)).
Proof.
  rw /bid_targets. induction keys as [|[key v'] keys IH] using rev_ind; simpl; [by rw lookup_empty|].
  rw fold_left_app /= addKeys_lookup.
  destruct (td_includeWinners td && w && GoStr.eqb k key) eqn:E1.
  { intros [= ->]. apply andb_true_iff in E1 as [[? ?]%andb_true_iff ?%eqb_eq]. exists key. set_solver. }
  destruct (td_includeBidderKeys td && _) eqn:E2.
  { intros [= ->]. apply andb_true_iff in E2 as [? ?%eqb_eq]. exists key. set_solver. }
  intros (key0 & ? & ?)%IH. exists key0. set_solver.
Qed.

(** Every key of the list is in the targets of a winner, with the value it was
    last given. *)
Lemma bid_targets_winner td keys name key v :
  td_includeWinners td = true -> (key, v) ∈ keys -> NoDup keys.*1 ->
  (forall key', key' ∈ keys.*1 -> key <> BidderKey key' name MaxKeyLength) ->
  bid_targets td keys name true !! key = Some v.
Proof.
  intros Hw. rw /bid_targets. induction keys as [|[key1 v1] keys IH] using rev_ind; [set_solver|].
  rw fmap_app /= fold_left_app /= addKeys_lookup Hw /=. intros Hin Hnd Hbk.
  apply list.NoDup_app in Hnd as (Hnd & Hdis & _).
  apply elem_of_app in Hin as [Hin|[= -> ->]%list_elem_of_singleton]; [|by rw eqb_refl].
  assert (key ∈ keys.*1) as Hk by by apply (list_elem_of_fmap_2 fst) in Hin.
  destruct (eqb_spec key key1) as [->|]; [exfalso; apply (Hdis key1); [done|set_solver]|].
  destruct (eqb_spec key (BidderKey key1 name MaxKeyLength)) as [Heq|].
  { exfalso. apply (Hbk key1); [set_solver|done]. }
  rw andb_false_r. apply IH; [done|done|]. set_solver.
Qed.

(** The targeting keys, in the order they are added. *)
Definition all_keys : list string :=
  [Key.HbpbConstantKey; Key.HbBidderConstantKey; Key.HbSizeConstantKey; Key.HbCacheKey; Key.HbVastCacheKey;
   Key.HbFormatKey; Key.HbConstantCacheHostKey; Key.HbConstantCachePathKey; Key.HbDealIDConstantKey;
   Key.HbEnvKey; Key.HbCategoryDurationKey].

Lemma target_keys_sublist td auc isApp cats name p q pb b :
  sublist (target_keys td auc isApp cats name p q pb b).*1 all_keys.
Proof.
  rw /target_keys !fmap_app. change all_keys with
    ([Key.HbpbConstantKey] ++ [Key.HbBidderConstantKey] ++ [Key.HbSizeConstantKey] ++ [Key.HbCacheKey] ++
     [Key.HbVastCacheKey] ++ [Key.HbFormatKey] ++ [Key.HbConstantCacheHostKey] ++ [Key.HbConstantCachePathKey] ++
     [Key.HbDealIDConstantKey] ++ [Key.HbEnvKey] ++ [Key.HbCategoryDurationKey]).
  repeat apply sublist_app; try case_match; simpl; by repeat constructor.
Qed.

Lemma sublist_elem {A} (l l' : list A) x : sublist l l' -> x ∈ l -> x ∈ l'.
Proof. induction 1; rw ?elem_of_cons; tauto. Qed.

Lemma sublist_nodup {A} (l l' : list A) : sublist l l' -> NoDup l' -> NoDup l.
Proof.
  induction 1 as [|x l l' Hs IH|x l l' Hs IH]; [done| |]; intros [Hx Hnd]%list.NoDup_cons; [|by apply IH].
  apply list.NoDup_cons. split; [|by apply IH]. intros Hin. apply Hx. by apply (sublist_elem _ _ _ Hs).
Qed.

Lemma take_min n s : GoStr.take (Nat.min (GoStr.len s) n) s = GoStr.take n s.
Proof. destruct (Nat.min_spec (GoStr.len s) n) as [[? ->]|[? ->]]; [|done]. rw !take_all //; lia. Qed.
(** The one way in which a bidder key is some plain key: a bidder of the name
    cat_dur. *)
Lemma bidder_key_whole key name k : BidderKey key name MaxKeyLength = k -> GoStr.len k < MaxKeyLength -> key ⧺ "_" ⧺ name = k.
Proof.
  change (BidderKey key name MaxKeyLength) with
    (GoStr.take (Nat.min (GoStr.len (key ⧺ "_" ⧺ name)) 20) (key ⧺ "_" ⧺ name)).
  set (s := key ⧺ "_" ⧺ name). unfold MaxKeyLength. intros <- Hlen. rw take_len in Hlen.
  assert (Nat.min (GoStr.len s) 20 = GoStr.len s) as -> by lia. by rw take_all.
Qed.
Lemma plain_key_safe key key' name :
  key ∈ all_keys -> (key <> "hb_pb_cat_dur" \/ name <> "cat_dur")%string -> key' ∈ all_keys ->
  key <> BidderKey key' name MaxKeyLength.
Proof.
  intros Hkey Hname Hin Heq. symmetry in Heq. apply bidder_key_whole in Heq.
  - unfold all_keys in *. repeat (apply elem_of_cons in Hkey as [->|Hkey]); [..|by apply elem_of_nil in Hkey];
      repeat (apply elem_of_cons in Hin as [->|Hin]; [first [discriminate Heq|injection Heq as ->; by destruct Hname]|]);
      by apply elem_of_nil in Hin.
  - unfold all_keys in Hkey. repeat (apply elem_of_cons in Hkey as [->|Hkey]; [by vm_compute; lia|]). by apply elem_of_nil in Hkey.
Qed.
(** Every key of the list is written under its bidder key. *)
Lemma bid_targets_bidder td keys name w key v : td_includeBidderKeys td = true -> (key, v) ∈ keys ->
  is_Some (bid_targets td keys name w !! BidderKey key name MaxKeyLength).
Proof.
  intros Hb. unfold bid_targets. induction keys as [|[key1 v1] keys IH] using rev_ind; [by intros ?%elem_of_nil|].
  rw fold_left_app /= addKeys_lookup Hb. destruct (_ && _); [done|]. cbn [andb].
  intros [Hin|[= -> ->]%list_elem_of_singleton]%elem_of_app; [|by rw eqb_refl].
  destruct (GoStr.eqb _ _); [done|]. by apply IH.
Qed.

Section SetTargeting.
Context (td : targetData) (auc : auction) (isApp : bool) (cats : gmap string string).

(** The targets of the bid [p] of [name] on [imp]. *)
Definition final_targets (st : Store) (imp name : string) (p : loc) (pb : pbsOrtbBid) (b : Bid) :
  gmap string string :=
  bid_targets td (target_keys td auc isApp cats name p (bid_ptr st p) pb b) name
    (bool_decide (winningBids auc !! imp = Some p)).

Definition flat_step (st : Store) (x : string * string * loc) : option Store :=
  targeting_step td auc isApp cats x.1.1 st (x.1.2, x.2).

Lemma setTargeting_flat st v : setTargeting td st v auc isApp cats = foldM flat_step (visited v) st.
Proof.
  rw /setTargeting /visited. revert st. induction v as [|[imp inner] v IH]; intros st; simpl; [done|].
  rw foldM_app. assert (foldM flat_step (map (fun np => (imp, np.1, np.2)) inner) st =
    foldM (targeting_step td auc isApp cats imp) inner st) as ->.
  { clear. revert st. induction inner as [|[name p] inner IHl]; intros st; cbn [foldM map fst snd]; [done|].
    change (flat_step st (imp, name, p)) with (targeting_step td auc isApp cats imp st (name, p)).
    by destruct (targeting_step td auc isApp cats imp st (name, p)). }
  by destruct (foldM _ inner st).
Qed.

(** The bids of the store other than the visited ones are left alone, and
    each visited one gets its targets. *)
Lemma targeting_fold l st :
  NoDup l.*2 -> Forall (fun x => is_Some (deref st x.2)) l ->
  exists st', foldM flat_step l st = Some st' /\ st_bid st' = st_bid st /\
    (forall p, p ∉ l.*2 -> st_pbs st' !! p = st_pbs st !! p) /\
    (forall x pb b, x ∈ l -> deref st x.2 = Some (pb, b) ->
       st_pbs st' !! x.2 = Some (pb_set_targets pb (final_targets st x.1.1 x.1.2 x.2 pb b))).
Proof.
  revert st. induction l as [|[[imp name] p] l IH]; intros st Hnd Hok; simpl.
  - exists st. split_and!; try done. intros x pb b Hx. by apply elem_of_nil in Hx.
  - rw fmap_cons /= in Hnd. apply list.NoDup_cons in Hnd as [Hp Hnd].
    apply list.Forall_cons in Hok as [[[pb b] Hd] Hok]. simpl in Hd.
    rw /flat_step /targeting_step /= Hd -/(final_targets st imp name p pb b).
    set (st1 := put_pbs st p _).
    assert (forall q, q <> p -> st_pbs st1 !! q = st_pbs st !! q) as Hsame
      by (intros q Hq; by rw /st1 /= lookup_insert_ne).
    assert (forall q, q <> p -> deref st1 q = deref st q) as Hdr.
    { intros q Hq. rw /deref (Hsame q Hq). done. }
    assert (forall q, q <> p -> bid_ptr st1 q = bid_ptr st q) as Hptr
      by (intros q Hq; by rw /bid_ptr (Hsame q Hq)).
    assert (forall x, x ∈ l -> x.2 <> p) as Hne.
    { intros x Hx Heq. apply Hp. rw -Heq. by apply (list_elem_of_fmap_2 snd). }
    destruct (IH st1) as (st' & Hf & Hb & Hother & Hall); [done| |].
    { rw list.Forall_forall in Hok. apply list.Forall_forall. intros x Hx. assert (x.2 <> p) by auto. rw Hdr //. by apply Hok. }
    exists st'. split; [exact Hf|]. split; [by rw Hb|]. split.
    + intros q [Hqp Hql]%not_elem_of_cons. by rw Hother // Hsame.
    + intros x pb' b' [->|Hx]%elem_of_cons Hd'; simpl in *.
      * rw Hd in Hd'. injection Hd' as <- <-. by rw Hother // /st1 /= lookup_insert_eq.
      * assert (x.2 <> p) as Hxp by auto. assert (deref st1 x.2 = Some (pb', b')) as Hd1 by by rw Hdr.
        rw (Hall _ _ _ Hx Hd1). by rw /final_targets Hptr.
Qed.
End SetTargeting.

(** The key-values that belong to the bid [b] of the bidder [name] that [p]
    refers to. *)
Inductive key_value (td : targetData) (auc : auction) (isApp : bool) (cats : gmap string string) (st : Store)
    (name : string) (p : loc) (pb : pbsOrtbBid) (b : Bid) : string -> string -> Prop :=
  | KPrice cpm : roundedPrices auc !! p = Some cpm -> key_value td auc isApp cats st name p pb b "hb_pb" cpm
  | KBidder : key_value td auc isApp cats st name p pb b "hb_bidder" name
  | KSize : bid_W b <> 0%Z -> bid_H b <> 0%Z ->
      key_value td auc isApp cats st name p pb b "hb_size" (GoStr.itoa (bid_W b) ⧺ "x" ⧺ GoStr.itoa (bid_H b))
  | KCache id : cacheIds auc !! bid_ptr st p = Some id -> key_value td auc isApp cats st name p pb b "hb_cache_id" id
  | KVast id : vastCacheIds auc !! bid_ptr st p = Some id -> key_value td auc isApp cats st name p pb b "hb_uuid" id
  | KFormat : td_includeFormat td = true -> key_value td auc isApp cats st name p pb b "hb_format" (pb_bidType pb)
  | KHost : td_cacheHost td <> ""%string -> key_value td auc isApp cats st name p pb b "hb_cache_host" (td_cacheHost td)
  | KPath : td_cachePath td <> ""%string -> key_value td auc isApp cats st name p pb b "hb_cache_path" (td_cachePath td)
  | KDeal : bid_DealID b <> ""%string -> key_value td auc isApp cats st name p pb b "hb_deal" (bid_DealID b)
  | KApp : isApp = true -> key_value td auc isApp cats st name p pb b "hb_env" "mobile-app"
  | KCategory : cats <> ∅ ->
      key_value td auc isApp cats st name p pb b "hb_pb_cat_dur" (default ""%string (cats !! bid_ID b)).
Lemma elem_of_if {A} (c : bool) (x y : A) : x ∈ (if c then [y] else []) <-> c = true /\ x = y.
Proof. destruct c; rw ?list_elem_of_singleton ?elem_of_nil; naive_solver. Qed.
Lemma nonempty_true x : nonempty x = true <-> x <> ""%string.
Proof. by destruct x. Qed.
Lemma target_keys_iff td auc isApp cats st name p pb b k v :
  (k, v) ∈ target_keys td auc isApp cats name p (bid_ptr st p) pb b <-> key_value td auc isApp cats st name p pb b k v.
Proof.
  unfold target_keys. rw !elem_of_app !elem_of_if !nonempty_true list_elem_of_singleton. split.
  - intros H. destruct_or?; destruct_and?; simplify_eq; try by constructor.
    + destruct (roundedPrices auc !! p) as [cpm|] eqn:E; [|by apply elem_of_nil in H]. apply list_elem_of_singleton in H as [= -> ->]. by constructor.
    + unfold makeHbSize in *. destruct (Z.eqb_spec (bid_W b) 0), (Z.eqb_spec (bid_H b) 0); try done. by constructor.
    + destruct (cacheIds auc !! _) as [id|] eqn:E; [|by apply elem_of_nil in H]. apply list_elem_of_singleton in H as [= -> ->]. by constructor.
    + destruct (vastCacheIds auc !! _) as [id|] eqn:E; [|by apply elem_of_nil in H]. apply list_elem_of_singleton in H as [= -> ->]. by constructor.
    + case_bool_decide; [by apply elem_of_nil in H|]. apply list_elem_of_singleton in H as [= -> ->]. by constructor.
  - destruct 1 as [cpm Hc| |Hw Hh|id Hi|id Hi|Hf|Hh|Hp|Hd|Ha|Hc].
    + left. rw Hc. by apply list_elem_of_singleton.
    + by right; left.
    + right; right; left. unfold makeHbSize. rw (proj2 (Z.eqb_neq _ _) Hw) (proj2 (Z.eqb_neq _ _) Hh). cbn. split; [|done].
      destruct (GoStr.itoa (bid_W b)); done.
    + do 3 right; left. rw Hi. by apply list_elem_of_singleton.
    + do 4 right; left. rw Hi. by apply list_elem_of_singleton.
    + by do 5 right; left.
    + by do 6 right; left.
    + by do 7 right; left.
    + by do 8 right; left.
    + by do 9 right; left.
    + do 10 right. rw bool_decide_eq_false_2 //. by apply list_elem_of_singleton.
Qed.

(** C15: writing the targeting never fails on the bids of the auction and gives
    each bidder's top bid its key-values and nothing else: the plain keys only
    on the overall winner, when winners are included, and then all of them
    (but the category, for a bidder of the name cat_dur); the bidder keys, cut
    to 20 characters, only when they are included, and then all of them; the
    bidders' own bids and the other bids of the store are untouched. *)
Theorem setTargeting_correct td auc isApp cats st v
    (Hdistinct : NoDup (visited v).*2) (Hok : Forall (fun x => is_Some (deref st x.2)) (visited v)) :
  exists st', setTargeting td st v auc isApp cats = Some st' /\ st_bid st' = st_bid st /\
    (forall p, p ∉ (visited v).*2 -> st_pbs st' !! p = st_pbs st !! p) /\
    forall imp name p, (imp, name, p) ∈ visited v -> exists pb b, deref st p = Some (pb, b) /\
      let wins := td_includeWinners td = true /\ winningBids auc !! imp = Some p in
      let kv := key_value td auc isApp cats st name p pb b in
      let bidder_key key := GoStr.take 20 (key ⧺ "_" ⧺ name) in
      st_pbs st' !! p = Some (pb_set_targets pb (targets_at st' p)) /\
      (forall k x, targets_at st' p !! k = Some x ->
         (wins /\ kv k x) \/ (td_includeBidderKeys td = true /\ exists key, kv key x /\ k = bidder_key key)) /\
      (forall k x, wins -> kv k x -> (k <> "hb_pb_cat_dur" \/ name <> "cat_dur")%string -> targets_at st' p !! k = Some x) /\
      (forall key x, td_includeBidderKeys td = true -> kv key x -> is_Some (targets_at st' p !! bidder_key key)).
Proof.
  rw setTargeting_flat. destruct (targeting_fold td auc isApp cats (visited v) st Hdistinct Hok)
    as (st' & Hf & Hb & Hother & Hall).
  exists st'. split_and!; try done. intros imp name p Hin.
  rw list.Forall_forall in Hok. destruct (Hok _ Hin) as [[pb b] Hd]. simpl in Hd.
  pose proof (Hall _ _ _ Hin Hd) as Hp. simpl in Hp. exists pb, b. split; [done|]. intros wins kv bidder_key.
  assert (targets_at st' p = final_targets td auc isApp cats st imp name p pb b) as ->.
  { rw /targets_at Hp. by destruct pb. }
  assert (forall key, BidderKey key name MaxKeyLength = bidder_key key) as Hbk by (intros key; apply take_min).
  pose proof (target_keys_iff td auc isApp cats st name p pb b) as Hkv. unfold final_targets.
  pose proof (target_keys_sublist td auc isApp cats name p (bid_ptr st p) pb b) as Hsub.
  set (keys := target_keys _ _ _ _ _ _ _ _ _) in *. split; [exact Hp|]. split_and!.
  - intros k x (key & Hk%Hkv & [(? & Hw%bool_decide_eq_true & ->)|(? & ->)])%bid_targets_lookup; [by left|].
    right. split; [done|]. exists key. by rw -Hbk.
  - intros k x [Hinc Hw] Hk%Hkv Hname. rw bool_decide_eq_true_2 //.
    assert (forall key, key ∈ keys.*1 -> key ∈ all_keys) as Hkeys by (intros key ?; by apply (sublist_elem _ _ _ Hsub)).
    apply bid_targets_winner; [done..| |].
    + apply (sublist_nodup _ _ Hsub). by apply (bool_decide_unpack (NoDup all_keys)).
    + intros key' Hk'. apply plain_key_safe; [|done|by apply Hkeys]. apply Hkeys. by apply (list_elem_of_fmap_2 fst _ (k, x)).
  - intros key x Hinc Hk%Hkv. rw -Hbk. by eapply bid_targets_bidder.
Qed.

Definition demo_target : targetData :=
  mkTargetData priceGranularityMed true true false false false false "" "".

(** The theorem on the two bidders of the demo auction. *)
Lemma setTargeting_correct_witness :
  exists st', setTargeting demo_target demo_auction_store demo_visits demo_auction true ∅ = Some st' /\
    targets_at st' 2%positive !! "hb_bidder"%string = Some "appnexus"%string.
Proof.
  destruct (setTargeting_correct demo_target demo_auction true ∅ demo_auction_store demo_visits)
    as (st' & Hst & _ & _ & Hall).
  - apply (bool_decide_unpack (NoDup (visited demo_visits).*2)). vm_compute. exact I.
  - repeat (apply List.Forall_cons; [eexists; reflexivity|]). apply List.Forall_nil.
  - exists st'. split; [exact Hst|].
    destruct (Hall "i1"%string "appnexus"%string 2%positive) as (pb & b & _ & _ & _ & Hplain & _); [simpl; set_solver|].
    apply Hplain; [split; reflexivity|apply KBidder|left; discriminate].
Defined.

(** A bidder with a deal at 1 and another bid at 2 on the same imp. *)
Definition deal_store : Store :=
  demo_store [simpleBid "deal" "i1" (F64.of_Z 1) "c1" "d1"; simpleBid "open" "i1" (F64.of_Z 2) "c2" ""].
Definition deal_seats : list (string * option pbsOrtbSeatBid) :=
  [("appnexus"%string, Some (mkSeatBid [1%positive; 2%positive] "USD" []))].

(** When deals are preferred the overall winner of an imp need not be any
    bidder's top bid, because the bidders' top bids are chosen by price only.
    Then the winner gets no targeting at all and no bid on the imp carries the
    winner keys: here the deal wins, the other bid is targeted, and nobody has
    hb_pb or hb_bidder. *)
Theorem deal_winner_not_targeted :
  exists a st', newAuction deal_store deal_seats true = Some a /\
    winningBids a !! "i1"%string = Some 1%positive /\
    top_of a "i1" "appnexus" = Some 2%positive /\
    setTargeting demo_target deal_store [("i1"%string, [("appnexus"%string, 2%positive)])] a false ∅ = Some st' /\
    targets_at st' 1%positive = ∅ /\ targets_at st' 2%positive !! "hb_bidder_appnexus"%string = Some "appnexus"%string /\
    targets_at st' 2%positive !! "hb_bidder"%string = None /\ targets_at st' 2%positive !! "hb_pb"%string = None.
Proof.
  do 2 eexists. split; [reflexivity|]. split; [reflexivity|]. split; [reflexivity|]. split; [reflexivity|].
  split_and!; by vm_compute.
Qed.
