(* ===== verification/Category.v ===== *)
(** * Competitive exclusion and deal tiers

    [applyCategoryMapping], [removeBidById], [updateRejections],
    [getPrimaryAdServer] and the deal support ([applyDealSupport],
    [getDealTiers], [validateDealTier], [updateHbPbCatDur]) of
    [exchange/exchange.go], and [openrtb_ext/deal_tier.go].

    The seats are distinct objects behind the pointers of a map, so the map
    holds them by value here.  The loop over the seats visits them in an order
    given as a list of names.  The random tie breaker is a stream of booleans.
    [None] is a panic: a seat or a bid that is nil. *)

From S2P Require Import Prelude Float64 ErrorTypes Json OpenRTB PriceGranularity ExtRequest Auction Targeting.

Definition getPrimaryAdServer (adServerId : Z) : string + error :=
  if (adServerId =? 1)%Z then inl "freewheel"%string
  else if (adServerId =? 2)%Z then inl "dfp"%string
  else inr (EPlain ("Primary ad server " ⧺ GoStr.itoa adServerId ⧺ " not recognized")).

Definition updateRejections (rejections : list string) (bidID reason : string) : list string :=
  rejections ++ ["bid rejected [bid ID: " ⧺ bidID ⧺ "] reason: " ⧺ reason].

Fixpoint find_bid_index (st : Store) (bids : list loc) (bidID : string) : option (option nat) :=
  match bids with
  | [] => Some None
  | p :: rest =>
      match deref st p with
      | None => None
      | Some (_, b) => if GoStr.eqb (bid_ID b) bidID then Some (Some 0)
                       else match find_bid_index st rest bidID with
                            | None => None
                            | Some i => Some (S <$> i)
                            end
      end
  end.
Definition remove_index (bids : list loc) (i : nat) : list loc := take i bids ++ drop (S i) bids.
Definition removeBidById (st : Store) (seatBid : pbsOrtbSeatBid) (bidID : string) : option pbsOrtbSeatBid :=
  match find_bid_index st (sb_bids seatBid) bidID with
  | None => None
  | Some None => Some seatBid
  | Some (Some i) => Some (sb_set_bids seatBid (remove_index (sb_bids seatBid) i))
  end.

Record bidDedupe := mkDedupe {
  dd_bidderName : string; dd_bidIndex : nat; dd_bidID : string; dd_bidPrice : string }.

(** The variables of the loops; [cs_bidsToRemove] is local to one seat. *)
Record CatState := mkCat {
  cs_res : gmap string string; cs_dedupe : gmap string bidDedupe; cs_rejections : list string;
  cs_seats : gmap string pbsOrtbSeatBid; cs_seatBidsToRemove : list string;
  cs_bidsToRemove : list nat; cs_draws : nat }.

(** What the extension asks for. *)
Record CatConfig := mkCatConfig {
  cc_WithCategory : bool; cc_translateCategories : bool; cc_primaryAdServer : string;
  cc_publisher : string; cc_durations : list Z; cc_appendBidderNames : bool;
  cc_priceGranularity : PriceGranularity }.

#[export] Instance Zle_dec' : RelDecision Z.le := Z_le_dec.

Section Category.
Context (FetchCategories : string -> string -> string -> string * option error).
Context (generate : nat -> bool).
Context (cc : CatConfig) (st : Store).

(** The category of a bid, or the reason to reject it. *)
Definition bid_category (pb : pbsOrtbBid) (b : Bid) : string + string :=
  let category := match pb_bidVideo pb with Some v => bv_PrimaryCategory v | None => "" end in
  if cc_WithCategory cc && GoStr.is_empty category then
    match bid_Cat b with
    | [cat] =>
        if cc_translateCategories cc then
          let '(category, err) := FetchCategories (cc_primaryAdServer cc) (cc_publisher cc) cat in
          if bool_decide (is_Some err) || GoStr.is_empty category
          then inr ("Category mapping file for primary ad server: '" ⧺ cc_primaryAdServer cc ⧺
                    "', publisher: '" ⧺ cc_publisher cc ⧺ "' not found")
          else inl category
        else inl cat
    | _ => inr "Bid did not contain a category"
    end
  else inl category.

(** The duration a bid is listed under. *)
Definition bid_duration (duration : Z) : Z + string :=
  match cc_durations cc with
  | [] => inl duration
  | durs =>
      let durationRange := merge_sort Z.le durs in
      if (List.last durationRange 0 <? duration)%Z then inr "Bid duration exceeds maximum allowed"
      else match List.find (fun dur => (duration <=? dur)%Z) durationRange with
           | Some dur => inl dur
           | None => inl duration
           end
  end.

(** The dedupe key, the targeting value and the price bucket of a bid, or
    the reason to reject it. *)
Definition categorize (bidderName : string) (pb : pbsOrtbBid) (b : Bid) :
  (string * string * string) + string :=
  match bid_category pb b with
  | inr reason => inr reason
  | inl category =>
      let bucket := GetPriceBucket (bid_Price b) (cc_priceGranularity cc) in
      match bid_duration (match pb_bidVideo pb with Some v => bv_Duration v | None => 0%Z end) with
      | inr reason => inr reason
      | inl newDur =>
          let '(categoryDuration, dupeKey) :=
            if cc_WithCategory cc
            then (bucket ⧺ "_" ⧺ category ⧺ "_" ⧺ GoStr.itoa newDur ⧺ "s", category)
            else let cd := bucket ⧺ "_" ⧺ GoStr.itoa newDur ⧺ "s" in (cd, cd) in
          let categoryDuration := if cc_appendBidderNames cc
                                  then categoryDuration ⧺ "_" ⧺ bidderName else categoryDuration in
          inl (dupeKey, categoryDuration, bucket)
      end
  end.

Definition bucket_price (pb : string) : float64 := default F64.zero (F64.parse_float pb).

(** Whether the newer bid replaces the older one, and the draws used. *)
Definition newer_wins (dupePrice currPrice : string) (draws : nat) : bool * nat :=
  let dupeBidPrice := bucket_price dupePrice in
  let currBidPrice := bucket_price currPrice in
  let '(dupeBidPrice, currBidPrice, draws) :=
    if F64.eqb dupeBidPrice currBidPrice then
      if generate draws then (F64.of_Z (-1), currBidPrice, S draws) else (dupeBidPrice, F64.of_Z (-1), S draws)
    else (dupeBidPrice, currBidPrice, draws) in
  (F64.ltb dupeBidPrice currBidPrice, draws).

Definition cs_reject (s : CatState) (bidID reason : string) : CatState :=
  mkCat (cs_res s) (cs_dedupe s) (updateRejections (cs_rejections s) bidID reason) (cs_seats s)
    (cs_seatBidsToRemove s) (cs_bidsToRemove s) (cs_draws s).
Definition cs_remove_index (s : CatState) (i : nat) : CatState :=
  mkCat (cs_res s) (cs_dedupe s) (cs_rejections s) (cs_seats s) (cs_seatBidsToRemove s)
    (cs_bidsToRemove s ++ [i]) (cs_draws s).
Definition cs_remove_seat (s : CatState) (name : string) : CatState :=
  mkCat (cs_res s) (cs_dedupe s) (cs_rejections s) (cs_seats s) (cs_seatBidsToRemove s ++ [name])
    (cs_bidsToRemove s) (cs_draws s).
Definition cs_put_seat (s : CatState) (name : string) (seat : pbsOrtbSeatBid) : CatState :=
  mkCat (cs_res s) (cs_dedupe s) (cs_rejections s) (<[name := seat]> (cs_seats s)) (cs_seatBidsToRemove s)
    (cs_bidsToRemove s) (cs_draws s).
Definition cs_set_draws (s : CatState) (n : nat) : CatState :=
  mkCat (cs_res s) (cs_dedupe s) (cs_rejections s) (cs_seats s) (cs_seatBidsToRemove s)
    (cs_bidsToRemove s) n.
Definition cs_set_res (s : CatState) (res : gmap string string) : CatState :=
  mkCat res (cs_dedupe s) (cs_rejections s) (cs_seats s) (cs_seatBidsToRemove s) (cs_bidsToRemove s) (cs_draws s).
Definition cs_reset_bids (s : CatState) : CatState :=
  mkCat (cs_res s) (cs_dedupe s) (cs_rejections s) (cs_seats s) (cs_seatBidsToRemove s) [] (cs_draws s).
Definition cs_record (s : CatState) (key value : string) (d : bidDedupe) : CatState :=
  mkCat (<[dd_bidID d := value]> (cs_res s)) (<[key := d]> (cs_dedupe s)) (cs_rejections s) (cs_seats s)
    (cs_seatBidsToRemove s) (cs_bidsToRemove s) (cs_draws s).

(** Takes the losing older bid out of its seat. *)
Definition drop_older (s : CatState) (bidderName : string) (dupe : bidDedupe) : option CatState :=
  let rejected s := cs_reject s (dd_bidID dupe) "Bid was deduplicated" in
  if GoStr.eqb (dd_bidderName dupe) bidderName
  then Some (rejected (cs_remove_index s (dd_bidIndex dupe)))
  else
    let s := rejected s in
    match cs_seats s !! dd_bidderName dupe with
    | None => None
    | Some oldSeatBid =>
        if bool_decide (length (sb_bids oldSeatBid) = 1) then Some (cs_remove_seat s (dd_bidderName dupe))
        else match removeBidById st oldSeatBid (dd_bidID dupe) with
             | None => None
             | Some seat => Some (cs_put_seat s (dd_bidderName dupe) seat)
             end
    end.

(** The body of the loop over the bids of a seat. *)
Definition category_step (bidderName : string) (s : CatState) (ip : nat * loc) : option CatState :=
  let '(bidInd, p) := ip in
  match deref st p with
  | None => None
  | Some (pb, b) =>
      let bidID := bid_ID b in
      match categorize bidderName pb b with
      | inr reason => Some (cs_reject (cs_remove_index s bidInd) bidID reason)
      | inl (dupeKey, categoryDuration, bucket) =>
          let this := mkDedupe bidderName bidInd bidID bucket in
          match cs_dedupe s !! dupeKey with
          | None => Some (cs_record s dupeKey categoryDuration this)
          | Some dupe =>
              let '(wins, draws) := newer_wins (dd_bidPrice dupe) bucket (cs_draws s) in
              let s := cs_set_draws s draws in
              if wins then
                match drop_older s bidderName dupe with
                | None => None
                | Some s => Some (cs_record (cs_set_res s (delete (dd_bidID dupe) (cs_res s))) dupeKey categoryDuration this)
                end
              else Some (cs_reject (cs_remove_index s bidInd) bidID "Bid was deduplicated")
          end
      end
  end.

(** The removals at the end of a seat, from the last index to the first. *)
Definition remove_indices (bids : list loc) (indices : list nat) : list loc :=
  foldr (fun i bids => remove_index bids i) bids (merge_sort Nat.le indices).
Definition finish_seat (bidderName : string) (seatBid : pbsOrtbSeatBid) (s : CatState) : CatState :=
  match cs_bidsToRemove s with
  | [] => s
  | toRemove =>
      if bool_decide (length toRemove = length (sb_bids seatBid)) then cs_remove_seat s bidderName
      else cs_put_seat s bidderName (sb_set_bids seatBid (remove_indices (sb_bids seatBid) toRemove))
  end.

Definition seat_step (s : CatState) (bidderName : string) : option CatState :=
  match cs_seats s !! bidderName with
  | None => None
  | Some seatBid =>
      match foldM (category_step bidderName) (imap pair (sb_bids seatBid)) (cs_reset_bids s) with
      | None => None
      | Some s => Some (finish_seat bidderName seatBid s)
      end
  end.

Definition clear_seat (seats : gmap string pbsOrtbSeatBid) (name : string) : gmap string pbsOrtbSeatBid :=
  alter (fun seat => sb_set_bids seat []) name seats.

Definition category_loop (order : list string) (seatBids : gmap string pbsOrtbSeatBid) : option CatState :=
  foldM seat_step order (mkCat ∅ ∅ [] seatBids [] [] 0).
End Category.

(** The settings read from the extension; an unknown ad server is an error. *)
Definition cat_config (targeting : ExtRequestTargeting) (brandCatExt : ExtIncludeBrandCategory)
    (targData : targetData) : CatConfig + error :=
  let translateCategories :=
    if bc_WithCategory brandCatExt then default true (bc_TranslateCategories brandCatExt) else true in
  let cc primaryAdServer publisher :=
    mkCatConfig (bc_WithCategory brandCatExt) translateCategories primaryAdServer publisher
      (default [] (tg_DurationRangeSec targeting)) (tg_AppendBidderNames targeting)
      (td_priceGranularity targData) in
  if bc_WithCategory brandCatExt && translateCategories then
    match getPrimaryAdServer (bc_PrimaryAdServer brandCatExt) with
    | inl primaryAdServer => inl (cc primaryAdServer (bc_Publisher brandCatExt))
    | inr err => inr err
    end
  else inl (cc ""%string ""%string).

(** [applyCategoryMapping] as it is called: targeting is on and asks for brand
    categories. *)
Definition applyCategoryMapping FetchCategories generate (st : Store) (targeting : ExtRequestTargeting)
    (brandCatExt : ExtIncludeBrandCategory) (order : list string) (seatBids : gmap string pbsOrtbSeatBid)
    (targData : targetData) :
  option ((gmap string string * gmap string pbsOrtbSeatBid * list string) + error) :=
  match cat_config targeting brandCatExt targData with
  | inr err => Some (inr err)
  | inl cc =>
      match category_loop FetchCategories generate cc st order seatBids with
      | None => None
      | Some s => Some (inl (cs_res s, fold_left clear_seat (cs_seatBidsToRemove s) (cs_seats s), cs_rejections s))
      end
  end.

(** ** Deal support *)
Record DealTier := mkDealTier { dt_Prefix : string; dt_MinDealTier : Z }.
Definition DealTierBidderMap : Type := gmap string DealTier.

Definition dec_deal_tier : decoder DealTier := dec_struct (fun kvs =>
  prefix ← dec_field dec_string ""%string "prefix" kvs;
  min ← dec_field dec_int 0%Z "minDealTier" kvs;
  Some (mkDealTier prefix min)).
Definition dec_deal_param : decoder (option DealTier) := dec_struct (fun kvs =>
  dec_field (dec_ptr dec_deal_tier) None "dealTier" kvs).
Definition dec_prebid_deals : decoder (gmap string (option DealTier)) := dec_struct (fun kvs =>
  prebid ← dec_field (dec_struct (fun kvs =>
      dec_field (dec_map dec_deal_param) None "bidder" kvs)) None "prebid" kvs;
  Some (map_or_empty prebid)).

(** The tiers that are set; the loop's order does not matter. *)
Definition set_tiers (params : gmap string (option DealTier)) (dealTiers : DealTierBidderMap) : DealTierBidderMap :=
  omap id params ∪ dealTiers.
Definition ReadDealTiersFromImp (imp : Imp) : DealTierBidderMap + error :=
  if raw_len0 (imp_Ext imp) then inl ∅
  else match unmarshal (dec_map dec_deal_param) (imp_Ext imp) with
  | inr err => inr err
  | inl impExt =>
      let dealTiers := set_tiers (map_or_empty impExt) ∅ in
      match unmarshal dec_prebid_deals (imp_Ext imp) with
      | inr err => inr err
      | inl bidders => inl (set_tiers bidders dealTiers)
      end
  end.

Fixpoint deal_map_loop (imps : list Imp) (impDealMap : gmap string DealTierBidderMap) : gmap string DealTierBidderMap :=
  match imps with
  | [] => impDealMap
  | imp :: rest =>
      deal_map_loop rest (match ReadDealTiersFromImp imp with
                          | inr _ => impDealMap
                          | inl m => <[imp_ID imp := m]> impDealMap
                          end)
  end.
Definition getDealTiers (bidRequest : BidRequest) : gmap string DealTierBidderMap :=
  deal_map_loop (req_Imp bidRequest) ∅.

(** A missing tier reads as the zero tier. *)
Definition deal_tier (m : gmap string DealTierBidderMap) (impID bidder : string) : DealTier :=
  default (mkDealTier "" 0) (m !! impID ≫= fun t => t !! bidder).
Definition validateDealTier (dealTier : DealTier) : bool :=
  (0 <? GoStr.len (dt_Prefix dealTier))%nat && (0 <? dt_MinDealTier dealTier)%Z.

Definition prefix_tier (dealTier : DealTier) (dealPriority : Z) : string :=
  dt_Prefix dealTier ⧺ GoStr.itoa dealPriority ⧺ "_".
(** The category-duration value with its first field replaced. *)
Definition retier (dealTier : DealTier) (dealPriority : Z) (oldCatDur : string) : string :=
  prefix_tier dealTier dealPriority ⧺ default ""%string (GoStr.split_after_first "_"%char oldCatDur).2.

(** [updateHbPbCatDur] on the bid at [p]; [None] is a nil dereference. *)
Definition updateHbPbCatDur (st : Store) (p : loc) (dealTier : DealTier) (bidCategory : gmap string string) :
  option (Store * gmap string string) :=
  match st_pbs st !! p with
  | None => None
  | Some pb =>
      if (dt_MinDealTier dealTier <=? pb_dealPriority pb)%Z then
        let st := put_pbs st p (pb_set_dealTierSatisfied pb true) in
        match deref st p with
        | None => None
        | Some (_, b) =>
            match bidCategory !! bid_ID b with
            | None => Some (st, bidCategory)
            | Some oldCatDur =>
                Some (st, <[bid_ID b := retier dealTier (pb_dealPriority pb) oldCatDur]> bidCategory)
            end
        end
      else Some (st, bidCategory)
  end.

Definition deal_step (impDealMap : gmap string DealTierBidderMap)
    (acc : Store * gmap string string * list error) (visit : string * string * loc) :
  option (Store * gmap string string * list error) :=
  let '(st, bidCategory, errs) := acc in
  let '(impID, bidder, p) := visit in
  match st_pbs st !! p with
  | None => None
  | Some pb =>
      if (0 <? pb_dealPriority pb)%Z then
        let tier := deal_tier impDealMap impID bidder in
        if validateDealTier tier then
          match updateHbPbCatDur st p tier bidCategory with
          | None => None
          | Some (st, bidCategory) => Some (st, bidCategory, errs)
          end
        else Some (st, bidCategory, errs ++ [EPlain ("dealTier configuration invalid for bidder '" ⧺ bidder ⧺
                                                     "', imp ID '" ⧺ impID ⧺ "'")])
      else Some acc
  end.
Definition applyDealSupport (st : Store) (bidRequest : BidRequest) (v : Visits) (bidCategory : gmap string string) :
  option (Store * gmap string string * list error) :=
  foldM (deal_step (getDealTiers bidRequest)) (visited v) (st, bidCategory, []).

(** ** Removing by index *)
Section Removal.
Implicit Types l : list loc.

Lemma remove_index_lookup_lt l i j : j < i -> remove_index l i !! j = l !! j.
Proof.
  intros Hj. rw /remove_index. destruct (decide (i <= length l)) as [Hi|Hi].
  - rw lookup_app_l; [|by rw lookup_take_lt]. rw length_take. lia.
  - rw take_ge; [lia|]. rw drop_ge; [lia|]. by rw app_nil_r.
Qed.

Lemma remove_index_sublist l i : remove_index l i `sublist_of` l.
Proof.
  rw /remove_index -{3}(take_drop i l). apply sublist_app; [done|].
  destruct (drop i l) as [|x r] eqn:E.
  - assert (length l <= i) by (rw -length_zero_iff_nil length_drop in E; lia). rw drop_ge; [lia|done].
  - assert (drop (S i) l = r) as ->; [|by constructor].
    rw -Nat.add_1_r -drop_drop E. by rw /= drop_0.
Qed.

Lemma remove_index_elem l i q p : NoDup l -> l !! i = Some q -> p ∈ remove_index l i <-> p ∈ l /\ p <> q.
Proof.
  intros Hnd Hi. rw /remove_index. pose proof (take_drop_middle l i q Hi) as Hl.
  assert (NoDup (take i l ++ q :: drop (S i) l)) as Hnd' by by rw Hl.
  rw -{3}Hl. rw list.NoDup_app in Hnd'. destruct Hnd' as (_ & H1 & H2).
  apply list.NoDup_cons in H2 as [H2 _]. rw !elem_of_app elem_of_cons. split.
  - intros [H|H]; (split; [by auto|intros ->]); [|done]. apply (H1 _ H). by left.
  - intros [[H|[H|H]] Hne]; auto. done.
Qed.

Lemma remove_sorted_spec (is_ : list nat) l :
  NoDup l -> StronglySorted Nat.le is_ -> NoDup is_ -> Forall (fun i => i < length l) is_ ->
  let r := foldr (fun i l => remove_index l i) l is_ in
  r `sublist_of` l /\
  (forall p, p ∈ r <-> p ∈ l /\ forall i, i ∈ is_ -> l !! i <> Some p) /\
  (forall j, Forall (fun i => j < i) is_ -> r !! j = l !! j).
Proof.
  intros Hnd Hs Hn Hb. induction is_ as [|i is_ IH]; cbn [foldr].
  { split; [done|]. split; [|done]. intros p. split; [|by intros []]. intros H. split; [done|].
    by intros i Hi%elem_of_nil. }
  apply StronglySorted_inv in Hs as [Hs Hle]. apply list.NoDup_cons in Hn as [Hi Hn].
  apply list.Forall_cons in Hb as [Hi' Hb]. destruct (IH Hs Hn Hb) as (Hsub & Hel & Hpre).
  set (r := foldr _ l is_) in *. assert (Forall (fun k => i < k) is_) as Hlt.
  { rw list.Forall_forall in Hle. apply list.Forall_forall. intros k Hk. specialize (Hle k Hk).
    assert (i <> k) by (by intros ->). lia. }
  destruct (lookup_lt_is_Some_2 l i Hi') as [q Hq].
  assert (r !! i = Some q) as Hrq by by rw Hpre.
  split; [etrans; [apply remove_index_sublist|done]|]. split.
  - intros p. rw (remove_index_elem r i q p (sublist_NoDup _ _ Hnd Hsub) Hrq) Hel. split.
    + intros [[Hp Hall] Hne]. split; [done|]. intros k [->|Hk]%elem_of_cons; [congruence|by apply Hall].
    + intros [Hp Hall]. split; [split; [done|]|].
      * intros k Hk. apply Hall. by right.
      * intros ->. by apply (Hall i); [left|].
  - intros j [Hj Hall]%list.Forall_cons. rw remove_index_lookup_lt //. by apply Hpre.
Qed.

Lemma remove_indices_spec l R :
  NoDup l -> NoDup R -> Forall (fun i => i < length l) R ->
  remove_indices l R `sublist_of` l /\
  (forall p, p ∈ remove_indices l R <-> p ∈ l /\ forall i, i ∈ R -> l !! i <> Some p).
Proof.
  intros Hnd HR Hb. assert (merge_sort Nat.le R ≡ₚ R) as Hp by apply merge_sort_Permutation.
  destruct (remove_sorted_spec (merge_sort Nat.le R) l) as (H1 & H2 & _); try done.
  - apply (StronglySorted_merge_sort Nat.le).
  - by rw Hp.
  - by rw Hp.
  - split; [done|]. intros p. rw H2. by setoid_rewrite Hp.
Qed.
End Removal.

(** ** Deduplication *)

Lemma newer_wins_spec generate old new draws :
  match newer_wins generate old new draws with
  | (true, _) => forall x, F64.ltb (bucket_price old) x = false -> F64.ltb (bucket_price new) x = false
  | (false, _) => F64.ltb (bucket_price old) (bucket_price new) = false
  end.
Proof.
  rw /newer_wins. set (a := bucket_price old). set (b := bucket_price new).
  destruct (F64.eqb a b) eqn:E.
  - assert (F64.ltb a b = false) by by rw (ltb_eqb_l _ _ _ E) ltb_irrefl.
    assert (forall x, F64.ltb a x = false -> F64.ltb b x = false) by (intros x; by rw (ltb_eqb_l _ _ _ E)).
    destruct (generate draws); [by destruct (F64.ltb (F64.of_Z (-1)) b)|by destruct (F64.ltb a (F64.of_Z (-1)))].
  - destruct (F64.ltb a b) eqn:El; [|done]. intros x Hx. destruct (F64.ltb b x) eqn:Ex; [|done].
    by rw -Hx (ltb_trans _ _ _ El Ex).
Qed.

Lemma find_bid_index_spec st bids p :
  p ∈ bids -> (forall q, q ∈ bids -> is_Some (deref st q)) ->
  (forall q, q ∈ bids -> bid_ID (the_bid st q) = bid_ID (the_bid st p) -> q = p) ->
  exists i, find_bid_index st bids (bid_ID (the_bid st p)) = Some (Some i) /\ bids !! i = Some p.
Proof.
  induction bids as [|q bids IH]; intros Hp Hok Hid; [by apply elem_of_nil in Hp|]. cbn [find_bid_index].
  destruct (Hok q ltac:(by left)) as [[pb b] Hq]. rw Hq.
  assert (bid_ID (the_bid st q) = bid_ID b) as Hb by by rw /the_bid /bid_at Hq.
  destruct (eqb_spec (bid_ID b) (bid_ID (the_bid st p))) as [He|Hne].
  - exists 0. split; [done|]. rw (Hid q); [by left|congruence|done].
  - apply elem_of_cons in Hp as [->|Hp]; [congruence|].
    destruct IH as (i & -> & Hi); [done|intros; apply Hok; by right|intros; apply Hid; [by right|done]|].
    by exists (S i).
Qed.

Section Dedup.
Context (FetchCategories : string -> string -> string -> string * option error).
Context (generate : nat -> bool) (cc : CatConfig) (st : Store) (orig : gmap string pbsOrtbSeatBid).

Definition seat_bids (n : string) : list loc := match orig !! n with Some s => sb_bids s | None => [] end.
Definition id_of (p : loc) : string := bid_ID (the_bid st p).
(** What [categorize] says of the bid at [p]. *)
Definition cat_of (n : string) (p : loc) : (string * string * string) + string :=
  match deref st p with Some (pb, b) => categorize FetchCategories cc n pb b | None => inr "" end.

Context (Hok : forall n p, p ∈ seat_bids n -> is_Some (deref st p)).
Context (Hids : forall n m i j p q, seat_bids n !! i = Some p -> seat_bids m !! j = Some q ->
                  id_of p = id_of q -> n = m /\ i = j).

Lemma seat_nodup n : NoDup (seat_bids n).
Proof using Hids.
  apply NoDup_alt. intros i j p Hi Hj. by destruct (Hids n n i j p p Hi Hj eq_refl).
Qed.

(** A dedupe entry describes the bid at its place. *)
Definition entry_ok (s : CatState) (key : string) (d : bidDedupe) : Prop :=
  exists p v, seat_bids (dd_bidderName d) !! dd_bidIndex d = Some p /\ id_of p = dd_bidID d /\
    cat_of (dd_bidderName d) p = inl (key, v, dd_bidPrice d) /\ cs_res s !! dd_bidID d = Some v.
(** The bid at index [i] of seat [n] is in the running. *)
Definition alive (s : CatState) (n : string) (i : nat) : Prop :=
  exists key d, cs_dedupe s !! key = Some d /\ dd_bidderName d = n /\ dd_bidIndex d = i.

Record core (seen : string -> nat -> Prop) (s : CatState) : Prop := mkCore {
  core_entry : forall key d, cs_dedupe s !! key = Some d ->
    seen (dd_bidderName d) (dd_bidIndex d) /\ entry_ok s key d;
  core_res : forall i v, cs_res s !! i = Some v ->
    exists key d, cs_dedupe s !! key = Some d /\ dd_bidID d = i;
  core_best : forall n i p key v b, seen n i -> seat_bids n !! i = Some p ->
    cat_of n p = inl (key, v, b) ->
    exists d, cs_dedupe s !! key = Some d /\
      F64.ltb (bucket_price (dd_bidPrice d)) (bucket_price b) = false }.

#[local] Instance alive_dec s n i : Decision (alive s n i).
Proof using Type.
  change (Decision (map_Exists (fun _ d => dd_bidderName d = n /\ dd_bidIndex d = i) (cs_dedupe s))). apply _.
Defined.

(** A seat whose loop is over. *)
Definition finished (s : CatState) (n : string) : Prop :=
  exists seat0 bids, orig !! n = Some seat0 /\ cs_seats s !! n = Some (sb_set_bids seat0 bids) /\
    bids `sublist_of` sb_bids seat0 /\
    if bool_decide (n ∈ cs_seatBidsToRemove s) then forall i, ~ alive s n i
    else forall i p, seat_bids n !! i = Some p -> (p ∈ bids <-> alive s n i).

(** The seat being visited, [k] bids into it. *)
Definition current (s : CatState) (n : string) (k : nat) : Prop :=
  cs_seats s !! n = orig !! n /\ (n ∉ cs_seatBidsToRemove s) /\ NoDup (cs_bidsToRemove s) /\
  forall i, i ∈ cs_bidsToRemove s <-> i < k /\ ~ alive s n i.

Definition untouched (s : CatState) (n : string) : Prop :=
  cs_seats s !! n = orig !! n /\ n ∉ cs_seatBidsToRemove s.

Lemma entry_pos_inj s seen key key' d d' :
  core seen s -> cs_dedupe s !! key = Some d -> cs_dedupe s !! key' = Some d' ->
  (dd_bidID d = dd_bidID d' \/
   (dd_bidderName d = dd_bidderName d' /\ dd_bidIndex d = dd_bidIndex d')) -> key = key' /\ d = d'.
Proof using Hids.
  intros HC H1 H2 Heq.
  destruct (core_entry _ _ HC _ _ H1) as (_ & p & v & Hp & Hid & Hc & _).
  destruct (core_entry _ _ HC _ _ H2) as (_ & p' & v' & Hp' & Hid' & Hc' & _).
  assert (dd_bidderName d = dd_bidderName d' /\ dd_bidIndex d = dd_bidIndex d') as [Hn Hi].
  { destruct Heq as [Heq|]; [|done]. apply (Hids _ _ _ _ _ _ Hp Hp'). congruence. }
  rw Hn Hi Hp' in Hp. injection Hp as <-. rw Hn Hc' in Hc. injection Hc as -> _ Hpr.
  split; [done|]. congruence.
Qed.

(** Recording the bid at [(n, k)], whose key nobody holds. *)
Lemma core_record s seen n k p key v b :
  core seen s -> ~ seen n k -> seat_bids n !! k = Some p -> cat_of n p = inl (key, v, b) ->
  (forall d, cs_dedupe s !! key = Some d ->
     forall x, F64.ltb (bucket_price (dd_bidPrice d)) x = false -> F64.ltb (bucket_price b) x = false) ->
  let s' := cs_record (match cs_dedupe s !! key with
                       | Some d => cs_set_res s (delete (dd_bidID d) (cs_res s))
                       | None => s
                       end) key v (mkDedupe n k (id_of p) b) in
  core (fun m i => seen m i \/ (m = n /\ i = k)) s' /\
  (forall m i, alive s' m i <->
     (m = n /\ i = k) \/
     (alive s m i /\ forall d, cs_dedupe s !! key = Some d -> ~ (dd_bidderName d = m /\ dd_bidIndex d = i))).
Proof using Hids.
  intros HC Hns Hp Hc Hbest s'. set (new := mkDedupe n k (id_of p) b).
  assert (cs_dedupe s' = <[key := new]> (cs_dedupe s)) as Hd.
  { rw /s'. by destruct (cs_dedupe s !! key). }
  assert (forall i, cs_res s' !! i =
    if bool_decide (i = id_of p) then Some v
    else match cs_dedupe s !! key with
         | Some d => if bool_decide (i = dd_bidID d) then None else cs_res s !! i
         | None => cs_res s !! i
         end) as Hr.
  { intros i. rw /s' /=. case_bool_decide as Hi; [subst i; apply lookup_insert_eq|]. rw lookup_insert_ne //.
    destruct (cs_dedupe s !! key) as [d|]; [|done]. cbn. case_bool_decide as Hi'; [subst i; apply lookup_delete_eq|].
    by rw lookup_delete_ne. }
  split.
  - constructor.
    + intros key' d. rw Hd. destruct (decide (key' = key)) as [->|Hk].
      * rw lookup_insert_eq. intros [= <-]. split; [by right|]. exists p, v. split_and!; try done.
        by rw Hr bool_decide_eq_true_2.
      * rw lookup_insert_ne //. intros Hl. destruct (core_entry _ _ HC _ _ Hl) as (Hs & p' & v' & Hp' & Hid & Hc' & Hres).
        split; [by left|]. exists p', v'. split_and!; try done. rw Hr.
        rw bool_decide_eq_false_2.
        { intros He. rw -Hid in He. destruct (Hids _ _ _ _ _ _ Hp' Hp He) as [Hn Hi]. by rw Hn Hi in Hs. }
        destruct (cs_dedupe s !! key) as [d0|] eqn:E0; [|done]. rw bool_decide_eq_false_2 //.
        intros He. by destruct (entry_pos_inj _ _ _ _ _ _ HC Hl E0 (or_introl He)).
    + intros i v'. rw Hr Hd. case_bool_decide as Hi.
      * intros _. exists key, new. by rw lookup_insert_eq.
      * intros Hres. assert (cs_res s !! i = Some v' /\
          forall d, cs_dedupe s !! key = Some d -> i <> dd_bidID d) as [Hres' Hne].
        { destruct (cs_dedupe s !! key) as [d|]; [|by split]. case_bool_decide; [done|].
          split; [done|]. by intros ? [= <-]. }
        destruct (core_res _ _ HC _ _ Hres') as (key' & d & Hl & Hdi). exists key', d. split; [|done].
        rw lookup_insert_ne //. intros <-. by apply (Hne _ Hl).
    + intros m i q key' v' b' Hs Hq Hc'. rw Hd. destruct (decide (key' = key)) as [->|Hk].
      * rw lookup_insert_eq. exists new. split; [done|]. destruct Hs as [Hs|[-> ->]].
        -- destruct (core_best _ _ HC _ _ _ _ _ _ Hs Hq Hc') as (d & Hl & Hlt). by apply (Hbest d Hl).
        -- rw Hp in Hq. injection Hq as <-. rw Hc in Hc'. injection Hc' as <- <-. by apply ltb_irrefl.
      * rw lookup_insert_ne //. destruct Hs as [Hs|[-> ->]]; [by apply (core_best _ _ HC _ _ _ _ _ _ Hs Hq Hc')|].
        rw Hp in Hq. injection Hq as <-. rw Hc in Hc'. injection Hc' as -> _ _. done.
  - intros m i. rw /alive Hd. split.
    + intros (key' & d & Hl & Hm & Hi). destruct (decide (key' = key)) as [->|Hk].
      * rw lookup_insert_eq in Hl. injection Hl as <-. by left.
      * rw lookup_insert_ne // in Hl. right. split; [by exists key', d|]. intros d0 H0 [Hn0 Hi0].
        destruct (entry_pos_inj _ _ _ _ _ _ HC Hl H0) as [? _]; [right; by split; congruence|done].
    + intros [[-> ->]|[(key' & d & Hl & Hm & Hi) Hne]].
      * exists key, new. by rw lookup_insert_eq.
      * exists key', d. rw lookup_insert_ne; [|done]. intros <-. by apply (Hne _ Hl).
Qed.

Lemma core_same seen seen' s s' :
  cs_res s' = cs_res s -> cs_dedupe s' = cs_dedupe s -> (forall m i, seen m i <-> seen' m i) ->
  core seen s -> core seen' s'.
Proof using Type.
  intros Hr Hd Hs [H1 H2 H3]. constructor; rw ?Hr Hd.
  - intros key d Hl. destruct (H1 key d Hl) as [Hseen Hent]. split; [by apply Hs|].
    by rw /entry_ok Hr.
  - done.
  - intros n i p key v b Hn. apply H3. by apply Hs.
Qed.

Lemma alive_same s s' n i : cs_dedupe s' = cs_dedupe s -> alive s' n i <-> alive s n i.
Proof using Type. intros Hd. by rw /alive Hd. Qed.

(** The invariant of the loop over a seat: [done_names] are the finished
    seats, [todo] the ones still to come. *)
Definition seen_at (done_names : list string) (n : string) (k : nat) (m : string) (i : nat) : Prop :=
  m ∈ done_names \/ (m = n /\ i < k).
Record inv (done_names todo : list string) (n : string) (k : nat) (s : CatState) : Prop := mkInv {
  inv_core : core (seen_at done_names n k) s;
  inv_done : forall m, m ∈ done_names -> finished s m;
  inv_todo : forall m, m ∈ todo -> untouched s m;
  inv_cur : current s n k }.

Lemma alive_seen seen s m i : core seen s -> alive s m i -> seen m i.
Proof using Type. intros HC (key & d & Hl & <- & <-). by apply (core_entry _ _ HC _ _ Hl). Qed.

Section Step.
Context (done_names todo : list string) (n : string) (Hn : n ∉ done_names) (Hnt : n ∉ todo).
Context (Hdt : forall m, m ∈ todo -> m ∉ done_names).

Lemma not_seen_self k : ~ seen_at done_names n k n k.
Proof using Hn. intros [?|[_ ?]]; [done|lia]. Qed.

Lemma seen_at_S k m i : (seen_at done_names n k m i \/ (m = n /\ i = k)) <-> seen_at done_names n (S k) m i.
Proof using Type. rw /seen_at. split; [intros [[?|[? ?]]|[? ?]]|intros [?|[? ?]]]; auto with lia.
  destruct (decide (i = k)); [by right|]. left. right. split; [done|]. lia. Qed.

Lemma inv_reject k s p bidID reason :
  inv done_names todo n k s -> seat_bids n !! k = Some p ->
  (forall key v b, cat_of n p = inl (key, v, b) -> exists d, cs_dedupe s !! key = Some d /\
     F64.ltb (bucket_price (dd_bidPrice d)) (bucket_price b) = false) ->
  inv done_names todo n (S k) (cs_reject (cs_remove_index s k) bidID reason).
Proof using Hn.
  intros [HC HD HT (Hs & Hr & Hnd & HR)] Hp Hbest. constructor; [|exact HD|exact HT|].
  - destruct HC as [H1 H2 H3]. constructor.
    + intros key d Hl. destruct (H1 key d Hl) as [Hseen He]. split; [|exact He]. apply seen_at_S. by left.
    + exact H2.
    + intros m i q key v b Hseen Hq Hc. apply seen_at_S in Hseen as [Hseen|[-> ->]]; [by eapply H3|].
      rw Hp in Hq. injection Hq as <-. by eapply Hbest.
  - assert (~ alive s n k) as Hk by (intros Ha%(alive_seen _ _ _ _ HC); by apply not_seen_self in Ha).
    split; [exact Hs|]. split; [exact Hr|]. cbn [cs_reject cs_remove_index cs_bidsToRemove]. split.
    + apply list.NoDup_app. split; [done|]. split; [|apply NoDup_singleton].
      intros i [Hi _]%HR Hik. apply list_elem_of_singleton in Hik. lia.
    + intros i. rw elem_of_app list_elem_of_singleton HR.
      change (alive (cs_reject _ _ _) n i) with (alive s n i).
      split; [intros [[? ?]| ->]; split; auto; lia|]. intros [Hi Ha].
      destruct (decide (i = k)); [by right|]. left. split; [lia|done].
Qed.

(** The bid at [(n, k)] has a key that nobody holds. *)
Lemma inv_fresh k s p key v b :
  inv done_names todo n k s -> seat_bids n !! k = Some p -> cat_of n p = inl (key, v, b) ->
  cs_dedupe s !! key = None ->
  inv done_names todo n (S k) (cs_record s key v (mkDedupe n k (id_of p) b)).
Proof using Hids Hn Hnt Hdt.
  intros [HC HD HT (Hs & Hr & Hnd & HR)] Hp Hc Hnone.
  destruct (core_record _ _ n k p key v b HC (not_seen_self k) Hp Hc) as [HC' HA].
  { by rw Hnone. }
  rw Hnone in HC'. rw Hnone in HA. set (s' := cs_record s key v _) in *.
  assert (forall m i, alive s' m i <-> (m = n /\ i = k) \/ alive s m i) as HA'.
  { intros m i. rw HA. split; [intros [?|[? _]]; auto|intros [?|?]; [auto|right; split; [done|by intros]]]. }
  assert (~ alive s n k) as Hk by (intros Ha%(alive_seen _ _ _ _ HC); by apply not_seen_self in Ha).
  constructor.
  - eapply core_same; [..|exact HC']; [done|done|]. apply seen_at_S.
  - intros m Hm. destruct (HD m Hm) as (seat0 & bids & H1 & H2 & H3 & H4). exists seat0, bids.
    split; [done|]. split; [done|]. split; [done|]. assert (m <> n) by (by intros ->).
    cbn [s' cs_record cs_seatBidsToRemove]. case_bool_decide.
    + intros i [[? _]|Ha]%HA'; [done|by apply (H4 i)].
    + intros i q Hq. rw (H4 i q Hq) HA'. split; [by right|by intros [[? _]|?]].
  - exact HT.
  - split; [exact Hs|]. split; [exact Hr|]. split; [exact Hnd|]. intros i. cbn [s' cs_record cs_bidsToRemove].
    rw HR HA'. split.
    + intros [Hi Ha]. split; [lia|]. intros [[_ ->]|?]; [lia|done].
    + intros [Hi Ha]. split; [|intros ?; apply Ha; by right]. assert (i <> k) by (intros ->; apply Ha; by left). lia.
Qed.

(** What a finished seat [m] looks like once its bid at index [i0] lost. *)
Definition finished_without (s s1 : CatState) (m : string) (i0 : nat) : Prop :=
  exists seat0 bids, orig !! m = Some seat0 /\ cs_seats s1 !! m = Some (sb_set_bids seat0 bids) /\
    bids `sublist_of` sb_bids seat0 /\
    if bool_decide (m ∈ cs_seatBidsToRemove s1) then forall i, alive s m i -> i = i0
    else forall i p, seat_bids m !! i = Some p -> (p ∈ bids <-> alive s m i /\ i <> i0).

Lemma sb_set_bids_twice seat l l' : sb_set_bids (sb_set_bids seat l) l' = sb_set_bids seat l'.
Proof using Type. by destruct seat. Qed.
Lemma sb_bids_set seat l : sb_bids (sb_set_bids seat l) = l.
Proof using Type. by destruct seat. Qed.

Lemma drop_older_ok k s key dupe :
  inv done_names todo n k s -> cs_dedupe s !! key = Some dupe ->
  exists s1, drop_older st s n dupe = Some s1 /\ cs_res s1 = cs_res s /\ cs_dedupe s1 = cs_dedupe s /\
    cs_bidsToRemove s1 = cs_bidsToRemove s ++ (if bool_decide (dd_bidderName dupe = n) then [dd_bidIndex dupe] else []) /\
    (forall m, m <> dd_bidderName dupe \/ dd_bidderName dupe = n ->
       cs_seats s1 !! m = cs_seats s !! m /\ (m ∈ cs_seatBidsToRemove s1 <-> m ∈ cs_seatBidsToRemove s)) /\
    (dd_bidderName dupe <> n -> finished_without s s1 (dd_bidderName dupe) (dd_bidIndex dupe)).
Proof using Hok Hids Hn.
  intros [HC HD HT _] Hl. rw /drop_older.
  destruct (eqb_spec (dd_bidderName dupe) n) as [He|Hne].
  { eexists. split; [done|]. rw bool_decide_eq_true_2 //. }
  rw (bool_decide_eq_false_2 _ Hne). destruct (core_entry _ _ HC _ _ Hl) as (Hseen & p & v & Hp & Hid & Hc & Hres).
  set (m0 := dd_bidderName dupe) in *. set (i0 := dd_bidIndex dupe) in *.
  assert (m0 ∈ done_names) as Hm by (destruct Hseen as [|[? _]]; done).
  assert (alive s m0 i0) as Ha by by exists key, dupe.
  destruct (HD m0 Hm) as (seat0 & bids & Ho & Hs & Hsub & Hin).
  case_bool_decide as Hrem; [by destruct (Hin i0)|].
  cbn [cs_reject cs_seats]. rw Hs sb_bids_set.
  assert (sb_bids seat0 = seat_bids m0) as Hsb by by rw /seat_bids Ho.
  assert (p ∈ bids) as Hpb by by apply (Hin i0 p Hp).
  assert (forall q, q ∈ bids -> q ∈ seat_bids m0) as Hbs
    by (intros q Hq; rw -Hsb; by eapply sublist_elem).
  case_bool_decide as Hlen.
  - eexists. split; [done|]. split; [done|]. split; [done|]. split; [by rw app_nil_r|]. split.
    + intros m [Hm'|]; [|done]. split; [done|]. cbn [cs_remove_seat cs_reject cs_seatBidsToRemove].
      rw elem_of_app list_elem_of_singleton. split; [by intros [|]|by left].
    + intros _. exists seat0, bids. split; [done|]. split; [exact Hs|]. split; [done|].
      cbn [cs_remove_seat cs_reject cs_seatBidsToRemove]. rw bool_decide_eq_true_2.
      { apply elem_of_app. right. by apply list_elem_of_singleton. }
      intros i Hi. destruct bids as [|q [|]]; try done. apply list_elem_of_singleton in Hpb. subst q.
      destruct Hi as (key' & d' & Hl' & Hn' & <-).
      destruct (core_entry _ _ HC _ _ Hl') as (_ & q & v' & Hq & _). rw Hn' in Hq.
      assert (q ∈ [p]) as Hqp by (apply (Hin _ _ Hq); by exists key', d').
      apply list_elem_of_singleton in Hqp. subst q. by destruct (Hids _ _ _ _ _ _ Hq Hp eq_refl).
  - rw /removeBidById sb_bids_set -Hid.
    destruct (find_bid_index_spec st bids p Hpb) as (j & Hj & Hpj).
    { intros q Hq. by eapply Hok, Hbs. }
    { intros q Hq Heq. apply Hbs, list_elem_of_lookup in Hq as [x Hx].
      destruct (Hids _ _ _ _ _ _ Hx Hp Heq) as [_ ->]. congruence. }
    rw /id_of Hj. eexists. split; [done|]. split; [done|]. split; [done|]. split; [by rw app_nil_r|]. split.
    + intros m [Hm'|]; [|done]. cbn [cs_put_seat cs_reject cs_seats cs_seatBidsToRemove].
      by rw lookup_insert_ne.
    + intros _. exists seat0, (remove_index bids j). cbn [cs_put_seat cs_reject cs_seats cs_seatBidsToRemove].
      rw lookup_insert_eq sb_set_bids_twice. split; [done|]. split; [done|].
      split; [etrans; [apply remove_index_sublist|done]|]. rw (bool_decide_eq_false_2 _ Hrem).
      intros i q Hq. rw (remove_index_elem bids j p q); [|done|].
      { eapply sublist_NoDup; [|exact Hsub]. rw Hsb. by apply seat_nodup. }
      rw (Hin i q Hq). split; intros [H1 H2]; (split; [done|]).
      * intros ->. congruence.
      * intros ->. by destruct (Hids _ _ _ _ _ _ Hq Hp eq_refl).
Qed.

(** The bid at [(n, k)] beats the holder of its key. *)
Lemma inv_replace k s p key v b dupe :
  inv done_names todo n k s -> seat_bids n !! k = Some p -> cat_of n p = inl (key, v, b) ->
  cs_dedupe s !! key = Some dupe ->
  (forall x, F64.ltb (bucket_price (dd_bidPrice dupe)) x = false -> F64.ltb (bucket_price b) x = false) ->
  exists s1, drop_older st s n dupe = Some s1 /\
    inv done_names todo n (S k)
      (cs_record (cs_set_res s1 (delete (dd_bidID dupe) (cs_res s1))) key v (mkDedupe n k (id_of p) b)).
Proof using Hok Hids Hn Hnt Hdt.
  intros Hinv Hp Hc Hl Hbest.
  destruct (drop_older_ok k s key dupe Hinv Hl) as (s1 & Hdrop & Hr1 & Hd1 & HR1 & Hsame & Hother).
  exists s1. split; [done|]. destruct Hinv as [HC HD HT (Hs & Hr & Hnd & HR)].
  destruct (core_record _ _ n k p key v b HC (not_seen_self k) Hp Hc) as [HC' HA].
  { intros d Hd. rw Hl in Hd. by injection Hd as <-. }
  rw Hl in HC'. rw Hl in HA. set (s2 := cs_record (cs_set_res s _) _ _ _) in *.
  set (s' := cs_record (cs_set_res s1 _) _ _ _).
  assert (cs_dedupe s' = cs_dedupe s2 /\ cs_res s' = cs_res s2) as [Hd' Hr']
    by (rw /s' /s2 /= Hd1 Hr1; done).
  assert (forall m i, alive s' m i <-> (m = n /\ i = k) \/
    (alive s m i /\ ~ (dd_bidderName dupe = m /\ dd_bidIndex dupe = i))) as HA'.
  { intros m i. rw (alive_same _ _ _ _ Hd') HA. split; (intros [?|[Ha Hne]]; [by left|right; split; [done|]]).
    - by apply Hne.
    - by intros d [= <-]. }
  destruct (core_entry _ _ HC _ _ Hl) as (Hdseen & _).
  assert (~ alive s n k) as Hk by (intros Ha%(alive_seen _ _ _ _ HC); by apply not_seen_self in Ha).
  assert (forall m, cs_seats s' !! m = cs_seats s1 !! m /\ cs_seatBidsToRemove s' = cs_seatBidsToRemove s1) as Hs1 by done.
  constructor.
  - eapply core_same; [done|done|apply seen_at_S|exact HC'].
  - intros m Hm. assert (m <> n) by (by intros ->).
    destruct (decide (m = dd_bidderName dupe)) as [->|Hmd].
    + destruct Hother as (seat0 & bids & H1 & H2 & H3 & H4); [done|]. exists seat0, bids.
      split; [done|]. split; [done|]. split; [done|]. change (cs_seatBidsToRemove s') with (cs_seatBidsToRemove s1).
      case_bool_decide.
      * intros i [[? _]|[Ha Hne]]%HA'; [done|]. apply Hne. split; [done|]. by rw (H4 i Ha).
      * intros i q Hq. rw (H4 i q Hq) HA'. split; [intros [Ha Hi]|intros [[? _]|[Ha Hi]]]; try done.
        -- right. split; [done|]. by intros [_ ?].
        -- split; [done|]. intros ->. by apply Hi.
    + destruct (HD m Hm) as (seat0 & bids & H1 & H2 & H3 & H4). destruct (Hsame m (or_introl Hmd)) as [He Hrm].
      exists seat0, bids. split; [done|]. split; [by rw (proj1 (Hs1 m)) He|]. split; [done|].
      change (cs_seatBidsToRemove s') with (cs_seatBidsToRemove s1). rw (bool_decide_ext _ _ Hrm).
      assert (forall i, alive s' m i <-> alive s m i) as Ham.
      { intros i. rw HA'. split; [by intros [[? _]|[? _]]|]. intros Ha. right. split; [done|]. by intros [? _]. }
      case_bool_decide; [intros i; rw Ham; apply H4|]. intros i q Hq. rw Ham. by apply H4.
  - intros m Hm. assert (m <> n) by (by intros ->).
    assert (m <> dd_bidderName dupe \/ dd_bidderName dupe = n) as Hor.
    { destruct Hdseen as [Hin|[? _]]; [left; intros ->; by apply (Hdt _ Hm)|by right]. }
    destruct (Hsame m Hor) as [He Hrm]. destruct (HT m Hm) as [H1 H2]. split; [by rw (proj1 (Hs1 m)) He|].
    change (cs_seatBidsToRemove s') with (cs_seatBidsToRemove s1). by rw Hrm.
  - assert (n <> dd_bidderName dupe \/ dd_bidderName dupe = n) as Hor
      by (destruct (decide (dd_bidderName dupe = n)); [by right|left; congruence]).
    destruct (Hsame n Hor) as [He Hrm]. split; [by rw (proj1 (Hs1 n)) He|].
    change (cs_seatBidsToRemove s') with (cs_seatBidsToRemove s1). split; [by rw Hrm|].
    change (cs_bidsToRemove s') with (cs_bidsToRemove s1). rw HR1.
    assert (alive s (dd_bidderName dupe) (dd_bidIndex dupe)) as Hda by by exists key, dupe.
    case_bool_decide as Hown.
    + rw Hown in Hda. split.
      * apply list.NoDup_app. split; [done|]. split; [|apply NoDup_singleton].
        intros i [_ Hi]%HR Hik. apply list_elem_of_singleton in Hik. by subst i.
      * intros i. rw elem_of_app list_elem_of_singleton HR HA' Hown. split.
        -- intros [[Hi Ha]| ->]; [split; [lia|]; by intros [[_ ->]|[? _]]; [lia|]|].
           pose proof (alive_seen _ _ _ _ HC Hda) as [|[_ Hlt]]; [done|]. split; [lia|].
           intros [[_ He']|[_ Hne]]; [lia|by apply Hne].
        -- intros [Hi Ha]. destruct (decide (i = dd_bidIndex dupe)) as [->|Hne]; [by right|]. left.
           assert (i <> k) by (intros ->; apply Ha; by left). split; [lia|]. intros Has. apply Ha. right.
           split; [done|]. intros [_ ?]. congruence.
    + rw app_nil_r. split; [done|]. intros i. rw HR HA'. split.
      * intros [Hi Ha]. split; [lia|]. intros [[_ ->]|[? _]]; [lia|done].
      * intros [Hi Ha]. assert (i <> k) by (intros ->; apply Ha; by left). split; [lia|]. intros Has. apply Ha.
        right. split; [done|]. by intros [? _].
Qed.

Lemma inv_draws k s d : inv done_names todo n k s -> inv done_names todo n k (cs_set_draws s d).
Proof using Type. intros [[H1 H2 H3] HD HT HC]. by constructor. Qed.

Lemma category_step_ok k s p :
  inv done_names todo n k s -> seat_bids n !! k = Some p ->
  exists s', category_step FetchCategories generate cc st n s (k, p) = Some s' /\ inv done_names todo n (S k) s'.
Proof using Hok Hids Hn Hnt Hdt.
  intros Hinv Hp. rw /category_step.
  destruct (Hok n p ltac:(by eapply list_elem_of_lookup_2)) as [[pb b] Hd]. rw Hd.
  assert (bid_ID b = id_of p) as Hid by by rw /id_of /the_bid /bid_at Hd. rw Hid.
  assert (cat_of n p = categorize FetchCategories cc n pb b) as Hc by by rw /cat_of Hd.
  destruct (categorize FetchCategories cc n pb b) as [[[key v] bucket]|reason].
  2: { eexists. split; [done|]. eapply inv_reject; [done|done|]. intros ???. by rw Hc. }
  destruct (cs_dedupe s !! key) as [dupe|] eqn:Hl.
  2: { eexists. split; [done|]. by apply inv_fresh. }
  pose proof (newer_wins_spec generate (dd_bidPrice dupe) bucket (cs_draws s)) as Hw.
  destruct (newer_wins generate (dd_bidPrice dupe) bucket (cs_draws s)) as [[] draws].
  - destruct (inv_replace k (cs_set_draws s draws) p key v bucket dupe) as (s1 & -> & Hinv'); try done.
    + by apply inv_draws.
    + eexists. by split.
  - eexists. split; [done|]. eapply inv_reject; [by apply inv_draws|done|].
    intros key' v' b' Hc'. rw Hc' in Hc. injection Hc as -> -> ->. exists dupe. by split.
Qed.

Lemma category_fold_ok l k s :
  inv done_names todo n k s -> (forall i p, l !! i = Some p -> seat_bids n !! (k + i) = Some p) ->
  exists s', foldM (category_step FetchCategories generate cc st n) (imap (fun i p => (k + i, p)) l) s = Some s' /\
    inv done_names todo n (k + length l) s'.
Proof using Hok Hids Hn Hnt Hdt.
  revert k s. induction l as [|p l IH]; intros k s Hinv Hl.
  - exists s. split; [done|]. by rw /= Nat.add_0_r.
  - rw imap_cons. cbn [foldM length]. destruct (category_step_ok k s p Hinv) as (s1 & Hs1 & Hinv1).
    { rw -(Nat.add_0_r k). by apply (Hl 0). }
    rw Nat.add_0_r Hs1. destruct (IH (S k) s1 Hinv1) as (s2 & Hs2 & Hinv2).
    { intros i q Hq. rw -(Hl (S i) q Hq). f_equal. lia. }
    exists s2. rw (imap_ext _ (fun i p => (S k + i, p))).
    { intros i x _. cbn. f_equal. lia. }
    split; [done|]. by rw Nat.add_succ_r.
Qed.

Lemma finish_seat_ok s seat0 :
  orig !! n = Some seat0 -> inv done_names todo n (length (seat_bids n)) s ->
  let s' := finish_seat n seat0 s in
  cs_res s' = cs_res s /\ cs_dedupe s' = cs_dedupe s /\
  core (fun m _ => m ∈ n :: done_names) s' /\
  (forall m, m ∈ n :: done_names -> finished s' m) /\ (forall m, m ∈ todo -> untouched s' m).
Proof using Hok Hids Hn Hnt Hdt.
  intros Ho [HC HD HT (Hs & Hr & Hnd & HR)] s'.
  assert (sb_bids seat0 = seat_bids n) as Hsb by by rw /seat_bids Ho.
  assert (cs_res s' = cs_res s /\ cs_dedupe s' = cs_dedupe s) as [Hr' Hd'].
  { rw /s' /finish_seat. destruct (cs_bidsToRemove s); [done|]. by case_bool_decide. }
  assert (alive s' = alive s) as Hal by (rw /alive Hd'; done).
  assert (forall m, m <> n -> cs_seats s' !! m = cs_seats s !! m /\
    (m ∈ cs_seatBidsToRemove s' <-> m ∈ cs_seatBidsToRemove s)) as Hother.
  { intros m Hm. rw /s' /finish_seat. destruct (cs_bidsToRemove s); [done|]. case_bool_decide.
    - split; [done|]. cbn. rw elem_of_app list_elem_of_singleton. split; [by intros [|]|by left].
    - cbn. by rw lookup_insert_ne. }
  assert (forall i, i < length (seat_bids n) \/ ~ alive s n i) as Hrange.
  { intros i. destruct (decide (i < length (seat_bids n))); [by left|right].
    intros (key & d & Hl & <- & <-). destruct (core_entry _ _ HC _ _ Hl) as (_ & p & v & Hp & _).
    by apply lookup_lt_Some in Hp. }
  split; [done|]. split; [done|]. split; [|split].
  - destruct HC as [H1 H2 H3]. constructor; rw ?Hr' ?Hd'.
    + intros key d Hl. destruct (H1 key d Hl) as [Hseen He]. split; [|by rw /entry_ok Hr'].
      destruct Hseen as [?|[-> _]]; [by right|by left].
    + done.
    + intros m i p key v b Hm Hp. apply (H3 m i p key v b); [|done]. apply elem_of_cons in Hm as [->|Hm]; [|by left].
      right. split; [done|]. by apply lookup_lt_Some in Hp.
  - intros m Hm. apply elem_of_cons in Hm as [->|Hm].
    + rw /finished. exists seat0. rw Hal /s' /finish_seat.
      destruct (cs_bidsToRemove s) as [|r0 R0] eqn:ER.
      * exists (sb_bids seat0). split; [done|]. split; [rw Hs Ho; by destruct seat0|]. split; [done|].
        rw (bool_decide_eq_false_2 _ Hr). intros i p Hp. rw Hsb. split; [|intros _; by eapply list_elem_of_lookup_2].
        intros _. apply lookup_lt_Some in Hp. apply dec_stable. intros Ha.
        assert (i ∈ []) as Hi by by apply HR. by apply elem_of_nil in Hi.
      * rw -ER. rw -ER in Hnd HR. clear ER r0 R0. rw Hsb. case_bool_decide as Hlen.
        -- exists (sb_bids seat0). split; [done|]. split; [cbn; rw Hs Ho; by destruct seat0|]. split; [by rw Hsb|].
           cbn [cs_remove_seat cs_seatBidsToRemove]. rw bool_decide_eq_true_2.
           { apply elem_of_app. right. by apply list_elem_of_singleton. }
           intros i Ha. destruct (Hrange i) as [Hi|?]; [|done].
           assert (i ∈ cs_bidsToRemove s) as Hin; [|by apply HR in Hin as [_ ?]].
           assert (cs_bidsToRemove s ≡ₚ seq 0 (length (seat_bids n))) as ->; [|apply elem_of_seq; lia].
           apply submseteq_length_Permutation.
           ++ apply NoDup_submseteq; [done|]. intros j [Hj _]%HR. apply elem_of_seq. lia.
           ++ rw length_seq Hlen //.
        -- exists (remove_indices (sb_bids seat0) (cs_bidsToRemove s)). rw -Hsb.
           destruct (remove_indices_spec (sb_bids seat0) (cs_bidsToRemove s)) as [Hsub Hel]; [rw Hsb; by apply seat_nodup|done| |].
           { apply list.Forall_forall. intros i Hi. rw Hsb. by apply HR. }
           cbn [cs_put_seat cs_seats cs_seatBidsToRemove]. rw lookup_insert_eq.
           split; [done|]. split; [done|]. split; [done|]. rw (bool_decide_eq_false_2 _ Hr).
           intros i p Hp. rw Hsb in Hp. rw Hel Hsb. split.
           ++ intros [_ Hall]. apply dec_stable. intros Ha.
              apply (Hall i); [apply HR; split; [by apply lookup_lt_Some in Hp|done]|done].
           ++ intros Ha. split; [by eapply list_elem_of_lookup_2|]. intros j [_ Hj]%HR Hpj.
              by destruct (Hids _ _ _ _ _ _ Hp Hpj eq_refl) as [_ ->].
    + assert (m <> n) as Hne by (by intros ->). destruct (HD m Hm) as (seat1 & bids & H1 & H2 & H3 & H4).
      destruct (Hother m Hne) as [He Hrm]. exists seat1, bids. split; [done|]. split; [by rw He|]. split; [done|].
      by rw (bool_decide_ext _ _ Hrm) Hal.
  - intros m Hm. assert (m <> n) as Hne by (by intros ->). destruct (HT m Hm) as [H1 H2].
    destruct (Hother m Hne) as [He Hrm]. split; [by rw He|by rw Hrm].
Qed.
End Step.

Definition loop_inv (done_names todo : list string) (s : CatState) : Prop :=
  core (fun m _ => m ∈ done_names) s /\ (forall m, m ∈ done_names -> finished s m) /\
  (forall m, m ∈ todo -> untouched s m).

Lemma seat_step_ok done_names todo n s :
  NoDup (done_names ++ n :: todo) -> is_Some (orig !! n) -> loop_inv done_names (n :: todo) s ->
  exists s', seat_step FetchCategories generate cc st s n = Some s' /\ loop_inv (n :: done_names) todo s'.
Proof using Hok Hids.
  intros Hnd [seat0 Ho] (HC & HD & HT). apply list.NoDup_app in Hnd as (_ & Hdt & Hnd).
  apply list.NoDup_cons in Hnd as [Hnt _].
  assert (n ∉ done_names) as Hn by (intros Hin; apply (Hdt n Hin); by left).
  assert (forall m, m ∈ todo -> m ∉ done_names) as Htd by (intros m Hm Hin; apply (Hdt m Hin); by right).
  destruct (HT n ltac:(by left)) as [Hs Hr]. rw /seat_step Hs Ho.
  assert (sb_bids seat0 = seat_bids n) as Hsb by by rw /seat_bids Ho.
  assert (inv done_names todo n 0 (cs_reset_bids s)) as Hinv.
  { constructor.
    - eapply core_same; [..|exact HC]; [done|done|]. intros m i. split; [by left|by intros [|[_ ?]]; [|lia]].
    - exact HD.
    - intros m Hm. apply HT. by right.
    - split; [exact Hs|]. split; [exact Hr|]. split; [constructor|]. intros i. cbn [cs_reset_bids cs_bidsToRemove].
      split; [by intros ?%elem_of_nil|]. intros [? _]. lia. }
  destruct (category_fold_ok done_names todo n Hn Hnt Htd (sb_bids seat0) 0 (cs_reset_bids s) Hinv) as (s1 & Hs1 & Hinv1).
  { intros i p. by rw Hsb. }
  change (imap pair (sb_bids seat0)) with (imap (fun i p => (0 + i, p)) (sb_bids seat0)). rw Hs1.
  eexists. split; [done|]. rw Nat.add_0_l Hsb in Hinv1.
  destruct (finish_seat_ok done_names todo n Hn Hnt Htd s1 seat0 Ho Hinv1) as (_ & _ & ?). done.
Qed.

Lemma seat_loop_ok todo done_names s :
  NoDup (done_names ++ todo) -> (forall n, n ∈ todo -> is_Some (orig !! n)) -> loop_inv done_names todo s ->
  exists s', foldM (seat_step FetchCategories generate cc st) todo s = Some s' /\ loop_inv (rev todo ++ done_names) [] s'.
Proof using Hok Hids.
  revert done_names s. induction todo as [|n todo IH]; intros done_names s Hnd Hdom Hinv; [by exists s|].
  cbn [foldM]. destruct (seat_step_ok done_names todo n s Hnd) as (s1 & -> & Hinv1); [apply Hdom; by left|done|].
  destruct (IH (n :: done_names) s1) as (s2 & Hs2 & Hinv2); [|intros; apply Hdom; by right|done|].
  - rw /= Permutation_middle. done.
  - exists s2. split; [done|]. by rw /= -app_assoc.
Qed.

Lemma category_loop_ok order :
  order ≡ₚ (map_to_list orig).*1 ->
  exists s, category_loop FetchCategories generate cc st order orig = Some s /\
    core (fun _ _ => True) s /\ (forall n, is_Some (orig !! n) -> finished s n).
Proof using Hok Hids.
  intros Hord. assert (NoDup order) as Hnd by (rw Hord; apply NoDup_fst_map_to_list).
  assert (forall n, n ∈ order <-> is_Some (orig !! n)) as Hdom.
  { intros n. rw Hord list_elem_of_fmap. split.
    - intros ([m x] & -> & Hin%elem_of_map_to_list). by exists x.
    - intros [x Hx]. exists (n, x). split; [done|]. by apply elem_of_map_to_list. }
  destruct (seat_loop_ok order [] (mkCat ∅ ∅ [] orig [] [] 0)) as (s & Hs & HC & HD & _); [done|by intros; apply Hdom| |].
  { split; [|split].
    - constructor.
      + intros ?? Hl. cbn in Hl. by rw lookup_empty in Hl.
      + intros ?? Hl. cbn in Hl. by rw lookup_empty in Hl.
      + by intros ?????? Hl%elem_of_nil.
    - by intros m Hm%elem_of_nil.
    - intros m _. split; [done|apply not_elem_of_nil]. }
  exists s. split; [done|]. rw app_nil_r in HC, HD. split.
  - destruct HC as [H1 H2 H3]. constructor; [|done|].
    + intros key d Hl. destruct (H1 key d Hl). by split.
    + intros n i p key v b _ Hp. apply (H3 n i p key v b); [|done].
      apply list_elem_of_In, in_rev. rw rev_involutive. apply list_elem_of_In, Hdom.
      rw /seat_bids in Hp. destruct (orig !! n); [by eexists|by rw lookup_nil in Hp].
  - intros n Hn. apply HD. apply list_elem_of_In, in_rev. rw rev_involutive. by apply list_elem_of_In, Hdom.
Qed.

(** A bid is in the final seats exactly when it is in the running. *)
Definition survivor (seats : gmap string pbsOrtbSeatBid) (n : string) (p : loc) : Prop :=
  exists seat, seats !! n = Some seat /\ p ∈ sb_bids seat.

Lemma clear_seats_lookup names (seats : gmap string pbsOrtbSeatBid) n :
  fold_left clear_seat names seats !! n =
  if bool_decide (n ∈ names) then (fun s => sb_set_bids s []) <$> seats !! n else seats !! n.
Proof using Type.
  revert seats. induction names as [|m names IH]; intros seats; cbn [fold_left].
  { rw (bool_decide_eq_false_2 (n ∈ [])) //. apply not_elem_of_nil. }
  rw IH /clear_seat. destruct (decide (n = m)) as [->|Hne].
  - rw lookup_alter_eq (bool_decide_eq_true_2 (m ∈ m :: names)); [by left|].
    case_bool_decide; [|done]. destruct (seats !! m) as [x|]; [|done]. simpl. by destruct x.
  - rw lookup_alter_ne //. rw (bool_decide_ext (n ∈ m :: names) (n ∈ names)) //.
    rw elem_of_cons. by split; [intros [|]|right].
Qed.

Lemma final_seats s n seat0 :
  orig !! n = Some seat0 -> finished s n ->
  let f := fold_left clear_seat (cs_seatBidsToRemove s) (cs_seats s) in
  (exists bids, f !! n = Some (sb_set_bids seat0 bids) /\ bids `sublist_of` sb_bids seat0) /\
  (forall p, survivor f n p <-> exists i, seat_bids n !! i = Some p /\ alive s n i).
Proof using Type.
  intros Ho (seat1 & bids & Ho' & Hs & Hsub & Hal). rw Ho in Ho'. injection Ho' as <-. intros f.
  assert (f !! n = Some (sb_set_bids seat0 (if bool_decide (n ∈ cs_seatBidsToRemove s) then [] else bids))) as Hf.
  { rw /f clear_seats_lookup Hs. case_bool_decide; [|done]. simpl. by destruct seat0. }
  split. { eexists. split; [exact Hf|]. case_bool_decide; [apply sublist_nil_l|done]. }
  intros p. rw /survivor Hf. case_bool_decide.
  - split; [|intros (i & _ & Ha); by apply Hal in Ha]. intros (x & [= <-] & Hp). destruct seat0. by apply elem_of_nil in Hp.
  - split.
    + intros (x & [= <-] & Hp). assert (p ∈ bids) as Hpb by by destruct seat0.
      assert (p ∈ seat_bids n) as Hin by (rw /seat_bids Ho; by eapply sublist_elem).
      apply list_elem_of_lookup in Hin as [i Hi]. exists i. split; [done|]. by apply (Hal i p Hi).
    + intros (i & Hi & Ha). eexists. split; [done|]. assert (p ∈ bids) by by apply (Hal i p Hi). by destruct seat0.
Qed.
End Dedup.

(** No seat is added. *)
Lemma category_loop_dom FC gen cc st order seats s n :
  category_loop FC gen cc st order seats = Some s -> seats !! n = None -> cs_seats s !! n = None.
Proof.
  intros Hrun Hn. revert Hrun. rw /category_loop.
  set (P := fun s : CatState => cs_seats s !! n = None).
  assert (forall (s : CatState) m x y, P s -> cs_seats s !! m = Some x -> (<[m := y]> (cs_seats s)) !! n = None) as Hput.
  { intros s0 m x y Hs Hm. rw lookup_insert_ne //. intros ->. rw /P Hm in Hs. done. }
  apply (foldM_inv _ P); [exact Hn|]. intros s0 m s1 _ Hs0. rw /seat_step.
  destruct (cs_seats s0 !! m) as [seat|] eqn:Em; [|done].
  destruct (foldM _ _ _) as [s2|] eqn:E2; [|done]. intros [= <-].
  assert (P s2) as Hs2.
  { revert E2. apply (foldM_inv _ P); [exact Hs0|]. intros s3 [i p] s4 _ Hs3. rw /category_step.
    destruct (deref st p) as [[pb b]|]; [|done].
    destruct (categorize FC cc m pb b) as [[[key v] bk]|]; [|by intros [= <-]].
    destruct (cs_dedupe s3 !! key) as [d|]; [|by intros [= <-]].
    destruct (newer_wins gen (dd_bidPrice d) bk (cs_draws s3)) as [[] dr]; [|by intros [= <-]].
    destruct (drop_older st (cs_set_draws s3 dr) m d) as [s5|] eqn:E5; [|done]. intros [= <-].
    change (P s5). revert E5. rw /drop_older. case_match; [by intros [= <-]|]. cbn [cs_reject cs_set_draws cs_seats].
    destruct (cs_seats s3 !! dd_bidderName d) as [old|] eqn:Eo; [|done]. case_match; [by intros [= <-]|].
    case_match; [|done]. intros [= <-]. by eapply Hput. }
  rw /finish_seat. destruct (cs_bidsToRemove s2); [done|]. case_match; [done|].
  rw /P /=. rw lookup_insert_ne //. intros ->. rw /P Em in Hs0. done.
Qed.

(** C14: competitive exclusion is right.  When bid ids are unique the mapping
    never panics; it fails only on an unknown ad server; and otherwise, in
    every order of the seats and for every outcome of the tie breaker: each
    seat keeps a sublist of its bids; every bid that is kept has a category
    and is listed with the targeting value computed for it, and nothing else
    is listed; no two bids that are kept share a dedupe key; and no category
    is lost: for every bid that has a key some bid with that key is kept, and
    its price bucket is not below. *)
Theorem category_mapping_correct FC gen st targeting brand order seats td
    (Hok : forall n seat p, seats !! n = Some seat -> p ∈ sb_bids seat -> is_Some (deref st p))
    (Hids : forall n m i j p q, seat_bids seats n !! i = Some p -> seat_bids seats m !! j = Some q ->
              id_of st p = id_of st q -> n = m /\ i = j)
    (Hord : order ≡ₚ (map_to_list seats).*1) :
  match applyCategoryMapping FC gen st targeting brand order seats td with
  | None => False
  | Some (inr _) => bc_WithCategory brand = true /\ bc_PrimaryAdServer brand <> 1%Z /\ bc_PrimaryAdServer brand <> 2%Z
  | Some (inl (res, f, _)) =>
      forall cc, cat_config targeting brand td = inl cc ->
      (forall n seat0, seats !! n = Some seat0 ->
         exists bids, f !! n = Some (sb_set_bids seat0 bids) /\ bids `sublist_of` sb_bids seat0) /\
      (forall n p, survivor f n p ->
         exists key v b, cat_of FC cc st n p = inl (key, v, b) /\ res !! id_of st p = Some v) /\
      (forall i v, res !! i = Some v -> exists n p, survivor f n p /\ id_of st p = i) /\
      (forall n m p q key v b v' b', survivor f n p -> survivor f m q ->
         cat_of FC cc st n p = inl (key, v, b) -> cat_of FC cc st m q = inl (key, v', b') -> n = m /\ p = q) /\
      (forall m q key v b, q ∈ seat_bids seats m -> cat_of FC cc st m q = inl (key, v, b) ->
         exists n p v' b', survivor f n p /\ cat_of FC cc st n p = inl (key, v', b') /\
           F64.ltb (bucket_price b') (bucket_price b) = false)
  end.
Proof.
  rw /applyCategoryMapping. destruct (cat_config targeting brand td) as [cc|err] eqn:Ecc.
  2: { rw /cat_config /getPrimaryAdServer in Ecc. destruct (bc_WithCategory brand); [|done]. split; [done|].
       destruct (default true _); [|done]. cbn [andb] in Ecc.
       destruct (bc_PrimaryAdServer brand =? 1)%Z eqn:E1; [done|].
       destruct (bc_PrimaryAdServer brand =? 2)%Z eqn:E2; [done|]. lia. }
  assert (forall n p, p ∈ seat_bids seats n -> is_Some (deref st p)) as Hok'.
  { intros n p. rw /seat_bids. destruct (seats !! n) eqn:E; [by eapply Hok|by intros ?%elem_of_nil]. }
  destruct (category_loop_ok FC gen cc st seats Hok' Hids order Hord) as (s & Hrun & HC & HD). rw Hrun.
  intros cc' [= <-]. set (f := fold_left clear_seat _ _).
  assert (forall n p, survivor f n p <-> exists i, seat_bids seats n !! i = Some p /\ alive s n i) as Hsurv.
  { intros n p. destruct (seats !! n) as [seat0|] eqn:E.
    - by destruct (final_seats seats s n seat0 E (HD n (mk_is_Some _ _ E))) as [_ H].
    - rw /survivor /seat_bids E /f clear_seats_lookup (category_loop_dom _ _ _ _ _ _ _ _ Hrun E).
      split; [intros (? & Hx & _); by case_bool_decide|by intros (i & Hi & _); rw lookup_nil in Hi]. }
  assert (forall n p key d, seat_bids seats n !! dd_bidIndex d = Some p -> dd_bidderName d = n ->
    cs_dedupe s !! key = Some d -> survivor f n p /\ exists v, cat_of FC cc st n p = inl (key, v, dd_bidPrice d) /\
      id_of st p = dd_bidID d /\ cs_res s !! dd_bidID d = Some v) as Hent.
  { intros n p key d Hp <- Hl. destruct (core_entry _ _ _ _ _ _ HC key d Hl) as (_ & q & v & Hq & Hid & Hc & Hr).
    rw Hp in Hq. injection Hq as <-. split; [|by exists v]. apply Hsurv. exists (dd_bidIndex d). split; [done|]. by exists key, d. }
  split; [|split; [|split; [|split]]].
  - intros n seat0 E. by destruct (final_seats seats s n seat0 E (HD n (mk_is_Some _ _ E))) as [H _].
  - intros n p (i & Hi & key & d & Hl & Hn & Hdi)%Hsurv. subst i.
    destruct (Hent n p key d Hi Hn Hl) as (_ & v & Hc & Hid & Hr). exists key, v, (dd_bidPrice d). by rw Hid.
  - intros i v (key & d & Hl & <-)%(core_res _ _ _ _ _ _ HC).
    destruct (core_entry _ _ _ _ _ _ HC key d Hl) as (_ & q & v' & Hq & Hid & _).
    exists (dd_bidderName d), q. split; [|done]. by eapply Hent.
  - intros n m p q key v b v' b' (i & Hi & key1 & d1 & Hl1 & Hn1 & Hd1)%Hsurv (j & Hj & key2 & d2 & Hl2 & Hn2 & Hd2)%Hsurv Hc1 Hc2.
    subst i j. destruct (Hent n p key1 d1 Hi Hn1 Hl1) as (_ & v1 & Hc1' & _).
    destruct (Hent m q key2 d2 Hj Hn2 Hl2) as (_ & v2 & Hc2' & _).
    rw Hc1 in Hc1'. rw Hc2 in Hc2'. injection Hc1' as <- _ _. injection Hc2' as <- _ _.
    rw Hl1 in Hl2. injection Hl2 as <-. subst n m. split; [done|]. congruence.
  - intros m q key v b [i Hi]%list_elem_of_lookup Hc.
    destruct (core_best _ _ _ _ _ _ HC m i q key v b I Hi Hc) as (d & Hl & Hlt).
    destruct (core_entry _ _ _ _ _ _ HC key d Hl) as (_ & p & v' & Hp & _).
    destruct (Hent _ p key d Hp eq_refl Hl) as (Hs & v'' & Hc' & _).
    by exists (dd_bidderName d), p, v'', (dd_bidPrice d).
Qed.

(** Two bidders with one bid each in the same category. *)
Definition cat_bid (id : string) (price : Z) : Bid :=
  mkBid id "i1" (F64.of_Z price) "" "" "" "" "" [] "" "" "" "c" "" ["IAB1"%string] [] 0 0 0 "" "" 0 0 0 0 0 RawNil.
Definition cat_store : Store := demo_store [cat_bid "x" 2; cat_bid "y" 3].
Definition cat_seats : gmap string pbsOrtbSeatBid :=
  {["a"%string := mkSeatBid [1%positive] "USD" []; "b"%string := mkSeatBid [2%positive] "USD" []]}.
Definition cat_targeting : ExtRequestTargeting :=
  mkTargeting priceGranularityMed true false None false None false false.
Definition cat_brand : ExtIncludeBrandCategory := mkBrandCategory 1 "" true (Some false).
Definition cat_target : targetData := mkTargetData priceGranularityMed true false false false false false "" "".
Definition no_categories (_ _ _ : string) : string * option error := (""%string, None).

Lemma cat_seats_bids n i p : seat_bids cat_seats n !! i = Some p ->
  (n = "a"%string /\ i = 0 /\ p = 1%positive) \/ (n = "b"%string /\ i = 0 /\ p = 2%positive).
Proof.
  rw /seat_bids /cat_seats. destruct (decide (n = "a"%string)) as [->|Ha].
  - rw lookup_insert_eq /=. destruct i as [|i]; [|by destruct i]. intros [= <-]. by left.
  - rw lookup_insert_ne //. destruct (decide (n = "b"%string)) as [->|Hb].
    + rw lookup_singleton_eq /=. destruct i as [|i]; [|by destruct i]. intros [= <-]. by right.
    + by rw lookup_singleton_ne.
Qed.

Lemma cat_seats_unique n m i j p q : seat_bids cat_seats n !! i = Some p -> seat_bids cat_seats m !! j = Some q ->
  id_of cat_store p = id_of cat_store q -> n = m /\ i = j.
Proof.
  assert (id_of cat_store 1%positive = "x"%string /\ id_of cat_store 2%positive = "y"%string) as [H1 H2] by done.
  intros [(-> & -> & ->)|(-> & -> & ->)]%cat_seats_bids [(-> & -> & ->)|(-> & -> & ->)]%cat_seats_bids;
    rw ?H1 ?H2; by intros He.
Qed.

Lemma cat_seats_order : ["a"; "b"]%string ≡ₚ (map_to_list cat_seats).*1.
Proof. vm_compute. reflexivity. Qed.

Definition cat_demo_config : CatConfig := mkCatConfig true false "" "" [] false priceGranularityMed.
Lemma cat_demo_keys :
  cat_config cat_targeting cat_brand cat_target = inl cat_demo_config /\
  cat_of no_categories cat_demo_config cat_store "a" 1%positive = inl ("IAB1", "2.00_IAB1_0s", "2.00")%string /\
  cat_of no_categories cat_demo_config cat_store "b" 2%positive = inl ("IAB1", "3.00_IAB1_0s", "3.00")%string.
Proof. split_and!; vm_compute; reflexivity. Qed.

(** The theorem there: at most one of the two is kept. *)
Lemma category_mapping_correct_witness :
  exists res f rej, applyCategoryMapping no_categories (fun _ => true) cat_store cat_targeting cat_brand
      ["a"; "b"]%string cat_seats cat_target = Some (inl (res, f, rej)) /\
    ~ (survivor f "a" 1%positive /\ survivor f "b" 2%positive).
Proof.
  pose proof (category_mapping_correct no_categories (fun _ => true) cat_store cat_targeting cat_brand
    ["a"; "b"]%string cat_seats cat_target) as H.
  assert (forall n seat p, cat_seats !! n = Some seat -> p ∈ sb_bids seat -> is_Some (deref cat_store p)) as Hok.
  { intros n seat p Hn Hp. assert (p ∈ seat_bids cat_seats n) as Hin by by rw /seat_bids Hn.
    apply list_elem_of_lookup in Hin as [i Hi]. apply cat_seats_bids in Hi as [(_ & _ & ->)|(_ & _ & ->)]; by eexists. }
  specialize (H Hok cat_seats_unique cat_seats_order). destruct cat_demo_keys as (Hcc & Ha & Hb).
  destruct (applyCategoryMapping _ _ _ _ _ _ _ _) as [[[[res f] rej]|err]|].
  - exists res, f, rej. split; [reflexivity|]. intros [H1 H2].
    destruct (H cat_demo_config Hcc) as (_ & _ & _ & Huniq & _).
    destruct (Huniq _ _ _ _ _ _ _ _ _ H1 H2 Ha Hb) as [Hab _]. discriminate Hab.
  - destruct H as (_ & H & _). exfalso. apply H. reflexivity.
  - destruct H.
Defined.
