(* ===== verification/Bidder.v ===== *)
(** * Bidders

    [exchange/bidder.go] and [exchange/bidder_validate_bids.go]: how the
    exchange asks one bidder for bids.  The adapter ([MakeRequests],
    [MakeBids]), the HTTP client, and the parsers of the native markup library
    are parameters.  The calls of one bidder run in parallel; their results
    arrive on a channel, so the loop takes them in the order of arrival. *)

From S2P Require Import Prelude Float64 ErrorTypes Json OpenRTB Currency.

Definition Header : Type := gmap string (list string).
(** What is noted about a request for telemetry. *)
Record TapjoyData := mkTapjoyData {
  td_Bidder : string; td_PlacementType : string; td_Region : string;
  td_SKAN_Supported : bool; td_SKAN_Sent : bool; td_MRAID_Supported : bool }.
Definition noTapjoyData : TapjoyData := mkTapjoyData "" "" "" false false false.
Record RequestData := mkRequestData {
  rd_Method : string; rd_Uri : string; rd_Body : string; rd_Headers : option Header; rd_TapjoyData : TapjoyData }.
Record ResponseData := mkResponseData { rs_StatusCode : Z; rs_Body : string; rs_Headers : Header }.

Record TypedBid := mkTypedBid {
  tb_Bid : option loc; tb_BidType : string; tb_BidVideo : option ExtBidPrebidVideo; tb_DealPriority : Z }.
Record BidderResponse := mkBidderResponse { br_Currency : string; br_Bids : list TypedBid }.

(** ** One HTTP call *)
Record httpCallInfo := mkCallInfo {
  ci_request : RequestData; ci_response : option ResponseData; ci_err : option error }.

Inductive HttpOutcome :=
  | NewRequestError (e : error)
  | DoDeadlineExceeded
  | DoError (e : error)
  | ReadError (e : error)
  | Answer (status : Z) (body : string) (headers : Header).

Definition doRequestImpl (req : RequestData) (o : HttpOutcome) : httpCallInfo :=
  match o with
  | NewRequestError e => mkCallInfo req None (Some e)
  | DoDeadlineExceeded => mkCallInfo req None (Some (ETimeout "context deadline exceeded"))
  | DoError e => mkCallInfo req None (Some e)
  | ReadError e => mkCallInfo req None (Some e)
  | Answer status body headers =>
      let err := if (status <? 200)%Z || (400 <=? status)%Z then
                   Some (EBadServerResponse ("Server responded with failure status: " ⧺ GoStr.itoa status ⧺
                           ". Set request.test = 1 for debugging info."))
                 else None in
      mkCallInfo req (Some (mkResponseData status body headers)) err
  end.

Definition authorizationHeader : string := "Authorization".
(** A nil header stays nil. *)
Definition filterHeader (h : option Header) : option Header := delete authorizationHeader <$> h.

Definition makeExt (httpInfo : httpCallInfo) : ExtHttpCall :=
  let req := ci_request httpInfo in
  let '(body, status) := match ci_err httpInfo, ci_response httpInfo with
                         | None, Some r => (rs_Body r, rs_StatusCode r)
                         | _, _ => (""%string, 0%Z)
                         end in
  mkExtHttpCall (rd_Uri req) (rd_Body req) (filterHeader (rd_Headers req)) body status.

(** [Header.Add] of the Global Privacy Control header. *)
Definition gpcKey : string := "Sec-Gpc".
Definition header_add (h : Header) (key value : string) : Header :=
  <[key := default [] (h !! key) ++ [value]]> h.
Definition add_gpc (gpc : string) (r : RequestData) : RequestData :=
  mkRequestData (rd_Method r) (rd_Uri r) (rd_Body r) (Some (header_add (default ∅ (rd_Headers r)) gpcKey gpc))
    (rd_TapjoyData r).

(** ** Native markup *)
Record ReqAsset := mkReqAsset { qa_ID : Z; qa_Img : option Z; qa_Data : option Z }.
(** An asset of the response: its image and data carry a type and the rest. *)
Record RespAsset := mkRespAsset {
  ra_ID : option Z; ra_Img : option (Z * json); ra_Data : option (Z * json); ra_rest : json }.
Record NativeMarkup := mkNativeMarkup { nm_Assets : list RespAsset; nm_rest : json }.

Fixpoint getAssetByID (id : Z) (assets : list ReqAsset) : ReqAsset + error :=
  match assets with
  | [] => inr (EPlain ("Unable to find asset with ID:" ⧺ GoStr.itoa id ⧺ " in the request"))
  | a :: rest => if (id =? qa_ID a)%Z then inl a else getAssetByID id rest
  end.

(** The type of one part of an asset, from the part of the request's asset. *)
Definition set_part (what article : string) (part : Z * json) (id : option Z)
    (req_part : ReqAsset -> option Z) (assets : list ReqAsset) : (Z * json) + error :=
  match id with
  | None => inr (EPlain ("Response " ⧺ what ⧺ " asset doesn't have an ID"))
  | Some id =>
      match getAssetByID id assets with
      | inr err => inr err
      | inl tempAsset =>
          match req_part tempAsset with
          | Some ty => inl (if (ty =? 0)%Z then part else (ty, part.2))
          | None => inr (EPlain ("Response has " ⧺ article ⧺ " " ⧺ what ⧺ " asset with ID:" ⧺ GoStr.itoa id ⧺
                                 " present that doesn't exist in the request"))
          end
      end
  end.

Definition setAssetTypes (asset : RespAsset) (assets : list ReqAsset) : RespAsset * option error :=
  let img := match ra_Img asset with
             | None => inl None
             | Some part => match set_part "Image" "an" part (ra_ID asset) qa_Img assets with
                            | inl p => inl (Some p)
                            | inr e => inr e
                            end
             end in
  match img with
  | inr e => (asset, Some e)
  | inl img =>
      let asset := mkRespAsset (ra_ID asset) img (ra_Data asset) (ra_rest asset) in
      match ra_Data asset with
      | None => (asset, None)
      | Some part =>
          match set_part "Data" "a" part (ra_ID asset) qa_Data assets with
          | inl p => (mkRespAsset (ra_ID asset) (ra_Img asset) (Some p) (ra_rest asset), None)
          | inr e => (asset, Some e)
          end
      end
  end.

Fixpoint getNativeImpByImpID (impID : string) (imps : list Imp) : Native + error :=
  match imps with
  | [] => inr (EPlain "Could not find native imp")
  | i :: rest =>
      match imp_Native i with
      | Some n => if GoStr.eqb (imp_ID i) impID then inl n else getNativeImpByImpID impID rest
      | None => getNativeImpByImpID impID rest
      end
  end.

Section Native.
(** JSON of the markup (null leaves a nil pointer) and of the request. *)
Context (ParseMarkup : string -> option NativeMarkup + error).
Context (ParseNativeRequest : string -> list ReqAsset * option error).

(** The outer [None] is a nil dereference: markup that is JSON null. *)
Definition addNativeTypes (bid : Bid) (request : BidRequest) : option (option NativeMarkup * list error) :=
  match ParseMarkup (bid_AdM bid) with
  | inr _ => Some (None, [])
  | inl None => None
  | inl (Some markup) =>
      match nm_Assets markup with
      | [] => Some (None, [])
      | _ =>
          match getNativeImpByImpID (bid_ImpID bid) (req_Imp request) with
          | inr err => Some (None, [err])
          | inl nativeImp =>
              let '(payload, perr) := ParseNativeRequest (nat_Request nativeImp) in
              let typed := (fun a => setAssetTypes a payload) <$> nm_Assets markup in
              Some (Some (mkNativeMarkup (fst <$> typed) (nm_rest markup)),
                    match perr with Some e => [e] | None => [] end ++ omap snd typed)
          end
      end
  end.
End Native.

(** ** Requesting bids *)
(** Allocates an exchange bid. *)
Definition alloc_pbs (st : Store) (b : pbsOrtbBid) : loc * Store :=
  let p := fresh (dom (st_pbs st)) in (p, put_pbs st p b).

Definition defaultCurrency : string := "USD".

(** The first currency of the request with a rate: the rate, the currency and
    the error of the last attempt. *)
Fixpoint find_rate (conversions : Conversions) (from : string) (curs : list string) (err : option error) :
  float64 * option string * option error :=
  match curs with
  | [] => (F64.zero, None, err)
  | cur :: rest =>
      match GetRate conversions from cur with
      | inl rate => (rate, Some cur, None)
      | inr e => find_rate conversions from rest (Some e)
      end
  end.

(** What the loop over the responses carries. *)
Record BidState := mkBidState {
  bs_store : Store; bs_request : BidRequest; bs_seat : pbsOrtbSeatBid; bs_errs : list error }.

Record DebugFlags := mkDebugFlags {
  df_headerDebugAllowed : bool; df_contextDebug : bool; df_accountDebugAllowed : bool;
  df_bidderAllowsDebug : bool }.

Section RequestBid.
(** [MakeRequests] may write into the request it is given: the request it
    leaves, the requests to make, the errors. *)
Context (MakeRequests : BidRequest -> BidRequest * list RequestData * list error).
(** [MakeBids] allocates the bids it returns. *)
Context (MakeBids : BidRequest -> RequestData -> option ResponseData -> Store ->
                    option BidderResponse * list error * Store).
Context (ParseMarkup : string -> option NativeMarkup + error).
Context (ParseNativeRequest : string -> list ReqAsset * option error).
Context (MarshalMarkup : NativeMarkup -> string + error).

(** The native pass over one bid of an app request. *)
Definition native_step (request : BidRequest) (acc : Store * list error) (tb : TypedBid) :
  option (Store * list error) :=
  let '(st, errs) := acc in
  if negb (GoStr.eqb (tb_BidType tb) BidType.Native) then Some acc
  else match tb_Bid tb with
       | None => None
       | Some q =>
           match st_bid st !! q with
           | None => None
           | Some b =>
               match addNativeTypes ParseMarkup ParseNativeRequest b request with
               | None => None
               | Some (None, moreErrs) => Some (st, errs ++ moreErrs)
               | Some (Some markup, moreErrs) =>
                   match MarshalMarkup markup with
                   | inr err => Some (st, errs ++ moreErrs ++ [err])
                   | inl s => Some (put_bid st q (bid_set_AdM b s), errs ++ moreErrs)
                   end
               end
           end
       end.

Definition adjusted_price (price bidAdjustment conversionRate : float64) : float64 :=
  F64.mul (F64.mul price bidAdjustment) conversionRate.

(** Converts the price of one bid and appends it to the seat. *)
Definition convert_step (bidAdjustment conversionRate : float64) (acc : Store * list loc) (tb : TypedBid) :
  Store * list loc :=
  let '(st, bids) := acc in
  let st := match tb_Bid tb with
            | Some q => match st_bid st !! q with
                        | Some b => put_bid st q (bid_set_Price b (adjusted_price (bid_Price b) bidAdjustment conversionRate))
                        | None => st
                        end
            | None => st
            end in
  let '(p, st) := alloc_pbs st (mkPbsBid (tb_Bid tb) (tb_BidType tb) ∅ (tb_BidVideo tb) None
                                  (tb_DealPriority tb) false "") in
  (st, bids ++ [p]).

Definition debug_part (d : DebugFlags) (info : httpCallInfo) (seat : pbsOrtbSeatBid) (errs : list error) :
  pbsOrtbSeatBid * list error :=
  let with_call := mkSeatBid (sb_bids seat) (sb_currency seat) (sb_httpCalls seat ++ [makeExt info]) in
  if df_headerDebugAllowed d then (with_call, errs)
  else if df_contextDebug d && df_accountDebugAllowed d then
    if df_bidderAllowsDebug d then (with_call, errs)
    else (seat, errs ++ [EWarning "debug turned off for bidder" Code.BidderLevelDebugDisabledWarningCode])
  else (seat, errs).

(** The body of the loop over the responses. *)
Definition handle_response (bidAdjustment : float64) (conversions : Conversions) (d : DebugFlags)
    (s : BidState) (info : httpCallInfo) : option BidState :=
  let '(seat, errs) := debug_part d info (bs_seat s) (bs_errs s) in
  match ci_err info with
  | Some e => Some (mkBidState (bs_store s) (bs_request s) seat (errs ++ [e]))
  | None =>
      let request := bs_request s in
      let '(bidResponse, moreErrs, st) := MakeBids request (ci_request info) (ci_response info) (bs_store s) in
      let errs := errs ++ moreErrs in
      match bidResponse with
      | None => Some (mkBidState st request seat errs)
      | Some resp =>
          let currency := if GoStr.is_empty (br_Currency resp) then defaultCurrency else br_Currency resp in
          let request := match req_Cur request with
                         | [] => req_set_Cur request [defaultCurrency]
                         | _ => request
                         end in
          let '(conversionRate, cur, err) := find_rate conversions currency (req_Cur request) None in
          let seat := mkSeatBid (sb_bids seat) (default (sb_currency seat) cur) (sb_httpCalls seat) in
          let native := match req_App request with
                        | Some _ => foldM (native_step request) (br_Bids resp) (st, errs)
                        | None => Some (st, errs)
                        end in
          match native with
          | None => None
          | Some (st, errs) =>
              match err with
              | None =>
                  let '(st, bids) := fold_left (convert_step bidAdjustment conversionRate) (br_Bids resp)
                                       (st, sb_bids seat) in
                  Some (mkBidState st request (sb_set_bids seat bids) errs)
              | Some e => Some (mkBidState st request seat (errs ++ [e]))
              end
          end
      end
  end.

(** [doRequest] answers each request; [arrivals] are the answers in the
    order in which they reach the channel. *)
Definition prepared_requests (request : BidRequest) (gpc : string) : BidRequest * list RequestData * list error :=
  let '(request, reqData, errs) := MakeRequests request in
  (request, if GoStr.eqb gpc "1" then add_gpc gpc <$> reqData else reqData, errs).

(** [inl] is the early return with a nil seat. *)
Definition requestBid (bidAdjustment : float64) (conversions : Conversions) (d : DebugFlags)
    (st : Store) (request : BidRequest) (gpc : string) (arrivals : list httpCallInfo) :
  option (list error + BidState) :=
  let '(request, reqData, errs) := prepared_requests request gpc in
  match reqData with
  | [] =>
      Some (inl (match errs with
                 | [] => [EFailedToRequestBids "The adapter failed to generate any bid requests, but also failed to generate an error explaining why"]
                 | _ => errs
                 end))
  | _ =>
      match foldM (handle_response bidAdjustment conversions d) arrivals
              (mkBidState st request (mkSeatBid [] defaultCurrency []) errs) with
      | Some s => Some (inr s)
      | None => None
      end
  end.
End RequestBid.

(** ** Validation *)
(** [None] is a valid bid. *)
Definition validateBid (st : Store) (p : loc) : option error :=
  match bid_at st p with
  | None => Some (EPlain "Empty bid object submitted.")
  | Some b =>
      if GoStr.is_empty (bid_ID b) then Some (EPlain "Bid missing required field 'id'")
      else if GoStr.is_empty (bid_ImpID b) then
        Some (EPlain ("Bid " ⧺ GoStr.quoted (bid_ID b) ⧺ " missing required field 'impid'"))
      else if F64.leb (bid_Price b) F64.zero then
        Some (EPlain ("Bid " ⧺ GoStr.quoted (bid_ID b) ⧺ " does not contain a positive 'price'"))
      else if GoStr.is_empty (bid_CrID b) then
        Some (EPlain ("Bid " ⧺ GoStr.quoted (bid_ID b) ⧺ " missing creative ID"))
      else None
  end.

Section Validation.
Context (ParseISO : string -> string + error).

Definition validateCurrency (requestAllowedCurrencies : list string) (bidCurrency : string) : option error :=
  let bidCurrency := if GoStr.is_empty bidCurrency then defaultCurrency else bidCurrency in
  match ParseISO bidCurrency with
  | inr cerr => Some cerr
  | inl currencyUnit =>
      let allowed := match requestAllowedCurrencies with [] => [defaultCurrency] | l => l end in
      if existsb (fun c => GoStr.eqb (GoStr.to_upper c) currencyUnit) allowed then None
      else Some (EPlain ("Bid currency is not allowed. Was '" ⧺ currencyUnit ⧺ "', wants: ['" ⧺
                         GoStr.join "', '" allowed ⧺ "']"))
  end.

Fixpoint validate_loop (st : Store) (bids : list loc) : list loc * list error :=
  match bids with
  | [] => ([], [])
  | p :: rest =>
      let '(valid, errs) := validate_loop st rest in
      match validateBid st p with
      | None => (p :: valid, errs)
      | Some e => (valid, e :: errs)
      end
  end.

Definition removeInvalidBids (st : Store) (request : BidRequest) (seatBid : option pbsOrtbSeatBid) :
  option pbsOrtbSeatBid * list error :=
  match seatBid with
  | None => (None, [])
  | Some seat =>
      match sb_bids seat with
      | [] => (seatBid, [])
      | _ =>
          match validateCurrency (req_Cur request) (sb_currency seat) with
          | Some cerr => (Some (sb_set_bids seat []), [cerr])
          | None =>
              let '(valid, errs) := validate_loop st (sb_bids seat) in
              (Some (sb_set_bids seat valid), errs)
          end
      end
  end.
End Validation.

(** ** Facts *)
Section ValidationFacts.
Context (ParseISO : string -> string + error).

Lemma validate_loop_spec st bids valid errs :
  validate_loop st bids = (valid, errs) ->
  valid = List.filter (fun p => bool_decide (validateBid st p = None)) bids /\
  errs = omap (validateBid st) bids /\ length valid + length errs = length bids.
Proof.
  revert valid errs. induction bids as [|p bids IH]; intros valid errs; simpl; [by intros [= <- <-]|].
  destruct (validate_loop st bids) as [v e]. destruct (IH v e eq_refl) as (-> & -> & Hlen).
  destruct (validateBid st p) as [err|] eqn:Ev; intros [= <- <-]; simpl; split_and!; try done; lia.
Qed.

Lemma validateBid_None st p :
  validateBid st p = None <->
  exists b, bid_at st p = Some b /\ bid_ID b <> ""%string /\ bid_ImpID b <> ""%string /\
    bid_CrID b <> ""%string /\ F64.leb (bid_Price b) F64.zero = false.
Proof.
  rw /validateBid. destruct (bid_at st p) as [b|]; [|by split; [|intros (? & ? & _)]].
  split.
  - destruct (GoStr.is_empty (bid_ID b)) eqn:E1; [done|].
    destruct (GoStr.is_empty (bid_ImpID b)) eqn:E2; [done|].
    destruct (F64.leb (bid_Price b) F64.zero) eqn:E3; [done|].
    destruct (GoStr.is_empty (bid_CrID b)) eqn:E4; [done|]. intros _.
    exists b. by rw -!is_empty_false.
  - intros (b' & [= <-] & H1%is_empty_false & H2%is_empty_false & H3%is_empty_false & H4).
    by rw H1 H2 H3 H4.
Qed.
End ValidationFacts.

(** A bid that may stay: it has an id, an imp id, a creative id, and a price
    that is not zero or below. *)
Definition bid_ok (st : Store) (p : loc) : Prop :=
  exists b, bid_at st p = Some b /\ bid_ID b <> ""%string /\ bid_ImpID b <> ""%string /\
    bid_CrID b <> ""%string /\ F64.leb (bid_Price b) F64.zero = false.
(** The currency of a seat, US dollars when it has none, is a currency that
    the request lists, in any case of letters; it lists US dollars when it
    lists none. *)
Definition currency_ok (ParseISO : string -> string + error) (curs : list string) (cur : string) : Prop :=
  exists unit, ParseISO (if GoStr.is_empty cur then "USD"%string else cur) = inl unit /\
    exists c, c ∈ (match curs with [] => ["USD"%string] | l => l end) /\ GoStr.to_upper c = unit.
Lemma validateCurrency_None ParseISO curs cur : validateCurrency ParseISO curs cur = None <-> currency_ok ParseISO curs cur.
Proof.
  unfold validateCurrency, currency_ok, defaultCurrency. destruct (ParseISO _) as [unit|cerr]; [|split; [done|by intros (? & ? & _)]].
  destruct (existsb _ _) eqn:E.
  - split; [intros _|done]. exists unit. split; [done|]. apply existsb_exists in E as (c & Hin%list_elem_of_In & Hc%eqb_eq). by exists c.
  - split; [done|]. intros (unit' & [= <-] & c & Hin & Hc). apply not_true_iff_false in E. destruct E.
    apply existsb_exists. exists c. split; [by apply list_elem_of_In|by apply eqb_eq].
Qed.

(** C21: what validation lets through: every surviving bid is one of the
    bidder's, refers to a bid with an id, an imp id, a creative id and a price
    that is not zero or below, and the seat's currency is one the request
    allows; when the currency is allowed no valid bid is lost and every
    removed bid is reported by one error. *)
Theorem validation_sound ParseISO st req seat seat' errs
    (Hv : removeInvalidBids ParseISO st req (Some seat) = (Some seat', errs)) :
  (forall p, p ∈ sb_bids seat' -> p ∈ sb_bids seat /\ bid_ok st p) /\
  (sb_bids seat' <> [] -> currency_ok ParseISO (req_Cur req) (sb_currency seat)) /\
  (currency_ok ParseISO (req_Cur req) (sb_currency seat) ->
     (forall p, p ∈ sb_bids seat -> bid_ok st p -> p ∈ sb_bids seat') /\
     length (sb_bids seat') + length errs = length (sb_bids seat)) /\
  (sb_bids seat <> [] -> ~ currency_ok ParseISO (req_Cur req) (sb_currency seat) -> length errs = 1) /\
  sb_currency seat' = sb_currency seat /\ sb_httpCalls seat' = sb_httpCalls seat.
Proof.
  rw /removeInvalidBids in Hv. destruct seat as [[|p0 bids] cur calls]; cbn [sb_bids sb_currency sb_httpCalls] in *.
  { injection Hv as <- <-. cbn. split_and!; try done. by intros p ?%elem_of_nil. }
  pose proof (validateCurrency_None ParseISO (req_Cur req) cur) as Hcur.
  destruct (validateCurrency ParseISO (req_Cur req) cur) as [cerr|].
  { injection Hv as <- <-. cbn. split_and!; try done; [by intros p ?%elem_of_nil|by intros ?%Hcur]. }
  destruct (validate_loop st (p0 :: bids)) as [valid es] eqn:El. injection Hv as <- <-.
  destruct (validate_loop_spec st (p0 :: bids) valid es El) as (-> & _ & Hlen). cbn [sb_bids sb_currency sb_httpCalls sb_set_bids].
  assert (forall p, p ∈ List.filter (fun p => bool_decide (validateBid st p = None)) (p0 :: bids) <->
            p ∈ p0 :: bids /\ bid_ok st p) as Hf.
  { intros p. by rw !list_elem_of_In List.filter_In bool_decide_eq_true validateBid_None. }
  split_and!; try done; [by intros p ?%Hf|tauto| |by intros _ []; apply Hcur].
  intros _. split; [|done]. intros p Hin Hn. by apply Hf.
Qed.

(** A price that is not a number passes validation.  A request can bring
    one about with a custom rate of 0: the reciprocal rate is infinite, and a
    bid of price 0 becomes 0 times infinity. *)
Theorem nan_price_passes :
  let custom := Rates_Conv plain_iso (mkRates 0 (Some {["EUR" := {["USD" := F64.zero]}]})) in
  exists rate, GetRate custom "USD" "EUR" = inl rate /\
    F64.is_nan (adjusted_price F64.zero one rate) = true /\
    forall st p b, bid_at st p = Some b -> bid_ID b <> ""%string -> bid_ImpID b <> ""%string ->
      bid_CrID b <> ""%string -> bid_Price b = adjusted_price F64.zero one rate -> validateBid st p = None.
Proof.
  intros custom. exists F64.inf. split; [reflexivity|]. split; [reflexivity|].
  intros st p b Hb H1 H2 H3 Hp. apply validateBid_None. exists b. split_and!; try done. by rw Hp.
Qed.

(** ** Conversion *)
Definition no_rate (conv : Conversions) (from c : string) : Prop := exists e, GetRate conv from c = inr e.
Lemma find_rate_spec conv from curs err rate cur e :
  curs <> [] -> find_rate conv from curs err = (rate, cur, e) ->
  match e with
  | None => exists before c after, curs = before ++ c :: after /\ cur = Some c /\
              Forall (no_rate conv from) before /\ GetRate conv from c = inl rate
  | Some e => cur = None /\ Forall (no_rate conv from) curs /\ exists c, list.last curs = Some c /\ GetRate conv from c = inr e
  end.
Proof.
  revert err. induction curs as [|c curs IH]; intros err Hne; [done|]. cbn [find_rate].
  destruct (GetRate conv from c) as [r|er] eqn:Eg; [intros [= <- <- <-]; by exists [], c, curs|].
  assert (no_rate conv from c) as Hc by by exists er.
  destruct curs as [|c' curs].
  { intros [= <- <- <-]. split_and!; [done|by apply list.Forall_singleton|by exists c]. }
  intros Hf. specialize (IH (Some er) ltac:(done) Hf). destruct e as [e|].
  - destruct IH as (-> & Hall & c0 & Hl & He). split_and!; [done|by constructor|]. exists c0. by rw last_cons Hl.
  - destruct IH as (before & c0 & after & Heq & -> & Hb & Hr). exists (c :: before), c0, after.
    rw Heq. split_and!; [done|done|by constructor|done].
Qed.

(** How often a bidder's bid occurs in a response; an adapter may return
    several entries that share one. *)
Definition times (q : loc) (tbs : list TypedBid) : nat := length (filter (fun tb => tb_Bid tb = Some q) tbs).
Lemma times_cons q tb tbs : times q (tb :: tbs) = (if bool_decide (tb_Bid tb = Some q) then 1 else 0) + times q tbs.
Proof. unfold times. rw filter_cons. case_decide; [by rw bool_decide_eq_true_2|by rw bool_decide_eq_false_2]. Qed.

Section Convert.
Context (adj rate : float64).
(** A bid whose price was converted [n] times. *)
Definition converted (n : nat) (b : Bid) : Bid :=
  bid_set_Price b (Nat.iter n (fun price => F64.mul (F64.mul price adj) rate) (bid_Price b)).
Lemma converted_0 b : converted 0 b = b.
Proof. by destruct b. Qed.
Lemma converted_1 n b : converted n (converted 1 b) = converted (S n) b.
Proof. unfold converted. rw (Nat.iter_succ_r n). by destruct b. Qed.

Lemma alloc_fresh st b p st' : alloc_pbs st b = (p, st') ->
  st_pbs st !! p = None /\ st_pbs st' = <[p := b]> (st_pbs st) /\ st_bid st' = st_bid st.
Proof.
  intros [= <- <-]. split; [|done]. apply not_elem_of_dom, is_fresh.
Qed.
Lemma convert_step_spec tb st bids st' bids' : convert_step adj rate (st, bids) tb = (st', bids') ->
  exists p pb, bids' = bids ++ [p] /\ st_pbs st !! p = None /\ st_pbs st' = <[p := pb]> (st_pbs st) /\
    pb_bid pb = tb_Bid tb /\ pb_bidType pb = tb_BidType tb /\ pb_dealPriority pb = tb_DealPriority tb /\
    forall q, st_bid st' !! q = converted (times q [tb]) <$> st_bid st !! q.
Proof.
  unfold convert_step. set (st1 := match tb_Bid tb with Some _ => _ | None => _ end).
  destruct (alloc_pbs st1 _) as [p st2] eqn:Ea. apply alloc_fresh in Ea as (Hfr & Hp2 & Hb2). intros [= <- <-].
  assert (st_pbs st1 = st_pbs st) as Hp1.
  { rw /st1. destruct (tb_Bid tb) as [q|]; [|done]. by destruct (st_bid st !! q). }
  rw Hp1 in Hfr Hp2. eexists p, _. do 6 (split; [done|]). intros q. rw Hb2 times_cons /st1 Nat.add_0_r.
  assert (st_bid st !! q = converted 0 <$> st_bid st !! q) as Hsame by by destruct (st_bid st !! q) as [ [] |].
  destruct (tb_Bid tb) as [q'|]; [|by rw bool_decide_eq_false_2]. destruct (decide (q' = q)) as [->|Hne].
  - rw bool_decide_eq_true_2 //. destruct (st_bid st !! q) as [b|] eqn:Eb; [|by rw Eb]. by rw /= lookup_insert_eq.
  - rw bool_decide_eq_false_2; [congruence|]. destruct (st_bid st !! q') as [b'|]; [rw /= lookup_insert_ne //|]; done.
Qed.

(** The seat gains one bid per entry of the response, and a bid is converted
    once for every entry that refers to it. *)
Lemma convert_fold tbs st bids0 st' bids :
  fold_left (convert_step adj rate) tbs (st, bids0) = (st', bids) ->
  exists new, bids = bids0 ++ new /\
    (forall p pb, st_pbs st !! p = Some pb -> st_pbs st' !! p = Some pb) /\
    Forall2 (fun tb p => exists pb, st_pbs st' !! p = Some pb /\ pb_bid pb = tb_Bid tb /\
               pb_bidType pb = tb_BidType tb /\ pb_dealPriority pb = tb_DealPriority tb) tbs new /\
    (forall q, st_bid st' !! q = converted (times q tbs) <$> st_bid st !! q).
Proof.
  revert st bids0. induction tbs as [|tb tbs IH]; intros st bids0.
  - intros [= <- <-]. exists []. split_and!; [by rw app_nil_r|done|constructor|].
    intros q. destruct (st_bid st !! q) as [b|]; [by rw /= converted_0|done].
  - cbn [fold_left]. destruct (convert_step adj rate (st, bids0) tb) as [st1 bids1] eqn:Es.
    apply convert_step_spec in Es as (p & pb & -> & Hfr & Hp & Hb & Ht & Hd & Hconv).
    intros Hf. destruct (IH _ _ Hf) as (new & -> & Hkeep & Hnew & Hout).
    exists (p :: new). split; [by rw -app_assoc|]. split_and!.
    + intros p' pb' Hp'. apply Hkeep. rw Hp lookup_insert_ne //. congruence.
    + constructor; [|done]. exists pb. split; [apply Hkeep; by rw Hp lookup_insert_eq|done].
    + intros q. rw Hout Hconv (times_cons q tb tbs) (times_cons q tb []).
      destruct (st_bid st !! q) as [b|]; [|done]. cbn [fmap option_fmap option_map]. f_equal.
      case_bool_decide; [apply converted_1|by rw converted_0].
Qed.
End Convert.

(** The theorem on a seat with one good bid and one without creative. *)
Definition demo_bidder_store : Store :=
  mkStore (<[1%positive := mkPbsBid (Some 1%positive) BidType.Banner ∅ None None 0 false ""]>
            {[2%positive := mkPbsBid (Some 2%positive) BidType.Banner ∅ None None 0 false ""]})
          (<[1%positive := simpleBid "b1" "i1" (F64.of_Z 3) "c1" ""]>
            {[2%positive := simpleBid "b2" "i1" (F64.of_Z 3) "" ""]}).
Lemma validation_sound_witness :
  exists seat' errs, removeInvalidBids plain_iso demo_bidder_store emptyBidRequest
      (Some (mkSeatBid [1%positive; 2%positive] "USD" [])) = (Some seat', errs) /\
    1%positive ∈ sb_bids seat' /\ length (sb_bids seat') + length errs = 2.
Proof.
  destruct (removeInvalidBids plain_iso demo_bidder_store emptyBidRequest
      (Some (mkSeatBid [1%positive; 2%positive] "USD" []))) as [[seat'|] errs] eqn:E; [|vm_compute in E; discriminate E].
  exists seat', errs. split; [reflexivity|].
  destruct (validation_sound plain_iso demo_bidder_store emptyBidRequest
      (mkSeatBid [1%positive; 2%positive] "USD" []) seat' errs E) as (_ & _ & H & _).
  destruct H as [Hin Hlen]; [exists "USD"%string; split; [reflexivity|]; exists "USD"%string; split; [left|reflexivity]|].
  split; [|exact Hlen]. apply Hin; [simpl; set_solver|]. eexists. split; [reflexivity|]. split_and!; [discriminate..|reflexivity].
Defined.

(** A native pass over bids of which none is native changes nothing. *)
Lemma native_pass_skips PM PN MM request tbs acc : Forall (fun tb => tb_BidType tb <> BidType.Native) tbs ->
  foldM (native_step PM PN MM request) tbs acc = Some acc.
Proof.
  intros Hall. revert acc. induction Hall as [|tb tbs Hne _ IH]; intros acc; [done|]. cbn [foldM].
  unfold native_step at 1. destruct acc as [st errs]. rw (proj2 (eqb_neq _ _) Hne). apply IH.
Qed.

(** C20: how one answer of a bidder without native bids enters the seat.  When
    some currency of the request has a rate from the answer's currency (US
    dollars when it names none), the seat takes the first such currency and
    every bid of the answer, in order, and the price of each is multiplied by
    the bidder's adjustment and that rate - once for every entry of the answer
    that shares it; bids of earlier answers are not touched.  When none has, no
    bid is taken and the error is reported. *)
Theorem response_converted MB PM PN MM adj conv d s s' resp st moreErrs req resp_data
    (Hmake : MB (bs_request s) req (Some resp_data) (bs_store s) = (Some resp, moreErrs, st))
    (Hnative : req_App (bs_request s) = None \/ Forall (fun tb => tb_BidType tb <> BidType.Native) (br_Bids resp))
    (Hstep : handle_response MB PM PN MM adj conv d s (mkCallInfo req (Some resp_data) None) = Some s') :
  let from := if GoStr.is_empty (br_Currency resp) then "USD"%string else br_Currency resp in
  let curs := match req_Cur (bs_request s) with [] => ["USD"%string] | l => l end in
  (exists before cur after rate new, curs = before ++ cur :: after /\ Forall (no_rate conv from) before /\
     GetRate conv from cur = inl rate /\ sb_currency (bs_seat s') = cur /\
     sb_bids (bs_seat s') = sb_bids (bs_seat s) ++ new /\
     Forall2 (fun tb p => exists pb, st_pbs (bs_store s') !! p = Some pb /\ pb_bid pb = tb_Bid tb /\
                pb_bidType pb = tb_BidType tb /\ pb_dealPriority pb = tb_DealPriority tb) (br_Bids resp) new /\
     forall q, st_bid (bs_store s') !! q = converted adj rate (times q (br_Bids resp)) <$> st_bid st !! q) \/
  (Forall (no_rate conv from) curs /\ sb_bids (bs_seat s') = sb_bids (bs_seat s) /\ bs_store s' = st /\
   exists c e, list.last curs = Some c /\ GetRate conv from c = inr e /\ list.last (bs_errs s') = Some e).
Proof.
  intros from curs. change (if GoStr.is_empty (br_Currency resp) then "USD"%string else br_Currency resp)
    with (if GoStr.is_empty (br_Currency resp) then defaultCurrency else br_Currency resp) in (value of from).
  rw /handle_response /= Hmake -/from in Hstep.
  destruct (debug_part d _ (bs_seat s) (bs_errs s)) as [seat errs0] eqn:Ed.
  assert (sb_bids seat = sb_bids (bs_seat s)) as Hseat.
  { rw /debug_part in Ed. destruct (df_headerDebugAllowed d), (df_contextDebug d && df_accountDebugAllowed d),
      (df_bidderAllowsDebug d); by injection Ed as <- _. }
  set (request := match req_Cur (bs_request s) with [] => _ | _ => _ end) in Hstep.
  assert (req_Cur request = curs /\ req_App request = req_App (bs_request s)) as [Hcur Happ].
  { rw /request /curs. destruct (bs_request s) as [? ? ? ? ? ? ? ? ? [|c l] ? ? ?]; by simpl in *. }
  assert (match req_App request with
          | Some _ => foldM (native_step PM PN MM request) (br_Bids resp) (st, errs0 ++ moreErrs)
          | None => Some (st, errs0 ++ moreErrs)
          end = Some (st, errs0 ++ moreErrs)) as Hpass.
  { rw Happ. destruct (req_App (bs_request s)); [|done]. destruct Hnative as [|Hall]; [done|]. by apply native_pass_skips. }
  rw Hcur Hpass in Hstep. assert (curs <> []) as Hne by (rw /curs; by destruct (req_Cur _)).
  destruct (find_rate conv from curs None) as [[rate cur] e] eqn:Ef.
  pose proof (find_rate_spec _ _ _ _ _ _ _ Hne Ef) as Hspec. destruct e as [e|].
  - right. destruct Hspec as (-> & Hall & c & Hl & He). injection Hstep as <-. cbn. split_and!; try done.
    exists c, e. by rw last_snoc.
  - left. destruct Hspec as (before & c & after & Hsplit & -> & Hb & Hg).
    destruct (fold_left _ _ _) as [st' bids] eqn:Efold. injection Hstep as <-.
    destruct (convert_fold _ _ _ _ _ _ _ Efold) as (new & -> & _ & Hnew & Hconv).
    exists before, c, after, rate, new. cbn. rw Hseat. by split_and!.
Qed.

(** An adapter for concrete runs: the URI of the call names the currency of
    the answer, which has one bid of price 100. *)
Definition demo_MakeBids (_ : BidRequest) (req : RequestData) (_ : option ResponseData) (st : Store) :
  option BidderResponse * list error * Store :=
  let q := fresh (dom (st_bid st)) in
  (Some (mkBidderResponse (rd_Uri req) [mkTypedBid (Some q) BidType.Banner None 0]), [],
   put_bid st q (simpleBid "b" "i1" (F64.of_Z 100) "c" "")).
Definition demo_call (cur : string) : httpCallInfo :=
  mkCallInfo (mkRequestData "POST" cur "" None noTapjoyData) (Some (mkResponseData 200 "" ∅)) None.
Definition demo_conv : Conversions :=
  Rates_Conv plain_iso (mkRates 0 (Some (<["JPY"%string := {["USD"%string := F64.of_ratio 1 100]}]>
                                          {["GBP"%string := {["EUR"%string := F64.of_Z 2]}]}))).
Definition demo_request : BidRequest := req_set_Cur emptyBidRequest ["EUR"; "USD"]%string.
Definition no_debug : DebugFlags := mkDebugFlags false false false false.
Definition demo_requestBid (curs : list string) : option (list error + BidState) :=
  requestBid (fun r => (r, map (fun c => mkRequestData "POST" c "" None noTapjoyData) curs, []))
    demo_MakeBids (fun _ => inr (EPlain "no markup")) (fun _ => ([], None)) (fun _ => inr (EPlain "no markup"))
    one demo_conv no_debug (mkStore ∅ ∅) demo_request "" (map demo_call curs).

(** The theorem for an answer in yen. *)
Lemma response_converted_witness :
  exists s', handle_response demo_MakeBids (fun _ => inr (EPlain "no markup")) (fun _ => ([], None))
      (fun _ => inr (EPlain "no markup")) one demo_conv no_debug
      (mkBidState (mkStore ∅ ∅) demo_request (mkSeatBid [] defaultCurrency []) []) (demo_call "JPY") = Some s' /\
    sb_currency (bs_seat s') = "USD"%string.
Proof.
  destruct (handle_response demo_MakeBids (fun _ => inr (EPlain "no markup")) (fun _ => ([], None))
      (fun _ => inr (EPlain "no markup")) one demo_conv no_debug
      (mkBidState (mkStore ∅ ∅) demo_request (mkSeatBid [] defaultCurrency []) []) (demo_call "JPY"))
    as [s'|] eqn:E; [|vm_compute in E; discriminate E].
  exists s'. split; [reflexivity|].
  destruct (response_converted demo_MakeBids (fun _ => inr (EPlain "no markup")) (fun _ => ([], None))
      (fun _ => inr (EPlain "no markup")) one demo_conv no_debug
      (mkBidState (mkStore ∅ ∅) demo_request (mkSeatBid [] defaultCurrency []) []) s'
      (mkBidderResponse "JPY" [mkTypedBid (Some (fresh (∅ : gset loc))) BidType.Banner None 0])
      (put_bid (mkStore ∅ ∅) (fresh (∅ : gset loc)) (simpleBid "b" "i1" (F64.of_Z 100) "c" ""))
      [] (mkRequestData "POST" "JPY" "" None noTapjoyData) (mkResponseData 200 "" ∅) eq_refl)
    as [(before & cur & after & rate & new & Hsplit & _ & Hr & -> & _)|(Hall & _)].
  - left. reflexivity.
  - exact E.
  - destruct before as [|c [|c' before]]; injection Hsplit as; subst.
    + vm_compute in Hr. discriminate Hr.
    + reflexivity.
    + destruct before; discriminate.
  - inversion Hall as [|? ? _ Hrest]; subst. inversion Hrest as [|? ? [e He] _]; subst. vm_compute in He. discriminate He.
Defined.

(** The bidder's bid behind an exchange bid. *)
Definition bid_of_store (st : Store) (p : loc) : Bid := default emptyBid (bid_at st p).

(** When a bidder makes several calls and the answers come back in
    different currencies, they may be converted to different currencies of the
    request, while the seat keeps only the last one: here a bid worth 1 dollar
    ends up in a seat in euros next to a bid worth 200 euros. *)
Theorem seat_currency_mixed :
  exists s, demo_requestBid ["JPY"; "GBP"]%string = Some (inr s) /\
    sb_currency (bs_seat s) = "EUR"%string /\
    (fun p => bid_Price (bid_of_store (bs_store s) p)) <$> sb_bids (bs_seat s) = [F64.of_Z 1; F64.of_Z 200] /\
    GetRate demo_conv "JPY" "EUR" = inr (EConversionRateNotFound "JPY" "EUR").
Proof.
  destruct (demo_requestBid ["JPY"; "GBP"]%string) as [[?|s]|] eqn:E; [vm_compute in E; discriminate E| |vm_compute in E; discriminate E].
  exists s. split; [done|]. vm_compute in E. injection E as <-. split_and!; by vm_compute.
Qed.

Definition hides_authorization (c : ExtHttpCall) : Prop :=
  hc_RequestHeaders c ≫= (fun h => h !! authorizationHeader) = None.

(** The debug information of a bidder's calls never carries its
    Authorization header, and there is none at all unless the debug header is
    accepted, or debug is on for the request, the account and the bidder. *)
Theorem debug_calls_guarded MR MB PM PN MM adj conv d st req gpc arrivals s
    (Hrun : requestBid MR MB PM PN MM adj conv d st req gpc arrivals = Some (inr s)) :
  Forall hides_authorization (sb_httpCalls (bs_seat s)) /\
  (df_headerDebugAllowed d || (df_contextDebug d && df_accountDebugAllowed d && df_bidderAllowsDebug d) = false ->
   sb_httpCalls (bs_seat s) = []).
Proof.
  set (P := fun seat : pbsOrtbSeatBid =>
    Forall hides_authorization (sb_httpCalls seat) /\
    (df_headerDebugAllowed d || (df_contextDebug d && df_accountDebugAllowed d && df_bidderAllowsDebug d) = false ->
     sb_httpCalls seat = [])).
  assert (forall info seat errs, P seat -> P (debug_part d info seat errs).1) as Hdebug.
  { intros info seat errs [Hf He]. rw /P /debug_part.
    assert (Forall hides_authorization (sb_httpCalls seat ++ [makeExt info])) as Hf'.
    { apply Forall_app. split; [done|]. apply Forall_singleton. rw /makeExt.
      case_match. rw /hides_authorization /filterHeader /=.
      destruct (rd_Headers _); [apply lookup_delete_eq|done]. }
    destruct (df_headerDebugAllowed d), (df_contextDebug d), (df_accountDebugAllowed d), (df_bidderAllowsDebug d); done. }
  rw /requestBid in Hrun. destruct (prepared_requests MR req gpc) as [[req0 [|r rs]] errs0]; [done|].
  destruct (foldM _ arrivals _) as [s0|] eqn:Ef; [|done]. injection Hrun as <-.
  apply (foldM_inv _ (fun s => P (bs_seat s))) in Ef; [done|by split|].
  intros b info b' _ HP. rw /handle_response.
  pose proof (Hdebug info (bs_seat b) (bs_errs b) HP) as Hd.
  destruct (debug_part d info (bs_seat b) (bs_errs b)) as [seat errs1]. simpl in Hd.
  destruct (ci_err info); [by intros [= <-]|].
  destruct (MB _ _ _ _) as [[[resp|] me] st1]; [|by intros [= <-]].
  destruct (find_rate _ _ _ _) as [[rate cur] err].
  destruct (match req_App _ with Some _ => _ | None => _ end) as [[st2 errs2]|]; [|done].
  destruct err; [by intros [= <-]|].
  destruct (fold_left _ _ _) as [st3 bids]. by intros [= <-].
Qed.

(** The theorem with debug on everywhere. *)
Lemma debug_calls_guarded_witness :
  exists s, requestBid (fun r => (r, [mkRequestData "POST" "USD" "" (Some {["Authorization"%string := ["secret"%string]]}) noTapjoyData], []))
      demo_MakeBids (fun _ => inr (EPlain "no markup")) (fun _ => ([], None)) (fun _ => inr (EPlain "no markup"))
      one demo_conv (mkDebugFlags true true true true) (mkStore ∅ ∅) demo_request ""
      [mkCallInfo (mkRequestData "POST" "USD" "" (Some {["Authorization"%string := ["secret"%string]]}) noTapjoyData)
         (Some (mkResponseData 200 "" ∅)) None] = Some (inr s) /\
    Forall hides_authorization (sb_httpCalls (bs_seat s)).
Proof.
  match goal with |- exists s, ?t = _ /\ _ => destruct t as [[?|s]|] eqn:E; [vm_compute in E; discriminate E| |vm_compute in E; discriminate E] end.
  exists s. split; [reflexivity|]. exact (proj1 (debug_calls_guarded _ _ _ _ _ _ _ _ _ _ _ _ s E)).
Defined.
