(* ===== verification/Accounts.v ===== *)
(** * Account configuration

    [config/accounts.go]: the per-account switches that override the host's
    privacy settings, per integration type. *)

From S2P Require Import Prelude Float64 PriceGranularity Json OpenRTB ErrorTypes Auction.

Definition IntegrationTypeAMP : string := "amp".
Definition IntegrationTypeApp : string := "app".
Definition IntegrationTypeVideo : string := "video".
Definition IntegrationTypeWeb : string := "web".

Record AccountIntegration := mkIntegration {
  ai_AMP : option bool; ai_App : option bool; ai_Video : option bool; ai_Web : option bool }.
Record AccountCCPA := mkAccountCCPA {
  ac_Enabled : option bool; ac_IntegrationEnabled : AccountIntegration }.
Record AccountGDPR := mkAccountGDPR {
  ag_Enabled : option bool; ag_IntegrationEnabled : AccountIntegration;
  ag_BasicEnforcementVendors : list string }.
Record Account := mkAccount {
  acct_ID : string; acct_Disabled : bool; acct_CacheTTL : DefaultTTLs; acct_EventsEnabled : bool;
  acct_CCPA : AccountCCPA; acct_GDPR : AccountGDPR; acct_DebugAllow : bool }.

Definition GetByIntegrationType (a : AccountIntegration) (integrationType : string) : option bool :=
  if GoStr.eqb integrationType IntegrationTypeAMP then ai_AMP a
  else if GoStr.eqb integrationType IntegrationTypeApp then ai_App a
  else if GoStr.eqb integrationType IntegrationTypeVideo then ai_Video a
  else if GoStr.eqb integrationType IntegrationTypeWeb then ai_Web a
  else None.

Definition ccpa_EnabledForIntegrationType (a : AccountCCPA) (integrationType : string) : option bool :=
  match GetByIntegrationType (ac_IntegrationEnabled a) integrationType with
  | Some integrationEnabled => Some integrationEnabled
  | None => ac_Enabled a
  end.
Definition gdpr_EnabledForIntegrationType (a : AccountGDPR) (integrationType : string) : option bool :=
  match GetByIntegrationType (ag_IntegrationEnabled a) integrationType with
  | Some integrationEnabled => Some integrationEnabled
  | None => ag_Enabled a
  end.

(** An account that overrides nothing. *)
Definition no_integration : AccountIntegration := mkIntegration None None None None.
Definition plain_account (id : string) : Account :=
  mkAccount id false (mkDefaultTTLs 0 0 0 0) false (mkAccountCCPA None no_integration)
    (mkAccountGDPR None no_integration []) false.
