(* ===== verification/Events.v ===== *)
(** * Event tracking

    [exchange/events.go]: the event URLs and VAST trackers the exchange puts
    into bids; [endpoints/events/event.go]: how such a URL is made and read
    back; the VAST rewriting of [endpoints/events/vtrack.go].
    [jsonpatch.MergePatch] is a parameter. *)

From S2P Require Import Prelude Float64 ErrorTypes Json OpenRTB PriceGranularity ExtRequest Currency.
From S2P Require Import Auction Accounts Url.

(** ** Event requests *)
Definition evWin : string := "win".
Definition evImp : string := "imp".
Definition fmtBlank : string := "b".
Definition fmtImage : string := "i".
Definition anEnabled : string := "1".
Definition anDisabled : string := "0".

Record EventRequest := mkEventRequest {
  ev_Type : string; ev_Format : string; ev_Analytics : string; ev_BidID : string;
  ev_AccountID : string; ev_Bidder : string; ev_Timestamp : Z }.

Definition TypeParameter : string := "t".
Definition BidIdParameter : string := "b".
Definition AccountIdParameter : string := "a".
Definition BidderParameter : string := "bidder".
Definition TimestampParameter : string := "ts".
Definition FormatParameter : string := "f".
Definition AnalyticsParameter : string := "x".

Definition optional_values (request : EventRequest) : Values :=
  (if (0 <? ev_Timestamp request)%Z then [(TimestampParameter, GoStr.itoa (ev_Timestamp request))] else []) ++
  (if GoStr.is_empty (ev_Bidder request) then [] else [(BidderParameter, ev_Bidder request)]) ++
  (if GoStr.eqb (ev_Format request) fmtBlank then [(FormatParameter, fmtBlank)]
   else if GoStr.eqb (ev_Format request) fmtImage then [(FormatParameter, fmtImage)] else []) ++
  (if GoStr.eqb (ev_Analytics request) anEnabled then [(AnalyticsParameter, anEnabled)]
   else if GoStr.eqb (ev_Analytics request) anDisabled then [(AnalyticsParameter, anDisabled)] else []).
Definition optionalParameters (request : EventRequest) : string :=
  let opt := Encode (optional_values request) in
  if GoStr.is_empty opt then opt else "&" ⧺ opt.

(** The query of the URL: the required parameters are not escaped. *)
Definition event_query (request : EventRequest) : string :=
  "t=" ⧺ ev_Type request ⧺ "&b=" ⧺ ev_BidID request ⧺ "&a=" ⧺ ev_AccountID request ⧺
  optionalParameters request.
Definition EventRequestToUrl (externalUrl : string) (request : EventRequest) : string :=
  externalUrl ⧺ "/event?" ⧺ event_query request.

Definition checkRequiredParameter (q : Values) (parameter : string) : string + error :=
  let t := Get q parameter in
  if GoStr.is_empty t then inr (EBadInput ("parameter '" ⧺ parameter ⧺ "' is required")) else inl t.

Definition readType (q : Values) : string + error :=
  match checkRequiredParameter q TypeParameter with
  | inr err => inr err
  | inl t => if GoStr.eqb t evImp then inl evImp
             else if GoStr.eqb t evWin then inl evWin
             else inr (EBadInput ("unknown type: '" ⧺ t ⧺ "'"))
  end.
Definition readTimestamp (q : Values) : Z + error :=
  let t := Get q TimestampParameter in
  if GoStr.is_empty t then inl 0%Z
  else match GoStr.atoi t with
       | Some ts => inl ts
       | None => inr (EBadInput ("invalid request: error parsing timestamp '" ⧺ t ⧺ "'"))
       end.
Definition readFormat (q : Values) : string + error :=
  let f := Get q FormatParameter in
  if GoStr.is_empty f then inl ""%string
  else if GoStr.eqb f fmtBlank then inl fmtBlank
  else if GoStr.eqb f fmtImage then inl fmtImage
  else inr (EBadInput ("unknown format: '" ⧺ f ⧺ "'")).
Definition readAnalytics (q : Values) : string + error :=
  let a := Get q AnalyticsParameter in
  if GoStr.is_empty a then inl anEnabled
  else if GoStr.eqb a anEnabled then inl anEnabled
  else if GoStr.eqb a anDisabled then inl anDisabled
  else inr (EBadInput ("unknown analytics: '" ⧺ a ⧺ "'")).

(** A field that was read, and the error when it was not. *)
Definition or_zero {A} (zero : A) (r : A + error) : A := match r with inl a => a | inr _ => zero end.
Definition error_of {A} (r : A + error) : list error := match r with inl _ => [] | inr e => [e] end.

(** [ParseEventRequest] on the query of the URL. *)
Definition ParseEventRequest (query : string) : EventRequest * list error :=
  let q := ParseQuery query in
  let t := readType q in
  let b := checkRequiredParameter q BidIdParameter in
  let ts := readTimestamp q in
  let f := readFormat q in
  let a := readAnalytics q in
  (mkEventRequest (or_zero ""%string t) (or_zero ""%string f) (or_zero ""%string a) (or_zero ""%string b) ""
     (Get q BidderParameter) (or_zero 0%Z ts),
   error_of t ++ error_of b ++ error_of ts ++ error_of f ++ error_of a).

(** [HandleAccountServiceErrors]; an expired deadline arrives as a timeout. *)
Definition status_step (status : Z) (e : error) : Z :=
  let errCode := ReadCode e in
  let status := if (errCode =? Code.BlacklistedAppErrorCode)%Z || (errCode =? Code.BlacklistedAcctErrorCode)%Z
                then 503%Z else status in
  if (errCode =? Code.TimeoutErrorCode)%Z && (status =? 400)%Z then 504%Z else status.
Definition HandleAccountServiceErrors (errs : list error) : Z * list string :=
  (fold_left status_step errs 400%Z, error_string <$> errs).

(** The answer of the event endpoint: a status, whether the event is logged
    and whether the pixel is sent. *)
Record EventAnswer := mkEventAnswer { ea_Status : Z; ea_Logged : option EventRequest; ea_Pixel : bool }.
Definition Handle (GetAccount : string -> Account * list error) (query : string) : EventAnswer :=
  let '(eventRequest, errs) := ParseEventRequest query in
  match errs with
  | _ :: _ => mkEventAnswer 400 None false
  | [] =>
      match checkRequiredParameter (ParseQuery query) AccountIdParameter with
      | inr _ => mkEventAnswer 401 None false
      | inl accountId =>
          let eventRequest := mkEventRequest (ev_Type eventRequest) (ev_Format eventRequest)
            (ev_Analytics eventRequest) (ev_BidID eventRequest) accountId (ev_Bidder eventRequest)
            (ev_Timestamp eventRequest) in
          if negb (GoStr.eqb (ev_Analytics eventRequest) anEnabled) then mkEventAnswer 204 None false
          else
            let '(account, errs) := GetAccount accountId in
            match errs with
            | _ :: _ => mkEventAnswer (HandleAccountServiceErrors errs).1 None false
            | [] =>
                if negb (acct_EventsEnabled account) then mkEventAnswer 401 None false
                else if GoStr.eqb (ev_Format eventRequest) fmtImage
                then mkEventAnswer 200 (Some eventRequest) true
                else mkEventAnswer 204 (Some eventRequest) false
            end
      end
  end.

(** ** VAST *)
(** [strings.Index] for a non-empty pattern, and [strings.Replace] of the
    first occurrence. *)
Fixpoint index_of (sub s : string) : option nat :=
  if GoStr.has_prefix sub s then Some 0
  else match s with
       | EmptyString => None
       | String _ s' => S <$> index_of sub s'
       end.
Definition replace_first (old new s : string) : string :=
  match index_of old s with
  | None => s
  | Some i => GoStr.take i s ⧺ new ⧺ GoStr.drop (i + GoStr.len old) s
  end.

Definition ImpressionCloseTag : string := "</Impression>".
Definition ImpressionOpenTag : string := "<Impression>".

Definition GetVastUrlTracking (externalUrl bidid bidder accountId : string) (timestamp : Z) : string :=
  EventRequestToUrl externalUrl (mkEventRequest evImp fmtBlank "" bidid accountId bidder timestamp).

(** A missing opening tag has index -1, as in the source. *)
Definition ModifyVastXmlString (externalUrl vast bidid bidder accountID : string) (timestamp : Z) : string * bool :=
  match index_of ImpressionCloseTag vast with
  | None => (vast, false)
  | Some ci =>
      let impressionUrl := "<![CDATA[" ⧺ GetVastUrlTracking externalUrl bidid bidder accountID timestamp ⧺ "]]>" in
      let oi := match index_of ImpressionOpenTag vast with Some i => Z.of_nat i | None => (-1)%Z end in
      if (Z.of_nat ci - oi =? Z.of_nat (GoStr.len ImpressionOpenTag))%Z
      then (replace_first ImpressionOpenTag (ImpressionOpenTag ⧺ impressionUrl) vast, true)
      else (replace_first ImpressionCloseTag
              (ImpressionCloseTag ⧺ ImpressionOpenTag ⧺ impressionUrl ⧺ ImpressionCloseTag) vast, true)
  end.

(** ** The exchange's side *)
Record eventTracking := mkEventTracking {
  et_accountID : string; et_enabledForAccount : bool; et_enabledForRequest : bool;
  et_auctionTimestampMs : Z; et_ModifyingVastXmlAllowed : gmap string bool; et_externalURL : string }.

(** [ts.UnixNano() / 1e+6]: division truncates. *)
Definition unix_ms (ts : Z) : Z := Z.quot ts 1000000.
Definition getEventTracking (requestExtPrebid : option ExtRequestPrebid) (ts : Z) (account : Account)
    (bidderInfos : gmap string bool) (externalURL : string) : eventTracking :=
  mkEventTracking (acct_ID account) (acct_EventsEnabled account)
    (match requestExtPrebid with Some p => negb (raw_is_nil (pre_Events p)) | None => false end)
    (unix_ms ts) bidderInfos externalURL.

Section Tracking.
Context (MergePatch : json -> json -> json + error).
Context (ev : eventTracking).

Definition tracking_enabled : bool := et_enabledForAccount ev || et_enabledForRequest ev.
Definition isModifyingVASTXMLAllowed (bidderName : string) : bool :=
  default false (et_ModifyingVastXmlAllowed ev !! bidderName) && tracking_enabled.

(** The id an event is reported under. *)
Definition event_bid_id (pb : pbsOrtbBid) (b : Bid) : string :=
  if nonempty (pb_generatedBidID pb) then pb_generatedBidID pb else bid_ID b.

Definition modifyBidVAST (pb : pbsOrtbBid) (b : Bid) (bidderName : string) : Bid :=
  if negb (GoStr.eqb (pb_bidType pb) BidType.Video) ||
     (GoStr.is_empty (bid_AdM b) && GoStr.is_empty (bid_NURL b)) then b
  else match ModifyVastXmlString (et_externalURL ev) (makeVAST b) (event_bid_id pb b) bidderName
               (et_accountID ev) (et_auctionTimestampMs ev) with
       | (newVastXML, true) => bid_set_AdM b newVastXML
       | (_, false) => b
       end.

Definition makeEventURL (evType : string) (pb : pbsOrtbBid) (b : Bid) (bidderName : string) : string :=
  EventRequestToUrl (et_externalURL ev)
    (mkEventRequest evType "" "" (event_bid_id pb b) (et_accountID ev) bidderName (et_auctionTimestampMs ev)).

Definition makeBidExtEvents (pb : pbsOrtbBid) (b : Bid) (bidderName : string) : option ExtBidPrebidEvents :=
  if negb tracking_enabled || GoStr.eqb (pb_bidType pb) BidType.Video then None
  else Some (mkBidEvents (makeEventURL evWin pb b bidderName) (makeEventURL evImp pb b bidderName)).

(** Encoding a map of strings does not fail. *)
Definition modifyBidJSON (pb : pbsOrtbBid) (b : Bid) (bidderName : string) (jsonBytes : json) :
  json * option error :=
  if negb tracking_enabled || GoStr.eqb (pb_bidType pb) BidType.Video then (jsonBytes, None)
  else
    let winEventURL := match pb_bidEvents pb with
                       | Some e => be_Win e
                       | None => makeEventURL evWin pb b bidderName
                       end in
    match MergePatch jsonBytes (JObj [("wurl"%string, JStr winEventURL)]) with
    | inl modifiedJSON => (modifiedJSON, None)
    | inr err => (jsonBytes, Some err)
    end.

(** The body of the loops of [modifyBidsForEvents]; [None] is a nil bid. *)
Definition events_step (bidderName : string) (st : Store) (p : loc) : option Store :=
  match st_pbs st !! p with
  | None => None
  | Some pb =>
      match deref st p, pb_bid pb with
      | Some (_, b), Some q =>
          let b := if isModifyingVASTXMLAllowed bidderName then modifyBidVAST pb b bidderName else b in
          Some (put_pbs (put_bid st q b) p (pb_set_events pb (makeBidExtEvents pb b bidderName)))
      | _, _ =>
          (* a nil bid is read only when there is something to write *)
          if isModifyingVASTXMLAllowed bidderName ||
             negb (negb tracking_enabled || GoStr.eqb (pb_bidType pb) BidType.Video)
          then None else Some (put_pbs st p (pb_set_events pb None))
      end
  end.
Definition modifyBidsForEvents (st : Store) (seatBids : list (string * pbsOrtbSeatBid)) : option Store :=
  foldM (fun st '(bidderName, seatBid) => foldM (events_step bidderName) (sb_bids seatBid) st) seatBids st.
End Tracking.

(** ** Round trip *)
Lemma Get_map (v : Values) k : Get v k = default ""%string ((list_to_map v : gmap string string) !! k).
Proof.
  induction v as [|[k' x] v IH]; [done|]. cbn [Get list_to_map foldr fst snd].
  destruct (eqb_spec k' k) as [->|Hne]; [by rw lookup_insert_eq|by rw lookup_insert_ne].
Qed.
Lemma Get_perm (v v' : Values) k : NoDup v.*1 -> v ≡ₚ v' -> Get v k = Get v' k.
Proof. intros Hnd Hp. by rw !Get_map (list_to_map_proper v v' Hnd Hp). Qed.
Lemma Get_app (v v' : Values) k : k ∉ v.*1 -> Get (v ++ v') k = Get v' k.
Proof.
  induction v as [|[k' x] v IH]; [done|]. rw fmap_cons not_elem_of_cons. intros [Hk Hv]. cbn [app Get].
  destruct (eqb_spec k' k) as [->|_]; [done|by apply IH].
Qed.

(** The fields of a request that is well formed and fits into a URL. *)
Definition type_ok (t : string) : Prop := t = evWin \/ t = evImp.
Definition format_ok (f : string) : Prop := f = ""%string \/ f = fmtBlank \/ f = fmtImage.
Definition analytics_ok (a : string) : Prop := a = ""%string \/ a = anEnabled \/ a = anDisabled.
Definition plain_id (s : string) : Prop := s <> ""%string /\ all_bytes unreserved s = true.

Section RoundTrip.
Context (r : EventRequest).

Lemma optional_nodup : NoDup (optional_values r).*1.
Proof.
  rw /optional_values. destruct (0 <? ev_Timestamp r)%Z, (GoStr.is_empty (ev_Bidder r)),
    (GoStr.eqb (ev_Format r) fmtBlank), (GoStr.eqb (ev_Format r) fmtImage),
    (GoStr.eqb (ev_Analytics r) anEnabled), (GoStr.eqb (ev_Analytics r) anDisabled);
    apply (iffLR (bool_decide_eq_true (NoDup _))); by vm_compute.
Qed.

Definition query_values : Values :=
  [(TypeParameter, ev_Type r); (BidIdParameter, ev_BidID r); (AccountIdParameter, ev_AccountID r)] ++
  merge_sort val_le (optional_values r).

Lemma optional_text :
  optionalParameters r = match merge_sort val_le (optional_values r) with
                         | [] => ""%string
                         | l => "&" ⧺ GoStr.join "&" (pair_text <$> l)
                         end.
Proof.
  rw /optionalParameters /Encode. destruct (merge_sort val_le (optional_values r)) as [|[k v] l] eqn:E; [done|].
  assert (k <> ""%string) as Hk.
  { assert ((k, v) ∈ optional_values r) as Hin by (rw -(merge_sort_Permutation val_le (optional_values r)) E; by left).
    revert Hin. rw /optional_values !elem_of_app.
    repeat case_match; rw ?list_elem_of_singleton ?elem_of_nil; intros Hin; destruct_or?; by simplify_eq. }
  assert (exists a s, pair_text (k, v) = String a s) as (a & s & Hp).
  { rw /pair_text /=. destruct (QueryEscape k); eauto. }
  rw fmap_cons Hp. by destruct l.
Qed.

Lemma event_query_values :
  all_bytes unreserved (ev_Type r) = true -> all_bytes unreserved (ev_BidID r) = true ->
  all_bytes unreserved (ev_AccountID r) = true ->
  ParseQuery (event_query r) = query_values.
Proof.
  intros Ht Hb Ha. rw -(ParseQuery_join query_values) //.
  { rw /query_values. repeat (apply list.Forall_cons; split; [done|]).
    rw (merge_sort_Permutation val_le). rw /optional_values.
    repeat (apply list.Forall_app; split); repeat case_match; try constructor; done. }
  f_equal. rw /event_query optional_text /query_values !fmap_app !fmap_cons /=.
  rw /pair_text /= !escape_unreserved //.
  destruct (merge_sort val_le (optional_values r)) as [|kv l]; simpl; by rw ?str_app_nil_r.
Qed.

Lemma query_get k : k ∉ [TypeParameter; BidIdParameter; AccountIdParameter] ->
  Get query_values k = Get (optional_values r) k.
Proof.
  intros Hk. rw /query_values Get_app //. symmetry. apply Get_perm; [apply optional_nodup|].
  by rw merge_sort_Permutation.
Qed.
End RoundTrip.

(** An event URL carries its request: reading back the query of the URL
    made for a well-formed request, whose bid and account ids are made of
    characters that need no escaping, gives the same request (an unset
    analytics flag reads as enabled, the account id is read by the handler)
    without errors, whatever bytes the bidder's name holds. *)
Theorem event_url_roundtrip r
    (Ht : type_ok (ev_Type r)) (Hf : format_ok (ev_Format r)) (Ha : analytics_ok (ev_Analytics r))
    (Hb : plain_id (ev_BidID r)) (Hacc : plain_id (ev_AccountID r))
    (Hts : (0 <= ev_Timestamp r)%Z /\ Int64.in_range (ev_Timestamp r) = true) :
  ParseEventRequest (event_query r) =
    (mkEventRequest (ev_Type r) (ev_Format r)
       (if GoStr.is_empty (ev_Analytics r) then anEnabled else ev_Analytics r)
       (ev_BidID r) "" (ev_Bidder r) (ev_Timestamp r), []) /\
  checkRequiredParameter (ParseQuery (event_query r)) AccountIdParameter = inl (ev_AccountID r).
Proof.
  destruct Hb as [Hb1 Hb2], Hacc as [Hac1 Hac2], Hts as [Hts Hr].
  assert (ParseQuery (event_query r) = query_values r) as Hq
    by (apply event_query_values; [by destruct Ht as [->| ->]|done|done]).
  assert (checkRequiredParameter (query_values r) AccountIdParameter = inl (ev_AccountID r)) as Hca.
  { rw /checkRequiredParameter. change (Get (query_values r) AccountIdParameter) with (ev_AccountID r).
    by apply is_empty_false in Hac1 as ->. }
  assert (checkRequiredParameter (query_values r) BidIdParameter = inl (ev_BidID r)) as Hcb.
  { rw /checkRequiredParameter. change (Get (query_values r) BidIdParameter) with (ev_BidID r).
    by apply is_empty_false in Hb1 as ->. }
  assert (readType (query_values r) = inl (ev_Type r)) as Hty.
  { rw /readType /checkRequiredParameter. change (Get (query_values r) TypeParameter) with (ev_Type r).
    by destruct Ht as [->| ->]. }
  assert (forall k, k ∈ [BidderParameter; TimestampParameter; FormatParameter; AnalyticsParameter] ->
    Get (query_values r) k = Get (optional_values r) k) as Hg.
  { intros k Hk. apply query_get. intros Hin. revert Hk Hin. rw !elem_of_cons !elem_of_nil.
    intros [->|[->|[->|[->|[]]]]]; by intros [?|[?|[?|?]]]. }
  assert (readTimestamp (query_values r) = inl (ev_Timestamp r)) as Hti.
  { rw /readTimestamp Hg; [by apply (iffLR (bool_decide_eq_true _))|]. rw /optional_values.
    destruct (0 <? ev_Timestamp r)%Z eqn:E.
    - change (Get (_ ++ _) TimestampParameter) with (GoStr.itoa (ev_Timestamp r)).
      assert (GoStr.is_empty (GoStr.itoa (ev_Timestamp r)) = false) as ->; [|by rw atoi_itoa].
      pose proof (atoi_itoa _ Hr) as Hi. by destruct (GoStr.itoa (ev_Timestamp r)).
    - assert (ev_Timestamp r = 0%Z) as -> by lia. destruct (GoStr.is_empty (ev_Bidder r)); repeat case_match; done. }
  assert (Get (query_values r) BidderParameter = ev_Bidder r) as Hbi.
  { rw Hg; [by apply (iffLR (bool_decide_eq_true _))|]. rw /optional_values.
    destruct (0 <? ev_Timestamp r)%Z; destruct (GoStr.is_empty (ev_Bidder r)) eqn:E; try done;
      apply is_empty_true in E; rw E; repeat case_match; done. }
  assert (readFormat (query_values r) = inl (ev_Format r)) as Hfo.
  { rw /readFormat Hg; [by apply (iffLR (bool_decide_eq_true _))|]. rw /optional_values.
    destruct (0 <? ev_Timestamp r)%Z; destruct (GoStr.is_empty (ev_Bidder r));
      destruct Hf as [->|[->| ->]]; destruct Ha as [->|[->| ->]]; done. }
  assert (readAnalytics (query_values r) = inl (if GoStr.is_empty (ev_Analytics r) then anEnabled else ev_Analytics r)) as Han.
  { rw /readAnalytics Hg; [by apply (iffLR (bool_decide_eq_true _))|]. rw /optional_values.
    destruct (0 <? ev_Timestamp r)%Z; destruct (GoStr.is_empty (ev_Bidder r));
      destruct Hf as [->|[->| ->]]; destruct Ha as [->|[->| ->]]; done. }
  rw Hq. split; [|done]. by rw /ParseEventRequest Hq Hty Hcb Hti Hfo Han Hbi.
Qed.

Definition demo_event : EventRequest :=
  mkEventRequest evWin "" "" "bid-1" "1001" "bidder & co" 1616000000000.

(** The theorem on a bidder whose name needs escaping. *)
Lemma event_url_roundtrip_witness :
  event_query demo_event = "t=win&b=bid-1&a=1001&bidder=bidder+%26+co&ts=1616000000000"%string /\
  ev_Bidder (ParseEventRequest (event_query demo_event)).1 = "bidder & co"%string.
Proof.
  split; [vm_compute; reflexivity|].
  destruct (event_url_roundtrip demo_event) as [H _]; [by left|by left|by left|by split|by split|by split|].
  rw H. reflexivity.
Defined.

(** An id with an ampersand is not escaped: it ends early and its rest is read
    as a parameter. *)
Lemma event_id_not_escaped :
  ev_BidID (ParseEventRequest (event_query (mkEventRequest evWin "" "" "id&x=0" "1001" "" 0))).1 = "id"%string /\
  ev_Analytics (ParseEventRequest (event_query (mkEventRequest evWin "" "" "id&x=0" "1001" "" 0))).1 = anDisabled.
Proof. by vm_compute. Qed.
