(* ===== verification/AccountAccess.v ===== *)
(** * Accounts

    [account/account.go]: the account of a publisher, its settings merged over
    the host's defaults, with the access rules applied; and the JSON form of
    [config.Account] that the merge works on ([config/accounts.go],
    [MarshalAccountDefaults] of [config/config.go]). *)

From S2P Require Import Prelude Float64 ErrorTypes Json Auction Accounts Url JsonParser StoredMerge.

Definition PublisherUnknown : string := "unknown".

(** ** The JSON form *)
Definition dec_integration : decoder AccountIntegration := dec_struct (fun kvs =>
  amp ← dec_field (dec_ptr dec_bool) None "amp" kvs;
  app ← dec_field (dec_ptr dec_bool) None "app" kvs;
  video ← dec_field (dec_ptr dec_bool) None "video" kvs;
  web ← dec_field (dec_ptr dec_bool) None "web" kvs;
  Some (mkIntegration amp app video web)).
Definition dec_ttls : decoder DefaultTTLs := dec_struct (fun kvs =>
  banner ← dec_field dec_int 0%Z "Banner" kvs;
  video ← dec_field dec_int 0%Z "Video" kvs;
  native ← dec_field dec_int 0%Z "Native" kvs;
  audio ← dec_field dec_int 0%Z "Audio" kvs;
  Some (mkDefaultTTLs banner video native audio)).
Definition dec_account_ccpa : decoder AccountCCPA := dec_struct (fun kvs =>
  enabled ← dec_field (dec_ptr dec_bool) None "enabled" kvs;
  integration ← dec_field dec_integration no_integration "integration_enabled" kvs;
  Some (mkAccountCCPA enabled integration)).
Definition dec_account_gdpr : decoder AccountGDPR := dec_struct (fun kvs =>
  enabled ← dec_field (dec_ptr dec_bool) None "enabled" kvs;
  integration ← dec_field dec_integration no_integration "integration_enabled" kvs;
  vendors ← dec_field (dec_list dec_string) [] "basic_enforcement_vendors" kvs;
  Some (mkAccountGDPR enabled integration vendors)).
Definition dec_account : decoder Account := dec_struct (fun kvs =>
  id ← dec_field dec_string ""%string "id" kvs;
  disabled ← dec_field dec_bool false "disabled" kvs;
  ttl ← dec_field dec_ttls (mkDefaultTTLs 0 0 0 0) "cache_ttl" kvs;
  events ← dec_field dec_bool false "events_enabled" kvs;
  ccpa ← dec_field dec_account_ccpa (mkAccountCCPA None no_integration) "ccpa" kvs;
  gdpr ← dec_field dec_account_gdpr (mkAccountGDPR None no_integration []) "gdpr" kvs;
  debug ← dec_field dec_bool false "debug_allow" kvs;
  Some (mkAccount id disabled ttl events ccpa gdpr debug)).

Definition enc_flag (name : string) (b : option bool) : list (string * json) :=
  match b with Some b => [(name, JBool b)] | None => [] end.
Definition enc_integration (i : AccountIntegration) : json :=
  JObj (enc_flag "amp" (ai_AMP i) ++ enc_flag "app" (ai_App i) ++ enc_flag "video" (ai_Video i) ++ enc_flag "web" (ai_Web i)).
Definition enc_ttls (t : DefaultTTLs) : json :=
  JObj [("Banner", enc_int (ttl_Banner t)); ("Video", enc_int (ttl_Video t)); ("Native", enc_int (ttl_Native t));
        ("Audio", enc_int (ttl_Audio t))]%string.
(** No vendors is the nil slice, which encodes as null. *)
Definition enc_vendors (l : list string) : json := match l with [] => JNull | _ => enc_list JStr l end.
Definition enc_account (a : Account) : json :=
  JObj [("id", JStr (acct_ID a)); ("disabled", JBool (acct_Disabled a)); ("cache_ttl", enc_ttls (acct_CacheTTL a));
        ("events_enabled", JBool (acct_EventsEnabled a));
        ("ccpa", JObj (enc_flag "enabled" (ac_Enabled (acct_CCPA a)) ++
                       [("integration_enabled", enc_integration (ac_IntegrationEnabled (acct_CCPA a)))]));
        ("gdpr", JObj (enc_flag "enabled" (ag_Enabled (acct_GDPR a)) ++
                       [("integration_enabled", enc_integration (ag_IntegrationEnabled (acct_GDPR a)));
                        ("basic_enforcement_vendors",
                           enc_vendors (ag_BasicEnforcementVendors (acct_GDPR a)))]));
        ("debug_allow", JBool (acct_DebugAllow a))]%string.

(** ** Access *)
Record AccountConfig := mkAccountConfig {
  BlacklistedAcctMap : gset string; AccountRequired : bool; AccountDefaults : Account;
  accountDefaultsJSON : RawMessage }.
Definition MarshalAccountDefaults (cfg : AccountConfig) : AccountConfig :=
  mkAccountConfig (BlacklistedAcctMap cfg) (AccountRequired cfg) (AccountDefaults cfg) (RawJson (enc_account (AccountDefaults cfg))).

Definition acct_set_ID (a : Account) (id : string) : Account :=
  let 'mkAccount _ d t e c g b := a in mkAccount id d t e c g b.
Definition disabled_msg (accountID : string) : string :=
  "Prebid-server has disabled Account ID: " ⧺ accountID ⧺ ", please reach out to the prebid server host.".
Definition no_account_msg : string :=
  "Prebid-server has been configured to discard requests without a valid Account ID. Please reach out to the prebid server host.".
Definition unverified_msg : string :=
  "Prebid-server could not verify the Account ID. Please reach out to the prebid server host.".
Definition is_not_found (e : error) : bool := match e with ENotFound _ _ => true | _ => false end.

Section GetAccount.
Context `{JsonPatch}.

(** The account that was found, over the defaults. *)
Definition merged_account (cfg : AccountConfig) (accountID : string) (accountJSON : RawMessage) : Account + error :=
  match MergePatch (accountDefaultsJSON cfg) accountJSON with
  | inr err => inr err
  | inl completeJSON =>
      match unmarshal dec_account completeJSON with
      | inr err => inr err
      | inl account => inl (if GoStr.is_empty (acct_ID account) then acct_set_ID account accountID else account)
      end
  end.
(** The account before the last check, with the errors met so far. *)
Definition lookup_account (cfg : AccountConfig) (FetchAccount : string -> RawMessage * list error) (accountID : string) :
  (Account * list error) + list error :=
  let '(accountJSON, accErrs) := FetchAccount accountID in
  if (0 <? length accErrs)%nat || raw_is_nil accountJSON then
    let errs := List.filter (fun e => negb (is_not_found e)) accErrs in
    if AccountRequired cfg && acct_Disabled (AccountDefaults cfg) then inr (errs ++ [EAcctRequired unverified_msg])
    else inl (acct_set_ID (AccountDefaults cfg) accountID, errs)
  else
    match merged_account cfg accountID accountJSON with
    | inr err => inr [err]
    | inl account => inl (account, [])
    end.
(** [GetAccount]: the account, or the errors. *)
Definition GetAccount (cfg : AccountConfig) (FetchAccount : string -> RawMessage * list error) (accountID : string) :
  Account + list error :=
  if bool_decide (accountID ∈ BlacklistedAcctMap cfg) then inr [EBlacklistedAcct (disabled_msg accountID)]
  else if AccountRequired cfg && GoStr.eqb accountID PublisherUnknown then inr [EAcctRequired no_account_msg]
  else
    match lookup_account cfg FetchAccount accountID with
    | inr errs => inr errs
    | inl (account, errs) =>
        if acct_Disabled account then inr (errs ++ [EBlacklistedAcct (disabled_msg accountID)]) else inl account
    end.
End GetAccount.

(** ** Theorems *)

Lemma enc_int_field z : Int64.in_range z = true -> dec_int (enc_int z) = Some z.
Proof. apply atoi_itoa. Qed.
Lemma integration_roundtrip i : dec_integration (enc_integration i) = Some i.
Proof. by destruct i as [[b1|] [b2|] [b3|] [b4|]]; vm_compute. Qed.
Definition ttls_in_range (t : DefaultTTLs) : Prop :=
  Int64.in_range (ttl_Banner t) = true /\ Int64.in_range (ttl_Video t) = true /\
  Int64.in_range (ttl_Native t) = true /\ Int64.in_range (ttl_Audio t) = true.
Lemma ttls_fields b v n a : dec_ttls (JObj [("Banner", b); ("Video", v); ("Native", n); ("Audio", a)]%string) =
  (b ← dec_int b; v ← dec_int v; n ← dec_int n; a ← dec_int a; Some (mkDefaultTTLs b v n a)).
Proof. by cbv -[dec_int]. Qed.
Lemma ttls_roundtrip t : ttls_in_range t -> dec_ttls (enc_ttls t) = Some t.
Proof. destruct t as [b v n a]. intros (Hb & Hv & Hn & Ha). rw /enc_ttls ttls_fields !enc_int_field //. Qed.

Lemma ccpa_fields (e : option bool) i : dec_account_ccpa (JObj (enc_flag "enabled" e ++ [("integration_enabled", i)]%string)) =
  (i ← dec_integration i; Some (mkAccountCCPA e i)).
Proof. by destruct e; cbv -[dec_integration]. Qed.
Lemma gdpr_fields (e : option bool) i v :
  dec_account_gdpr (JObj (enc_flag "enabled" e ++ [("integration_enabled", i); ("basic_enforcement_vendors", v)]%string)) =
  (i ← dec_integration i; v ← dec_list dec_string v; Some (mkAccountGDPR e i v)).
Proof. by destruct e; cbv -[dec_integration dec_list dec_string]. Qed.
Lemma account_fields i d t e c g b :
  dec_account (JObj [("id", JStr i); ("disabled", JBool d); ("cache_ttl", t); ("events_enabled", JBool e); ("ccpa", c); ("gdpr", g);
    ("debug_allow", JBool b)]%string) =
  (t ← dec_ttls t; c ← dec_account_ccpa c; g ← dec_account_gdpr g; Some (mkAccount i d t e c g b)).
Proof. by cbv -[dec_ttls dec_account_ccpa dec_account_gdpr]. Qed.
Lemma vendors_roundtrip l : dec_list dec_string (enc_vendors l) = Some l.
Proof.
  destruct l as [|v l]; [done|]. cbn. assert (mapM dec_string (JStr <$> l) = Some l) as ->; [|done].
  induction l as [|x l IH]; [done|]. cbn. by rw IH.
Qed.

(** The JSON form of an account, which the defaults are stored in and the
    accounts' own settings are merged over, decodes to the same account, as
    long as the cache times are [int]s. *)
Theorem account_roundtrip a : ttls_in_range (acct_CacheTTL a) -> dec_account (enc_account a) = Some a.
Proof.
  destruct a as [i d t e [ce ci] [ge gi gv] b]. intros Ht. cbn [acct_CacheTTL] in Ht.
  unfold enc_account. cbn [acct_ID acct_Disabled acct_CacheTTL acct_EventsEnabled acct_CCPA acct_GDPR acct_DebugAllow
    ac_Enabled ac_IntegrationEnabled ag_Enabled ag_IntegrationEnabled ag_BasicEnforcementVendors].
  by rw account_fields ttls_roundtrip // ccpa_fields gdpr_fields !integration_roundtrip vendors_roundtrip.
Qed.

Definition demo_account : Account :=
  mkAccount "" false (mkDefaultTTLs 300 3600 0 (-1)) true
    (mkAccountCCPA (Some false) (mkIntegration None (Some true) None None))
    (mkAccountGDPR None no_integration ["appnexus"%string]) true.
Lemma account_roundtrip_witness : dec_account (enc_account demo_account) = Some demo_account.
Proof. apply (account_roundtrip demo_account). split_and!; reflexivity. Defined.

Section Access.
Context `{JsonPatch} (cfg : AccountConfig) (FetchAccount : string -> RawMessage * list error) (accountID : string).

(** The host has an account of that id; it does not. *)
Definition account_found (j : RawMessage) : Prop := FetchAccount accountID = (j, []) /\ j <> RawNil.
Definition account_unknown : Prop := forall j, ~ account_found j.

Lemma fetched_cases : let '(j, errs) := FetchAccount accountID in
  if (0 <? length errs)%nat || raw_is_nil j then account_unknown else account_found j.
Proof.
  unfold account_unknown, account_found. destruct (FetchAccount accountID) as [j [|err errs]]; cbn; [|intros j'; by intros [[= ] _]].
  destruct j; cbn; try done. intros j'. intros [[= <-] Hne]. done.
Qed.

(** The account that is looked up, whether disabled or not. *)
Definition looked_up (a : Account) : Prop :=
  (exists j, account_found j /\ merged_account cfg accountID j = inl a) \/
  (account_unknown /\ (AccountRequired cfg = true -> acct_Disabled (AccountDefaults cfg) = false) /\
   a = acct_set_ID (AccountDefaults cfg) accountID).
(** The reason for an error. *)
Definition refused (err : error) : Prop :=
  err = EBlacklistedAcct (disabled_msg accountID) \/ err = EAcctRequired no_account_msg \/
  err = EAcctRequired unverified_msg \/ exists j, account_found j /\ merged_account cfg accountID j = inr err.

Lemma lookup_account_spec :
  match lookup_account cfg FetchAccount accountID with
  | inl (a, _) => forall a', looked_up a' <-> a' = a
  | inr errs => (forall a', ~ looked_up a') /\ exists before err, errs = before ++ [err] /\ refused err
  end.
Proof.
  unfold lookup_account. pose proof fetched_cases as Hf. destruct (FetchAccount accountID) as [j errs] eqn:Ef.
  destruct ((0 <? length errs)%nat || raw_is_nil j).
  - destruct (AccountRequired cfg && acct_Disabled (AccountDefaults cfg)) eqn:Ed.
    + apply andb_true_iff in Ed as [Hr Hd]. split; [|do 2 eexists; split; [done|by right; right; left]].
      intros a' [(j' & Hj & _)|(_ & Hn & _)]; [by destruct (Hf j')|]. rw Hn in Hd; done.
    + intros a'. split; [intros [(j' & Hj & _)|(_ & _ & ->)]; [by destruct (Hf j')|done]|].
      intros ->. right. split; [done|]. split; [|done]. intros Hr. by rw Hr in Ed.
  - assert (forall j', account_found j' -> j' = j) as Hone by (intros j' [Hj' _]; unfold account_found in Hf; congruence).
    destruct (merged_account cfg accountID j) as [acct|err] eqn:Em.
    + intros a'. split; [|intros ->; left; by exists j].
      intros [(j' & Hj & Hm)|(Hu & _)]; [|by destruct (Hu j)]. rw (Hone _ Hj) in Hm. congruence.
    + split; [|exists [], err; split; [done|]; right; right; right; by exists j].
      intros a' [(j' & Hj & Hm)|(Hu & _)]; [|by destruct (Hu j)]. rw (Hone _ Hj) in Hm. congruence.
Qed.

Lemma GetAccount_enabled a : GetAccount cfg FetchAccount accountID = inl a ->
  acct_Disabled a = false /\ (accountID ∉ BlacklistedAcctMap cfg).
Proof.
  unfold GetAccount. case_bool_decide; [done|]. destruct (_ && _); [done|].
  destruct (lookup_account _ _ _) as [[acct errs]|]; [|done]. destruct (acct_Disabled acct) eqn:E; [done|]. by intros [= <-].
Qed.

(** Who gets an account: [GetAccount] gives one exactly when its id is
    not blocked, an id is present if the host requires accounts, and the
    account is not disabled; it is the stored account merged over the
    defaults, or, when the host has none of that id, the defaults with the id,
    which a host that requires accounts and disables by default does not give.
    Otherwise the last error says why. *)
Theorem account_access :
  (forall a, GetAccount cfg FetchAccount accountID = inl a <->
    (accountID ∉ BlacklistedAcctMap cfg) /\ (AccountRequired cfg = true -> accountID <> PublisherUnknown) /\
    acct_Disabled a = false /\ looked_up a) /\
  (forall errs, GetAccount cfg FetchAccount accountID = inr errs ->
    exists before err, errs = before ++ [err] /\ refused err).
Proof.
  unfold GetAccount. case_bool_decide as Hb.
  { split; [split; [done|by intros []]|]. intros errs [= <-]. exists []. eexists. split; [done|by left]. }
  destruct (AccountRequired cfg && GoStr.eqb accountID PublisherUnknown) eqn:Er.
  { apply andb_true_iff in Er as [-> ->%String.eqb_eq]. split; [split; [done|by intros (_ & Hn & _); destruct Hn]|].
    intros errs [= <-]. exists []. eexists. split; [done|by right; left]. }
  assert (AccountRequired cfg = true -> accountID <> PublisherUnknown) as Hreq.
  { intros Hr ->. rw Hr in Er. by rw /GoStr.eqb String.eqb_refl in Er. }
  pose proof lookup_account_spec as Hl. destruct (lookup_account cfg FetchAccount accountID) as [[acct errs]|errs].
  - destruct (acct_Disabled acct) eqn:Ed.
    + split; [|intros errs' [= <-]; do 2 eexists; split; [done|by left]].
      intros a. split; [done|]. intros (_ & _ & Hd & ->%Hl). congruence.
    + split; [|done]. intros a. rw Hl. split; [by intros [= <-]|]. by intros (_ & _ & _ & ->).
  - destruct Hl as [Hn Hex]. split; [|by intros ? [= <-]]. intros a. split; [done|]. intros (_ & _ & _ & Ha). by destruct (Hn a).
Qed.
End Access.

Definition demo_account_config : AccountConfig :=
  MarshalAccountDefaults (mkAccountConfig {["bad"%string]} true demo_account RawNil).
Definition demo_fetch_account (id : string) : RawMessage * list error :=
  if GoStr.eqb id "p1" then (RawJson (JObj [("events_enabled", JBool false)]%string), [])
  else (RawNil, [ENotFound id "Account"]).
Example get_account_examples :
  let get id := GetAccount demo_account_config demo_fetch_account id in
  get "p1"%string = inl (mkAccount "p1" false (acct_CacheTTL demo_account) false (acct_CCPA demo_account)
                           (acct_GDPR demo_account) true) /\
  get "p2"%string = inl (acct_set_ID demo_account "p2") /\ get "bad"%string = inr [EBlacklistedAcct (disabled_msg "bad")] /\
  get "unknown"%string = inr [EAcctRequired no_account_msg].
Proof. by vm_compute. Qed.
