(* ===== verification/Vtrack.v ===== *)
(** * The VAST tracking endpoint

    [endpoints/events/vtrack.go]: VAST documents that are put into the cache
    for an account, with an impression tracker added to those of the bidders
    that allow it.  The change of a document is [Events.ModifyVastXmlString];
    the cache client and the accounts are arguments. *)

From S2P Require Import Prelude Url ErrorTypes Json InfoBidder Auction Accounts StoredRequests StoredMerge AccountAccess Events.

(** ** The request *)
(** A [Cacheable] with the members of this endpoint. *)
Record Put := mkPut {
  vp_Type : string; vp_Data : RawMessage; vp_TTLSeconds : Z; vp_Key : string;
  vp_BidID : string; vp_Bidder : string; vp_Timestamp : Z }.
Definition dec_put : decoder Put := dec_struct (fun kvs =>
  type ← dec_field dec_string ""%string "type" kvs;
  data ← dec_field (fun j => Some (RawJson j)) RawNil "value" kvs;
  ttl ← dec_field dec_int 0%Z "ttlseconds" kvs;
  key ← dec_field dec_string ""%string "key" kvs;
  bidid ← dec_field dec_string ""%string "bidid" kvs;
  bidder ← dec_field dec_string ""%string "bidder" kvs;
  timestamp ← dec_field dec_int 0%Z "timestamp" kvs;
  Some (mkPut type data ttl key bidid bidder timestamp)).
(** [BidCacheRequest]. *)
Definition dec_puts : decoder (list Put) := dec_struct (dec_field (dec_list dec_put) [] "puts").

Fixpoint check_puts (puts : list Put) : option error :=
  match puts with
  | [] => None
  | bcr :: rest =>
      if GoStr.is_empty (vp_BidID bcr) then Some (EBadInput "'bidid' is required field and can't be empty")
      else if GoStr.is_empty (vp_Bidder bcr) then Some (EBadInput "'bidder' is required field and can't be empty")
      else check_puts rest
  end.
(** [ParseVTrackRequest]; [ReadAll] gives the body up to a limit and what is
    left of the limit. *)
Definition ParseVTrackRequest (ReadAll : Z -> (RawMessage * Z) + error) (maxRequestSize : Z) : list Put + error :=
  match ReadAll maxRequestSize with
  | inr err => inr err
  | inl (requestJson, N) =>
      if (N <=? 0)%Z then inr (EBadInput ("request size exceeded max size of " ⧺ GoStr.itoa (maxRequestSize - 1) ⧺ " bytes"))
      else if raw_len0 requestJson then inr (EBadInput "request body is empty")
      else match unmarshal dec_puts requestJson with
           | inr err => inr err
           | inl puts => match check_puts puts with Some err => inr err | None => inl puts end
           end
  end.

(** ** The change of a document *)
(** What is put: the data that came, or the bare text of a changed document. *)
Inductive PutData := Same (data : RawMessage) | Changed (text : string).
Record CachePut := mkCachePut { cp_Type : string; cp_Data : PutData; cp_TTLSeconds : Z; cp_Key : string }.

Section Vtrack.
Context `{JsonPatch}.
(** The bytes of a message. *)
Context (raw_text : RawMessage -> string).
Context (externalURL : string) (BidderInfos : gmap string BidderInfo) (AllowUnknownBidder : bool).
Definition ModifyVastXmlJSON (data : RawMessage) (bidid bidder accountId : string) (timestamp : Z) : PutData :=
  let vast := match unmarshal dec_string data with inl vast => vast | inr _ => raw_text data end in
  match ModifyVastXmlString externalURL vast bidid bidder accountId timestamp with
  | (_, false) => Same data
  | (vast, true) => Changed vast
  end.
Definition isAllowVastForBidder (bidder : string) : bool :=
  match BidderInfos !! bidder with
  | Some b => bi_Enabled b && bi_ModifyingVastXmlAllowed b
  | None => AllowUnknownBidder
  end.
Definition allow_step (bl : gset string) (bcr : Put) : gset string :=
  if isAllowVastForBidder (vp_Bidder bcr) && negb (bool_decide (vp_Bidder bcr ∈ bl)) then {[vp_Bidder bcr]} ∪ bl else bl.
Definition getBiddersAllowingVastUpdate (puts : list Put) : gset string := fold_left allow_step puts ∅.
(** [cachePutObjects]: what is put. *)
Definition put_object (allowing : gset string) (accountId : string) (c : Put) : CachePut :=
  mkCachePut (vp_Type c)
    (if bool_decide (vp_Bidder c ∈ allowing) && negb (raw_is_nil (vp_Data c))
     then ModifyVastXmlJSON (vp_Data c) (vp_BidID c) (vp_Bidder c) accountId (vp_Timestamp c) else Same (vp_Data c))
    (vp_TTLSeconds c) (vp_Key c).

(** ** The handler *)
Inductive VtrackAnswer := Refused (status : Z) (texts : list string) | Cached (uuids : list string).
Context (ReadAll : Z -> (RawMessage * Z) + error) (MaxRequestSize : Z).
Context (accounts : AccountConfig) (FetchAccount : string -> RawMessage * list error).
(** The client of the cache, if there is one. *)
Context (PutJson : option (list CachePut -> list string * list error)).
Definition newline : string := String (Ascii.ascii_of_nat 10) EmptyString.
(** [Handle]; [None] would be a nil account without an error. *)
Definition Handle (query : Values) : option VtrackAnswer :=
  let accountId := Url.Get query "a" in
  if GoStr.is_empty accountId then Some (Refused 400 ["Account 'a' is required query parameter and can't be empty"])
  else
    match ParseVTrackRequest ReadAll (MaxRequestSize + 1) with
    | inr err => Some (Refused 400 ["Invalid request: " ⧺ error_string err ⧺ newline])
    | inl req =>
        match GetAccount accounts FetchAccount accountId with
        | inr ((_ :: _) as errs) =>
            let '(status, messages) := HandleAccountServiceErrors errs in
            Some (Refused status ((fun message => "Invalid request: " ⧺ message ⧺ newline) <$> messages))
        | inr [] => None
        | inl account =>
            match PutJson with
            | None => Some (Refused 500 ["PBS Cache client is not configured"])
            | Some PutJson =>
                Some (match PutJson (put_object (getBiddersAllowingVastUpdate req) (acct_ID account) <$> req) with
                      | (_, err :: _) => Refused 500 ["Error(s) updating vast: " ⧺ error_string err ⧺ newline]
                      | (uuids, []) => Cached uuids
                      end)
            end
        end
    end.
End Vtrack.

(** ** Facts *)
Section Insertion.
Lemma has_prefix_split p s : GoStr.has_prefix p s = true -> exists post, s = p ⧺ post.
Proof.
  revert s. induction p as [|a p IH]; intros s; [by exists s|]. destruct s as [|b s]; [done|]. cbn.
  intros [->%Ascii.eqb_eq (post & ->)%IH]%andb_true_iff. by exists post.
Qed.
Lemma index_of_split sub s i : index_of sub s = Some i -> exists pre post, s = pre ⧺ sub ⧺ post /\ GoStr.len pre = i.
Proof.
  revert i. induction s as [|a s IH]; intros i; cbn [index_of]; destruct (GoStr.has_prefix sub _) eqn:Ep;
    try (intros [= <-]; apply has_prefix_split in Ep as [post ->]; by exists ""%string, post).
  destruct (index_of sub s) as [j|]; cbn; [|done]. intros [= <-]. destruct (IH j eq_refl) as (pre & post & -> & <-).
  by exists (String a pre), post.
Qed.
Lemma replace_split old new s i : index_of old s = Some i ->
  exists pre post, s = pre ⧺ old ⧺ post /\ GoStr.len pre = i /\ replace_first old new s = pre ⧺ new ⧺ post.
Proof.
  intros Hi. destruct (index_of_split _ _ _ Hi) as (pre & post & -> & <-). exists pre, post. split; [done|]. split; [done|].
  unfold replace_first. rw Hi take_app_exact. do 2 f_equal. by rw -str_len_app -(str_app_assoc pre old post) drop_app_exact.
Qed.

(** The tracker of a bid: the address of an impression event, in character
    data. *)
Definition tracker (externalUrl bidid bidder accountID : string) (timestamp : Z) : string :=
  "<![CDATA[" ⧺ externalUrl ⧺ "/event?t=imp&b=" ⧺ bidid ⧺ "&a=" ⧺ accountID ⧺ "&bidder=" ⧺ QueryEscape bidder ⧺ "&f=b" ⧺
  (if bool_decide (0 < timestamp)%Z then "&ts=" ⧺ QueryEscape (GoStr.itoa timestamp) else "") ⧺ "]]>".
(** The tracker goes into the first impression when nothing is between its
    tags, otherwise an impression of its own follows the first end of one.  A
    document without a beginning whose first end is at byte 11 stays. *)
Definition tracked (vast tracker new : string) : Prop :=
  exists pre post, vast = pre ⧺ "</Impression>" ⧺ post /\ index_of "</Impression>" vast = Some (GoStr.len pre) /\
    ((exists before, pre = before ⧺ "<Impression>" /\ index_of "<Impression>" vast = Some (GoStr.len before) /\
                     new = pre ⧺ tracker ⧺ "</Impression>" ⧺ post) \/
     (index_of "<Impression>" vast = None /\ GoStr.len pre = 11 /\ new = vast) \/
     ((forall i, index_of "<Impression>" vast = Some i -> i + 12 <> GoStr.len pre) /\
      (index_of "<Impression>" vast = None -> GoStr.len pre <> 11) /\
      new = pre ⧺ "</Impression><Impression>" ⧺ tracker ⧺ "</Impression>" ⧺ post)).
Lemma tracker_values bidder timestamp : bidder <> ""%string ->
  optionalParameters (mkEventRequest evImp fmtBlank "" "" "" bidder timestamp) =
    "&bidder=" ⧺ QueryEscape bidder ⧺ "&f=b" ⧺ (if bool_decide (0 < timestamp)%Z then "&ts=" ⧺ QueryEscape (GoStr.itoa timestamp) else "").
Proof.
  intros Hb. apply is_empty_false in Hb. unfold optionalParameters, optional_values.
  cbn [ev_Type ev_Format ev_Analytics ev_BidID ev_AccountID ev_Bidder ev_Timestamp]. rw Hb.
  destruct (Z.ltb_spec 0 timestamp) as [Hlt|Hge]; [by rw bool_decide_eq_true_2|rw bool_decide_eq_false_2; [lia|]].
  set (values := _ ++ _). assert (Encode values = "bidder=" ⧺ QueryEscape bidder ⧺ "&" ⧺ "f=b") as -> by done. by rw str_app_nil_r.
Qed.
Lemma tracking_url externalUrl bidid bidder accountID timestamp : bidder <> ""%string ->
  "<![CDATA[" ⧺ GetVastUrlTracking externalUrl bidid bidder accountID timestamp ⧺ "]]>" = tracker externalUrl bidid bidder accountID timestamp.
Proof.
  intros Hb. unfold GetVastUrlTracking, EventRequestToUrl, event_query, tracker. cbn [ev_Type ev_BidID ev_AccountID].
  change (optionalParameters (mkEventRequest evImp fmtBlank "" bidid accountID bidder timestamp))
    with (optionalParameters (mkEventRequest evImp fmtBlank "" "" "" bidder timestamp)). rw (tracker_values _ _ Hb).
  change "/event?t=imp&b="%string with ("/event?" ⧺ "t=" ⧺ evImp ⧺ "&b="). by rw !str_app_assoc.
Qed.
Lemma modify_vast_spec externalUrl vast bidid bidder accountID timestamp : bidder <> ""%string ->
  match ModifyVastXmlString externalUrl vast bidid bidder accountID timestamp with
  | (new, false) => index_of "</Impression>" vast = None /\ new = vast
  | (new, true) => tracked vast (tracker externalUrl bidid bidder accountID timestamp) new
  end.
Proof.
  intros Hb. unfold ModifyVastXmlString, ImpressionCloseTag, ImpressionOpenTag.
  destruct (index_of "</Impression>" vast) as [ci|] eqn:Ec; [|done]. rw (tracking_url _ _ _ _ _ Hb). cbv zeta.
  set (tr := tracker _ _ _ _ _). change (GoStr.len "<Impression>") with 12.
  destruct (index_of_split _ _ _ Ec) as (pre & post & Hv & <-). destruct (Z.eqb_spec
    (Z.of_nat (GoStr.len pre) - match index_of "<Impression>" vast with Some i => Z.of_nat i | None => -1 end)%Z (Z.of_nat 12)) as [Heq|Hne];
    exists pre, post; (split; [done|]; split; [done|]).
  - destruct (index_of "<Impression>" vast) as [oi|] eqn:Eo.
    + left. destruct (replace_split _ ("<Impression>" ⧺ tr) _ _ Eo) as (before & rest & Hv' & <- & ->). exists before.
      assert (pre = before ⧺ "<Impression>") as Hpre.
      { assert (GoStr.len pre = GoStr.len (before ⧺ "<Impression>")) as Hl by (rw str_len_app; change (GoStr.len "<Impression>") with 12; lia).
        rewrite <- (take_app_exact pre ("</Impression>" ⧺ post)), <- Hv, Hl, Hv', <- str_app_assoc. apply take_app_exact. }
      split_and!; [done|done|]. rw Hpre Hv' !str_app_assoc in Hv. rw Hpre !str_app_assoc. apply str_app_inj_l, str_app_inj_l in Hv. by rw Hv.
    + right; left. split_and!; [done|lia|]. unfold replace_first. by rw Eo.
  - right; right. split_and!; [intros i Hi; rw Hi in Hne; lia|intros Hi; rw Hi in Hne; lia|].
    destruct (replace_split _ ("</Impression>" ⧺ "<Impression>" ⧺ tr ⧺ "</Impression>") _ _ Ec) as (pre' & post' & Hv' & Hl & ->).
    assert (pre' = pre) as ->.
    { rewrite <- (take_app_exact pre ("</Impression>" ⧺ post)), <- Hv, <- Hl, Hv'. symmetry. apply take_app_exact. }
    rw Hv in Hv'. apply str_app_inj_l, str_app_inj_l in Hv'. subst post'. by rw !str_app_assoc.
Qed.

(** The bidders whose documents may be changed: an enabled one that is
    configured to allow it, or an unknown one on a host that allows these. *)
Definition may_change (BidderInfos : gmap string BidderInfo) (AllowUnknownBidder : bool) (bidder : string) : Prop :=
  match BidderInfos !! bidder with
  | Some info => bi_Enabled info = true /\ bi_ModifyingVastXmlAllowed info = true
  | None => AllowUnknownBidder = true
  end.
Lemma allow_iff BidderInfos AllowUnknownBidder bidder :
  isAllowVastForBidder BidderInfos AllowUnknownBidder bidder = true <-> may_change BidderInfos AllowUnknownBidder bidder.
Proof. unfold isAllowVastForBidder, may_change. destruct (BidderInfos !! bidder); [apply andb_true_iff|done]. Qed.
Lemma allowing_spec BidderInfos AllowUnknownBidder puts bidder :
  bidder ∈ getBiddersAllowingVastUpdate BidderInfos AllowUnknownBidder puts <->
  isAllowVastForBidder BidderInfos AllowUnknownBidder bidder = true /\ bidder ∈ vp_Bidder <$> puts.
Proof.
  unfold getBiddersAllowingVastUpdate.
  assert (forall bl, bidder ∈ fold_left (allow_step BidderInfos AllowUnknownBidder) puts bl <->
    bidder ∈ bl \/ isAllowVastForBidder BidderInfos AllowUnknownBidder bidder = true /\ bidder ∈ vp_Bidder <$> puts) as Hl.
  { induction puts as [|c puts IH]; intros bl; cbn [fold_left].
    { cbn. rw elem_of_nil. tauto. }
    rw IH fmap_cons elem_of_cons. unfold allow_step. destruct (isAllowVastForBidder _ _ (vp_Bidder c)) eqn:Ea; cbn [andb].
    - case_bool_decide as Hin; cbn [negb]; [|rw elem_of_union elem_of_singleton]; split.
      + tauto.
      + intros [?|(? & [->|?])]; tauto.
      + intros [[->|?]|?]; tauto.
      + intros [?|(? & [->|?])]; tauto.
    - split; [tauto|]. intros [?|(? & [->|?])]; [tauto|congruence|tauto]. }
  rw Hl. set_solver.
Qed.
End Insertion.

Lemma account_status errs : fold_left status_step errs 400%Z ∈ [400; 500; 503; 504]%Z.
Proof.
  assert (forall s, s ∈ [400; 503; 504]%Z -> fold_left status_step errs s ∈ [400; 503; 504]%Z) as Hl; [|specialize (Hl 400%Z); set_solver].
  induction errs as [|e errs IH]; intros s Hs; [done|]. cbn. apply IH. unfold status_step. repeat case_match; set_solver.
Qed.

Lemma parsed_puts ReadAll n req : ParseVTrackRequest ReadAll n = inl req ->
  Forall (fun c => vp_BidID c <> "" /\ vp_Bidder c <> "")%string req.
Proof.
  unfold ParseVTrackRequest. destruct (ReadAll n) as [[j N]|]; [|done]. destruct (N <=? 0)%Z, (raw_len0 j); try done.
  destruct (unmarshal dec_puts j) as [puts|]; [|done]. destruct (check_puts puts) eqn:Ec; [done|]. intros [= <-].
  induction puts as [|c puts IH]; [done|]. cbn in Ec. destruct (GoStr.is_empty (vp_BidID c)) eqn:E1; [done|].
  destruct (GoStr.is_empty (vp_Bidder c)) eqn:E2; [done|]. constructor; [|by apply IH]. by split; apply is_empty_false.
Qed.

(** C33: What the VAST tracking endpoint puts into the cache, and what it
    answers: the uuids of the cache, or a refusal with 400, 500, 503 or 504.
    It puts what was asked for: every put names a bid and a bidder and keeps
    its type, time to live and key; its document is changed exactly when it
    has an impression and the bidder is enabled and configured to allow it (or
    unknown, where the host allows these), and then by the insertion of the
    tracker of this bid, bidder, account and time: into the first impression
    if that is empty, otherwise in one of its own behind it. *)
Theorem vtrack_correct `{JsonPatch} raw_text externalURL BidderInfos AllowUnknownBidder ReadAll MaxRequestSize accounts FetchAccount
    PutJson query ans :
  Handle raw_text externalURL BidderInfos AllowUnknownBidder ReadAll MaxRequestSize accounts FetchAccount PutJson query = Some ans ->
  (exists status texts, ans = Refused status texts /\ status ∈ [400; 500; 503; 504]%Z) \/
  exists uuids req account put cached, ans = Cached uuids /\
    ParseVTrackRequest ReadAll (MaxRequestSize + 1) = inl req /\
    GetAccount accounts FetchAccount (Url.Get query "a") = inl account /\ PutJson = Some put /\ put cached = (uuids, []) /\
    Forall2 (fun c p => vp_BidID c <> ""%string /\ vp_Bidder c <> ""%string /\
      cp_Type p = vp_Type c /\ cp_TTLSeconds p = vp_TTLSeconds c /\ cp_Key p = vp_Key c /\
      let vast := match unmarshal dec_string (vp_Data c) with inl vast => vast | inr _ => raw_text (vp_Data c) end in
      match cp_Data p with
      | Same data => data = vp_Data c /\
          (~ may_change BidderInfos AllowUnknownBidder (vp_Bidder c) \/ vp_Data c = RawNil \/ index_of "</Impression>" vast = None)
      | Changed text => may_change BidderInfos AllowUnknownBidder (vp_Bidder c) /\
          tracked vast (tracker externalURL (vp_BidID c) (vp_Bidder c) (acct_ID account) (vp_Timestamp c)) text
      end) req cached.
Proof.
  unfold Handle. destruct (GoStr.is_empty _); [intros [= <-]; left; do 2 eexists; split; [done|set_solver]|].
  destruct (ParseVTrackRequest ReadAll _) as [req|err] eqn:Ep; [|intros [= <-]; left; do 2 eexists; split; [done|set_solver]].
  destruct (GetAccount accounts FetchAccount _) as [account|[|err errs]] eqn:Ea; [|done|].
  2: { destruct (HandleAccountServiceErrors (err :: errs)) as [status messages] eqn:Eh. intros [= <-]. left. do 2 eexists. split; [done|].
       injection Eh as <- _. apply (account_status (err :: errs)). }
  destruct PutJson as [put|]; [|intros [= <-]; left; do 2 eexists; split; [done|set_solver]].
  destruct (put _) as [uuids [|err errs]] eqn:Eput; intros [= <-]; [right|left; do 2 eexists; split; [done|set_solver]].
  do 5 eexists. split; [done|]. split; [done|]. split; [done|]. split; [done|]. split; [exact Eput|].
  apply Forall2_fmap_r, Forall_Forall2_diag, list.Forall_forall. intros c Hc. pose proof (parsed_puts _ _ _ Ep) as Hok.
  rw list.Forall_forall in Hok. destruct (Hok c Hc). cbn. split_and!; try done.
  case_bool_decide as Hin; cbn [andb negb].
  2: { split; [done|]. left. rw -allow_iff. intros Hal. apply Hin, allowing_spec. split; [exact Hal|]. apply list_elem_of_fmap. by exists c. }
  apply allowing_spec in Hin as [Hal _]. apply allow_iff in Hal. destruct (raw_is_nil (vp_Data c)) eqn:En.
  { split; [done|]. right; left. by destruct (vp_Data c). }
  unfold ModifyVastXmlJSON. set (vast := match unmarshal _ _ with inl _ => _ | inr _ => _ end).
  pose proof (modify_vast_spec externalURL vast (vp_BidID c) (vp_Bidder c) (acct_ID account) (vp_Timestamp c) ltac:(done)) as Hm.
  destruct (ModifyVastXmlString _ _ _ _ _ _) as [new [|]]; [by split|]. split; [done|]. right; right. apply Hm.
Qed.

(** ** A concrete request *)
Definition demo_vast : string := "<VAST><Ad><Impression>x</Impression></Ad></VAST>".
Definition demo_puts : RawMessage :=
  RawJson (JObj [("puts"%string, JArr [
    JObj [("type", JStr "xml"); ("value", JStr demo_vast); ("bidid", JStr "b1"); ("bidder", JStr "appnexus"); ("ttlseconds", JNum "60")];
    JObj [("type", JStr "json"); ("value", JObj []); ("bidid", JStr "b2"); ("bidder", JStr "rubicon")]])])%string.
Definition demo_infos : gmap string BidderInfo :=
  {["appnexus"%string := mkBidderInfo true None true None 0]} : gmap string BidderInfo.
Definition demo_vtrack : option VtrackAnswer :=
  @Handle rfc7396 (fun _ => ""%string) "https://host" demo_infos false (fun n => inl (demo_puts, n)) 1000
    demo_account_config demo_fetch_account
    (Some (fun puts => (match puts with
                        | [p; q] => match cp_Data p, cp_Data q with Changed _, Same _ => ["u1"%string; "u2"%string] | _, _ => [] end
                        | _ => []
                        end, []))) [("a"%string, "p1"%string)].
Lemma vtrack_correct_witness : demo_vtrack = Some (Cached ["u1"; "u2"]%string) /\
  exists uuids (req : list Put) (cached : list CachePut), demo_vtrack = Some (Cached uuids) /\ length req = length cached /\ length uuids = 2.
Proof.
  assert (demo_vtrack = Some (Cached ["u1"; "u2"]%string)) as E by (vm_compute; reflexivity). split; [exact E|].
  pose proof E as E'. unfold demo_vtrack in E'.
  destruct (vtrack_correct _ _ _ _ _ _ _ _ _ _ _ E') as [(status & texts & Hr & _)|(uuids & req & account & put & cached & Hc & _ & _ & _ & _ & Hf)];
    [discriminate Hr|].
  exists uuids, req, cached. split; [rw E Hc; reflexivity|]. split; [exact (Forall2_length Hf)|]. injection Hc as <-. reflexivity.
Defined.

(** A changed document is put as bare text, which is not JSON. *)
Example changed_is_not_quoted :
  match ModifyVastXmlJSON (fun _ => ""%string) "https://host" (RawJson (JStr demo_vast)) "b1" "appnexus" "p1" 0 with
  | Changed text => GoStr.has_prefix "<VAST>" text = true
  | Same _ => False
  end.
Proof. by vm_compute. Qed.
(** The settings of an account on events are not looked at. *)
Example disabled_events_are_tracked :
  match GetAccount (H := rfc7396) demo_account_config demo_fetch_account "p1" with
  | inl account => acct_EventsEnabled account = false
  | inr _ => False
  end.
Proof. by vm_compute. Qed.
