(* ===== verification/ImpSplit.v ===== *)
(** * Splitting the imps of a request

    The part of [exchange/utils.go] that gives every bidder its own copies of
    the imps that name it: [splitImps], [createSanitizedImpExt],
    [extractBidderExts], [isSpecialField].  Encoding a map of decoded raw
    values does not fail, so the error returns that follow such an encoding
    have no counterpart. *)

From S2P Require Import Prelude Float64 ErrorTypes Json OpenRTB.

Definition PrebidExtKey : string := "prebid".
Definition PrebidExtBidderKey : string := "bidder".
Definition FirstPartyDataExtKey : string := "data".
Definition FirstPartyDataContextExtKey : string := "context".
Definition SKAdNExtKey : string := "skadn".

Definition isSpecialField (bidder : string) : bool :=
  GoStr.eqb bidder FirstPartyDataContextExtKey || GoStr.eqb bidder FirstPartyDataExtKey ||
  GoStr.eqb bidder SKAdNExtKey || GoStr.eqb bidder PrebidExtKey.

(** Decoding a member into a map and ignoring the error: the map stays nil
    when the member is absent or is not an object. *)
Definition sub_map (m : gmap string json) (key : string) : gmap string json :=
  match m !! key with
  | None => ∅
  | Some j => match dec_map dec_any j with Some o => map_or_empty o | None => ∅ end
  end.

Definition copy_key (from : gmap string json) (key : string) (to : gmap string json) : gmap string json :=
  match from !! key with Some v => <[key := v]> to | None => to end.

Definition createSanitizedImpExt (impExt impExtPrebid : gmap string json) : gmap string json :=
  let sanitizedImpExt := ∅ in
  let impExtPrebid := delete PrebidExtBidderKey impExtPrebid in
  let sanitizedImpExt := if bool_decide (impExtPrebid = ∅) then sanitizedImpExt
                         else <[PrebidExtKey := map_json impExtPrebid]> sanitizedImpExt in
  let sanitizedImpExt := copy_key impExt FirstPartyDataExtKey sanitizedImpExt in
  let sanitizedImpExt := copy_key impExt FirstPartyDataContextExtKey sanitizedImpExt in
  copy_key impExt SKAdNExtKey sanitizedImpExt.

(** The two loops; they visit maps, and no result depends on the order. *)
Definition prefer_step (bidderExts : gmap string json) (be : string * json) : gmap string json :=
  <[be.1 := be.2]> bidderExts.
Definition fallback_step (bidderExts : gmap string json) (be : string * json) : gmap string json :=
  if isSpecialField be.1 then bidderExts
  else match bidderExts !! be.1 with
       | Some _ => bidderExts
       | None => <[be.1 := be.2]> bidderExts
       end.
Definition extractBidderExts (impExt impExtPrebidBidders : gmap string json) : gmap string json :=
  let bidderExts := fold_left prefer_step (map_to_list impExtPrebidBidders) ∅ in
  fold_left fallback_step (map_to_list impExt) bidderExts.

Definition put_imp (bidderImps : gmap string (list Imp)) (bidder : string) (imp : Imp) :
  gmap string (list Imp) :=
  <[bidder := default [] (bidderImps !! bidder) ++ [imp]]> bidderImps.

(** One bidder of an imp: the sanitized map is shared by the bidders and its
    bidder member is overwritten for each. *)
Definition bidder_step (imp : Imp) (acc : gmap string json * gmap string (list Imp)) (be : string * json) :
  gmap string json * gmap string (list Imp) :=
  let '(sanitizedImpExt, bidderImps) := acc in
  let sanitizedImpExt := <[PrebidExtBidderKey := be.2]> sanitizedImpExt in
  (sanitizedImpExt, put_imp bidderImps be.1 (imp_set_Ext imp (RawJson (map_json sanitizedImpExt)))).

Section Split.
(** The order in which the loop of the i-th imp visits its bidders. *)
Context (order : nat -> gmap string json -> list (string * json)).

Definition split_imp (i : nat) (imp : Imp) (bidderImps : gmap string (list Imp)) :
  gmap string (list Imp) + error :=
  match unmarshal (dec_map dec_any) (imp_Ext imp) with
  | inr err =>
      inr (EPlain ("invalid json for imp[" ⧺ GoStr.itoa (Z.of_nat i) ⧺ "]: " ⧺ error_string err))
  | inl impExt =>
      let impExt := map_or_empty impExt in
      let impExtPrebid := sub_map impExt PrebidExtKey in
      let impExtPrebidBidder := sub_map impExtPrebid PrebidExtBidderKey in
      let sanitizedImpExt := createSanitizedImpExt impExt impExtPrebid in
      inl (fold_left (bidder_step imp) (order i (extractBidderExts impExt impExtPrebidBidder))
             (sanitizedImpExt, bidderImps)).2
  end.

Fixpoint split_loop (i : nat) (imps : list Imp) (bidderImps : gmap string (list Imp)) :
  gmap string (list Imp) + error :=
  match imps with
  | [] => inl bidderImps
  | imp :: rest =>
      match split_imp i imp bidderImps with
      | inl bidderImps => split_loop (S i) rest bidderImps
      | inr err => inr err
      end
  end.
Definition splitImps (imps : list Imp) : gmap string (list Imp) + error := split_loop 0 imps ∅.
End Split.

(** ** The specification *)

(** The extension of an imp, decoded. *)
Definition imp_ext (imp : Imp) : gmap string json :=
  match unmarshal (dec_map dec_any) (imp_Ext imp) with inl o => map_or_empty o | inr _ => ∅ end.
Definition ext_ok (imp : Imp) : bool :=
  match unmarshal (dec_map dec_any) (imp_Ext imp) with inl _ => true | inr _ => false end.

(** The members of an imp's extension that are no bidder's. *)
Definition reserved_fields : list string := ["prebid"; "context"; "data"; "skadn"]%string.

(** The parameters an imp gives a bidder: [imp.ext.prebid.bidder.BIDDER] if it
    is there, else [imp.ext.BIDDER] unless the name is a reserved field. *)
Definition params_for (imp : Imp) (bidder : string) : option json :=
  match sub_map (sub_map (imp_ext imp) PrebidExtKey) PrebidExtBidderKey !! bidder with
  | Some j => Some j
  | None => if bool_decide (bidder ∈ reserved_fields) then None else imp_ext imp !! bidder
  end.

Definition shared_keys : list string :=
  [FirstPartyDataExtKey; FirstPartyDataContextExtKey; SKAdNExtKey].

(** What bidder [b] is shown of [imp]: the imp with an extension that holds
    its own parameters, the shared fields, and the prebid object without the
    bidder parameters when anything else is in it; and nothing more. *)
Definition bidder_view (b : string) (imp imp' : Imp) : Prop :=
  imp' = imp_set_Ext imp (imp_Ext imp') /\
  ext_ok imp' = true /\
  imp_ext imp' !! PrebidExtBidderKey = params_for imp b /\
  (forall k, k ∈ shared_keys -> imp_ext imp' !! k = imp_ext imp !! k) /\
  sub_map (imp_ext imp') PrebidExtKey = delete PrebidExtBidderKey (sub_map (imp_ext imp) PrebidExtKey) /\
  (forall k, k ∉ PrebidExtBidderKey :: PrebidExtKey :: shared_keys -> imp_ext imp' !! k = None).

(** ** Facts *)
Lemma isSpecialField_reserved b : isSpecialField b = bool_decide (b ∈ reserved_fields).
Proof.
  rw /isSpecialField /reserved_fields.
  destruct (eqb_spec b FirstPartyDataContextExtKey) as [->|H1]; [done|].
  destruct (eqb_spec b FirstPartyDataExtKey) as [->|H2]; [done|].
  destruct (eqb_spec b SKAdNExtKey) as [->|H3]; [done|].
  destruct (eqb_spec b PrebidExtKey) as [->|H4]; [done|].
  symmetry. apply bool_decide_eq_false_2. rw !not_elem_of_cons. auto using not_elem_of_nil.
Qed.

Lemma extractBidderExts_lookup impExt prebidBidders b :
  extractBidderExts impExt prebidBidders !! b =
  match prebidBidders !! b with
  | Some j => Some j
  | None => if isSpecialField b then None else impExt !! b
  end.
Proof.
  assert (fold_left prefer_step (map_to_list prebidBidders) ∅ = prebidBidders) as Hp.
  { rw /prefer_step (fold_insert_nodup _ ∅ (NoDup_fst_map_to_list _)) right_id_L.
    apply list_to_map_to_list. }
  assert (forall l (m : gmap string json), NoDup l.*1 ->
    fold_left fallback_step l m !! b =
    match m !! b with
    | Some j => Some j
    | None => if isSpecialField b then None else (list_to_map l : gmap string json) !! b
    end) as Hf.
  { induction l as [|[k j] l IH]; intros m Hnd; cbn [fold_left].
    - destruct (m !! b); [done|]. by destruct (isSpecialField b).
    - rw fmap_cons in Hnd. apply list.NoDup_cons in Hnd as [Hk Hnd]. cbn [fst] in Hk.
      rw (IH _ Hnd) /fallback_step. cbn [fst snd list_to_map foldr].
      destruct (decide (b = k)) as [->|Hne].
      + rw lookup_insert_eq. destruct (isSpecialField k) eqn:Es; [done|].
        destruct (m !! k) as [x|] eqn:Em; [by rw Em|]. by rw lookup_insert_eq.
      + rw lookup_insert_ne //. destruct (isSpecialField k); [done|].
        destruct (m !! k); [done|]. by rw lookup_insert_ne. }
  rw /extractBidderExts Hp (Hf _ _ (NoDup_fst_map_to_list _)). by rw list_to_map_to_list.
Qed.

Lemma copy_key_lookup from key to k :
  copy_key from key to !! k =
  if bool_decide (k = key) then match from !! key with Some v => Some v | None => to !! key end else to !! k.
Proof.
  rw /copy_key. case_bool_decide as Hk.
  - subst k. destruct (from !! key); [by rw lookup_insert_eq|done].
  - destruct (from !! key); [|done]. by rw lookup_insert_ne.
Qed.

Lemma bidder_key_not_shared : PrebidExtBidderKey ∉ shared_keys.
Proof. apply (iffLR (bool_decide_eq_true (_ ∉ _))). by vm_compute. Qed.
Lemma prebid_key_not_shared : PrebidExtKey ∉ shared_keys.
Proof. apply (iffLR (bool_decide_eq_true (_ ∉ _))). by vm_compute. Qed.

Lemma sanitized_lookup impExt prebid k :
  createSanitizedImpExt impExt prebid !! k =
  if bool_decide (k ∈ shared_keys) then impExt !! k
  else if bool_decide (k = PrebidExtKey) then
    if bool_decide (delete PrebidExtBidderKey prebid = ∅) then None
    else Some (map_json (delete PrebidExtBidderKey prebid))
  else None.
Proof.
  rw /createSanitizedImpExt !copy_key_lookup /shared_keys.
  set (d := delete PrebidExtBidderKey prebid).
  assert (forall k' : string, (if bool_decide (d = ∅) then (∅ : gmap string json)
      else <[PrebidExtKey := map_json d]> ∅) !! k' =
    if bool_decide (k' = PrebidExtKey) then if bool_decide (d = ∅) then None else Some (map_json d) else None) as Hb.
  { intros k'. case_bool_decide; case_bool_decide as Hk; rw ?lookup_empty //.
    - by rw Hk lookup_insert_eq.
    - by rw lookup_insert_ne. }
  rw !Hb. destruct (decide (k = FirstPartyDataExtKey)) as [->|H1].
  { rw /=. by destruct (impExt !! FirstPartyDataExtKey). }
  destruct (decide (k = FirstPartyDataContextExtKey)) as [->|H2].
  { rw /=. by destruct (impExt !! FirstPartyDataContextExtKey). }
  destruct (decide (k = SKAdNExtKey)) as [->|H3].
  { rw /=. by destruct (impExt !! SKAdNExtKey). }
  rw !(bool_decide_eq_false_2 _ H1) !(bool_decide_eq_false_2 _ H2) !(bool_decide_eq_false_2 _ H3).
  assert (k ∉ shared_keys) as Hk by (rw /shared_keys !not_elem_of_cons; auto using not_elem_of_nil).
  by rw (bool_decide_eq_false_2 _ Hk).
Qed.

(** The imp a bidder is given. *)
Definition view_of (imp : Imp) (params : json) : Imp :=
  imp_set_Ext imp (RawJson (map_json
    (<[PrebidExtBidderKey := params]> (createSanitizedImpExt (imp_ext imp) (sub_map (imp_ext imp) PrebidExtKey))))).

Lemma view_of_ext imp params :
  ext_ok (view_of imp params) = true /\
  imp_ext (view_of imp params) =
    <[PrebidExtBidderKey := params]> (createSanitizedImpExt (imp_ext imp) (sub_map (imp_ext imp) PrebidExtKey)).
Proof.
  assert (imp_Ext (view_of imp params) = RawJson (map_json
    (<[PrebidExtBidderKey := params]> (createSanitizedImpExt (imp_ext imp) (sub_map (imp_ext imp) PrebidExtKey))))) as He
    by by destruct imp.
  rw /ext_ok. rw [imp_ext (view_of _ _)]/imp_ext He /unmarshal map_json_roundtrip //.
Qed.

Lemma view_of_correct b imp params : params_for imp b = Some params -> bidder_view b imp (view_of imp params).
Proof.
  intros Hp. destruct (view_of_ext imp params) as [Hok He]. rw /bidder_view Hok He Hp.
  split; [by destruct imp|]. split; [done|]. split; [by rw lookup_insert_eq|]. split; [|split].
  - intros k Hk. rw lookup_insert_ne; [by intros <-; apply bidder_key_not_shared|].
    by rw sanitized_lookup bool_decide_eq_true_2.
  - rw {1}/sub_map lookup_insert_ne // sanitized_lookup (bool_decide_eq_false_2 _ prebid_key_not_shared).
    rw bool_decide_eq_true_2 //. case_bool_decide as Hd; [by rw Hd|]. by rw map_json_roundtrip.
  - intros k [H1 [H2 H3]%not_elem_of_cons]%not_elem_of_cons. rw lookup_insert_ne; [done|].
    by rw sanitized_lookup !bool_decide_eq_false_2.
Qed.

Section SplitFacts.
Context (order : nat -> gmap string json -> list (string * json)).
Context (order_ok : forall i m, map_range m (order i m)).

Lemma bidder_fold imp l sanitized m b :
  NoDup l.*1 ->
  (fold_left (bidder_step imp) l (sanitized, m)).2 !! b =
  match (list_to_map l : gmap string json) !! b with
  | Some j => Some (default [] (m !! b) ++
                    [imp_set_Ext imp (RawJson (map_json (<[PrebidExtBidderKey := j]> sanitized)))])
  | None => m !! b
  end.
Proof.
  revert sanitized m. induction l as [|[k j] l IH]; intros sanitized m Hnd; [done|].
  rw fmap_cons in Hnd. apply list.NoDup_cons in Hnd as [Hk Hnd]. cbn [fst] in Hk.
  cbn [fold_left bidder_step fst snd list_to_map foldr]. rw (IH _ _ Hnd) /put_imp.
  apply not_elem_of_list_to_map_1 in Hk. destruct (decide (b = k)) as [->|Hne].
  - by rw Hk !lookup_insert_eq.
  - rw !lookup_insert_ne //. case_match; [|done]. by rw insert_insert_eq.
Qed.

Lemma split_imp_spec i imp m m' :
  split_imp order i imp m = inl m' ->
  ext_ok imp = true /\
  forall b, m' !! b = match params_for imp b with
                      | Some j => Some (default [] (m !! b) ++ [view_of imp j])
                      | None => m !! b
                      end.
Proof.
  rw /split_imp /ext_ok /params_for /view_of. rw [imp_ext]/imp_ext.
  destruct (unmarshal (dec_map dec_any) (imp_Ext imp)) as [ext|]; [|done]. intros [= <-].
  split; [done|]. intros b.
  set (exts := extractBidderExts _ _).
  rw bidder_fold; [by eapply map_range_nodup|]. rw (map_range_to_map exts) //.
  by rw /exts extractBidderExts_lookup isSpecialField_reserved.
Qed.

Lemma split_imp_error i imp m err : split_imp order i imp m = inr err -> ext_ok imp = false.
Proof. rw /split_imp /ext_ok. by destruct (unmarshal (dec_map dec_any) (imp_Ext imp)). Qed.

(** The imps a bidder is shown. *)
Definition views_for (b : string) (imps : list Imp) : list Imp :=
  omap (fun imp => view_of imp <$> params_for imp b) imps.

Lemma split_loop_spec i imps m m' :
  split_loop order i imps m = inl m' ->
  Forall (fun imp => ext_ok imp = true) imps /\
  forall b, m' !! b = match views_for b imps with
                      | [] => m !! b
                      | l => Some (default [] (m !! b) ++ l)
                      end.
Proof.
  revert i m. induction imps as [|imp imps IH]; intros i m; cbn [split_loop].
  - intros [= <-]. split; [constructor|done].
  - destruct (split_imp order i imp m) as [m1|] eqn:E; [|done].
    apply split_imp_spec in E as [Hok Hb]. intros [Hall Hm']%IH. split; [by constructor|].
    intros b. rw Hm' Hb /views_for. cbn [omap list_omap].
    destruct (params_for imp b) as [j|]; simpl; [|done].
    destruct (omap _ imps); [by rw /= |]. by rw /= -app_assoc.
Qed.

Lemma split_loop_error i imps m err :
  split_loop order i imps m = inr err -> exists imp, imp ∈ imps /\ ext_ok imp = false.
Proof.
  revert i m. induction imps as [|imp imps IH]; intros i m; cbn [split_loop]; [done|].
  destruct (split_imp order i imp m) as [m1|] eqn:E.
  - intros (x & Hx & Hok)%IH. exists x. split; [by right|done].
  - intros _. exists imp. split; [by left|by eapply split_imp_error].
Qed.

Lemma views_for_view b imps :
  Forall2 (bidder_view b) (List.filter (fun imp => bool_decide (is_Some (params_for imp b))) imps)
    (views_for b imps).
Proof.
  induction imps as [|imp imps IH]; [constructor|]. rw /views_for. cbn [List.filter omap list_omap].
  destruct (params_for imp b) as [j|] eqn:E; simpl; [|done].
  constructor; [by apply view_of_correct|done].
Qed.
End SplitFacts.

(** C2: splitting a request isolates the bidders: whatever order the maps are
    visited in, every bidder gets exactly the imps that name it, in request
    order and otherwise unchanged, each with an extension that holds the
    bidder's own parameters, the shared first party data and SKAdN fields and
    the prebid object without the parameters of any bidder, and nothing else;
    it fails only on an imp whose extension is not an object. *)
Theorem split_imps_isolate order imps
    (Horder : forall i m, map_range m (order i m)) :
  match splitImps order imps with
  | inl m =>
      Forall (fun imp => ext_ok imp = true) imps /\
      forall b,
        let named := List.filter (fun imp => bool_decide (is_Some (params_for imp b))) imps in
        Forall2 (bidder_view b) named (default [] (m !! b)) /\ (m !! b = None <-> named = [])
  | inr _ => exists imp, imp ∈ imps /\ ext_ok imp = false
  end.
Proof.
  rw /splitImps. destruct (split_loop order 0 imps ∅) as [m|err] eqn:E.
  - apply split_loop_spec in E as [Hall Hm]; [|done]. split; [done|]. intros b.
    pose proof (views_for_view b imps) as Hv. set (named := List.filter _ imps) in *. rw Hm.
    destruct (views_for b imps) as [|v vs] eqn:Ev; rw lookup_empty.
    + apply Forall2_nil_inv_r in Hv. rw Hv. by split; [constructor|].
    + split; [done|]. destruct named; [by apply Forall2_nil_inv_l in Hv|done].
  - by eapply split_loop_error.
Qed.

Definition demo_imp_ext : RawMessage :=
  RawJson (JObj [("appnexus"%string, JObj [("placementId"%string, JNum "1")]);
                 ("context"%string, JObj []);
                 ("prebid"%string, JObj [("bidder"%string, JObj [("rubicon"%string, JNum "7")]);
                                         ("is_rewarded_inventory"%string, JNum "1")])]).
Definition demo_imp : Imp :=
  simpleImp "i1" demo_imp_ext.
Definition map_order (_ : nat) (m : gmap string json) : list (string * json) := map_to_list m.

(** The theorem on an imp that names one bidder in each place. *)
Lemma split_imps_isolate_witness :
  exists m l, splitImps map_order [demo_imp] = inl m /\ m !! "rubicon"%string = Some l /\
    Forall2 (bidder_view "rubicon") [demo_imp] l /\ m !! "context"%string = None.
Proof.
  pose proof (split_imps_isolate map_order [demo_imp] (fun i m => map_range_self m)) as H.
  assert (bool_decide (is_Some (params_for demo_imp "rubicon")) = true) as Hr by (vm_compute; reflexivity).
  assert (bool_decide (is_Some (params_for demo_imp "context")) = false) as Hc by (vm_compute; reflexivity).
  assert (ext_ok demo_imp = true) as Hok by (vm_compute; reflexivity).
  destruct (splitImps map_order [demo_imp]) as [m|] eqn:E.
  - destruct H as [_ H]. pose proof (H "rubicon"%string) as [H1 [H2 _]].
    pose proof (H "context"%string) as [_ [_ H3]]. cbn [List.filter] in H1, H2, H3.
    rw Hr in H1. rw Hr in H2. rw Hc in H3.
    destruct (m !! "rubicon"%string) as [l|] eqn:El; [|discriminate (H2 eq_refl)].
    exists m, l. split; [reflexivity|]. split; [exact El|]. split; [exact H1|]. by apply H3.
  - exfalso. destruct H as (imp & Hin & Hbad). apply list_elem_of_singleton in Hin. subst imp. congruence.
Defined.
