(* ===== verification/ImpValidation.v ===== *)
(** * Validation of imps

    [validateImp] of [endpoints/openrtb2/auction.go] and what it calls: the
    media objects, the deals, and the bidders named by the imp's extension.
    The schema validator of bidder parameters is a parameter.  Validation
    edits the imp: it rewrites the native request and removes the bidders the
    host has disabled. *)

From S2P Require Import Prelude Float64 ErrorTypes Json OpenRTB PriceGranularity ExtRequest Bidders ImpSplit NativeValidation.

(** ** Media *)
Definition format_msg (impIndex formatIndex : nat) (field : string) : error :=
  imp_msg impIndex (".banner.format[" ⧺ GoStr.itoa (Z.of_nat formatIndex) ⧺ "]." ⧺ field ⧺ " must be a positive number").
Definition Format_msg (impIndex formatIndex : nat) (rest : string) : error :=
  EPlain ("Request imp[" ⧺ GoStr.itoa (Z.of_nat impIndex) ⧺ "].banner.format[" ⧺
    GoStr.itoa (Z.of_nat formatIndex) ⧺ "]" ⧺ rest).

Definition validateFormat (format : Format) (impIndex formatIndex : nat) : option error :=
  let usesHW := negb (fmt_W format =? 0)%Z || negb (fmt_H format =? 0)%Z in
  let usesRatios := negb (fmt_WMin format =? 0)%Z || negb (fmt_WRatio format =? 0)%Z || negb (fmt_HRatio format =? 0)%Z in
  if (fmt_W format <? 0)%Z then Some (format_msg impIndex formatIndex "w")
  else if (fmt_H format <? 0)%Z then Some (format_msg impIndex formatIndex "h")
  else if (fmt_WRatio format <? 0)%Z then Some (format_msg impIndex formatIndex "wratio")
  else if (fmt_HRatio format <? 0)%Z then Some (format_msg impIndex formatIndex "hratio")
  else if (fmt_WMin format <? 0)%Z then Some (format_msg impIndex formatIndex "wmin")
  else if usesHW && usesRatios then
    Some (Format_msg impIndex formatIndex (" should define *either* {w, h} *or* {wmin, wratio, hratio}, but not both. If both are valid, send two " ⧺
      GoStr.quoted "format" ⧺ " objects in the request."))
  else if negb usesHW && negb usesRatios then
    Some (Format_msg impIndex formatIndex " should define *either* {w, h} (for static size requirements) *or* {wmin, wratio, hratio} (for flexible sizes) to be non-zero.")
  else if usesHW && ((fmt_W format =? 0)%Z || (fmt_H format =? 0)%Z) then
    Some (Format_msg impIndex formatIndex (" must define non-zero " ⧺ GoStr.quoted "h" ⧺ " and " ⧺ GoStr.quoted "w" ⧺ " properties."))
  else if usesRatios && ((fmt_WMin format =? 0)%Z || (fmt_WRatio format =? 0)%Z || (fmt_HRatio format =? 0)%Z) then
    Some (Format_msg impIndex formatIndex (" must define non-zero " ⧺ GoStr.quoted "wmin" ⧺ ", " ⧺ GoStr.quoted "wratio" ⧺
      ", and " ⧺ GoStr.quoted "hratio" ⧺ " properties."))
  else None.

Definition unsupported (impIndex : nat) (property : string) : error :=
  imp_msg impIndex (".banner uses unsupported property: " ⧺ GoStr.quoted property ⧺ ". Use the " ⧺
    GoStr.quoted "format" ⧺ " array instead.").
Definition negative (o : option Z) : bool := match o with Some v => (v <? 0)%Z | None => false end.
Definition positive (o : option Z) : bool := match o with Some v => (0 <? v)%Z | None => false end.

Definition validateBanner (banner : option Banner) (impIndex : nat) : option error :=
  match banner with
  | None => None
  | Some b =>
      if negative (ban_W b) then Some (imp_msg impIndex ".banner.w must be a positive number")
      else if negative (ban_H b) then Some (imp_msg impIndex ".banner.h must be a positive number")
      else if negb (ban_WMin b =? 0)%Z then Some (unsupported impIndex "wmin")
      else if negb (ban_WMax b =? 0)%Z then Some (unsupported impIndex "wmax")
      else if negb (ban_HMin b =? 0)%Z then Some (unsupported impIndex "hmin")
      else if negb (ban_HMax b =? 0)%Z then Some (unsupported impIndex "hmax")
      else
        let hasRootSize := positive (ban_H b) && positive (ban_W b) in
        if negb hasRootSize && (length (ban_Format b) =? 0)%nat then
          Some (imp_msg impIndex (".banner has no sizes. Define " ⧺ GoStr.quoted "w" ⧺ " and " ⧺ GoStr.quoted "h" ⧺
            ", or include " ⧺ GoStr.quoted "format" ⧺ " elements."))
        else first_error (fun f i => validateFormat f impIndex i) (ban_Format b) 0
  end.

Definition validateVideo (video : option OpenRTB.Video) (impIndex : nat) : option error :=
  let bad field := Some (imp_msg impIndex (".video." ⧺ field ⧺ " must be a positive number")) in
  match video with
  | None => None
  | Some v =>
      if (length (vid_MIMEs v) <? 1)%nat then
        Some (imp_msg impIndex ".video.mimes must contain at least one supported MIME type")
      else if (vid_W v <? 0)%Z then bad "w"%string
      else if (vid_H v <? 0)%Z then bad "h"%string
      else if (vid_MinBitRate v <? 0)%Z then bad "minbitrate"%string
      else if (vid_MaxBitRate v <? 0)%Z then bad "maxbitrate"%string
      else None
  end.

Definition validateAudio (audio : option Audio) (impIndex : nat) : option error :=
  let bad field := Some (imp_msg impIndex (".audio." ⧺ field ⧺ " must be a positive number")) in
  match audio with
  | None => None
  | Some a =>
      if (length (aud_MIMEs a) <? 1)%nat then
        Some (imp_msg impIndex ".audio.mimes must contain at least one supported MIME type")
      else if (aud_Sequence a <? 0)%Z then bad "sequence"%string
      else if (aud_MaxSeq a <? 0)%Z then bad "maxseq"%string
      else if (aud_MinBitrate a <? 0)%Z then bad "minbitrate"%string
      else if (aud_MaxBitrate a <? 0)%Z then bad "maxbitrate"%string
      else None
  end.

Definition validatePmp (pmp : option PMP) (impIndex : nat) : option error :=
  match pmp with
  | None => None
  | Some pmp =>
      first_error (fun deal dealIndex =>
        if GoStr.is_empty (deal_ID deal)
        then Some (imp_msg impIndex (".pmp.deals[" ⧺ GoStr.itoa (Z.of_nat dealIndex) ⧺ "] missing required field: " ⧺ GoStr.quoted "id"))
        else None) (pmp_Deals pmp) 0
  end.

(** ** The extension *)
(** [ExtImpPrebid]: only the bidders are used, but every member must decode. *)
Definition dec_skadn : decoder unit := dec_struct (fun kvs =>
  _ ← dec_field dec_string ""%string "version" kvs;
  _ ← dec_field (dec_list dec_string) [] "versions" kvs;
  _ ← dec_field dec_string ""%string "sourceapp" kvs;
  _ ← dec_field (dec_list dec_string) [] "skadnetids" kvs;
  Some tt).
Definition dec_ext_imp_prebid : decoder (option (gmap string json)) := dec_struct (fun kvs =>
  _ ← dec_field (dec_ptr (dec_struct (dec_field dec_string ""%string "id"))) None "storedrequest" kvs;
  _ ← dec_field dec_int8 0%Z "is_rewarded_inventory" kvs;
  _ ← dec_field dec_skadn tt "skadn" kvs;
  dec_field (dec_map dec_any) None "bidder" kvs).

Definition isBidderToValidate (bidder : string) : bool :=
  if GoStr.eqb bidder BidderReservedContext then false
  else if GoStr.eqb bidder BidderReservedData then false
  else if GoStr.eqb bidder BidderReservedPrebid then false
  else if GoStr.eqb bidder BidderReservedSKAdN then false
  else true.

(** What the endpoint knows of bidders: the core bidders, and the messages of
    the disabled ones. *)
Record Bidders := mkBidders { bidderMap : gmap string string; disabledBidders : gmap string string }.

Section ImpExt.
Context (Validate : string -> json -> option error).
Context (deps : Bidders) (aliases : gmap string string).

(** One entry of the loop: warnings, bidders to remove, other members. *)
Definition ExtState : Type := list error * list string * nat.
Definition ext_step (impIndex : nat) (acc : ExtState) (be : string * json) : ExtState + error :=
  let '(bidder, ext) := be in
  let '(errL, disabled, other) := acc in
  if isBidderToValidate bidder then
    let coreBidder := match aliases !! bidder with Some tmp => tmp | None => bidder end in
    match bidderMap deps !! coreBidder with
    | Some bidderName =>
        match Validate bidderName ext with
        | Some err =>
            inr (imp_msg impIndex (".ext." ⧺ coreBidder ⧺ " failed validation." ⧺
              String (Ascii.ascii_of_nat 10) EmptyString ⧺ error_string err))
        | None => inl acc
        end
    | None =>
        match disabledBidders deps !! bidder with
        | Some msg => inl (errL ++ [EBidderTemporarilyDisabled msg], disabled ++ [bidder], other)
        | None => inr (imp_msg impIndex (".ext contains unknown bidder: " ⧺ bidder ⧺
            ". Did you forget an alias in request.ext.prebid.aliases?"))
        end
    end
  else inl (errL, disabled, S other).
Fixpoint ext_loop (impIndex : nat) (l : list (string * json)) (acc : ExtState) : ExtState + error :=
  match l with
  | [] => inl acc
  | be :: rest => match ext_step impIndex acc be with inl acc => ext_loop impIndex rest acc | inr err => inr err end
  end.

(** The bidders of [ext.prebid.bidder] are copied over those of [ext]. *)
Definition merged_exts (bidderExts : gmap string json) : gmap string json :=
  match bidderExts !! PrebidExtKey with
  | None => bidderExts
  | Some extPrebidJSON =>
      match dec_ext_imp_prebid extPrebidJSON with
      | Some (Some bidders) => bidders ∪ bidderExts
      | _ => bidderExts
      end
  end.

(** [order] is the order in which the members are visited. *)
Definition validateImpExt (order : gmap string json -> list (string * json)) (imp : Imp) (impIndex : nat) :
  Imp * list error :=
  if raw_len0 (imp_Ext imp) then (imp, [imp_msg impIndex ".ext is required"])
  else match unmarshal (dec_map dec_any) (imp_Ext imp) with
       | inr err => (imp, [err])
       | inl bidderExts =>
           let bidderExts := merged_exts (map_or_empty bidderExts) in
           match ext_loop impIndex (order bidderExts) ([], [], 0%nat) with
           | inr err => (imp, [err])
           | inl (errL, disabled, otherExtElements) =>
               let kept := fold_left (fun m b => delete b m) disabled bidderExts in
               let imp := match disabled with [] => imp | _ => imp_set_Ext imp (RawJson (map_json kept)) end in
               let errL := if (Z.of_nat (size kept) - Z.of_nat otherExtElements =? 0)%Z
                           then errL ++ [imp_msg impIndex ".ext must contain at least one bidder"] else errL in
               (imp, errL)
           end
       end.
End ImpExt.

Section ImpValidation.
Context (UnmarshalNative : string -> NativeReq.Request + string).
Context (MarshalNative : NativeReq.Request -> string + string).
Context (Validate : string -> json -> option error).
Context (deps : Bidders).

(** [validateImp]: the first error of the media, else those of the extension. *)
Definition validateImp (order : gmap string json -> list (string * json)) (imp : Imp) (aliases : gmap string string)
    (index : nat) : Imp * list error :=
  if GoStr.is_empty (imp_ID imp) then (imp, [imp_msg index (" missing required field: " ⧺ GoStr.quoted "id")])
  else if negb (length (imp_Metric imp) =? 0)%nat then
    (imp, [imp_msg index ".metric is not yet supported by prebid-server. Support may be added in the future"])
  else match imp_Banner imp, imp_Video imp, imp_Audio imp, imp_Native imp with
       | None, None, None, None =>
           (imp, [imp_msg index (" must contain at least one of " ⧺ GoStr.quoted "banner" ⧺ ", " ⧺ GoStr.quoted "video" ⧺
             ", " ⧺ GoStr.quoted "audio" ⧺ ", or " ⧺ GoStr.quoted "native")])
       | _, _, _, _ =>
           match validateBanner (imp_Banner imp) index with
           | Some err => (imp, [err])
           | None =>
               match validateVideo (imp_Video imp) index with
               | Some err => (imp, [err])
               | None =>
                   match validateAudio (imp_Audio imp) index with
                   | Some err => (imp, [err])
                   | None =>
                       match fillAndValidateNative UnmarshalNative MarshalNative (imp_Native imp) index with
                       | inr err => (imp, [err])
                       | inl native =>
                           let imp := imp_set_Native imp native in
                           match validatePmp (imp_PMP imp) index with
                           | Some err => (imp, [err])
                           | None => validateImpExt Validate deps aliases order imp index
                           end
                       end
                   end
               end
           end
       end.
End ImpValidation.

(** ** The specification: media *)

(** A size, or a ratio with a least width. *)
Definition format_ok (f : Format) : Prop :=
  (0 < fmt_W f /\ 0 < fmt_H f /\ fmt_WMin f = 0 /\ fmt_WRatio f = 0 /\ fmt_HRatio f = 0)%Z \/
  (fmt_W f = 0 /\ fmt_H f = 0 /\ 0 < fmt_WMin f /\ 0 < fmt_WRatio f /\ 0 < fmt_HRatio f)%Z.
Definition at_least_0 (o : option Z) : Prop := forall v, o = Some v -> (0 <= v)%Z.
Definition banner_ok (b : Banner) : Prop :=
  at_least_0 (ban_W b) /\ at_least_0 (ban_H b) /\
  (ban_WMin b = 0 /\ ban_WMax b = 0 /\ ban_HMin b = 0 /\ ban_HMax b = 0)%Z /\
  (ban_Format b <> [] \/ exists w h, ban_W b = Some w /\ ban_H b = Some h /\ (0 < w /\ 0 < h)%Z) /\
  Forall format_ok (ban_Format b).
Definition video_fine (v : OpenRTB.Video) : Prop :=
  vid_MIMEs v <> [] /\ (0 <= vid_W v /\ 0 <= vid_H v /\ 0 <= vid_MinBitRate v /\ 0 <= vid_MaxBitRate v)%Z.
Definition audio_fine (a : Audio) : Prop :=
  aud_MIMEs a <> [] /\ (0 <= aud_Sequence a /\ 0 <= aud_MaxSeq a /\ 0 <= aud_MinBitrate a /\ 0 <= aud_MaxBitrate a)%Z.
Definition optional {A} (P : A -> Prop) (o : option A) : Prop := match o with Some a => P a | None => True end.
Definition imp_media_ok (imp : Imp) : Prop :=
  imp_ID imp <> ""%string /\ imp_Metric imp = [] /\
  (is_Some (imp_Banner imp) \/ is_Some (imp_Video imp) \/ is_Some (imp_Audio imp) \/ is_Some (imp_Native imp)) /\
  optional banner_ok (imp_Banner imp) /\ optional video_fine (imp_Video imp) /\ optional audio_fine (imp_Audio imp) /\
  optional (fun p => Forall (fun d => deal_ID d <> ""%string) (pmp_Deals p)) (imp_PMP imp).

Lemma format_spec f i j : validateFormat f i j = None <-> format_ok f.
Proof.
  rw /validateFormat /format_ok. check_chain; split; intros; try done; lia.
Qed.

Lemma banner_spec b i : validateBanner b i = None <-> optional banner_ok b.
Proof.
  destruct b as [b|]; [|done]. rw /validateBanner /optional /banner_ok.
  rw -(first_error_spec (fun f k => validateFormat f i k) format_ok _ 0 (fun f k => format_spec f i k)).
  assert (negative (ban_W b) = false <-> at_least_0 (ban_W b)) as Hw.
  { rw /negative /at_least_0. destruct (ban_W b) as [w|]; [|done]. split; [intros ? ? [= <-]; lia|intros H; specialize (H w eq_refl); lia]. }
  assert (negative (ban_H b) = false <-> at_least_0 (ban_H b)) as Hh.
  { rw /negative /at_least_0. destruct (ban_H b) as [w|]; [|done]. split; [intros ? ? [= <-]; lia|intros H; specialize (H w eq_refl); lia]. }
  assert (negb (positive (ban_H b) && positive (ban_W b)) && (length (ban_Format b) =? 0)%nat = false <->
    ban_Format b <> [] \/ exists w h, ban_W b = Some w /\ ban_H b = Some h /\ (0 < w /\ 0 < h)%Z) as Hs.
  { rw /positive. destruct (ban_Format b) as [|f fs]; cbn [length Nat.eqb]; [|rw andb_false_r; split; auto]. rw andb_true_r.
    destruct (ban_H b) as [h|], (ban_W b) as [w|]; cbn [andb]; rw ?andb_false_r; (split; [intros Hx; right|intros [?|(x & y & Hx & Hy & ?)]]);
      try done; simplify_eq; try lia. exists w, h. repeat split; lia. }
  destruct (negative (ban_W b)); [split; [done|by intros [?%Hw _]]|].
  destruct (negative (ban_H b)); [split; [done|by intros (_ & ?%Hh & _)]|].
  do 4 (match goal with |- context [if negb ?c then _ else _] => destruct c eqn:?; cbn [negb]; [|split; [done|lia]] end).
  destruct (negb _ && _); [split; [done|by intros (_ & _ & _ & ?%Hs & _)]|].
  split; [|by intros (_ & _ & _ & _ & ?)]. intros Hf.
  split; [by apply Hw|]. split; [by apply Hh|]. split; [lia|]. split; [by apply Hs|done].
Qed.

Lemma nonempty_spec {A} (l : list A) : (length l <? 1)%nat = false <-> l <> [].
Proof. by destruct l. Qed.
Lemma video_fine_spec v i : validateVideo v i = None <-> optional video_fine v.
Proof.
  destruct v as [v|]; [|done]. rw /validateVideo /optional /video_fine -nonempty_spec.
  check_chain; split; intros; try done; lia.
Qed.
Lemma audio_fine_spec a i : validateAudio a i = None <-> optional audio_fine a.
Proof.
  destruct a as [a|]; [|done]. rw /validateAudio /optional /audio_fine -nonempty_spec.
  check_chain; split; intros; try done; lia.
Qed.
Lemma pmp_spec p i :
  validatePmp p i = None <-> optional (fun p => Forall (fun d => deal_ID d <> ""%string) (pmp_Deals p)) p.
Proof.
  destruct p as [p|]; [|done]. rw /validatePmp /optional. apply first_error_spec. intros d k.
  by destruct (deal_ID d).
Qed.

(** ** The specification: the bidders of an imp *)
Section ImpExtFacts.
Context (Validate : string -> json -> option error).
Context (deps : Bidders) (aliases : gmap string string).

Definition core_of (bidder : string) : string := default bidder (aliases !! bidder).
(** The members that name no bidder. *)
Definition is_reserved (bidder : string) : bool := bool_decide (bidder ∈ reserved_fields).
(** A known bidder with parameters of the right form. *)
Definition enabled (be : string * json) : bool :=
  negb (is_reserved be.1) &&
  match bidderMap deps !! core_of be.1 with
  | Some name => match Validate name be.2 with None => true | Some _ => false end
  | None => false
  end.
(** The message of a bidder the host has disabled. *)
Definition disabled_msg (be : string * json) : option string :=
  if is_reserved be.1 then None
  else match bidderMap deps !! core_of be.1 with Some _ => None | None => disabledBidders deps !! be.1 end.
Definition is_disabled (be : string * json) : bool := match disabled_msg be with Some _ => true | None => false end.
Definition entry_fine (be : string * json) : bool := is_reserved be.1 || enabled be || is_disabled be.

(** The parameters in the prebid object of an imp's extension, if it decodes;
    they are preferred to the members of the extension itself. *)
Definition prebid_params (imp : Imp) : gmap string json :=
  match imp_ext imp !! "prebid"%string with
  | Some j => match dec_ext_imp_prebid j with Some (Some bidders) => bidders | _ => ∅ end
  | None => ∅
  end.
Definition imp_exts (imp : Imp) : gmap string json := prebid_params imp ∪ imp_ext imp.
Lemma merged_imp_exts imp : merged_exts (imp_ext imp) = imp_exts imp.
Proof.
  unfold merged_exts, imp_exts, prebid_params. change PrebidExtKey with "prebid"%string.
  destruct (imp_ext imp !! "prebid"%string) as [j|]; [destruct (dec_ext_imp_prebid j) as [[m|]|]|]; by rw ?left_id_L.
Qed.
(** Every member is reserved, an enabled bidder or a disabled one, and there
    is an enabled one. *)
Definition exts_ok (imp : Imp) : Prop :=
  raw_len0 (imp_Ext imp) = false /\ ext_ok imp = true /\
  (forall b v, imp_exts imp !! b = Some v -> entry_fine (b, v) = true) /\
  exists b v, imp_exts imp !! b = Some v /\ enabled (b, v) = true.
(** Disabled bidders are reported and taken out. *)
Definition exts_after (imp imp' : Imp) (errs : list error) : Prop :=
  imp' = imp_set_Ext imp (imp_Ext imp') /\
  errs ≡ₚ EBidderTemporarilyDisabled <$> omap disabled_msg (map_to_list (imp_exts imp)) /\
  (errs = [] -> imp' = imp) /\
  (errs <> [] -> forall b, imp_ext imp' !! b =
     match imp_exts imp !! b with Some v => if is_disabled (b, v) then None else Some v | None => None end).

Lemma isBidderToValidate_spec b : isBidderToValidate b = negb (is_reserved b).
Proof.
  rw /isBidderToValidate /is_reserved -isSpecialField_reserved /isSpecialField.
  destruct (eqb_spec b BidderReservedContext) as [->|]; [done|].
  destruct (eqb_spec b BidderReservedData) as [->|]; [done|].
  destruct (eqb_spec b BidderReservedPrebid) as [->|]; [done|].
  destruct (eqb_spec b BidderReservedSKAdN) as [->|]; [done|].
  by repeat (rw (proj2 (eqb_neq _ _))).
Qed.

Lemma ext_step_spec i be errL dis other :
  ext_step Validate deps aliases i (errL, dis, other) be =
  if is_reserved be.1 then inl (errL, dis, S other)
  else if enabled be then inl (errL, dis, other)
  else match disabled_msg be with
       | Some msg => inl (errL ++ [EBidderTemporarilyDisabled msg], dis ++ [be.1], other)
       | None => ext_step Validate deps aliases i (errL, dis, other) be
       end.
Proof.
  destruct be as [b v]. rw /ext_step isBidderToValidate_spec /enabled /disabled_msg. cbn [fst snd].
  destruct (is_reserved b); [done|]. cbn [negb andb]. rw /core_of.
  assert (default b (aliases !! b) = match aliases !! b with Some tmp => tmp | None => b end) as -> by by destruct (aliases !! b).
  destruct (bidderMap deps !! _) as [name|]; [by destruct (Validate name v)|]. by destruct (disabledBidders deps !! b).
Qed.

Lemma ext_step_wrong i be acc : entry_fine be = false -> exists err, ext_step Validate deps aliases i acc be = inr err /\ isFatal err = true.
Proof.
  destruct be as [b v], acc as [[errL dis] other]. rw /entry_fine /enabled /is_disabled /disabled_msg /ext_step isBidderToValidate_spec /core_of.
  cbn [fst snd]. destruct (is_reserved b); [done|]. cbn [negb andb orb].
  assert (default b (aliases !! b) = match aliases !! b with Some tmp => tmp | None => b end) as -> by by destruct (aliases !! b).
  destruct (bidderMap deps !! _) as [name|]; [destruct (Validate name v); [by eexists|done]|].
  destruct (disabledBidders deps !! b); [done|by eexists].
Qed.

Lemma ext_loop_spec i l errL dis other :
  if forallb entry_fine l then
    ext_loop Validate deps aliases i l (errL, dis, other) =
      inl (errL ++ (EBidderTemporarilyDisabled <$> omap disabled_msg l),
           dis ++ (List.filter is_disabled l).*1, (other + length (List.filter (fun be => is_reserved be.1) l))%nat)
  else exists err, ext_loop Validate deps aliases i l (errL, dis, other) = inr err /\ isFatal err = true.
Proof.
  revert errL dis other. induction l as [|be l IH]; intros errL dis other; cbn [forallb ext_loop List.filter].
  { by rw /= !app_nil_r Nat.add_0_r. }
  destruct (entry_fine be) eqn:Ef; cbn [andb];
    [|destruct (ext_step_wrong i be (errL, dis, other) Ef) as (err & -> & ?); by exists err].
  rw ext_step_spec. revert Ef. rw {1}/entry_fine {1 2}/is_disabled.
  assert (omap disabled_msg (be :: l) = match disabled_msg be with Some m => m :: omap disabled_msg l | None => omap disabled_msg l end) as -> by done.
  destruct (is_reserved be.1) eqn:Er; cbn [orb].
  - assert (disabled_msg be = None) as -> by by rw /disabled_msg Er. intros _.
    specialize (IH errL dis (S other)). revert IH. destruct (forallb entry_fine l); [|done]. intros ->. cbn [length].
    do 2 f_equal. lia.
  - destruct (enabled be) eqn:Ee; cbn [orb].
    + assert (disabled_msg be = None) as ->; [|intros _; apply IH].
      revert Ee. rw /enabled /disabled_msg Er. cbn [negb andb]. by destruct (bidderMap deps !! _).
    + destruct (disabled_msg be) as [m|]; [|done]. intros _.
      specialize (IH (errL ++ [EBidderTemporarilyDisabled m]) (dis ++ [be.1]) other).
      revert IH. destruct (forallb entry_fine l); [|done]. intros ->. rw fmap_cons. by rw -!app_assoc.
Qed.

(** Removing the disabled names leaves the other entries. *)
Lemma disabled_names m l b :
  map_range m l -> b ∈ (List.filter is_disabled l).*1 <-> exists v, m !! b = Some v /\ is_disabled (b, v) = true.
Proof.
  intros Hl. split.
  - intros ([b' v] & -> & [Hin Hd]%list_elem_of_In%List.filter_In)%list_elem_of_fmap.
    exists v. split; [|done]. apply (map_range_elem m l); [done|]. by apply list_elem_of_In.
  - intros (v & Hm & Hd). apply (list_elem_of_fmap_2 fst _ (b, v)), list_elem_of_In, List.filter_In. split; [|done].
    apply list_elem_of_In. by apply (map_range_elem m l).
Qed.

Lemma kept_lookup m l b :
  map_range m l -> fold_left (fun m b => delete b m) (List.filter is_disabled l).*1 m !! b =
    match m !! b with Some v => if is_disabled (b, v) then None else Some v | None => None end.
Proof.
  intros Hl. rw fold_delete_lookup. case_bool_decide as Hb.
  - apply (disabled_names m l b Hl) in Hb as (v & -> & ->). done.
  - destruct (m !! b) as [v|] eqn:Em; [|done]. destruct (is_disabled (b, v)) eqn:Ed; [|done].
    exfalso. apply Hb, (disabled_names m l b Hl). by exists v.
Qed.

Lemma fine_split l :
  forallb entry_fine l = true ->
  length (List.filter (fun be => negb (is_disabled be)) l) =
    (length (List.filter (fun be => is_reserved be.1) l) + length (List.filter enabled l))%nat.
Proof.
  induction l as [|be l IH]; [done|]. cbn [forallb List.filter]. intros [Hf Hl]%andb_true_iff. specialize (IH Hl).
  revert Hf. rw /entry_fine. destruct (is_reserved be.1) eqn:Er; cbn [orb].
  - assert (is_disabled be = false) as -> by by rw /is_disabled /disabled_msg Er.
    assert (enabled be = false) as -> by by rw /enabled Er. intros _. simpl. lia.
  - destruct (enabled be) eqn:Ee; cbn [orb].
    + assert (is_disabled be = false) as ->; [|simpl; lia].
      revert Ee. rw /enabled /is_disabled /disabled_msg Er. cbn [negb andb]. by destruct (bidderMap deps !! _).
    + intros ->. simpl. lia.
Qed.

Lemma no_disabled l : omap disabled_msg l = [] <-> List.filter is_disabled l = [].
Proof.
  induction l as [|be l IH]; [done|]. cbn [List.filter]. rw /is_disabled.
  assert (omap disabled_msg (be :: l) = match disabled_msg be with Some m => m :: omap disabled_msg l | None => omap disabled_msg l end) as -> by done.
  by destruct (disabled_msg be).
Qed.

Lemma no_enabled m l :
  map_range m l -> (0 < length (List.filter enabled l))%nat <-> exists b v, m !! b = Some v /\ enabled (b, v) = true.
Proof.
  intros Hl. split.
  - destruct (List.filter enabled l) as [|[b v] r] eqn:E; simpl; [lia|]. intros _.
    assert (In (b, v) (List.filter enabled l)) as [Hin He]%List.filter_In by (rw E; by left).
    exists b, v. split; [|done]. apply (map_range_elem m l); [done|]. by apply list_elem_of_In.
  - intros (b & v & Hm & He). apply (map_range_elem m l) in Hm; [|done].
    assert (In (b, v) (List.filter enabled l)) as Hin by (apply List.filter_In; split; [by apply list_elem_of_In|done]).
    by destruct (List.filter enabled l); simpl; [|lia].
Qed.

Lemma all_fine m l :
  map_range m l -> forallb entry_fine l = true <-> forall b v, m !! b = Some v -> entry_fine (b, v) = true.
Proof.
  intros Hl. rw forallb_forall. split.
  - intros H b v Hm. apply H, list_elem_of_In. by apply (map_range_elem m l).
  - intros H [b v] Hin%list_elem_of_In. apply H. by apply (map_range_elem m l).
Qed.

Lemma disabled_not_fatal l : ContainsFatalError (EBidderTemporarilyDisabled <$> l) = false.
Proof. induction l as [|m l IH]; [done|]. by rw fmap_cons /= IH. Qed.
Lemma fatal_last l err : isFatal err = true -> ContainsFatalError (l ++ [err]) = true.
Proof. intros He. induction l as [|e l IH]; simpl; [by rw He|]. by destruct (isFatal e). Qed.

(** The extension's part of the validation. *)
Lemma validateImpExt_spec order imp i :
  (forall m, map_range m (order m)) ->
  let '(imp', errs) := validateImpExt Validate deps aliases order imp i in
  (ContainsFatalError errs = false <-> exts_ok imp) /\ (ContainsFatalError errs = false -> exts_after imp imp' errs).
Proof.
  intros Ho. rw /validateImpExt /exts_ok /ext_ok. destruct (raw_len0 (imp_Ext imp)) eqn:E0; [by split; [split; [|intros [? _]]|]|].
  rw /exts_after -!merged_imp_exts {1 2 3 5}/imp_ext. destruct (unmarshal _ _) as [om|err] eqn:Eu.
  2: { apply unmarshal_error_fatal in Eu as Hf.
       rw /= Hf. by split; [split; [|intros (_ & ? & _)]|]. }
  set (m := merged_exts (map_or_empty om)). pose proof (Ho m) as Hl. set (l := order m) in *.
  pose proof (ext_loop_spec i l [] [] 0) as Hloop. destruct (forallb entry_fine l) eqn:Ef.
  2: { destruct Hloop as (err & -> & Hf). rw /= Hf. split; [|done]. split; [done|]. intros (_ & _ & Hall & _).
       apply (all_fine m l Hl) in Hall. congruence. }
  rw Hloop. cbn [app plus].
  pose proof (fun b => kept_lookup m l b Hl) as Hk. set (kept := fold_left _ _ m) in *.
  assert (map_range kept (List.filter (fun be => negb (is_disabled be)) l)) as Hkr.
  { apply (map_range_filter m l); [done|]. intros b. rw Hk. destruct (m !! b); [|done]. by destruct (is_disabled _). }
  assert (size kept = (length (List.filter (fun be => is_reserved be.1) l) + length (List.filter enabled l))%nat) as Hsz.
  { rw -(length_map_to_list kept) -(Permutation_length Hkr). by apply fine_split. }
  assert ((Z.of_nat (size kept) - Z.of_nat (length (List.filter (fun be => is_reserved be.1) l)) =? 0)%Z =
    negb (0 <? length (List.filter enabled l))%nat) as ->
    by (destruct (0 <? length (List.filter enabled l))%nat eqn:E; [apply Nat.ltb_lt in E|apply Nat.ltb_ge in E]; simpl; lia).
  pose proof (no_enabled m l Hl) as Hen. rw -Nat.ltb_lt in Hen.
  destruct (0 <? length (List.filter enabled l))%nat; cbn [negb].
  2: { rw fatal_last //. split; [|done]. split; [done|]. intros (_ & _ & _ & He%Hen). done. }
  rw disabled_not_fatal. split; [split; [intros _|done]|intros _].
  { repeat split; try done; [by apply (all_fine m l)|by apply Hen]. }
  pose proof (no_disabled l) as Hnd. assert (omap disabled_msg l ≡ₚ omap disabled_msg (map_to_list m)) as Hp by by rw Hl.
  destruct (List.filter is_disabled l) as [|d ds] eqn:Ed; cbn [fmap list_fmap].
  - rw (proj2 Hnd eq_refl). split; [by destruct imp|]. split; [by rw -Hp (proj2 Hnd eq_refl)|]. by split.
  - split; [by destruct imp|]. split; [by rw Hp|]. split; [by intros ?%fmap_nil_inv%Hnd|]. intros _ b. rw -Hk.
    rw /imp_ext. assert (imp_Ext (imp_set_Ext imp (RawJson (map_json kept))) = RawJson (map_json kept)) as -> by by destruct imp.
    by rw /unmarshal map_json_roundtrip.
Qed.
End ImpExtFacts.

(** ** The whole imp *)

(** A validation [r] accepts (reports no fatal error) exactly when [P], and
    then its results satisfy [Q]. *)
Definition decided (r : Imp * list error) (P : Prop) (Q : Imp -> list error -> Prop) : Prop :=
  (ContainsFatalError r.2 = false <-> P) /\ (ContainsFatalError r.2 = false -> Q r.1 r.2).

Lemma decided_iff r P P' Q : (P <-> P') -> decided r P Q -> decided r P' Q.
Proof. rw /decided. by intros ->. Qed.
Lemma decided_guard (c : option error) (ok : Prop) imp r P Q :
  fatal_check c -> (c = None <-> ok) -> decided r P Q ->
  decided (match c with Some err => (imp, [err]) | None => r end) (ok /\ P) Q.
Proof.
  intros Hf Hc Hd. destruct c as [err|].
  - rw /decided /= (Hf err eq_refl). split; [|done]. split; [done|]. by intros [?%Hc _].
  - assert ok by by apply Hc. apply (decided_iff _ P); [tauto|done].
Qed.
Lemma decided_if (b : bool) (ok : Prop) err imp r P Q :
  isFatal err = true -> (b = false <-> ok) -> decided r P Q ->
  decided (if b then (imp, [err]) else r) (ok /\ P) Q.
Proof.
  intros Hf Hb Hd. destruct b.
  - apply (decided_guard (Some err) ok imp r); [by intros ? [= <-]| |done]. split; [done|]. by intros ?%Hb.
  - apply (decided_guard None ok imp r); [done| |done]. by rw -Hb.
Qed.

Lemma banner_fatal b i : fatal_check (validateBanner b i).
Proof.
  destruct b as [b|]; [|done]. intros err. rw /validateBanner. check_chain; try (by intros [= <-]).
  revert err. apply first_error_fatal. intros f j. rw /validateFormat. fatal_chain.
Qed.
Lemma video_fatal v i : fatal_check (validateVideo v i).
Proof. destruct v as [v|]; [|done]. rw /validateVideo. fatal_chain. Qed.
Lemma audio_fatal a i : fatal_check (validateAudio a i).
Proof. destruct a as [a|]; [|done]. rw /validateAudio. fatal_chain. Qed.
Lemma pmp_fatal p i : fatal_check (validatePmp p i).
Proof. destruct p as [p|]; [|done]. apply first_error_fatal. intros d j. fatal_chain. Qed.

Section ImpFacts.
Context (UnmarshalNative : string -> NativeReq.Request + string).
Context (MarshalNative : NativeReq.Request -> string + string).
Context (Validate : string -> json -> option error).
Context (deps : Bidders) (aliases : gmap string string).

(** The native part of an imp is fine, and [n] is what is left of it: its
    request is one by the native specification once asset ids are given, and is
    stored with these. *)
Definition native_filled (imp : Imp) (n : option Native) : Prop :=
  match imp_Native imp with
  | None => n = None
  | Some native =>
      nat_Request native <> ""%string /\
      exists q text, UnmarshalNative (nat_Request native) = inl q /\ native_ok (ids_filled q) /\
        MarshalNative (ids_filled q) = inl text /\ n = Some (nat_set_Request native text)
  end.
Lemma native_filled_iff imp index n :
  fillAndValidateNative UnmarshalNative MarshalNative (imp_Native imp) index = inl n <-> native_filled imp n.
Proof.
  unfold native_filled. destruct (imp_Native imp) as [native|]; [|cbn; split; congruence].
  destruct (GoStr.is_empty (nat_Request native)) eqn:E.
  { apply is_empty_true in E. rw /fillAndValidateNative E. split; [done|by intros []]. }
  apply is_empty_false in E. destruct (UnmarshalNative (nat_Request native)) as [q|err] eqn:Eu.
  2: { rw /fillAndValidateNative Eu (proj2 (is_empty_false _) E). split; [done|]. by intros (_ & ? & ? & ? & _). }
  pose proof (native_validation UnmarshalNative MarshalNative native index q E Eu) as Hv.
  destruct (fillAndValidateNative _ _ _ _) as [r|err].
  - destruct Hv as (Hok & text & Ht & ->). split.
    + intros [= <-]. split; [done|]. by exists q, text.
    + intros (_ & q' & text' & [= <-] & _ & Ht' & ->). congruence.
  - split; [done|]. intros (_ & q' & text' & [= <-] & Hok & Ht' & ->). destruct Hv as [|[e He]]; congruence.
Qed.
Definition imp_accepted (imp : Imp) : Prop :=
  imp_media_ok imp /\ (exists n, native_filled imp n) /\ exts_ok Validate deps aliases imp.
Definition imp_result (imp imp' : Imp) (errs : list error) : Prop :=
  exists n, native_filled imp n /\ exts_after deps aliases (imp_set_Native imp n) imp' errs.

Lemma validateImp_decided order imp index :
  (forall m, map_range m (order m)) ->
  decided (validateImp UnmarshalNative MarshalNative Validate deps order imp aliases index)
    (imp_accepted imp) (imp_result imp).
Proof.
  intros Ho. eapply decided_iff; [|rw /validateImp; apply decided_if; [done|reflexivity|apply decided_if; [done|reflexivity|]]].
  2: { instantiate (1 := (is_Some (imp_Banner imp) \/ is_Some (imp_Video imp) \/ is_Some (imp_Audio imp) \/ is_Some (imp_Native imp)) /\
         optional banner_ok (imp_Banner imp) /\ optional video_fine (imp_Video imp) /\ optional audio_fine (imp_Audio imp) /\
         (exists n, native_filled imp n) /\
         optional (fun p => Forall (fun d => deal_ID d <> ""%string) (pmp_Deals p)) (imp_PMP imp) /\
         exts_ok Validate deps aliases imp).
    set (chain := match validateBanner _ _ with Some _ => _ | None => _ end).
    assert (forall P, decided chain P (imp_result imp) ->
      decided (match imp_Banner imp, imp_Video imp, imp_Audio imp, imp_Native imp with
               | None, None, None, None => (imp, [imp_msg index (" must contain at least one of " ⧺ GoStr.quoted "banner" ⧺ ", " ⧺
                   GoStr.quoted "video" ⧺ ", " ⧺ GoStr.quoted "audio" ⧺ ", or " ⧺ GoStr.quoted "native")])
               | _, _, _, _ => chain
               end) ((is_Some (imp_Banner imp) \/ is_Some (imp_Video imp) \/ is_Some (imp_Audio imp) \/ is_Some (imp_Native imp)) /\ P)
        (imp_result imp)) as Hsome.
    { intros P Hd. destruct (imp_Banner imp), (imp_Video imp), (imp_Audio imp), (imp_Native imp);
        try (by eapply decided_iff; [|exact Hd]; split; [intros; split; [eauto 6|done]|by intros [_ ?]]).
      split; [|done]. split; [done|]. by intros [[[? ?]|[[? ?]|[[? ?]|[? ?]]]] _]. }
    apply Hsome. clear Hsome. rw /chain.
    apply decided_guard; [apply banner_fatal|apply banner_spec|].
    apply decided_guard; [apply video_fatal|apply video_fine_spec|].
    apply decided_guard; [apply audio_fatal|apply audio_fine_spec|].
    destruct (fillAndValidateNative _ _ _ _) as [n|err] eqn:En.
    - assert (imp_PMP (imp_set_Native imp n) = imp_PMP imp) as -> by by destruct imp.
      eapply decided_iff; [|apply decided_guard; [apply pmp_fatal|apply pmp_spec|]].
      2: { pose proof (validateImpExt_spec Validate deps aliases order (imp_set_Native imp n) index Ho) as H.
           destruct (validateImpExt _ _ _ _ _ _) as [imp' errs]. destruct H as [H1 H2]. split; [exact H1|].
           intros He. exists n. split; [by apply (native_filled_iff imp index)|]. by apply H2. }
      assert (exts_ok Validate deps aliases (imp_set_Native imp n) <-> exts_ok Validate deps aliases imp) as ->
        by by destruct imp.
      split; [|by intros [_ ?]]. intros ?. split; [exists n; by apply (native_filled_iff imp index)|done].
    - rw /decided /= (native_fatal _ _ _ _ _ En). split; [|done]. split; [done|]. intros [[n Hn%(native_filled_iff imp index)] _]. by rw En in Hn. }
  rw /imp_accepted /imp_media_ok. destruct (imp_ID imp), (imp_Metric imp); simpl; split; intros; destruct_and?; try done; tauto.
Qed.

(** C27: an imp passes validation (no error but warnings) exactly when its
    media objects and deals are well-formed, its native request is one by the
    native specification once asset ids are given, and the members of its
    extension, with the bidders of its prebid object over them, are known
    bidders with parameters of the right form, disabled bidders, and reserved
    members, with at least one enabled bidder.  A passed imp keeps all but two
    things: its native request is stored with the ids given; and when a bidder
    is disabled, each such is reported once, and the extension becomes those
    members without the disabled bidders - the prebid object among them as it
    was, so that what it names it still names.  This holds in whatever order
    the bidders are visited. *)
Theorem imp_validation order imp index
    (Horder : forall m, map_range m (order m)) :
  let r := validateImp UnmarshalNative MarshalNative Validate deps order imp aliases index in
  (ContainsFatalError r.2 = false <->
   imp_media_ok imp /\ (exists n, native_filled imp n) /\ exts_ok Validate deps aliases imp) /\
  (ContainsFatalError r.2 = false ->
   exists n, native_filled imp n /\ exts_after deps aliases (imp_set_Native imp n) r.1 r.2).
Proof. exact (validateImp_decided order imp index Horder). Qed.
End ImpFacts.

Definition demo_bidders : Bidders :=
  mkBidders {["appnexus"%string := "appnexus"%string]} {["rubicon"%string := "Bidder rubicon is disabled."%string]}.
Definition demo_validate (_ : string) (_ : json) : option error := None.
Definition demo_visit (m : gmap string json) : list (string * json) := map_to_list m.
Definition demo_banner : Banner := mkBanner [mkFormat 300 250 0 0 0 RawNil] None None 0 0 0 0 RawNil.
Definition demo_valid_imp (ext : json) : Imp := imp_set_Banner (simpleImp "i1" (RawJson ext)) (Some demo_banner).

(** The theorem on an imp with an enabled and a disabled bidder. *)
Lemma imp_validation_witness :
  let imp := demo_valid_imp (JObj [("appnexus"%string, JObj []); ("rubicon"%string, JObj [])]) in
  let r := validateImp demo_unmarshal_native demo_marshal_native demo_validate demo_bidders demo_visit imp ∅ 0 in
  r.2 = [EBidderTemporarilyDisabled "Bidder rubicon is disabled."] /\
  exts_after demo_bidders ∅ imp r.1 r.2 /\ imp_ext r.1 !! "rubicon"%string = None.
Proof.
  cbv zeta. set (imp := demo_valid_imp _).
  assert ((validateImp demo_unmarshal_native demo_marshal_native demo_validate demo_bidders demo_visit imp ∅ 0).2 =
    [EBidderTemporarilyDisabled "Bidder rubicon is disabled."]) as E by (vm_compute; reflexivity).
  destruct (imp_validation demo_unmarshal_native demo_marshal_native demo_validate demo_bidders ∅ demo_visit imp 0
    (fun m => map_range_self m)) as [_ H].
  destruct H as (n & Hn & Hafter); [rw E; reflexivity|].
  split; [exact E|]. assert (n = None) as -> by exact Hn.
  split; [exact Hafter|]. destruct Hafter as (_ & _ & _ & Hext).
  rw Hext; [by rw E|]. vm_compute. reflexivity.
Defined.

(** A disabled bidder is removed from the imp's extension and not from the
    prebid member it was copied from, where the exchange looks first: the
    validated imp still names it. *)
Example disabled_bidder_survives :
  let imp := demo_valid_imp (JObj [("appnexus"%string, JObj []);
    ("prebid"%string, JObj [("bidder"%string, JObj [("rubicon"%string, JObj [])])])]) in
  let r := validateImp demo_unmarshal_native demo_marshal_native demo_validate demo_bidders demo_visit imp ∅ 0 in
  r.2 = [EBidderTemporarilyDisabled "Bidder rubicon is disabled."] /\
  params_for r.1 "rubicon" = Some (JObj []).
Proof. split; vm_compute; reflexivity. Qed.
