(* ===== verification/BidderRequests.v ===== *)
(** * Per-bidder requests

    [exchange/utils.go]: the request of an auction is turned into one request
    per bidder, with the imps of that bidder ([ImpSplit]), its supply chain,
    the extended ids it may see and its buyer id; then the privacy policies
    are enforced on each.

    A request's Source is a pointer that the copies of the request share, so
    it lives in a store.  [extractBuyerUIDs] edits the user of the original
    request before any copy is made, so the edited request is returned.
    [jsonparser] and the consent parser are parameters, and so is the
    order in which the map of bidders is visited. *)

From S2P Require Import Prelude Float64 ErrorTypes Json OpenRTB JsonParser PriceGranularity ExtRequest ExtRoundtrip Currency.
From S2P Require Import Privacy Ccpa Gdpr Bidders Auction Targeting Accounts ImpSplit.

Record AdapterLabels := mkAdapterLabels {
  al_Source : string; al_RType : string; al_Adapter : string; al_PubID : string;
  al_CookieFlag : string; al_AdapterBids : string }.
Record Labels := mkLabels {
  lb_Source : string; lb_RType : string; lb_PubID : string; lb_CookieFlag : string }.
Definition CookieFlagYes : string := "exists".
Definition CookieFlagNo : string := "no".
Definition AdapterBidPresent : string := "bid".
Definition al_set_CookieFlag (l : AdapterLabels) (f : string) : AdapterLabels :=
  let 'mkAdapterLabels s r a p _ b := l in mkAdapterLabels s r a p f b.

Record BidderRequest := mkBidderRequest {
  bq_BidRequest : BidRequest; bq_BidderName : string; bq_BidderCoreName : string;
  bq_BidderLabels : AdapterLabels }.
Definition bq_set_BidRequest (b : BidderRequest) (r : BidRequest) : BidderRequest :=
  let 'mkBidderRequest _ n c l := b in mkBidderRequest r n c l.

(** [AuctionRequest]; [ar_GetId] is the user's sync cookie ([IdFetcher]). *)
Record AuctionRequest := mkAuctionRequest {
  ar_BidRequest : BidRequest; ar_Account : Account; ar_GetId : string -> string * bool;
  ar_StartTime : Z; ar_Warnings : list error; ar_GPC : string; ar_LegacyLabels : Labels }.

(** The sources of the requests in flight. *)
Definition Sources : Type := gmap loc Source.

Definition ReqTypeAMP : string := "amp".
Definition ReqTypeORTB2App : string := "openrtb2-app".
Definition ReqTypeVideo : string := "video".
Definition ReqTypeORTB2Web : string := "openrtb2-web".
Definition integrationTypeMap : gmap string string :=
  list_to_map [(ReqTypeAMP, IntegrationTypeAMP); (ReqTypeORTB2App, IntegrationTypeApp);
               (ReqTypeVideo, IntegrationTypeVideo); (ReqTypeORTB2Web, IntegrationTypeWeb)].
Definition integration_type (rtype : string) : string := default ""%string (integrationTypeMap !! rtype).
Definition unknownBidder : string := "".

(** ** Supply chains *)

(** [BidderToPrebidSChains]; [None] is the dereference of a null entry of the
    list. *)
Fixpoint schain_bidders (bidders : list string) (schain : SChain) (m : gmap string SChain) :
  gmap string SChain + error :=
  match bidders with
  | [] => inl m
  | bidder :: rest =>
      match m !! bidder with
      | Some _ =>
          inr (EPlain ("request.ext.prebid.schains contains multiple schains for bidder " ⧺ bidder ⧺
                       "; it must contain no more than one per bidder."))
      | None => schain_bidders rest schain (<[bidder := schain]> m)
      end
  end.
Fixpoint schain_loop (schains : list (option ExtRequestPrebidSChain)) (m : gmap string SChain) :
  option (gmap string SChain + error) :=
  match schains with
  | [] => Some (inl m)
  | None :: _ => None
  | Some w :: rest =>
      match schain_bidders (ps_Bidders w) (ps_SChain w) m with
      | inr err => Some (inr err)
      | inl m => schain_loop rest m
      end
  end.
Definition BidderToPrebidSChains (req : option ExtRequestPrebid) : option (gmap string SChain + error) :=
  match req with
  | None => Some (inl ∅)
  | Some req => schain_loop (pre_SChains req) ∅
  end.

Definition sChainWildCard : string := "*".
Definition selected_schain (bidder : string) (sChainsByBidder : gmap string SChain) : option SChain :=
  match sChainsByBidder !! bidder with
  | Some s => Some s
  | None => sChainsByBidder !! sChainWildCard
  end.

(** [prepareSource]: a missing Source is allocated, an existing one is written
    in place.  Encoding a supply chain does not fail. *)
Definition prepareSource (srcs : Sources) (req : BidRequest) (bidder : string)
    (sChainsByBidder : gmap string SChain) : Sources * BidRequest :=
  match selected_schain bidder sChainsByBidder with
  | None => (srcs, req)
  | Some selectedSChain =>
      let '(p, srcs, req) :=
        match req_Source req with
        | Some p => (p, srcs, req)
        | None => let p := fresh (dom srcs) in
                  (p, <[p := emptySource]> srcs, req_set_Source req (Some p))
        end in
      (<[p := src_set_Ext (default emptySource (srcs !! p)) (RawJson (enc_source_ext selectedSChain))]> srcs, req)
  end.

(** ** Extended ids *)
Definition eid_rules (perms : list EidPermission) : gmap string (list string) :=
  fold_left (fun m p => <[ep_Source p := default [] (ep_Bidders p)]> m) perms ∅.
Definition eid_allowed (rules : gmap string (list string)) (bidder : string) (eid : ExtUserEid) : bool :=
  match rules !! eid_Source eid with
  | Some rule => existsb (fun ruleBidder => GoStr.eqb ruleBidder "*" || GoStr.eqb ruleBidder bidder) rule
  | None => true
  end.
Definition eidsKey : string := "eids".

Definition setUserExtWithCopy (request : BidRequest) (userExt : RawMessage) : BidRequest :=
  match req_User request with
  | None => request
  | Some u => req_set_User request (Some (usr_set_Ext u userExt))
  end.

Definition eid_permissions (requestExt : option ExtRequestPrebid) : list EidPermission :=
  match requestExt with
  | None => []
  | Some e => match pre_Data e with
              | None => []
              | Some d => default [] d
              end
  end.

Definition removeUnpermissionedEids (request : BidRequest) (bidder : string)
    (requestExt : option ExtRequestPrebid) : BidRequest + error :=
  match req_User request with
  | None => inl request
  | Some u =>
      if raw_len0 (usr_Ext u) then inl request
      else match eid_permissions requestExt with
      | [] => inl request
      | perms =>
          match unmarshal (dec_map dec_any) (usr_Ext u) with
          | inr err => inr err
          | inl userExt =>
              let userExt := map_or_empty userExt in
              match userExt !! eidsKey with
              | None => inl request
              | Some eidsJSON =>
                  match unmarshal (dec_list dec_eid) (RawJson eidsJSON) with
                  | inr err => inr err
                  | inl eids =>
                      if bool_decide (length eids = 0) then inl request
                      else
                        let eidsAllowed := List.filter (eid_allowed (eid_rules perms) bidder) eids in
                        if bool_decide (length eids = length eidsAllowed) then inl request
                        else
                          let userExt := match eidsAllowed with
                                         | [] => delete eidsKey userExt
                                         | _ => <[eidsKey := enc_list enc_eid eidsAllowed]> userExt
                                         end in
                          if bool_decide (userExt = ∅) then inl (setUserExtWithCopy request RawNil)
                          else inl (setUserExtWithCopy request (RawJson (map_json userExt)))
                  end
              end
          end
      end
  end.

(** ** Buyer ids *)
Definition usr_after_extract (user : User) (userExt : ExtUser) : User :=
  if nonempty (eu_Consent userExt) || bool_decide (is_Some (eu_DigiTrust userExt)) ||
     (0 <? length (default [] (eu_Eids userExt)))%nat
  then usr_set_Ext user (RawJson (enc_ext_user_no_prebid userExt))
  else usr_set_Ext user RawNil.

(** The ids (a nil map reads as empty) and the edited user. *)
Definition extractBuyerUIDs (user : option User) : (gmap string string * option User) + error :=
  match user with
  | None => inl (∅, user)
  | Some u =>
      if raw_len0 (usr_Ext u) then inl (∅, user)
      else match unmarshal dec_ext_user (usr_Ext u) with
           | inr err => inr err
           | inl userExt =>
               match eu_BuyerUIDs userExt with
               | None => inl (∅, user)
               | Some buyerUIDs => inl (buyerUIDs, Some (usr_after_extract u userExt))
               end
           end
  end.

Definition copyWithBuyerUID (user : option User) (buyerUID : string) : option User :=
  match user with
  | None => Some (usr_set_BuyerUID emptyUser buyerUID)
  | Some u => if GoStr.is_empty (usr_BuyerUID u) then Some (usr_set_BuyerUID u buyerUID) else user
  end.

Definition prepareUser (req : BidRequest) (givenBidder coreBidder : string)
    (explicitBuyerUIDs : gmap string string) (GetId : string -> string * bool) : BidRequest * bool :=
  let '(cookieId, hadCookie) := GetId coreBidder in
  let req := match explicitBuyerUIDs !! givenBidder with
             | Some id => req_set_User req (copyWithBuyerUID (req_User req) id)
             | None => if hadCookie then req_set_User req (copyWithBuyerUID (req_User req) cookieId) else req
             end in
  (req, hadCookie).

(** ** The requests *)
Definition resolveBidder (bidder : string) (aliases : gmap string string) : string :=
  match aliases !! bidder with Some coreBidder => coreBidder | None => bidder end.

Section Requests.
Context (float_text : float64 -> string).

Definition getExtJson (req : BidRequest) (unpackedExt : option ExtRequestPrebid) : RawMessage :=
  match unpackedExt with
  | None => RawEmpty
  | Some e => if raw_len0 (req_Ext req) then RawEmpty
              else RawJson (enc_ext_request float_text (pre_set_SChains e []))
  end.

(** The request of one bidder; [inr] is an error that drops the bidder. *)
Definition bidder_request (req : AuctionRequest) (orig : BidRequest) (requestExt : option ExtRequestPrebid)
    (aliases : gmap string string) (explicitBuyerUIDs : gmap string string)
    (sChainsByBidder : gmap string SChain) (reqExt : RawMessage) (srcs : Sources)
    (bidder : string) (imps : list Imp) : Sources * (BidderRequest + error) :=
  let coreBidder := resolveBidder bidder aliases in
  let reqCopy := req_set_Imp_Ext orig imps reqExt in
  let '(srcs, reqCopy) := prepareSource srcs reqCopy bidder sChainsByBidder in
  match removeUnpermissionedEids reqCopy bidder requestExt with
  | inr err =>
      (srcs, inr (EPlain ("unable to enforce request.ext.prebid.data.eidpermissions because " ⧺ error_string err)))
  | inl reqCopy =>
      let labels := ar_LegacyLabels req in
      let '(reqCopy, hadSync) := prepareUser reqCopy bidder coreBidder explicitBuyerUIDs (ar_GetId req) in
      let flag := if negb hadSync && bool_decide (req_App orig = None) then CookieFlagNo else CookieFlagYes in
      (srcs, inl (mkBidderRequest reqCopy bidder coreBidder
               (al_set_CookieFlag (mkAdapterLabels (lb_Source labels) (lb_RType labels) coreBidder (lb_PubID labels)
                  (lb_CookieFlag labels) AdapterBidPresent) flag)))
  end.

Definition request_step (req : AuctionRequest) (orig : BidRequest) (requestExt : option ExtRequestPrebid)
    (aliases explicitBuyerUIDs : gmap string string) (sChainsByBidder : gmap string SChain)
    (reqExt : RawMessage) (acc : Sources * list BidderRequest * list error) (bi : string * list Imp) :
  Sources * list BidderRequest * list error :=
  let '(srcs, bidderRequests, errs) := acc in
  match bidder_request req orig requestExt aliases explicitBuyerUIDs sChainsByBidder reqExt srcs bi.1 bi.2 with
  | (srcs, inl b) => (srcs, bidderRequests ++ [b], errs)
  | (srcs, inr err) => (srcs, bidderRequests, errs ++ [err])
  end.

(** The sources, the original request as edited, the requests and the
    errors; [None] is the dereference of a null supply chain. *)
Definition getAuctionBidderRequests (srcs : Sources) (req : AuctionRequest)
    (requestExt : option ExtRequestPrebid) (impsByBidder : list (string * list Imp))
    (aliases : gmap string string) : option (Sources * BidRequest * list BidderRequest * list error) :=
  let orig := ar_BidRequest req in
  match extractBuyerUIDs (req_User orig) with
  | inr err => Some (srcs, orig, [], [err])
  | inl (explicitBuyerUIDs, user) =>
      let orig := req_set_User orig user in
      match BidderToPrebidSChains requestExt with
      | None => None
      | Some (inr err) => Some (srcs, orig, [], [err])
      | Some (inl sChainsByBidder) =>
          let reqExt := getExtJson orig requestExt in
          let '(srcs, bidderRequests, errs) :=
            fold_left (request_step req orig requestExt aliases explicitBuyerUIDs sChainsByBidder reqExt)
              impsByBidder (srcs, [], []) in
          Some (srcs, orig, bidderRequests, errs)
      end
  end.
End Requests.

(** ** Cleaning *)
Record PrivacyConfig := mkPrivacyConfig {
  pc_CCPA_Enforce : bool; pc_GDPR_Enabled : bool; pc_EEACountriesMap : gset string;
  pc_LMT_Enforce : bool }.
Record PrivacyLabels := mkPrivacyLabels {
  pl_CCPAEnforced : bool; pl_CCPAProvided : bool; pl_COPPAEnforced : bool; pl_GDPREnforced : bool;
  pl_GDPRTCFVersion : string; pl_LMTEnforced : bool }.
Definition emptyPrivacyLabels : PrivacyLabels := mkPrivacyLabels false false false false "" false.
Definition TCFVersionToValue (version : Z) : string := if (version =? 2)%Z then "v2" else "err".

Definition gdprEnabled (account : Account) (privacyConfig : PrivacyConfig) (integrationType : string) : bool :=
  match gdpr_EnabledForIntegrationType (acct_GDPR account) integrationType with
  | Some accountEnabled => accountEnabled
  | None => pc_GDPR_Enabled privacyConfig
  end.
Definition ccpaEnabled (account : Account) (privacyConfig : PrivacyConfig) (requestType : string) : bool :=
  match ccpa_EnabledForIntegrationType (acct_CCPA account) requestType with
  | Some accountEnabled => accountEnabled
  | None => pc_CCPA_Enforce privacyConfig
  end.

Definition GetValidBidders (aliases : gmap string string) : gset string :=
  BuildBidderNameHashSet ∪ dom aliases.

Definition extractCCPA (orig : BidRequest) (privacyConfig : PrivacyConfig) (account : Account)
    (aliases : gmap string string) (requestType : string) : PolicyEnforcer * option error :=
  match Ccpa_ReadFromRequest orig with
  | inr err => (NilPolicyEnforcer, Some err)
  | inl ccpaPolicy =>
      match Ccpa_Parse ccpaPolicy (GetValidBidders aliases) with
      | inr err => (NilPolicyEnforcer, Some err)
      | inl ccpaParsedPolicy =>
          (EnabledPolicyEnforcer (ccpaEnabled account privacyConfig requestType) (ccpa_enforcer ccpaParsedPolicy), None)
      end
  end.
Definition extractLMT (orig : BidRequest) (privacyConfig : PrivacyConfig) : PolicyEnforcer :=
  EnabledPolicyEnforcer (pc_LMT_Enforce privacyConfig) (Lmt.enforcer (Lmt.ReadFromRequest orig)).

Definition enf_set_CCPA (e : Enforcement) (b : bool) : Enforcement :=
  mkEnforcement b (enf_COPPA e) (enf_GDPRGeo e) (enf_GDPRID e) (enf_LMT e).
Definition enf_set_GDPR (e : Enforcement) (geo id : bool) : Enforcement :=
  mkEnforcement (enf_CCPA e) (enf_COPPA e) geo id (enf_LMT e).

Definition coppa_applies (req : BidRequest) : bool :=
  match req_Regs req with Some regs => (regs_COPPA regs =? 1)%Z | None => false end.
Definition weak_vendor (account : option Account) (coreBidder : string) : bool :=
  match account with
  | Some a => existsb (fun vendor => GoStr.eqb vendor coreBidder) (ag_BasicEnforcementVendors (acct_GDPR a))
  | None => false
  end.

Record CleanAcc := mkCleanAcc {
  ca_Enforcement : Enforcement; ca_Allowed : list BidderRequest; ca_Blocked : list string }.

(** The body of the loop over the bidder requests; the enforcement record is
    one variable for the whole loop. *)
Definition privacy_step (gDPR : Permissions) (ccpaEnforcer : PolicyEnforcer) (gdprEnforced : bool)
    (account : option Account) (publisherID : string) (gdprSignal : Z) (consent : string)
    (acc : CleanAcc) (b : BidderRequest) : CleanAcc :=
  let pe := enf_set_CCPA (ca_Enforcement acc) (ShouldEnforce ccpaEnforcer (bq_BidderName b)) in
  let '(pe, bidRequestAllowed) :=
    if gdprEnforced then
      let weakVendorEnforcement := weak_vendor account (bq_BidderCoreName b) in
      let '(bidReq, geo, id, err) :=
        AuctionActivitiesAllowed gDPR (bq_BidderCoreName b) publisherID gdprSignal consent weakVendorEnforcement in
      match err with
      | None => (enf_set_GDPR pe (negb geo) (negb id), bidReq)
      | Some _ => (enf_set_GDPR pe true true, bidReq)
      end
    else (pe, true) in
  if bidRequestAllowed
  then mkCleanAcc pe (ca_Allowed acc ++ [bq_set_BidRequest b (Enforcement_Apply pe (bq_BidRequest b))])
         (ca_Blocked acc)
  else mkCleanAcc pe (ca_Allowed acc) (ca_Blocked acc ++ [bq_BidderCoreName b]).

(** What [cleanOpenRTBRequests] leaves: the sources, the original request as
    edited, the requests to send, the metrics labels, the errors (an entry may
    be a nil error), and the bidders whose requests GDPR blocked. *)
Record Cleaned := mkCleaned {
  cl_Sources : Sources; cl_Orig : BidRequest; cl_Requests : list BidderRequest;
  cl_Labels : PrivacyLabels; cl_Errs : list (option error); cl_Blocked : list string }.

Section Clean.
Context (float_text : float64 -> string).
Context `{JsonParser}.
Context (ParseString : string -> VendorConsents + error).
Context (imp_order : nat -> gmap string json -> list (string * json)).
Context (bidder_order : gmap string (list Imp) -> list (string * list Imp)).

Definition parseAliases (orig : BidRequest) : gmap string string * list (option error) :=
  let a := jp_Get (req_Ext orig) [PrebidExtKey; "aliases"%string] in
  if bool_decide (jp_type a = JpObject) && bool_decide (jp_err a = None) then
    match unmarshal (dec_map dec_string) (jp_raw a) with
    | inr err => (∅, [Some err])
    | inl aliases => (map_or_empty aliases, [])
    end
  else if negb (bool_decide (jp_type a = JpNotExist)) && negb (bool_decide (jp_err a = Some KeyPathNotFoundError))
  then (∅, [jp_err a]) else (∅, []).

Definition err_list (err : option error) : list (option error) :=
  match err with Some e => [Some e] | None => [] end.

Definition gdpr_enforced (signal gdprDefaultValue : Z) (account : Account) (cfg : PrivacyConfig) (itype : string) : bool :=
  ((signal =? SignalYes) || ((signal =? SignalAmbiguous) && (gdprDefaultValue =? SignalYes)))%Z &&
  gdprEnabled account cfg itype.

Definition cleanOpenRTBRequests (srcs : Sources) (req : AuctionRequest) (requestExt : option ExtRequestPrebid)
    (gDPR : Permissions) (gdprDefaultValue : Z) (privacyConfig : PrivacyConfig) (account : option Account) :
  option Cleaned :=
  let failed srcs orig errs := mkCleaned srcs orig [] emptyPrivacyLabels errs [] in
  match splitImps imp_order (req_Imp (ar_BidRequest req)) with
  | inr err => Some (failed srcs (ar_BidRequest req) [Some err])
  | inl impsByBidder =>
      let '(aliases, errs) := parseAliases (ar_BidRequest req) in
      if negb (bool_decide (errs = [])) then Some (failed srcs (ar_BidRequest req) errs)
      else match getAuctionBidderRequests float_text srcs req requestExt (bidder_order impsByBidder) aliases with
      | None => None
      | Some (srcs, orig, allBidderRequests, errs) =>
          let errs := Some <$> errs in
          match allBidderRequests with
          | [] => Some (failed srcs orig errs)
          | _ =>
              let '(gdprSignal, err1) := extractGDPR orig in
              let '(consent, err2) := match extractConsent orig with
                                      | inl c => (c, None)
                                      | inr err => (""%string, Some err)
                                      end in
              let itype := integration_type (lb_RType (ar_LegacyLabels req)) in
              let '(ccpaEnforcer, err3) := extractCCPA orig privacyConfig (ar_Account req) aliases itype in
              let errs := errs ++ err_list err1 ++ err_list err2 ++ err_list err3 in
              let lmtEnforcer := extractLMT orig privacyConfig in
              let privacyEnforcement :=
                mkEnforcement false (coppa_applies orig) false false (ShouldEnforce lmtEnforcer unknownBidder) in
              let gdprEnforced := gdpr_enforced gdprSignal gdprDefaultValue (ar_Account req) privacyConfig itype in
              let labels := mkPrivacyLabels
                (ShouldEnforce ccpaEnforcer unknownBidder) (CanEnforce ccpaEnforcer)
                (enf_COPPA privacyEnforcement) gdprEnforced
                (if gdprEnforced then
                   match ParseString consent with
                   | inl parsedConsent => TCFVersionToValue (vc_Version parsedConsent)
                   | inr _ => ""
                   end
                 else "")
                (ShouldEnforce lmtEnforcer unknownBidder) in
              let acc := fold_left
                (privacy_step gDPR ccpaEnforcer gdprEnforced account (lb_PubID (ar_LegacyLabels req)) gdprSignal consent)
                allBidderRequests (mkCleanAcc privacyEnforcement [] []) in
              Some (mkCleaned srcs orig (ca_Allowed acc) labels errs (ca_Blocked acc))
          end
      end
  end.
End Clean.

(** ** Facts *)
Lemma req_set_User_same r : req_set_User r (req_User r) = r.
Proof. by destruct r. Qed.
Lemma req_set_User_twice r u u' : req_set_User (req_set_User r u) u' = req_set_User r u'.
Proof. by destruct r. Qed.

Lemma remove_eids_user r b ext r' :
  removeUnpermissionedEids r b ext = inl r' -> exists u, r' = req_set_User r u.
Proof.
  assert (exists u, r = req_set_User r u) as Hid by (exists (req_User r); by rw req_set_User_same).
  assert (forall e, exists u, setUserExtWithCopy r e = req_set_User r u) as Hset.
  { intros e. rw /setUserExtWithCopy. destruct (req_User r); eauto. }
  rw /removeUnpermissionedEids. repeat case_match; try done; intros [= <-]; first [exact Hid|apply Hset].
Qed.

Lemma prepareUser_user r g c m GetId : exists u, (prepareUser r g c m GetId).1 = req_set_User r u.
Proof.
  rw /prepareUser. destruct (GetId c) as [id had]. cbn [fst].
  destruct (m !! g); [by eexists|]. destruct had; [by eexists|]. exists (req_User r). by rw req_set_User_same.
Qed.

Section SourceFacts.
Context (req : AuctionRequest) (orig : BidRequest) (requestExt : option ExtRequestPrebid).
Context (aliases explicitBuyerUIDs : gmap string string) (chains : gmap string SChain) (reqExt : RawMessage).

Let one_bidder := bidder_request req orig requestExt aliases explicitBuyerUIDs chains reqExt.

(** What a bidder's request keeps of the prepared copy. *)
Lemma bidder_request_shape srcs bidder imps srcs' b :
  one_bidder srcs bidder imps = (srcs', inl b) ->
  exists r u, prepareSource srcs (req_set_Imp_Ext orig imps reqExt) bidder chains = (srcs', r) /\
    bq_BidRequest b = req_set_User r u /\ bq_BidderName b = bidder /\
    bq_BidderCoreName b = resolveBidder bidder aliases.
Proof using Type.
  rw /one_bidder /bidder_request.
  destruct (prepareSource _ _ _ _) as [s1 r1].
  destruct (removeUnpermissionedEids r1 bidder requestExt) as [r2|] eqn:Er; [|done].
  apply remove_eids_user in Er as [u2 ->].
  pose proof (prepareUser_user (req_set_User r1 u2) bidder (resolveBidder bidder aliases)
                explicitBuyerUIDs (ar_GetId req)) as [u3 Hu].
  destruct (prepareUser _ _ _ _ _) as [r3 had]. cbn [fst] in Hu. subst r3. intros [= <- <-].
  exists r1, u3. by rw req_set_User_twice.
Qed.

Lemma bidder_request_sources srcs bidder imps :
  (one_bidder srcs bidder imps).1 = (prepareSource srcs (req_set_Imp_Ext orig imps reqExt) bidder chains).1.
Proof using Type.
  rw /one_bidder /bidder_request. destruct (prepareSource _ _ _ _) as [s1 r1].
  destruct (removeUnpermissionedEids r1 bidder requestExt) as [r2|]; [|done].
  by destruct (prepareUser _ _ _ _ _).
Qed.

Let step := request_step req orig requestExt aliases explicitBuyerUIDs chains reqExt.

(** An invariant of the sources and the finished requests holds at the end
    when every bidder keeps it. *)
Lemma request_loop_inv (P : Sources -> list BidderRequest -> Prop) l srcs brs errs :
  P srcs brs ->
  (forall srcs brs bi srcs' r, bi ∈ l -> P srcs brs -> one_bidder srcs bi.1 bi.2 = (srcs', r) ->
     P srcs' (match r with inl b => brs ++ [b] | inr _ => brs end)) ->
  let '(srcs', brs', _) := fold_left step l (srcs, brs, errs) in P srcs' brs'.
Proof using Type.
  revert srcs brs errs. induction l as [|bi l IH]; intros srcs brs errs HP Hstep; [done|].
  cbn [fold_left].
  assert (step (srcs, brs, errs) bi =
    match one_bidder srcs bi.1 bi.2 with
    | (srcs1, inl b) => (srcs1, brs ++ [b], errs)
    | (srcs1, inr err) => (srcs1, brs, errs ++ [err])
    end) as -> by done.
  destruct (one_bidder srcs bi.1 bi.2) as [srcs1 r] eqn:E.
  assert (P srcs1 (match r with inl b => brs ++ [b] | inr _ => brs end)) as HP1
    by (eapply Hstep; [by left|exact HP|exact E]).
  destruct r as [b|e]; apply IH; try exact HP1; intros; (eapply Hstep; [by right| |]; eassumption).
Qed.
End SourceFacts.

(** The supply chain a bidder is shown. *)
Definition shown_schain (srcs : Sources) (b : BidderRequest) : option RawMessage :=
  match req_Source (bq_BidRequest b) with
  | None => None
  | Some p => src_Ext <$> srcs !! p
  end.

Lemma fresh_not_in (srcs : Sources) : srcs !! fresh (dom srcs) = None.
Proof. apply not_elem_of_dom. apply is_fresh. Qed.

(** When the request has no source object, every bidder is shown its own
    supply chain and no other: the one the request assigns to it, else the one
    for all bidders, else none; whatever order the bidders are visited in. *)
Theorem schains_separate ft srcs req ext order aliases srcs' orig brs errs chains
    (Hchains : BidderToPrebidSChains ext = Some (inl chains))
    (Hsrc : req_Source (ar_BidRequest req) = None)
    (Hrun : getAuctionBidderRequests ft srcs req ext order aliases = Some (srcs', orig, brs, errs)) :
  Forall (fun b => shown_schain srcs' b =
    (fun c => RawJson (enc_source_ext c)) <$> selected_schain (bq_BidderName b) chains) brs /\
  (forall p, p ∈ dom srcs -> srcs' !! p = srcs !! p).
Proof.
  rw /getAuctionBidderRequests Hchains in Hrun.
  destruct (extractBuyerUIDs _) as [[ids user]|]; [|by simplify_eq].
  set (orig0 := req_set_User (ar_BidRequest req) user) in *.
  assert (req_Source orig0 = None) as Ho by (rw /orig0; by destruct (ar_BidRequest req)).
  pose proof (request_loop_inv req orig0 ext aliases ids chains (getExtJson ft orig0 ext)
    (fun s l => Forall (fun b => shown_schain s b =
       (fun c => RawJson (enc_source_ext c)) <$> selected_schain (bq_BidderName b) chains /\
       forall p, req_Source (bq_BidRequest b) = Some p -> p ∈ dom s) l /\
     dom srcs ⊆ dom s /\ (forall p, p ∈ dom srcs -> s !! p = srcs !! p)) order srcs [] []) as Hinv.
  destruct (fold_left _ order (srcs, [], [])) as [[s l] e]. injection Hrun as <- <- <- <-.
  destruct Hinv as (Hl & _ & Hkeep); [split; [constructor|done]| |split; [|done]].
  2: { eapply Forall_impl; [|exact Hl]. by intros b []. }
  clear s l e. intros s l [bidder imps] s' r _ (Hl & Hdom & Hkeep) Hone. cbn [fst snd] in Hone.
  pose proof (bidder_request_sources req orig0 ext aliases ids chains (getExtJson ft orig0 ext) s bidder imps) as Hs.
  rw Hone in Hs. cbn [fst] in Hs.
  assert (req_Source (req_set_Imp_Ext orig0 imps (getExtJson ft orig0 ext)) = None) as Hc by by destruct orig0.
  set (copy := req_set_Imp_Ext orig0 imps (getExtJson ft orig0 ext)) in *.
  rw /prepareSource Hc in Hs. pose proof (fresh_not_in s) as Hfr. set (p := fresh (dom s)) in *.
  assert (forall b, b ∈ l -> shown_schain s' b = shown_schain s b /\ s !! p = None) as Hold.
  { intros b Hb. split; [|done]. rw list.Forall_forall in Hl. destruct (Hl b Hb) as [_ Hp].
    rw /shown_schain. destruct (req_Source (bq_BidRequest b)) as [q|]; [|done].
    specialize (Hp q eq_refl). rw Hs. destruct (selected_schain bidder chains); [|done]. cbn [fst].
    assert (q <> p) by (intros ->; by apply not_elem_of_dom in Hfr). by rw !lookup_insert_ne. }
  assert (dom s ⊆ dom s') as Hsub.
  { rw Hs. destruct (selected_schain bidder chains); [|done]. cbn [fst]. set_solver. }
  assert (forall b, b ∈ l -> forall q, req_Source (bq_BidRequest b) = Some q -> q ∈ dom s') as Hin.
  { intros b Hb q Hq. rw list.Forall_forall in Hl. destruct (Hl b Hb) as [_ Hp]. by apply Hsub, Hp. }
  split; [|split; [set_solver|]].
  - assert (Forall (fun b => shown_schain s' b =
        (fun c => RawJson (enc_source_ext c)) <$> selected_schain (bq_BidderName b) chains /\
        forall p, req_Source (bq_BidRequest b) = Some p -> p ∈ dom s') l) as Hl'.
    { rw list.Forall_forall in Hl. apply list.Forall_forall. intros b Hb. destruct (Hl b Hb) as [Hsh _].
      destruct (Hold b Hb) as [-> _]. split; [done|]. by apply Hin. }
    destruct r as [b|]; [|done]. apply list.Forall_app. split; [done|]. constructor; [|constructor].
    apply bidder_request_shape in Hone as (r & u & Hprep & Hreq & -> & _).
    rw /shown_schain Hreq. assert (req_Source (req_set_User r u) = req_Source r) as -> by by destruct r.
    fold copy in Hprep. rw /prepareSource Hc in Hprep. fold p in Hprep.
    destruct (selected_schain bidder chains) as [c|]; injection Hprep as <- <-; [|by rw Hc].
    assert (req_Source (req_set_Source copy (Some p)) = Some p) as -> by by destruct copy.
    rw lookup_insert_eq /=. split; [by destruct (default _ _)|]. intros q [= <-]. set_solver.
  - intros q Hq. rw -Hkeep // Hs. destruct (selected_schain bidder chains); [|done]. cbn [fst].
    assert (q <> p) by (intros ->; apply Hdom in Hq; by apply not_elem_of_dom in Hfr). by rw !lookup_insert_ne.
Qed.

Definition demo_chain (sid : string) : SChain :=
  mkSChain 1 (Some [Some (mkSChainNode "exchange.example" sid "" "" "" 1 RawNil)]) "1.0" RawNil.
Definition demo_auction_request (source : option loc) : AuctionRequest :=
  mkAuctionRequest (req_set_Source emptyBidRequest source) (plain_account "1001")
    (fun _ => (""%string, false)) zero_time [] "" (mkLabels "web" "openrtb2-web" "1001" CookieFlagNo).
Definition demo_chains_ext : option ExtRequestPrebid :=
  Some (pre_set_SChains emptyPrebid [Some (mkPrebidSChain ["appnexus"%string] (demo_chain "42"))]).
Definition demo_chain_map : gmap string SChain := {["appnexus"%string := demo_chain "42"]}.
Definition demo_bidder_order : list (string * list Imp) := [("appnexus"%string, []); ("rubicon"%string, [])].
Definition demo_bidder_requests (srcs : Sources) (source : option loc) :=
  getAuctionBidderRequests (fun _ => ""%string) srcs (demo_auction_request source) demo_chains_ext
    demo_bidder_order ∅.

(** The theorem on two bidders of which one has a supply chain. *)
Lemma schains_separate_witness :
  exists srcs orig b1 b2, demo_bidder_requests ∅ None = Some (srcs, orig, [b1; b2], []) /\
    shown_schain srcs b1 = Some (RawJson (enc_source_ext (demo_chain "42"))) /\ shown_schain srcs b2 = None.
Proof.
  pose proof (schains_separate (fun _ => ""%string) ∅ (demo_auction_request None) demo_chains_ext
    demo_bidder_order ∅) as H.
  do 4 eexists. split; [vm_compute; reflexivity|].
  destruct (H _ _ _ _ demo_chain_map ltac:(vm_compute; reflexivity)
    ltac:(reflexivity) ltac:(vm_compute; reflexivity)) as [Hall _].
  inversion Hall as [|? ? H1 Hall']; subst. inversion Hall' as [|? ? H2 _]; subst.
  split; [rw H1|rw H2]; vm_compute; reflexivity.
Defined.

Section SharedSource.
Context (p : loc) (a : string) (chain : SChain).

Lemma prepareSource_shared srcs req bidder :
  req_Source req = Some p -> a <> sChainWildCard ->
  prepareSource srcs req bidder {[a := chain]} =
  ((if bool_decide (bidder = a)
    then <[p := src_set_Ext (default emptySource (srcs !! p)) (RawJson (enc_source_ext chain))]> srcs
    else srcs), req).
Proof.
  intros Hsrc Ha. rw /prepareSource /selected_schain Hsrc. case_bool_decide as Hb.
  - by rw Hb lookup_singleton_eq.
  - by rw !lookup_singleton_ne.
Qed.
End SharedSource.

(** When the request has a source object, the copies of the request share
    it and the supply chain of one bidder is written into it: if the request
    assigns a chain to a single bidder that takes part, every bidder's request
    carries that chain in the end, whatever the order of the bidders. *)
Theorem schain_leaks_shared_source ft srcs req ext order aliases srcs' orig brs errs p a chain
    (Hchains : BidderToPrebidSChains ext = Some (inl {[a := chain]}))
    (Hwild : a <> sChainWildCard)
    (Hsrc : req_Source (ar_BidRequest req) = Some p)
    (Ha : a ∈ order.*1)
    (Hrun : getAuctionBidderRequests ft srcs req ext order aliases = Some (srcs', orig, brs, errs)) :
  Forall (fun b => shown_schain srcs' b = Some (RawJson (enc_source_ext chain))) brs.
Proof.
  rw /getAuctionBidderRequests Hchains in Hrun.
  destruct (extractBuyerUIDs _) as [[ids user]|]; [|by simplify_eq].
  set (orig0 := req_set_User (ar_BidRequest req) user) in *. set (rext := getExtJson ft orig0 ext) in *.
  assert (forall imps, req_Source (req_set_Imp_Ext orig0 imps rext) = Some p) as Hc
    by (intros imps; rw /orig0; by destruct (ar_BidRequest req)).
  set (done_ := fun s : Sources => src_Ext <$> s !! p = Some (RawJson (enc_source_ext chain))).
  assert (forall l s brs0 errs0, (a ∈ l.*1 \/ done_ s) ->
    Forall (fun b => req_Source (bq_BidRequest b) = Some p) brs0 ->
    let '(s', brs', _) := fold_left (request_step req orig0 ext aliases ids {[a := chain]} rext) l (s, brs0, errs0) in
    done_ s' /\ Forall (fun b => req_Source (bq_BidRequest b) = Some p) brs') as Hloop.
  { induction l as [|[bidder imps] l IH]; intros s brs0 errs0 Hor Hall; cbn [fold_left].
    { destruct Hor as [Hn|]; [|done]. by apply elem_of_nil in Hn. }
    rw /request_step. cbn [fst snd]. fold (request_step req orig0 ext aliases ids {[a := chain]} rext).
    pose proof (bidder_request_sources req orig0 ext aliases ids {[a := chain]} rext s bidder imps) as Hs.
    destruct (bidder_request req orig0 ext aliases ids {[a := chain]} rext s bidder imps) as [s1 r] eqn:E.
    rw (prepareSource_shared p) // in Hs. cbn [fst] in Hs.
    assert (a ∈ l.*1 \/ done_ s1) as Hor1.
    { rw Hs. destruct Hor as [Hin|Hd].
      - rw fmap_cons in Hin. apply elem_of_cons in Hin as [Hin|]; [|by left]. cbn [fst] in Hin. right.
        rw bool_decide_eq_true_2 // /done_ lookup_insert_eq. by destruct (default _ _).
      - right. case_bool_decide; [|done]. rw /done_ lookup_insert_eq. by destruct (default _ _). }
    destruct r as [b|e]; apply IH; try done. apply list.Forall_app. split; [done|]. constructor; [|constructor].
    apply bidder_request_shape in E as (r & u & Hprep & -> & _).
    rw (prepareSource_shared p) // in Hprep. injection Hprep as _ <-.
    assert (forall x, req_Source (req_set_User x u) = req_Source x) as -> by by intros []. done. }
  specialize (Hloop order srcs [] [] (or_introl Ha) ltac:(constructor)).
  destruct (fold_left _ order (srcs, [], [])) as [[s l] e]. injection Hrun as <- <- <- <-.
  destruct Hloop as [Hd Hl]. eapply Forall_impl; [|exact Hl]. intros b Hb. cbn in Hb. by rw /shown_schain Hb.
Qed.

(** The theorem on the same request with a source: the other bidder sees the
    chain too. *)
Lemma schain_leaks_shared_source_witness :
  exists srcs orig b1 b2, demo_bidder_requests {[1%positive := emptySource]} (Some 1%positive) =
      Some (srcs, orig, [b1; b2], []) /\
    bq_BidderName b2 = "rubicon"%string /\
    shown_schain srcs b2 = Some (RawJson (enc_source_ext (demo_chain "42"))).
Proof.
  pose proof (schain_leaks_shared_source (fun _ => ""%string) {[1%positive := emptySource]}
    (demo_auction_request (Some 1%positive)) demo_chains_ext demo_bidder_order ∅) as H.
  do 4 eexists. split; [vm_compute; reflexivity|]. split; [reflexivity|].
  pose proof (H _ _ _ _ 1%positive "appnexus"%string (demo_chain "42") ltac:(vm_compute; reflexivity)
    ltac:(done) ltac:(reflexivity) ltac:(by left) ltac:(vm_compute; reflexivity)) as Hall.
  inversion Hall as [|? ? H1 Hall']; subst. inversion Hall' as [|? ? H2 _]; subst. exact H2.
Defined.

(** ** Extended ids: the specification *)

(** The last permission given for a source rules; without one the id is open. *)
Definition rule_for (perms : list EidPermission) (source : string) : option EidPermission :=
  List.find (fun p => GoStr.eqb (ep_Source p) source) (rev perms).
Definition permitted (perms : list EidPermission) (bidder : string) (eid : ExtUserEid) : Prop :=
  match rule_for perms (eid_Source eid) with
  | None => True
  | Some p => "*"%string ∈ default [] (ep_Bidders p) \/ bidder ∈ default [] (ep_Bidders p)
  end.
(** An extension object, decoded. *)
Definition ext_map (r : RawMessage) : gmap string json :=
  match unmarshal (dec_map dec_any) r with inl o => map_or_empty o | inr _ => ∅ end.

Lemma eid_rules_lookup perms s :
  eid_rules perms !! s = (fun p => default [] (ep_Bidders p)) <$> rule_for perms s.
Proof.
  rw /eid_rules /rule_for. induction perms as [|p perms IH] using rev_ind; [done|].
  rw fold_left_app rev_app_distr /=. destruct (eqb_spec (ep_Source p) s) as [->|Hne].
  - by rw lookup_insert_eq.
  - rw lookup_insert_ne //.
Qed.

Lemma eid_allowed_spec perms bidder eid :
  eid_allowed (eid_rules perms) bidder eid = true <-> permitted perms bidder eid.
Proof.
  rw /eid_allowed /permitted eid_rules_lookup. destruct (rule_for perms (eid_Source eid)) as [p|]; [|done].
  cbn. rw existsb_exists. split.
  - intros (x & Hx%list_elem_of_In & Hb). apply orb_true_iff in Hb as [Hb%eqb_eq|Hb%eqb_eq]; subst x; auto.
  - intros [H|H]; eexists; split; try (apply list_elem_of_In; exact H); rw !eqb_refl ?orb_true_r //.
Qed.

Lemma filter_length_all {A} (f : A -> bool) l : length l = length (List.filter f l) -> List.filter f l = l.
Proof.
  induction l as [|x l IH]; simpl; [done|]. destruct (f x); simpl; intros H.
  - f_equal. apply IH. lia.
  - pose proof (List.filter_length_le f l). lia.
Qed.

Lemma ext_map_enc m : ext_map (RawJson (map_json m)) = m.
Proof. by rw /ext_map /unmarshal map_json_roundtrip. Qed.

(** The ids a bidder may see, and the members of the extension with them. *)
Definition allowed_eids (perms : list EidPermission) (bidder : string) (eids : list ExtUserEid) : list ExtUserEid :=
  List.filter (eid_allowed (eid_rules perms) bidder) eids.
Definition with_eids (allowed : list ExtUserEid) (m : gmap string json) : gmap string json :=
  match allowed with [] => delete eidsKey m | _ => <[eidsKey := enc_list enc_eid allowed]> m end.
Lemma allowed_eids_sublist perms bidder eids : allowed_eids perms bidder eids `sublist_of` eids.
Proof.
  unfold allowed_eids. induction eids as [|e eids IH]; simpl; [done|]. destruct (eid_allowed _ _ e); [by constructor|by constructor].
Qed.
Lemma allowed_eids_elem perms bidder eids e : e ∈ allowed_eids perms bidder eids <-> e ∈ eids /\ permitted perms bidder e.
Proof. rw -eid_allowed_spec /allowed_eids. rw list_elem_of_In filter_In. by rw -list_elem_of_In. Qed.
Lemma allowed_eids_no_rules bidder eids : allowed_eids [] bidder eids = eids.
Proof. unfold allowed_eids. induction eids as [|e eids IH]; [done|]. simpl. by rw IH. Qed.
(** The step, case by case. *)
Lemma removeUnpermissionedEids_cases request bidder ext request' u eidsJSON eids :
  req_User request = Some u -> ext_map (usr_Ext u) !! eidsKey = Some eidsJSON -> dec_list dec_eid eidsJSON = Some eids ->
  removeUnpermissionedEids request bidder ext = inl request' ->
  let allowed := allowed_eids (eid_permissions ext) bidder eids in
  (allowed = eids /\ request' = request) \/
  (allowed <> eids /\ exists raw, request' = req_set_User request (Some (usr_set_Ext u raw)) /\
     ext_map raw = with_eids allowed (ext_map (usr_Ext u))).
Proof.
  intros Hu Heids Hdec Hrun. cbv zeta. rw /removeUnpermissionedEids Hu in Hrun.
  rw {1}/ext_map in Heids. destruct (raw_len0 (usr_Ext u)) eqn:El.
  { destruct (usr_Ext u); try done; cbn in Heids; by rw lookup_empty in Heids. }
  destruct (eid_permissions ext) as [|pm pms]; [left; split; [apply allowed_eids_no_rules|congruence]|].
  destruct (unmarshal (dec_map dec_any) (usr_Ext u)) as [userExt|] eqn:Eu; [|done].
  rw Heids /unmarshal Hdec in Hrun.
  case_bool_decide as Hlen; [left; split; [by apply nil_length_inv in Hlen as ->|congruence]|].
  change (List.filter (eid_allowed (eid_rules (pm :: pms)) bidder) eids) with (allowed_eids (pm :: pms) bidder eids) in Hrun.
  set (allowed := allowed_eids _ _ _) in *. case_bool_decide as Hlen'; [left; split; [by apply filter_length_all|congruence]|].
  right. split; [intros He; by rw -He in Hlen'|].
  change (match allowed with [] => _ | _ => _ end) with (with_eids allowed (map_or_empty userExt)) in Hrun.
  assert (ext_map (usr_Ext u) = map_or_empty userExt) as Hm by by rw /ext_map Eu.
  rw Hm. rw /setUserExtWithCopy Hu in Hrun. case_bool_decide as He; injection Hrun as <-; eexists; split; try done.
  by rw ext_map_enc.
Qed.

(** The extended ids of a user are enforced: after the step every id the
    request still holds is one the permissions of the request open to the
    bidder, no such id is lost or reordered (what is left reads back as those
    ids), the eids member goes when none is left, and neither the other members
    of the extension nor anything else of the request changes. *)
Theorem eids_enforced request bidder ext request' u eidsJSON eids
    (Hu : req_User request = Some u)
    (Heids : ext_map (usr_Ext u) !! eidsKey = Some eidsJSON)
    (Hdec : dec_list dec_eid eidsJSON = Some eids)
    (Hrun : removeUnpermissionedEids request bidder ext = inl request') :
  exists u' allowed, request' = req_set_User request (Some u') /\
    u' = usr_set_Ext u (usr_Ext u') /\
    allowed `sublist_of` eids /\
    (forall e, e ∈ allowed <-> e ∈ eids /\ permitted (eid_permissions ext) bidder e) /\
    (allowed = eids -> u' = u) /\
    (allowed <> eids -> match allowed with
                        | [] => ext_map (usr_Ext u') !! eidsKey = None
                        | _ => exists j, ext_map (usr_Ext u') !! eidsKey = Some j /\ dec_list dec_eid j = Some (eid_norm <$> allowed)
                        end) /\
    (forall k, k <> eidsKey -> ext_map (usr_Ext u') !! k = ext_map (usr_Ext u) !! k).
Proof.
  pose proof (removeUnpermissionedEids_cases _ _ _ _ _ _ _ Hu Heids Hdec Hrun) as Hcases. cbv zeta in Hcases.
  set (allowed := allowed_eids _ _ _) in *.
  assert (forall e, e ∈ allowed <-> e ∈ eids /\ permitted (eid_permissions ext) bidder e) as Hall by apply allowed_eids_elem.
  assert (allowed `sublist_of` eids) as Hsub by apply allowed_eids_sublist.
  destruct Hcases as [[Ha ->]|(Hne & raw & -> & Hraw)].
  - exists u, allowed. split; [rw -Hu; by rw req_set_User_same|]. split; [by destruct u|]. by split_and!.
  - assert (usr_Ext (usr_set_Ext u raw) = raw) as Hr by by destruct u.
    exists (usr_set_Ext u raw), allowed. rw Hr Hraw. split; [done|]. split; [done|]. split; [done|]. split; [done|]. split; [done|]. split.
    + intros _. destruct allowed as [|e l] eqn:El; [apply lookup_delete_eq|].
      eexists. split; [apply lookup_insert_eq|]. apply (eids_reread _ _ _ Hdec). intros x Hx. by apply Hall in Hx as [Hx _].
    + intros k Hk. destruct allowed; [by apply lookup_delete_ne|by apply lookup_insert_ne].
Qed.

Definition demo_eids_user : User :=
  usr_set_Ext emptyUser (RawJson (JObj [("eids"%string,
    JArr [JObj [("source"%string, JStr "a.example")]; JObj [("source"%string, JStr "b.example")]]);
    ("consent"%string, JStr "C")])).
Definition demo_eids_ext : option ExtRequestPrebid :=
  Some (mkPrebid ∅ ∅ None (Some (Some [mkEidPermission "a.example" (Some ["rubicon"%string])])) false RawNil []
          None false None [] None).

(** The theorem on a user with two ids of which one is closed to the bidder. *)
Lemma eids_enforced_witness :
  exists r', removeUnpermissionedEids (req_set_User emptyBidRequest (Some demo_eids_user)) "appnexus" demo_eids_ext = inl r' /\
    exists u' (allowed : list ExtUserEid),
      r' = req_set_User (req_set_User emptyBidRequest (Some demo_eids_user)) (Some u') /\
      forall e, e ∈ allowed -> permitted (eid_permissions demo_eids_ext) "appnexus" e.
Proof.
  eexists. split; [vm_compute; reflexivity|].
  destruct (eids_enforced (req_set_User emptyBidRequest (Some demo_eids_user)) "appnexus" demo_eids_ext _
    demo_eids_user (JArr [JObj [("source"%string, JStr "a.example")]; JObj [("source"%string, JStr "b.example")]])
    [mkEid "a.example" "" None RawNil; mkEid "b.example" "" None RawNil] eq_refl
    ltac:(vm_compute; reflexivity) ltac:(vm_compute; reflexivity) ltac:(vm_compute; reflexivity))
    as (u' & allowed & H1 & _ & _ & H4 & _).
  exists u', allowed. split; [exact H1|]. intros e He. by apply H4.
Defined.

(** ** Privacy: the specification *)

(** No device identifier and no user identifier is left. *)
Definition hides_identity (r : BidRequest) : Prop :=
  (forall d, req_Device r = Some d -> Forall (fun s => s = ""%string) (dev_ids d)) /\
  (forall u, req_User r = Some u -> usr_ID u = ""%string /\ usr_BuyerUID u = ""%string).

(** The answers of the GDPR permissions for a bidder: may it be asked, and may
    it see the location and the ids; an error denies both. *)
Definition gdpr_answer (gDPR : Permissions) (account : option Account) (pub : string) (signal : Z)
    (consent : string) (b : BidderRequest) : bool * bool * bool :=
  match AuctionActivitiesAllowed gDPR (bq_BidderCoreName b) pub signal consent
          (weak_vendor account (bq_BidderCoreName b)) with
  | (bidReq, geo, id, None) => (bidReq, geo, id)
  | (bidReq, _, _, Some _) => (bidReq, false, false)
  end.
Definition consent_of (req : BidRequest) : string :=
  match extractConsent req with inl c => c | inr _ => "" end.

(** The policies that apply to one bidder. *)
Definition policies_for (orig : BidRequest) (ccpa lmt : PolicyEnforcer) (enforced : bool)
    (answer : bool * bool * bool) (b : BidderRequest) : Enforcement :=
  mkEnforcement (ShouldEnforce ccpa (bq_BidderName b)) (coppa_applies orig)
    (enforced && negb answer.1.2) (enforced && negb answer.2) (ShouldEnforce lmt unknownBidder).
Definition identity_protected (e : Enforcement) : bool :=
  enf_COPPA e || enf_GDPRID e || enf_CCPA e || enf_LMT e.

Lemma apply_hides_identity e r : identity_protected e = true -> hides_identity (Enforcement_Apply e r).
Proof.
  intros He. rw /hides_identity apply_unconditional. destruct r as [? ? ? ? dev usr ? ? ? ? ? ? ?].
  cbn [req_Device req_User req_set_Device req_set_User]. split.
  - intros d. destruct dev as [d0|]; [|done].
    destruct (scrub_device_protected e d0) as (d' & -> & Hd). intros [= <-]. by eapply device_protected_ids.
  - intros u. destruct usr as [u0|]; [|done].
    destruct (scrub_user_protected e u0) as (u' & -> & ext & _ & ->). intros [= <-].
    change (hides_ids e = true) in He. cbn. by rw /unless_ids He.
Qed.

Section PrivacyLoop.
Context (gDPR : Permissions) (ccpa : PolicyEnforcer) (enforced : bool) (account : option Account).
Context (pub : string) (signal : Z) (consent : string).
Let answer := gdpr_answer gDPR account pub signal consent.
Let allowed b := negb enforced || (answer b).1.1.
Let enforce (pe0 : Enforcement) b :=
  bq_set_BidRequest b (Enforcement_Apply
    (mkEnforcement (ShouldEnforce ccpa (bq_BidderName b)) (enf_COPPA pe0) (enforced && negb (answer b).1.2)
       (enforced && negb (answer b).2) (enf_LMT pe0)) (bq_BidRequest b)).

(** The shared enforcement record carries nothing from one bidder to the
    next. *)
Lemma privacy_loop l acc :
  (enforced = false -> enf_GDPRGeo (ca_Enforcement acc) = false /\ enf_GDPRID (ca_Enforcement acc) = false) ->
  ca_Allowed (fold_left (privacy_step gDPR ccpa enforced account pub signal consent) l acc) =
  ca_Allowed acc ++ (enforce (ca_Enforcement acc) <$> List.filter allowed l).
Proof using Type.
  revert acc. induction l as [|b l IH]; intros acc Hacc; cbn [fold_left]; [by rw app_nil_r|].
  rw [List.filter _ (b :: l)]/=. rw /allowed. fold allowed.
  destruct acc as [[cc co geo id lm] al bl]. cbn [ca_Enforcement enf_GDPRGeo enf_GDPRID ca_Allowed] in *.
  rw /privacy_step. cbn [ca_Enforcement ca_Allowed ca_Blocked enf_set_CCPA enf_COPPA enf_GDPRGeo enf_GDPRID enf_LMT].
  destruct enforced.
  - destruct (AuctionActivitiesAllowed gDPR _ pub signal consent _) as [[[bidReq g] i] err] eqn:E.
    set (pe := match err with None => _ | Some _ => _ end).
    assert (exists g' i', pe = (mkEnforcement (ShouldEnforce ccpa (bq_BidderName b)) co (negb g') (negb i') lm, bidReq) /\
      answer b = (bidReq, g', i')) as (g' & i' & -> & Ha).
    { rw /pe /answer /gdpr_answer E. destruct err; [exists false, false|exists g, i]; done. }
    destruct bidReq; rw IH //=; rw Ha //=.
    rw -app_assoc /=. do 2 f_equal. rw /enforce Ha. done.
  - destruct (Hacc eq_refl) as [-> ->]. cbn [negb orb].
    rw IH //= -app_assoc /=. done.
Qed.
End PrivacyLoop.

(** C1: no request leaves the exchange with an identity that a policy
    protects.  Every request to be sent is one of the bidder requests made
    from the auction, with exactly the policies enforced that apply to its
    bidder: COPPA and LMT as the request says, CCPA as the parsed policy says
    for this bidder, GDPR as the permissions answer for this bidder and only
    when it is enforced; a bidder that GDPR forbids to ask is left out; and
    whenever COPPA, CCPA, LMT or a GDPR refusal applies, the device and user
    identifiers are gone. *)
Theorem clean_requests_private `{JsonParser} ft PS io bo srcs req ext gDPR def cfg account c
    (Hrun : cleanOpenRTBRequests ft PS io bo srcs req ext gDPR def cfg account = Some c) :
  let orig := cl_Orig c in
  let itype := integration_type (lb_RType (ar_LegacyLabels req)) in
  let aliases := (parseAliases (ar_BidRequest req)).1 in
  let ccpa := (extractCCPA orig cfg (ar_Account req) aliases itype).1 in
  let signal := (extractGDPR orig).1 in
  let enforced := gdpr_enforced signal def (ar_Account req) cfg itype in
  forall b, b ∈ cl_Requests c ->
    exists imps all errs b0,
      splitImps io (req_Imp (ar_BidRequest req)) = inl imps /\
      getAuctionBidderRequests ft srcs req ext (bo imps) aliases = Some (cl_Sources c, orig, all, errs) /\
      b0 ∈ all /\
      let answer := gdpr_answer gDPR account (lb_PubID (ar_LegacyLabels req)) signal (consent_of orig) b0 in
      let e := policies_for orig ccpa (extractLMT orig cfg) enforced answer b0 in
      b = bq_set_BidRequest b0 (Enforcement_Apply e (bq_BidRequest b0)) /\
      (enforced = true -> answer.1.1 = true) /\
      (identity_protected e = true -> hides_identity (bq_BidRequest b)).
Proof.
  intros orig itype aliases ccpa signal enforced b Hb. subst orig itype aliases ccpa signal enforced.
  rw /cleanOpenRTBRequests in Hrun.
  destruct (splitImps io (req_Imp (ar_BidRequest req))) as [imps|]; [|simplify_eq; by apply elem_of_nil in Hb].
  destruct (parseAliases (ar_BidRequest req)) as [aliases errs].
  destruct (negb _); [simplify_eq; by apply elem_of_nil in Hb|].
  destruct (getAuctionBidderRequests ft srcs req ext (bo imps) aliases) as [[[[s o] all] es]|] eqn:Eg; [|done].
  assert (all <> [] \/ cl_Requests c = []) as [Hne|Hnil]
    by (destruct all; [right; by simplify_eq|by left]); [|rw Hnil in Hb; by apply elem_of_nil in Hb].
  destruct (extractGDPR o) as [signal err1] eqn:Es.
  assert (exists err2, (match extractConsent o with inl c => (c, None) | inr err => (""%string, Some err) end) =
    (consent_of o, err2)) as (err2 & Hc) by (rw /consent_of; destruct (extractConsent o); eauto).
  rw Hc in Hrun. destruct (extractCCPA o cfg (ar_Account req) aliases _) as [ccpa err3] eqn:Ec.
  remember (fold_left _ all _) as acc eqn:Hacc in Hrun.
  destruct all as [|b1 all1]; [done|]. injection Hrun as <-. cbn [cl_Orig cl_Requests cl_Sources fst] in *.
  rw Es Ec. cbn [fst]. rw Hacc privacy_loop // in Hb. cbn [ca_Allowed ca_Enforcement enf_COPPA enf_LMT app] in Hb.
  apply list_elem_of_fmap in Hb as (b0 & -> & Hb0).
  apply list_elem_of_In, filter_In in Hb0 as [Hin%list_elem_of_In Hal].
  exists imps, (b1 :: all1), es, b0. split; [done|]. split; [done|]. split; [done|].
  cbv zeta. rw /policies_for. split; [done|]. split.
  - intros He. by rw He /= in Hal.
  - intros Hp. destruct b0 as [r n cn la]. by apply apply_hides_identity.
Qed.

Definition demo_user : User := usr_set_BuyerUID (mkUser "u-1" "" 0 "" "" "" None [] RawNil) "appnexus-7".
Definition demo_coppa_request : AuctionRequest :=
  mkAuctionRequest (mkBidRequest "r1" [demo_imp] None None None (Some demo_user) 0 0 0 [] [] [] None
      (Some (mkRegs 1 RawNil)) RawNil) (plain_account "1001")
    (fun _ => (""%string, false)) zero_time [] "" (mkLabels "web" "openrtb2-web" "1001" CookieFlagNo).
Definition demo_clean : option Cleaned :=
  cleanOpenRTBRequests (fun _ => ""%string)
    (fun _ => inr (EPlain "no consent")) map_order map_to_list ∅ demo_coppa_request None AlwaysAllow SignalNo
    (mkPrivacyConfig true true ∅ true) None.

(** The theorem on a request under COPPA: no bidder sees the user id. *)
Lemma clean_requests_private_witness :
  exists c b, demo_clean = Some c /\ b ∈ cl_Requests c /\ hides_identity (bq_BidRequest b).
Proof.
  destruct demo_clean as [c|] eqn:E; [|assert (bool_decide (is_Some demo_clean) = false) as Hn
    by (rw E; reflexivity); vm_compute in Hn; discriminate Hn].
  assert ((match demo_clean with Some c => negb (bool_decide (length (cl_Requests c) = 0)) && coppa_applies (cl_Orig c)
           | None => false end) = true) as Hne by (vm_compute; reflexivity).
  rw E in Hne. apply andb_true_iff in Hne as [Hlen Hco].
  destruct (cl_Requests c) as [|b bs] eqn:Eb; [discriminate Hlen|].
  exists c, b. split; [reflexivity|]. rw Eb. split; [by left|].
  destruct (clean_requests_private _ _ _ _ _ _ _ _ _ _ _ c E b ltac:(rw Eb; by left))
    as (imps & all & es & b0 & _ & _ & _ & _ & _ & Hh).
  apply Hh. rw /identity_protected /policies_for. cbn [enf_COPPA]. by rw Hco.
Defined.
