(* ===== verification/RequestValidation.v ===== *)
(** * Validation of requests

    [validateRequest] of [endpoints/openrtb2/auction.go] and the checks it
    calls: the request's own fields, [request.ext.prebid] (aliases, bid
    adjustments, supply chains, eid permissions, currency rates), site, app,
    user, regs, device, the CCPA policy, and the imps ([ImpValidation]).
    Validation edits the request: it keeps the first currency, gives the
    source a transaction id, removes a malformed US privacy string and the
    imps are rewritten.  A loop over a map takes its order from [orders]. *)

From S2P Require Import Prelude Float64 ErrorTypes Json OpenRTB JsonParser PriceGranularity ExtRequest Bidders Privacy Ccpa.
From S2P Require Import ConsentWriters NativeValidation ImpValidation BidderRequests.

(** The order in which each map is visited; the imps' extensions by index. *)
Record Orders := mkOrders {
  or_factors : gmap string float64 -> list (string * float64);
  or_strings : gmap string string -> list (string * string);
  or_rates : gmap string (option (gmap string float64)) -> list (string * option (gmap string float64));
  or_exts : nat -> gmap string json -> list (string * json) }.

(** The endpoint's settings that validation reads. *)
Record endpointDeps := mkDeps {
  d_bidders : Bidders; d_AutoGenSourceTID : bool; d_BlacklistedAppMap : gset string }.

Definition knows (deps : endpointDeps) (aliases : gmap string string) (bidder : string) : bool :=
  bool_decide (is_Some (bidderMap (d_bidders deps) !! bidder)) || bool_decide (is_Some (aliases !! bidder)).

(** ** [request.source] *)
Definition validateAndFillSourceTID (newV4 : string + error) (srcs : Sources) (req : BidRequest) :
  Sources * BidRequest * option error :=
  let '(p, srcs, req) :=
    match req_Source req with
    | Some p => (p, srcs, req)
    | None => let p := fresh (dom srcs) in (p, <[p := emptySource]> srcs, req_set_Source req (Some p))
    end in
  let source := default emptySource (srcs !! p) in
  if GoStr.is_empty (src_TID source) then
    match newV4 with
    | inl rawUUID => (<[p := src_set_TID source rawUUID]> srcs, req, None)
    | inr _ => (srcs, req, Some (EPlain "req.Source.TID missing in the req and error creating a random UID"))
    end
  else (srcs, req, None).

(** ** [request.ext.prebid] *)
Definition parseBidExt (ext : RawMessage) : option ExtRequestPrebid + error :=
  if raw_len0 ext then inl None
  else match unmarshal dec_ext_request ext with
       | inr err => inr (EPlain ("request.ext is invalid: " ⧺ error_string err))
       | inl tmpExt => inl (Some tmpExt)
       end.

Section Ext.
Context (deps : endpointDeps).

Definition validateAliases (aliases : list (string * string)) : option error :=
  first_error (fun '(alias, coreBidder) _ =>
    if bool_decide (is_Some (disabledBidders (d_bidders deps) !! coreBidder)) then
      Some (EPlain ("request.ext.prebid.aliases." ⧺ alias ⧺ " refers to disabled bidder: " ⧺ coreBidder))
    else if negb (bool_decide (is_Some (bidderMap (d_bidders deps) !! coreBidder))) then
      Some (EPlain ("request.ext.prebid.aliases." ⧺ alias ⧺ " refers to unknown bidder: " ⧺ coreBidder))
    else if GoStr.eqb alias coreBidder then
      Some (EPlain ("request.ext.prebid.aliases." ⧺ alias ⧺
        " defines a no-op alias. Choose a different alias, or remove this entry."))
    else None) aliases 0.

Definition validateBidAdjustmentFactors (adjustmentFactors : list (string * float64)) (aliases : gmap string string) :
  option error :=
  first_error (fun '(bidderToAdjust, adjustmentFactor) _ =>
    if F64.leb adjustmentFactor F64.zero then
      Some (EPlain ("request.ext.prebid.bidadjustmentfactors." ⧺ bidderToAdjust ⧺
        " must be a positive number. Got " ⧺ F64.format_f adjustmentFactor 6))
    else if negb (knows deps aliases bidderToAdjust) then
      Some (EPlain ("request.ext.prebid.bidadjustmentfactors." ⧺ bidderToAdjust ⧺ " is not a known bidder or alias"))
    else None) adjustmentFactors 0.

Definition validateSChains (req : ExtRequestPrebid) : option (option error) :=
  match BidderToPrebidSChains (Some req) with
  | None => None
  | Some (inl _) => Some None
  | Some (inr err) => Some (Some err)
  end.

Definition validateBidders (bidders : list string) (knownAliases : gmap string string) : option error :=
  first_error (fun bidder _ =>
    if GoStr.eqb bidder "*" then
      if (1 <? length bidders)%nat
      then Some (EPlain ("bidder wildcard " ⧺ GoStr.quoted "*" ⧺ " mixed with specific bidders")) else None
    else if negb (knows deps knownAliases bidder)
         then Some (EPlain ("unrecognized bidder " ⧺ GoStr.quoted bidder)) else None) bidders 0.

Fixpoint eid_permissions_loop (aliases : gmap string string) (i : nat) (l : list EidPermission)
    (uniqueSources : gset string) : option error :=
  let msg rest := EPlain ("request.ext.prebid.data.eidpermissions[" ⧺ GoStr.itoa (Z.of_nat i) ⧺ "] " ⧺ rest) in
  match l with
  | [] => None
  | eid :: rest =>
      if GoStr.is_empty (ep_Source eid) then Some (msg ("missing required field: " ⧺ GoStr.quoted "source"))
      else if bool_decide (ep_Source eid ∈ uniqueSources) then
        Some (msg ("duplicate entry with field: " ⧺ GoStr.quoted "source"))
      else match default [] (ep_Bidders eid) with
           | [] => Some (msg ("missing or empty required field: " ⧺ GoStr.quoted "bidders"))
           | bidders =>
               match validateBidders bidders aliases with
               | Some err => Some (msg ("contains " ⧺ error_string err))
               | None => eid_permissions_loop aliases (S i) rest ({[ep_Source eid]} ∪ uniqueSources)
               end
           end
  end.
Definition validateEidPermissions (req : ExtRequestPrebid) (aliases : gmap string string) : option error :=
  match pre_Data req with
  | None => None
  | Some data => eid_permissions_loop aliases 0 (default [] data) ∅
  end.
End Ext.

Section Rates.
Context (ParseISO : string -> string + error) (orders : Orders).

Definition bad_code (code : string) : error :=
  EBadInput ("currency code " ⧺ code ⧺ " is not recognized or malformed").
Definition check_code (code : string) : option error :=
  match ParseISO code with inl _ => None | inr _ => Some (bad_code code) end.
Definition validateCustomRates (bidReqCurrencyRates : option ExtRequestCurrency) : option error :=
  match bidReqCurrencyRates with
  | None => None
  | Some c =>
      first_error (fun '(fromCurrency, rates) _ =>
        match check_code fromCurrency with
        | Some err => Some err
        | None => first_error (fun '(toCurrency, _) _ => check_code toCurrency) (or_factors orders (map_or_empty rates)) 0
        end) (or_rates orders (map_or_empty (ec_ConversionRates c))) 0
  end.
End Rates.

(** ** Site, app, user, regs, device *)
Section Objects.
Context `{JsonParser}.

(** [ExtSite.UnmarshalJSON]: [None] refuses the extension. *)
Definition ExtSite_UnmarshalJSON (j : json) : option Z :=
  let a := jp_Get (RawJson j) ["amp"%string] in
  if (negb (bool_decide (jp_type a = JpNotExist)) && negb (bool_decide (jp_type a = JpNumber))) ||
     negb (GoStr.len (jp_value a) =? 1)%nat then None
  else if GoStr.eqb (jp_value a) "0" then Some 0%Z
  else if GoStr.eqb (jp_value a) "1" then Some 1%Z
  else None.

Definition validateSite (site : option Site) : option error :=
  match site with
  | None => None
  | Some s =>
      if GoStr.is_empty (site_ID s) && GoStr.is_empty (site_Page s) then
        Some (EPlain "request.site should include at least one of request.site.id or request.site.page.")
      else if raw_len0 (site_Ext s) then None
      else match unmarshal ExtSite_UnmarshalJSON (site_Ext s) with inl _ => None | inr err => Some err end
  end.
End Objects.

(** [ExtApp]. *)
Definition dec_ext_app : decoder (string * string) := dec_struct (fun kvs =>
  dec_field (dec_struct (fun kvs =>
    source ← dec_field dec_string ""%string "source" kvs;
    version ← dec_field dec_string ""%string "version" kvs;
    Some (source, version))) (""%string, ""%string) "prebid" kvs).
Definition validateApp (deps : endpointDeps) (app : option App) : option error :=
  match app with
  | None => None
  | Some a =>
      if negb (GoStr.is_empty (app_ID a)) && bool_decide (app_ID a ∈ d_BlacklistedAppMap deps) then
        Some (EBlacklistedApp ("Prebid-server does not process requests from App ID: " ⧺ app_ID a))
      else if raw_len0 (app_Ext a) then None
      else match unmarshal dec_ext_app (app_Ext a) with inl _ => None | inr err => Some err end
  end.

Definition eid_msg (i : nat) (rest : string) : error :=
  EPlain ("request.user.ext.eids[" ⧺ GoStr.itoa (Z.of_nat i) ⧺ "]" ⧺ rest).
Definition uid_check (i : nat) (uid : ExtUserEidUid) (uidIndex : nat) : option error :=
  if GoStr.is_empty (eu_ID uid)
  then Some (eid_msg i (".uids[" ⧺ GoStr.itoa (Z.of_nat uidIndex) ⧺ "] missing required field: " ⧺ GoStr.quoted "id"))
  else None.
(** The loop over the extended ids. *)
Fixpoint eids_loop (i : nat) (l : list ExtUserEid) (uniqueSources : gset string) : option error :=
  match l with
  | [] => None
  | eid :: rest =>
      if GoStr.is_empty (eid_Source eid) then Some (eid_msg i (" missing required field: " ⧺ GoStr.quoted "source"))
      else if bool_decide (eid_Source eid ∈ uniqueSources) then
        Some (EPlain "request.user.ext.eids must contain unique sources")
      else
        let next := eids_loop (S i) rest ({[eid_Source eid]} ∪ uniqueSources) in
        if GoStr.is_empty (eid_ID eid) then
          match eid_Uids eid with
          | None => Some (eid_msg i (" must contain either " ⧺ GoStr.quoted "id" ⧺ " or " ⧺ GoStr.quoted "uids" ⧺ " field"))
          | Some [] => Some (eid_msg i ".uids must contain at least one element or be undefined")
          | Some uids =>
              match first_error (uid_check i) uids 0 with
              | Some err => Some err
              | None => next
              end
          end
        else next
  end.

Definition validateUser (deps : endpointDeps) (orders : Orders) (user : option User) (aliases : gmap string string) :
  option error :=
  match user with
  | None => None
  | Some u =>
      if match usr_Geo u with Some g => (geo_Accuracy g <? 0)%Z | None => false end then
        Some (EPlain "request.user.geo.accuracy must be a positive number")
      else if raw_is_nil (usr_Ext u) then None
      else match unmarshal dec_ext_user (usr_Ext u) with
           | inr err => Some (EPlain ("request.user.ext object is not valid: " ⧺ error_string err))
           | inl userExt =>
               if match eu_DigiTrust userExt with Some d => negb (dt_Pref d =? 0)%Z | None => false end then
                 Some (EPlain "request.user contains a digitrust object that is not valid.")
               else
                 let buyeruids :=
                   match eu_BuyerUIDs userExt with
                   | None => None
                   | Some ids =>
                       if (size ids <? 1)%nat then
                         Some (EPlain ("request.user.ext.prebid requires a " ⧺ GoStr.quoted "buyeruids" ⧺
                           " property with at least one ID defined. If none exist, then request.user.ext.prebid should not be defined."))
                       else first_error (fun '(bidderName, _) _ =>
                         if knows deps aliases bidderName then None
                         else Some (EPlain ("request.user.ext." ⧺ bidderName ⧺
                           " is neither a known bidder name nor an alias in request.ext.prebid.aliases.")))
                         (or_strings orders ids) 0
                   end in
                 match buyeruids, eu_Eids userExt with
                 | Some err, _ => Some err
                 | None, None => None
                 | None, Some [] => Some (EPlain "request.user.ext.eids must contain at least one element or be undefined")
                 | None, Some eids => eids_loop 0 eids ∅
                 end
           end
  end.

Definition validateRegs (regs : option Regs) : option error :=
  match regs with
  | None => None
  | Some r =>
      if raw_len0 (regs_Ext r) then None
      else match unmarshal dec_ext_regs (regs_Ext r) with
           | inr err => Some (EPlain ("request.regs.ext is invalid: " ⧺ error_string err))
           | inl regsExt =>
               match er_GDPR regsExt with
               | Some g => if ((g <? 0) || (g >? 1))%Z
                           then Some (EPlain "request.regs.ext.gdpr must be either 0 or 1.") else None
               | None => None
               end
           end
  end.

Definition validateDevice (device : option Device) : option error :=
  match device with
  | None => None
  | Some d =>
      if (dev_W d <? 0)%Z then Some (EPlain "request.device.w must be a positive number")
      else if (dev_H d <? 0)%Z then Some (EPlain "request.device.h must be a positive number")
      else if (dev_PPI d <? 0)%Z then Some (EPlain "request.device.ppi must be a positive number")
      else if match dev_Geo d with Some g => (geo_Accuracy g <? 0)%Z | None => false end then
        Some (EPlain "request.device.geo.accuracy must be a positive number")
      else None
  end.

(** ** The request *)
Section ValidateRequest.
Context `{JsonParser}.
Context (float_text : float64 -> string) (ParseISO : string -> string + error).
Context (UnmarshalNative : string -> NativeReq.Request + string).
Context (MarshalNative : NativeReq.Request -> string + string).
Context (Validate : string -> json -> option error).
Context (deps : endpointDeps) (orders : Orders) (newV4 : string + error).

(** The imps in turn, with the ids seen so far; a fatal error of one ends the
    loop, its imp edited and the later ones not visited. *)
Fixpoint validate_imps (aliases : gmap string string) (index : nat) (imps : list Imp) (impIDs : gmap string nat) :
  list Imp * list error :=
  match imps with
  | [] => ([], [])
  | imp :: rest =>
      let dup := match impIDs !! imp_ID imp with
                 | Some firstIndex =>
                     [EPlain ("request.imp[" ⧺ GoStr.itoa (Z.of_nat firstIndex) ⧺ "].id and request.imp[" ⧺
                        GoStr.itoa (Z.of_nat index) ⧺ "].id are both " ⧺ GoStr.quoted (imp_ID imp) ⧺ ". Imp IDs must be unique.")]
                 | None => []
                 end in
      let impIDs := <[imp_ID imp := index]> impIDs in
      let '(imp, errs) := validateImp UnmarshalNative MarshalNative Validate (d_bidders deps) (or_exts orders index) imp aliases index in
      if ContainsFatalError errs then (imp :: rest, dup ++ errs)
      else let '(rest, more) := validate_imps aliases (S index) rest impIDs in (imp :: rest, dup ++ errs ++ more)
  end.

Definition one_currency_msg (cur : string) : error :=
  EWarning ("A prebid request can only process one currency. Taking the first currency in the list, " ⧺ cur ⧺
    ", as the active currency") 0.

(** A malformed US privacy string is removed and reported; [inr] ends the
    validation. *)
Definition validate_ccpa (aliases : gmap string string) (req : BidRequest) :
  option ((BidRequest * list error) + list error) :=
  match Ccpa_ReadFromRequest req with
  | inr err => Some (inr [err])
  | inl ccpaPolicy =>
      match Ccpa_Parse ccpaPolicy (GetValidBidders aliases) with
      | inl _ => Some (inl (req, []))
      | inr (EWarning _ _ as err) =>
          let warning := EWarning ("CCPA consent is invalid and will be ignored. (" ⧺ error_string err ⧺ ")")
                           Code.InvalidPrivacyConsentWarningCode in
          written ← Ccpa_ConsentWriter_Write float_text "" req;
          Some (match written with
                | inl req => inl (req, [warning])
                | inr err => inr [warning; EPlain ("Unable to remove invalid CCPA consent from the request. (" ⧺ error_string err ⧺ ")")]
                end)
      | inr err => Some (inr [err])
      end
  end.

(** The checks of [request.ext], in order: the aliases, or the error. *)
Definition validate_ext (req : BidRequest) : option (gmap string string + error) :=
  match parseBidExt (req_Ext req) with
  | inr err => Some (inr err)
  | inl None => Some (inl ∅)
  | inl (Some bidExt) =>
      let aliases := pre_Aliases bidExt in
      match validateAliases deps (or_strings orders aliases) with
      | Some err => Some (inr err)
      | None =>
          match validateBidAdjustmentFactors deps (or_factors orders (pre_BidAdjustmentFactors bidExt)) aliases with
          | Some err => Some (inr err)
          | None =>
              schains ← validateSChains bidExt;
              match schains with
              | Some err => Some (inr err)
              | None =>
                  match validateEidPermissions deps bidExt aliases with
                  | Some err => Some (inr err)
                  | None =>
                      match validateCustomRates ParseISO orders (pre_CurrencyConversions bidExt) with
                      | Some err => Some (inr err)
                      | None => Some (inl aliases)
                      end
                  end
              end
          end
      end
  end.

(** Site and app, user, regs, device: the first error. *)
Definition validate_objects (aliases : gmap string string) (req : BidRequest) : option error :=
  match req_Site req, req_App req with
  | None, None | Some _, Some _ => Some (EPlain "request.site or request.app must be defined, but not both.")
  | _, _ =>
      match validateSite (req_Site req) with
      | Some err => Some err
      | None =>
          match validateApp deps (req_App req) with
          | Some err => Some err
          | None =>
              match validateUser deps orders (req_User req) aliases with
              | Some err => Some err
              | None =>
                  match validateRegs (req_Regs req) with
                  | Some err => Some err
                  | None => validateDevice (req_Device req)
                  end
              end
          end
      end
  end.

(** [validateRequest]: the edited request and the errors; [None] is a panic. *)
Definition validateRequest (srcs : Sources) (req : BidRequest) : option (Sources * BidRequest * list error) :=
  let fail err := Some (srcs, req, [err]) in
  if GoStr.is_empty (req_ID req) then fail (EPlain ("request missing required field: " ⧺ GoStr.quoted "id"))
  else if (req_TMax req <? 0)%Z then
    fail (EPlain ("request.tmax must be nonnegative. Got " ⧺ GoStr.itoa (req_TMax req)))
  else if (length (req_Imp req) <? 1)%nat then fail (EPlain "request.imp must contain at least one element.")
  else
    let '(req, errL) := match req_Cur req with
                        | cur :: _ :: _ => (req_set_Cur req [cur], [one_currency_msg cur])
                        | _ => (req, [])
                        end in
    let '(srcs, req, err) := if d_AutoGenSourceTID deps then validateAndFillSourceTID newV4 srcs req
                             else (srcs, req, None) in
    match err with
    | Some err => Some (srcs, req, [err])
    | None =>
        ext ← validate_ext req;
        match ext with
        | inr err => Some (srcs, req, [err])
        | inl aliases =>
            match validate_objects aliases req with
            | Some err => Some (srcs, req, errL ++ [err])
            | None =>
                ccpa ← validate_ccpa aliases req;
                match ccpa with
                | inr errs => Some (srcs, req, errL ++ errs)
                | inl (req, warnings) =>
                    let '(imps, errs) := validate_imps aliases 0 (req_Imp req) ∅ in
                    Some (srcs, req_set_Imp req imps, errL ++ warnings ++ errs)
                end
            end
        end
    end.
End ValidateRequest.

(** ** The specification *)
Section RequestSpec.
Context `{JsonParser}.
Context (ParseISO : string -> string + error) (deps : endpointDeps).

(** A bidder that the host knows, or an alias of the request. *)
Definition known (aliases : gmap string string) (bidder : string) : Prop :=
  is_Some (bidderMap (d_bidders deps) !! bidder) \/ is_Some (aliases !! bidder).
Lemma knows_known aliases bidder : knows deps aliases bidder = true <-> known aliases bidder.
Proof. by rw /knows /known orb_true_iff !bool_decide_eq_true. Qed.

(** An alias stands for another bidder, which is known and not disabled. *)
Definition aliases_ok (aliases : gmap string string) : Prop :=
  forall alias core, aliases !! alias = Some core ->
    is_Some (bidderMap (d_bidders deps) !! core) /\ disabledBidders (d_bidders deps) !! core = None /\ alias <> core.
Definition factors_ok (factors : gmap string float64) (aliases : gmap string string) : Prop :=
  forall b f, factors !! b = Some f -> F64.leb f F64.zero = false /\ known aliases b.
(** The wildcard stands alone; other names are known. *)
Definition bidders_ok (aliases : gmap string string) (l : list string) : Prop :=
  Forall (fun b => (b = "*" /\ length l = 1%nat) \/ (b <> "*" /\ known aliases b))%string l.
Definition eid_permissions_ok (aliases : gmap string string) (l : list EidPermission) : Prop :=
  NoDup (ep_Source <$> l) /\
  Forall (fun p => ep_Source p <> ""%string /\ default [] (ep_Bidders p) <> [] /\
                   bidders_ok aliases (default [] (ep_Bidders p))) l.
Definition is_currency (code : string) : Prop := exists unit, ParseISO code = inl unit.
Definition rates_ok (c : ExtRequestCurrency) : Prop :=
  forall from rates, map_or_empty (ec_ConversionRates c) !! from = Some rates ->
    is_currency from /\ forall to, is_Some (map_or_empty rates !! to) -> is_currency to.

(** Supply chains are not null, and none names a bidder that it or another
    one has named. *)
Definition schains_ok (l : list (option ExtRequestPrebidSChain)) : Prop :=
  exists chains, l = Some <$> chains /\ NoDup (concat (ps_Bidders <$> chains)).

Definition ext_wf (e : ExtRequestPrebid) : Prop :=
  let aliases := pre_Aliases e in
  aliases_ok aliases /\ factors_ok (pre_BidAdjustmentFactors e) aliases /\
  schains_ok (pre_SChains e) /\
  optional (fun d => eid_permissions_ok aliases (default [] d)) (pre_Data e) /\
  optional rates_ok (pre_CurrencyConversions e).

Definition site_ok (s : Site) : Prop :=
  (site_ID s <> "" \/ site_Page s <> "")%string /\
  (raw_len0 (site_Ext s) = true \/
   exists j, site_Ext s = RawJson j /\ jp_type (jp_Get (RawJson j) ["amp"%string]) ∈ [JpNotExist; JpNumber] /\
     jp_value (jp_Get (RawJson j) ["amp"%string]) ∈ ["0"; "1"]%string).
Definition app_ok (a : App) : Prop :=
  (app_ID a <> ""%string -> app_ID a ∉ d_BlacklistedAppMap deps) /\
  (raw_len0 (app_Ext a) = true \/ exists x, unmarshal dec_ext_app (app_Ext a) = inl x).
(** An extended id has an id or well-formed uids. *)
Definition eid_ok (e : ExtUserEid) : Prop :=
  eid_Source e <> ""%string /\
  (eid_ID e <> ""%string \/ exists uids, eid_Uids e = Some uids /\ uids <> [] /\ Forall (fun u => eu_ID u <> ""%string) uids).
Definition user_ext_ok (aliases : gmap string string) (x : ExtUser) : Prop :=
  optional (fun d => dt_Pref d = 0%Z) (eu_DigiTrust x) /\
  optional (fun ids => ids <> ∅ /\ forall b, is_Some (ids !! b) -> known aliases b) (eu_BuyerUIDs x) /\
  optional (fun l => l <> [] /\ NoDup (eid_Source <$> l) /\ Forall eid_ok l) (eu_Eids x).
Definition user_ok (aliases : gmap string string) (u : User) : Prop :=
  optional (fun g => 0 <= geo_Accuracy g)%Z (usr_Geo u) /\
  (raw_is_nil (usr_Ext u) = true \/ exists x, unmarshal dec_ext_user (usr_Ext u) = inl x /\ user_ext_ok aliases x).
Definition regs_ok (r : Regs) : Prop :=
  raw_len0 (regs_Ext r) = true \/
  exists x, unmarshal dec_ext_regs (regs_Ext r) = inl x /\ optional (fun g => 0 <= g <= 1)%Z (er_GDPR x).
Definition device_ok (d : Device) : Prop :=
  (0 <= dev_W d)%Z /\ (0 <= dev_H d)%Z /\ (0 <= dev_PPI d)%Z /\ optional (fun g => 0 <= geo_Accuracy g)%Z (dev_Geo d).
Definition objects_ok (aliases : gmap string string) (req : BidRequest) : Prop :=
  (is_Some (req_Site req) <-> req_App req = None) /\
  optional site_ok (req_Site req) /\ optional app_ok (req_App req) /\ optional (user_ok aliases) (req_User req) /\
  optional regs_ok (req_Regs req) /\ optional device_ok (req_Device req).

(** What a request says of privacy: the US privacy string of its regs, and the
    bidders that may still be sold to. *)
Definition says_privacy (req : BidRequest) (consent : string) (nosale : list string) : Prop :=
  match req_Regs req with
  | None => consent = ""%string
  | Some r => if raw_len0 (regs_Ext r) then consent = ""%string
              else exists x, unmarshal dec_ext_regs (regs_Ext r) = inl x /\ consent = er_USPrivacy x
  end /\
  if raw_len0 (req_Ext req) then nosale = []
  else exists x, unmarshal dec_ext_request (req_Ext req) = inl x /\ nosale = pre_NoSale x.
(** A US privacy string, or none: version 1 and three flags. *)
Definition privacy_wf (consent : string) : Prop :=
  consent = ""%string \/
  exists n o l, consent = String "1" (String n (String o (String l ""))) /\ Forall (fun c => c ∈ ["N"; "Y"; "-"]%char) [n; o; l].
(** All bidders, or some that are known by name. *)
Definition nosale_wf (aliases : gmap string string) (nosale : list string) : Prop :=
  nosale = ["*"%string] \/ Forall (fun b => b <> "*"%string /\ (b ∈ CoreBidderNames \/ is_Some (aliases !! b))) nosale.
End RequestSpec.

(** ** Each check decides its condition *)
Section RequestFacts.
Context `{JsonParser}.
Context (ParseISO : string -> string + error) (deps : endpointDeps) (orders : Orders).
Context (factors_visit : forall m, map_range m (or_factors orders m)).
Context (strings_visit : forall m, map_range m (or_strings orders m)).
Context (rates_visit : forall m, map_range m (or_rates orders m)).

(** A loop over the entries of a map checks all of them. *)
Lemma first_error_map {A} (check : string * A -> nat -> option error) (ok : string -> A -> Prop) m l :
  map_range m l -> (forall k a i, check (k, a) i = None <-> ok k a) ->
  first_error check l 0 = None <-> forall k a, m !! k = Some a -> ok k a.
Proof.
  intros Hl Hc. rw (first_error_spec check (fun ka => ok ka.1 ka.2)); [by intros [k a] i|]. rw list.Forall_forall. split.
  - intros Hf k a Hm. apply (Hf (k, a)). by apply (map_range_elem m l).
  - intros Hf [k a] Hin. apply Hf. by apply (map_range_elem m l).
Qed.

Lemma aliases_spec aliases : validateAliases deps (or_strings orders aliases) = None <-> aliases_ok deps aliases.
Proof.
  rw /validateAliases /aliases_ok. apply first_error_map; [done|]. intros k a _.
  destruct (disabledBidders (d_bidders deps) !! a) as [d|].
  { rw bool_decide_eq_true_2; [by eexists|]. split; [done|by intros (_ & ? & _)]. }
  rw bool_decide_eq_false_2; [by intros [? ?]|]. destruct (bidderMap (d_bidders deps) !! a) as [n|].
  - rw bool_decide_eq_true_2; [by eexists|]. cbn [negb].
    destruct (eqb_spec k a) as [->|Hne]; [by split; [|intros (_ & _ & ?)]|].
    split; [intros _|done]. by split; [eexists|].
  - rw bool_decide_eq_false_2; [by intros [? ?]|]. split; [done|by intros ([? ?] & _)].
Qed.

Lemma factors_spec factors aliases :
  validateBidAdjustmentFactors deps (or_factors orders factors) aliases = None <-> factors_ok deps factors aliases.
Proof.
  rw /validateBidAdjustmentFactors /factors_ok. apply first_error_map; [done|]. intros k f _.
  destruct (F64.leb f F64.zero); [split; [done|by intros [? _]]|].
  rw -knows_known. destruct (knows deps aliases k); cbn [negb]; split; try done. by intros [_ ?].
Qed.

Lemma bidders_spec aliases l : validateBidders deps l aliases = None <-> l = [] \/ bidders_ok deps aliases l.
Proof.
  rw /validateBidders /bidders_ok. destruct l as [|b l]; [split; [by left|done]|].
  rw (first_error_spec _ (fun x => (x = "*" /\ length (b :: l) = 1%nat) \/ (x <> "*" /\ known deps aliases x))%string).
  - intros x _. destruct (eqb_spec x "*") as [->|Hne].
    + destruct l; simpl; (split; [|by intros [[_ ?]|[? _]]]); try done. by left.
    + rw -knows_known. destruct (knows deps aliases x); cbn [negb]; (split; [|by intros [[? _]|[_ ?]]]); try done. by right.
  - split; [by right|by intros [?|?]].
Qed.

Lemma eid_permissions_spec aliases i l s :
  eid_permissions_loop deps aliases i l s = None <->
  eid_permissions_ok deps aliases l /\ Forall (fun p => ep_Source p ∉ s) l.
Proof.
  rw /eid_permissions_ok. revert i s. induction l as [|p l IH]; intros i s; cbn [eid_permissions_loop].
  { split; [intros _; split; [split; constructor|constructor]|done]. }
  rw fmap_cons list.NoDup_cons !list.Forall_cons.
  destruct (GoStr.is_empty (ep_Source p)) eqn:E1; [split; [done|]; intros [[_ [[? _] _]] _]; by destruct (ep_Source p)|].
  assert (ep_Source p <> ""%string) as Hne by by destruct (ep_Source p).
  case_bool_decide as Hs; [split; [done|by intros (_ & ? & _)]|].
  destruct (default [] (ep_Bidders p)) as [|b bs] eqn:Eb; [split; [done|by intros [[_ [(_ & ? & _) _]] _]]|].
  pose proof (bidders_spec aliases (b :: bs)) as Hbs.
  destruct (validateBidders deps (b :: bs) aliases).
  { split; [done|]. intros [[_ [(_ & _ & Hok) _]] _]. by pose proof (proj2 Hbs (or_intror Hok)). }
  destruct (proj1 Hbs eq_refl) as [?|Hok]; [done|]. rw IH. split.
  - intros [[Hnd Hf] Hn]. repeat split; try done.
    + intros (x & Hx & Hin)%list_elem_of_fmap. rw list.Forall_forall in Hn. apply (Hn x Hin). set_solver.
    + eapply list.Forall_impl; [exact Hn|]. set_solver.
  - intros [[[Hni Hnd] [_ Hf]] [_ Hn]]. split; [done|]. apply list.Forall_forall. intros x Hin.
    rw list.Forall_forall in Hn. intros [Hx%elem_of_singleton|Hx]%elem_of_union; [|by apply (Hn x)].
    apply Hni. rw -Hx. by apply list_elem_of_fmap_2.
Qed.

Lemma rates_spec c : validateCustomRates ParseISO orders c = None <-> optional (rates_ok ParseISO) c.
Proof.
  destruct c as [c|]; [|done]. rw /validateCustomRates /optional /rates_ok. apply first_error_map; [done|].
  assert (forall code, check_code ParseISO code = None <-> is_currency ParseISO code) as Hc.
  { intros code. rw /check_code /is_currency. destruct (ParseISO code) as [u|]; split; try done; [by exists u|by intros [? ?]]. }
  intros from rates _. rw -(Hc from).
  destruct (check_code ParseISO from); [split; [done|by intros [? _]]|].
  rw (first_error_map _ (fun to _ => is_currency ParseISO to) (map_or_empty rates)); [done|intros; apply Hc|].
  split.
  - intros Hf. split; [done|]. intros to [r Hr]. by eapply Hf.
  - intros [_ Hf] to r Hr. apply Hf. by exists r.
Qed.

Lemma amp_spec j : is_Some (ExtSite_UnmarshalJSON j) <->
  jp_type (jp_Get (RawJson j) ["amp"%string]) ∈ [JpNotExist; JpNumber] /\
  jp_value (jp_Get (RawJson j) ["amp"%string]) ∈ ["0"; "1"]%string.
Proof.
  unfold ExtSite_UnmarshalJSON. set (a := jp_Get _ _). rw !elem_of_cons !elem_of_nil.
  destruct (eqb_spec (jp_value a) "0") as [->|H0]; [|destruct (eqb_spec (jp_value a) "1") as [->|H1]].
  1, 2: cbn [GoStr.len String.length Nat.eqb negb orb]; rw orb_false_r; do 2 case_bool_decide; cbn [negb andb];
    split; try done; try (by intros [? ?]); intros; destruct_and?; destruct_or?; try done; split; tauto.
  split; [by destruct (_ || _); intros [? ?]|]. intros [_ ?]. tauto.
Qed.
Lemma site_spec s : validateSite s = None <-> optional site_ok s.
Proof.
  destruct s as [s|]; [|done]. rw /validateSite /optional /site_ok.
  destruct (GoStr.is_empty (site_ID s) && GoStr.is_empty (site_Page s)) eqn:E.
  { apply andb_true_iff in E as [E1 E2]. split; [done|]. intros [[?|?] _]; [by destruct (site_ID s)|by destruct (site_Page s)]. }
  assert (site_ID s <> ""%string \/ site_Page s <> ""%string) as Hne
    by (destruct (site_ID s); [right; by destruct (site_Page s)|by left]).
  destruct (raw_len0 _); [split; [by split; [|left]|done]|].
  destruct (site_Ext s) as [| | |j]; cbn [unmarshal]; try (split; [done|by intros [_ [?|(? & ? & _)]]]).
  assert (is_Some (ExtSite_UnmarshalJSON j) <-> jp_type (jp_Get (RawJson j) ["amp"%string]) ∈ [JpNotExist; JpNumber] /\
            jp_value (jp_Get (RawJson j) ["amp"%string]) ∈ ["0"; "1"]%string) as Hamp by apply amp_spec.
  destruct (ExtSite_UnmarshalJSON j) as [amp|]; split; try done.
  - intros _. split; [done|]. right. exists j. split; [done|]. by apply Hamp.
  - intros [_ [?|(? & [= <-] & Hj)]]; [done|]. apply Hamp in Hj. by destruct Hj.
Qed.

Lemma app_spec a : validateApp deps a = None <-> optional (app_ok deps) a.
Proof.
  destruct a as [a|]; [|done]. rw /validateApp /optional /app_ok.
  destruct (negb (GoStr.is_empty (app_ID a)) && bool_decide (app_ID a ∈ d_BlacklistedAppMap deps)) eqn:E.
  { apply andb_true_iff in E as [E1 E2%bool_decide_eq_true]. split; [done|]. intros [Hn _]. exfalso.
    apply Hn; [by intros Hnil; rw Hnil in E1|done]. }
  assert (app_ID a <> ""%string -> app_ID a ∉ d_BlacklistedAppMap deps) as Hne.
  { intros Hn Hin. rw (bool_decide_eq_true_2 _ Hin) in E. by destruct (app_ID a). }
  destruct (raw_len0 _); [split; [by split; [|left]|done]|].
  destruct (unmarshal _ _) as [x|]; split; try done; [intros _; split; [done|right; by exists x]|by intros [_ [?|[? ?]]]].
Qed.

Lemma eids_spec i l s :
  eids_loop i l s = None <->
  (NoDup (eid_Source <$> l) /\ Forall eid_ok l) /\ Forall (fun e => eid_Source e ∉ s) l.
Proof.
  revert i s. induction l as [|e l IH]; intros i s; cbn [eids_loop].
  { split; [intros _; split; [split; constructor|constructor]|done]. }
  rw fmap_cons list.NoDup_cons !list.Forall_cons {1}/eid_ok.
  destruct (GoStr.is_empty (eid_Source e)) eqn:E1; [split; [done|]; intros [[_ [[? _] _]] _]; by destruct (eid_Source e)|].
  assert (eid_Source e <> ""%string) as Hne by by destruct (eid_Source e).
  case_bool_decide as Hs; [split; [done|by intros (_ & ? & _)]|].
  set (good := eid_ID e <> ""%string \/ _).
  assert ((eids_loop (S i) l ({[eid_Source e]} ∪ s) = None /\ good) <->
    (((eid_Source e ∉ eid_Source <$> l) /\ NoDup (eid_Source <$> l)) /\ (eid_Source e <> ""%string /\ good) /\ Forall eid_ok l) /\
    (eid_Source e ∉ s) /\ Forall (fun e => eid_Source e ∉ s) l) as <-.
  { rw IH. split.
    - intros [[[Hnd Hf] Hn] Hg]. split_and!; try done.
      + intros (x & Hx & Hin)%list_elem_of_fmap. rw list.Forall_forall in Hn. apply (Hn x Hin). set_solver.
      + eapply list.Forall_impl; [exact Hn|]. set_solver.
    - intros [[[Hni Hnd] [[_ Hg] Hf]] [_ Hn]]. split_and!; try done. apply list.Forall_forall. intros x Hin.
      rw list.Forall_forall in Hn. intros [Hx%elem_of_singleton|Hx]%elem_of_union; [|by apply (Hn x)].
      apply Hni. rw -Hx. by apply list_elem_of_fmap_2. }
  rw /good. destruct (GoStr.is_empty (eid_ID e)) eqn:E2.
  2: { split; [|by intros [? _]]. intros ?. split; [done|left]. by destruct (eid_ID e). }
  assert (eid_ID e = ""%string) as -> by by destruct (eid_ID e).
  destruct (eid_Uids e) as [uids|]; [|split; [done|by intros [_ [?|(? & ? & _)]]]].
  destruct uids as [|u us]; [split; [done|by intros [_ [?|(? & [= <-] & ? & _)]]]|].
  set (uids := u :: us).
  assert (first_error (uid_check i) uids 0 = None <-> Forall (fun u => eu_ID u <> ""%string) uids) as Hu.
  { apply first_error_spec. intros x ?. rw /uid_check. by destruct (eu_ID x). }
  destruct (first_error (uid_check i) uids 0).
  - split; [done|]. intros [_ [?|(x & [= <-] & _ & Hf)]]; [done|]. by apply Hu in Hf.
  - split; [|by intros [? _]]. intros ?. split; [done|right]. exists uids. split; [done|]. split; [done|]. by apply Hu.
Qed.

Lemma accuracy_spec g :
  match g with Some g => (geo_Accuracy g <? 0)%Z | None => false end = false <-> optional (fun g => 0 <= geo_Accuracy g)%Z g.
Proof. destruct g as [g|]; [|done]. simpl. lia. Qed.

Lemma user_spec u aliases : validateUser deps orders u aliases = None <-> optional (user_ok deps aliases) u.
Proof.
  destruct u as [u|]; [|done]. rw /validateUser /optional /user_ok. pose proof (accuracy_spec (usr_Geo u)) as Hg.
  destruct (match usr_Geo u with Some g => _ | None => false end); [split; [done|by intros [?%Hg _]]|].
  apply proj1 in Hg. specialize (Hg eq_refl).
  destruct (raw_is_nil (usr_Ext u)); [split; [by split; [|left]|done]|].
  destruct (unmarshal dec_ext_user (usr_Ext u)) as [x|]; [|split; [done|by intros [_ [?|(? & ? & _)]]]].
  assert (forall P : Prop, (P <-> user_ext_ok deps aliases x) ->
    P <-> optional (fun g => 0 <= geo_Accuracy g)%Z (usr_Geo u) /\
          (false = true \/ exists y, (inl x : ExtUser + error) = inl y /\ user_ext_ok deps aliases y)) as Hgoal.
  { intros P ->. split; [intros ?; split; [done|right; by exists x]|by intros [_ [?|(? & [= <-] & ?)]]]. }
  apply Hgoal. clear Hgoal. rw /user_ext_ok.
  assert (match eu_DigiTrust x with Some d => negb (dt_Pref d =? 0)%Z | None => false end = false <->
    optional (fun d => dt_Pref d = 0%Z) (eu_DigiTrust x)) as Hd by (destruct (eu_DigiTrust x); simpl; [lia|done]).
  destruct (match eu_DigiTrust x with Some d => _ | None => false end); [split; [done|by intros [?%Hd _]]|].
  set (buyeruids := match eu_BuyerUIDs x with None => _ | Some _ => _ end).
  assert (buyeruids = None <->
    optional (fun ids => ids <> ∅ /\ forall b, is_Some (ids !! b) -> known deps aliases b) (eu_BuyerUIDs x)) as Hb.
  { rw /buyeruids. destruct (eu_BuyerUIDs x) as [ids|]; [|done]. cbn [optional].
    destruct (size ids <? 1)%nat eqn:Es.
    { apply Nat.ltb_lt in Es. split; [done|]. intros [Hne _]. destruct Hne. apply map_size_empty_iff. lia. }
    rw (first_error_map _ (fun b _ => known deps aliases b) ids);
      [done|intros k a _; rw -knows_known; by destruct (knows deps aliases k)|].
    split; [|intros [_ Hf] k a Hk; apply Hf; by exists a]. intros Hf. split; [|by intros b [a Ha]; eapply Hf].
    intros ->. by rw map_size_empty in Es. }
  destruct buyeruids; [split; [done|by intros (_ & ?%Hb & _)]|].
  assert (match eu_Eids x with
          | None => None
          | Some [] => Some (EPlain "request.user.ext.eids must contain at least one element or be undefined")
          | Some eids => eids_loop 0 eids ∅
          end = None <->
    optional (fun l => l <> [] /\ NoDup (eid_Source <$> l) /\ Forall eid_ok l) (eu_Eids x)) as <-.
  { destruct (eu_Eids x) as [[|e l]|]; [split; [done|by intros [? _]]| |done]. cbn [optional]. rw eids_spec. split.
    - by intros [[? ?] _].
    - intros (_ & ? & ?). split; [done|]. apply list.Forall_forall. set_solver. }
  split; [|by intros (_ & _ & ?)]. intros ?. split; [by apply Hd|]. split; [by apply Hb|done].
Qed.

Lemma regs_spec r : validateRegs r = None <-> optional regs_ok r.
Proof.
  destruct r as [r|]; [|done]. rw /validateRegs /optional /regs_ok.
  destruct (raw_len0 _); [split; [by left|done]|].
  destruct (unmarshal _ _) as [x|]; [|split; [done|by intros [?|(? & ? & _)]]].
  destruct (er_GDPR x) as [g|] eqn:Eg.
  - destruct ((g <? 0) || (g >? 1))%Z eqn:E; split; try done.
    + intros [?|(y & [= <-] & Hy)]; [done|]. rw Eg /= in Hy. lia.
    + intros _. right. exists x. split; [done|]. rw Eg /=. lia.
  - split; [|done]. intros _. right. exists x. by rw Eg.
Qed.

Lemma device_spec d : validateDevice d = None <-> optional device_ok d.
Proof.
  destruct d as [d|]; [|done]. rw /validateDevice /optional /device_ok -accuracy_spec.
  check_chain; split; intros; destruct_and?; try done; try lia; repeat split; lia.
Qed.

Lemma objects_spec aliases req :
  validate_objects deps orders aliases req = None -> objects_ok deps aliases req.
Proof.
  rw /validate_objects /objects_ok.
  pose proof (site_spec (req_Site req)) as Hs. pose proof (app_spec (req_App req)) as Ha.
  pose proof (user_spec (req_User req) aliases) as Hu. pose proof (regs_spec (req_Regs req)) as Hr.
  pose proof (device_spec (req_Device req)) as Hd.
  set (chain := match validateSite _ with Some _ => _ | None => _ end).
  assert (chain = None -> optional site_ok (req_Site req) /\ optional (app_ok deps) (req_App req) /\
    optional (user_ok deps aliases) (req_User req) /\ optional regs_ok (req_Regs req) /\
    optional device_ok (req_Device req)) as Hchain.
  { rw /chain. destruct (validateSite _); [done|]. destruct (validateApp _ _); [done|].
    destruct (validateUser _ _ _ _); [done|]. destruct (validateRegs _); [done|]. intros ?. split_and!; tauto. }
  destruct (req_Site req) as [s|], (req_App req) as [a|]; try done; intros H1%Hchain; (split; [|exact H1]);
    split; try done; by intros [? ?].
Qed.

(** Every bidder of a chain is new. *)
Lemma schain_bidders_spec l c m m' : schain_bidders l c m = inl m' ->
  NoDup l /\ Forall (fun b => m !! b = None) l /\ forall b, m' !! b = None <-> m !! b = None /\ b ∉ l.
Proof.
  revert m. induction l as [|b l IH]; intros m; cbn [schain_bidders].
  { intros [= <-]. split_and!; [constructor|constructor|]. intros b. by rw elem_of_nil; tauto. }
  destruct (m !! b) eqn:Eb; [done|]. intros (Hnd & Hall & Hout)%IH.
  assert (b ∉ l) as Hb. { intros Hin. rw list.Forall_forall in Hall. specialize (Hall b Hin). by rw lookup_insert_eq in Hall. }
  split_and!; [by constructor| |].
  - constructor; [done|]. eapply list.Forall_impl; [exact Hall|]. intros x. by intros [? _]%lookup_insert_None.
  - intros x. pose proof (lookup_insert_None m b x c) as Hi. rw Hout not_elem_of_cons. naive_solver.
Qed.
Lemma schains_spec l m m' : schain_loop l m = Some (inl m') ->
  exists chains, l = Some <$> chains /\ NoDup (concat (ps_Bidders <$> chains)) /\
    Forall (fun b => m !! b = None) (concat (ps_Bidders <$> chains)).
Proof.
  revert m. induction l as [|[w|] l IH]; intros m; cbn [schain_loop]; [|destruct (schain_bidders _ _ m) as [m1|] eqn:E; [|done]|done].
  { intros _. exists []. split_and!; [done|constructor|constructor]. }
  intros (chains & -> & Hnd & Hall)%IH. apply schain_bidders_spec in E as (Hnd1 & Hall1 & Hout). exists (w :: chains).
  rw list.Forall_forall in Hall. split_and!; [done| |].
  - cbn. apply list.NoDup_app. split_and!; [done| |done]. intros b Hb Hin. specialize (Hall b Hin). by apply Hout in Hall as [_ ?].
  - cbn. apply Forall_app. split; [done|]. apply list.Forall_forall. intros b Hb. by apply (Hout b), Hall.
Qed.

Lemma ext_spec req aliases :
  validate_ext ParseISO deps orders req = Some (inl aliases) ->
  (raw_len0 (req_Ext req) = true /\ aliases = ∅) \/
  exists e, unmarshal dec_ext_request (req_Ext req) = inl e /\ aliases = pre_Aliases e /\ ext_wf ParseISO deps e.
Proof.
  rw /validate_ext /parseBidExt. destruct (raw_len0 (req_Ext req)); [intros [= <-]; by left|].
  destruct (unmarshal dec_ext_request (req_Ext req)) as [e|]; [|done]. intros Hv. right. exists e. split; [done|].
  revert Hv. rw /ext_wf. pose proof (aliases_spec (pre_Aliases e)) as Ha.
  destruct (validateAliases _ _); [done|].
  pose proof (factors_spec (pre_BidAdjustmentFactors e) (pre_Aliases e)) as Hf.
  destruct (validateBidAdjustmentFactors _ _ _); [done|]. rw /validateSChains.
  pose proof (schains_spec (pre_SChains e) ∅) as Hch. cbn [BidderToPrebidSChains].
  destruct (schain_loop (pre_SChains e) ∅) as [[chains|]|]; [|done..]. cbn [mbind option_bind].
  assert (validateEidPermissions deps e (pre_Aliases e) = None ->
    optional (fun d => eid_permissions_ok deps (pre_Aliases e) (default [] d)) (pre_Data e)) as Hd.
  { rw /validateEidPermissions. destruct (pre_Data e) as [d|]; [|done]. by intros [? _]%eid_permissions_spec. }
  destruct (validateEidPermissions _ _ _); [done|].
  pose proof (rates_spec (pre_CurrencyConversions e)) as Hr.
  destruct (validateCustomRates _ _ _); [done|]. intros [= <-]. split; [done|].
  split_and!; [by apply Ha|by apply Hf|by destruct (Hch chains eq_refl) as (l & ? & ? & _); exists l|by apply Hd|by apply Hr].
Qed.

(** ** The imps *)
Context (float_text : float64 -> string).
Context (UnmarshalNative : string -> NativeReq.Request + string).
Context (MarshalNative : NativeReq.Request -> string + string).
Context (Validate : string -> json -> option error) (newV4 : string + error).
Context (exts_visit : forall i m, map_range m (or_exts orders i m)).

(** The [k]-th imp was accepted and became the [k]-th imp of the result. *)
Definition imps_validated (aliases : gmap string string) (imps imps' : list Imp) : Prop :=
  length imps' = length imps /\
  forall k imp imp', imps !! k = Some imp -> imps' !! k = Some imp' ->
    imp_accepted UnmarshalNative MarshalNative Validate (d_bidders deps) aliases imp /\
    exists errs, imp_result UnmarshalNative MarshalNative (d_bidders deps) aliases imp imp' errs.

Lemma imps_spec aliases i imps ids :
  let r := validate_imps UnmarshalNative MarshalNative Validate deps orders aliases i imps ids in
  ContainsFatalError r.2 = false ->
  NoDup (imp_ID <$> imps) /\ Forall (fun imp => ids !! imp_ID imp = None) imps /\ imps_validated aliases imps r.1.
Proof.
  revert i ids. induction imps as [|imp imps IH]; intros i ids; cbn [validate_imps].
  { intros _. split; [constructor|]. split; [constructor|]. by split. }
  pose proof (validateImp_decided UnmarshalNative MarshalNative Validate (d_bidders deps) aliases (or_exts orders i) imp i
    (exts_visit i)) as [Hacc Hres].
  destruct (validateImp _ _ _ _ _ _ _ _) as [imp' errs]. cbn [fst snd] in Hacc, Hres.
  destruct (ContainsFatalError errs) eqn:Ef; [cbn [snd]; rw ContainsFatalError_app Ef orb_true_r; done|].
  specialize (IH (S i) (<[imp_ID imp := i]> ids)).
  destruct (validate_imps _ _ _ _ _ _ _ imps _) as [imps' more]. cbv zeta. cbn [fst snd] in IH |- *.
  rw !ContainsFatalError_app Ef orb_false_l. intros [Hdup Hmore]%orb_false_iff.
  assert (ids !! imp_ID imp = None) as Hnew by by destruct (ids !! imp_ID imp).
  destruct (IH Hmore) as (Hnd & Hids & Hlen & Hk). split_and!.
  - rw fmap_cons. constructor; [|done]. intros (x & Hx & Hin)%list_elem_of_fmap. rw list.Forall_forall in Hids.
    specialize (Hids x Hin). by rw -Hx lookup_insert_eq in Hids.
  - constructor; [done|]. eapply list.Forall_impl; [exact Hids|]. intros x Hx.
    by destruct (proj1 (lookup_insert_None _ _ _ _) Hx).
  - split; [by rw /= Hlen|]. intros [|k] x x'; cbn [lookup list_lookup].
    + intros [= <-] [= <-]. split; [by apply Hacc|]. exists errs. by apply Hres.
    + intros Hx Hx'. by apply (Hk k x x').
Qed.

Lemma imps_validated_ids aliases imps imps' :
  imps_validated aliases imps imps' -> imp_ID <$> imps' = imp_ID <$> imps.
Proof.
  intros [Hlen Hk]. apply list_eq. intros k. rw !list_lookup_fmap.
  destruct (imps !! k) as [imp|] eqn:E, (imps' !! k) as [imp'|] eqn:E'; try done.
  - destruct (Hk k imp imp' E E') as (_ & errs & n & _ & Hx & _). simpl. f_equal. rw Hx. by destruct imp.
  - apply lookup_ge_None in E'. apply lookup_lt_Some in E. lia.
  - apply lookup_ge_None in E. apply lookup_lt_Some in E'. lia.
Qed.

(** ** The source and the policy *)
Definition source_filled (srcs : Sources) (req : BidRequest) (srcs' : Sources) (req' : BidRequest) : Prop :=
  if d_AutoGenSourceTID deps then
    exists p, req_Source req' = Some p /\ (req_Source req = Some p \/ (req_Source req = None /\ srcs !! p = None)) /\
      (forall q, q <> p -> srcs' !! q = srcs !! q) /\
      let s := default emptySource (srcs !! p) in
      (src_TID s <> ""%string /\ srcs' = srcs) \/
      (src_TID s = ""%string /\ exists uuid, newV4 = inl uuid /\ srcs' !! p = Some (src_set_TID s uuid))
  else srcs' = srcs /\ req_Source req' = req_Source req.
Lemma source_spec srcs req srcs' req' :
  validateAndFillSourceTID newV4 srcs req = (srcs', req', None) -> d_AutoGenSourceTID deps = true ->
  req' = req_set_Source req (req_Source req') /\ source_filled srcs req srcs' req'.
Proof.
  unfold validateAndFillSourceTID, source_filled. intros Hrun ->. destruct (req_Source req) as [p|] eqn:Es.
  - destruct (GoStr.is_empty _) eqn:E.
    + destruct newV4 as [uuid|]; [|done]. injection Hrun as <- <-. split; [by destruct req|]. exists p.
      split_and!; [done|by left|intros q Hq; by rw lookup_insert_ne|]. right. apply is_empty_true in E. split; [done|].
      exists uuid. by rw lookup_insert_eq.
    + injection Hrun as <- <-. split; [by destruct req|]. exists p. split_and!; [done|by left|done|]. left. by apply is_empty_false in E.
  - set (p := fresh (dom srcs)) in *. assert (srcs !! p = None) as Hp by apply not_elem_of_dom, is_fresh.
    rw lookup_insert_eq in Hrun. cbn [default GoStr.is_empty src_TID emptySource] in Hrun.
    destruct newV4 as [uuid|]; [|done]. injection Hrun as <- <-. split; [by destruct req|]. exists p.
    split_and!; [by destruct req|by right|intros q Hq; by rw !lookup_insert_ne|]. rw Hp. right. split; [done|].
    exists uuid. by rw lookup_insert_eq.
Qed.

Lemma privacy_wf_iff consent : Ccpa_ValidateConsent consent = true <-> privacy_wf consent.
Proof.
  unfold Ccpa_ValidateConsent, privacy_wf. split.
  - destruct (parseConsent consent) as [b|] eqn:E; [|done]. intros _.
    apply parseConsent_ok in E as [[-> _]|(n & o & l & -> & Hn & Ho & Hl & _)]; [by left|]. right. exists n, o, l.
    split; [done|]. constructor; [exact Hn|]. constructor; [exact Ho|]. constructor; [exact Hl|apply List.Forall_nil].
  - intros Hwf. assert (exists b, parseConsent consent = inl b) as [b ->]; [|done]. destruct Hwf as [->|(n & o & l & -> & Hall)]; [by exists false|].
    inversion Hall as [|? ? Hn Hall1]; subst. inversion Hall1 as [|? ? Ho Hall2]; subst. inversion Hall2 as [|? ? Hl _]; subst.
    eexists. apply parseConsent_ok. right. by exists n, o, l.
Qed.
Lemma parsed_policy_wf policy aliases parsed : Ccpa_Parse policy (GetValidBidders aliases) = inl parsed ->
  privacy_wf (Consent policy) /\ nosale_wf aliases (NoSaleBidders policy).
Proof.
  unfold Ccpa_Parse. destruct (parseConsent (Consent policy)) as [b|] eqn:Ec; [|done].
  destruct (parseNoSaleBidders _ _) as [[all spec]|] eqn:En; [|done]. intros _.
  split; [apply privacy_wf_iff; by rw /Ccpa_ValidateConsent Ec|]. unfold nosale_wf.
  assert (forall acc, parse_no_sale_loop (NoSaleBidders policy) (GetValidBidders aliases) ∅ = inl acc ->
    Forall (fun b => b <> "*"%string /\ (b ∈ CoreBidderNames \/ is_Some (aliases !! b))) (NoSaleBidders policy)) as Hloop.
  { intros acc [_ Hall]%no_sale_loop_ok. eapply list.Forall_impl; [exact Hall|]. intros x [Hne Hx]. split; [done|].
    unfold GetValidBidders in Hx. by rw elem_of_union elem_of_dom BuildBidderNameHashSet_elem in Hx. }
  unfold parseNoSaleBidders in En.
  assert (NoSaleBidders policy = ["*"%string] \/ exists acc, parse_no_sale_loop (NoSaleBidders policy) (GetValidBidders aliases) ∅ = inl acc) as [?|[acc Hacc]];
    [|by left|by right; eapply Hloop].
  destruct (NoSaleBidders policy) as [|b0 [|b1 bs]]; [by right; eexists| |].
  - destruct (eqb_spec b0 allBiddersMarker) as [Heq|]; [left; by rw Heq|]. right. by destruct (parse_no_sale_loop _ _ ∅) as [acc|]; [exists acc|].
  - right. by destruct (parse_no_sale_loop _ _ ∅) as [acc|]; [exists acc|].
Qed.

(** A well-formed US privacy string is left alone; another one is removed, the
    other members of the regs kept. *)
Definition privacy_string_kept (req req' : BidRequest) (consent : string) : Prop :=
  (privacy_wf consent /\ req_Regs req' = req_Regs req) \/
  (~ privacy_wf consent /\ member_map (regs_ext req') !! "us_privacy"%string = None /\
   forall k, k <> "us_privacy"%string -> member_map (regs_ext req') !! k = ConsentWriters.ext_map float_text (regs_ext req) !! k).
Lemma ccpa_spec aliases req req' warnings :
  validate_ccpa float_text aliases req = Some (inl (req', warnings)) ->
  ContainsFatalError warnings = false /\ req' = req_set_Regs req (req_Regs req') /\
  exists consent nosale, says_privacy req consent nosale /\ (privacy_wf consent -> nosale_wf aliases nosale) /\
    privacy_string_kept req req' consent.
Proof.
  rw /validate_ccpa. destruct (Ccpa_ReadFromRequest req) as [policy|] eqn:Er; [|done]. apply read_policy_inv in Er.
  destruct (Ccpa_Parse policy _) as [parsed|err] eqn:Ep.
  { intros [= <- <-]. split; [done|]. split; [by destruct req|]. apply parsed_policy_wf in Ep as [Hc Hn].
    exists (Consent policy), (NoSaleBidders policy). split; [done|]. split; [done|]. by left. }
  assert (forall m c, err = EWarning m c -> ~ privacy_wf (Consent policy)) as Hv.
  { intros m c -> Hwf%privacy_wf_iff. revert Ep Hwf. rw /Ccpa_Parse /Ccpa_ValidateConsent. destruct (parseConsent _); [|done].
    by destruct (parseNoSaleBidders _ _) as [[]|]. }
  destruct err; try done. rw /Ccpa_ConsentWriter_Write.
  destruct (buildRegs float_text "" (req_Regs req)) as [[regs'|]|] eqn:Eb; [|done..]. cbn [mbind option_bind].
  intros [= <- <-]. split; [done|]. split; [by destruct req|]. exists (Consent policy), (NoSaleBidders policy).
  split; [done|]. specialize (Hv _ _ eq_refl). split; [done|]. right. split; [done|].
  assert (regs_ext (req_set_Regs req regs') = default RawNil (regs_Ext <$> regs')) as -> by by destruct req.
  split; [by apply (buildRegs_clears _ _ _ Eb)|]. intros k Hk. by apply (buildRegs_keeps _ _ _ _ _ Eb).
Qed.

(** ** Errors that end the validation are fatal *)
Lemma schain_bidders_fatal l c m err : schain_bidders l c m = inr err -> isFatal err = true.
Proof.
  revert m. induction l as [|b l IH]; intros m; simpl; [done|]. destruct (m !! b); [by intros [= <-]|apply IH].
Qed.
Lemma schains_fatal e err : BidderToPrebidSChains (Some e) = Some (inr err) -> isFatal err = true.
Proof.
  rw /BidderToPrebidSChains. generalize (∅ : gmap string SChain).
  induction (pre_SChains e) as [|[w|] l IH]; intros m; cbn [schain_loop]; [done| |done].
  destruct (schain_bidders _ _ m) as [m'|] eqn:E; [apply IH|]. intros [= <-]. by eapply schain_bidders_fatal.
Qed.

Lemma eid_permissions_fatal aliases l : forall i s, fatal_check (eid_permissions_loop deps aliases i l s).
Proof.
  induction l as [|p l IH]; intros i s err; cbn [eid_permissions_loop]; [done|]. check_chain; try (by intros [= <-]).
  destruct (default [] (ep_Bidders p)) as [|b bs]; [by intros [= <-]|].
  destruct (validateBidders deps (b :: bs) aliases); [by intros [= <-]|apply IH].
Qed.

Lemma rates_fatal c : fatal_check (validateCustomRates ParseISO orders c).
Proof.
  destruct c as [c|]; [|done]. rw /validateCustomRates.
  assert (forall code, fatal_check (check_code ParseISO code)) as Hc.
  { intros code err. rw /check_code. destruct (ParseISO code); [done|]. by intros [= <-]. }
  apply first_error_fatal. intros [from rates] i err. destruct (check_code ParseISO from) eqn:E; [intros [= <-]; by eapply Hc|].
  revert err. apply first_error_fatal. by intros [to r] k.
Qed.

Lemma ext_fatal req err : validate_ext ParseISO deps orders req = Some (inr err) -> isFatal err = true.
Proof.
  rw /validate_ext /parseBidExt. destruct (raw_len0 (req_Ext req)); [done|].
  destruct (unmarshal dec_ext_request (req_Ext req)) as [e|]; [|by intros [= <-]].
  assert (fatal_check (validateAliases deps (or_strings orders (pre_Aliases e)))) as Ha.
  { apply first_error_fatal. intros [a c] i. fatal_chain. }
  destruct (validateAliases _ _); [intros [= <-]; by apply Ha|].
  assert (fatal_check (validateBidAdjustmentFactors deps (or_factors orders (pre_BidAdjustmentFactors e)) (pre_Aliases e))) as Hb.
  { apply first_error_fatal. intros [a c] i. fatal_chain. }
  destruct (validateBidAdjustmentFactors _ _ _); [intros [= <-]; by apply Hb|]. rw /validateSChains.
  destruct (BidderToPrebidSChains (Some e)) as [[chains|]|] eqn:Es; cbn [mbind option_bind];
    [|intros [= <-]; by eapply schains_fatal|done].
  assert (fatal_check (validateEidPermissions deps e (pre_Aliases e))) as He.
  { rw /validateEidPermissions. destruct (pre_Data e); [apply eid_permissions_fatal|done]. }
  destruct (validateEidPermissions _ _ _); [intros [= <-]; by apply He|].
  pose proof (rates_fatal (pre_CurrencyConversions e)) as Hr.
  destruct (validateCustomRates _ _ _); [intros [= <-]; by apply Hr|done].
Qed.

Lemma unmarshal_fatal {A} (d : decoder A) r :
  fatal_check (match unmarshal d r with inl _ => None | inr err => Some err end).
Proof. intros err. destruct (unmarshal d r) eqn:E; [done|]. intros [= <-]. by eapply unmarshal_error_fatal. Qed.

Lemma eids_fatal l : forall i s, fatal_check (eids_loop i l s).
Proof.
  induction l as [|e l IH]; intros i s err; cbn [eids_loop]; [done|]. check_chain; try (by intros [= <-]); [|apply IH].
  destruct (eid_Uids e) as [[|u us]|]; try (by intros [= <-]).
  destruct (first_error (uid_check i) (u :: us) 0) eqn:E; [|apply IH]. intros [= <-]. revert E. apply first_error_fatal.
  intros x k. rw /uid_check. fatal_chain.
Qed.

Lemma user_fatal u aliases : fatal_check (validateUser deps orders u aliases).
Proof.
  destruct u as [u|]; [|done]. intros err. rw /validateUser. check_chain; try (by intros [= <-]); try done.
  destruct (unmarshal dec_ext_user (usr_Ext u)) as [x|]; [|by intros [= <-]]. destruct (match eu_DigiTrust x with Some d => _ | None => false end); [by intros [= <-]|].
  destruct (eu_BuyerUIDs x) as [ids|].
  - destruct (size ids <? 1)%nat; [by intros [= <-]|].
    destruct (first_error _ (or_strings orders ids) 0) eqn:E.
    + intros [= <-]. revert E. apply first_error_fatal. intros [b v] k. fatal_chain.
    + destruct (eu_Eids x) as [[|y l]|]; [by intros [= <-]|apply eids_fatal|done].
  - destruct (eu_Eids x) as [[|y l]|]; [by intros [= <-]|apply eids_fatal|done].
Qed.

Lemma objects_fatal aliases req : fatal_check (validate_objects deps orders aliases req).
Proof.
  intros err. rw /validate_objects.
  set (chain := match validateSite _ with Some _ => _ | None => _ end). assert (fatal_check chain) as Hc.
  { intros e. rw /chain. destruct (validateSite _) eqn:E1.
    { intros [= <-]. revert E1. rw /validateSite. destruct (req_Site req); [|done].
      check_chain; try (by intros [= <-]); try done. apply unmarshal_fatal. }
    destruct (validateApp _ _) eqn:E2.
    { intros [= <-]. revert E2. rw /validateApp. destruct (req_App req); [|done].
      check_chain; try (by intros [= <-]); try done. apply unmarshal_fatal. }
    destruct (validateUser _ _ _ _) eqn:E3; [intros [= <-]; by eapply user_fatal|].
    destruct (validateRegs _) eqn:E4.
    { intros [= <-]. revert E4. rw /validateRegs. destruct (req_Regs req) as [r|]; [|done].
      destruct (raw_len0 _); [done|]. destruct (unmarshal _ _) as [x|]; [|by intros [= <-]].
      destruct (er_GDPR x) as [g|]; [|done]. check_chain; [by intros [= <-]|done]. }
    rw /validateDevice. destruct (req_Device req); [|done]. check_chain; try done; by intros [= <-]. }
  destruct (req_Site req), (req_App req); try apply Hc; by intros [= <-].
Qed.

Lemma ccpa_fatal aliases req errs :
  validate_ccpa float_text aliases req = Some (inr errs) -> ContainsFatalError errs = true.
Proof.
  rw /validate_ccpa. destruct (Ccpa_ReadFromRequest req) as [policy|err] eqn:Er.
  - destruct (Ccpa_Parse policy _) as [parsed|err] eqn:Ep; [done|].
    assert (isFatal err = true \/ exists m c, err = EWarning m c) as Hcase.
    { revert Ep. rw /Ccpa_Parse. destruct (parseConsent _); [|intros [= <-]; right; eauto].
      destruct (parseNoSaleBidders _ _) as [[]|]; [done|]. intros [= <-]. by left. }
    destruct err; try (intros [= <-]; simpl in *; by destruct Hcase as [?|(? & ? & ?)]).
    destruct (Ccpa_ConsentWriter_Write _ _ _) as [[r|e]|]; by intros [= <-].
  - intros [= <-]. revert Er. rw /Ccpa_ReadFromRequest.
    destruct (match req_Regs req with Some _ => _ | None => _ end) as [c|e] eqn:E.
    + destruct (raw_len0 _); [done|]. destruct (unmarshal _ _); [done|]. by intros [= <-].
    + intros [= <-]. destruct (req_Regs req); [|done]. destruct (raw_len0 _); [done|].
      destruct (unmarshal _ _); [done|]. by injection E as <-.
Qed.

Lemma single_fatal err : isFatal err = true -> ContainsFatalError [err] = true.
Proof. simpl. by intros ->. Qed.

(** ** The request *)

(** The request before its imps are validated: one currency, and a source
    with a transaction id when the host asks for it. *)
Lemma prepared_spec srcs req :
  let '(req1, errL) := match req_Cur req with
                       | cur :: _ :: _ => (req_set_Cur req [cur], [one_currency_msg cur])
                       | _ => (req, [])
                       end in
  let '(srcs2, req2, err) := if d_AutoGenSourceTID deps then validateAndFillSourceTID newV4 srcs req1
                             else (srcs, req1, None) in
  fatal_check err /\
  (err = None -> req2 = req_set_Source (req_set_Cur req (take 1 (req_Cur req))) (req_Source req2) /\
    source_filled srcs req srcs2 req2).
Proof.
  set (cut := match req_Cur req with cur :: _ :: _ => _ | _ => _ end).
  assert (cut.1 = req_set_Cur req (take 1 (req_Cur req))) as Hc.
  { rw /cut. destruct req as [id im si ap dv us te at_ tm cu bc ba so re ext]. by destruct cu as [|c1 [|c2 cs]]. }
  destruct cut as [req1 errL]. cbn [fst snd] in Hc. subst req1.
  destruct (d_AutoGenSourceTID deps) eqn:Eauto.
  - destruct (validateAndFillSourceTID _ _ _) as [[srcs2 req2] err] eqn:E. split.
    { intros e ->. revert E. rw /validateAndFillSourceTID. destruct (req_Source _);
        (destruct (GoStr.is_empty _); [destruct newV4; [done|]|done]); by intros [= _ _ <-]. }
    intros ->. destruct (source_spec _ _ _ _ E Eauto) as [Hr Hs]. split; [done|]. unfold source_filled in *. by destruct req.
  - split; [done|]. intros _. unfold source_filled. rw Eauto. by destruct req.
Qed.

(** See [validated_request_wf]. *)
Lemma validated_request_facts srcs req srcs' req' errs
    (Hrun : validateRequest float_text ParseISO UnmarshalNative MarshalNative Validate deps orders newV4 srcs req =
            Some (srcs', req', errs))
    (Hok : ContainsFatalError errs = false) :
  exists aliases consent nosale,
    (req_ID req <> ""%string /\ (0 <= req_TMax req)%Z /\ req_Imp req <> []) /\
    ((raw_len0 (req_Ext req) = true /\ aliases = ∅) \/
     exists e, unmarshal dec_ext_request (req_Ext req) = inl e /\ aliases = pre_Aliases e /\ ext_wf ParseISO deps e) /\
    objects_ok deps aliases req /\
    NoDup (imp_ID <$> req_Imp req') /\ imps_validated aliases (req_Imp req) (req_Imp req') /\
    source_filled srcs req srcs' req' /\
    says_privacy req consent nosale /\ (privacy_wf consent -> nosale_wf aliases nosale) /\
    privacy_string_kept req req' consent /\
    req' = req_set_Imp (req_set_Regs (req_set_Source (req_set_Cur req (take 1 (req_Cur req))) (req_Source req'))
             (req_Regs req')) (req_Imp req').
Proof.
  revert Hrun. rw /validateRequest.
  destruct (GoStr.is_empty (req_ID req)) eqn:Eid; [by intros [= <- <- <-]|].
  destruct (req_TMax req <? 0)%Z eqn:Etm; [by intros [= <- <- <-]|].
  destruct (length (req_Imp req) <? 1)%nat eqn:Eimp; [by intros [= <- <- <-]|].
  pose proof (prepared_spec srcs req) as Hprep.
  destruct (match req_Cur req with cur :: _ :: _ => _ | _ => _ end) as [req1 errL].
  destruct (if d_AutoGenSourceTID deps then _ else _) as [[srcs2 req2] err]. destruct Hprep as [Hf Hprep].
  destruct err as [err|].
  { intros [= <- <- <-]. by rw single_fatal // (Hf err eq_refl) in Hok. }
  destruct (Hprep eq_refl) as [Hreq2 Htid]. clear Hprep.
  destruct (validate_ext _ _ _ _) as [[aliases|err]|] eqn:Eext; cbn [mbind option_bind]; [| |done].
  2: { intros [= <- <- <-]. apply ext_fatal in Eext. by rw single_fatal in Hok. }
  destruct (validate_objects _ _ _ _) as [err|] eqn:Eobj.
  { intros [= <- <- <-]. apply objects_fatal in Eobj. by rw ContainsFatalError_app single_fatal // orb_true_r in Hok. }
  destruct (validate_ccpa _ _ _) as [[[req3 warnings]|es]|] eqn:Eccpa; cbn [mbind option_bind]; [| |done].
  2: { intros [= <- <- <-]. apply ccpa_fatal in Eccpa. by rw ContainsFatalError_app Eccpa orb_true_r in Hok. }
  destruct (ccpa_spec _ _ _ _ Eccpa) as (_ & Hreq3 & consent & nosale & Hsays & Hnosale & Hkept).
  pose proof (imps_spec aliases 0 (req_Imp req3) ∅) as Himps.
  destruct (validate_imps _ _ _ _ _ _ _ (req_Imp req3) _) as [imps' errs']. intros [= <- <- <-].
  rw !ContainsFatalError_app in Hok. apply orb_false_iff in Hok as [_ [_ Hok]%orb_false_iff].
  destruct (Himps Hok) as (Hnd & _ & Hval). apply ext_spec in Eext. apply objects_spec in Eobj.
  exists aliases, consent, nosale.
  clear Hf Himps. remember (req_Regs req3) as re3 eqn:Hre3. remember (req_Source req2) as src2 eqn:Hsrc2.
  subst req3. destruct req as [id im si ap dv us te at_ tm cu bc ba so re ext]. subst req2. clear Hre3 Hsrc2.
  pose proof (imps_validated_ids _ _ _ Hval) as Hids.
  cbn [req_set_Imp req_set_Regs req_set_Source req_set_Cur req_Imp req_Regs req_Source req_Cur req_ID req_TMax req_Ext] in *.
  split_and!; try done.
  - by intros ->.
  - lia.
  - by intros ->.
  - by rw Hids.
Qed.

(** C11: what an accepted request guarantees.  When validation reports no
    fatal error, the request has an id, a nonnegative timeout and at least
    one imp, the imps have distinct ids and each was accepted as an imp;
    aliases stand for enabled core bidders, bid adjustments are positive and
    for known bidders, no bidder is named twice in the supply chains, eid
    permissions have distinct sources and known bidders, currency codes exist;
    exactly one of site and app is present, and these, the user, the
    regulations and the device are well-formed.  The only edits are: the first
    currency is kept, a source without a transaction id gets one when the host
    wants it, a malformed US privacy string is removed from the regs (with a
    well-formed one, the bidders still to be sold to are known), and the imps
    are as the imp validation left them. *)
Theorem validated_request_wf srcs req srcs' req' errs
    (Hrun : validateRequest float_text ParseISO UnmarshalNative MarshalNative Validate deps orders newV4 srcs req =
            Some (srcs', req', errs))
    (Hok : ContainsFatalError errs = false) :
  exists aliases consent nosale,
    (req_ID req <> ""%string /\ (0 <= req_TMax req)%Z /\ req_Imp req <> []) /\
    ((raw_len0 (req_Ext req) = true /\ aliases = ∅) \/
     exists e, unmarshal dec_ext_request (req_Ext req) = inl e /\ aliases = pre_Aliases e /\ ext_wf ParseISO deps e) /\
    objects_ok deps aliases req /\
    NoDup (imp_ID <$> req_Imp req') /\ imps_validated aliases (req_Imp req) (req_Imp req') /\
    source_filled srcs req srcs' req' /\
    says_privacy req consent nosale /\ (privacy_wf consent -> nosale_wf aliases nosale) /\
    privacy_string_kept req req' consent /\
    req' = mkBidRequest (req_ID req) (req_Imp req') (req_Site req) (req_App req) (req_Device req) (req_User req) (req_Test req)
             (req_AT req) (req_TMax req) (take 1 (req_Cur req)) (req_BCat req) (req_BAdv req) (req_Source req') (req_Regs req')
             (req_Ext req).
Proof.
  destruct (validated_request_facts srcs req srcs' req' errs Hrun Hok) as (aliases & consent & nosale & H1 & H2 & H3 & H4 & H5 & H6 & H7 & H8 & H9 & Hreq).
  exists aliases, consent, nosale. do 9 (split; [done|]). rw {1}Hreq. by destruct req.
Qed.
End RequestFacts.

Definition demo_orders : Orders := mkOrders map_to_list map_to_list map_to_list (fun _ => map_to_list).
Definition demo_deps : endpointDeps := mkDeps demo_bidders true ∅.
Definition demo_site : Site := mkSite "s1" "example.com" "" None None (RawJson (JObj [("amp"%string, JNum "0")])).
Definition demo_auction_request : BidRequest :=
  mkBidRequest "r1" [demo_valid_imp (JObj [("appnexus"%string, JObj []); ("rubicon"%string, JObj [])])]
    (Some demo_site) None None None 0 0 500 ["USD"; "EUR"]%string [] [] None
    (Some (mkRegs 0 (RawJson (JObj [("us_privacy"%string, JStr "bad")])))) RawNil.
Definition demo_validated : option (Sources * BidRequest * list error) :=
  validateRequest demo_float_text (fun c => inl c) demo_unmarshal_native demo_marshal_native demo_validate demo_deps
    demo_orders (inl "tid-1"%string) ∅ demo_auction_request.

(** The theorem on a request of two currencies, a malformed US privacy string
    and a disabled bidder: three warnings, and it is accepted. *)
Lemma validated_request_wf_witness :
  exists srcs' req' errs, demo_validated = Some (srcs', req', errs) /\ length errs = 3 /\
    req_Cur req' = ["USD"%string] /\ member_map (regs_ext req') !! usPrivacyKey = None /\
    exists p s, req_Source req' = Some p /\ srcs' !! p = Some s /\ src_TID s <> ""%string.
Proof.
  assert (match demo_validated with
          | Some (_, _, errs) => ContainsFatalError errs = false /\ length errs = 3
          | None => False
          end) as Hrun by (vm_compute; split; reflexivity).
  destruct demo_validated as [[[srcs' req'] errs]|] eqn:E; [|destruct Hrun]. destruct Hrun as [Hok Hlen].
  exists srcs', req', errs. split; [reflexivity|]. split; [exact Hlen|].
  destruct (validated_request_wf (fun c => inl c) demo_deps demo_orders
    (fun m => map_range_self m) (fun m => map_range_self m) (fun m => map_range_self m) demo_float_text
    demo_unmarshal_native demo_marshal_native demo_validate (inl "tid-1"%string) (fun _ m => map_range_self m)
    ∅ demo_auction_request srcs' req' errs E Hok)
    as (aliases & consent & nosale & _ & _ & _ & _ & _ & Htid & [(x & Hx & Hc) _] & _ & Hkept & Hreq).
  assert (consent = "bad"%string) as -> by (rw Hc; vm_compute in Hx; injection Hx as <-; reflexivity).
  split; [rw Hreq; reflexivity|]. split.
  - destruct Hkept as [[[Hwf|(n & o & l & Hwf & _)] _]|(_ & Hm & _)]; [discriminate Hwf|discriminate Hwf|exact Hm].
  - destruct Htid as (p & Hp & _ & _ & [[Hs _]|(_ & uuid & Hu & Hs)]).
    + exfalso. apply Hs. reflexivity.
    + injection Hu as <-. exists p. eexists. split; [exact Hp|]. split; [exact Hs|]. discriminate.
Defined.
