(* ===== verification/AuctionEndpoint.v ===== *)
(** * The auction endpoint

    [endpoints/openrtb2/auction.go]: [parseRequest], which turns an HTTP
    request into a validated OpenRTB request, and [Auction], which finds the
    account, holds the auction and writes the answer.  The exchange is the
    interface of [exchange.Exchange], [HoldAuction]'s module being the code
    behind it.  A panic anywhere is recovered by the handler: the answer is
    204. *)

From S2P Require Import Prelude Float64 ErrorTypes IpNet Json OpenRTB JsonParser Interstitial NativeValidation ExtRequest ImplicitFields.
From S2P Require Import ConsentWriters ImpValidation Bidders Privacy UserSync StoredRequests StoredMerge Accounts AccountAccess BidderRequests RequestValidation.

(** ** Timeouts *)
Definition millisecond : Z := 1000000.
Definition storedRequestTimeoutMillis : Z := 50.
(** [parseTimeout], a [time.Duration]. *)
Definition parseTimeout `{JsonParser} (requestJson : RawMessage) (defaultTimeout : Z) : Z :=
  let a := jp_Get requestJson ["tmax"%string] in
  if negb (bool_decide (jp_type a = JpNotExist)) && bool_decide (jp_err a = None) then
    match GoStr.atoi (jp_value a) with
    | Some tmaxInt => if (0 <? tmaxInt)%Z then Int64.wrap (tmaxInt * millisecond) else defaultTimeout
    | None => defaultTimeout
    end
  else defaultTimeout.
(** [AuctionTimeouts], in milliseconds. *)
Record AuctionTimeouts := mkAuctionTimeouts { at_Default : Z; at_Max : Z }.
Definition LimitAuctionTimeout (cfg : AuctionTimeouts) (requested : Z) : Z :=
  if ((requested =? 0) && negb (at_Default cfg =? 0))%Z then Int64.wrap (Int64.wrap (at_Default cfg) * millisecond)
  else if (0 <? at_Max cfg)%Z then
    let maxTimeout := Int64.wrap (Int64.wrap (at_Max cfg) * millisecond) in
    if ((requested =? 0) || (maxTimeout <? requested))%Z then maxTimeout else requested
  else requested.

(** ** The publisher's account id *)
Definition dec_ext_publisher : decoder (option string) := dec_struct (fun kvs =>
  prebid ← dec_field (dec_ptr (dec_struct (dec_field (dec_ptr dec_string) None "parentAccount"))) None "prebid" kvs;
  Some (match prebid with Some p => p | None => None end)).
Definition getAccountID (pub : option Publisher) : string :=
  match pub with
  | None => PublisherUnknown
  | Some pub =>
      let own := if GoStr.is_empty (pub_ID pub) then PublisherUnknown else pub_ID pub in
      if raw_is_nil (pub_Ext pub) then own
      else match unmarshal dec_ext_publisher (pub_Ext pub) with
           | inl (Some parent) => if GoStr.is_empty parent then own else parent
           | _ => own
           end
  end.

(** ** The answer *)
Definition StatusOK : Z := 200.
Definition StatusNoContent : Z := 204.
Definition StatusBadRequest : Z := 400.
Definition StatusInternalServerError : Z := 500.
Definition StatusServiceUnavailable : Z := 503.
Definition RequestStatusOK : string := "ok".
Definition RequestStatusBadInput : string := "badinput".
Definition RequestStatusErr : string := "err".
Definition RequestStatusNetworkErr : string := "networkerr".
Definition RequestStatusBlacklisted : string := "blacklistedacctorapp".

Definition newline : string := String (Ascii.ascii_of_nat 10) EmptyString.
Definition is_blacklisted (err : error) : bool :=
  ((ReadCode err =? Code.BlacklistedAppErrorCode) || (ReadCode err =? Code.BlacklistedAcctErrorCode))%Z.
(** [writeError] with errors: the status, the label, what is written. *)
Definition writeError (errs : list error) : Z * string * string :=
  let '(httpStatus, metricsStatus) :=
    if existsb is_blacklisted errs then (StatusServiceUnavailable, RequestStatusBlacklisted)
    else (StatusBadRequest, RequestStatusBadInput) in
  (httpStatus, metricsStatus,
   foldr (fun err text => "Invalid request: " ⧺ error_string err ⧺ newline ⧺ text) ""%string errs).

Inductive AnswerBody (Response : Type) := Nothing | Text (text : string) | Encoded (response : Response).
Arguments Nothing {_}.
Arguments Text {_}.
Arguments Encoded {_}.
Record Answer (Response : Type) := mkAnswer {
  ans_Status : Z; ans_Body : AnswerBody Response; ans_Labels : Labels; ans_RequestStatus : string;
  ans_Errors : list error }.
Arguments mkAnswer {_}.
Arguments ans_Status {_}.
Arguments ans_Body {_}.
Arguments ans_Labels {_}.
Arguments ans_RequestStatus {_}.
Arguments ans_Errors {_}.

(** What is read of the HTTP request: the parts [IpNet] reads, its cookies, and
    its body: the text and what is left of the limit after reading up to a
    limit, and what there is beyond it. *)
Record HttpRequest := mkHttp {
  h_Request : Request; h_Cookie : string -> option string;
  h_ReadAll : Z -> (RawMessage * Z) + error; h_Copy : Z * option error }.

(** The endpoint's settings. *)
Record AuctionDeps := mkAuctionDeps {
  ad_deps : endpointDeps; ad_MaxRequestSize : Z; ad_defReqJSON : option RawMessage;
  ad_Timeouts : AuctionTimeouts; ad_HostCookie : HostCookie; ad_Account : AccountConfig }.

(** [exchange.Exchange], under a deadline if there is one. *)
Class Exchange (Response : Type) := {
  ex_HoldAuction : option Z -> Sources -> AuctionRequest -> option (Response + error) }.

Section Endpoint.
Context `{JsonParser} `{JsonPatch} `{IPValidator}.
Context (float_text : float64 -> string) (ParseISO : string -> string + error).
Context (UnmarshalNative : string -> NativeReq.Request + string).
Context (MarshalNative : NativeReq.Request -> string + string).
Context (Validate : string -> json -> option error).
Context (EffectiveTLDPlusOne : string -> string + error) (Offset : RawMessage -> Z).
Context (GetInt : RawMessage -> string -> option (Z + error)).
(** [json.Unmarshal] into an empty request: what was filled in, the error. *)
Context (UnmarshalRequest : RawMessage -> Sources * BidRequest * option error).
(** The fetcher of stored requests under a timeout. *)
Context (storedReqFetcher : Z -> AllFetcher).
Context (deps : AuctionDeps) (orders : Orders) (newV4 : string + error).

(** The second part of [parseRequest], from the decoding on. *)
Definition decode_and_validate (httpRequest : HttpRequest) (requestJson : RawMessage) :
  option (Sources * BidRequest * list error) :=
  let '(srcs, req, err) := UnmarshalRequest requestJson in
  match err with
  | Some err => Some (srcs, req, [err])
  | None =>
      let req := setFieldsImplicitly EffectiveTLDPlusOne (h_Request httpRequest) req in
      '(req, err) ← processInterstitials req;
      match err with
      | Some err => Some (srcs, req, [err])
      | None =>
          validateRequest float_text ParseISO UnmarshalNative MarshalNative Validate (ad_deps deps) orders newV4
            srcs (ModifyForIOS GetInt req)
      end
  end.
(** [parseRequest]: the request with its source store, and the errors; [None]
    is a panic. *)
Definition parseRequest (httpRequest : HttpRequest) : option (Sources * BidRequest * list error) :=
  let fail errs := Some (∅, emptyBidRequest, errs) in
  match h_ReadAll httpRequest (ad_MaxRequestSize deps) with
  | inr err => fail [err]
  | inl (requestJson, N) =>
      let '(written, copy_err) := h_Copy httpRequest in
      if (N <=? 0)%Z && ((0 <? written)%Z || bool_decide (is_Some copy_err)) then
        fail [EPlain ("Request size exceeded max size of " ⧺ GoStr.itoa (ad_MaxRequestSize deps) ⧺ " bytes.")]
      else
        let timeout := parseTimeout requestJson (storedRequestTimeoutMillis * millisecond) in
        match processStoredRequests Offset (storedReqFetcher timeout) (ad_defReqJSON deps) requestJson with
        | inr ((_ :: _) as errs) => fail errs
        | inr [] => decode_and_validate httpRequest RawNil
        | inl requestJson => decode_and_validate httpRequest requestJson
        end
  end.

Context (parse_time : string -> option Z) (decode : string -> option RawMessage).
Context (FetchAccount : string -> RawMessage * list error).
Context {Response : Type} `{Exchange Response} (Encode : Response -> option error).

(** The labels of a request, and whether [req.Site] was there to read. *)
Definition request_labels (start : Z) (usersyncs : PBSCookie) (req : BidRequest) : Labels * bool :=
  match req_App req with
  | Some app => (mkLabels "app" ReqTypeORTB2App (getAccountID (app_Publisher app)) "unknown", true)
  | None =>
      let flag := if (LiveSyncCount usersyncs start =? 0)%nat then CookieFlagNo else CookieFlagYes in
      match req_Site req with
      | Some site => (mkLabels "web" ReqTypeORTB2Web (getAccountID (site_Publisher site)) flag, true)
      | None => (mkLabels "web" ReqTypeORTB2Web PublisherUnknown flag, false)
      end
  end.
Definition recovered (labels : Labels) : Answer Response := mkAnswer StatusNoContent Nothing labels RequestStatusOK [].
Definition refuse (labels : Labels) (errs : list error) : Answer Response :=
  let '(httpStatus, metricsStatus, text) := writeError errs in mkAnswer httpStatus (Text text) labels metricsStatus [].
(** The account is known: the auction, and its answer. *)
Definition hold (httpRequest : HttpRequest) (start : Z) (srcs : Sources) (req : BidRequest) (errL : list error)
    (usersyncs : PBSCookie) (labels : Labels) (account : Account) : Answer Response :=
  let timeout := LimitAuctionTimeout (ad_Timeouts deps) (Int64.wrap (req_TMax req * millisecond)) in
  let deadline := if (0 <? timeout)%Z then Some timeout else None in
  let auctionRequest := mkAuctionRequest req account (GetId usersyncs) start (WarningOnly errL)
                          (Header_Get (h_Request httpRequest) "Sec-Gpc") labels in
  match ex_HoldAuction deadline srcs auctionRequest with
  | None => recovered labels
  | Some (inr err) =>
      mkAnswer StatusInternalServerError (Text ("Critical error while running the auction: " ⧺ error_string err)) labels
        RequestStatusErr [err]
  | Some (inl response) =>
      match Encode response with
      | None => mkAnswer StatusOK (Encoded response) labels RequestStatusOK []
      | Some err =>
          mkAnswer StatusOK Nothing labels RequestStatusNetworkErr
            [EPlain ("/openrtb2/auction Failed to send response: " ⧺ error_string err)]
      end
  end.
(** [Auction]. *)
Definition unknown_labels : Labels := mkLabels "unknown" ReqTypeORTB2Web PublisherUnknown "unknown".
Definition Auction (httpRequest : HttpRequest) (start : Z) : Answer Response :=
  match parseRequest httpRequest with
  | None => recovered unknown_labels
  | Some (srcs, req, errL) =>
      if ContainsFatalError errL && (0 <? length errL)%nat then refuse unknown_labels errL
      else
        let usersyncs := ParsePBSCookieFromRequest parse_time decode start (h_Cookie httpRequest) (ad_HostCookie deps) in
        match request_labels start usersyncs req with
        | (labels, false) => recovered labels
        | (labels, true) =>
            match GetAccount (ad_Account deps) FetchAccount (lb_PubID labels) with
            | inr ((_ :: _) as acctIDErrs) => refuse labels (errL ++ acctIDErrs)
            | inr [] => recovered labels
            | inl account => hold httpRequest start srcs req errL usersyncs labels account
            end
        end
  end.
End Endpoint.

(** ** Facts *)
Lemma interstitial_loop_errors `{JsonParser} device imps imps' err : interstitial_loop device imps = Some (imps', Some err) ->
  isFatal err = true.
Proof.
  revert imps'. induction imps as [|imp imps IH]; intros imps'; cbn [interstitial_loop]; [done|].
  assert (forall r, ('(rest, e) ← r; Some (imp :: rest, e)) = Some (imps', Some err) -> exists rest, r = Some (rest, Some err)) as Hrest.
  { intros [[rest e]|]; cbn; [|done]. intros [= _ ->]. by exists rest. }
  destruct (negb _); [intros (rest & Hr)%Hrest; by eapply IH|].
  destruct device as [d|]; cbn [mbind option_bind]; [|done]. destruct (raw_is_nil (dev_Ext d)); [done|].
  destruct (unmarshal dec_ext_device (dev_Ext d)) as [[devInt|]|e] eqn:E; [|done|intros [= _ ->]; by eapply unmarshal_error_fatal].
  destruct (processInterstitialsForImp imp devInt (Some d)) as [imp' [e|]] eqn:Ep.
  - intros [= _ ->]. revert Ep. unfold processInterstitialsForImp. repeat case_match; intros [= _ <-]; done.
  - destruct (interstitial_loop _ imps) as [[rest e]|]; cbn; [|done]. intros [= _ ->]. by eapply IH.
Qed.
Lemma interstitials_frame `{JsonParser} req req' err : processInterstitials req = Some (req', err) ->
  req' = req_set_Imp req (req_Imp req').
Proof.
  unfold processInterstitials. destruct (interstitial_loop _ _) as [[imps e]|]; cbn; [|done]. intros [= <- _]. by destruct req.
Qed.
Lemma ModifyForIOS_addresses GetInt req : addresses (device_of (ModifyForIOS GetInt req)) = addresses (device_of req).
Proof.
  unfold ModifyForIOS. destruct (negb _); [done|]. destruct req as [? ? ? ? [d|] ]; cbn; [|done].
  unfold modifyForIOS14X, modifyForIOS142OrGreater. repeat case_match; by destruct d.
Qed.

(** The auction request an endpoint may hold. *)
Definition request_ok (v : RequestValidation) (blockedApps : gset string) (req : BidRequest) : Prop :=
  req_ID req <> ""%string /\ req_Imp req <> [] /\ NoDup (imp_ID <$> req_Imp req) /\ (0 <= req_TMax req)%Z /\
  length (req_Cur req) <= 1 /\ (is_Some (req_Site req) <-> req_App req = None) /\
  (forall app, req_App req = Some app -> app_ID app <> ""%string -> app_ID app ∉ blockedApps) /\
  public_ipv4 v (dev_IP (device_of req)) /\ public_ipv6 v (dev_IPv6 (device_of req)).
Definition auction_ok (v : RequestValidation) (blockedApps : gset string) (cfg : AccountConfig) (q : AuctionRequest) : Prop :=
  request_ok v blockedApps (ar_BidRequest q) /\ Forall (fun e => isFatal e = false) (ar_Warnings q) /\
  acct_Disabled (ar_Account q) = false /\ lb_PubID (ar_LegacyLabels q) ∉ BlacklistedAcctMap cfg.

Lemma WarningOnly_not_fatal errs : Forall (fun e => isFatal e = false) (WarningOnly errs).
Proof.
  induction errs as [|e errs IH]; cbn; [done|]. destruct (isWarning e) eqn:E; [|done]. constructor; [|done].
  rw isWarning_not_fatal in E. by apply negb_true_iff.
Qed.

Lemma is_blacklisted_iff err : is_blacklisted err = true <-> blocks err.
Proof. destruct err; cbn; try done. rw orb_true_iff !Z.eqb_eq. done. Qed.
Lemma existsb_blocks errs : existsb is_blacklisted errs = true <-> Exists blocks errs.
Proof.
  rw existsb_exists list.Exists_exists. split; intros (err & Hin & Hb); exists err; [|rw -list_elem_of_In];
    by rw ?is_blacklisted_iff ?list_elem_of_In in Hb |- *; rw ?list_elem_of_In in Hin |- *.
Qed.
Lemma blocked_account cfg `{JsonPatch} FetchAccount id errs : GetAccount cfg FetchAccount id = inr errs -> id ∈ BlacklistedAcctMap cfg ->
  Exists blocks errs.
Proof. intros Hg Hin. rw /GetAccount bool_decide_eq_true_2 // in Hg. injection Hg as <-. by constructor. Qed.

(** The answers that hold no auction. *)
Definition refused_for {Response} (errs : list error) (ans : Answer Response) : Prop :=
  (exists text, ans_Body ans = Text text) /\
  ((Exists blocks errs /\ ans_Status ans = 503%Z /\ ans_RequestStatus ans = RequestStatusBlacklisted) \/
   (~ Exists blocks errs /\ ans_Status ans = 400%Z /\ ans_RequestStatus ans = RequestStatusBadInput)).
Lemma refuse_refused {Response} labels errs : refused_for errs (@refuse Response labels errs).
Proof.
  unfold refused_for, refuse, writeError. rw -existsb_blocks. destruct (existsb is_blacklisted errs); (split; [by eexists|]); [by left|by right].
Qed.

Section EndpointFacts.
Context `{JsonParser} `{JsonPatch} (v : RequestValidation).
#[local] Instance endpoint_validator : IPValidator := PublicNetworkIPValidator v.
Context (float_text : float64 -> string) (ParseISO : string -> string + error).
Context (UnmarshalNative : string -> NativeReq.Request + string).
Context (MarshalNative : NativeReq.Request -> string + string).
Context (Validate : string -> json -> option error).
Context (EffectiveTLDPlusOne : string -> string + error) (Offset : RawMessage -> Z).
Context (GetInt : RawMessage -> string -> option (Z + error)).
Context (UnmarshalRequest : RawMessage -> Sources * BidRequest * option error).
(** The JSON library's errors carry no severity. *)
Hypothesis unmarshal_fatal : forall j srcs req err, UnmarshalRequest j = (srcs, req, Some err) -> isFatal err = true.
Context (storedReqFetcher : Z -> AllFetcher).
Context (deps : AuctionDeps) (orders : Orders) (newV4 : string + error).
Context (factors_visit : forall m, map_range m (or_factors orders m)).
Context (strings_visit : forall m, map_range m (or_strings orders m)).
Context (rates_visit : forall m, map_range m (or_rates orders m)).
Context (exts_visit : forall i m, map_range m (or_exts orders i m)).

Lemma validated_ok srcs req req' srcs' errs :
  validateRequest float_text ParseISO UnmarshalNative MarshalNative Validate (ad_deps deps) orders newV4 srcs req =
    Some (srcs', req', errs) ->
  ContainsFatalError errs = false ->
  public_ipv4 v (dev_IP (device_of req)) -> public_ipv6 v (dev_IPv6 (device_of req)) -> request_ok v (d_BlacklistedAppMap (ad_deps deps)) req'.
Proof.
  intros Hrun Hok H4 H6.
  destruct (validated_request_facts ParseISO (ad_deps deps) orders factors_visit strings_visit rates_visit float_text
    UnmarshalNative MarshalNative Validate newV4 exts_visit srcs req srcs' req' errs Hrun Hok)
    as (aliases & consent & nosale & (Hid & Htm & Himp) & _ & (Hsite & _ & Happ & _) & Hnd & [Hlen _] & _ & _ & _ & _ & Hreq).
  unfold request_ok. rw Hreq. destruct req as [id im si ap dv us te at_ tm cu bc ba so re ext]. cbn in *. split_and!; try done.
  - intros Hnil. rw Hnil in Hlen. by destruct im.
  - rw length_take. lia.
  - intros app -> Hne. by apply Happ.
Qed.
Lemma decoded_ok httpRequest j srcs req errs :
  decode_and_validate float_text ParseISO UnmarshalNative MarshalNative Validate EffectiveTLDPlusOne GetInt UnmarshalRequest
    deps orders newV4 httpRequest j = Some (srcs, req, errs) ->
  ContainsFatalError errs = false -> request_ok v (d_BlacklistedAppMap (ad_deps deps)) req.
Proof.
  unfold decode_and_validate. intros Hrun Hok. destruct (UnmarshalRequest j) as [[srcs1 req1] [err|]] eqn:Eu.
  { injection Hrun as <- <- <-. cbn in Hok. by rw (unmarshal_fatal _ _ _ _ Eu) in Hok. }
  cbv zeta in Hrun. set (filled := setFieldsImplicitly _ _ req1) in Hrun.
  assert (public_ipv4 v (dev_IP (device_of filled)) /\ public_ipv6 v (dev_IPv6 (device_of filled))) as [H4 H6].
  { unfold device_of. destruct (req_Device filled) as [d|] eqn:Ed; [by eapply fields_addresses_public|by split; left]. }
  destruct (processInterstitials filled) as [[req2 [err|]]|] eqn:Ei; cbn [mbind option_bind] in Hrun; [..|done].
  { injection Hrun as <- <- <-. cbn in Hok. unfold processInterstitials in Ei.
    destruct (interstitial_loop _ _) as [[imps e]|] eqn:El; cbn in Ei; [|done]. injection Ei as _ ->.
    by rw (interstitial_loop_errors _ _ _ _ El) in Hok. }
  assert (device_of req2 = device_of filled) as Hdev.
  { rw (interstitials_frame _ _ _ Ei). by destruct filled. }
  pose proof (ModifyForIOS_addresses GetInt req2) as Haddr. rw Hdev in Haddr. injection Haddr as Hip Hip6.
  eapply validated_ok; [exact Hrun|exact Hok|by rw Hip|by rw Hip6].
Qed.
Lemma parse_ok httpRequest srcs req errs :
  parseRequest float_text ParseISO UnmarshalNative MarshalNative Validate EffectiveTLDPlusOne Offset GetInt UnmarshalRequest
    storedReqFetcher deps orders newV4 httpRequest = Some (srcs, req, errs) ->
  ContainsFatalError errs = false -> req = emptyBidRequest \/ request_ok v (d_BlacklistedAppMap (ad_deps deps)) req.
Proof.
  unfold parseRequest. intros Hrun Hok. destruct (h_ReadAll httpRequest _) as [[requestJson N]|err]; [|left; congruence].
  destruct (h_Copy httpRequest) as [written copy_err]. destruct (_ && _); [left; congruence|].
  destruct (processStoredRequests _ _ _ _) as [j|[|err errs']]; [right; by eapply decoded_ok|right; by eapply decoded_ok|left; congruence].
Qed.

Context (parse_time : string -> option Z) (decode : string -> option RawMessage).
Context (FetchAccount : string -> RawMessage * list error).
Context {Response : Type} `{Exchange Response} (Encode : Response -> option error).

(** The errors that an answer without an auction is about: fatal errors of the
    request, or those of the account of a request that has none. *)
Definition reported (httpRequest : HttpRequest) (start : Z) (errs : list error) : Prop :=
  exists srcs req errL,
    parseRequest float_text ParseISO UnmarshalNative MarshalNative Validate EffectiveTLDPlusOne Offset GetInt UnmarshalRequest
      storedReqFetcher deps orders newV4 httpRequest = Some (srcs, req, errL) /\
    ((errs = errL /\ Exists (fun err => isFatal err = true) errL) \/
     exists labels acctErrs, request_labels start
         (ParsePBSCookieFromRequest parse_time decode start (h_Cookie httpRequest) (ad_HostCookie deps)) req = (labels, true) /\
       GetAccount (ad_Account deps) FetchAccount (lb_PubID labels) = inr acctErrs /\ errs = errL ++ acctErrs /\
       (lb_PubID labels ∈ BlacklistedAcctMap (ad_Account deps) -> Exists blocks errs)).

End EndpointFacts.

(** ** Deadlines *)

(** An auction is bounded in time: when the host has a maximum and its
    default does not exceed it, any [tmax] that is representable in
    nanoseconds gives a positive time within the maximum; a request that asks
    for less gets what it asks for. *)
Theorem auction_deadline cfg tmax :
  (0 < at_Max cfg <= 9223372036854)%Z -> (0 <= at_Default cfg <= at_Max cfg)%Z -> (0 <= tmax <= 9223372036854)%Z ->
  let timeout := LimitAuctionTimeout cfg (Int64.wrap (tmax * millisecond)) in
  (0 < timeout <= at_Max cfg * millisecond)%Z /\
  ((0 < tmax <= at_Max cfg)%Z -> timeout = (tmax * millisecond)%Z).
Proof.
  intros Hmax Hdef Htmax. unfold LimitAuctionTimeout, millisecond.
  assert (forall z, (0 <= z <= 9223372036854)%Z -> Int64.wrap (z * 1000000) = (z * 1000000)%Z /\ Int64.wrap z = z) as Hwrap.
  { intros z Hz. split; apply Int64.wrap_id; unfold Int64.in_range, Int64.min_value, Int64.max_value; lia. }
  destruct (Hwrap tmax Htmax) as [-> _]. destruct (Hwrap (at_Max cfg)) as [Hm1 Hm2]; [lia|].
  destruct (Hwrap (at_Default cfg)) as [Hd1 Hd2]; [lia|]. rw Hm2 Hm1 Hd2 Hd1.
  destruct (Z.eqb_spec (tmax * 1000000) 0), (Z.eqb_spec (at_Default cfg) 0), (Z.ltb_spec 0 (at_Max cfg)),
    (Z.ltb_spec (at_Max cfg * 1000000) (tmax * 1000000)); cbn; lia.
Qed.
Lemma auction_deadline_witness :
  (0 < LimitAuctionTimeout (mkAuctionTimeouts 500 1000) (Int64.wrap (1500 * millisecond)) <= 1000 * millisecond)%Z /\
  LimitAuctionTimeout (mkAuctionTimeouts 500 1000) (Int64.wrap (700 * millisecond)) = (700 * millisecond)%Z.
Proof.
  split.
  - exact (proj1 (auction_deadline (mkAuctionTimeouts 500 1000) 1500 ltac:(cbn; lia) ltac:(cbn; lia) ltac:(lia))).
  - exact (proj2 (auction_deadline (mkAuctionTimeouts 500 1000) 700 ltac:(cbn; lia) ltac:(cbn; lia) ltac:(lia)) ltac:(cbn; lia)).
Defined.

(** A larger [tmax] wraps around to a negative time: no deadline is set. *)
Example huge_tmax_has_no_deadline :
  let timeout := LimitAuctionTimeout (mkAuctionTimeouts 500 1000) (Int64.wrap (9223372036855 * millisecond)) in
  (timeout < 0)%Z.
Proof. by vm_compute. Qed.

(** ** A concrete answer *)
Definition demo_unmarshal_request (j : RawMessage) : Sources * BidRequest * option error := (∅, demo_auction_request, None).
Definition demo_http_request : HttpRequest :=
  mkHttp (demo_http "203.0.113.7") (fun _ => None) (fun n => inl (demo_incoming, n - 1)%Z) (0%Z, None).
Definition demo_auction_deps : AuctionDeps :=
  mkAuctionDeps demo_deps 1000 None (mkAuctionTimeouts 500 1000) (mkHostCookie "" "" "" "" "" 0)
    (mkAccountConfig ∅ false demo_account RawNil).
#[local] Instance demo_exchange_endpoint : Exchange string :=
  {| ex_HoldAuction _ _ q := Some (inl (req_ID (ar_BidRequest q))) |}.
Definition demo_answer : Answer string :=
  @Auction exact_parser rfc7396 (endpoint_validator demo_networks) demo_float_text (fun c => inl c) demo_unmarshal_native
    demo_marshal_native demo_validate demo_domain (fun _ => 0%Z) (fun _ _ => None) demo_unmarshal_request (fun _ => demo_stored)
    demo_auction_deps demo_orders (inl "tid-1"%string) (fun _ => None) (fun _ => None) demo_fetch_account string
    demo_exchange_endpoint (fun _ => None) demo_http_request 0.
