(* ===== verification/AmpRequest.v ===== *)
(** * Requests of AMP pages

    [amp/parse.go], which reads the parameters an AMP page puts into the
    query, and the part of [endpoints/openrtb2/amp_auction.go] that makes an
    OpenRTB request of them: the stored request of the tag, the overrides, the
    consent, and the targeting and caching that AMP cannot do without. *)

From S2P Require Import Prelude Float64 ErrorTypes IpNet Json OpenRTB JsonParser PriceGranularity ExtRequest ExtRoundtrip Url ImplicitFields.
From S2P Require Import Ccpa ConsentWriters Gdpr StoredRequests StoredMerge BidderRequests RequestValidation AuctionEndpoint.

(** ** Parameters, [amp/parse.go] *)
Record Size := mkSize {
  sz_Height : Z; sz_Multisize : list Format; sz_OverrideHeight : Z; sz_OverrideWidth : Z; sz_Width : Z }.
Record Params := mkParams {
  amp_Account : string; amp_CanonicalURL : string; amp_Consent : string; amp_Debug : bool; amp_Origin : string;
  amp_Size : Size; amp_Slot : string; amp_StoredRequestID : string; amp_Timeout : option Z }.

(** [strconv.ParseUint(value, 10, 64)]: decimal digits only. *)
Definition parseIntPtr (value : string) : option Z :=
  match GoStr.unsigned_val value with
  | Some z => if (z <? 2 ^ 64)%Z then Some z else None
  | None => None
  end.
Definition parseInt (value : string) : Z := default 0%Z (GoStr.atoi value).
Definition simpleFormat (w h : Z) : Format := mkFormat w h 0 0 0 RawNil.

(** The loop of [parseMultisize]; [None] is a list given up on. *)
Fixpoint multisize_loop (sizeStrings : list string) : option (list Format) :=
  match sizeStrings with
  | [] => Some []
  | sizeString :: rest =>
      match GoStr.split "x" sizeString with
      | [w; h] =>
          let f := simpleFormat (parseInt w) (parseInt h) in
          if ((fmt_W f =? 0) && (fmt_H f =? 0))%Z then None
          else sizes ← multisize_loop rest; Some (f :: sizes)
      | _ => None
      end
  end.
Definition parseMultisize (multisize : string) : list Format :=
  if GoStr.is_empty multisize then [] else default [] (multisize_loop (GoStr.split "," multisize)).
Definition chooseConsent (consent gdprConsent : string) : string :=
  if negb (GoStr.is_empty consent) then consent else gdprConsent.

Definition ParseParams (query : Values) : Params + error :=
  let tagID := Url.Get query "tag_id" in
  if GoStr.is_empty tagID then inr (EPlain "AMP requests require an AMP tag_id")
  else inl (mkParams (Url.Get query "account") (Url.Get query "curl")
              (chooseConsent (Url.Get query "consent_string") (Url.Get query "gdpr_consent"))
              (GoStr.eqb (Url.Get query "debug") "1") (Url.Get query "__amp_source_origin")
              (mkSize (parseInt (Url.Get query "h")) (parseMultisize (Url.Get query "ms")) (parseInt (Url.Get query "oh"))
                 (parseInt (Url.Get query "ow")) (parseInt (Url.Get query "w")))
              (Url.Get query "slot") tagID (parseIntPtr (Url.Get query "timeout"))).

(** ** Sizes *)
Definition override_format (size : Size) : list Format :=
  let set z := negb (z =? 0)%Z in
  if set (sz_OverrideWidth size) && set (sz_OverrideHeight size) then
    [simpleFormat (sz_OverrideWidth size) (sz_OverrideHeight size)]
  else if set (sz_OverrideWidth size) && set (sz_Height size) then [simpleFormat (sz_OverrideWidth size) (sz_Height size)]
  else if set (sz_Width size) && set (sz_OverrideHeight size) then [simpleFormat (sz_Width size) (sz_OverrideHeight size)]
  else if set (sz_Width size) && set (sz_Height size) then [simpleFormat (sz_Width size) (sz_Height size)]
  else [].
Definition makeFormatReplacement (size : Size) : list Format := override_format size ++ sz_Multisize size.
Definition setWidths (formats : list Format) (width : Z) : list Format := (fun f => fmt_set_W f width) <$> formats.
Definition setHeights (formats : list Format) (height : Z) : list Format := (fun f => fmt_set_H f height) <$> formats.
Definition override_banner (size : Size) (b : Banner) : Banner :=
  match makeFormatReplacement size with
  | (_ :: _) as format => ban_set_Format b format
  | [] =>
      if negb (sz_Width size =? 0)%Z then ban_set_Format b (setWidths (ban_Format b) (sz_Width size))
      else if negb (sz_Height size =? 0)%Z then ban_set_Format b (setHeights (ban_Format b) (sz_Height size))
      else b
  end.

(** ** Publisher and consent *)
(** [setEffectiveAmpPubID]; [None] is the nil publisher of a request without
    app and site. *)
Definition effective_pub (pub : option Publisher) (account : string) : option Publisher :=
  let pub := default emptyPublisher pub in
  Some (if GoStr.is_empty (pub_ID pub) && (negb (GoStr.is_empty account) && negb (GoStr.eqb account "ACCOUNT_ID"))
        then pub_set_ID pub account else pub).
Definition setEffectiveAmpPubID (req : BidRequest) (account : string) : option BidRequest :=
  match req_App req, req_Site req with
  | Some app, _ => Some (req_set_App req (Some (app_set_Publisher app (effective_pub (app_Publisher app) account))))
  | None, Some site => Some (req_set_Site req (Some (site_set_Publisher site (effective_pub (site_Publisher site) account))))
  | None, None => None
  end.

(** [privacy.PolicyWriter]. *)
Inductive PolicyWriter := NilPolicyWriter | GdprConsentWriter (consent : string) | CcpaConsentWriter (consent : string).

Section Amp.
Context `{JsonParser} (float_text : float64 -> string).
Context (ParseString : string -> VendorConsents + error).

Definition Gdpr_ValidateConsent (consent : string) : bool :=
  match ParseString consent with inl _ => true | inr _ => false end.
Definition readPolicy (consent : string) : PolicyWriter * option error :=
  if GoStr.is_empty consent then (NilPolicyWriter, None)
  else if Gdpr_ValidateConsent consent then (GdprConsentWriter consent, None)
  else if Ccpa_ValidateConsent consent then (CcpaConsentWriter consent, None)
  else (NilPolicyWriter,
        Some (EWarning ("Consent '" ⧺ consent ⧺ "' is not recognized as either CCPA or GDPR TCF.") Code.InvalidPrivacyConsentWarningCode)).
(** [PolicyWriter.Write]. *)
Definition policy_Write (w : PolicyWriter) (req : BidRequest) : option (BidRequest * option error) :=
  match w with
  | NilPolicyWriter => Some (req, None)
  | GdprConsentWriter consent => Gdpr_ConsentWriter_Write float_text consent req
  | CcpaConsentWriter consent =>
      r ← Ccpa_ConsentWriter_Write float_text consent req;
      Some (match r with inl req => (req, None) | inr err => (req, Some err) end)
  end.

(** ** Overrides *)
Definition canonical_domain (curl : string) : option string :=
  host ← Parse_Host curl;
  Some (match GoStr.last_index ":" host with Some i => GoStr.take i host | None => host end).
Definition override_page (curl : string) (site : Site) : Site :=
  if GoStr.is_empty curl then site
  else
    let site := site_set_Page site curl in
    match canonical_domain curl with Some domain => site_set_Domain site domain | None => site end.
Definition override_imp (params : Params) (imp : Imp) : Imp :=
  match imp_Banner imp with
  | Some b => imp_set_Banner imp (Some (override_banner (amp_Size params) b))
  | None => imp
  end.

(** [overrideWithParams]: the request as far as it was changed, the errors;
    [None] is a panic. *)
Definition overrideWithParams (AMPTimeoutAdjustment : Z) (params : Params) (req : BidRequest) :
  option (BidRequest * list error) :=
  match req_Imp req with
  | [] => None
  | imp :: rest =>
      let imp := override_imp params imp in
      let site := setAmpExt (override_page (amp_CanonicalURL params) (default emptySite (req_Site req))) "1" in
      req ← setEffectiveAmpPubID (req_set_Site req (Some site)) (amp_Account params);
      let imp := if negb (GoStr.is_empty (amp_Slot params)) then imp_set_TagID imp (amp_Slot params) else imp in
      let req := req_set_Imp req (imp :: rest) in
      match readPolicy (amp_Consent params) with
      | (_, Some policyWriterErr) => Some (req, [policyWriterErr])
      | (policyWriter, None) =>
          '(req, err) ← policy_Write policyWriter req;
          match err with
          | Some err => Some (req, [err])
          | None =>
              Some (match amp_Timeout params with
                    | Some t => req_set_TMax req (Int64.sub (Int64.wrap t) AMPTimeoutAdjustment)
                    | None => req
                    end, [])
          end
      end
  end.

(** ** Targeting and caching *)
Definition pre_set_Targeting (p : ExtRequestPrebid) (t : option ExtRequestTargeting) : ExtRequestPrebid :=
  let 'mkPrebid a f c d b e s sr sd _ n cc := p in mkPrebid a f c d b e s sr sd t n cc.
Definition pre_set_Cache (p : ExtRequestPrebid) (c : option ExtRequestPrebidCache) : ExtRequestPrebid :=
  let 'mkPrebid a f _ d b e s sr sd t n cc := p in mkPrebid a f c d b e s sr sd t n cc.
Definition amp_targeting : ExtRequestTargeting :=
  mkTargeting (PriceGranularityFromString "med") true true None false None false false.
(** The empty [ExtRequestPrebidCacheBids]. *)
Definition cache_bids : option (option bool) := Some None.
(** The extension with the missing parts, and whether there were any. *)
Definition default_prebid (p : ExtRequestPrebid) : ExtRequestPrebid * bool :=
  let '(p, d1) := match pre_Targeting p with
                  | None => (pre_set_Targeting p (Some amp_targeting), true)
                  | Some _ => (p, false)
                  end in
  match pre_Cache p with
  | None => (pre_set_Cache p (Some (mkCache cache_bids None)), true)
  | Some c =>
      match cache_Bids c with
      | None => (pre_set_Cache p (Some (mkCache cache_bids (cache_VastXML c))), true)
      | Some _ => (p, d1)
      end
  end.
Definition defaultRequestExt (req : BidRequest) : BidRequest * list error :=
  match (if raw_len0 (req_Ext req) then inl emptyPrebid else unmarshal dec_ext_request (req_Ext req)) with
  | inr err => (req, [err])
  | inl extRequest =>
      match default_prebid extRequest with
      | (p, true) => (req_set_Ext req (RawJson (enc_ext_request float_text p)), [])
      | (_, false) => (req, [])
      end
  end.

(** ** The stored request *)
Context (UnmarshalRequest : RawMessage -> Sources * BidRequest * option error).
Context (storedReqFetcher : Z -> AllFetcher) (AMPTimeoutAdjustment : Z).

(** [loadRequestJSONForAmp]: the request, which may be nil, and the errors. *)
Definition loadRequestJSONForAmp (query : Values) : option (Sources * option BidRequest * list error) :=
  match ParseParams query with
  | inr err => Some (∅, None, [err])
  | inl ampParams =>
      let id := amp_StoredRequestID ampParams in
      let fetched := FetchRequests (storedReqFetcher (storedRequestTimeoutMillis * millisecond)) [id] [] in
      match f_errs fetched with
      | (_ :: _) as errs => Some (∅, None, errs)
      | [] =>
          let fail srcs req msg := Some (srcs, Some req, [EPlain msg]) in
          if bool_decide (f_requests fetched = ∅) then
            fail ∅ emptyBidRequest ("No AMP config found for tag_id '" ⧺ id ⧺ "'")
          else
            let '(srcs, req, err) := UnmarshalRequest (stored (f_requests fetched) id) in
            match err with
            | Some err => Some (srcs, Some req, [err])
            | None =>
                let req := if amp_Debug ampParams then req_set_Test req 1 else req in
                match req_Imp req with
                | [] => fail srcs req ("data for tag_id='" ⧺ id ⧺ "' does not define the required imp array")
                | _ :: _ :: _ =>
                    fail srcs req ("data for tag_id '" ⧺ id ⧺ "' includes " ⧺ GoStr.itoa (Z.of_nat (length (req_Imp req))) ⧺
                      " imp elements. Only one is allowed")
                | [imp] =>
                    if bool_decide (is_Some (req_App req)) then
                      fail srcs req "request.app must not exist in AMP stored requests."
                    else
                      let req := req_set_Imp req [imp_set_Secure imp (Some 1%Z)] in
                      '(req, errs) ← overrideWithParams AMPTimeoutAdjustment ampParams req;
                      Some (srcs, Some req, errs)
                end
            end
      end
  end.

(** ** Facts *)
(** What the overrides leave alone. *)
Definition overridden (req req' : BidRequest) : Prop :=
  req_ID req' = req_ID req /\ length (req_Imp req') = length (req_Imp req) /\
  req_Ext req' = req_Ext req /\ (req_App req = None -> req_App req' = None /\ is_Some (req_Site req')).
Lemma policy_write_frame w req req' err : policy_Write w req = Some (req', err) ->
  req' = req_set_Regs (req_set_User req (req_User req')) (req_Regs req').
Proof.
  destruct w as [|c|c]; cbn; [by intros [= <- _]; destruct req| |].
  - unfold Gdpr_ConsentWriter_Write. destruct (GoStr.is_empty c); [by intros [= <- _]; destruct req|].
    destruct (raw_is_nil _); [by intros [= <- _]; destruct req|]. destruct (unmarshal _ _) as [m|e]; [|by intros [= <- _]; destruct req].
    destruct (map_set _ _ _); cbn; [|done]. by intros [= <- _]; destruct req.
  - unfold Ccpa_ConsentWriter_Write. destruct (buildRegs _ _ _) as [[regs|e]|]; cbn; [..|done]; by intros [= <- _]; destruct req.
Qed.
Lemma override_frame adj params req req' errs : overrideWithParams adj params req = Some (req', errs) -> overridden req req'.
Proof.
  unfold overrideWithParams. destruct (req_Imp req) as [|imp rest] eqn:Ei; [done|].
  set (site := setAmpExt _ _). clearbody site. set (imp1 := override_imp params imp). clearbody imp1.
  destruct (setEffectiveAmpPubID _ _) as [req1|] eqn:Ep; cbn [mbind option_bind]; [|done].
  set (imps := _ :: rest). assert (length imps = length (req_Imp req)) as Hlen by (rw Ei; done). clearbody imps.
  assert (overridden req (req_set_Imp req1 imps)) as H1.
  { unfold setEffectiveAmpPubID in Ep. unfold overridden. destruct req as [id im si [app|] dv us te at_ tm cu bc ba so re ext];
      cbn in *; injection Ep as <-; cbn; split_and!; done. }
  destruct (readPolicy _) as [w [e|]]; [by intros [= <- _]|].
  destruct (policy_Write _ _) as [[req2 e]|] eqn:Ew; cbn [mbind option_bind]; [|done].
  apply policy_write_frame in Ew. assert (overridden req req2) as H2.
  { rw Ew. clear -H1. unfold overridden in *. by destruct (req_set_Imp req1 imps). }
  destruct e as [e|]; [by intros [= <- _]|]. intros [= <- _]. destruct (amp_Timeout params); [|done].
  clear -H2. unfold overridden in *. by destruct req2.
Qed.

(** A loaded request has one imp, no app, a site, and the extension of the
    stored request. *)
Lemma loaded_shape query srcs req errs
    (unmarshal_fatal : forall j srcs req err, UnmarshalRequest j = (srcs, req, Some err) -> isFatal err = true) :
  loadRequestJSONForAmp query = Some (srcs, Some req, errs) -> ContainsFatalError errs = false ->
  exists j srcs0 req0, UnmarshalRequest j = (srcs0, req0, None) /\ req_Ext req = req_Ext req0 /\
    length (req_Imp req) = 1 /\ req_App req = None /\ is_Some (req_Site req).
Proof.
  intros Hrun Hok. unfold loadRequestJSONForAmp in Hrun. destruct (ParseParams query) as [params|]; [|done].
  destruct (f_errs _); [|done]. case_bool_decide; [by injection Hrun as <- <- <-|].
  set (j := stored _ _) in Hrun. destruct (UnmarshalRequest j) as [[srcs0 req0] [err|]] eqn:Eu.
  { injection Hrun as <- <- <-. cbn in Hok. by rw (unmarshal_fatal _ _ _ _ Eu) in Hok. }
  set (req1 := if amp_Debug params then _ else _) in Hrun. assert (req_Ext req1 = req_Ext req0) as He.
  { subst req1. destruct (amp_Debug params); by destruct req0. }
  destruct (req_Imp req1) as [|imp [|imp' rest]] eqn:Ei; [by injection Hrun as <- <- <-| |by injection Hrun as <- <- <-].
  case_bool_decide as Happ; [by injection Hrun as <- <- <-|]. clearbody req1.
  destruct (overrideWithParams _ _ _) as [[req2 errs2]|] eqn:Eo; cbn [mbind option_bind] in Hrun; [|done]. injection Hrun as <- <- <-.
  apply override_frame in Eo as (_ & Hlen & Hext & Ha). exists j, srcs0, req0. split; [done|].
  assert (req_App req1 = None) as Hnone by (destruct (req_App req1); [by destruct Happ|done]).
  destruct (Ha ltac:(by destruct req1)) as [Ha1 Ha2]. destruct req1; cbn in *. split_and!; try congruence.
Qed.

(** What the defaults make of an extension. *)
Definition amp_ready (p : ExtRequestPrebid) : Prop :=
  pre_Targeting p <> None /\ exists c b, pre_Cache p = Some c /\ cache_Bids c = Some b.
Lemma default_prebid_ready p : amp_ready (default_prebid p).1.
Proof.
  unfold default_prebid, amp_ready. destruct p as [a f [[[b|] v]|] d db e s sr sd [t|] n cc]; cbn; split; try done; by do 2 eexists.
Qed.
Lemma default_prebid_same p : (default_prebid p).2 = false -> (default_prebid p).1 = p.
Proof. unfold default_prebid. destruct p as [a f [[[b|] v]|] d db e s sr sd [t|] n cc]; by cbn. Qed.
Lemma default_prebid_ok p : granularity_ok float_text priceGranularityMed -> prebid_ok float_text p ->
  prebid_ok float_text (default_prebid p).1.
Proof.
  intros Hmed [H1 H2 H3 H4 H5 H6]. unfold default_prebid.
  assert (targeting_ok float_text amp_targeting) as Ht by (split_and!; done).
  destruct p as [a f [[[b|] v]|] d db e s sr sd [t|] n cc]; cbn in *; split; try done; by left.
Qed.
End Amp.

(** See [amp_defaults_on]. *)
Lemma defaults_spec float_text req req' errs :
  granularity_ok float_text priceGranularityMed ->
  (forall p, unmarshal dec_ext_request (req_Ext req) = inl p -> prebid_ok float_text p) ->
  defaultRequestExt float_text req = (req', errs) ->
  match (if raw_len0 (req_Ext req) then inl emptyPrebid else unmarshal dec_ext_request (req_Ext req)) with
  | inr err => req' = req /\ errs = [err]
  | inl p => errs = [] /\ req' = req_set_Ext req (req_Ext req') /\
      unmarshal dec_ext_request (req_Ext req') = inl (default_prebid p).1 /\ amp_ready (default_prebid p).1 /\
      pre_set_Cache (pre_set_Targeting (default_prebid p).1 (pre_Targeting p)) (pre_Cache p) = p
  end.
Proof.
  intros Hmed Hok. unfold defaultRequestExt. destruct (if raw_len0 _ then _ else _) as [p|err] eqn:Ep; [|by intros [= <- <-]].
  assert (prebid_ok float_text p) as Hp.
  { destruct (raw_len0 _); [injection Ep as <-; by split|by apply Hok]. }
  pose proof (default_prebid_ready p) as Hready. pose proof (default_prebid_same p) as Hsame.
  pose proof (default_prebid_ok _ p Hmed Hp) as Hok'.
  assert (pre_set_Cache (pre_set_Targeting (default_prebid p).1 (pre_Targeting p)) (pre_Cache p) = p) as Hrest.
  { unfold default_prebid. by destruct p as [a f [[[b|] v]|] d db e s sr sd [t|] n cc]. }
  destruct (default_prebid p) as [p' [|]]; cbn in *; intros [= <- <-].
  - split; [done|]. split; [by destruct req|]. split; [|done].
    assert (req_Ext (req_set_Ext req (RawJson (enc_ext_request float_text p'))) = RawJson (enc_ext_request float_text p')) as ->
      by by destruct req. unfold unmarshal. by rw ext_request_codec.
  - specialize (Hsame eq_refl). subst p'. split; [done|]. split; [by destruct req|]. split; [|done].
    destruct (raw_len0 _); [|done]. injection Ep as <-. by destruct Hready.
Qed.

(** AMP pages are answered from the cache, so their auctions have targeting
    and caching turned on: an extension that has them is kept as it is, one
    that lacks them gets the defaults, and nothing else of it changes. *)
Theorem amp_defaults_on float_text req req' errs :
  granularity_ok float_text priceGranularityMed ->
  (forall p, unmarshal dec_ext_request (req_Ext req) = inl p -> prebid_ok float_text p) ->
  defaultRequestExt float_text req = (req', errs) ->
  match (if raw_len0 (req_Ext req) then inl emptyPrebid else unmarshal dec_ext_request (req_Ext req)) with
  | inr err => req' = req /\ errs = [err]
  | inl p => errs = [] /\ req' = req_set_Ext req (req_Ext req') /\
      unmarshal dec_ext_request (req_Ext req') = inl (default_prebid p).1 /\ amp_ready (default_prebid p).1 /\
      pre_set_Cache (pre_set_Targeting (default_prebid p).1 (pre_Targeting p)) (pre_Cache p) = p
  end.
Proof. exact (defaults_spec float_text req req' errs). Qed.

Lemma demo_prebid_ok : prebid_ok two_decimals emptyPrebid.
Proof. split; try done; apply Forall_nil. Qed.
Lemma amp_defaults_on_witness :
  let req := (defaultRequestExt two_decimals demo_auction_request).1 in
  exists p, unmarshal dec_ext_request (req_Ext req) = inl p /\ amp_ready p /\ tg_IncludeBidderKeys <$> pre_Targeting p = Some true.
Proof.
  destruct (amp_defaults_on two_decimals demo_auction_request _ _ med_granularity_ok ltac:(intros ? [=])
    (surjective_pairing _)) as (_ & _ & Hdec & Hready & _).
  eexists. split; [exact Hdec|]. split; [exact Hready|]. vm_compute. reflexivity.
Defined.
