(* ===== verification/SkanList.v ===== *)
(** * Lists of SKAdNetwork ids

    [cache/skanidlist]: for three bidders the ids they may be asked about on
    iOS are fetched from the bidder's site and kept for an hour, or tried again
    after five minutes ([cache.go], [util.go]); a client makes the cache of a
    bidder at its first use ([client.go], [cfg], [model]).  [Update] is called
    by the goroutine of each bidder of each auction at the same time: callers
    of one cache are threads of a step relation whose steps are the sections
    under the cache's lock, and the cache refines a two-state machine. *)

From stdpp Require Import relations.
From S2P Require Import Prelude ErrorTypes Json.

(** ** The list *)
Definition dec_entry : decoder string := dec_struct (fun kvs =>
  _ ← dec_field dec_int 0%Z "id" kvs;
  _ ← dec_field dec_string ""%string "entity_name" kvs;
  _ ← dec_field dec_string ""%string "entity_domain" kvs;
  id ← dec_field dec_string ""%string "skadnetwork_id" kvs;
  _ ← dec_field dec_string ""%string "creation_date" kvs;
  Some id).
Definition SKANIDList : Type := list string.
Definition dec_list_file : decoder SKANIDList := dec_struct (fun kvs =>
  _ ← dec_field dec_string ""%string "company_name" kvs;
  _ ← dec_field dec_string ""%string "company_address" kvs;
  _ ← dec_field dec_string ""%string "company_domain" kvs;
  dec_field (dec_list dec_entry) [] "skadnetwork_ids" kvs).
(** [extract]: a map to true is a set. *)
Definition extract (skanIDList : SKANIDList) : gset string :=
  fold_left (fun skanIDs id => {[id]} ∪ skanIDs) skanIDList ∅.

(** ** A cache *)
Record CacheCfg := mkCfg { cfg_Url : string; cfg_Bidder : string; cfg_BidderSKANID : string }.
Record cache := mkCache {
  ch_url : string; ch_bidder : string; ch_ids : gset string; ch_expiration : Z; ch_updateRequested : bool }.
(** In nanoseconds. *)
Definition successTTL : Z := 3600 * 1000000000.
Definition missTTL : Z := 300 * 1000000000.
Definition newCache (cfg : CacheCfg) (now : Z) : cache :=
  mkCache (cfg_Url cfg) (cfg_Bidder cfg)
    (if GoStr.is_empty (cfg_BidderSKANID cfg) then ∅ else {[cfg_BidderSKANID cfg]}) now false.
Definition get (c : cache) : gset string := if GoStr.is_empty (ch_url c) then ∅ else ch_ids c.

(** The first section of [update] under the lock: whether to fetch. *)
Definition claim (c : cache) (now : Z) : cache * bool :=
  if (ch_expiration c <? now)%Z && negb (ch_updateRequested c)
  then (mkCache (ch_url c) (ch_bidder c) (ch_ids c) (ch_expiration c) true, true) else (c, false).

(** How a fetch can end. *)
Inductive FetchResult :=
  | NewRequestError (e : error) | DoError (e : error) | Answered (status : Z) (body : RawMessage + error).
Record response := mkResponse { r_skanIDList : SKANIDList; r_updated : bool; r_err : option error }.
Definition fetchFromServer (url : string) (result : FetchResult) : response :=
  match result with
  | NewRequestError err =>
      mkResponse [] false (Some (EPlain ("error making request for bidder's servers for: " ⧺ url ⧺ " - " ⧺ error_string err)))
  | DoError err =>
      mkResponse [] false (Some (EPlain ("error fetching skanidlist from bidder's servers for: " ⧺ url ⧺ " - " ⧺ error_string err)))
  | Answered status body =>
      if negb (status =? 200)%Z then
        mkResponse [] false (Some (EPlain ("error statuscode (" ⧺ GoStr.itoa status ⧺ ") received from bidder's servers for: " ⧺ url ⧺
          " - <nil>")))
      else
        match body with
        | inr err =>
            mkResponse [] true (Some (EPlain ("error reading skanidlist response body for: " ⧺ url ⧺ " - " ⧺ error_string err)))
        | inl data =>
            match unmarshal dec_list_file data with
            | inr err =>
                mkResponse [] true (Some (EPlain ("error unmarshaling response to skanidlist for: " ⧺ url ⧺ " - " ⧺ error_string err)))
            | inl skanIDList => mkResponse skanIDList true None
            end
        end
  end.
(** What a caller gets that does not fetch. *)
Definition no_update : response := mkResponse [] false None.

Definition updateSuccess (c : cache) (skanIDList : SKANIDList) (now : Z) : cache :=
  mkCache (ch_url c) (ch_bidder c) (extract skanIDList) (Int64.wrap (now + successTTL)) false.
Definition updateMiss (c : cache) (now : Z) : cache :=
  mkCache (ch_url c) (ch_bidder c) (ch_ids c) (Int64.wrap (now + missTTL)) false.
(** The rest of [update], with the response that was received. *)
Definition finish (c : cache) (resp : response) (now : Z) : cache :=
  match r_err resp with
  | Some _ => updateMiss c now
  | None => if negb (r_updated resp) then c else updateSuccess c (r_skanIDList resp) now
  end.

(** ** The client *)
Definition TaurusX : CacheCfg := mkCfg "https://www.taurusx.com/skadnetworkids.json" "taurusx" "22mmun2rn5.skadnetwork".
Definition Pubmatic : CacheCfg := mkCfg "https://pubmatic.com/skadnetworkids.json" "pubmatic" "k674qkevps.skadnetwork".
Definition Rubicon : CacheCfg := mkCfg "https://www.magnite.com/skadnetworkids.json" "rubicon" "4468km3ulz.skadnetwork".
Definition cfg_of (bidder : string) : option CacheCfg :=
  if GoStr.eqb bidder "taurusx" then Some TaurusX
  else if GoStr.eqb bidder "pubmatic" then Some Pubmatic
  else if GoStr.eqb bidder "rubicon" then Some Rubicon
  else None.
Definition makeCache (caches : gmap string cache) (cfg : CacheCfg) (now : Z) : gmap string cache :=
  match caches !! cfg_Bidder cfg with None => <[cfg_Bidder cfg := newCache cfg now]> caches | Some _ => caches end.
(** [cacheClient]: the caches after the call and the one of the bidder. *)
Definition cacheClient (caches : gmap string cache) (bidder : string) (now : Z) : gmap string cache * (cache + error) :=
  match cfg_of bidder with
  | None => (caches, inr (EPlain ("bidder (" ⧺ bidder ⧺ ") does not support SKAN ID List")))
  | Some cfg =>
      match caches !! bidder with
      | Some c => (caches, inl c)
      | None => (makeCache caches cfg now, inl (newCache cfg now))
      end
  end.
Definition Get (caches : gmap string cache) (bidder : string) (now : Z) : gmap string cache * gset string :=
  match cacheClient caches bidder now with
  | (caches, inl c) => (caches, get c)
  | (caches, inr _) => (caches, ∅)
  end.

(** ** Callers of one cache *)
Inductive Thread := Called | Fetching | Received (resp : response) | Returned.
Record System := mkSystem { sy_cache : cache; sy_threads : gmap nat Thread }.
Definition set_thread (st : System) (i : nat) (t : Thread) : System := mkSystem (sy_cache st) (<[i := t]> (sy_threads st)).

(** What is seen of a step: a fetch begins, hears the server, or ends. *)
Inductive Event := Silent | Begins (now : Z) | Hears (result : FetchResult) | Ends (now : Z).
(** A caller that was told not to fetch leaves the cache as it is, so what it
    does after [claim] is one step with it. *)
Inductive step : System -> Event -> System -> Prop :=
  | Call st i : sy_threads st !! i = None -> step st Silent (set_thread st i Called)
  | Claim st i now c : sy_threads st !! i = Some Called -> claim (sy_cache st) now = (c, true) ->
      step st (Begins now) (set_thread (mkSystem c (sy_threads st)) i Fetching)
  | Pass st i now c : sy_threads st !! i = Some Called -> claim (sy_cache st) now = (c, false) ->
      step st Silent (set_thread (mkSystem (finish c no_update now) (sy_threads st)) i Returned)
  | Answer st i result : sy_threads st !! i = Some Fetching ->
      step st (Hears result) (set_thread st i (Received (fetchFromServer (ch_url (sy_cache st)) result)))
  | Finish st i resp now : sy_threads st !! i = Some (Received resp) ->
      step st (Ends now) (set_thread (mkSystem (finish (sy_cache st) resp now) (sy_threads st)) i Returned).

(** ** The promise *)
(** The list a server gave: a body with status 200 that decodes. *)
Definition served (result : FetchResult) : option SKANIDList :=
  match result with
  | Answered 200 (inl body) => match unmarshal dec_list_file body with inl skanIDList => Some skanIDList | inr _ => None end
  | _ => None
  end.
(** Either the ids are left alone until some time, or one fetch is under way,
    which has heard the server or not. *)
Inductive Spec := Waiting (until : Z) (ids : gset string) | Busy (ids : gset string) | Heard (ids : gset string) (l : option SKANIDList).
Inductive spec_step : Spec -> Event -> Spec -> Prop :=
  | SpecSilent s : spec_step s Silent s
  | SpecBegins until ids now : (until < now)%Z -> spec_step (Waiting until ids) (Begins now) (Busy ids)
  | SpecHears ids result : spec_step (Busy ids) (Hears result) (Heard ids (served result))
  | SpecEnds ids now l :
      spec_step (Heard ids (Some l)) (Ends now) (Waiting (Int64.wrap (now + 3600 * 1000000000)) (list_to_set l))
  | SpecMiss ids now : spec_step (Heard ids None) (Ends now) (Waiting (Int64.wrap (now + 300 * 1000000000)) ids).
Definition spec_ids (s : Spec) : gset string := match s with Waiting _ ids | Busy ids | Heard ids _ => ids end.
(** The id that is configured for a bidder, if any. *)
Definition own_ids (cfg : CacheCfg) : gset string := match cfg_BidderSKANID cfg with EmptyString => ∅ | id => {[id]} end.
(** The lists of the fetches that ended, in their order. *)
Fixpoint lists_fetched (heard : option SKANIDList) (trace : list Event) : list SKANIDList :=
  match trace with
  | [] => []
  | Hears result :: rest => lists_fetched (served result) rest
  | Ends _ :: rest => match heard with Some l => [l] | None => [] end ++ lists_fetched None rest
  | _ :: rest => lists_fetched heard rest
  end.

(** Runs, with what is seen of them. *)
Inductive runs {S} (R : S -> Event -> S -> Prop) : S -> list Event -> S -> Prop :=
  | RunsNil s : runs R s [] s
  | RunsCons s e s' l s'' : R s e s' -> runs R s' l s'' -> runs R s (e :: l) s''.

(** What a system looks like as the machine. *)
Definition brought (resp : response) : option SKANIDList :=
  match r_err resp with Some _ => None | None => Some (r_skanIDList resp) end.
Definition abstracts (st : System) (s : Spec) : Prop :=
  ch_ids (sy_cache st) = spec_ids s /\
  match s with
  | Waiting until _ => ch_updateRequested (sy_cache st) = false /\ ch_expiration (sy_cache st) = until
  | Busy _ => exists i, sy_threads st !! i = Some Fetching
  | Heard _ l => exists i resp, sy_threads st !! i = Some (Received resp) /\ brought resp = l
  end.
Definition start (cfg : CacheCfg) (now : Z) : System := mkSystem (newCache cfg now) ∅.

(** ** Facts *)
Lemma extract_set l : extract l = list_to_set l.
Proof.
  unfold extract. enough (forall acc : gset string, fold_left (fun skanIDs id => {[id]} ∪ skanIDs) l acc = list_to_set l ∪ acc) as ->
    by by rw right_id_L.
  induction l as [|id l IH]; intros acc; cbn; [by rw left_id_L|]. rw IH. by rw (assoc_L _ (list_to_set l)) (comm_L _ (list_to_set l)).
Qed.
Lemma runs_snoc {S} (R : S -> Event -> S -> Prop) s l s' e s'' : runs R s l s' -> R s' e s'' -> runs R s (l ++ [e]) s''.
Proof. induction 1 as [|? ? ? ? ? Hs Hr IH]; intros He; cbn; econstructor; [done|constructor|done|by apply IH]. Qed.

(** The caller at [i] has a fetch under way. *)
Definition fetches (st : System) (i : nat) : Prop :=
  sy_threads st !! i = Some Fetching \/ exists resp, sy_threads st !! i = Some (Received resp).
(** A response of the server, not the one of a caller that does not fetch. *)
Definition fetched (resp : response) : Prop := r_err resp = None -> r_updated resp = true.
Record inv (st : System) : Prop := {
  inv_flag : ch_updateRequested (sy_cache st) = true <-> exists i, fetches st i;
  inv_one i j : fetches st i -> fetches st j -> i = j;
  inv_fetched i resp : sy_threads st !! i = Some (Received resp) -> fetched resp }.

Lemma fetch_fetched url result : fetched (fetchFromServer url result).
Proof. unfold fetched, fetchFromServer. repeat case_match; by intros. Qed.
Lemma fetch_brought url result : brought (fetchFromServer url result) = served result.
Proof.
  unfold brought, fetchFromServer, served. destruct result as [|e|status body]; [done..|].
  destruct (Z.eqb_spec status 200) as [->|Hne]; cbn [negb].
  - destruct body as [data|]; [|done]. by destruct (unmarshal dec_list_file data).
  - cbn [r_err]. repeat case_match; try done; by subst.
Qed.
Lemma fetches_other st i j t : j <> i -> fetches (set_thread st i t) j <-> fetches st j.
Proof. intros Hne. unfold fetches, set_thread. cbn. by setoid_rewrite (lookup_insert_ne _ i j); [|congruence..]. Qed.
Lemma fetches_at st i t : fetches (set_thread st i t) i <-> t = Fetching \/ exists resp, t = Received resp.
Proof. unfold fetches, set_thread. cbn. setoid_rewrite lookup_insert_eq. naive_solver. Qed.
(** A caller that gains or loses no fetch keeps the invariant, and so does one
    whose fetch begins or ends together with the flag. *)
Lemma inv_set_thread st i t c : inv st -> (forall resp, t = Received resp -> fetched resp) ->
  (forall j, fetches st j -> (t = Fetching \/ exists resp, t = Received resp) -> j = i) ->
  (ch_updateRequested c = true <-> (t = Fetching \/ exists resp, t = Received resp) \/ exists j, j <> i /\ fetches st j) ->
  inv (set_thread (mkSystem c (sy_threads st)) i t).
Proof.
  intros [Hflag Hone Hres] Hf Honly Hc.
  assert (forall j, fetches (set_thread (mkSystem c (sy_threads st)) i t) j <->
            (j = i /\ (t = Fetching \/ exists resp, t = Received resp)) \/ (j <> i /\ fetches st j)) as Hj.
  { intros j. destruct (decide (j = i)) as [->|Hne]; [etrans; [apply fetches_at|]; naive_solver|].
    etrans; [by apply fetches_other|]. unfold fetches. cbn. naive_solver. }
  split.
  - etrans; [exact Hc|]. setoid_rewrite Hj. naive_solver.
  - intros j k. rw !Hj. naive_solver.
  - intros j resp. cbn. destruct (decide (j = i)) as [->|Hne]; [rw lookup_insert_eq|rw lookup_insert_ne //]; [intros [= ->]; by apply Hf|apply Hres].
Qed.

Lemma step_inv st e st' : step st e st' -> inv st -> inv st'.
Proof.
  intros Hs Hi. pose proof (inv_flag _ Hi) as Hflag. pose proof (inv_one _ Hi) as Hone.
  assert (forall i t, sy_threads st !! i = Some t -> fetches st i <-> t = Fetching \/ exists resp, t = Received resp) as Hat
    by (intros i t Hti; unfold fetches; rw Hti; naive_solver).
  destruct Hs as [st i Hi0|st i now c Hi0 Hc|st i now c Hi0 Hc|st i result Hi0|st i resp now Hi0].
  - destruct st as [c ts]. apply (inv_set_thread (mkSystem c ts)); [done|by intros|naive_solver|].
    etrans; [exact Hflag|]. assert (~ fetches (mkSystem c ts) i) by (unfold fetches; cbn in *; rw Hi0; naive_solver). naive_solver.
  - unfold claim in Hc. destruct (Z.ltb_spec (ch_expiration (sy_cache st)) now) as [Hlt|], (ch_updateRequested (sy_cache st)) eqn:Eu;
      cbn in Hc; try done. injection Hc as <-.
    assert (forall j, ~ fetches st j) as Hno by (intros j Hj; assert (false = true) by (apply Hflag; by eexists); done).
    apply inv_set_thread; [done|by intros|naive_solver|cbn; naive_solver].
  - assert (c = sy_cache st) as -> by (unfold claim in Hc; case_match; congruence).
    apply inv_set_thread; [done|by intros|naive_solver|]. cbn. rw Hflag. pose proof (Hat _ _ Hi0). naive_solver.
  - destruct st as [c ts]. pose proof (Hat _ _ Hi0) as Ha. apply (inv_set_thread (mkSystem c ts)); [done| |naive_solver|].
    + intros resp [= <-]. apply fetch_fetched.
    + etrans; [exact Hflag|]. naive_solver.
  - pose proof (inv_fetched _ Hi _ _ Hi0) as Hf. pose proof (Hat _ _ Hi0) as Ha.
    apply inv_set_thread; [done|by intros|naive_solver|]. unfold finish, fetched in *. destruct (r_err resp); [|rw Hf //]; cbn; naive_solver.
Qed.
(** A step that leaves the fetches alone looks like none. *)
Lemma abstracts_other st i t s : abstracts st s -> ~ fetches st i -> abstracts (set_thread st i t) s.
Proof.
  intros [Hids Hs] Hn. split; [done|]. destruct s as [until ids|ids|ids l]; [done|..]; cbn.
  - destruct Hs as [j Hj]. exists j. rw lookup_insert_ne //. intros ->. apply Hn. by left.
  - destruct Hs as (j & resp & Hj & Hl). exists j, resp. rw lookup_insert_ne //. intros ->. apply Hn. right. by exists resp.
Qed.
Lemma step_simulated st e st' s : step st e st' -> inv st -> abstracts st s -> exists s', spec_step s e s' /\ abstracts st' s'.
Proof.
  intros Hs Hi Ha. pose proof (inv_flag _ Hi) as Hflag. pose proof (inv_one _ Hi) as Hone.
  destruct Hs as [st i Hi0|st i now c Hi0 Hc|st i now c Hi0 Hc|st i result Hi0|st i resp now Hi0].
  - exists s. split; [constructor|]. apply abstracts_other; [done|]. unfold fetches. rw Hi0. naive_solver.
  - unfold claim in Hc. destruct (Z.ltb_spec (ch_expiration (sy_cache st)) now) as [Hlt|], (ch_updateRequested (sy_cache st)) eqn:Eu;
      cbn in Hc; try done. injection Hc as <-.
    assert (forall j, ~ fetches st j) as Hno by (intros j Hj; assert (false = true) by (apply Hflag; by eexists); done).
    destruct Ha as [Hids Ha]. destruct s as [until ids|ids|ids l].
    + destruct Ha as [_ <-]. exists (Busy ids). split; [by constructor|]. split; [done|]. exists i. cbn. by rw lookup_insert_eq.
    + destruct Ha as [j Hj]. destruct (Hno j). by left.
    + destruct Ha as (j & resp & Hj & _). destruct (Hno j). right. by exists resp.
  - assert (c = sy_cache st) as -> by (unfold claim in Hc; case_match; congruence). exists s. split; [constructor|].
    destruct st as [c ts]. apply abstracts_other; [done|]. unfold fetches. rw Hi0. naive_solver.
  - assert (fetches st i) as Hf by by left. destruct Ha as [Hids Ha]. destruct s as [until ids|ids|ids l].
    + destruct Ha as [Hu _]. assert (ch_updateRequested (sy_cache st) = true) by (apply Hflag; by exists i). congruence.
    + exists (Heard ids (served result)). split; [constructor|]. split; [done|]. eexists i, _. cbn. rw lookup_insert_eq.
      split; [done|]. apply fetch_brought.
    + destruct Ha as (j & resp & Hj & _). assert (j = i) as -> by (apply Hone; [right; by exists resp|done]). congruence.
  - assert (fetches st i) as Hf by (right; by exists resp). destruct Ha as [Hids Ha]. destruct s as [until ids|ids|ids l].
    + destruct Ha as [Hu _]. assert (ch_updateRequested (sy_cache st) = true) by (apply Hflag; by exists i). congruence.
    + destruct Ha as [j Hj]. assert (j = i) as -> by (apply Hone; [by left|done]). congruence.
    + destruct Ha as (j & resp' & Hj & <-). assert (j = i) as -> by (apply Hone; [right; by exists resp'|done]).
      rw Hi0 in Hj. injection Hj as <-. pose proof (inv_fetched _ Hi _ _ Hi0) as Hr. unfold finish, brought, fetched in *.
      destruct (r_err resp) as [err|]; [eexists; split; [constructor|]; done|]. rw Hr //. eexists. split; [constructor|].
      split; [|done]. cbn. by rw extract_set.
Qed.
Lemma start_inv cfg now : inv (start cfg now).
Proof. split; unfold fetches; cbn; [split; [done|intros [i [H|[? H]]]; by rw lookup_empty in H]|..]; intros i; rw lookup_empty; naive_solver. Qed.

Lemma run_simulated st trace st' s : runs step st trace st' -> inv st -> abstracts st s ->
  inv st' /\ exists s', runs spec_step s trace s' /\ abstracts st' s'.
Proof.
  intros Hr. revert s. induction Hr as [st|st e st1 l st2 Hs Hr IH]; intros s Hi Ha; [split; [done|]; exists s; split; [constructor|done]|].
  destruct (step_simulated _ _ _ _ Hs Hi Ha) as (s1 & Hspec & Ha1).
  destruct (IH s1 (step_inv _ _ _ Hs Hi) Ha1) as (Hi2 & s2 & Hspecs & Ha2). split; [done|]. exists s2. split; [by econstructor|done].
Qed.
Lemma run_url st trace st' : runs step st trace st' -> ch_url (sy_cache st') = ch_url (sy_cache st).
Proof.
  induction 1 as [|st e st1 l st2 Hs Hr IH]; [done|]. rw IH. destruct Hs as [| ? ? ? ? ? Hc|? ? ? ? ? Hc| |]; try done; cbn.
  - unfold claim in Hc. case_match; by injection Hc as <-.
  - unfold claim in Hc. by case_match; injection Hc as <-.
  - unfold finish. by repeat case_match.
Qed.
Definition heard_in (s : Spec) : option SKANIDList := match s with Heard _ l => l | _ => None end.
Lemma spec_run_ids s trace s' : runs spec_step s trace s' ->
  spec_ids s' = match list.last (lists_fetched (heard_in s) trace) with Some l => list_to_set l | None => spec_ids s end.
Proof.
  induction 1 as [|s e s1 l s2 Hs Hr IH]; [done|]. rw IH. destruct Hs; cbn; try done. rw last_cons. by destruct (list.last _).
Qed.
Lemma fetching_moves st i : fetches st i -> exists e st', step st e st' /\ sy_threads st' !! i <> sy_threads st !! i.
Proof.
  intros [Hi|[resp Hi]]; rw Hi; eexists _, _.
  - split; [apply (Answer st i (Answered 404 (inl RawNil)) Hi)|]. cbn. by rw lookup_insert_eq.
  - split; [apply (Finish st i resp 0 Hi)|]. cbn. by rw lookup_insert_eq.
Qed.

(** C9: the cache of a bidder's ids, whatever the number of callers and however
    they are scheduled: it behaves as a machine that waits until its ids have
    expired, then makes one fetch, and waits for an hour after a list that the
    server gave (status 200 and a body that decodes) or for five minutes after
    anything else; fetches never overlap, and while one is under way the caller
    that makes it can go on.  What is read is the last list that was fetched,
    or the bidder's own id before there was one. *)
Theorem skan_cache_refines cfg now trace st : runs step (start cfg now) trace st ->
  (exists s, runs spec_step (Waiting now (own_ids cfg)) trace s /\ abstracts st s) /\
  (forall i j, fetches st i -> fetches st j -> i = j) /\
  (ch_updateRequested (sy_cache st) = true ->
     exists i e st', fetches st i /\ step st e st' /\ sy_threads st' !! i <> sy_threads st !! i) /\
  get (sy_cache st) = match cfg_Url cfg, list.last (lists_fetched None trace) with
                      | EmptyString, _ => ∅
                      | _, Some l => list_to_set l
                      | _, None => own_ids cfg
                      end.
Proof.
  intros Hr. assert (abstracts (start cfg now) (Waiting now (own_ids cfg))) as Ha.
  { split; [|done]. unfold own_ids. cbn. by destruct (cfg_BidderSKANID cfg). }
  destruct (run_simulated _ _ _ _ Hr (start_inv cfg now) Ha) as ([Hflag Hone _] & s & Hspec & Ha').
  split_and!; [by exists s|exact Hone| |].
  - intros Hu. destruct (proj1 Hflag Hu) as [i Hi]. destruct (fetching_moves _ _ Hi) as (e & st' & Hs & Hm). by exists i, e, st'.
  - unfold get. rw (run_url _ _ _ Hr) (proj1 Ha') (spec_run_ids _ _ _ Hspec). cbn. by destruct (cfg_Url cfg), (list.last _).
Qed.

(** ** Two callers at once *)
Definition demo_file : RawMessage :=
  RawJson (JObj [("skadnetwork_ids"%string, JArr [JObj [("skadnetwork_id"%string, JStr "a.skadnetwork")];
                                                  JObj [("skadnetwork_id"%string, JStr "B.skadnetwork")]])]).
Definition demo_list : SKANIDList := ["a.skadnetwork"; "B.skadnetwork"]%string.
Lemma demo_runs : exists st, runs step (start TaurusX 0) [Silent; Silent; Begins 5; Silent; Hears (Answered 200 (inl demo_file)); Ends 20] st /\
  get (sy_cache st) = {["a.skadnetwork"; "B.skadnetwork"]}%string.
Proof.
  eexists. split.
  - eapply RunsCons; [apply (Call _ 0); reflexivity|]. eapply RunsCons; [apply (Call _ 1); reflexivity|].
    eapply RunsCons; [apply (Claim _ 0 5); [reflexivity|vm_compute; reflexivity]|].
    eapply RunsCons; [apply (Pass _ 1 6); [reflexivity|reflexivity]|].
    eapply RunsCons; [apply (Answer _ 0 (Answered 200 (inl demo_file))); reflexivity|].
    eapply RunsCons; [apply (Finish _ 0 (mkResponse demo_list true None) 20); reflexivity|]. constructor.
  - vm_compute. reflexivity.
Qed.
Lemma skan_cache_refines_witness : exists st,
  runs step (start TaurusX 0) [Silent; Silent; Begins 5; Silent; Hears (Answered 200 (inl demo_file)); Ends 20] st /\
  get (sy_cache st) = list_to_set demo_list /\ forall i j, fetches st i -> fetches st j -> i = j.
Proof.
  destruct demo_runs as (st & Hr & _). exists st. split; [exact Hr|].
  destruct (skan_cache_refines _ _ _ _ Hr) as (_ & Hone & _ & Hget). split; [rewrite Hget; reflexivity|exact Hone].
Defined.
