(* ===== verification/DspAdapters.v ===== *)
(** * Adapters of mobile bidders

    [adapters/taurusx], [liftoff], [moloco], [molococloud] and [crossinstall]:
    one program with small differences, which is written here once over a
    class of its parts and instantiated for each.  An adapter sends one request
    per imp, to the endpoint of the region the publisher asks for, with the
    imp's extension replaced by the SKAdNetwork ids the bidder may be told
    ([FilterPrebidSKADNExt] of [adapters/openrtb_util.go]).

    [MakeRequests] writes into the request it is given, and [MakeBids] takes
    the address of its loop variable: the bids of a seat are one object of the
    store.  The App object that liftoff writes into is shared with the requests
    of the other bidders; here it belongs to the one request. *)

From S2P Require Import Prelude Float64 ErrorTypes Json OpenRTB ExtRequest Bidders Currency Bidder SkanList.

(** ** SKAdNetwork *)
Record SKADN := mkSKADN {
  sk_Version : string; sk_Versions : list string; sk_SourceApp : string; sk_SKADNetIDs : list string }.
Record ExtImpPrebid := mkImpPrebid {
  ip_StoredRequest : option string; ip_IsRewardedInventory : Z; ip_SKADN : SKADN; ip_Bidder : gmap string RawMessage }.
(** [adapters.ExtImpBidder]. *)
Record ExtImpBidder := mkImpBidder { ib_Prebid : option ExtImpPrebid; ib_Bidder : RawMessage }.
Definition dec_SKADN : decoder SKADN := dec_struct (fun kvs =>
  version ← dec_field dec_string ""%string "version" kvs;
  versions ← dec_field (dec_list dec_string) [] "versions" kvs;
  sourceapp ← dec_field dec_string ""%string "sourceapp" kvs;
  skadnetids ← dec_field (dec_list dec_string) [] "skadnetids" kvs;
  Some (mkSKADN version versions sourceapp skadnetids)).
Definition dec_imp_prebid : decoder ExtImpPrebid := dec_struct (fun kvs =>
  storedrequest ← dec_field (dec_ptr (dec_struct (dec_field dec_string ""%string "id"))) None "storedrequest" kvs;
  rewarded ← dec_field dec_int8 0%Z "is_rewarded_inventory" kvs;
  skadn ← dec_field dec_SKADN (mkSKADN "" [] "" []) "skadn" kvs;
  bidder ← dec_field (dec_map dec_raw) None "bidder" kvs;
  Some (mkImpPrebid storedrequest rewarded skadn (map_or_empty bidder))).
Definition dec_imp_bidder : decoder ExtImpBidder := dec_struct (fun kvs =>
  prebid ← dec_field (dec_ptr dec_imp_prebid) None "prebid" kvs;
  bidder ← dec_field dec_raw RawNil "bidder" kvs;
  Some (mkImpBidder prebid bidder)).
Definition enc_strings (name : string) (l : list string) : list (string * json) :=
  match l with [] => [] | _ => [(name, enc_list JStr l)] end.
Definition enc_SKADN (s : SKADN) : json :=
  JObj (enc_omit_str "version" (sk_Version s) ++ enc_strings "versions" (sk_Versions s) ++
        enc_omit_str "sourceapp" (sk_SourceApp s) ++ enc_strings "skadnetids" (sk_SKADNetIDs s)).

Definition filterArrayWithMap (arr : list string) (filterMap : gset string) : list string :=
  filter (fun id => to_lower id ∈ filterMap) arr.
Definition FilterPrebidSKADNExt (prebidExt : option ExtImpPrebid) (filterMap : gset string) : SKADN :=
  match prebidExt with
  | None => mkSKADN "" [] "" []
  | Some p =>
      let s := ip_SKADN p in
      mkSKADN (sk_Version s) (sk_Versions s) (sk_SourceApp s) (filterArrayWithMap (sk_SKADNetIDs s) filterMap)
  end.

(** ** An adapter *)
Definition Interstitial : string := "interstitial".
Definition Rewarded : string := "rewarded".
(** The endpoint and those of the regions. *)
Record adapter := mkAdapter { ad_endpoint : string; ad_SupportedRegions : gmap string string }.

(** What differs between the adapters: the parameters of the publisher, what
    is made of them, the ids that may be sent, what is done to the request, and
    the id a bid is given. *)
Class Dsp := mkDsp {
  dsp_Name : string;
  dsp_Params : Type;
  dsp_dec : decoder dsp_Params;
  dsp_Region : dsp_Params -> string;
  dsp_SKADNSupported : dsp_Params -> bool;
  dsp_MRAIDSupported : dsp_Params -> bool;
  dsp_placementType : dsp_Params -> string;
  dsp_videoExt : dsp_Params -> option json;
  dsp_bannerExt : dsp_Params -> json;
  dsp_impExt : dsp_Params -> list (string * json);
  dsp_SKADNetIDs : gset string;
  dsp_reports_skan : bool;
  dsp_start : BidRequest -> BidRequest;
  dsp_reinit : BidRequest -> BidRequest;
  dsp_bid_id : string -> string -> string -> string }.

(** What the adapters read of a server's answer. *)
Record ServerResponse := mkServerResponse { sr_ID : string; sr_SeatBid : list (list Bid); sr_BidID : string }.

Section Adapter.
Context `{Dsp}.
(** [encoding/json] on the structs of the openrtb2 library. *)
Context (MarshalRequest : BidRequest -> string + error) (UnmarshalRequest : string -> BidRequest + error).
Context (UnmarshalResponse : string -> ServerResponse + error).

(** *** [MakeRequests] *)
(** An imp as it is sent, with what its parameters say. *)
Record Prepared := mkPrepared { pr_imp : Imp; pr_params : dsp_Params; pr_skanSent : bool }.
Definition with_video_ext (params : dsp_Params) (imp : Imp) : Imp :=
  match imp_Video imp, dsp_videoExt params with
  | Some v, Some ext => imp_set_Video imp (Some (vid_set_Ext v (RawJson ext)))
  | _, _ => imp
  end.
Definition with_banner_ext (params : dsp_Params) (imp : Imp) : Imp :=
  match imp_Banner imp with
  | Some b =>
      imp_set_Banner imp (if dsp_MRAIDSupported params then Some (ban_set_Ext b (RawJson (dsp_bannerExt params))) else None)
  | None => imp
  end.
(** The ids that are sent, if there are any. *)
Definition sent_skadn (params : dsp_Params) (prebid : option ExtImpPrebid) : option SKADN :=
  if dsp_SKADNSupported params then
    let skadn := FilterPrebidSKADNExt prebid dsp_SKADNetIDs in
    match sk_SKADNetIDs skadn with [] => None | _ => Some skadn end
  else None.
Definition imp_ext (params : dsp_Params) (skadn : option SKADN) : json :=
  JObj (dsp_impExt params ++ match skadn with Some s => [("skadn"%string, enc_SKADN s)] | None => [] end).
Definition prepare (imp : Imp) : Prepared + error :=
  match unmarshal dec_imp_bidder (imp_Ext imp) with
  | inr err => inr (EBadInput (error_string err))
  | inl bidderExt =>
      match unmarshal dsp_dec (ib_Bidder bidderExt) with
      | inr err => inr (EBadInput (error_string err))
      | inl params =>
          let skadn := sent_skadn params (ib_Prebid bidderExt) in
          let imp := with_banner_ext params (with_video_ext params imp) in
          inl (mkPrepared (imp_set_Ext imp (RawJson (imp_ext params skadn))) params (bool_decide (is_Some skadn)))
      end
  end.

Definition request_headers : Header :=
  {["Content-Type" := ["application/json;charset=utf-8"]; "Accept" := ["application/json"]; "User-Agent" := ["prebid-server/1.0"]]}%string.
Definition request_data (a : adapter) (p : Prepared) (body : string) : RequestData :=
  let params := pr_params p in
  mkRequestData "POST" (default (ad_endpoint a) (ad_SupportedRegions a !! dsp_Region params)) body (Some request_headers)
    (mkTapjoyData dsp_Name (dsp_placementType params) (dsp_Region params) (dsp_SKADNSupported params)
       (dsp_reports_skan && pr_skanSent p) (dsp_MRAIDSupported params)).
(** The loop over the imps; the request is written to by every turn. *)
Fixpoint imp_loop (a : adapter) (imps : list Imp) (request : BidRequest) : BidRequest * list RequestData * list error :=
  match imps with
  | [] => (request, [], [])
  | imp :: rest =>
      match prepare imp with
      | inr err => let '(request, requestData, errs) := imp_loop a rest request in (request, requestData, err :: errs)
      | inl p =>
          let request := dsp_reinit (req_set_Imp request [pr_imp p]) in
          match MarshalRequest request with
          | inr err => let '(request, requestData, errs) := imp_loop a rest request in (request, requestData, err :: errs)
          | inl reqJSON =>
              let '(request, requestData, errs) := imp_loop a rest request in
              (request, request_data a p reqJSON :: requestData, errs)
          end
      end
  end.
Definition MakeRequests (a : adapter) (request : BidRequest) : BidRequest * list RequestData * list error :=
  imp_loop a (req_Imp request) (dsp_start request).

(** *** [MakeBids] *)
Definition unexpected (status : Z) : string :=
  "Unexpected status code: " ⧺ GoStr.itoa status ⧺ ". Run with request.debug = 1 for more info".
(** The loop over the bids of a seat; [q] is its variable. *)
Fixpoint bid_loop (bidResp : ServerResponse) (bidType : string) (q : loc) (bids : list Bid) (st : Store) : Store * list TypedBid :=
  match bids with
  | [] => (st, [])
  | b :: rest =>
      if F64.eqb (bid_Price b) F64.zero then bid_loop bidResp bidType q rest (put_bid st q b)
      else
        let b := bid_set_ID b (dsp_bid_id (sr_BidID bidResp) (sr_ID bidResp) (bid_ID b)) in
        let '(st, l) := bid_loop bidResp bidType q rest (put_bid st q b) in
        (st, mkTypedBid (Some q) bidType None 0 :: l)
  end.
Fixpoint seat_loop (bidResp : ServerResponse) (bidType : string) (seats : list (list Bid)) (st : Store) : Store * list TypedBid :=
  match seats with
  | [] => (st, [])
  | bids :: rest =>
      let '(st, l) := bid_loop bidResp bidType (fresh (dom (st_bid st))) bids st in
      let '(st, l') := seat_loop bidResp bidType rest st in (st, l ++ l')
  end.
(** [None] is a request without imps, whose first imp is looked at. *)
Definition MakeBids (externalRequest : RequestData) (response : ResponseData) (st : Store) :
  option (option BidderResponse * list error * Store) :=
  let status := rs_StatusCode response in
  if (status =? 204)%Z then Some (None, [], st)
  else if (status =? 400)%Z then Some (None, [EBadInput (unexpected status)], st)
  else if negb (status =? 200)%Z then Some (None, [EBadServerResponse (unexpected status)], st)
  else
    match UnmarshalResponse (rs_Body response) with
    | inr err => Some (None, [EBadServerResponse (error_string err)], st)
    | inl bidResp =>
        match sr_SeatBid bidResp with
        | [] => Some (None, [], st)
        | _ =>
            match UnmarshalRequest (rd_Body externalRequest) with
            | inr err => Some (None, [err], st)
            | inl bidReq =>
                imp ← head (req_Imp bidReq);
                let bidType := match imp_Video imp with Some _ => BidType.Video | None => BidType.Banner end in
                let '(st, bids) := seat_loop bidResp bidType (sr_SeatBid bidResp) st in
                Some (Some (mkBidderResponse "USD" bids), [], st)
            end
        end
    end.
End Adapter.

(** ** The five adapters *)
(** The configured endpoints of the regions. *)
Record AdapterXAPI := mkXAPI {
  xa_EndpointUSEast : string; xa_EndpointUSWest : string; xa_EndpointEU : string; xa_EndpointAPAC : string;
  xa_EndpointJP : string; xa_EndpointSG : string }.
(** Parameters with a reward. *)
Record RewardParams := mkRewardParams { rp_Reward : Z; rp_Region : string; rp_SKADN : bool; rp_MRAID : bool }.
Definition dec_reward_params : decoder RewardParams := dec_struct (fun kvs =>
  reward ← dec_field dec_int 0%Z "reward" kvs;
  region ← dec_field dec_string ""%string "region" kvs;
  skadn ← dec_field dec_bool false "skadn_supported" kvs;
  mraid ← dec_field dec_bool false "mraid_supported" kvs;
  Some (mkRewardParams reward region skadn mraid)).
Definition reward_placement (p : RewardParams) : string := if (rp_Reward p =? 1)%Z then Rewarded else Interstitial.
Definition no_close_button : string * json := ("allowscustomclosebutton"%string, JBool false).
(** The currencies and the extension of the request are not sent. *)
Definition clear_cur_ext (r : BidRequest) : BidRequest := req_set_Ext (req_set_Cur r []) RawNil.

(** [taurusx], whose ids come from [SkanList]. *)
Definition taurusx_Builder (endpoint : string) (x : AdapterXAPI) : adapter :=
  mkAdapter endpoint {["us_east" := xa_EndpointUSEast x; "jp" := xa_EndpointJP x; "sg" := xa_EndpointSG x]}%string.
Definition taurusx (skanIDList : gset string) : Dsp :=
  mkDsp "taurusx" RewardParams dec_reward_params rp_Region rp_SKADN rp_MRAID reward_placement
    (fun p => Some (JObj [("rewarded"%string, enc_int (rp_Reward p))]))
    (fun p => JObj [("rewarded"%string, enc_int (rp_Reward p)); no_close_button])
    (fun _ => []) skanIDList true id id (fun _ _ id => id).

(** [liftoff]. *)
Record LiftoffParams := mkLiftoffParams {
  lp_Width : Z; lp_Height : Z; lp_Skip : Z; lp_SkipDelay : Z; lp_Region : string; lp_SKADN : bool; lp_MRAID : bool }.
Definition dec_liftoff_video : decoder (Z * Z * Z * Z) := dec_struct (fun kvs =>
  width ← dec_field dec_int 0%Z "width" kvs;
  height ← dec_field dec_int 0%Z "height" kvs;
  skip ← dec_field dec_int 0%Z "skip" kvs;
  skipdelay ← dec_field dec_int 0%Z "skipdelay" kvs;
  Some (width, height, skip, skipdelay)).
Definition dec_liftoff_params : decoder LiftoffParams := dec_struct (fun kvs =>
  '(width, height, skip, skipdelay) ← dec_field dec_liftoff_video (0, 0, 0, 0)%Z "video" kvs;
  region ← dec_field dec_string ""%string "region" kvs;
  skadn ← dec_field dec_bool false "skadn_supported" kvs;
  mraid ← dec_field dec_bool false "mraid_supported" kvs;
  Some (mkLiftoffParams width height skip skipdelay region skadn mraid)).
Definition liftoff_Builder (endpoint : string) (x : AdapterXAPI) : adapter :=
  mkAdapter endpoint {["us_east" := xa_EndpointUSEast x; "eu" := xa_EndpointEU x; "apac" := xa_EndpointAPAC x]}%string.
Definition liftoff_placement (p : LiftoffParams) : string := if (lp_Skip p =? 0)%Z then Rewarded else Interstitial.
Definition liftoff_app_ext (r : BidRequest) : BidRequest :=
  match req_App r with
  | Some app => req_set_App r (Some (app_set_Ext app (RawJson (JObj [("appstoreid"%string, JStr (app_Bundle app))]))))
  | None => r
  end.
Definition liftoff : Dsp :=
  mkDsp "liftoff" LiftoffParams dec_liftoff_params lp_Region lp_SKADN lp_MRAID liftoff_placement
    (fun p => Some (JObj [("placementtype"%string, JStr (liftoff_placement p));
                          ("orientation"%string, JStr (if (lp_Width p <? lp_Height p)%Z then "v" else "h"));
                          ("skip"%string, enc_int (lp_Skip p)); ("skipdelay"%string, enc_int (lp_SkipDelay p))]))
    (fun p => JObj [("placementtype"%string, JStr (liftoff_placement p)); no_close_button])
    (fun p => [("rewarded"%string, enc_int (if lp_Skip p =? 0 then 1 else 0)%Z)])
    {["7ug5zh24hu.skadnetwork"%string]} true liftoff_app_ext clear_cur_ext
    (fun bidID _ id => if GoStr.eqb id "0" then bidID else id).

(** [moloco] and [molococloud]. *)
Record MolocoParams := mkMolocoParams { mp_PlacementType : string; mp_Region : string; mp_SKADN : bool; mp_MRAID : bool }.
Definition dec_moloco_params : decoder MolocoParams := dec_struct (fun kvs =>
  placementtype ← dec_field dec_string ""%string "placementtype" kvs;
  region ← dec_field dec_string ""%string "region" kvs;
  skadn ← dec_field dec_bool false "skadn_supported" kvs;
  mraid ← dec_field dec_bool false "mraid_supported" kvs;
  Some (mkMolocoParams placementtype region skadn mraid)).
Definition moloco_Builder (endpoint : string) (x : AdapterXAPI) : adapter :=
  mkAdapter endpoint {["us_east" := xa_EndpointUSEast x; "eu" := xa_EndpointEU x; "apac" := xa_EndpointAPAC x]}%string.
Definition moloco_placement (p : MolocoParams) : string := if GoStr.eqb (mp_PlacementType p) Rewarded then Rewarded else Interstitial.
Definition moloco_bid_id (bidID respID id : string) : string :=
  if GoStr.eqb id "1" then if negb (GoStr.is_empty bidID) then bidID else if negb (GoStr.is_empty respID) then respID else id
  else id.
Definition moloco_video_ext (p : MolocoParams) : option json := Some (JObj [("placementtype"%string, JStr (moloco_placement p))]).
Definition moloco_banner_ext (p : MolocoParams) : json := JObj [("placementtype"%string, JStr (moloco_placement p)); no_close_button].
Definition moloco : Dsp :=
  mkDsp "moloco" MolocoParams dec_moloco_params mp_Region mp_SKADN mp_MRAID moloco_placement moloco_video_ext moloco_banner_ext
    (fun _ => []) {["9t245vhmpl.skadnetwork"%string]} true id clear_cur_ext moloco_bid_id.
Definition molococloud : Dsp :=
  mkDsp "molococloud" MolocoParams dec_moloco_params mp_Region mp_SKADN mp_MRAID moloco_placement moloco_video_ext moloco_banner_ext
    (fun _ => []) {["9t245vhmpl.skadnetwork"%string]} false id clear_cur_ext moloco_bid_id.

(** [crossinstall]. *)
Definition crossinstall_Builder (endpoint : string) (x : AdapterXAPI) : adapter :=
  mkAdapter endpoint {["us_east" := xa_EndpointUSEast x; "us_west" := xa_EndpointUSWest x]}%string.
Definition crossinstall : Dsp :=
  mkDsp "crossinstall" RewardParams dec_reward_params rp_Region rp_SKADN rp_MRAID reward_placement (fun _ => None)
    (fun p => JObj [("placementtype"%string, JStr (reward_placement p)); no_close_button])
    (fun p => [("reward"%string, enc_int (rp_Reward p))]) {["prcb7njmu6.skadnetwork"%string]} true id id (fun _ _ id => id).

(** The methods of the others, which are those above with their parts. *)
Definition liftoff_MakeRequests := @MakeRequests liftoff.
Definition liftoff_MakeBids := @MakeBids liftoff.
Definition moloco_MakeRequests := @MakeRequests moloco.
Definition moloco_MakeBids := @MakeBids moloco.
Definition molococloud_MakeRequests := @MakeRequests molococloud.
Definition molococloud_MakeBids := @MakeBids molococloud.
Definition crossinstall_MakeRequests := @MakeRequests crossinstall.
Definition crossinstall_MakeBids := @MakeBids crossinstall.

(** ** Facts *)
(** What the loop relies on: what is done to the request does not depend on
    the imps, and doing it again changes nothing. *)
Class DspOk (d : Dsp) : Prop := {
  dsp_reinit_Imp r imps : dsp_reinit (req_set_Imp (dsp_reinit r) imps) = dsp_reinit (req_set_Imp r imps);
  dsp_reinit_keeps r : req_Imp (dsp_reinit r) = req_Imp r }.
Lemma req_set_Imp_Imp r imps imps' : req_set_Imp (req_set_Imp r imps') imps = req_set_Imp r imps.
Proof. by destruct r. Qed.
#[export] Instance taurusx_ok ids : DspOk (taurusx ids).
Proof. by split. Qed.
#[export] Instance liftoff_ok : DspOk liftoff.
Proof. by split; destruct r. Qed.
#[export] Instance moloco_ok : DspOk moloco.
Proof. by split; destruct r. Qed.
#[export] Instance molococloud_ok : DspOk molococloud.
Proof. by split; destruct r. Qed.
#[export] Instance crossinstall_ok : DspOk crossinstall.
Proof. by split. Qed.

(** The members of an extension that is told some ids of those an imp offers:
    the versions and the app are the publisher's. *)
Definition text_member (name text : string) : list (string * json) :=
  match text with EmptyString => [] | _ => [(name, JStr text)] end.
Definition skan_members (offer : SKADN) (ids : list string) : list (string * json) :=
  text_member "version" (sk_Version offer) ++
  match sk_Versions offer with [] => [] | versions => [("versions"%string, JArr (JStr <$> versions))] end ++
  text_member "sourceapp" (sk_SourceApp offer) ++
  match ids with [] => [] | _ => [("skadnetids"%string, JArr (JStr <$> ids))] end.
Lemma enc_SKADN_members s : enc_SKADN s = JObj (skan_members s (sk_SKADNetIDs s)).
Proof. by destruct s as [v vs a ids]; destruct v, vs, a, ids. Qed.

Section Facts.
Context {d : Dsp} {HD : DspOk d}.
Context (MarshalRequest : BidRequest -> string + error).

(** The ids that are told: those offered that the bidder is known by, when
    the publisher supports SKAdNetwork. *)
Definition told (params : dsp_Params) (prebid : option ExtImpPrebid) : list string :=
  match prebid with
  | Some p => if dsp_SKADNSupported params then filter (fun id => to_lower id ∈ dsp_SKADNetIDs) (sk_SKADNetIDs (ip_SKADN p)) else []
  | None => []
  end.
Definition told_members (params : dsp_Params) (prebid : option ExtImpPrebid) : list (string * json) :=
  match prebid, told params prebid with
  | Some p, (_ :: _) as ids => [("skadn"%string, JObj (skan_members (ip_SKADN p) ids))]
  | _, _ => []
  end.
(** The publisher's imp, with the bidder's extensions: the banner only to a
    bidder that takes MRAID. *)
Definition imp_for (params : dsp_Params) (prebid : option ExtImpPrebid) (imp : Imp) : Imp :=
  mkImp (imp_ID imp) (imp_Metric imp)
    (match imp_Banner imp with
     | Some b => if dsp_MRAIDSupported params
                 then Some (mkBanner (ban_Format b) (ban_W b) (ban_H b) (ban_WMax b) (ban_HMax b) (ban_WMin b) (ban_HMin b)
                              (RawJson (dsp_bannerExt params)))
                 else None
     | None => None
     end)
    (match imp_Video imp with
     | Some v => Some (mkVideo (vid_MIMEs v) (vid_MinDuration v) (vid_MaxDuration v) (vid_Protocols v) (vid_W v) (vid_H v)
                         (vid_MinBitRate v) (vid_MaxBitRate v)
                         (match dsp_videoExt params with Some ext => RawJson ext | None => vid_Ext v end))
     | None => None
     end)
    (imp_Audio imp) (imp_Native imp) (imp_PMP imp) (imp_DisplayManager imp) (imp_DisplayManagerVer imp) (imp_Instl imp)
    (imp_TagID imp) (imp_BidFloor imp) (imp_BidFloorCur imp) (imp_ClickBrowser imp) (imp_Secure imp) (imp_IframeBuster imp)
    (imp_Exp imp) (RawJson (JObj (dsp_impExt params ++ told_members params prebid))).
(** A request with one imp. *)
Definition only_imp (r : BidRequest) (imp : Imp) : BidRequest :=
  mkBidRequest (req_ID r) [imp] (req_Site r) (req_App r) (req_Device r) (req_User r) (req_Test r) (req_AT r) (req_TMax r) (req_Cur r)
    (req_BCat r) (req_BAdv r) (req_Source r) (req_Regs r) (req_Ext r).

(** What the adapter reads in an imp, or the error that it cannot. *)
Definition reads (imp : Imp) (params : dsp_Params) (prebid : option ExtImpPrebid) : Prop :=
  exists bidder, unmarshal dec_imp_bidder (imp_Ext imp) = inl (mkImpBidder prebid bidder) /\ unmarshal dsp_dec bidder = inl params.
Definition unreadable (imp : Imp) (err : error) : Prop :=
  exists e, err = EBadInput (error_string e) /\
    (unmarshal dec_imp_bidder (imp_Ext imp) = inr e \/
     exists prebid bidder, unmarshal dec_imp_bidder (imp_Ext imp) = inl (mkImpBidder prebid bidder) /\ unmarshal dsp_dec bidder = inr e).

(** What one imp of a request becomes: a request or an error. *)
Definition becomes (a : adapter) (request : BidRequest) (imp : Imp) (answer : RequestData + error) : Prop :=
  match answer with
  | inl data => exists params prebid body, reads imp params prebid /\
      MarshalRequest (dsp_reinit (only_imp (dsp_start request) (imp_for params prebid imp))) = inl body /\
      data = mkRequestData "POST"
        (match ad_SupportedRegions a !! dsp_Region params with Some endpoint => endpoint | None => ad_endpoint a end) body
        (Some {["Content-Type" := ["application/json;charset=utf-8"]; "Accept" := ["application/json"];
                "User-Agent" := ["prebid-server/1.0"]]}%string)
        (mkTapjoyData dsp_Name (dsp_placementType params) (dsp_Region params) (dsp_SKADNSupported params)
           (dsp_reports_skan && bool_decide (told params prebid <> [])) (dsp_MRAIDSupported params))
  | inr err => unreadable imp err \/ exists params prebid, reads imp params prebid /\
      MarshalRequest (dsp_reinit (only_imp (dsp_start request) (imp_for params prebid imp))) = inr err
  end.

Lemma sent_skadn_told params prebid :
  sent_skadn params prebid = match prebid, told params prebid with
                             | Some p, (_ :: _) as ids => Some (mkSKADN (sk_Version (ip_SKADN p)) (sk_Versions (ip_SKADN p))
                                                                  (sk_SourceApp (ip_SKADN p)) ids)
                             | _, _ => None
                             end.
Proof.
  unfold sent_skadn, told. destruct prebid as [p|], (dsp_SKADNSupported params); try done. cbn. unfold filterArrayWithMap.
  by destruct (filter _ _).
Qed.
Lemma imp_ext_members params prebid : imp_ext params (sent_skadn params prebid) = JObj (dsp_impExt params ++ told_members params prebid).
Proof.
  unfold imp_ext, told_members. rw sent_skadn_told. destruct prebid as [p|]; [|done]. destruct (told _ _); [done|]. by rw enc_SKADN_members.
Qed.
Lemma prepare_spec imp :
  match prepare imp with
  | inl p => exists prebid, reads imp (pr_params p) prebid /\ pr_imp p = imp_for (pr_params p) prebid imp /\
             pr_skanSent p = bool_decide (told (pr_params p) prebid <> [])
  | inr err => unreadable imp err
  end.
Proof.
  unfold prepare. destruct (unmarshal dec_imp_bidder (imp_Ext imp)) as [[prebid bidder]|e] eqn:Eu; [|by exists e; split; [|left]].
  cbn [ib_Bidder ib_Prebid]. destruct (unmarshal dsp_dec bidder) as [params|e] eqn:Ep.
  2: { exists e. split; [done|]. right. by exists prebid, bidder. }
  exists prebid. cbn [pr_imp pr_params pr_skanSent]. split_and!; [by exists bidder|..].
  - rw imp_ext_members. unfold imp_for, with_banner_ext, with_video_ext. destruct imp as [? ? b v]. cbn.
    by destruct v as [ [] |], (dsp_videoExt params), b as [ [] |], (dsp_MRAIDSupported params).
  - rw sent_skadn_told. destruct prebid as [p|]; [|done]. destruct (told params (Some p)); [done|].
    by rw !bool_decide_eq_true_2; [..|by eexists].
Qed.

Definition left_of {A B} (s : A + B) : option A := match s with inl a => Some a | inr _ => None end.
Definition right_of {A B} (s : A + B) : option B := match s with inl _ => None | inr b => Some b end.
Lemma imp_loop_spec a request imps r : (r = dsp_start request \/ exists imps', r = dsp_reinit (req_set_Imp (dsp_start request) imps')) ->
  exists r' answers, imp_loop MarshalRequest a imps r = (r', omap left_of answers, omap right_of answers) /\
    Forall2 (becomes a request) imps answers.
Proof.
  revert r. induction imps as [|imp imps IH]; intros r Hr; [by exists r, []|]. cbn [imp_loop].
  pose proof (prepare_spec imp) as Hp. destruct (prepare imp) as [p|err].
  2: { destruct (IH r Hr) as (r' & answers & -> & Hall). exists r', (inr err :: answers). split; [done|]. constructor; [by left|done]. }
  destruct Hp as (prebid & Hreads & Himp & Hsent).
  assert (dsp_reinit (req_set_Imp r [pr_imp p]) = dsp_reinit (only_imp (dsp_start request) (imp_for (pr_params p) prebid imp))) as Hreq.
  { rw Himp. transitivity (dsp_reinit (req_set_Imp (dsp_start request) [imp_for (pr_params p) prebid imp])); [|by destruct (dsp_start request)].
    destruct Hr as [->|[imps' ->]]; [done|]. rw dsp_reinit_Imp. by rw req_set_Imp_Imp. }
  destruct (IH (dsp_reinit (req_set_Imp r [pr_imp p]))) as (r' & answers & -> & Hall).
  { right. destruct Hr as [->|[imps' ->]]; [by eexists|]. exists [pr_imp p]. rw dsp_reinit_Imp. by rw req_set_Imp_Imp. }
  rw Hreq. destruct (MarshalRequest _) as [body|err] eqn:Em.
  - exists r', (inl (request_data a p body) :: answers). split; [done|]. constructor; [|done].
    exists (pr_params p), prebid, body. split_and!; [done|done|]. unfold request_data. rw Hsent. by destruct (_ !! _).
  - exists r', (inr err :: answers). split; [done|]. constructor; [|done]. right. by exists (pr_params p), prebid.
Qed.

(** C18: what the server of a mobile bidder is sent.  Every imp, on its own and
    in order, becomes one request or one error, whatever the imps before it.
    The request goes to the endpoint of the region asked for or else to the
    default one, and its only imp is the publisher's with nothing changed but
    the extensions: those of the banner and the video are the bidder's (the
    banner is sent only to a bidder that takes MRAID), and that of the imp has
    the bidder's members and, if the publisher supports SKAdNetwork, the ids
    the publisher offered and the bidder is known by. *)
Theorem dsp_requests_faithful a request :
  exists request' answers,
    MakeRequests MarshalRequest a request = (request', omap left_of answers, omap right_of answers) /\
    Forall2 (becomes a request) (req_Imp request) answers.
Proof. apply (imp_loop_spec a request (req_Imp request) (dsp_start request)). by left. Qed.
End Facts.

(** ** The bids *)
Section Bids.
Context {d : Dsp}.
Context (UnmarshalRequest : string -> BidRequest + error) (UnmarshalResponse : string -> ServerResponse + error).

Definition priced (b : Bid) : bool := negb (F64.eqb (bid_Price b) F64.zero).
(** A bid as the loop leaves it in its variable. *)
Definition left_in (resp : ServerResponse) (b : Bid) : Bid :=
  if priced b then bid_set_ID b (dsp_bid_id (sr_BidID resp) (sr_ID resp) (bid_ID b)) else b.
Definition entries (bidType : string) (q : loc) (bids : list Bid) : list TypedBid :=
  replicate (length (List.filter priced bids)) (mkTypedBid (Some q) bidType None 0).

Lemma bid_loop_spec resp ty q bids st st' l : bid_loop resp ty q bids st = (st', l) ->
  l = entries ty q bids /\ st_pbs st' = st_pbs st /\ (forall q', q' <> q -> st_bid st' !! q' = st_bid st !! q') /\
  st_bid st' !! q = match list.last bids with Some b => Some (left_in resp b) | None => st_bid st !! q end.
Proof.
  revert st st' l. induction bids as [|b bids IH]; intros st st' l; cbn [bid_loop]; [by intros [= <- <-]|].
  unfold entries. cbn [List.filter]. unfold priced at 1. rw last_cons.
  assert (forall x st1 l1, bid_loop resp ty q bids (put_bid st q x) = (st1, l1) -> x = left_in resp b ->
    l1 = entries ty q bids /\ st_pbs st1 = st_pbs st /\ (forall q', q' <> q -> st_bid st1 !! q' = st_bid st !! q') /\
    st_bid st1 !! q = match list.last bids with Some b => Some (left_in resp b) | None => Some (left_in resp b) end) as Hrest.
  { intros x st1 l1 Hl Hx. destruct (IH _ _ _ Hl) as (-> & Hp & Ho & Hq). split_and!; [done|done| |].
    - intros q' Hne. rw (Ho q' Hne). cbn. by rw lookup_insert_ne.
    - rw Hq. destruct (list.last bids); [done|]. cbn. by rw lookup_insert_eq Hx. }
  assert (left_in resp b = if F64.eqb (bid_Price b) F64.zero then b else
            bid_set_ID b (dsp_bid_id (sr_BidID resp) (sr_ID resp) (bid_ID b))) as Hb by (unfold left_in, priced; by destruct (F64.eqb _ _)).
  destruct (F64.eqb (bid_Price b) F64.zero); cbn [negb length replicate].
  - intros Hl. destruct (Hrest _ _ _ Hl (eq_sym Hb)) as (-> & ? & ? & Hq). split_and!; [done|done|done|]. rw Hq. by destruct (list.last bids).
  - destruct (bid_loop resp ty q bids _) as [st1 l1] eqn:El. intros [= <- <-].
    destruct (Hrest _ _ _ El (eq_sym Hb)) as (-> & ? & ? & Hq). split_and!; [done|done|done|]. rw Hq. by destruct (list.last bids).
Qed.

(** The seats that have bids. *)
Definition full_seats (seats : list (list Bid)) : list (list Bid) := filter (fun bids => bids <> []) seats.
Lemma seat_loop_spec resp ty seats st st' l : seat_loop resp ty seats st = (st', l) ->
  exists qs, NoDup qs /\ Forall (fun q => st_bid st !! q = None) qs /\
    l = concat (zip_with (entries ty) qs (full_seats seats)) /\
    Forall2 (fun q bids => st_bid st' !! q = left_in resp <$> list.last bids) qs (full_seats seats) /\
    forall q, q ∉ qs -> st_bid st' !! q = st_bid st !! q.
Proof.
  revert st st' l. induction seats as [|bids seats IH]; intros st st' l; cbn [seat_loop].
  { intros [= <- <-]. exists []. by split_and!; [constructor|constructor|..|constructor|]. }
  set (q := fresh (dom (st_bid st))). assert (st_bid st !! q = None) as Hq by apply not_elem_of_dom, is_fresh.
  destruct (bid_loop resp ty q bids st) as [st1 l1] eqn:Eb. destruct (seat_loop resp ty seats st1) as [st2 l2] eqn:Es. intros [= <- <-].
  apply bid_loop_spec in Eb as (-> & _ & Ho & Hl). destruct (IH _ _ _ Es) as (qs & Hnd & Hf & -> & Hall & Hout).
  unfold full_seats. rw filter_cons. destruct bids as [|b bids]; (case_decide; [|try done]); [done|..].
  - cbn in Hl.
    assert (forall q', st_bid st1 !! q' = st_bid st !! q') as Hsame by (intros q'; destruct (decide (q' = q)) as [->|?]; [done|by apply Ho]).
    exists qs. setoid_rewrite <- Hsame. by split_and!.
  - assert (exists b', list.last (b :: bids) = Some b') as [b' Hb'] by (rw last_cons; destruct (list.last bids); by eexists).
    rw Hb' in Hl. assert (q ∉ qs) as Hqs.
    { intros Hin. rw list.Forall_forall in Hf. specialize (Hf q Hin). rw Hl in Hf. done. }
    exists (q :: qs). split_and!; [by apply list.NoDup_cons| |done| |].
    + constructor; [done|]. rw list.Forall_forall. intros q' Hin. rw list.Forall_forall in Hf. specialize (Hf q' Hin).
      rw Ho // in Hf. by intros ->.
    + constructor; [|done]. by rw (Hout q Hqs) Hl Hb'.
    + intros q' [Hne Hin]%not_elem_of_cons. rw (Hout q' Hin). by apply Ho.
Qed.

(** C22: the answer of a mobile bidder's server.  204 is no bids, 400 the error of a
    bad request, any other status but 200 that of a bad response, and so is a
    body that is not a bid response.  Otherwise there is one entry for every
    bid with a price, of the type of the imp that was sent - but all entries
    of a seat are one object, the seat's last bid: the others are lost. *)
Theorem dsp_bids_shared req imp rest resp st :
  (exists r, UnmarshalRequest (rd_Body req) = inl r /\ req_Imp r = imp :: rest) ->
  exists answer errs st', MakeBids UnmarshalRequest UnmarshalResponse req resp st = Some (answer, errs, st') /\
    match rs_StatusCode resp, UnmarshalResponse (rs_Body resp) with
    | 204%Z, _ => answer = None /\ errs = [] /\ st' = st
    | 200%Z, inl bidResp =>
        let seats := full_seats (sr_SeatBid bidResp) in
        let ty := if bool_decide (is_Some (imp_Video imp)) then BidType.Video else BidType.Banner in
        errs = [] /\ (answer = None <-> sr_SeatBid bidResp = []) /\
        exists qs, NoDup qs /\ Forall (fun q => st_bid st !! q = None) qs /\
          br_Bids (default (mkBidderResponse "" []) answer) = concat (zip_with (entries ty) qs seats) /\
          Forall2 (fun q bids => st_bid st' !! q = left_in bidResp <$> list.last bids) qs seats /\
          forall q, q ∉ qs -> st_bid st' !! q = st_bid st !! q
    | status, _ => answer = None /\ st' = st /\ exists msg, errs = [if (status =? 400)%Z then EBadInput msg else EBadServerResponse msg]
    end.
Proof.
  intros (r & Hr & Himp). unfold MakeBids. rw Hr Himp. cbn [head mbind option_bind].
  destruct (Z.eqb_spec (rs_StatusCode resp) 204) as [->|H204]; [eexists _, _, _; by split|].
  destruct (Z.eqb_spec (rs_StatusCode resp) 400) as [->|H400].
  { eexists _, _, _. split; [done|]. split_and!; [done|done|by eexists]. }
  destruct (Z.eqb_spec (rs_StatusCode resp) 200) as [->|H200]; cbn [negb].
  2: { eexists _, _, _. split; [done|]. apply Z.eqb_neq in H400 as H4.
       repeat (case_match; try congruence); split_and!; try done; cbn in *; by eexists. }
  destruct (UnmarshalResponse (rs_Body resp)) as [bidResp|err]; [|eexists _, _, _; split; [done|]; split_and!; [done|done|by eexists]].
  destruct (sr_SeatBid bidResp) as [|s ss] eqn:Es.
  { eexists _, _, _. split; [done|]. split; [done|]. split; [done|]. exists []. by split_and!; [constructor|constructor|..|constructor|]. }
  set (ty := match imp_Video imp with Some _ => _ | None => _ end).
  assert (ty = if bool_decide (is_Some (imp_Video imp)) then BidType.Video else BidType.Banner) as Hty
    by (subst ty; destruct (imp_Video imp); [by rw bool_decide_eq_true_2|by rw bool_decide_eq_false_2; [intros [? ?]|]]).
  destruct (seat_loop bidResp ty (s :: ss) st) as [st' l] eqn:El. eexists _, _, _. split; [done|]. split; [done|]. split; [done|].
  destruct (seat_loop_spec _ _ _ _ _ _ El) as (qs & Hnd & Hf & -> & Hall & Hout). exists qs. by rw -Hty.
Qed.
End Bids.

(** ** Concrete runs *)
Definition demo_imp (id : string) (ids : list string) : Imp :=
  imp_set_Video
    (simpleImp id (RawJson (JObj [
       ("prebid"%string, JObj [("skadn"%string, JObj [("version"%string, JStr "2.0"); ("skadnetids"%string, enc_list JStr ids)])]);
       ("bidder"%string, JObj [("reward"%string, JNum "1"); ("region"%string, JStr "jp"); ("skadn_supported"%string, JBool true)])])))
    (Some (mkVideo [] 0 0 [] 0 0 0 0 RawNil)).
Definition demo_dsp_request : BidRequest :=
  req_set_Cur (req_set_Imp emptyBidRequest [demo_imp "i1" ["A.skadnetwork"; "b.skadnetwork"]; simpleImp "i2" RawNil]) ["EUR"%string].
(** The text of a request is the id of its imp. *)
Definition demo_marshal (r : BidRequest) : string + error :=
  match req_Imp r with imp :: _ => inl (imp_ID imp) | [] => inr (EPlain "no imp") end.
Definition demo_unmarshal (body : string) : BidRequest + error := inl (req_set_Imp emptyBidRequest [demo_imp body []]).
Definition demo_xapi : AdapterXAPI := mkXAPI "https://east" "" "" "" "https://jp" "".
Definition demo_ids : gset string := {["a.skadnetwork"%string]}.
Lemma dsp_requests_faithful_witness :
  exists request' answers data,
    @MakeRequests (taurusx demo_ids) demo_marshal (taurusx_Builder "https://any" demo_xapi) demo_dsp_request =
      (request', omap left_of answers, omap right_of answers) /\
    Forall2 (@becomes (taurusx demo_ids) demo_marshal (taurusx_Builder "https://any" demo_xapi) demo_dsp_request)
      (req_Imp demo_dsp_request) answers /\
    omap left_of answers = [data] /\ length (omap right_of answers) = 1 /\
    rd_Uri data = "https://jp"%string /\ td_SKAN_Sent (rd_TapjoyData data) = true.
Proof.
  destruct (@dsp_requests_faithful (taurusx demo_ids) (taurusx_ok demo_ids) demo_marshal (taurusx_Builder "https://any" demo_xapi)
    demo_dsp_request) as (request' & answers & Hm & Hall).
  eexists request', answers, _. split; [exact Hm|]. split; [exact Hall|].
  assert (Hl := f_equal (fun x => x.1.2) Hm). assert (Hr := f_equal (fun x => length x.2) Hm). cbn beta iota delta [fst snd] in Hl, Hr.
  rewrite <- Hl, <- Hr. split; [vm_compute; reflexivity|]. split; [vm_compute; reflexivity|]. split; reflexivity.
Defined.
(** The imps of the adapters, on one imp for all. *)
Definition any_imp : Imp :=
  imp_set_Banner (imp_set_Ext (demo_imp "i1" []) (RawJson (JObj [
       ("prebid"%string, JObj [("skadn"%string, JObj [("version"%string, JStr "2.0");
          ("skadnetids"%string, enc_list JStr ["9T245vhmpl.skadnetwork"; "7ug5zh24hu.skadnetwork"; "prcb7njmu6.skadnetwork"]%string)])]);
       ("bidder"%string, JObj [("reward"%string, JNum "1"); ("placementtype"%string, JStr "rewarded"); ("skadn_supported"%string, JBool true);
          ("mraid_supported"%string, JBool true);
          ("video"%string, JObj [("width"%string, JNum "3"); ("height"%string, JNum "4"); ("skip"%string, JNum "0")])])])))
    (Some (mkBanner [mkFormat 300 250 0 0 0 RawNil] None None 0 0 0 0 RawNil)).
Definition extensions `{Dsp} (r : Prepared + error) : option (list RawMessage) :=
  match r with
  | inl p => Some (imp_Ext (pr_imp p) :: (match imp_Banner (pr_imp p) with Some b => [ban_Ext b] | None => [] end) ++
                   match imp_Video (pr_imp p) with Some v => [vid_Ext v] | None => [] end)
  | inr _ => None
  end.
Definition told_id (id : string) : string * json :=
  ("skadn"%string, JObj [("version"%string, JStr "2.0"); ("skadnetids"%string, JArr [JStr id])]).
Example extensions_sent :
  let closes := ("allowscustomclosebutton"%string, JBool false) in
  let rewarded := ("rewarded"%string, JNum "1") in
  let placement := ("placementtype"%string, JStr "rewarded") in
  extensions (@prepare (taurusx demo_ids) any_imp) =
    Some [RawJson (JObj []); RawJson (JObj [rewarded; closes]); RawJson (JObj [rewarded])] /\
  extensions (@prepare liftoff any_imp) =
    Some [RawJson (JObj [rewarded; told_id "7ug5zh24hu.skadnetwork"]); RawJson (JObj [placement; closes]);
          RawJson (JObj [placement; ("orientation"%string, JStr "v"); ("skip"%string, JNum "0"); ("skipdelay"%string, JNum "0")])] /\
  extensions (@prepare moloco any_imp) =
    Some [RawJson (JObj [told_id "9T245vhmpl.skadnetwork"]); RawJson (JObj [placement; closes]); RawJson (JObj [placement])] /\
  extensions (@prepare crossinstall any_imp) =
    Some [RawJson (JObj [("reward"%string, JNum "1"); told_id "prcb7njmu6.skadnetwork"]); RawJson (JObj [placement; closes]); RawNil].
Proof. by vm_compute. Qed.
Example demo_requests_run :
  let '(_, requestData, errs) := @MakeRequests (taurusx demo_ids) demo_marshal (taurusx_Builder "https://any" demo_xapi) demo_dsp_request in
  ((fun r => (rd_Uri r, rd_Body r, td_PlacementType (rd_TapjoyData r), td_SKAN_Sent (rd_TapjoyData r))) <$> requestData) =
    [("https://jp", "i1", "rewarded", true)]%string /\ length errs = 1.
Proof. vm_compute. by split. Qed.

Definition demo_server (_ : string) : ServerResponse + error :=
  inl (mkServerResponse "r1" [[simpleBid "b1" "i1" (F64.of_Z 1) "c1" ""; simpleBid "b2" "i1" (F64.of_Z 2) "c2" ""]] "").
Definition demo_req : RequestData := mkRequestData "POST" "https://jp" "i1" None noTapjoyData.
Lemma dsp_bids_shared_witness : exists answer st',
  @MakeBids (taurusx demo_ids) demo_unmarshal demo_server demo_req (mkResponseData 200 "" ∅) (mkStore ∅ ∅) = Some (Some answer, [], st') /\
  exists q, br_Bids answer = [mkTypedBid (Some q) BidType.Video None 0; mkTypedBid (Some q) BidType.Video None 0] /\
    bid_ID <$> st_bid st' !! q = Some "b2"%string.
Proof.
  destruct (@dsp_bids_shared (taurusx demo_ids) demo_unmarshal demo_server demo_req (demo_imp "i1" []) [] (mkResponseData 200 "" ∅)
    (mkStore ∅ ∅)) as (answer & errs & st' & Hm & Hr).
  - eexists. split; reflexivity.
  - cbn [rs_StatusCode rs_Body demo_server] in Hr. destruct Hr as (-> & Hnone & qs & _ & _ & Hbids & Hall & _).
    destruct answer as [answer|]; [|exfalso; assert (Hs := proj1 Hnone eq_refl); discriminate Hs].
    exists answer, st'. split; [exact Hm|]. inversion Hall as [|q bids qs' seats Hq Hrest Hqs Hseats]; subst.
    inversion Hrest; subst. exists q. split; [exact Hbids|]. rw Hq. reflexivity.
Defined.

(** The whole path of [Bidder.requestBid] for an answer of two bids of 1 and 2
    dollars to a request in euros, at half a euro for a dollar: the seat has
    the second bid twice, and its price was halved twice. *)
Definition half_rate : Conversions := Rates_Conv plain_iso (mkRates 0 (Some {["USD"%string := {["EUR"%string := F64.of_ratio 1 2]}]})).
Definition demo_dsp_bids (d : Dsp) (_ : BidRequest) (req : RequestData) (resp : option ResponseData) (st : Store) :
  option BidderResponse * list error * Store :=
  match resp with
  | Some resp => default (None, [], st) (@MakeBids d demo_unmarshal demo_server req resp st)
  | None => (None, [], st)
  end.
Definition demo_dsp_run (d : Dsp) : option (list error + BidState) :=
  requestBid (@MakeRequests d demo_marshal (taurusx_Builder "https://any" demo_xapi)) (demo_dsp_bids d)
    (fun _ => inr (EPlain "no markup")) (fun _ => ([], None)) (fun _ => inr (EPlain "no markup")) one half_rate no_debug
    (mkStore ∅ ∅) (req_set_Imp demo_dsp_request [demo_imp "i1" []]) ""
    [mkCallInfo demo_req (Some (mkResponseData 200 "" ∅)) None].
Definition seat_summary (r : option (list error + BidState)) : option (string * list (string * float64)) :=
  match r with
  | Some (inr s) => Some (sb_currency (bs_seat s),
      (fun p => let b := bid_of_store (bs_store s) p in (bid_ID b, bid_Price b)) <$> sb_bids (bs_seat s))
  | _ => None
  end.
Example shared_bids_converted_twice :
  seat_summary (demo_dsp_run (taurusx demo_ids)) = Some ("EUR"%string, [("b2"%string, F64.of_ratio 1 2); ("b2"%string, F64.of_ratio 1 2)]).
Proof. by vm_compute. Qed.
(** Moloco and liftoff clear the currencies in the request that the exchange
    goes on to use: a request in euros is answered in dollars. *)
Example currency_dropped :
  seat_summary (demo_dsp_run moloco) = Some ("USD"%string, [("b2"%string, F64.of_Z 2); ("b2"%string, F64.of_Z 2)]).
Proof. by vm_compute. Qed.
(** A region without a configured endpoint is asked at the empty address, not
    at the default one. *)
Example region_without_endpoint :
  let '(_, requestData, _) := @MakeRequests (taurusx demo_ids) demo_marshal (taurusx_Builder "https://any" (mkXAPI "" "" "" "" "" ""))
    demo_dsp_request in rd_Uri <$> requestData = [""%string].
Proof. by vm_compute. Qed.
(** An id that the bidder's list spells with a capital is never sent. *)
Example capital_id_never_sent :
  filterArrayWithMap ["B.skadnetwork"; "b.skadnetwork"]%string (extract ["B.skadnetwork"%string]) = [].
Proof. by vm_compute. Qed.
