(* ===== verification/Exchange.v ===== *)
(** * The exchange

    [exchange/exchange.go] with the request readers of [exchange/utils.go]:
    what an auction asks for, the gathering of the bidders' answers, and the
    response.

    The goroutines of [getAllBids] write only to bids of their own, so each is
    one step here; the order in which they finish is a list.  A panic in one
    is recovered and leaves an empty answer. *)

From S2P Require Import Prelude Float64 ErrorTypes Json OpenRTB PriceGranularity ExtRequest Currency.
From S2P Require Import Privacy Gdpr Auction Targeting Bidder Accounts ImpSplit BidderRequests Events Url.

(** ** Reading the request *)

(** [extractBidRequestExt]: a JSON null leaves a nil pointer. *)
Definition extractBidRequestExt (bidRequest : BidRequest) : option ExtRequestPrebid + error :=
  if raw_len0 (req_Ext bidRequest) then inl (Some emptyPrebid)
  else match unmarshal (dec_ptr dec_ext_request) (req_Ext bidRequest) with
       | inl ext => inl ext
       | inr err => inr (EPlain ("Error decoding Request.ext : " ⧺ error_string err))
       end.

Record extCacheInstructions := mkCacheInstructions {
  ci_cacheBids : bool; ci_cacheVAST : bool; ci_returnCreative : bool }.

Definition getExtCacheInstructions (requestExt : option ExtRequestPrebid) : extCacheInstructions :=
  match requestExt ≫= pre_Cache with
  | None => mkCacheInstructions false false true
  | Some c =>
      let returnCreative := true in
      let '(cacheBids, returnCreative, bidsRC) :=
        match cache_Bids c with
        | None => (false, returnCreative, None)
        | Some None => (true, returnCreative, None)
        | Some (Some rc) => (true, rc, Some rc)
        end in
      let '(cacheVAST, returnCreative, vastRC) :=
        match cache_VastXML c with
        | None => (false, returnCreative, None)
        | Some None => (true, returnCreative, None)
        | Some (Some rc) => (true, rc, Some rc)
        end in
      let returnCreative := match bidsRC, vastRC with
                            | Some b, Some v => b || v
                            | _, _ => returnCreative
                            end in
      mkCacheInstructions cacheBids cacheVAST returnCreative
  end.

Definition getExtTargetData (requestExt : option ExtRequestPrebid) (ci : extCacheInstructions) : option targetData :=
  match requestExt ≫= pre_Targeting with
  | None => None
  | Some t => Some (mkTargetData (tg_PriceGranularity t) (tg_IncludeWinners t) (tg_IncludeBidderKeys t)
                      (ci_cacheBids ci) (ci_cacheVAST ci) (tg_IncludeFormat t) (tg_PreferDeals t) "" "")
  end.
Definition td_set_cache (t : targetData) (host path : string) : targetData :=
  let 'mkTargetData pg iw ibk icb icv f pd _ _ := t in mkTargetData pg iw ibk icb icv f pd host path.

Definition getDebugInfo (bidRequest : BidRequest) (requestExt : option ExtRequestPrebid) : bool :=
  (req_Test bidRequest =? 1)%Z || match requestExt with Some e => pre_Debug e | None => false end.

Definition getExtBidAdjustmentFactors (requestExt : option ExtRequestPrebid) : gmap string float64 :=
  match requestExt with Some e => pre_BidAdjustmentFactors e | None => ∅ end.

Definition parseGDPRDefaultValue (gdprDefaultValue : Z) (privacyConfig : PrivacyConfig) (bidRequest : BidRequest) : Z :=
  let geo := match req_User bidRequest ≫= usr_Geo with
             | Some g => Some g
             | None => req_Device bidRequest ≫= dev_Geo
             end in
  match geo with
  | None => gdprDefaultValue
  | Some geo =>
      if bool_decide (GoStr.to_upper (geo_Country geo) ∈ pc_EEACountriesMap privacyConfig) then SignalYes
      else if bool_decide (GoStr.len (geo_Country geo) = 3) then SignalNo
      else gdprDefaultValue
  end.

Definition getAuctionCurrencyRates (ParseISO : string -> string + error) (rates : Conversions)
    (requestRates : option ExtRequestCurrency) : Conversions :=
  match requestRates with
  | None => rates
  | Some r =>
      let custom := Rates_Conv ParseISO (mkRates zero_time (flatten_maps (ec_ConversionRates r))) in
      let usePbsRates := default true (ec_UsePBSRates r) in
      if negb usePbsRates then custom
      else if bool_decide (map_to_list (default ∅ (ec_ConversionRates r)) = []) then rates
      else AggregateConversions_Conv custom rates
  end.

(** [randomizeList] for the permutation [perm] that [rand.Perm] draws; an
    index outside the list is a panic. *)
Definition swap_step (l : list string) (ij : nat * nat) : option (list string) :=
  match l !! ij.1, l !! ij.2 with
  | Some a, Some b => Some (<[ij.2 := a]> (<[ij.1 := b]> l))
  | _, _ => None
  end.
Definition randomizeList (perm : list nat) (l : list string) : option (list string) :=
  foldM swap_step (imap pair perm) l.
Definition listBiddersWithRequests (perm : list nat) (bidderRequests : list BidderRequest) : option (list string) :=
  randomizeList perm (bq_BidderName <$> bidderRequests).

(** ** Gathering the bids *)
Record seatResponseExtra := mkExtra {
  sx_ResponseTimeMillis : Z; sx_Errors : list ExtBidderMessage; sx_Warnings : list ExtBidderMessage;
  sx_HttpCalls : list ExtHttpCall }.
Definition emptyExtra : seatResponseExtra := mkExtra 0 [] [] [].
Record bidResponseWrapper := mkWrapper {
  w_adapterBids : option pbsOrtbSeatBid; w_adapterExtra : seatResponseExtra; w_bidder : string }.

Definition bidsToMetric (bids : option pbsOrtbSeatBid) : string :=
  match bids with
  | None => "nobid"
  | Some s => if bool_decide (length (sb_bids s) = 0) then "nobid" else "bid"
  end.
Definition error_metric (e : error) : string :=
  let code := ReadCode e in
  if (code =? Code.TimeoutErrorCode)%Z then "timeout"
  else if (code =? Code.BadInputErrorCode)%Z then "badinput"
  else if (code =? Code.BadServerResponseErrorCode)%Z then "badserverresponse"
  else if (code =? Code.FailedToRequestBidsErrorCode)%Z then "failedtorequestbid"
  else "unknown_error".
Definition errorsToMetric (errs : list error) : gset string := list_to_set (error_metric <$> errs).

(** What one bidder's goroutine ends with: a panic, or the result of
    [requestBid] and the time it took. *)
Inductive Outcome :=
  | Panicked
  | Done (bids : option pbsOrtbSeatBid) (errs : list error) (elapsedMillis : Z).

(** The message sent on the channel; [recoverSafely] sends one without a name. *)
Definition wrapper_of (no : string * Outcome) : bidResponseWrapper :=
  let '(bidder, o) := no in
  match o with
  | Panicked => mkWrapper None emptyExtra ""
  | Done bids errs ms =>
      mkWrapper bids (mkExtra ms (errsToBidderErrors errs) (errsToBidderWarnings errs)
                        (match bids with Some s => sb_httpCalls s | None => [] end)) bidder
  end.

Record Gathered := mkGathered {
  g_adapterBids : gmap string pbsOrtbSeatBid; g_adapterExtra : gmap string seatResponseExtra; g_bidsFound : bool }.
Definition has_bids (s : option pbsOrtbSeatBid) : bool :=
  match s with Some s => negb (bool_decide (length (sb_bids s) = 0)) | None => false end.
(** One message received. *)
Definition gather_step (g : Gathered) (brw : bidResponseWrapper) : Gathered :=
  let adapterBids := match w_adapterBids brw with
                     | Some s => if has_bids (Some s) then <[w_bidder brw := s]> (g_adapterBids g) else g_adapterBids g
                     | None => g_adapterBids g
                     end in
  mkGathered adapterBids (<[w_bidder brw := w_adapterExtra brw]> (g_adapterExtra g))
    (if negb (g_bidsFound g) && has_bids (adapterBids !! w_bidder brw) then true else g_bidsFound g).
Definition gather (l : list bidResponseWrapper) : Gathered := fold_left gather_step l (mkGathered ∅ ∅ false).

(** What the exchange knows of an adapter: its code, whether its
    configuration allows debugging, and the answers its server gives, in the
    order of their arrival, with the time the bidder took. *)
Record Adapter := mkAdapter {
  ad_MakeRequests : BidRequest -> BidRequest * list RequestData * list error;
  ad_MakeBids : BidRequest -> RequestData -> option ResponseData -> Store ->
                option BidderResponse * list error * Store;
  ad_allowsDebug : bool;
  ad_arrivals : BidRequest -> list httpCallInfo; ad_elapsed : Z }.

Section GetAllBids.
Context (ParseISO : string -> string + error).
Context (ParseMarkup : string -> option NativeMarkup + error).
Context (ParseNativeRequest : string -> list ReqAsset * option error).
Context (MarshalMarkup : NativeMarkup -> string + error).
Context (adapterMap : gmap string Adapter).
Context (bidAdjustments : gmap string float64) (conversions : Conversions).
Context (accountDebugAllowed contextDebug headerDebugAllowed : bool) (gpc : string).

(** The validated bidder: [requestBid], then the invalid bids are removed. *)
Definition validated_requestBid (a : Adapter) (adjustment : float64) (st : Store) (request : BidRequest) :
  option (Store * option pbsOrtbSeatBid * list error) :=
  match requestBid (ad_MakeRequests a) (ad_MakeBids a) ParseMarkup ParseNativeRequest MarshalMarkup adjustment
          conversions (mkDebugFlags headerDebugAllowed contextDebug accountDebugAllowed (ad_allowsDebug a))
          st request gpc (ad_arrivals a request) with
  | None => None
  | Some (inl errs) => Some (st, None, errs)
  | Some (inr s) =>
      let '(seat, errs) := removeInvalidBids ParseISO (bs_store s) (bs_request s) (Some (bs_seat s)) in
      Some (bs_store s, seat, bs_errs s ++ errs)
  end.

(** The goroutine of one bidder.  What a panicking one wrote before is not
    reachable from any answer. *)
Definition bidder_run (b : BidderRequest) (st : Store) : Store * Outcome :=
  match adapterMap !! bq_BidderCoreName b with
  | None => (st, Panicked)
  | Some a =>
      let adjustmentFactor := default one (bidAdjustments !! bq_BidderName b) in
      match validated_requestBid a adjustmentFactor st (bq_BidRequest b) with
      | None => (st, Panicked)
      | Some (st', bids, errs) =>
          let nil_bid := match bids with
                         | Some s => existsb (fun p => bool_decide (bid_at st' p = None)) (sb_bids s)
                         | None => false
                         end in
          if nil_bid then (st', Panicked) else (st', Done bids errs (ad_elapsed a))
      end
  end.

(** All the goroutines, in the order in which they finish. *)
Fixpoint run_all (finished : list BidderRequest) (st : Store) : Store * list (string * Outcome) :=
  match finished with
  | [] => (st, [])
  | b :: rest =>
      let '(st, o) := bidder_run b st in
      let '(st, l) := run_all rest st in
      (st, (bq_BidderName b, o) :: l)
  end.
Definition getAllBids (finished : list BidderRequest) (st : Store) : Store * Gathered :=
  let '(st, l) := run_all finished st in (st, gather (wrapper_of <$> l)).
End GetAllBids.

(** ** Gathering: facts *)
Definition non_empty_seat (s : pbsOrtbSeatBid) : Prop := sb_bids s <> [].
Lemma has_bids_spec s : has_bids (Some s) = true <-> non_empty_seat s.
Proof. rw /has_bids /non_empty_seat. destruct (sb_bids s); simpl; split; congruence. Qed.

Lemma gather_snoc l w : gather (l ++ [w]) = gather_step (gather l) w.
Proof. by rw /gather fold_left_app. Qed.

Section GatherFacts.
Implicit Types l : list (string * Outcome).

(** The message of a bidder carries its name, unless it panicked. *)
Lemma wrapper_name m o : m <> ""%string ->
  (w_bidder (wrapper_of (m, o)) = m /\ o <> Panicked) \/ (w_bidder (wrapper_of (m, o)) = ""%string /\ o = Panicked).
Proof. intros Hm. destruct o; [by right|by left]. Qed.

(** Two messages under one name are the same, or both of panics. *)
Lemma same_wrapper l m o m' o' : NoDup (l ++ [(m, o)]).*1 -> ""%string ∉ (l ++ [(m, o)]).*1 -> (m', o') ∈ l ->
  w_bidder (wrapper_of (m, o)) = w_bidder (wrapper_of (m', o')) -> o = Panicked /\ o' = Panicked.
Proof.
  rw fmap_app. intros [_ [Hd _]]%list.NoDup_app Hne Hin E.
  assert (m' ∈ l.*1) as Hm' by (apply list_elem_of_fmap; by exists (m', o')).
  assert (m <> ""%string) as Hm by (intros ->; apply Hne; set_solver).
  assert (m' <> ""%string) as Hm'' by (intros ->; apply Hne; set_solver).
  destruct (wrapper_name m o Hm) as [[E1 ?]|[E1 ?]], (wrapper_name m' o' Hm'') as [[E2 ?]|[E2 ?]];
    [|congruence|congruence|done].
  exfalso. apply (Hd m'); [done|]. rw E1 E2 in E. subst. by apply list_elem_of_singleton.
Qed.

Lemma gather_extra l n x : NoDup l.*1 -> ""%string ∉ l.*1 ->
  g_adapterExtra (gather (wrapper_of <$> l)) !! n = Some x <->
  exists m o, (m, o) ∈ l /\ w_bidder (wrapper_of (m, o)) = n /\ w_adapterExtra (wrapper_of (m, o)) = x.
Proof.
  induction l as [|[m o] l IH] using rev_ind; intros Hnd Hne.
  { rw /gather /= lookup_empty. split; [done|]. intros (? & ? & ?%not_elem_of_nil & _). done. }
  assert (NoDup l.*1) as Hnd' by (rw fmap_app in Hnd; by apply list.NoDup_app in Hnd as [? _]).
  assert (""%string ∉ l.*1) as Hne' by (rw fmap_app in Hne; set_solver).
  specialize (IH Hnd' Hne'). rw fmap_app gather_snoc. unfold gather_step at 1. cbn [g_adapterExtra].
  rw lookup_insert_Some. split.
  - intros [[E1 E2]|[_ (m' & o' & Hin & ? & ?)%IH]].
    + exists m, o. set_solver.
    + exists m', o'. split; [|done]. apply elem_of_app. by left.
  - intros (m' & o' & Hin & E1 & E2). apply elem_of_app in Hin as [Hin|Hin%list_elem_of_singleton].
    + destruct (decide (w_bidder (wrapper_of (m, o)) = n)) as [E|E].
      * left. split; [done|]. rw -E1 in E. destruct (same_wrapper l m o m' o' Hnd Hne Hin E) as [-> ->]. by rw -E2.
      * right. split; [done|]. apply IH. by exists m', o'.
    + left. by simplify_eq.
Qed.

Lemma gather_bids l n s : NoDup l.*1 ->
  g_adapterBids (gather (wrapper_of <$> l)) !! n = Some s <->
  exists errs ms, (n, Done (Some s) errs ms) ∈ l /\ non_empty_seat s.
Proof.
  induction l as [|[m o] l IH] using rev_ind; intros Hnd.
  { rw /gather /= lookup_empty. split; [done|]. intros (? & ? & ?%not_elem_of_nil & _). done. }
  rw fmap_app in Hnd. apply list.NoDup_app in Hnd as (Hnd & Hd & _). specialize (IH Hnd).
  rw fmap_app gather_snoc. unfold gather_step at 1. cbn [g_adapterBids].
  assert ((exists errs ms, (n, Done (Some s) errs ms) ∈ l ++ [(m, o)] /\ non_empty_seat s) <->
          (exists errs ms, (n, Done (Some s) errs ms) ∈ l /\ non_empty_seat s) \/
          exists errs ms, n = m /\ o = Done (Some s) errs ms /\ non_empty_seat s) as ->.
  { setoid_rewrite elem_of_app. setoid_rewrite list_elem_of_singleton. split.
    - intros (e & ms & [?|[= -> <-]] & ?); [left|right]; by exists e, ms.
    - intros [(e & ms & ? & ?)|(e & ms & -> & -> & ?)]; exists e, ms; auto. }
  rw -IH.
  destruct o as [|[s'|] e ms]; cbn [wrapper_of w_adapterBids w_bidder].
  - naive_solver.
  - destruct (has_bids (Some s')) eqn:Hs.
    + apply has_bids_spec in Hs. rw lookup_insert_Some. split.
      * intros [[-> ->]|[? ?]]; [right; by exists e, ms|by left].
      * intros [Hl|(? & ? & -> & [= -> -> ->] & _)]; [|by left].
        destruct (decide (m = n)) as [->|]; [|by right]. exfalso.
        apply IH in Hl as (? & ? & Hin & _). apply (Hd n); [|by apply list_elem_of_singleton].
        apply (list_elem_of_fmap_2 fst) in Hin. exact Hin.
    + split; [by left|]. intros [?|(? & ? & -> & [= -> -> ->] & Hne)]; [done|].
      apply has_bids_spec in Hne. by rw Hne in Hs.
  - naive_solver.
Qed.

(** The flag is set as soon as a bidder has bids. *)
Lemma gather_found (ws : list bidResponseWrapper) :
  map_Forall (fun _ s => has_bids (Some s) = true) (g_adapterBids (gather ws)) /\
  (g_bidsFound (gather ws) = true <-> g_adapterBids (gather ws) <> ∅).
Proof.
  induction ws as [|w ws [IHm IHf]] using rev_ind; [by split|].
  rw gather_snoc. destruct (gather ws) as [bids extra found]. cbn [g_adapterBids g_bidsFound] in *.
  unfold gather_step. cbn [g_adapterBids g_bidsFound].
  assert ((if negb found && has_bids (bids !! w_bidder w) then true else found) = true <-> bids <> ∅)
    as Hkeep.
  { rw -IHf. destruct found; [done|]. cbn [negb andb].
    destruct (bids !! w_bidder w) as [s'|] eqn:E; [|done]. split; [intros _|by destruct (has_bids _)].
    apply IHf. intros Hn. by rw Hn lookup_empty in E. }
  destruct (w_adapterBids w) as [s|]; [destruct (has_bids (Some s)) eqn:Hs|].
  - split; [by apply map_Forall_insert_2|]. rw lookup_insert_eq Hs andb_true_r.
    split; [intros _; apply insert_non_empty|by destruct found].
  - split; [done|]. exact Hkeep.
  - split; [done|]. exact Hkeep.
Qed.

(** The answers do not depend on the order in which the bidders finish. *)
Lemma gather_perm l l' : NoDup l.*1 -> ""%string ∉ l.*1 -> l ≡ₚ l' ->
  gather (wrapper_of <$> l) = gather (wrapper_of <$> l').
Proof.
  intros Hnd Hne Hp. assert (NoDup l'.*1) as Hnd' by by rw -Hp. assert (""%string ∉ l'.*1) as Hne' by by rw -Hp.
  assert (g_adapterBids (gather (wrapper_of <$> l)) = g_adapterBids (gather (wrapper_of <$> l'))) as Eb.
  { apply map_eq. intros n. apply option_eq. intros s. rw !gather_bids //. by setoid_rewrite Hp. }
  assert (g_adapterExtra (gather (wrapper_of <$> l)) = g_adapterExtra (gather (wrapper_of <$> l'))) as Ee.
  { apply map_eq. intros n. apply option_eq. intros x. rw !gather_extra //. by setoid_rewrite Hp. }
  destruct (gather_found (wrapper_of <$> l)) as [_ F], (gather_found (wrapper_of <$> l')) as [_ F'].
  rw -Eb in F'. destruct (gather (wrapper_of <$> l)), (gather (wrapper_of <$> l')). simpl in *. subst.
  f_equal. apply eq_true_iff_eq. by rw F F'.
Qed.
End GatherFacts.

Section AllBids.
Context (ParseISO : string -> string + error).
Context (ParseMarkup : string -> option NativeMarkup + error).
Context (ParseNativeRequest : string -> list ReqAsset * option error).
Context (MarshalMarkup : NativeMarkup -> string + error).
Context (adapterMap : gmap string Adapter).
Context (bidAdjustments : gmap string float64) (conversions : Conversions).
Context (accountDebugAllowed contextDebug headerDebugAllowed : bool) (gpc : string).
#[local] Abbreviation run := (run_all ParseISO ParseMarkup ParseNativeRequest MarshalMarkup adapterMap bidAdjustments
  conversions accountDebugAllowed contextDebug headerDebugAllowed gpc).

Lemma run_all_names finished st st' l : run finished st = (st', l) -> l.*1 = bq_BidderName <$> finished.
Proof.
  revert st st' l. induction finished as [|b rest IH]; intros st st' l; simpl; [by intros [= <- <-]|].
  destruct (bidder_run _ _ _ _ _ _ _ _ _ _ _ b st) as [st1 o].
  destruct (run rest st1) as [st2 l2] eqn:E. intros [= <- <-]. by rw fmap_cons (IH _ _ _ E).
Qed.

(** C16: what [getAllBids] gathers does not depend on the order in which the
    bidders finish: the seats are those of the bidders that answered with
    bids, every bidder that did not panic has its time and messages under
    its name, the panicked ones share one entry without a name, and bids
    were found exactly when some seat has bids. *)
Theorem all_bids_gathered finished st st' outcomes
    (Hrun : run finished st = (st', outcomes))
    (Hnd : NoDup (bq_BidderName <$> finished)) (Hne : ""%string ∉ bq_BidderName <$> finished) :
  let g := (getAllBids ParseISO ParseMarkup ParseNativeRequest MarshalMarkup adapterMap bidAdjustments conversions
              accountDebugAllowed contextDebug headerDebugAllowed gpc finished st).2 in
  (forall n s, g_adapterBids g !! n = Some s <->
     exists errs ms, (n, Done (Some s) errs ms) ∈ outcomes /\ non_empty_seat s) /\
  (forall n x, n <> ""%string -> g_adapterExtra g !! n = Some x <->
     exists bids errs ms, (n, Done bids errs ms) ∈ outcomes /\
       x = mkExtra ms (errsToBidderErrors errs) (errsToBidderWarnings errs)
             (match bids with Some s => sb_httpCalls s | None => [] end)) /\
  (is_Some (g_adapterExtra g !! ""%string) <-> exists n, (n, Panicked) ∈ outcomes) /\
  (g_bidsFound g = true <-> g_adapterBids g <> ∅) /\
  (forall order, outcomes ≡ₚ order -> gather (wrapper_of <$> order) = g).
Proof.
  intros g. assert (g = gather (wrapper_of <$> outcomes)) as -> by by rw /g /getAllBids Hrun.
  rw -(run_all_names _ _ _ _ Hrun) in Hnd Hne.
  split_and!.
  - intros n s. by apply gather_bids.
  - intros n x Hn. rw gather_extra //. split.
    + intros (m & [|bids errs ms] & Hin & E & <-); [by rw -E in Hn|]. simpl in E. subst m. by exists bids, errs, ms.
    + intros (bids & errs & ms & Hin & ->). by exists n, (Done bids errs ms).
  - split.
    + intros [x (m & o & Hin & E & _)%gather_extra]; [|done|done].
      destruct o as [|bids errs ms]; [by exists m|]. exfalso. simpl in E. subst m. apply Hne.
      apply (list_elem_of_fmap_2 fst) in Hin. exact Hin.
    + intros [n Hin]. exists emptyExtra. apply gather_extra; [done|done|]. by exists n, Panicked.
  - apply gather_found.
  - intros order Hp. symmetry. by apply gather_perm.
Qed.
End AllBids.

(** One bidder answers with a bid, another panics. *)
Definition demo_adapter : Adapter :=
  mkAdapter (fun r => (r, [mkRequestData "POST" "USD" "" None noTapjoyData], [])) demo_MakeBids true (fun _ => [demo_call "USD"]) 20.
Definition demo_bidder (name : string) : BidderRequest :=
  mkBidderRequest demo_request name name (mkAdapterLabels "" "" "" "" "" "").
Definition demo_finished : list BidderRequest := [demo_bidder "rubicon"; demo_bidder "appnexus"].
Definition demo_run :=
  run_all (fun s => inl s) (fun _ => inr (EPlain "no markup")) (fun _ => ([], None)) (fun _ => inr (EPlain "no markup"))
    {["appnexus"%string := demo_adapter]} ∅ demo_conv false false false "" demo_finished (mkStore ∅ ∅).

Lemma all_bids_gathered_witness :
  g_bidsFound (getAllBids (fun s => inl s) (fun _ => inr (EPlain "no markup")) (fun _ => ([], None))
    (fun _ => inr (EPlain "no markup")) {["appnexus"%string := demo_adapter]} ∅ demo_conv false false false ""
    demo_finished (mkStore ∅ ∅)).2 = true /\
  is_Some (g_adapterExtra (getAllBids (fun s => inl s) (fun _ => inr (EPlain "no markup")) (fun _ => ([], None))
    (fun _ => inr (EPlain "no markup")) {["appnexus"%string := demo_adapter]} ∅ demo_conv false false false ""
    demo_finished (mkStore ∅ ∅)).2 !! ""%string).
Proof.
  destruct demo_run as [st' outcomes] eqn:E.
  destruct (all_bids_gathered (fun s => inl s) (fun _ => inr (EPlain "no markup")) (fun _ => ([], None))
    (fun _ => inr (EPlain "no markup")) {["appnexus"%string := demo_adapter]} ∅ demo_conv false false false ""
    demo_finished (mkStore ∅ ∅) st' outcomes E) as (_ & _ & P & F & _).
  - apply (iffLR (bool_decide_eq_true (NoDup (bq_BidderName <$> demo_finished)))). by vm_compute.
  - apply (iffLR (bool_decide_eq_true (""%string ∉ bq_BidderName <$> demo_finished))). by vm_compute.
  - split.
    + vm_compute. reflexivity.
    + apply P. exists "rubicon"%string.
      vm_compute in E. injection E as _ <-. left.
Defined.
