(* ===== verification/Response.v ===== *)
(** * The bid response

    The response side of [exchange/exchange.go]: [makeExtBidResponse],
    [buildBidResponse], the extension of each bid, and the encoders of
    [openrtb_ext/response.go] and [openrtb_ext/bid.go].  The text of a float
    and the encoding of a whole OpenRTB request are parameters. *)

From S2P Require Import Prelude Float64 ErrorTypes Json Codec OpenRTB PriceGranularity ExtRequest Auction.
From S2P Require Import Currency Bidder ImpSplit BidderRequests Url Events Exchange.

(** ** [response.ext] *)
(** [ExtBidResponse]; its user syncs are never filled in. *)
Record ExtBidResponse := mkExtResponse {
  xr_Debug : option (gmap string (list ExtHttpCall) * BidRequest);
  xr_Errors : gmap string (list ExtBidderMessage);
  xr_Warnings : gmap string (list ExtBidderMessage);
  xr_ResponseTimeMillis : gmap string Z;
  xr_RequestTimeoutMillis : Z;
  xr_Prebid : option Z }.

Definition BidderReservedGeneral : string := "general".

(** The body of the loop over [adapterExtra]. *)
Definition extra_step (debugInfo : bool) (errList : list error) (x : ExtBidResponse)
    (ne : string * seatResponseExtra) : ExtBidResponse :=
  let '(bidderName, responseExtra) := ne in
  let debug := match xr_Debug x with
               | Some (calls, req) =>
                   if debugInfo && (0 <? length (sx_HttpCalls responseExtra))%nat
                   then Some (<[bidderName := sx_HttpCalls responseExtra]> calls, req) else Some (calls, req)
               | None => None
               end in
  let warnings := if (0 <? length (sx_Warnings responseExtra))%nat
                  then <[bidderName := sx_Warnings responseExtra]> (xr_Warnings x) else xr_Warnings x in
  let errors := if (0 <? length (sx_Errors responseExtra))%nat
                then <[bidderName := sx_Errors responseExtra]> (xr_Errors x) else xr_Errors x in
  let errors := if (0 <? length errList)%nat then <[PrebidExtKey := errsToBidderErrors errList]> errors else errors in
  mkExtResponse debug errors warnings (<[bidderName := sx_ResponseTimeMillis responseExtra]> (xr_ResponseTimeMillis x))
    (xr_RequestTimeoutMillis x) (xr_Prebid x).

(** The zero time, before the epoch; other times count nanoseconds. *)
Definition is_zero_time (t : Z) : bool := (t =? zero_time)%Z.

(** [makeExtBidResponse], the extras in the order of the iteration.  A nil
    error among [errList] panics, once there is an extra. *)
Definition makeExtBidResponse (order : list (string * seatResponseExtra)) (r : AuctionRequest) (debugInfo : bool)
    (errList : list (option error)) : option ExtBidResponse :=
  let init := mkExtResponse (if debugInfo then Some (∅, ar_BidRequest r) else None) ∅ ∅ ∅
    (req_TMax (ar_BidRequest r))
    (if is_zero_time (ar_StartTime r) then None else Some (unix_ms (ar_StartTime r))) in
  match order with
  | [] => Some init
  | _ =>
      match mapM id errList with
      | None => None
      | Some errList => Some (fold_left (extra_step debugInfo errList) order init)
      end
  end.

Section Encode.
(** [json.Marshal] of a request, [None] when it fails. *)
Context (enc_request : BidRequest -> option json).

Definition enc_message (m : ExtBidderMessage) : json :=
  JObj [("code"%string, enc_int (msg_Code m)); ("message"%string, JStr (msg_Message m))].
Definition enc_http_call (c : ExtHttpCall) : json :=
  JObj [("uri"%string, JStr (hc_Uri c)); ("requestbody"%string, JStr (hc_RequestBody c));
        ("requestheaders"%string, enc_ptr (enc_map (enc_list JStr)) (hc_RequestHeaders c));
        ("responsebody"%string, JStr (hc_ResponseBody c)); ("status"%string, enc_int (hc_Status c))].
Definition enc_debug (d : gmap string (list ExtHttpCall) * BidRequest) : option json :=
  resolved ← enc_request d.2;
  Some (JObj (omit_map "httpcalls" (enc_list enc_http_call) d.1 ++ [("resolvedrequest"%string, resolved)])).

(** [encodeBidResponseExt]: nothing is written when the encoding fails. *)
Definition enc_ext_response (x : ExtBidResponse) : option json :=
  debug ← match xr_Debug x with
          | None => Some []
          | Some d => j ← enc_debug d; Some [("debug"%string, j)]
          end;
  Some (JObj (debug ++
    omit_map "errors" (enc_list enc_message) (xr_Errors x) ++
    omit_map "warnings" (enc_list enc_message) (xr_Warnings x) ++
    omit_map "responsetimemillis" enc_int (xr_ResponseTimeMillis x) ++
    omitempty (xr_RequestTimeoutMillis x =? 0)%Z "tmaxrequest" (enc_int (xr_RequestTimeoutMillis x)) ++
    omit_ptr "prebid" (fun t => JObj (omitempty (t =? 0)%Z "auctiontimestamp" (enc_int t))) (xr_Prebid x))).
Definition encode_error : error := EPlain "json: error calling MarshalJSON".
Definition encodeBidResponseExt (x : ExtBidResponse) : RawMessage * option error :=
  match enc_ext_response x with
  | Some j => (RawJson j, None)
  | None => (RawNil, Some encode_error)
  end.

End Encode.

(** ** [bid.ext] *)
(** The key and URL of [ExtBidPrebidCache] are never set. *)
Record ExtBidPrebidCacheBids := mkCacheBids { cb_Url : string; cb_CacheId : string }.
Record ExtBidPrebid := mkBidPrebid {
  bp_Cache : option ExtBidPrebidCacheBids; bp_DealPriority : Z; bp_DealTierSatisfied : bool;
  bp_Targeting : gmap string string; bp_Type : string; bp_Video : option ExtBidPrebidVideo;
  bp_Events : option ExtBidPrebidEvents; bp_BidId : string }.

Definition enc_bid_cache (c : ExtBidPrebidCacheBids) : json :=
  JObj [("key"%string, JStr ""); ("url"%string, JStr "");
        ("bids"%string, JObj [("url"%string, JStr (cb_Url c)); ("cacheId"%string, JStr (cb_CacheId c))])].
Definition enc_bid_video (v : ExtBidPrebidVideo) : json :=
  JObj [("duration"%string, enc_int (bv_Duration v)); ("primary_category"%string, JStr (bv_PrimaryCategory v))].
Definition enc_bid_events (e : ExtBidPrebidEvents) : json :=
  JObj (enc_omit_str "win" (be_Win e) ++ enc_omit_str "imp" (be_Imp e)).
Definition enc_bid_prebid (p : ExtBidPrebid) : json :=
  JObj (omit_ptr "cache" enc_bid_cache (bp_Cache p) ++
        omitempty (bp_DealPriority p =? 0)%Z "dealpriority" (enc_int (bp_DealPriority p)) ++
        omitempty (negb (bp_DealTierSatisfied p)) "dealtiersatisfied" (JBool true) ++
        omit_map "targeting" JStr (bp_Targeting p) ++
        [("type"%string, JStr (bp_Type p))] ++
        omit_ptr "video" enc_bid_video (bp_Video p) ++
        omit_ptr "events" enc_bid_events (bp_Events p) ++
        enc_omit_str "bidid" (bp_BidId p)).

Record SeatBid := mkSeat { seat_Seat : string; seat_Bid : list Bid; seat_Group : Z }.
Definition NoBidReasonCodeInvalidRequest : Z := 2.
Record BidResponse := mkBidResponse {
  resp_ID : string; resp_SeatBid : list SeatBid; resp_Cur : string; resp_NBR : option Z; resp_Ext : RawMessage }.

Section Bids.
Context (float_text : float64 -> string).
(** [GetExtCacheData] of the cache client: scheme, host and path. *)
Context (extCacheData : string * string * string).

(** Decoding into an [interface{}] and encoding the result: numbers become
    floats, the members of an object are sorted and the last of equal keys
    is kept. *)
Fixpoint via_interface (j : json) : option json :=
  match j with
  | JNum lit =>
      match F64.parse_float lit with
      | Some x => if F64.is_finite x then Some (JNum (float_text x)) else None
      | None => None
      end
  | JArr l =>
      let fix elems l := match l with
                         | [] => Some []
                         | j :: rest => match via_interface j, elems rest with
                                        | Some j, Some rest => Some (j :: rest)
                                        | _, _ => None
                                        end
                         end in
      JArr <$> elems l
  | JObj kvs =>
      let fix members kvs (m : gmap string json) :=
        match kvs with
        | [] => Some m
        | (k, j) :: rest => match via_interface j with
                            | Some j => members rest (<[k := j]> m)
                            | None => None
                            end
        end in
      map_json <$> members kvs ∅
  | _ => Some j
  end.

(** [makeBidExtJSON]; storing into the nil map that a JSON null leaves is a
    panic. *)
Definition makeBidExtJSON (ext : RawMessage) (prebid : ExtBidPrebid) : option (json + error) :=
  if raw_len0 ext then Some (inl (JObj [(PrebidExtKey, enc_bid_prebid prebid)]))
  else match unmarshal (dec_map via_interface) ext with
       | inr err => Some (inr err)
       | inl None => None
       | inl (Some extMap) => Some (inl (map_json (<[PrebidExtKey := enc_bid_prebid prebid]> extMap)))
       end.

(** [findCacheID], by the bidder's bid that [p] refers to. *)
Definition findCacheID (st : Store) (p : loc) (auc : option auction) : option string :=
  match auc, st_pbs st !! p ≫= pb_bid with
  | Some a, Some q => match cacheIds a !! q with Some id => Some id | None => vastCacheIds a !! q end
  | _, _ => None
  end.

(** [buildCacheURL]: the text of a [url.URL] with a host. *)
Definition buildCacheURL (uuid : string) : string :=
  let '(scheme, host, path) := extCacheData in
  if GoStr.is_empty host || GoStr.is_empty path then ""
  else
    (if GoStr.is_empty scheme then "" else scheme ⧺ "://") ⧺ host_escape host ⧺
    (if GoStr.has_prefix "/" path then "" else "/") ⧺ path_escape path ⧺
    "?" ⧺ Encode [("uuid"%string, uuid)].
Definition getBidCacheInfo (st : Store) (p : loc) (auc : option auction) : option ExtBidPrebidCacheBids :=
  match findCacheID st p auc with
  | Some uuid => Some (mkCacheBids (buildCacheURL uuid) uuid)
  | None => None
  end.

Definition bid_ext_prebid (st : Store) (p : loc) (pb : pbsOrtbBid) (auc : option auction) : ExtBidPrebid :=
  mkBidPrebid (getBidCacheInfo st p auc) (pb_dealPriority pb) (pb_dealTierSatisfied pb) (pb_bidTargets pb)
    (pb_bidType pb) (pb_bidVideo pb) (pb_bidEvents pb) (pb_generatedBidID pb).

(** The body of the loop of [makeBid]; the bid of the response is a copy. *)
Definition make_bid_step (st : Store) (auc : option auction) (returnCreative : bool)
    (acc : list Bid * list error) (p : loc) : option (list Bid * list error) :=
  let '(result, errs) := acc in
  match deref st p with
  | None => None
  | Some (pb, b) =>
      match makeBidExtJSON (bid_Ext b) (bid_ext_prebid st p pb auc) with
      | None => None
      | Some (inr err) => Some (result, errs ++ [err])
      | Some (inl bidExtJSON) =>
          let resultBid := bid_set_Ext b (RawJson bidExtJSON) in
          Some (result ++ [if returnCreative then resultBid else bid_set_AdM resultBid ""], errs)
      end
  end.
Definition makeBid (st : Store) (bids : list loc) (auc : option auction) (returnCreative : bool) :
  option (list Bid * list error) :=
  foldM (make_bid_step st auc returnCreative) bids ([], []).

(** ** Seats and response *)
(** [makeSeatBid]: errors join the bidder's extra; [None] also when the
    bidder has none. *)
Definition makeSeatBid (st : Store) (adapterBid : pbsOrtbSeatBid) (adapter : string)
    (adapterExtra : gmap string seatResponseExtra) (auc : option auction) (returnCreative : bool) :
  option (SeatBid * gmap string seatResponseExtra) :=
  match makeBid st (sb_bids adapterBid) auc returnCreative with
  | None => None
  | Some (bids, []) => Some (mkSeat adapter bids 0, adapterExtra)
  | Some (bids, errList) =>
      match adapterExtra !! adapter with
      | None => None
      | Some x =>
          let x := mkExtra (sx_ResponseTimeMillis x) (sx_Errors x ++ errsToBidderErrors errList) (sx_Warnings x)
                     (sx_HttpCalls x) in
          Some (mkSeat adapter bids 0, <[adapter := x]> adapterExtra)
      end
  end.

(** The body of the loop over the live adapters. *)
Definition response_step (st : Store) (adapterBids : gmap string pbsOrtbSeatBid) (auc : option auction)
    (returnCreative : bool) (acc : list SeatBid * string * gmap string seatResponseExtra) (a : string) :
  option (list SeatBid * string * gmap string seatResponseExtra) :=
  let '(seatBids, cur, extra) := acc in
  match adapterBids !! a with
  | None => Some acc
  | Some seat =>
      if (0 <? length (sb_bids seat))%nat then
        match makeSeatBid st seat a extra auc returnCreative with
        | None => None
        | Some (sb, extra) => Some (seatBids ++ [sb], sb_currency seat, extra)
        end
      else Some acc
  end.

Context (enc_request : BidRequest -> option json).
(** [buildBidResponse]: the response, with the error of the encoder. *)
Definition buildBidResponse (st : Store) (liveAdapters : list string) (adapterBids : gmap string pbsOrtbSeatBid)
    (bidRequest : BidRequest) (adapterExtra : gmap string seatResponseExtra) (auc : option auction)
    (bidResponseExt : ExtBidResponse) (returnCreative : bool) : option (BidResponse * option error) :=
  match foldM (response_step st adapterBids auc returnCreative) liveAdapters ([], ""%string, adapterExtra) with
  | None => None
  | Some (seatBids, cur, _) =>
      let '(ext, err) := encodeBidResponseExt enc_request bidResponseExt in
      Some (mkBidResponse (req_ID bidRequest) seatBids cur
              (match liveAdapters with [] => Some NoBidReasonCodeInvalidRequest | _ => None end) ext, err)
  end.
End Bids.

(** ** Facts *)
Section ResponseFacts.
Context (float_text : float64 -> string) (extCacheData : string * string * string).
#[local] Abbreviation via := (via_interface float_text).

(** The members of a decoded object, one by one. *)
Lemma dec_members_via kvs acc acc' m : dec_members via kvs acc = Some m ->
  (forall k, acc !! k = acc' !! k ≫= via) ->
  forall k, m !! k = (fold_left (fun m kj => <[kj.1 := kj.2]> m) kvs acc' : gmap string json) !! k ≫= via.
Proof.
  revert acc acc'. induction kvs as [|[k0 j] kvs IH]; intros acc acc'; cbn [dec_members fold_left fst snd].
  { by intros [= <-]. }
  destruct (via j) as [a|] eqn:Ej; [|done]. intros Hm Hacc. apply (IH _ _ Hm).
  intros k. destruct (decide (k0 = k)) as [->|Hne]; [by rw !lookup_insert_eq|by rw !lookup_insert_ne].
Qed.

(** The extension of a bid can be extended. *)
Definition ext_readable (ext : RawMessage) : bool :=
  raw_len0 ext || match unmarshal (dec_map via) ext with inl (Some _) => true | _ => false end.
Definition prebid_added (prebid : ExtBidPrebid) (ext ext' : RawMessage) : Prop :=
  ext_map ext' !! PrebidExtKey = Some (enc_bid_prebid prebid) /\
  forall k, k <> PrebidExtKey -> ext_map ext' !! k = ext_map ext !! k ≫= via.

Lemma makeBidExtJSON_spec ext prebid : ext <> RawJson JNull ->
  (exists j, makeBidExtJSON float_text ext prebid = Some (inl j) /\ ext_readable ext = true /\
     prebid_added prebid ext (RawJson j)) \/
  (exists err, makeBidExtJSON float_text ext prebid = Some (inr err) /\ ext_readable ext = false).
Proof.
  intros Hnn. rw /makeBidExtJSON /ext_readable /prebid_added. destruct (raw_len0 ext) eqn:El; cbn [orb].
  { left. eexists. split_and!; [done|done| |].
    - rw /ext_map /=. apply lookup_insert_eq.
    - intros k Hk. assert (ext_map ext = ∅) as -> by by destruct ext. rw lookup_empty /ext_map /=.
      rw lookup_insert_ne //. }
  destruct (unmarshal (dec_map via) ext) as [[m|]|err] eqn:Eu.
  - left. eexists. split_and!; [done|done| |].
    + rw ext_map_enc. apply lookup_insert_eq.
    + intros k Hk. rw ext_map_enc lookup_insert_ne //.
      destruct ext as [| | |[| | | | |kvs]]; try done. cbn in Eu.
      destruct (dec_members via kvs ∅) as [m'|] eqn:Em; [|done]. injection Eu as ->.
      rw /ext_map /= dec_members_any. apply (dec_members_via kvs ∅ ∅); [done|]. intros k'. by rw lookup_empty.
  - exfalso. destruct ext as [| | |[| | | | |kvs]]; try done. cbn in Eu. by destruct (dec_members _ _ _).
  - right. by eexists.
Qed.

(** What the response shows of a bid of the auction. *)
Definition shows_bid (st : Store) (auc : option auction) (returnCreative : bool) (p : loc) (out : Bid) : Prop :=
  exists pb b ext, deref st p = Some (pb, b) /\
    prebid_added (bid_ext_prebid extCacheData st p pb auc) (bid_Ext b) ext /\
    out = bid_set_AdM (bid_set_Ext b ext) (if returnCreative then bid_AdM b else "").
Definition readable (st : Store) (p : loc) : Prop := ext_readable (bid_Ext (the_bid st p)) = true.
#[export] Instance readable_dec st p : Decision (readable st p).
Proof. unfold readable. apply _. Defined.
(** No bid is nil, and none has an extension that is null. *)
Definition bid_fits (st : Store) (p : loc) : Prop :=
  exists pb b, deref st p = Some (pb, b) /\ bid_Ext b <> RawJson JNull.

Lemma makeBid_spec st auc rc l : Forall (bid_fits st) l ->
  exists bids errs, makeBid float_text extCacheData st l auc rc = Some (bids, errs) /\
    Forall2 (shows_bid st auc rc) (filter (readable st) l) bids.
Proof.
  rw /makeBid. intros Hl.
  assert (forall result errs, exists bids errs',
    foldM (make_bid_step float_text extCacheData st auc rc) l (result, errs) = Some (result ++ bids, errs') /\
    Forall2 (shows_bid st auc rc) (filter (readable st) l) bids) as H.
  { induction Hl as [|p l (pb & b & Hd & Hn) _ IH]; intros result errs; [exists [], errs; by rw app_nil_r|].
    cbn [foldM]. rw /make_bid_step Hd filter_cons.
    assert (the_bid st p = b) as Hb by by rw /the_bid /bid_at Hd.
    destruct (makeBidExtJSON_spec (bid_Ext b) (bid_ext_prebid extCacheData st p pb auc) Hn)
      as [(j & -> & Hr & Hadd)|(err & -> & Hr)].
    - rw decide_True; [by rw /readable Hb|]. set (out := if rc then _ else _).
      destruct (IH (result ++ [out]) errs) as (bids & errs' & E & HF). exists (out :: bids), errs'.
      split; [by rw -app_assoc in E|]. constructor; [|done]. exists pb, b, (RawJson j). split_and!; [done|done|].
      rw /out. by destruct b, rc.
    - rw decide_False; [by rw /readable Hb Hr|]. apply IH. }
  destruct (H [] []) as (bids & errs & E & ?). by exists bids, errs.
Qed.

(** The live adapters with bids, in their order. *)
Fixpoint seated (adapterBids : gmap string pbsOrtbSeatBid) (live : list string) : list (string * pbsOrtbSeatBid) :=
  match live with
  | [] => []
  | a :: live =>
      match adapterBids !! a with
      | Some s => if has_bids (Some s) then (a, s) :: seated adapterBids live else seated adapterBids live
      | None => seated adapterBids live
      end
  end.
Definition shows_seat (st : Store) (auc : option auction) (rc : bool) (ns : string * pbsOrtbSeatBid) (sb : SeatBid) : Prop :=
  seat_Seat sb = ns.1 /\ Forall2 (shows_bid st auc rc) (filter (readable st) (sb_bids ns.2)) (seat_Bid sb).

Lemma response_loop_spec st auc rc adapterBids live seats cur extra :
  Forall (fun ns => Forall (bid_fits st) (sb_bids ns.2) /\ is_Some (extra !! ns.1)) (seated adapterBids live) ->
  exists seats' cur' extra',
    foldM (response_step float_text extCacheData st adapterBids auc rc) live (seats, cur, extra) =
      Some (seats ++ seats', cur', extra') /\
    Forall2 (shows_seat st auc rc) (seated adapterBids live) seats' /\
    cur' = default cur (list.last (sb_currency ∘ snd <$> seated adapterBids live)).
Proof.
  revert seats cur extra. induction live as [|a live IH]; intros seats cur extra Hok.
  { exists [], cur, extra. by rw app_nil_r. }
  cbn [foldM seated] in *. rw {1}/response_step. destruct (adapterBids !! a) as [s|] eqn:Ea; [|by apply IH].
  assert (has_bids (Some s) = (0 <? length (sb_bids s))%nat) as Hb by (by rw /has_bids; destruct (sb_bids s)).
  rw -Hb. destruct (has_bids (Some s)); [|by apply IH]. clear Hb.
  apply list.Forall_cons in Hok as [[Hfit [x Hx]] Hok].
  destruct (makeBid_spec st auc rc (sb_bids s) Hfit) as (bids & errs & Em & HF).
  assert (exists extra', makeSeatBid float_text extCacheData st s a extra auc rc = Some (mkSeat a bids 0, extra') /\
            dom extra ⊆ dom extra') as (extra' & Es & Hdom).
  { rw /makeSeatBid Em. destruct errs; [by exists extra|]. rw Hx. eexists. split; [done|]. rw dom_insert_L. set_solver. }
  rw Es. destruct (IH (seats ++ [mkSeat a bids 0]) (sb_currency s) extra') as (seats' & cur' & extra'' & E & HF' & Hc).
  { eapply list.Forall_impl; [exact Hok|]. intros ns [? Hs]. split; [done|].
    apply elem_of_dom. apply Hdom. by apply elem_of_dom. }
  exists (mkSeat a bids 0 :: seats'), cur', extra''. split_and!.
  - by rw -app_assoc in E.
  - by constructor.
  - rw Hc fmap_cons list.last_cons. by destruct (list.last _).
Qed.
End ResponseFacts.

(** C17: the response has one seat for each bidder of the auction that still has
    bids, in the order of the live adapters, and in it a copy of each of the
    bidder's bids whose extension can be read: only the extension differs,
    where ext.prebid is replaced and every other member kept, and the markup,
    which is blank unless the creative is to be returned.  The response
    carries the request's id, the currency of the last seat, and a no-bid
    reason exactly when no bidder was called. *)
Theorem bid_response_correct float_text extCacheData enc_request st live adapterBids req extra auc ext rc
    (Hok : Forall (fun ns => Forall (bid_fits st) (sb_bids ns.2) /\ is_Some (extra !! ns.1)) (seated adapterBids live)) :
  exists r err, buildBidResponse float_text extCacheData enc_request st live adapterBids req extra auc ext rc = Some (r, err) /\
    resp_ID r = req_ID req /\
    Forall2 (shows_seat float_text extCacheData st auc rc) (seated adapterBids live) (resp_SeatBid r) /\
    resp_Cur r = default ""%string (list.last (sb_currency ∘ snd <$> seated adapterBids live)) /\
    (is_Some (resp_NBR r) <-> live = []) /\
    (err = None <-> exists j, resp_Ext r = RawJson j /\ enc_ext_response enc_request ext = Some j).
Proof.
  destruct (response_loop_spec float_text extCacheData st auc rc adapterBids live [] ""%string extra Hok)
    as (seats & cur & extra' & E & HF & Hc).
  rw /buildBidResponse E /encodeBidResponseExt.
  destruct (enc_ext_response enc_request ext) as [j|] eqn:Ej; do 2 eexists;
    (split; [reflexivity|]); cbn [resp_ID resp_SeatBid resp_Cur resp_NBR resp_Ext app]; split_and!; try done.
  1, 3: destruct live; split; [done|by eexists| |]; [by intros []|done].
  - split; [by eexists|done].
  - split; [done|]. by intros (? & ? & ?).
Qed.

(** A seat of two bids, one of whose extensions is not an object. *)
Definition resp_store : Store :=
  demo_store [bid_set_Ext (bid_set_AdM (simpleBid "b1" "i1" one "c" "") "<div/>")
                (RawJson (JObj [("prebid"%string, JStr "old"); ("cpm"%string, JNum "2")]));
              bid_set_Ext (simpleBid "b2" "i1" one "c" "") (RawJson (JNum "1"))].
Definition resp_seats : gmap string pbsOrtbSeatBid := {["appnexus"%string := mkSeatBid [1; 2]%positive "EUR" []]}.
Definition resp_extra : gmap string seatResponseExtra := {["appnexus"%string := emptyExtra]}.
Definition resp_live : list string := ["rubicon"; "appnexus"]%string.
Definition resp_ext : ExtBidResponse := mkExtResponse None ∅ ∅ {["appnexus"%string := 12%Z]} 500 None.
Definition resp_demo :=
  buildBidResponse (fun _ => "2"%string) ("https", "cache.example", "/c")%string (fun _ => None) resp_store resp_live
    resp_seats (req_set_Cur emptyBidRequest []) resp_extra None resp_ext false.

Lemma bid_response_correct_witness :
  exists r err, resp_demo = Some (r, err) /\ length (resp_SeatBid r) = 1%nat /\ resp_Cur r = "EUR"%string /\ resp_NBR r = None.
Proof.
  destruct (bid_response_correct (fun _ => "2"%string) ("https", "cache.example", "/c")%string (fun _ => None) resp_store
    resp_live resp_seats (req_set_Cur emptyBidRequest []) resp_extra None resp_ext false)
    as (r & err & E & _ & HF & Hc & Hn & _).
  - change (seated resp_seats resp_live) with [("appnexus"%string, mkSeatBid [1; 2]%positive "EUR" [])].
    constructor; [|constructor]. split; [|by eexists].
    constructor; [|constructor; [|constructor]]; do 2 eexists; (split; [vm_compute; reflexivity|done]).
  - exists r, err. split; [exact E|]. split_and!.
    + apply Forall2_length in HF. rw -HF. reflexivity.
    + rw Hc. reflexivity.
    + destruct (resp_NBR r) eqn:En; [|done]. assert (resp_live = []) as H by (apply Hn; by eexists). discriminate H.
Defined.
Example resp_demo_bids :
  (fun r => map (fun s => map bid_Ext (seat_Bid s)) (resp_SeatBid r.1)) <$> resp_demo =
  Some [[RawJson (JObj [("cpm"%string, JNum "2"); ("prebid"%string, JObj [("type"%string, JStr "banner")])])]].
Proof. vm_compute. reflexivity. Qed.

(** ** [response.ext]: facts *)
Lemma mapM_id_Some {A} (l : list A) : mapM id (Some <$> l) = Some l.
Proof. induction l as [|a l IH]; [done|]. cbn. by rw IH. Qed.
Definition nonempty_list {A} (l : list A) : option (list A) := match l with [] => None | _ => Some l end.

Section ExtFacts.
Context (debugInfo : bool) (errs : list error).
Implicit Types x : ExtBidResponse.

Lemma nonempty_insert {A} (m : gmap string (list A)) n l k :
  (if (0 <? length l)%nat then <[n := l]> m else m) !! k =
    if bool_decide (n = k) then match nonempty_list l with Some l => Some l | None => m !! k end else m !! k.
Proof.
  case_bool_decide as E; [subst|]; destruct l; simpl; try done; [by rw lookup_insert_eq|by rw lookup_insert_ne].
Qed.

Lemma lookup_nonempty {A} (m : gmap string seatResponseExtra) n e (f : seatResponseExtra -> list A) k : m !! n = None ->
  <[n := e]> m !! k ≫= nonempty_list ∘ f =
    if bool_decide (n = k) then match nonempty_list (f e) with Some l => Some l | None => m !! k ≫= nonempty_list ∘ f end
    else m !! k ≫= nonempty_list ∘ f.
Proof.
  intros Hn. case_bool_decide as E; [subst k|by rw lookup_insert_ne].
  rw lookup_insert_eq Hn /=. by destruct (f e).
Qed.
Lemma lookup_request_errors (m : gmap string (list ExtBidderMessage)) k : k <> PrebidExtKey ->
  (if (0 <? length errs)%nat then <[PrebidExtKey := errsToBidderErrors errs]> m else m) !! k = m !! k.
Proof. intros Hk. destruct (0 <? length errs)%nat; [by rw lookup_insert_ne|done]. Qed.

(** What the loop has written after the extras of [order]. *)
Definition ext_so_far (order : list (string * seatResponseExtra)) x : Prop :=
  let m : gmap string seatResponseExtra := list_to_map order in
  (forall n, xr_ResponseTimeMillis x !! n = sx_ResponseTimeMillis <$> m !! n) /\
  (forall n, xr_Warnings x !! n = m !! n ≫= nonempty_list ∘ sx_Warnings) /\
  (forall n, n <> PrebidExtKey -> xr_Errors x !! n = m !! n ≫= nonempty_list ∘ sx_Errors) /\
  xr_Errors x !! PrebidExtKey = (if bool_decide (order = [] \/ errs = []) then None else Some (errsToBidderErrors errs)).

Lemma extra_loop_spec order x :
  NoDup order.*1 -> PrebidExtKey ∉ order.*1 ->
  ext_so_far [] x -> ext_so_far order (fold_left (extra_step debugInfo errs) order x).
Proof.
  induction order as [|[n e] order IH] using rev_ind; intros Hnd Hp H0; [done|].
  rw fmap_app in Hnd Hp. apply list.NoDup_app in Hnd as (Hnd & Hd & _).
  assert (n ∉ order.*1) as Hn by (intros ?; by apply (Hd n); [|apply list_elem_of_singleton]).
  assert (n <> PrebidExtKey) as Hne by (intros ->; set_solver).
  assert (PrebidExtKey ∉ order.*1) as Hp' by set_solver.
  destruct (IH Hnd Hp' H0) as (Ht & Hw & He & Hpre). rw fold_left_app. cbn [fold_left].
  set (y := fold_left _ order x) in *. rw /ext_so_far /extra_step. cbn [xr_ResponseTimeMillis xr_Warnings xr_Errors].
  assert ((list_to_map order : gmap string seatResponseExtra) !! n = None) as Hnone
    by by apply not_elem_of_list_to_map_1.
  rw list_to_map_snoc //. set (m := list_to_map order : gmap string seatResponseExtra) in *. split_and!.
  - intros k. destruct (decide (n = k)) as [->|?]; [by rw !lookup_insert_eq|by rw !lookup_insert_ne].
  - intros k. by rw nonempty_insert Hw lookup_nonempty.
  - intros k Hk. by rw (lookup_request_errors _ k Hk) nonempty_insert (He k Hk) lookup_nonempty.
  - destruct errs as [|e1 errs']; cbn [length Nat.ltb Nat.leb].
    + rw nonempty_insert (bool_decide_eq_false_2 _ Hne) Hpre. repeat case_bool_decide; naive_solver.
    + rw lookup_insert_eq bool_decide_eq_false_2; [|done]. intros [[]%app_nil|?]; done.
Qed.

Lemma extra_loop_debug order x req : NoDup order.*1 -> xr_Debug x = (if debugInfo then Some (∅, req) else None) ->
  match xr_Debug (fold_left (extra_step debugInfo errs) order x) with
  | None => debugInfo = false
  | Some (calls, req') => debugInfo = true /\ req' = req /\
      forall n, calls !! n = (list_to_map order : gmap string seatResponseExtra) !! n ≫= nonempty_list ∘ sx_HttpCalls
  end.
Proof.
  induction order as [|[n e] order IH] using rev_ind; intros Hnd H0; [cbn; rw H0; by destruct debugInfo|].
  rw fmap_app in Hnd. apply list.NoDup_app in Hnd as (Hnd & Hd & _).
  assert (n ∉ order.*1) as Hn by (intros ?; by apply (Hd n); [|apply list_elem_of_singleton]).
  assert ((list_to_map order : gmap string seatResponseExtra) !! n = None) as Hnone
    by by apply not_elem_of_list_to_map_1.
  specialize (IH Hnd H0). rw fold_left_app. cbn [fold_left]. rw list_to_map_snoc //.
  rw {1}/extra_step. cbn [xr_Debug]. destruct (xr_Debug _) as [[calls req']|]; [|done].
  destruct IH as (-> & -> & Hc). cbn [andb].
  pose proof (fun k => nonempty_insert calls n (sx_HttpCalls e) k) as Hi.
  destruct (0 <? length (sx_HttpCalls e))%nat;
    (split_and!; [done|done|]; intros k; by rw Hi Hc lookup_nonempty).
Qed.
End ExtFacts.

(** The response extension reports, for every bidder that answered, its time,
    and its warnings, errors and debug calls when it has any; the errors of
    the request are under prebid, unless no bidder answered at all, when they
    are dropped; debug information is present only when it was asked for. *)
Theorem ext_response_correct (extras : gmap string seatResponseExtra) order r debugInfo errs
    (Horder : map_range extras order) (Hp : PrebidExtKey ∉ dom extras) :
  exists x, makeExtBidResponse order r debugInfo (Some <$> errs) = Some x /\
    xr_ResponseTimeMillis x = sx_ResponseTimeMillis <$> extras /\
    xr_Warnings x = omap (nonempty_list ∘ sx_Warnings) extras /\
    (forall n, n <> PrebidExtKey -> xr_Errors x !! n = extras !! n ≫= nonempty_list ∘ sx_Errors) /\
    (xr_Errors x !! PrebidExtKey = if bool_decide (extras = ∅ \/ errs = []) then None else Some (errsToBidderErrors errs)) /\
    match xr_Debug x with
    | None => debugInfo = false
    | Some (calls, req) => debugInfo = true /\ req = ar_BidRequest r /\
        calls = omap (nonempty_list ∘ sx_HttpCalls) extras
    end.
Proof.
  pose proof (map_range_nodup _ _ Horder) as Hnd. pose proof (map_range_to_map _ _ Horder) as Hm.
  assert (PrebidExtKey ∉ order.*1) as Hp'.
  { intros ([k e] & E & Hin)%list_elem_of_fmap. apply Hp. rw E elem_of_dom. exists e. by apply (map_range_elem _ _ _ _ Horder). }
  assert (order = [] <-> extras = ∅) as Hempty.
  { rw -Hm. split; [by intros ->|]. destruct order as [|[k e] order]; [done|]. intros E.
    exfalso. exact (insert_non_empty _ _ _ E). }
  eexists. split.
  { rw /makeExtBidResponse. assert (mapM id (Some <$> errs) = Some errs) as -> by apply mapM_id_Some.
    instantiate (1 := fold_left (extra_step debugInfo errs) order _). by destruct order. }
  match goal with |- context [fold_left _ order ?x] => set (init := x) end.
  destruct (extra_loop_spec debugInfo errs order init Hnd Hp') as (Ht & Hw & He & Hpre); [by split_and!|].
  pose proof (extra_loop_debug debugInfo errs order init (ar_BidRequest r) Hnd eq_refl) as Hdbg.
  set (x := fold_left _ order init) in *. rw Hm in Ht Hw He Hdbg. split_and!.
  - apply map_eq. intros n. by rw lookup_fmap.
  - apply map_eq. intros n. by rw lookup_omap.
  - done.
  - rw Hpre. repeat case_bool_decide; naive_solver.
  - destruct (xr_Debug x) as [[calls req]|]; [|done]. destruct Hdbg as (? & ? & Hc). split_and!; [done|done|].
    apply map_eq. intros n. by rw lookup_omap.
Qed.

(** Two bidders, one with a warning and one with an error, and a request error. *)
Definition demo_extras : gmap string seatResponseExtra :=
  {["appnexus"%string := mkExtra 12 [] [mkExtBidderMessage 10001 "w"] [];
    "rubicon"%string := mkExtra 30 [mkExtBidderMessage 1 "late"] [] []]}.
Lemma ext_response_correct_witness :
  exists x, makeExtBidResponse (map_to_list demo_extras) (demo_auction_request None) false (Some <$> [EPlain "bad imp"]) = Some x /\
    xr_Errors x !! PrebidExtKey = Some [error_message (EPlain "bad imp")] /\
    xr_Warnings x !! "appnexus"%string = Some [mkExtBidderMessage 10001 "w"].
Proof.
  destruct (ext_response_correct demo_extras (map_to_list demo_extras) (demo_auction_request None) false [EPlain "bad imp"])
    as (x & E & _ & Hw & _ & Hp & _).
  - apply map_range_self.
  - apply (iffLR (bool_decide_eq_true (PrebidExtKey ∉ dom demo_extras))). by vm_compute.
  - exists x. split; [exact E|]. split; [rw Hp; vm_compute; reflexivity|rw Hw; vm_compute; reflexivity].
Defined.
