(* ===== verification/AmpEndpoint.v ===== *)
(** * The AMP endpoint

    [AmpAuction] of [endpoints/openrtb2/amp_auction.go]: the request of an AMP
    page is made from its stored request and its parameters ([AmpRequest]),
    validated, held as an auction, and answered with the targeting of the
    cached bids only. *)

From S2P Require Import Prelude Url Float64 ErrorTypes IpNet Json Codec OpenRTB JsonParser NativeValidation PriceGranularity ExtRequest ExtRoundtrip.
From S2P Require Import ImplicitFields Ccpa ConsentWriters Gdpr UserSync StoredRequests StoredMerge Accounts AccountAccess.
From S2P Require Import BidderRequests ImpValidation RequestValidation AuctionEndpoint AmpRequest Response.

(** ** Targeting of a bid *)
(** [ExtBidPrebid], of which the targeting is read; nil is no targeting. *)
Definition dec_bid_meta : decoder unit := dec_struct (fun kvs =>
  _ ← dec_field (dec_list dec_string) [] "advertiserDomains" kvs;
  _ ← dec_field dec_int 0%Z "advertiserId" kvs;
  _ ← dec_field dec_string ""%string "advertiserName" kvs;
  _ ← dec_field dec_int 0%Z "agencyId" kvs;
  _ ← dec_field dec_string ""%string "agencyName" kvs;
  _ ← dec_field dec_int 0%Z "brandId" kvs;
  _ ← dec_field dec_string ""%string "brandName" kvs;
  _ ← dec_field dec_string ""%string "mediaType" kvs;
  _ ← dec_field dec_int 0%Z "networkId" kvs;
  _ ← dec_field dec_string ""%string "networkName" kvs;
  _ ← dec_field dec_string ""%string "primaryCatId" kvs;
  _ ← dec_field (dec_list dec_string) [] "secondaryCatIds" kvs;
  Some tt).
Definition dec_bid_cache : decoder unit := dec_struct (fun kvs =>
  _ ← dec_field dec_string ""%string "key" kvs;
  _ ← dec_field dec_string ""%string "url" kvs;
  _ ← dec_field (dec_ptr (dec_struct (fun kvs =>
        _ ← dec_field dec_string ""%string "url" kvs; _ ← dec_field dec_string ""%string "cacheId" kvs; Some tt)))
        None "bids" kvs;
  Some tt).
Definition dec_bid_prebid : decoder (gmap string string) := dec_struct (fun kvs =>
  _ ← dec_field (dec_ptr dec_bid_cache) None "cache" kvs;
  _ ← dec_field dec_int 0%Z "dealpriority" kvs;
  _ ← dec_field dec_bool false "dealtiersatisfied" kvs;
  _ ← dec_field (dec_ptr dec_bid_meta) None "meta" kvs;
  targeting ← dec_field (dec_map dec_string) None "targeting" kvs;
  _ ← dec_field dec_string ""%string "type" kvs;
  _ ← dec_field (dec_ptr (dec_struct (fun kvs =>
        _ ← dec_field dec_int 0%Z "duration" kvs; _ ← dec_field dec_string ""%string "primary_category" kvs; Some tt)))
        None "video" kvs;
  _ ← dec_field (dec_ptr (dec_struct (fun kvs =>
        _ ← dec_field dec_string ""%string "win" kvs; _ ← dec_field dec_string ""%string "imp" kvs; Some tt)))
        None "events" kvs;
  _ ← dec_field dec_string ""%string "bidid" kvs;
  Some (map_or_empty targeting)).
(** [ExtBid]; [None] is a nil prebid. *)
Definition dec_ext_bid : decoder (option (gmap string string)) := dec_struct (fun kvs =>
  dec_field (dec_ptr dec_bid_prebid) None "prebid" kvs).

(** [bytes.Contains(bid.Ext, byteCache)] on the encoding of a JSON value: the
    searched text is a quote and [hb_cache_id], which occurs where a string
    or a member name starts with it, or inside one after a quote. *)
Definition byteCache : string := "hb_cache_id".
Definition names_cache (s : string) : bool :=
  GoStr.has_prefix byteCache s || bool_decide (is_Some (index_text (GoStr.dq ⧺ byteCache) s)).
Fixpoint mentions_cache (j : json) : bool :=
  match j with
  | JStr s => names_cache s
  | JArr l => existsb mentions_cache l
  | JObj kvs => existsb (fun kv => let '(k, x) := kv in names_cache k || mentions_cache x) kvs
  | _ => false
  end.
Definition raw_mentions_cache (r : RawMessage) : bool := match r with RawJson j => mentions_cache j | _ => false end.

(** The loop over the bids; [None] is the nil prebid that is dereferenced. *)
Definition target_step (targets : gmap string string) (bid : Bid) : option (gmap string string + error) :=
  if raw_mentions_cache (bid_Ext bid) then
    match unmarshal dec_ext_bid (bid_Ext bid) with
    | inr err => Some (inr err)
    | inl None => None
    | inl (Some targeting) => Some (inl (targeting ∪ targets))
    end
  else Some (inl targets).
Fixpoint extract_targets (bids : list Bid) (targets : gmap string string) : option (gmap string string + error) :=
  match bids with
  | [] => Some (inl targets)
  | bid :: rest =>
      r ← target_step targets bid;
      match r with inr err => Some (inr err) | inl targets => extract_targets rest targets end
  end.

(** ** Answers *)
Record AmpResponse := mkAmpResponse {
  ampr_Targeting : gmap string string; ampr_Debug : option (gmap string (list ExtHttpCall) * BidRequest);
  ampr_Errors : gmap string (list ExtBidderMessage); ampr_Warnings : gmap string (list ExtBidderMessage) }.
Definition ReqTypeAMP : string := "amp".
Definition defaultAmpRequestTimeoutMillis : Z := 900.
Definition invalid_format (errs : list error) : string :=
  foldr (fun err text => "Invalid request format: " ⧺ error_string err ⧺ newline ⧺ text) ""%string (FatalOnly errs).

Section Endpoint.
Context `{JsonParser} `{IPValidator}.
Context (float_text : float64 -> string) (ParseISO : string -> string + error).
Context (UnmarshalNative : string -> NativeReq.Request + string).
Context (MarshalNative : NativeReq.Request -> string + string).
Context (Validate : string -> json -> option error).
Context (EffectiveTLDPlusOne : string -> string + error).
Context (ParseString : string -> VendorConsents + error).
Context (UnmarshalRequest : RawMessage -> Sources * BidRequest * option error).
(** [json.Unmarshal] into an [ExtBidResponse]: what was filled in, the error. *)
Context (UnmarshalExtResponse : RawMessage -> ExtBidResponse * option error).
Context (storedReqFetcher : Z -> AllFetcher).
Context (deps : AuctionDeps) (AMPTimeoutAdjustment : Z) (orders : Orders) (newV4 : string + error).

(** [parseAmpRequest]; a nil request ends in a panic or with fatal errors. *)
Definition parseAmpRequest (httpRequest : HttpRequest) (query : Values) : option (Sources * option BidRequest * list error) :=
  '(srcs, req, errs) ← loadRequestJSONForAmp float_text ParseString UnmarshalRequest storedReqFetcher AMPTimeoutAdjustment query;
  if ContainsFatalError errs then Some (srcs, req, errs)
  else
    req ← req;
    let req := setFieldsImplicitly EffectiveTLDPlusOne (h_Request httpRequest) req in
    let '(req, e) := defaultRequestExt float_text req in
    let errs := errs ++ e in
    if ContainsFatalError errs then Some (srcs, Some req, errs)
    else
      '(srcs, req, e) ← validateRequest float_text ParseISO UnmarshalNative MarshalNative Validate (ad_deps deps) orders newV4 srcs req;
      Some (srcs, Some req, errs ++ e).

Context (parse_time : string -> option Z) (decode : string -> option RawMessage).
Context (FetchAccount : string -> RawMessage * list error).
Context `{Exchange BidResponse} (Encode : AmpResponse -> option error).

(** The deadline: the request's own time, whatever its length, or the default. *)
Definition amp_deadline (req : BidRequest) : Z :=
  if (0 <? req_TMax req)%Z then Int64.wrap (req_TMax req * millisecond)%Z else (defaultAmpRequestTimeoutMillis * millisecond)%Z.
(** The warnings of the request join those of the response. *)
Definition general_warnings (errL : list error) (warnings : gmap string (list ExtBidderMessage)) :
  gmap string (list ExtBidderMessage) :=
  fold_left (fun m v => <[BidderReservedGeneral := default [] (m !! BidderReservedGeneral) ++ [error_message v]]> m)
    (WarningOnly errL) warnings.
(** The errors that are logged: an extension that is not read, debug data that
    the exchange left out (the error printed with it is always nil). *)
Definition unpacking : string := "Critical error while unpacking AMP targets: ".
Definition unpack_errors (eRErr : option error) : list error :=
  match eRErr with
  | Some err => [EPlain ("AMP response: failed to unpack OpenRTB response.ext, debug info cannot be forwarded: " ⧺ error_string err)]
  | None => []
  end.
Definition debug_errors {A} (wants_debug : bool) (debug : option A) : list error :=
  match debug with
  | None => if wants_debug then [EPlain "Test set on request but debug not present in response: <nil>"] else []
  | Some _ => []
  end.
(** The answer to a response. *)
Definition amp_answer (req : BidRequest) (errL : list error) (labels : Labels) (response : BidResponse) : option (Answer AmpResponse) :=
  targets ← extract_targets (concat (seat_Bid <$> resp_SeatBid response)) ∅;
  match targets with
  | inr err =>
      let text := unpacking ⧺ error_string err in
      Some (mkAnswer StatusInternalServerError (Text text) labels RequestStatusOK (errL ++ [EPlain text]))
  | inl targets =>
      let '(extResponse, eRErr) := UnmarshalExtResponse (resp_Ext response) in
      let warnings := general_warnings errL (xr_Warnings extResponse) in
      let wants_debug := (req_Test req =? 1)%Z && bool_decide (eRErr = None) in
      let debug := if wants_debug then xr_Debug extResponse else None in
      let errs := errL ++ unpack_errors eRErr ++ debug_errors wants_debug debug in
      let ampResponse := mkAmpResponse targets debug (xr_Errors extResponse) warnings in
      Some (match Encode ampResponse with
            | None => mkAnswer StatusOK (Encoded ampResponse) labels RequestStatusOK errs
            | Some err =>
                mkAnswer StatusOK Nothing labels RequestStatusNetworkErr
                  (errs ++ [EPlain ("/openrtb2/amp Failed to send response: " ⧺ error_string err)])
            end)
  end.
(** The refusals: a malformed request, and one without an account. *)
Definition amp_bad_request (labels : Labels) (errL : list error) : Answer AmpResponse :=
  mkAnswer StatusBadRequest (Text (invalid_format errL)) labels RequestStatusBadInput errL.
Definition amp_no_account (labels : Labels) (errL : list error) : Answer AmpResponse :=
  let '(httpStatus, metricsStatus) := if existsb is_blacklisted errL then (StatusServiceUnavailable, RequestStatusBlacklisted)
                                      else (StatusBadRequest, RequestStatusBadInput) in
  mkAnswer httpStatus (Text (invalid_format errL)) labels metricsStatus errL.

(** [AmpAuction]; [None] is a panic, which nothing here recovers. *)
Definition AmpAuction (httpRequest : HttpRequest) (query : Values) (start : Z) : option (Answer AmpResponse) :=
  let labels := mkLabels "web" ReqTypeAMP PublisherUnknown "unknown" in
  '(srcs, req, errL) ← parseAmpRequest httpRequest query;
  if ContainsFatalError errL then Some (amp_bad_request labels errL)
  else
    req ← req;
    let usersyncs := ParsePBSCookieFromRequest parse_time decode start (h_Cookie httpRequest) (ad_HostCookie deps) in
    let flag := if (LiveSyncCount usersyncs start =? 0)%nat then CookieFlagNo else CookieFlagYes in
    site ← req_Site req;
    let labels := mkLabels "web" ReqTypeAMP (getAccountID (site_Publisher site)) flag in
    match GetAccount (ad_Account deps) FetchAccount (lb_PubID labels) with
    | inr ((_ :: _) as acctIDErrs) => Some (amp_no_account labels (errL ++ acctIDErrs))
    | inr [] => None
    | inl account =>
        let auctionRequest := mkAuctionRequest req account (GetId usersyncs) start []
                                (Header_Get (h_Request httpRequest) "Sec-Gpc") labels in
        result ← ex_HoldAuction (Some (amp_deadline req)) srcs auctionRequest;
        match result with
        | inr err =>
            Some (mkAnswer StatusInternalServerError (Text ("Critical error while running the auction: " ⧺ error_string err)) labels
                    RequestStatusOK (errL ++ [err]))
        | inl response => amp_answer req errL labels response
        end
    end.
End Endpoint.

(** ** Facts *)
(** *** Cached bids *)
(** The texts of a JSON value: its strings and the names of its members. *)
Inductive text_of : json -> string -> Prop :=
  | TextStr s : text_of (JStr s) s
  | TextElem l j s : j ∈ l -> text_of j s -> text_of (JArr l) s
  | TextName kvs k j : (k, j) ∈ kvs -> text_of (JObj kvs) k
  | TextMember kvs k j s : (k, j) ∈ kvs -> text_of j s -> text_of (JObj kvs) s.
(** A bid that was cached has an extension that names the cache id, at the
    start of a text or after a quote in one. *)
Definition cached (bid : Bid) : Prop :=
  exists j s, bid_Ext bid = RawJson j /\ text_of j s /\
    ((exists rest, s = "hb_cache_id" ⧺ rest) \/ exists before rest, s = before ⧺ GoStr.dq ⧺ "hb_cache_id" ⧺ rest).

Section JsonInd.
Context (P : json -> Prop) (Pnull : P JNull) (Pbool : forall b, P (JBool b)) (Pnum : forall lit, P (JNum lit)) (Pstr : forall s, P (JStr s)).
Context (Parr : forall l, Forall P l -> P (JArr l)) (Pobj : forall kvs, Forall (fun kv => P kv.2) kvs -> P (JObj kvs)).
Fixpoint json_nested_ind (j : json) : P j :=
  match j with
  | JNull => Pnull | JBool b => Pbool b | JNum lit => Pnum lit | JStr s => Pstr s
  | JArr l => Parr l ((fix go (l : list json) : Forall P l :=
      match l with [] => List.Forall_nil _ | x :: l => @List.Forall_cons _ _ x l (json_nested_ind x) (go l) end) l)
  | JObj kvs => Pobj kvs ((fix go (kvs : list (string * json)) : Forall (fun kv => P kv.2) kvs :=
      match kvs with
      | [] => List.Forall_nil _
      | kv :: kvs => @List.Forall_cons _ _ kv kvs (match kv as kv return P kv.2 with (_, x) => json_nested_ind x end) (go kvs)
      end) kvs)
  end.
End JsonInd.

Definition names_it (s : string) : Prop :=
  (exists rest, s = "hb_cache_id" ⧺ rest) \/ exists before rest, s = before ⧺ GoStr.dq ⧺ "hb_cache_id" ⧺ rest.
Lemma names_cache_iff s : names_cache s = true <-> names_it s.
Proof.
  unfold names_cache, names_it, byteCache. rw orb_true_iff bool_decide_eq_true index_text_iff has_prefix_iff.
  by setoid_rewrite str_app_assoc.
Qed.
Lemma mentions_iff j : mentions_cache j = true <-> exists s, text_of j s /\ names_it s.
Proof.
  induction j as [|b|lit|s|l IH|kvs IH] using json_nested_ind; cbn [mentions_cache].
  1-3: by split; [|intros (s & Hs & _); inversion Hs].
  - rw names_cache_iff. split; [intros ?; exists s; split; [constructor|done]|]. intros (s' & Hs & ?). by inversion Hs; subst.
  - rw list.Forall_forall in IH. rw existsb_exists. split.
    + intros (x & Hin%list_elem_of_In & Hx). apply IH in Hx as (s & Hs & ?); [|done]. exists s. split; [by eapply TextElem|done].
    + intros (s & Hs & Hn). inversion Hs as [|? x ? Hin Hx| |]; subst. exists x. split; [by apply list_elem_of_In|]. apply IH; [done|by exists s].
  - rw list.Forall_forall in IH. rw existsb_exists. split.
    + intros ([k x] & Hin%list_elem_of_In & [Hk|Hx]%orb_true_iff).
      * exists k. split; [by eapply TextName|by apply names_cache_iff].
      * apply (IH (k, x) Hin) in Hx as (s & Hs & ?). exists s. split; [by eapply TextMember|done].
    + intros (s & Hs & Hn). inversion Hs as [| |? name x Hin|? name x ? Hin Hx]; subst.
      * exists (s, x). split; [by apply list_elem_of_In|]. apply orb_true_iff. left. by apply names_cache_iff.
      * exists (name, x). split; [by apply list_elem_of_In|]. apply orb_true_iff. right. apply (IH (name, x) Hin). by exists s.
Qed.
Lemma cached_iff bid : raw_mentions_cache (bid_Ext bid) = true <-> cached bid.
Proof.
  unfold cached. destruct (bid_Ext bid) as [| | |j]; cbn [raw_mentions_cache]; [split; [done|by intros (? & ? & ? & _)]..|].
  rw mentions_iff. split; [intros (s & ? & ?); by exists j, s|intros (? & s & [= <-] & ? & ?); by exists s].
Qed.
#[export] Instance cached_dec bid : Decision (cached bid).
Proof.
  destruct (raw_mentions_cache (bid_Ext bid)) eqn:E; [left; by apply cached_iff|right]. intros H%cached_iff. congruence.
Defined.

(** The targeting of the cached bids, in the order of the response. *)
Definition cached_targeting (bid : Bid) : option (gmap string string) :=
  if bool_decide (cached bid) then
    match unmarshal dec_ext_bid (bid_Ext bid) with inl (Some targeting) => Some targeting | _ => None end
  else None.
Lemma mentions_decide {A} bid (x y : A) : (if raw_mentions_cache (bid_Ext bid) then x else y) = if bool_decide (cached bid) then x else y.
Proof.
  pose proof (cached_iff bid) as Hc. case_bool_decide as Hd; [by rw (proj2 Hc Hd)|].
  by destruct (raw_mentions_cache (bid_Ext bid)); [destruct Hd; apply Hc|].
Qed.
(** The last cached bid with the key decides its value. *)
Definition targets_of (bids : list Bid) (targets : gmap string string) : Prop :=
  forall k, targets !! k = list.last (omap (fun t => t !! k) (omap cached_targeting bids)).
Lemma extract_targets_spec bids t0 t : extract_targets bids t0 = Some (inl t) ->
  forall k, t !! k = match list.last (omap (fun t => t !! k) (omap cached_targeting bids)) with Some v => Some v | None => t0 !! k end.
Proof.
  revert t0. induction bids as [|bid bids IH]; intros t0; cbn [extract_targets omap list_omap]; [by intros [= ->]|].
  unfold target_step, cached_targeting at 1. rw mentions_decide. case_bool_decide; cbn [mbind option_bind]; [|by apply IH].
  destruct (unmarshal dec_ext_bid (bid_Ext bid)) as [[tg|]|e]; cbn [mbind option_bind]; [|done..].
  intros Hrun k. rw (IH _ Hrun k). cbn [omap list_omap]. rw lookup_union.
  destruct (tg !! k) as [v|] eqn:Ev.
  - rw last_cons. destruct (list.last _); [done|]. by destruct (t0 !! k).
  - destruct (list.last _); [done|]. by destruct (t0 !! k).
Qed.
Definition unreadable_target (bids : list Bid) (err : error) : Prop :=
  exists bid, bid ∈ bids /\ cached bid /\ unmarshal dec_ext_bid (bid_Ext bid) = inr err.
Lemma extract_targets_error bids t0 err : extract_targets bids t0 = Some (inr err) -> unreadable_target bids err.
Proof.
  revert t0. induction bids as [|bid bids IH]; intros t0; cbn [extract_targets]; [done|].
  assert (unreadable_target bids err -> unreadable_target (bid :: bids) err) as Hmore.
  { intros (b & Hin & Hb). exists b. split; [by right|done]. }
  unfold target_step. rw mentions_decide. case_bool_decide; cbn [mbind option_bind]; [|eauto].
  destruct (unmarshal dec_ext_bid (bid_Ext bid)) as [[tg|]|e] eqn:Eu; cbn [mbind option_bind]; [eauto|done|].
  intros [= ->]. exists bid. split; [by left|done].
Qed.

Lemma no_account_refused labels errs :
  refused_for errs (amp_no_account labels errs) /\ ans_Errors (amp_no_account labels errs) = errs.
Proof.
  unfold refused_for, amp_no_account. rw -existsb_blocks. destruct (existsb is_blacklisted errs); (split; [split; [by eexists|]|done]); [by left|by right].
Qed.

Section EndpointFacts.
Context `{JsonParser} (v : RequestValidation).
#[local] Instance amp_validator : IPValidator := PublicNetworkIPValidator v.
Context (float_text : float64 -> string) (ParseISO : string -> string + error).
Context (UnmarshalNative : string -> NativeReq.Request + string).
Context (MarshalNative : NativeReq.Request -> string + string).
Context (Validate : string -> json -> option error).
Context (EffectiveTLDPlusOne : string -> string + error).
Context (ParseString : string -> VendorConsents + error).
Context (UnmarshalRequest : RawMessage -> Sources * BidRequest * option error).
Hypothesis unmarshal_fatal : forall j srcs req err, UnmarshalRequest j = (srcs, req, Some err) -> isFatal err = true.
(** Stored extensions round-trip, and so does the default granularity. *)
Hypothesis stored_ok : forall j srcs req p, UnmarshalRequest j = (srcs, req, None) ->
  unmarshal dec_ext_request (req_Ext req) = inl p -> prebid_ok float_text p.
Hypothesis med_ok : granularity_ok float_text priceGranularityMed.
Context (UnmarshalExtResponse : RawMessage -> ExtBidResponse * option error).
Context (storedReqFetcher : Z -> AllFetcher).
Context (deps : AuctionDeps) (AMPTimeoutAdjustment : Z) (orders : Orders) (newV4 : string + error).
Context (factors_visit : forall m, map_range m (or_factors orders m)).
Context (strings_visit : forall m, map_range m (or_strings orders m)).
Context (rates_visit : forall m, map_range m (or_rates orders m)).
Context (exts_visit : forall i m, map_range m (or_exts orders i m)).

(** The auction an AMP page may get: a sound request, for one imp of a site,
    with targeting and caching on. *)
Definition amp_request_ok (req : BidRequest) : Prop :=
  request_ok v (d_BlacklistedAppMap (ad_deps deps)) req /\ length (req_Imp req) = 1 /\ req_App req = None /\ is_Some (req_Site req) /\
  exists p, unmarshal dec_ext_request (req_Ext req) = inl p /\ amp_ready p.

Lemma parsed_ok httpRequest query srcs req errs :
  parseAmpRequest float_text ParseISO UnmarshalNative MarshalNative Validate EffectiveTLDPlusOne ParseString UnmarshalRequest
    storedReqFetcher deps AMPTimeoutAdjustment orders newV4 httpRequest query = Some (srcs, Some req, errs) ->
  ContainsFatalError errs = false -> amp_request_ok req.
Proof.
  unfold parseAmpRequest. intros Hrun Hok. destruct (loadRequestJSONForAmp _ _ _ _ _ _) as [[[srcs1 oreq] errs1]|] eqn:El;
    cbn [mbind option_bind] in Hrun; [|done].
  destruct (ContainsFatalError errs1) eqn:E1; [injection Hrun as <- -> <-; congruence|].
  destruct oreq as [req1|]; cbn [mbind option_bind] in Hrun; [|done].
  destruct (loaded_shape _ _ _ _ _ _ _ _ _ unmarshal_fatal El E1) as (j & srcs0 & req0 & Eu & Hext & Hlen & Happ & _).
  pose proof (fields_frame EffectiveTLDPlusOne (h_Request httpRequest) req1) as (_ & Ha & He & _ & Hids).
  set (filled := setFieldsImplicitly _ _ req1) in *.
  assert (public_ipv4 v (dev_IP (device_of filled)) /\ public_ipv6 v (dev_IPv6 (device_of filled))) as [H4 H6].
  { unfold device_of. destruct (req_Device filled) as [d|] eqn:Ed; [by eapply fields_addresses_public|by split; left]. }
  assert (length (req_Imp filled) = 1) as Hlen1 by by rw -(length_fmap imp_ID) Hids length_fmap. clearbody filled.
  destruct (defaultRequestExt float_text filled) as [req2 e2] eqn:Ed.
  destruct (ContainsFatalError (errs1 ++ e2)) eqn:E2; [injection Hrun as <- <- <-; congruence|].
  apply defaults_spec in Ed; [|done|intros p0; rw He Hext; by apply (stored_ok _ _ _ _ Eu)]. destruct (if raw_len0 _ then _ else _) as [p|err] eqn:Ep.
  2: { destruct Ed as [_ ->]. rw ContainsFatalError_app in E2. apply orb_false_iff in E2 as [_ E2].
       destruct (raw_len0 _); [done|]. apply unmarshal_error_fatal in Ep. cbn in E2. by rw Ep in E2. }
  destruct Ed as (_ & Hreq2 & Hdec & Hready & _).
  destruct (validateRequest _ _ _ _ _ _ _ _ _ _) as [[[srcs3 req3] e3]|] eqn:Ev; cbn [mbind option_bind] in Hrun; [|done].
  injection Hrun as <- <- <-. rw ContainsFatalError_app in Hok. apply orb_false_iff in Hok as [_ Hok].
  assert (device_of req2 = device_of filled) as Hdev by (rw Hreq2; by destruct filled).
  assert (request_ok v (d_BlacklistedAppMap (ad_deps deps)) req3) as Hreq by (eapply validated_ok; [done..|exact Ev|done|by rw Hdev|by rw Hdev]).
  destruct (validated_request_facts ParseISO (ad_deps deps) orders factors_visit strings_visit rates_visit float_text
    UnmarshalNative MarshalNative Validate newV4 exts_visit _ _ _ _ _ Ev Hok) as (al & co & ns & _ & _ & _ & _ & [Hl _] & _ & _ & _ & _ & Hframe).
  split; [done|]. assert (req_App req3 = None) as Happ3.
  { rw Hframe Hreq2. clear -Ha Happ. by destruct filled; cbn in *; congruence. }
  split_and!; [|done|by apply Hreq|].
  - rw Hl Hreq2. clear -Hlen1. by destruct filled.
  - exists (default_prebid p).1. split; [|done]. rw -Hdec Hframe. by destruct req2.
Qed.

Context (parse_time : string -> option Z) (decode : string -> option RawMessage).
Context (FetchAccount : string -> RawMessage * list error).
Context `{Exchange BidResponse} (Encode : AmpResponse -> option error).

(** What an AMP page is told about a response: the targeting of the cached
    bids, and debug data only if the request asks for it. *)
Definition amp_reports (req : BidRequest) (response : BidResponse) (body : AmpResponse) : Prop :=
  targets_of (concat (seat_Bid <$> resp_SeatBid response)) (ampr_Targeting body) /\
  (req_Test req <> 1%Z -> ampr_Debug body = None) /\
  ampr_Errors body = xr_Errors (UnmarshalExtResponse (resp_Ext response)).1.
Lemma amp_answer_spec req errL labels response ans :
  amp_answer UnmarshalExtResponse Encode req errL labels response = Some ans ->
  (ans_Status ans = 200%Z /\ exists body, amp_reports req response body /\
     ans_Body ans = match Encode body with None => Encoded body | Some _ => Nothing end) \/
  (ans_Status ans = 500%Z /\ (forall body, ans_Body ans <> Encoded body) /\
   exists err, list.last (ans_Errors ans) = Some (EPlain (unpacking ⧺ error_string err)) /\ unreadable_target (concat (seat_Bid <$> resp_SeatBid response)) err).
Proof.
  unfold amp_answer. destruct (extract_targets _ ∅) as [[targets|err]|] eqn:Et; cbn [mbind option_bind]; [..|done].
  - destruct (UnmarshalExtResponse (resp_Ext response)) as [x e] eqn:Ex. set (body := mkAmpResponse _ _ _ _). intros [= <-]. left.
    split; [by destruct (Encode body)|]. exists body. split; [|by destruct (Encode body)]. unfold amp_reports. rw Ex. split_and!; [|..|done].
    + intros k. cbn [ampr_Targeting]. rw (extract_targets_spec _ _ _ Et k) lookup_empty. by destruct (list.last _).
    + intros Ht. cbn. by destruct (Z.eqb_spec (req_Test req) 1).
  - intros [= <-]. right. split; [done|]. split; [done|]. exists err. split; [apply last_snoc|]. by eapply extract_targets_error.
Qed.

Definition amp_auction_ok (cfg : AccountConfig) (q : AuctionRequest) : Prop :=
  amp_request_ok (ar_BidRequest q) /\ acct_Disabled (ar_Account q) = false /\ lb_PubID (ar_LegacyLabels q) ∉ BlacklistedAcctMap cfg.
(** The errors of a refusal: those of a request that cannot be read, or what
    the account of a readable one adds to them. *)
Definition amp_refused (httpRequest : HttpRequest) (query : Values) (ans : Answer AmpResponse) : Prop :=
  (exists text, ans_Body ans = Text text) /\
  exists srcs req errL,
    parseAmpRequest float_text ParseISO UnmarshalNative MarshalNative Validate EffectiveTLDPlusOne ParseString UnmarshalRequest
      storedReqFetcher deps AMPTimeoutAdjustment orders newV4 httpRequest query = Some (srcs, req, errL) /\
    ((Exists (fun err => isFatal err = true) errL /\ ans_Errors ans = errL /\
      ans_Status ans = 400%Z /\ ans_RequestStatus ans = RequestStatusBadInput) \/
     exists req' site acctErrs, req = Some req' /\ req_Site req' = Some site /\
       GetAccount (ad_Account deps) FetchAccount (getAccountID (site_Publisher site)) = inr acctErrs /\
       ans_Errors ans = errL ++ acctErrs /\ refused_for (errL ++ acctErrs) ans /\
       (getAccountID (site_Publisher site) ∈ BlacklistedAcctMap (ad_Account deps) -> ans_Status ans = 503%Z)).
(** The time an auction may take, in nanoseconds, for a time in milliseconds. *)
Definition within (tmax timeout : Z) : Prop :=
  (tmax = 0 -> timeout = 900 * 1000000)%Z /\ (0 < tmax <= 9223372036854 -> timeout = tmax * 1000000)%Z.
Lemma amp_deadline_within req : within (req_TMax req) (amp_deadline req).
Proof.
  unfold within, amp_deadline, defaultAmpRequestTimeoutMillis, millisecond. split; [by intros ->|]. intros Ht.
  destruct (Z.ltb_spec 0 (req_TMax req)); [|lia]. apply Int64.wrap_id. unfold Int64.in_range, Int64.min_value, Int64.max_value. lia.
Qed.

End EndpointFacts.

(** ** A concrete page *)
Definition demo_amp_query : Values :=
  [("tag_id", "r"); ("curl", "https://example.com:8080/story"); ("w", "300"); ("h", "250"); ("timeout", "400"); ("account", "p1")]%string.
Definition demo_amp_http : HttpRequest :=
  mkHttp (demo_http "203.0.113.7") (fun _ => None) (fun n => inl (RawNil, n)) (0%Z, None).
Definition demo_cached_bid (id value : string) : Bid :=
  bid_set_Ext (simpleBid id "i1" F64.zero "c" "")
    (RawJson (JObj [("prebid"%string, JObj [("targeting"%string,
       JObj [("hb_cache_id"%string, JStr value); ("hb_pb"%string, JStr "1.00")])])])).
#[local] Instance demo_amp_exchange : Exchange BidResponse :=
  {| ex_HoldAuction _ _ q :=
       Some (inl (mkBidResponse (req_ID (ar_BidRequest q))
         [mkSeat "appnexus" [demo_cached_bid "b1" "uuid-1"] 0; mkSeat "rubicon" [simpleBid "b2" "i1" F64.zero "c" ""] 0]
         "USD" None RawNil)) |}.
Definition demo_ext_response (r : RawMessage) : ExtBidResponse * option error :=
  (mkExtResponse None ∅ ∅ ∅ 0 None, None).
Definition demo_amp_deps : AuctionDeps :=
  mkAuctionDeps demo_deps 1000 None (mkAuctionTimeouts 500 1000) (mkHostCookie "" "" "" "" "" 0) demo_account_config.
Definition demo_amp_answer : option (Answer AmpResponse) :=
  @AmpAuction exact_parser (amp_validator demo_networks) two_decimals (fun c => inl c) demo_unmarshal_native demo_marshal_native
    demo_validate demo_domain (fun _ => inr (EPlain "no consent")) demo_unmarshal_request demo_ext_response (fun _ => demo_stored)
    demo_amp_deps 100 demo_orders (inl "tid-1"%string) (fun _ => None) (fun _ => None) demo_fetch_account demo_amp_exchange
    (fun _ => None) demo_amp_http demo_amp_query 0.

(** A consent string that is neither TCF nor CCPA costs the page its timeout:
    the overrides stop at the warning. *)
Example bad_consent_drops_timeout :
  let query consent := ("gdpr_consent"%string, consent) :: demo_amp_query in
  let tmax consent :=
    match @loadRequestJSONForAmp exact_parser two_decimals (fun _ => inr (EPlain "no consent")) demo_unmarshal_request
            (fun _ => demo_stored) 100 (query consent) with
    | Some (_, Some req, _) => Some (req_TMax req)
    | _ => None
    end in
  tmax ""%string = Some 300%Z /\ tmax "zzz"%string = Some 500%Z.
Proof. split; vm_compute; reflexivity. Qed.
