(* ===== verification/VideoRequest.v ===== *)
(** * Requests for long-form video

    The parts of [endpoints/openrtb2/video_auction.go] around the auction:
    reading and validating a simplified request ([openrtb_ext/
    bid_request_video.go]), dropping its malformed pods, the OpenRTB request
    and the imps made of it, and the ad pods of the response ([openrtb_ext/
    bid_response_video.go]). *)

From S2P Require Import Prelude Url Float64 ErrorTypes IpNet Json Codec OpenRTB PriceGranularity ExtRequest ExtRoundtrip.
From S2P Require Import StoredRequests Targeting Response AmpEndpoint.

(** ** The request, [openrtb_ext/bid_request_video.go] *)
Record Pod := mkPod { pod_PodId : Z; pod_AdPodDurationSec : Z; pod_ConfigId : string }.
Record PodConfig := mkPodConfig {
  pc_DurationRangeSec : list Z; pc_RequireExactDuration : bool; pc_Pods : list Pod }.
Record IncludeBrandCategory := mkIncludeBrand {
  ib_PrimaryAdserver : Z; ib_Publisher : string; ib_TranslateCategories : option bool }.
Record BidRequestVideo := mkVideoRequest {
  vr_StoredRequestId : string; vr_PodConfig : PodConfig; vr_App : option App; vr_Site : option Site; vr_User : option User;
  vr_Device : Device; vr_IncludeBrandCategory : option IncludeBrandCategory; vr_Video : option Video; vr_Content : Content;
  vr_Test : Z; vr_PriceGranularity : PriceGranularity; vr_TMax : Z; vr_BCat : list string; vr_BAdv : list string;
  vr_Regs : option Regs; vr_SupportDeals : bool; vr_AppendBidderNames : bool }.
Definition vr_set_Device (r : BidRequestVideo) (d : Device) : BidRequestVideo :=
  let 'mkVideoRequest s p a si u _ ib v c t pg tm bc ba re sd ab := r in mkVideoRequest s p a si u d ib v c t pg tm bc ba re sd ab.
Definition vr_set_Video (r : BidRequestVideo) (v : option Video) : BidRequestVideo :=
  let 'mkVideoRequest s p a si u d ib _ c t pg tm bc ba re sd ab := r in mkVideoRequest s p a si u d ib v c t pg tm bc ba re sd ab.
Definition vr_set_Pods (r : BidRequestVideo) (pods : list Pod) : BidRequestVideo :=
  let 'mkVideoRequest s p a si u d ib v c t pg tm bc ba re sd ab := r in
  mkVideoRequest s (mkPodConfig (pc_DurationRangeSec p) (pc_RequireExactDuration p) pods) a si u d ib v c t pg tm bc ba re sd ab.
Definition vr_Pods (r : BidRequestVideo) : list Pod := pc_Pods (vr_PodConfig r).
Definition vr_Durations (r : BidRequestVideo) : list Z := pc_DurationRangeSec (vr_PodConfig r).

Record PodError := mkPodError { pe_PodId : Z; pe_PodIndex : nat; pe_ErrMsgs : list string }.

(** ** Validation *)
Definition isZeroOrNegativeDuration (duration : list Z) : bool := existsb (fun value => (value <=? 0)%Z) duration.
Definition missing_field (field : string) : string := "request missing required field: " ⧺ field.
(** The messages of one pod; [seen] are the ids of the pods before it. *)
Definition pod_messages (seen : gset Z) (ind : nat) (pod : Pod) : list string :=
  let at_index := "Pod index: " ⧺ GoStr.itoa (Z.of_nat ind) in
  (if bool_decide (pod_PodId pod ∈ seen) then
     ["request duplicated required field: PodConfig.Pods.PodId, Pod id: " ⧺ GoStr.itoa (pod_PodId pod)] else []) ++
  (if (pod_PodId pod <=? 0)%Z then [missing_field ("PodConfig.Pods.PodId, " ⧺ at_index)] else []) ++
  (if (pod_AdPodDurationSec pod =? 0)%Z then
     ["request missing or incorrect required field: PodConfig.Pods.AdPodDurationSec, " ⧺ at_index] else []) ++
  (if (pod_AdPodDurationSec pod <? 0)%Z then
     ["request incorrect required field: PodConfig.Pods.AdPodDurationSec is negative, " ⧺ at_index] else []) ++
  (if GoStr.is_empty (pod_ConfigId pod) then
     ["request missing or incorrect required field: PodConfig.Pods.ConfigId, " ⧺ at_index] else []).
Fixpoint pods_loop (seen : gset Z) (ind : nat) (pods : list Pod) : list PodError :=
  match pods with
  | [] => []
  | pod :: rest =>
      let errs := pods_loop ({[pod_PodId pod]} ∪ seen) (S ind) rest in
      match pod_messages seen ind pod with
      | [] => errs
      | msgs => mkPodError (pod_PodId pod) ind msgs :: errs
      end
  end.
Definition validate_pods (pods : list Pod) : list PodError := pods_loop ∅ 0 pods.

Definition when (b : bool) (msg : string) : list error := if b then [EPlain msg] else [].
(** Site and app; [inr] ends the validation. *)
Definition validate_source (BlacklistedAppMap : gset string) (req : BidRequestVideo) : list error + list error :=
  match vr_App req, vr_Site req with
  | None, None => inl [EPlain (missing_field "site or app")]
  | Some _, Some _ => inl [EPlain "request.site or request.app must be defined, but not both"]
  | None, Some site =>
      inl (when (GoStr.is_empty (site_ID site) && GoStr.is_empty (site_Page site)) "request.site missing required field: id or page")
  | Some app, None =>
      if negb (GoStr.is_empty (app_ID app)) then
        if bool_decide (app_ID app ∈ BlacklistedAppMap) then
          inr [EBlacklistedApp ("Prebid-server does not process requests from App ID: " ⧺ app_ID app)]
        else inl []
      else inl (when (GoStr.is_empty (app_Bundle app)) "request.app missing required field: id or bundle")
  end.
(** The video object, without its empty MIME types. *)
Definition validate_video (video : option Video) : option Video * list error :=
  match video with
  | None => (None, [EPlain (missing_field "Video")])
  | Some v =>
      let '(v, errs) := match vid_MIMEs v with
                        | [] => (v, [EPlain (missing_field "Video.Mimes")])
                        | mimes =>
                            let mimes := List.filter (fun m => negb (GoStr.is_empty m)) mimes in
                            (vid_set_MIMEs v mimes,
                             when (length mimes =? 0)%nat (missing_field "Video.Mimes, mime types contains empty strings only"))
                        end in
      (Some v, errs ++ when (length (vid_Protocols v) =? 0)%nat (missing_field "Video.Protocols"))
  end.
Definition validateVideoRequest (VideoStoredRequestRequired : bool) (BlacklistedAppMap : gset string) (req : BidRequestVideo) :
  BidRequestVideo * list error * list PodError :=
  let errL :=
    when (VideoStoredRequestRequired && GoStr.is_empty (vr_StoredRequestId req)) (missing_field "storedrequestid") ++
    when (length (vr_Durations req) =? 0)%nat (missing_field "PodConfig.DurationRangeSec") ++
    when (isZeroOrNegativeDuration (vr_Durations req)) "duration array cannot contain negative or zero values" ++
    when (length (vr_Pods req) =? 0)%nat (missing_field "PodConfig.Pods") in
  let podErrors := validate_pods (vr_Pods req) in
  match validate_source BlacklistedAppMap req with
  | inr errs => (req, errL ++ errs, podErrors)
  | inl errs =>
      let '(video, videoErrs) := validate_video (vr_Video req) in
      (vr_set_Video req video, errL ++ errs ++ videoErrs, podErrors)
  end.

(** [parseVideoRequest]: [UnmarshalVideo] is the JSON decoder, which leaves a
    nil request on null; [None] is the nil dereference. *)
Definition header_ua (ua : string) : string :=
  if GoStr.contains_byte "%" ua then default ua (QueryUnescape ua) else ua.
Definition parseVideoRequest (UnmarshalVideo : RawMessage -> option BidRequestVideo + error)
    (VideoStoredRequestRequired : bool) (BlacklistedAppMap : gset string) (request : RawMessage) (ua : string) :
  option ((BidRequestVideo * list error * list PodError) + error) :=
  match UnmarshalVideo request with
  | inr err => Some (inr err)
  | inl None => None
  | inl (Some req) =>
      let req := if GoStr.is_empty (dev_UA (vr_Device req)) then vr_set_Device req (dev_set_UA (vr_Device req) (header_ua ua)) else req in
      Some (inl (validateVideoRequest VideoStoredRequestRequired BlacklistedAppMap req))
  end.

(** [cleanupVideoBidRequest]: from the last error to the first; [None] is an
    index out of range. *)
Definition drop_pod (pods : list Pod) (e : PodError) : option (list Pod) :=
  if (pe_PodIndex e <? length pods)%nat then Some (take (pe_PodIndex e) pods ++ drop (S (pe_PodIndex e)) pods) else None.
Definition cleanupVideoBidRequest (videoReq : BidRequestVideo) (podErrors : list PodError) : option BidRequestVideo :=
  pods ← foldM drop_pod (rev podErrors) (vr_Pods videoReq);
  Some (vr_set_Pods videoReq pods).

(** ** The OpenRTB request *)
Section Merge.
Context (float_text : float64 -> string).
Definition video_brand (b : option IncludeBrandCategory) : ExtIncludeBrandCategory :=
  match b with
  | Some b => mkBrandCategory (ib_PrimaryAdserver b) (ib_Publisher b) true (ib_TranslateCategories b)
  | None => mkBrandCategory 0 "" false None
  end.
Definition video_prebid (r : BidRequestVideo) : ExtRequestPrebid :=
  let durationRangeSec := if pc_RequireExactDuration (vr_PodConfig r) then None else Some (vr_Durations r) in
  let priceGranularity := if (pg_Precision (vr_PriceGranularity r) =? 0)%nat then PriceGranularityFromString "med"
                          else vr_PriceGranularity r in
  let targeting := mkTargeting priceGranularity false true (Some (video_brand (vr_IncludeBrandCategory r))) false durationRangeSec
                     false (vr_AppendBidderNames r) in
  mkPrebid ∅ ∅ (Some (mkCache None (Some None))) None false RawNil [] None (vr_SupportDeals r) (Some targeting) [] None.
(** [createBidExtension]; encoding it does not fail. *)
Definition createBidExtension (r : BidRequestVideo) : RawMessage := RawJson (enc_ext_request float_text (video_prebid r)).

Definition defaultRequestTimeout : Z := 5000.
(** [mergeData] into the default request; the content always replaces the
    one of the site or app, for its address is never nil. *)
Definition mergeData (r : BidRequestVideo) (bid : BidRequest) : BidRequest :=
  let bid := match vr_Site r with Some s => req_set_Site bid (Some (site_set_Content s (Some (vr_Content r)))) | None => bid end in
  let bid := match vr_App r with Some a => req_set_App bid (Some (app_set_Content a (Some (vr_Content r)))) | None => bid end in
  let bid := req_set_User (req_set_Device bid (Some (vr_Device r))) (vr_User r) in
  let bid := match vr_BCat r with [] => bid | l => req_set_BCat bid l end in
  let bid := match vr_BAdv r with [] => bid | l => req_set_BAdv bid l end in
  let bid := req_set_Test (req_set_Ext bid (createBidExtension r)) (vr_Test r) in
  let bid := req_set_TMax bid (if (vr_TMax r =? 0)%Z then defaultRequestTimeout else vr_TMax r) in
  match vr_Regs r with Some regs => req_set_Regs bid (Some regs) | None => bid end.
End Merge.

(** ** Imps *)
Section Imps.
Context (UnmarshalImp : RawMessage -> Imp + error).
(** The fetcher of stored imps under the timeout of stored requests. *)
Context (storedReqFetcher : AllFetcher).

Definition loadStoredImp (storedImpId : string) : Imp + list error :=
  let fetched := FetchRequests storedReqFetcher [] [storedImpId] in
  match f_errs fetched with
  | [] => match UnmarshalImp (default RawNil (f_imps fetched !! storedImpId)) with inl imp => inl imp | inr err => inr [err] end
  | errs => inr errs
  end.
(** [minMax]; [None] is an empty list. *)
Definition minMax (l : list Z) : option (Z * Z) :=
  match l with
  | [] => None
  | x :: rest => Some (fold_left Z.min rest x, fold_left Z.max rest x)
  end.
(** The [i]-th imp of a pod. *)
Definition imp_id (podId : Z) (i : nat) : string := GoStr.itoa podId ⧺ "_" ⧺ GoStr.itoa (Z.of_nat i).
Definition pod_imp (durations : list Z) (exact : bool) (maxDuration impDivNumber podId : Z) (storedImp : Imp) (video : Video) (i : nat) :
  option Imp :=
  video ← (if exact then
             if (impDivNumber =? 0)%Z then None
             else
               let index := Z.to_nat (Z.min (Z.quot (Z.of_nat i) impDivNumber) (Z.of_nat (length durations) - 1)) in
               d ← durations !! index;
               Some (vid_set_MinDuration (vid_set_MaxDuration video d) d)
           else Some (vid_set_MaxDuration video maxDuration));
  Some (imp_set_ID (imp_set_Video storedImp (Some video)) (imp_id podId i)).
(** The longest slice of imps that [make] can allocate. *)
Context (maxAlloc : Z).
(** The imps of a pod whose stored imp was loaded; [None] is a division by
    zero, a length [make] refuses or the nil video that is copied. *)
Definition pod_imps (r : BidRequestVideo) (minDuration maxDuration : Z) (pod : Pod) (storedImp : Imp) : option (list Imp) :=
  let durations := vr_Durations r in
  let exact := pc_RequireExactDuration (vr_PodConfig r) in
  if ((minDuration =? 0) || (Z.of_nat (length durations) =? 0))%Z then None
  else
    let numImps := Z.quot (pod_AdPodDurationSec pod) minDuration in
    let numImps := if exact then Z.max numImps (Z.of_nat (length durations)) else numImps in
    let impDivNumber := Z.quot numImps (Z.of_nat (length durations)) in
    if ((numImps <? 0) || (maxAlloc <? numImps))%Z then None
    else mapM (fun i => video ← vr_Video r; pod_imp durations exact maxDuration impDivNumber (pod_PodId pod) storedImp video i)
           (seq 0 (Z.to_nat numImps)).
Definition load_error (ind : nat) (pod : Pod) : PodError :=
  mkPodError (pod_PodId pod) ind
    ["unable to load configid " ⧺ pod_ConfigId pod ⧺ ", Pod id: " ⧺ GoStr.itoa (pod_PodId pod)].
Fixpoint impressions_loop (r : BidRequestVideo) (minDuration maxDuration : Z) (ind : nat) (pods : list Pod) :
  option (list Imp * list PodError) :=
  match pods with
  | [] => Some ([], [])
  | pod :: rest =>
      match loadStoredImp (pod_ConfigId pod) with
      | inr _ =>
          '(imps, errs) ← impressions_loop r minDuration maxDuration (S ind) rest;
          Some (imps, load_error ind pod :: errs)
      | inl storedImp =>
          impsArray ← pod_imps r minDuration maxDuration pod storedImp;
          '(imps, errs) ← impressions_loop r minDuration maxDuration (S ind) rest;
          Some (impsArray ++ imps, errs)
      end
  end.
(** [createImpressions]: the errors join those of the validation. *)
Definition createImpressions (r : BidRequestVideo) (podErrors : list PodError) : option (list Imp * list PodError) :=
  '(minDuration, maxDuration) ← minMax (vr_Durations r);
  '(imps, errs) ← impressions_loop r minDuration maxDuration 0 (vr_Pods r);
  Some (imps, podErrors ++ errs).
End Imps.

(** ** The response, [openrtb_ext/bid_response_video.go] *)
Record VideoTargeting := mkVideoTargeting { vt_HbPb : string; vt_HbPbCatDur : string; vt_HbCacheID : string }.
Record AdPod := mkAdPod { ad_PodId : Z; ad_Targeting : list VideoTargeting; ad_Errors : list string }.

(** [strconv.ParseInt(_, 0, 64)] without underscores; an error gives 0, or the
    bound that was passed. *)
Definition digit_of (a : Ascii.ascii) : option Z :=
  let n := Z.of_nat (Ascii.nat_of_ascii a) in
  if ((48 <=? n) && (n <=? 57))%Z then Some (n - 48)%Z
  else if ((97 <=? n) && (n <=? 122))%Z then Some (n - 87)%Z
  else if ((65 <=? n) && (n <=? 90))%Z then Some (n - 55)%Z
  else None.
Fixpoint digits_of (base acc : Z) (s : string) : option Z :=
  match s with
  | EmptyString => Some acc
  | String a rest =>
      match digit_of a with
      | Some d =>
          if (base <=? d)%Z then None
          else let n := (acc * base + d)%Z in if (2 ^ 64 <=? n)%Z then Some (2 ^ 64 - 1)%Z else digits_of base n rest
      | None => None
      end
  end.
Definition is_char (lower : Ascii.ascii) (a : Ascii.ascii) : bool := Ascii.eqb (GoStr.byte_lower a) lower.
Definition uint_of (s : string) : option Z :=
  match s with
  | EmptyString => None
  | String "0" (String c ((String _ _) as rest) as tail) =>
      if is_char "b" c then digits_of 2 0 rest
      else if is_char "o" c then digits_of 8 0 rest
      else if is_char "x" c then digits_of 16 0 rest
      else digits_of 8 0 tail
  | String "0" tail => digits_of 8 0 tail
  | _ => digits_of 10 0 s
  end.
Definition ParseInt0 (s : string) : Z :=
  let '(neg, digits) := match s with
                        | String "-" rest => (true, rest)
                        | String "+" rest => (false, rest)
                        | _ => (false, s)
                        end in
  match uint_of digits with
  | None => 0%Z
  | Some n => if neg then (- Z.min n (2 ^ 63))%Z else Z.min n (2 ^ 63 - 1)
  end.

Definition formatTargetingKey (key bidderName : string) : string := GoStr.take MaxKeyLength (key ⧺ "_" ⧺ bidderName).
(** [findAdPod] and the append to the pod it finds, or to a new one. *)
Fixpoint add_targeting (podId : Z) (t : VideoTargeting) (pods : list AdPod) : list AdPod :=
  match pods with
  | [] => [mkAdPod podId [t] []]
  | pod :: rest =>
      if (ad_PodId pod =? podId)%Z then mkAdPod podId (ad_Targeting pod ++ [t]) (ad_Errors pod) :: rest
      else pod :: add_targeting podId t rest
  end.
(** The targeting of one bid, if it was cached; [None] is a nil prebid. *)
Definition read_map (m : gmap string string) (key : string) : string := default ""%string (m !! key).
Definition bid_targeting (seat : string) (bid : Bid) : option (option (Z * VideoTargeting) + error) :=
  match unmarshal dec_ext_bid (bid_Ext bid) with
  | inr err => Some (inr err)
  | inl None => None
  | inl (Some targeting) =>
      let at_ key := read_map targeting (formatTargetingKey key seat) in
      if GoStr.is_empty (at_ Key.HbVastCacheKey) then Some (inl None)
      else
        let podNum := match GoStr.split "_" (bid_ImpID bid) with p :: _ => p | [] => ""%string end in
        Some (inl (Some (ParseInt0 podNum,
          mkVideoTargeting (at_ Key.HbpbConstantKey) (at_ Key.HbCategoryDurationKey) (at_ Key.HbVastCacheKey))))
  end.
Fixpoint pods_of_bids (bids : list (string * Bid)) (adPods : list AdPod) : option (list AdPod + error) :=
  match bids with
  | [] => Some (inl adPods)
  | (seat, bid) :: rest =>
      t ← bid_targeting seat bid;
      match t with
      | inr err => Some (inr err)
      | inl None => pods_of_bids rest adPods
      | inl (Some (podId, t)) => pods_of_bids rest (add_targeting podId t adPods)
      end
  end.
Definition seat_bids (response : BidResponse) : list (string * Bid) :=
  concat ((fun s => (fun b => (seat_Seat s, b)) <$> seat_Bid s) <$> resp_SeatBid response).
Definition pod_of_error (e : PodError) : AdPod := mkAdPod (pe_PodId e) [] (pe_ErrMsgs e).
Definition buildVideoResponse (response : BidResponse) (podErrors : list PodError) : option (list AdPod + error) :=
  r ← pods_of_bids (seat_bids response) [];
  Some (match r with
        | inr err => inr err
        | inl adPods =>
            if (length adPods =? 0)%nat && negb (length (seat_bids response) =? 0)%nat then inr (EPlain "caching failed for all bids")
            else inl (adPods ++ (pod_of_error <$> podErrors))
        end).

(** ** Pod ids in imp ids *)
Section ImpIds.
Lemma digit_of_val a d : GoStr.digit_val a = Some d -> digit_of a = Some d /\ (0 <= d < 10)%Z.
Proof.
  unfold GoStr.digit_val, digit_of. set (n := Ascii.nat_of_ascii a). intros H.
  destruct (Nat.leb_spec 48 n); [|done]. destruct (Nat.leb_spec n 57); [|done]. injection H as <-.
  destruct (Z.leb_spec 48 (Z.of_nat n)); [|lia]. destruct (Z.leb_spec (Z.of_nat n) 57); [|lia].
  cbn [andb]. split; [f_equal; lia|lia].
Qed.
Lemma digits_val_mono s acc n : (0 <= acc)%Z -> GoStr.digits_val acc s = Some n -> (acc <= n)%Z.
Proof.
  revert acc. induction s as [|a s IH]; intros acc Hacc; cbn [GoStr.digits_val]; [intros [= ->]; lia|].
  destruct (GoStr.digit_val a) as [d|] eqn:Ed; [|done]. intros H. apply digit_of_val in Ed as [_ Hd].
  apply IH in H; lia.
Qed.
Lemma digits_of_val s acc n : (0 <= acc)%Z -> (n < 2 ^ 64)%Z -> GoStr.digits_val acc s = Some n -> digits_of 10 acc s = Some n.
Proof.
  revert acc. induction s as [|a s IH]; intros acc Hacc Hn; cbn [GoStr.digits_val digits_of]; [done|].
  destruct (GoStr.digit_val a) as [d|] eqn:Ed; [|done]. intros H. apply digit_of_val in Ed as [-> Hd].
  destruct (Z.leb_spec 10 d); [lia|]. assert (10 * acc + d = acc * 10 + d)%Z as Heq by lia. rw Heq in H.
  assert (acc * 10 + d <= n)%Z by (eapply digits_val_mono; [|exact H]; lia). destruct (Z.leb_spec (2 ^ 64) (acc * 10 + d)); [lia|].
  apply IH; [lia|done|done].
Qed.
(** [ParseInt] with base 0 reads back the decimal text of a positive number:
    it has no leading zero, so no other base is chosen. *)
Lemma ParseInt0_itoa z : (0 < z < 2 ^ 63)%Z -> ParseInt0 (GoStr.itoa z) = z.
Proof.
  intros Hz. destruct z as [|p|p]; [lia| |lia]. unfold GoStr.itoa. change (pretty (Zpos p)) with (pretty_N_go (Npos p) "").
  pose proof (unsigned_val_pretty (Npos p) ltac:(lia)) as Hu.
  destruct (pretty_N_lead (Npos p) "" ltac:(lia)) as (a & r & d & E & Hd & Hpos). rw E. rw E in Hu.
  assert (uint_of (String a r) = Some (Zpos p)) as Hun.
  { apply digits_of_val in Hu; [|lia|lia]. etrans; [|exact Hu]. revert Hd. clear -Hpos.
    destruct a as [[] [] [] [] [] [] [] []]; intros Hd; vm_compute in Hd; try discriminate Hd; try reflexivity.
    injection Hd as <-. lia. }
  assert (ParseInt0 (String a r) = match uint_of (String a r) with None => 0%Z | Some n => Z.min n (2 ^ 63 - 1) end) as ->.
  { revert Hd. clear. by destruct a as [[] [] [] [] [] [] [] []]. }
  rw Hun. lia.
Qed.

Lemma imp_id_split podId i : (0 < podId)%Z -> GoStr.split "_" (imp_id podId i) = [GoStr.itoa podId; GoStr.itoa (Z.of_nat i)].
Proof.
  intros Hp. unfold imp_id. change ("_" ⧺ ?s) with (String "_" s). rw split_app; [apply itoa_bytes; [lia|done]|].
  rw split_none; [apply itoa_bytes; [lia|done]|]. done.
Qed.
Lemma imp_id_inj p i q j : (0 < p)%Z -> (0 < q)%Z -> imp_id p i = imp_id q j -> p = q /\ i = j.
Proof.
  intros Hp Hq E. pose proof (imp_id_split p i Hp) as H. rw E (imp_id_split q j Hq) in H.
  injection H as H1 H2. apply (inj pretty) in H1, H2. split; [done|lia].
Qed.
End ImpIds.

(** ** Pods in error *)
Definition pod_fine (before : list Pod) (pod : Pod) : Prop :=
  (pod_PodId pod ∉ (pod_PodId <$> before)) /\ (0 < pod_PodId pod)%Z /\ (0 < pod_AdPodDurationSec pod)%Z /\
  pod_ConfigId pod <> ""%string.
#[export] Instance pod_fine_dec before pod : Decision (pod_fine before pod).
Proof. unfold pod_fine. apply _. Defined.
(** The pods worth keeping: well formed, and the first with their id. *)
Fixpoint fine_pods (before pods : list Pod) : list Pod :=
  match pods with
  | [] => []
  | pod :: rest => (if bool_decide (pod_fine before pod) then [pod] else []) ++ fine_pods (before ++ [pod]) rest
  end.

Section Pods.
Lemma pod_messages_fine before ind pod :
  pod_messages (list_to_set (pod_PodId <$> before)) ind pod = [] <-> pod_fine before pod.
Proof.
  unfold pod_messages, pod_fine. case_bool_decide as Hin; rw elem_of_list_to_set in Hin.
  { split; [done|]. by intros [? _]. }
  destruct (Z.leb_spec (pod_PodId pod) 0); [split; [done|lia]|].
  destruct (Z.eqb_spec (pod_AdPodDurationSec pod) 0); [split; [done|lia]|].
  destruct (Z.ltb_spec (pod_AdPodDurationSec pod) 0); [split; [done|lia]|].
  destruct (GoStr.is_empty (pod_ConfigId pod)) eqn:E; [apply is_empty_true in E|apply is_empty_false in E].
  - split; [done|]. intros (_ & _ & _ & Hc). done.
  - split; [|done]. intros _. repeat split; try done; lia.
Qed.

Lemma seen_snoc (before : list Pod) pod :
  {[pod_PodId pod]} ∪ list_to_set (C := gset Z) (pod_PodId <$> before) = list_to_set (pod_PodId <$> before ++ [pod]).
Proof. rw fmap_app list_to_set_app_L. cbn. set_solver. Qed.

Definition errors_after (before pods : list Pod) : list PodError :=
  pods_loop (list_to_set (pod_PodId <$> before)) (length before) pods.
Lemma errors_after_cons before pod pods : exists msgs, msgs <> [] /\
  errors_after before (pod :: pods) =
    (if bool_decide (pod_fine before pod) then [] else [mkPodError (pod_PodId pod) (length before) msgs]) ++
    errors_after (before ++ [pod]) pods.
Proof.
  unfold errors_after at 1. cbn [pods_loop]. rw seen_snoc.
  change (pods_loop _ (S (length before)) pods) with
    (pods_loop (list_to_set (pod_PodId <$> before ++ [pod])) (S (length before)) pods).
  assert (S (length before) = length (before ++ [pod])) as -> by (rw length_app; cbn; lia).
  change (pods_loop _ _ pods) with (errors_after (before ++ [pod]) pods).
  pose proof (pod_messages_fine before (length before) pod) as Hm. case_bool_decide as Hf.
  - exists ["x"%string]. by rw (proj2 Hm Hf).
  - destruct (pod_messages _ _ pod) as [|m ms]; [by tauto|]. by exists (m :: ms).
Qed.

(** Dropping the pods in error leaves the fine ones. *)
Lemma drop_errors before pods :
  foldM drop_pod (rev (errors_after before pods)) (before ++ pods) = Some (before ++ fine_pods before pods).
Proof.
  revert before. induction pods as [|pod pods IH]; intros before; [done|].
  destruct (errors_after_cons before pod pods) as (msgs & _ & ->). cbn [fine_pods].
  rw rev_app_distr foldM_app. specialize (IH (before ++ [pod])). rw -!(app_assoc before) in IH. cbn [app] in IH. rw IH.
  case_bool_decide; [done|]. cbn [rev app foldM]. unfold drop_pod. cbn [pe_PodIndex].
  rw (proj2 (Nat.ltb_lt _ _)); [rw length_app; cbn; lia|]. rw take_app_length drop_app_ge; [lia|].
  by replace (S (length before) - length before) with 1 by lia.
Qed.
Lemma errors_count before pods : length (errors_after before pods) + length (fine_pods before pods) = length pods.
Proof.
  revert before. induction pods as [|pod pods IH]; intros before; [done|].
  destruct (errors_after_cons before pod pods) as (msgs & _ & ->). cbn [fine_pods]. rw !length_app. specialize (IH (before ++ [pod])).
  case_bool_decide; cbn [length]; lia.
Qed.
Lemma errors_indices before pods e : e ∈ errors_after before pods ->
  exists i pod msgs, pods !! i = Some pod /\ ~ pod_fine (before ++ take i pods) pod /\
    e = mkPodError (pod_PodId pod) (length before + i) msgs /\ msgs <> [].
Proof.
  revert before. induction pods as [|pod pods IH]; intros before; [by intros He%elem_of_nil|].
  destruct (errors_after_cons before pod pods) as (msgs & Hmsgs & ->). intros [He|He]%elem_of_app.
  - case_bool_decide as Hf; [by apply elem_of_nil in He|]. apply list_elem_of_singleton in He as ->.
    exists 0, pod, msgs. by rw app_nil_r Nat.add_0_r.
  - destruct (IH _ He) as (i & p & ms & Hp & Hf & -> & Hms). exists (S i), p, ms. cbn [take].
    rw -(app_assoc before) in Hf. split_and!; try done. rw length_app. f_equal. cbn. lia.
Qed.
Lemma errors_complete before pods i pod :
  pods !! i = Some pod -> ~ pod_fine (before ++ take i pods) pod ->
  exists e, e ∈ errors_after before pods /\ pe_PodIndex e = length before + i.
Proof.
  revert before i. induction pods as [|p pods IH]; intros before i; [done|].
  destruct (errors_after_cons before p pods) as (msgs & Hmsgs & ->). destruct i as [|i]; cbn [take].
  - intros [= ->]. rw app_nil_r. intros Hf. rw bool_decide_eq_false_2; [done|]. eexists. split; [by left|]. cbn. lia.
  - intros Hp Hf. destruct (IH (before ++ [p]) i Hp) as (e & He & Hi); [by rw -(app_assoc before)|].
    exists e. split; [apply elem_of_app; by right|]. rw length_app in Hi. cbn in Hi. lia.
Qed.

Lemma fine_pods_ids before pods :
  NoDup (pod_PodId <$> fine_pods before pods) /\
  Forall (fun pod => pod_fine before pod) (fine_pods before pods).
Proof.
  revert before. induction pods as [|pod pods IH]; intros before; cbn [fine_pods]; [by split; constructor|].
  destruct (IH (before ++ [pod])) as [Hnd Hall].
  assert (Forall (fun p => pod_fine before p /\ pod_PodId p <> pod_PodId pod) (fine_pods (before ++ [pod]) pods)) as Hb.
  { eapply list.Forall_impl; [exact Hall|]. intros p (Hid & Hp). rw fmap_app in Hid. split; [split; [|done]|]; set_solver. }
  split.
  - case_bool_decide; [|done]. cbn. constructor; [|done]. intros (p & Heq & Hp)%list_elem_of_fmap.
    rw list.Forall_forall in Hb. apply Hb in Hp as [_ Hp]. done.
  - apply Forall_app. split; [by case_bool_decide; [apply Forall_singleton|apply Forall_nil]|]. eapply list.Forall_impl; [exact Hb|]. by intros p [? _].
Qed.
End Pods.

Lemma bad_pods_facts r :
  cleanupVideoBidRequest r (validate_pods (vr_Pods r)) = Some (vr_set_Pods r (fine_pods [] (vr_Pods r))) /\
  NoDup (pod_PodId <$> fine_pods [] (vr_Pods r)) /\ Forall (pod_fine []) (fine_pods [] (vr_Pods r)).
Proof.
  change (validate_pods (vr_Pods r)) with (errors_after [] (vr_Pods r)). split; [|apply fine_pods_ids].
  unfold cleanupVideoBidRequest. pose proof (drop_errors [] (vr_Pods r)) as Hdrop. cbn [app] in Hdrop. by rw Hdrop.
Qed.

(** Validation reports exactly the pods that are malformed or repeat the
    id of an earlier pod, each with its index, its id and a message, and the
    clean-up never indexes out of range and drops exactly them: what is left
    are the well-formed pods in their order, with distinct positive ids,
    positive durations and a config id. *)
Theorem bad_pods_dropped r : let errors := validate_pods (vr_Pods r) in
  cleanupVideoBidRequest r errors = Some (vr_set_Pods r (fine_pods [] (vr_Pods r))) /\
  (forall i pod, vr_Pods r !! i = Some pod ->
     ~ pod_fine (take i (vr_Pods r)) pod <->
     exists msgs, mkPodError (pod_PodId pod) i msgs ∈ errors /\ msgs <> []) /\
  length errors + length (fine_pods [] (vr_Pods r)) = length (vr_Pods r) /\
  NoDup (pod_PodId <$> fine_pods [] (vr_Pods r)) /\ Forall (pod_fine []) (fine_pods [] (vr_Pods r)).
Proof.
  destruct (bad_pods_facts r) as (Hdrop & Hnd & Hall). cbv zeta.
  change (validate_pods (vr_Pods r)) with (errors_after [] (vr_Pods r)) in *.
  split_and!; [done| |by apply errors_count|done|done]. intros i pod Hpod. split.
  - intros Hf. destruct (errors_complete [] _ i pod Hpod Hf) as (e & He & Hi). pose proof He as Hin.
    apply errors_indices in He as (j & p & msgs & Hp & _ & -> & Hms). cbn in Hi. subst j. rw Hpod in Hp.
    injection Hp as <-. by exists msgs.
  - intros (msgs & He & _). apply errors_indices in He as (j & p & ms & Hp & Hf & [= Hid -> _] & _).
    rw Hpod in Hp. by injection Hp as <-.
Qed.

(** ** Imps made of a valid request *)
Section Created.
Context (UnmarshalImp : RawMessage -> Imp + error) (storedReqFetcher : AllFetcher) (maxAlloc : Z).
Context (r : BidRequestVideo) (video : Video) (minDuration maxDuration : Z).
Abbreviation durations := (vr_Durations r).
Abbreviation exact := (pc_RequireExactDuration (vr_PodConfig r)).
Abbreviation load pod := (loadStoredImp UnmarshalImp storedReqFetcher (pod_ConfigId pod)).

(** What a pod must get: imps of its stored imp numbered from 0, that differ
    in their durations only. *)
Definition sized (v : Video) : Prop :=
  if exact then exists d, d ∈ durations /\ v = vid_set_MinDuration (vid_set_MaxDuration video d) d
  else v = vid_set_MaxDuration video maxDuration.
Definition stored_imps (storedImp : Imp) (pod : Pod) (l : list Imp) : Prop :=
  (forall i imp, l !! i = Some imp -> exists v,
     imp = imp_set_ID (imp_set_Video storedImp (Some v)) (imp_id (pod_PodId pod) i) /\ sized v) /\
  (if exact then
     (pod_AdPodDurationSec pod < (Z.of_nat (length l) + 1) * minDuration)%Z /\
     (forall d, d ∈ durations -> exists imp v, imp ∈ l /\ imp_Video imp = Some v /\ vid_MaxDuration v = d /\ vid_MinDuration v = d)
   else (Z.of_nat (length l) * minDuration <= pod_AdPodDurationSec pod < (Z.of_nat (length l) + 1) * minDuration)%Z).
Definition pod_gets (pod : Pod) (l : list Imp) : Prop :=
  match load pod with
  | inl storedImp => stored_imps storedImp pod l
  | inr _ => l = []
  end.

Hypothesis Hvideo : vr_Video r = Some video.
Hypothesis Hdur : durations <> [].
Hypothesis Hmin : (0 < minDuration)%Z.
Hypothesis Hlen : (Z.of_nat (length durations) <= maxAlloc)%Z.

(** The durations are dealt in order, at least [n / k] imps to each. *)
Definition duration_index (n i : nat) : nat := Nat.min (i / (n / length durations)) (length durations - 1).
Lemma duration_index_lt n i : duration_index n i < length durations.
Proof. unfold duration_index. destruct durations; [done|]. cbn [length]. lia. Qed.
Lemma duration_index_onto n j : length durations <= n -> j < length durations ->
  exists i, i < n /\ duration_index n i = j.
Proof.
  intros Hn Hj. unfold duration_index. set (k := length durations) in *.
  pose proof (Nat.div_le_lower_bound n k 1 ltac:(lia) ltac:(lia)) as Hq. pose proof (Nat.Div0.mul_div_le n k) as Hm.
  exists (j * (n / k)). rw Nat.div_mul; [lia|]. split; [nia|lia].
Qed.

Definition numImps (pod : Pod) : Z :=
  let n := Z.quot (pod_AdPodDurationSec pod) minDuration in if exact then Z.max n (Z.of_nat (length durations)) else n.
Definition nth_imp (storedImp : Imp) (pod : Pod) (n i : nat) : Imp :=
  let v := if exact then let d := default 0%Z (durations !! duration_index n i) in
                         vid_set_MinDuration (vid_set_MaxDuration video d) d
           else vid_set_MaxDuration video maxDuration in
  imp_set_ID (imp_set_Video storedImp (Some v)) (imp_id (pod_PodId pod) i).

Lemma pod_imps_spec pod storedImp : (0 < pod_AdPodDurationSec pod <= maxAlloc)%Z ->
  pod_imps maxAlloc r minDuration maxDuration pod storedImp =
  Some (nth_imp storedImp pod (Z.to_nat (numImps pod)) <$> seq 0 (Z.to_nat (numImps pod))).
Proof.
  intros Hpod. unfold pod_imps. fold (numImps pod).
  assert (0 < length durations) as Hk by (destruct durations; [done|cbn; lia]).
  assert (0 <= Z.quot (pod_AdPodDurationSec pod) minDuration <= maxAlloc)%Z as Hq.
  { split; [apply Z.quot_pos; lia|]. etrans; [apply Z.quot_le_upper_bound|]; [lia| |reflexivity]. nia. }
  assert (0 <= numImps pod <= maxAlloc)%Z as Hn by (unfold numImps; destruct exact; lia).
  rw (proj2 (Z.eqb_neq _ 0)); [lia|]. rw (proj2 (Z.eqb_neq _ 0)); [lia|]. cbn [orb].
  rw (proj2 (Z.ltb_ge _ _)); [lia|]. rw (proj2 (Z.ltb_ge _ _)); [lia|]. cbn [orb]. rw Hvideo. cbn [mbind option_bind].
  apply mapM_Some_2, Forall2_fmap_r, Forall_Forall2_diag, list.Forall_forall. intros i Hi%elem_of_seq.
  unfold pod_imp, nth_imp. destruct exact eqn:Ex; [|done]. unfold numImps in *. rw Ex in Hn. rw Ex in Hi. rw Ex.
  set (n := Z.max _ _) in *.
  assert (Z.quot n (Z.of_nat (length durations)) = Z.of_nat (Z.to_nat n / length durations)) as ->.
  { rw Nat2Z.inj_div Z2Nat.id; [lia|]. apply Z.quot_div_nonneg; lia. }
  assert (0 < Z.to_nat n / length durations) as Hd by (apply Nat.div_str_pos; lia).
  rw (proj2 (Z.eqb_neq _ 0)); [lia|]. rw Z.quot_div_nonneg; [lia|lia|]. rw -Nat2Z.inj_div.
  assert (Z.to_nat (Z.min (Z.of_nat (i / (Z.to_nat n / length durations))) (Z.of_nat (length durations) - 1)) =
          duration_index (Z.to_nat n) i) as -> by (unfold duration_index; lia).
  destruct (lookup_lt_is_Some_2 durations (duration_index (Z.to_nat n) i)) as [d Ed]; [by apply duration_index_lt|].
  rw Ed. cbn. by rw Ed.
Qed.

Lemma nth_imps_stored pod storedImp : (0 < pod_AdPodDurationSec pod)%Z ->
  stored_imps storedImp pod (nth_imp storedImp pod (Z.to_nat (numImps pod)) <$> seq 0 (Z.to_nat (numImps pod))).
Proof.
  intros Hpod. set (n := Z.to_nat (numImps pod)). rw /stored_imps length_fmap length_seq.
  assert (0 <= Z.quot (pod_AdPodDurationSec pod) minDuration)%Z as Hq by (apply Z.quot_pos; lia).
  pose proof (Z.quot_rem' (pod_AdPodDurationSec pod) minDuration) as Hqr.
  pose proof (Z.rem_bound_pos (pod_AdPodDurationSec pod) minDuration ltac:(lia) ltac:(lia)) as Hrem. split.
  - intros i imp. rw list_lookup_fmap. destruct (seq 0 n !! i) as [j|] eqn:Ej; [|done]. apply lookup_seq in Ej as [-> _].
    intros [= <-]. eexists. split; [done|]. rw /sized. destruct exact; [|done].
    destruct (lookup_lt_is_Some_2 durations (duration_index n i)) as [d Hd]; [apply duration_index_lt|]. rw Hd.
    exists d. split; [by eapply list_elem_of_lookup_2|done].
  - subst n. unfold numImps, nth_imp. destruct exact; [|rw Z2Nat.id; [done|]; nia].
    rw Z2Nat.id; [lia|]. split; [nia|]. intros d [j Hj]%list_elem_of_lookup_1.
    pose proof (lookup_lt_Some _ _ _ Hj) as Hlt. set (n := Z.to_nat _).
    destruct (duration_index_onto n j) as (i & Hi & Hij); [lia|done|].
    eexists _, _. split; [apply list_elem_of_fmap; exists i; split; [reflexivity|apply elem_of_seq; lia]|].
    rw Hij Hj. destruct storedImp, video. done.
Qed.

Lemma impressions_loop_spec ind pods :
  Forall (fun pod => (0 < pod_AdPodDurationSec pod <= maxAlloc)%Z) pods ->
  exists parts errs, impressions_loop UnmarshalImp storedReqFetcher maxAlloc r minDuration maxDuration ind pods =
    Some (concat parts, errs) /\ Forall2 pod_gets pods parts /\
    (fun e => (pe_PodId e, pe_ErrMsgs e)) <$> errs =
      (fun pod => (pod_PodId pod, pe_ErrMsgs (load_error 0 pod))) <$> List.filter (fun pod => match load pod with inl _ => false | inr _ => true end) pods.
Proof.
  intros Hpods. revert ind. induction Hpods as [|pod pods Hpod Hpods IH]; intros ind; cbn [impressions_loop List.filter].
  { by exists [], []. }
  destruct (IH (S ind)) as (parts & errs & E & Hparts & Herrs). rw E. cbn [mbind option_bind].
  destruct (load pod) as [storedImp|es] eqn:El.
  - rw (pod_imps_spec pod storedImp Hpod). cbn [mbind option_bind]. eexists (_ :: parts), errs. split; [done|].
    split; [|done]. constructor; [|done]. unfold pod_gets. rw El. apply nth_imps_stored. lia.
  - exists ([] :: parts), (load_error ind pod :: errs). split; [done|]. split; [|cbn; by rw Herrs].
    constructor; [|done]. unfold pod_gets. by rw El.
Qed.
End Created.

Section CreatedIds.
Context (UnmarshalImp : RawMessage -> Imp + error) (storedReqFetcher : AllFetcher) (r : BidRequestVideo) (video : Video).
Context (minDuration maxDuration : Z).
Abbreviation gets := (pod_gets UnmarshalImp storedReqFetcher r video minDuration maxDuration).

Lemma pod_gets_id pod l i imp : gets pod l -> l !! i = Some imp -> imp_ID imp = imp_id (pod_PodId pod) i.
Proof.
  unfold pod_gets. destruct (loadStoredImp _ _ _) as [s|]; [|by intros ->]. intros [H _] Hi.
  destruct (H i imp Hi) as (v & -> & _). by destruct s.
Qed.
Lemma created_ids pods parts : Forall2 gets pods parts -> NoDup (pod_PodId <$> pods) ->
  Forall (fun pod => (0 < pod_PodId pod)%Z) pods ->
  NoDup (imp_ID <$> concat parts) /\
  (forall id, id ∈ imp_ID <$> concat parts -> exists pod i, pod ∈ pods /\ id = imp_id (pod_PodId pod) i).
Proof.
  induction 1 as [|pod l pods parts Hl Hparts IH]; cbn.
  { intros _ _. split; [constructor|]. by intros id H%elem_of_nil. }
  intros [Hnew Hnd]%list.NoDup_cons [Hpos Hall]%list.Forall_cons. destruct (IH Hnd Hall) as [IHnd IHid]. rw fmap_app.
  assert (forall id, id ∈ imp_ID <$> l -> exists i, id = imp_id (pod_PodId pod) i) as Hids.
  { intros id (imp & -> & [i Hi]%list_elem_of_lookup_1)%list_elem_of_fmap. exists i. by eapply pod_gets_id. }
  split.
  - apply list.NoDup_app. split_and!; [|intros id (i & ->)%Hids (p & j & Hp & Heq)%IHid|done].
    + apply NoDup_alt. intros i j id Hi Hj. apply list_lookup_fmap_Some in Hi as (a & -> & Ha), Hj as (b & Heq & Hb).
      rw (pod_gets_id _ _ _ _ Hl Ha) (pod_gets_id _ _ _ _ Hl Hb) in Heq. by apply imp_id_inj in Heq as [_ ->].
    + rw list.Forall_forall in Hall. apply imp_id_inj in Heq as [Heq _]; [|done|by apply Hall]. apply Hnew. rw Heq.
      by apply list_elem_of_fmap_2.
  - intros id [(i & ->)%Hids|(p & i & Hp & ->)%IHid]%elem_of_app; [exists pod, i|exists p, i]; (split; [set_solver|done]).
Qed.
End CreatedIds.

Lemma minMax_spec l : l <> [] -> exists mn mx, minMax l = Some (mn, mx) /\ mn ∈ l /\ mx ∈ l /\ Forall (fun d => mn <= d <= mx)%Z l.
Proof.
  destruct l as [|x l]; [done|]. intros _. eexists _, _. split; [done|].
  assert (forall (f : Z -> Z -> Z) a, (forall u v, f u v = u \/ f u v = v) -> fold_left f l a ∈ a :: l) as Hin.
  { intros f a Hf. revert a. induction l as [|y l IH]; intros a; cbn; [by left|]. specialize (IH (f a y)).
    destruct (Hf a y) as [E|E]; rw E in IH; rw E; rw elem_of_cons in IH; rw !elem_of_cons; tauto. }
  assert (forall a, fold_left Z.min l a <= a /\ Forall (fun d => fold_left Z.min l a <= d) l)%Z as Hmn.
  { clear Hin. induction l as [|y l IH]; intros a; cbn; [split; [lia|done]|]. destruct (IH (Z.min a y)) as [Ha Hf].
    split; [lia|]. constructor; [lia|done]. }
  assert (forall a, a <= fold_left Z.max l a /\ Forall (fun d => d <= fold_left Z.max l a) l)%Z as Hmx.
  { clear Hin Hmn. induction l as [|y l IH]; intros a; cbn; [split; [lia|done]|]. destruct (IH (Z.max a y)) as [Ha Hf].
    split; [lia|]. constructor; [lia|done]. }
  split_and!; [apply Hin; lia|apply Hin; lia|]. destruct (Hmn x) as [? Hf], (Hmx x) as [? Hg]. constructor; [lia|].
  rw list.Forall_forall in Hf. rw list.Forall_forall in Hg. apply list.Forall_forall. intros d Hd. split; auto.
Qed.

(** What a request that passed validation has. *)
Lemma validated_video req bl q q' podErrors : validateVideoRequest req bl q = (q', [], podErrors) ->
  podErrors = validate_pods (vr_Pods q) /\ vr_Durations q <> [] /\ Forall (fun d => 0 < d)%Z (vr_Durations q) /\
  exists v, q' = vr_set_Video q (Some v).
Proof.
  unfold validateVideoRequest. set (checks := _ ++ _). intros H.
  assert (podErrors = validate_pods (vr_Pods q) /\ checks = [] /\ exists v, q' = vr_set_Video q (Some v)) as (-> & Hc & Hv).
  { destruct (validate_source bl q) as [errs|errs] eqn:Es.
    - destruct (vr_Video q) as [v|]; cbn [validate_video] in H.
      + destruct (vid_MIMEs v); injection H as <- Hc <-; apply app_eq_nil in Hc as [-> _]; (split_and!; [done|done|by eexists]).
      + injection H as _ Hc _. apply app_eq_nil in Hc as [_ [_ ?]%app_eq_nil]. done.
    - injection H as <- Hc <-. apply app_eq_nil in Hc as [_ ->]. revert Es. unfold validate_source.
      destruct (vr_App q), (vr_Site q); try done. destruct (negb _); [|done]. by case_bool_decide. }
  split; [done|]. unfold checks, when in Hc. split_and!; [..|done].
  - intros E. rw E in Hc. by repeat (apply app_eq_nil in Hc as [? Hc]).
  - apply app_eq_nil in Hc as [_ [_ [Hc _]%app_eq_nil]%app_eq_nil]. destruct (isZeroOrNegativeDuration _) eqn:E; [done|].
    apply list.Forall_forall. intros d Hd. destruct (Z.ltb_spec 0 d); [done|]. exfalso. apply not_true_iff_false in E. apply E.
    apply existsb_exists. exists d. split; [by apply list_elem_of_In|lia].
Qed.

Lemma fine_pods_in before pods pod : pod ∈ fine_pods before pods -> pod ∈ pods.
Proof.
  revert before. induction pods as [|p pods IH]; intros before; cbn; [done|]. rw elem_of_app elem_of_cons.
  intros [H|H%IH]; [|by right]. case_bool_decide; [|by apply elem_of_nil in H]. left. by apply list_elem_of_singleton in H.
Qed.
Definition loads (UnmarshalImp : RawMessage -> Imp + error) (storedReqFetcher : AllFetcher) (pod : Pod) : bool :=
  match loadStoredImp UnmarshalImp storedReqFetcher (pod_ConfigId pod) with inl _ => true | inr _ => false end.

(** C12: For a request without fatal errors, the imps of the pods that are kept
    are made without a panic (given slices of that size can be allocated): a
    pod whose stored imp does not load is reported, and every other pod gets
    the imps [id_0], [id_1], ... of its stored imp with a copy of the
    request's video. Without exact durations they are as many as the shortest
    duration fits in the pod, each at most the longest duration; with exact
    durations they are at least as many, each imp has one of the durations and
    every duration is used. All the imp ids are distinct. *)
Theorem video_imps_created UnmarshalImp storedReqFetcher maxAlloc req bl q q' podErrors r :
  validateVideoRequest req bl q = (q', [], podErrors) -> cleanupVideoBidRequest q' podErrors = Some r ->
  (Z.of_nat (length (vr_Durations q)) <= maxAlloc)%Z ->
  Forall (fun pod => (pod_AdPodDurationSec pod <= maxAlloc)%Z) (vr_Pods q) ->
  exists video minDuration maxDuration parts errs,
    vr_Video q' = Some video /\ minDuration ∈ vr_Durations q /\ maxDuration ∈ vr_Durations q /\
    Forall (fun d => minDuration <= d <= maxDuration)%Z (vr_Durations q) /\
    createImpressions UnmarshalImp storedReqFetcher maxAlloc r podErrors = Some (concat parts, podErrors ++ errs) /\
    Forall2 (pod_gets UnmarshalImp storedReqFetcher r video minDuration maxDuration) (vr_Pods r) parts /\
    NoDup (imp_ID <$> concat parts) /\
    pe_PodId <$> errs = pod_PodId <$> List.filter (fun pod => negb (loads UnmarshalImp storedReqFetcher pod)) (vr_Pods r).
Proof.
  intros Hv Hc Hlen Hsize. destruct (validated_video _ _ _ _ _ Hv) as (-> & Hne & Hpos & video & ->).
  assert (vr_Pods (vr_set_Video q (Some video)) = vr_Pods q) as Hp by by destruct q.
  pose proof (bad_pods_facts (vr_set_Video q (Some video))) as (Hc' & Hnd & Hfine). rw Hp in Hc', Hnd, Hfine.
  rw Hc in Hc'. injection Hc' as ->. set (kept := fine_pods [] (vr_Pods q)) in *.
  set (r := vr_set_Pods _ kept). assert (vr_Pods r = kept) as Hk by by destruct q.
  assert (vr_Durations r = vr_Durations q) as Hd by by destruct q. assert (vr_Video r = Some video) as Hvid by by destruct q.
  destruct (minMax_spec _ Hne) as (mn & mx & Hmm & Hmn & Hmx & Hrange).
  assert (0 < mn)%Z as Hmin by by eapply list.Forall_forall in Hpos.
  destruct (impressions_loop_spec UnmarshalImp storedReqFetcher maxAlloc r video mn mx) with (ind := 0) (pods := kept)
    as (parts & errs & E & Hparts & Herrs); [done|by rw Hd|done|by rw Hd| |].
  { apply list.Forall_forall. intros pod Hin. split; [by eapply list.Forall_forall in Hfine as (_ & _ & ? & _)|].
    eapply list.Forall_forall in Hsize; [done|]. by apply fine_pods_in in Hin. }
  exists video, mn, mx, parts, errs. rw Hk. split_and!; try done; [by destruct q| | |].
  - unfold createImpressions. rw Hd Hmm Hk. cbn [mbind option_bind]. by rw E.
  - eapply created_ids; [exact Hparts|done|]. eapply list.Forall_impl; [exact Hfine|]. by intros pod (_ & ? & _).
  - apply (f_equal (fmap fst)) in Herrs. rw -!list_fmap_compose in Herrs. etrans; [exact Herrs|]. unfold loads. f_equal.
    apply filter_ext. intros pod. by destruct (loadStoredImp _ _ _).
Qed.

(** ** The ad pods of the response *)
(** The pods of a list of pod ids and targetings: one per id, in the order of
    their first occurrences, with the targetings of that id in their order. *)
Definition targetings (podId : Z) (l : list (Z * VideoTargeting)) : list VideoTargeting :=
  (List.filter (fun p => (p.1 =? podId)%Z) l).*2.
Definition first_ids (l : list (Z * VideoTargeting)) : list Z := reverse (remove_dups (reverse l.*1)).
Definition group_by_pod (l : list (Z * VideoTargeting)) : list AdPod :=
  (fun podId => mkAdPod podId (targetings podId l) []) <$> first_ids l.

Section Grouping.
Lemma add_targeting_ids podId t (f : Z -> list VideoTargeting) ids : NoDup ids ->
  add_targeting podId t ((fun id => mkAdPod id (f id) []) <$> ids) =
  if bool_decide (podId ∈ ids) then (fun id => mkAdPod id (f id ++ if (podId =? id)%Z then [t] else []) []) <$> ids
  else ((fun id => mkAdPod id (f id) []) <$> ids) ++ [mkAdPod podId [t] []].
Proof.
  induction ids as [|id ids IH]; [done|]. intros [Hid Hnd]%list.NoDup_cons. cbn. rw Z.eqb_sym.
  destruct (Z.eqb_spec podId id) as [->|Hne].
  - rw bool_decide_eq_true_2; [by left|]. f_equal. apply list_fmap_ext. intros i x Hx. apply list_elem_of_lookup_2 in Hx.
    destruct (Z.eqb_spec id x) as [->|_]; [done|]. by rw app_nil_r.
  - rw app_nil_r (IH Hnd). assert (bool_decide (podId ∈ id :: ids) = bool_decide (podId ∈ ids)) as ->.
    { apply bool_decide_ext. rw elem_of_cons. tauto. }
    by case_bool_decide.
Qed.

Lemma group_snoc l podId t : add_targeting podId t (group_by_pod l) = group_by_pod (l ++ [(podId, t)]).
Proof.
  unfold group_by_pod. rw add_targeting_ids; [by rw /first_ids reverse_Permutation; apply NoDup_remove_dups|].
  assert (first_ids (l ++ [(podId, t)]) =
          if bool_decide (podId ∈ first_ids l) then first_ids l else first_ids l ++ [podId]) as ->.
  { unfold first_ids. rw fmap_app reverse_app. change (reverse [(podId, t)].*1) with [podId]. cbn [app remove_dups]. case_decide as Hin.
    - rw bool_decide_eq_true_2; [|done]. by rw elem_of_reverse elem_of_remove_dups.
    - rw bool_decide_eq_false_2; [by rw elem_of_reverse elem_of_remove_dups|]. by rw reverse_cons. }
  assert (forall id, targetings id (l ++ [(podId, t)]) = targetings id l ++ if (podId =? id)%Z then [t] else []) as Ht.
  { intros id. unfold targetings. rw filter_app fmap_app. cbn. by destruct (podId =? id)%Z. }
  case_bool_decide as Hin.
  - apply list_fmap_ext. intros i id _. by rw Ht.
  - rw fmap_app. f_equal; [apply list_fmap_ext; intros i id Hid|].
    + rw Ht. apply list_elem_of_lookup_2 in Hid. destruct (Z.eqb_spec podId id) as [->|_]; [done|]. by rw app_nil_r.
    + cbn. rw Ht Z.eqb_refl. do 2 f_equal. assert (targetings podId l = []) as ->; [|done].
      unfold targetings. unfold first_ids in Hin. rw elem_of_reverse elem_of_remove_dups elem_of_reverse in Hin. clear Ht.
      induction l as [|[id t'] l IH]; [done|]. cbn in Hin |- *. rw elem_of_cons in Hin.
      destruct (Z.eqb_spec id podId) as [->|_]; [exfalso; apply Hin; by left|]. apply IH. intros H; apply Hin. by right.
Qed.

Lemma pods_of_bids_grouped bids cached l :
  Forall2 (fun b c => bid_targeting b.1 b.2 = Some (inl c)) bids cached ->
  forall rest, pods_of_bids (bids ++ rest) (group_by_pod l) = pods_of_bids rest (group_by_pod (l ++ omap id cached)).
Proof.
  intros H rest. revert l. induction H as [|[seat bid] c bids cached Hb Hbs IH]; intros l; cbn; [by rw app_nil_r|].
  cbn in Hb. rw Hb. cbn [mbind option_bind]. destruct c as [[podId t]|]; cbn; [|apply IH].
  by rw group_snoc IH -app_assoc.
Qed.
End Grouping.

(** C19: The targetings of the cached bids are grouped by pod: the loop that
    searches the pods made so far gives one pod per id, in the order of the
    first bids, with the targetings in the order of the bids; the pods in
    error follow. No cached bid among some is an error, and the first bid
    whose extension does not decode fails the response. A bid for an imp made
    for a pod counts for that pod. *)
Theorem video_bids_grouped response podErrors bids rest cached :
  seat_bids response = bids ++ rest -> Forall2 (fun b c => bid_targeting b.1 b.2 = Some (inl c)) bids cached ->
  (rest = [] -> buildVideoResponse response podErrors =
     Some (if bool_decide (omap id cached = [] /\ bids <> []) then inr (EPlain "caching failed for all bids")
           else inl (group_by_pod (omap id cached) ++ (pod_of_error <$> podErrors)))) /\
  (forall seat bid rest' err, rest = (seat, bid) :: rest' -> bid_targeting seat bid = Some (inr err) ->
     buildVideoResponse response podErrors = Some (inr err)) /\
  (forall seat bid podId i podId' t, (0 < podId < 2 ^ 63)%Z -> bid_ImpID bid = imp_id podId i ->
     bid_targeting seat bid = Some (inl (Some (podId', t))) -> podId' = podId).
Proof.
  intros Hs Hb. pose proof (pods_of_bids_grouped bids cached [] Hb rest) as H. unfold buildVideoResponse. rw Hs.
  change (group_by_pod []) with (@nil AdPod) in H. rw H. cbn [app]. split_and!.
  - intros ->. cbn [pods_of_bids mbind option_bind]. do 2 f_equal. rw app_nil_r.
    assert ((length (group_by_pod (omap id cached)) =? 0) = bool_decide (omap id cached = [])) as ->.
    { destruct (omap id cached) as [|[podId t] l]; [done|]. apply Nat.eqb_neq. unfold group_by_pod, first_ids.
      rw length_fmap length_reverse. destruct (remove_dups (reverse _)) as [|x l'] eqn:E; [|done].
      exfalso. assert (podId ∈ remove_dups (reverse ((podId, t) :: l).*1)) as Hin
        by (rw elem_of_remove_dups elem_of_reverse; by left). rw E in Hin. by apply elem_of_nil in Hin. }
    assert ((length bids =? 0) = bool_decide (bids = [])) as -> by by destruct bids.
    repeat case_bool_decide; tauto.
  - intros seat bid rest' err -> He. cbn. by rw He.
  - intros seat bid podId i podId' t Hp Hi. unfold bid_targeting. destruct (unmarshal _ _) as [[m|]|]; [|done..].
    destruct (GoStr.is_empty _); [done|]. rw Hi imp_id_split; [lia|]. intros [= <- _]. by apply ParseInt0_itoa.
Qed.

(** ** A concrete request *)
Definition demo_video_req : BidRequestVideo :=
  mkVideoRequest "" (mkPodConfig [15; 30]%Z true [mkPod 1 60 "a"; mkPod 1 60 "a"; mkPod 2 15 "b"; mkPod 3 0 "a"]) None
    (Some (mkSite "s" "" "" None None RawNil)) None emptyDevice None (Some (mkVideo ["video/mp4"; ""] 0 0 [2%Z] 0 0 0 0 RawNil)) JNull 0
    (mkPG 0 []) 0 [] [] None false false.
Definition demo_imp : Imp :=
  mkImp "stored" [] None None None None None "" "" 0 "" F64.zero "" 0 None [] 0 RawNil.
Definition demo_imp_fetcher : AllFetcher :=
  mkFetcher (fun _ ids => let known := List.filter (fun id => GoStr.eqb id "a") ids in
                          let unknown := List.filter (fun id => negb (GoStr.eqb id "a")) ids in
                          mkFetched ∅ (list_to_map ((fun id => (id, RawJson JNull)) <$> known)) (not_found "Imp" unknown))
            (FetchAccount EmptyFetcher) (FetchCategories EmptyFetcher).
Definition demo_video_checked : BidRequestVideo * list error * list PodError := validateVideoRequest false ∅ demo_video_req.
Definition demo_imps : option (list string * list (option (Z * Z)) * list Z) :=
  match cleanupVideoBidRequest demo_video_checked.1.1 demo_video_checked.2 with
  | Some r =>
      match createImpressions (fun _ => inl demo_imp) demo_imp_fetcher 1000 r demo_video_checked.2 with
      | Some (imps, errs) =>
          Some (map imp_ID imps, map (fun i => option_map (fun v => (vid_MinDuration v, vid_MaxDuration v)) (imp_Video i)) imps,
                map pe_PodId errs)
      | None => None
      end
  | None => None
  end.
(** Pod 1 is kept once, pod 2 has an unknown config and pod 3 no duration. *)
Example demo_imps_run : demo_imps =
  Some (["1_0"; "1_1"; "1_2"; "1_3"], [Some (15, 15); Some (15, 15); Some (30, 30); Some (30, 30)]%Z, [1; 3; 2]%Z).
Proof. by vm_compute. Qed.

Lemma video_imps_created_witness : exists r imps errs,
  cleanupVideoBidRequest demo_video_checked.1.1 demo_video_checked.2 = Some r /\
  createImpressions (fun _ => inl demo_imp) demo_imp_fetcher 1000 r demo_video_checked.2 = Some (imps, errs) /\
  NoDup (imp_ID <$> imps).
Proof.
  destruct (cleanupVideoBidRequest demo_video_checked.1.1 demo_video_checked.2) as [r|] eqn:Ec; [|by vm_compute in Ec].
  destruct (video_imps_created (fun _ => inl demo_imp) demo_imp_fetcher 1000 false ∅ demo_video_req
    demo_video_checked.1.1 demo_video_checked.2 r eq_refl Ec)
    as (v & mn & mx & parts & errs & _ & _ & _ & _ & Hrun & _ & Hnd & _); [by vm_compute|by repeat constructor|].
  exists r. eexists _, _. split; [reflexivity|]. split; [exact Hrun|exact Hnd].
Defined.

(** A cached bid of pod 7 and one that was not cached. *)
Definition demo_cached_bid (impid uuid : string) : Bid :=
  bid_set_Ext (simpleBid "b" impid F64.zero "" "")
    (RawJson (JObj [("prebid", JObj [("targeting", JObj [("hb_uuid_appnexus", JStr uuid); ("hb_pb_appnexus", JStr "1.00")])])])).
Definition demo_video_response (bids : list Bid) : BidResponse := mkBidResponse "r" [mkSeat "appnexus" bids 0] "USD" None RawNil.
Definition demo_video_bids : list Bid := [demo_cached_bid "7_0" "u1"; demo_cached_bid "9_0" ""; demo_cached_bid "8_1" "u2"; demo_cached_bid "7_3" "u3"].
Example demo_pods_run : buildVideoResponse (demo_video_response demo_video_bids) [mkPodError 9 1 ["bad"]] =
  Some (inl [mkAdPod 7 [mkVideoTargeting "1.00" "" "u1"; mkVideoTargeting "1.00" "" "u3"] [];
             mkAdPod 8 [mkVideoTargeting "1.00" "" "u2"] []; mkAdPod 9 [] ["bad"]]).
Proof. by vm_compute. Qed.
Lemma video_bids_grouped_witness :
  buildVideoResponse (demo_video_response [demo_cached_bid "9_0" ""]) [] = Some (inr (EPlain "caching failed for all bids")).
Proof.
  pose proof (video_bids_grouped (demo_video_response [demo_cached_bid "9_0" ""]) [] [("appnexus", demo_cached_bid "9_0" "")] [] [None]
    eq_refl ltac:(constructor; [by vm_compute|constructor])) as (H & _ & _).
  exact (H eq_refl).
Defined.
