(* ===== verification/VideoEndpoint.v ===== *)
(** * The video endpoint

    [VideoAuctionEndpoint] of [endpoints/openrtb2/video_auction.go]: a
    simplified request is merged with its stored request, turned into an
    OpenRTB request with the imps of its pods ([VideoRequest]), validated,
    held as an auction, and answered with ad pods.  A debug log follows the
    request; on an error it is put into the cache under a fresh key. *)

From S2P Require Import Prelude Url Float64 ErrorTypes IpNet Json Codec OpenRTB JsonParser NativeValidation PriceGranularity ExtRequest ExtRoundtrip.
From S2P Require Import ImplicitFields Privacy ConsentWriters UserSync StoredRequests StoredMerge Accounts AccountAccess Auction.
From S2P Require Import BidderRequests ImpValidation RequestValidation AuctionEndpoint Response AmpEndpoint VideoRequest.

(** The settings of the endpoint. *)
Record VideoDeps := mkVideoDeps {
  vd_Auction : AuctionDeps; vd_VideoStoredRequestRequired : bool; vd_BlacklistedAppMap : gset string;
  vd_VideoTTL : Z; vd_OverrideToken : string }.

Record BidResponseVideo := mkBidResponseVideo { brv_AdPods : list AdPod; brv_Ext : RawMessage }.
(** What the handler leaves behind: the answer, the debug log and what was put
    into the cache. *)
Record VideoAnswer := mkVideoAnswer {
  va_Answer : Answer BidResponseVideo; va_DebugLog : DebugLog; va_Cached : list Cacheable }.

(** [HoldAuction] with the address of a debug log. *)
Class VideoExchange := {
  vx_HoldAuction : option Z -> Sources -> AuctionRequest -> DebugLog -> option (DebugLog * (BidResponse + error)) }.

Definition ReqTypeVideo : string := "video".
Definition video_labels : Labels := mkLabels "unknown" ReqTypeVideo PublisherUnknown "unknown".

(** [getVideoStoredRequestId]. *)
Definition getVideoStoredRequestId `{JsonParser} (request : RawMessage) : string + error :=
  let a := jp_Get request ["storedrequestid"%string] in
  if negb (bool_decide (jp_type a = JpString)) || bool_decide (is_Some (jp_err a))
  then inr (EBadInput "Unable to find required stored request id")
  else inl (jp_value a).
(** [loadStoredVideoRequest]. *)
Definition loadStoredVideoRequest (videoFetcher : AllFetcher) (storedRequestId : string) : RawMessage * list error :=
  let fetched := FetchRequests videoFetcher [storedRequestId] [] in
  (default RawNil (f_requests fetched !! storedRequestId), f_errs fetched).

(** The loop of [handleError]: the first blocked app or account, or missing
    account, decides the status and ends the text. *)
Fixpoint video_errors (errL : list error) (text : string) : Z * string * string :=
  match errL with
  | [] => (StatusInternalServerError, RequestStatusErr, text)
  | er :: rest =>
      if is_blacklisted er then (StatusServiceUnavailable, RequestStatusBlacklisted, text)
      else if (ReadCode er =? Code.AcctRequiredErrorCode)%Z then (StatusBadRequest, RequestStatusBadInput, text)
      else video_errors rest (text ⧺ " " ⧺ error_string er)
  end.

Section Endpoint.
Context `{JsonParser} `{JsonPatch} `{IPValidator}.
Context (float_text : float64 -> string) (ParseISO : string -> string + error).
Context (UnmarshalNative : string -> NativeReq.Request + string).
Context (MarshalNative : NativeReq.Request -> string + string).
Context (Validate : string -> json -> option error).
Context (EffectiveTLDPlusOne : string -> string + error).
Context (UnmarshalRequest : RawMessage -> Sources * BidRequest * option error).
Context (UnmarshalVideo : RawMessage -> option BidRequestVideo + error) (UnmarshalImp : RawMessage -> Imp + error).
Context (videoFetcher storedReqFetcher : AllFetcher) (maxAlloc : Z).
Context (deps : VideoDeps) (orders : Orders) (newV4 : string + error).
(** The UUIDs of an error's debug log and of an empty response's. *)
Context (errorKey emptyKey : string + error).
(** The text of a body and of the headers; the debug log's pattern. *)
Context (body_text : RawMessage -> string) (headers_text : string) (debugLogRegexp Sprintf0 : string -> string).
Context (parse_time : string -> option Z) (decode : string -> option RawMessage).
Context (FetchAccount : string -> RawMessage * list error).
Context `{VideoExchange} (Encode : BidResponseVideo -> option error).

Definition debug_log (httpRequest : HttpRequest) (query : Values) : DebugLog :=
  let enabled := GoStr.equal_fold (Url.Get query "debug") "true" in
  let override := IsDebugOverrideEnabled (Header_Get (h_Request httpRequest) "X-Pbs-Debug-Override") (vd_OverrideToken deps) in
  mkDebugLog enabled TypeXML "" "" "" (if (0 <? vd_VideoTTL deps)%Z then vd_VideoTTL deps else 3600%Z) "" ""
    (Some debugLogRegexp) override (enabled || override).
Definition log_request (d : DebugLog) (requestJson : RawMessage) : DebugLog :=
  if dl_DebugEnabledOrOverridden d then
    let 'mkDebugLog en ct _ _ rs ttl ck cs re ov eo := d in
    mkDebugLog en ct (body_text requestJson) headers_text rs ttl ck cs re ov eo
  else d.

(** [PutDebugLogError] with a cache client, whose errors are dropped. *)
Definition put_log (newUUID : string + error) (d : DebugLog) (errs : list error) : DebugLog * (list Cacheable * option error) :=
  let '(d, put) := PutDebugLogError Sprintf0 newUUID d errs in
  (d, match put with inl cacheable => ([cacheable], None) | inr err => ([], Some err) end).
(** The deferred function, on an answer without a video response. *)
Definition deferred (d : DebugLog) (ans : Answer BidResponseVideo) : VideoAnswer :=
  if GoStr.is_empty (dl_CacheKey d) then mkVideoAnswer ans d []
  else
    let '(d, (cached, err)) := put_log emptyKey d (ans_Errors ans) in
    mkVideoAnswer (mkAnswer (ans_Status ans) (ans_Body ans) (ans_Labels ans) (ans_RequestStatus ans)
                     (ans_Errors ans ++ match err with Some err => [err] | None => [] end)) d cached.
(** [handleError] and the deferred function. *)
Definition handle_error (labels : Labels) (errL : list error) (d : DebugLog) : Answer BidResponseVideo * DebugLog :=
  let '(d, errL) := if dl_DebugEnabledOrOverridden d then
                      let d := match errorKey with inl uuid => dl_set_CacheKey d uuid | inr _ => d end in
                      (d, errL ++ [EPlain ("[Debug cache ID: " ⧺ dl_CacheKey d ⧺ "]")])
                    else (d, errL) in
  let '(status, requestStatus, text) := video_errors errL "" in
  (mkAnswer status (Text ("Critical error while running the video endpoint: " ⧺ text)) labels requestStatus errL, d).
Definition fail (labels : Labels) (errL : list error) (d : DebugLog) : VideoAnswer :=
  let '(ans, d) := handle_error labels errL d in deferred d ans.

(** The body merged with its stored request. *)
Definition resolve_request (requestJson : RawMessage) : RawMessage + list error :=
  match getVideoStoredRequestId requestJson with
  | inr err => if vd_VideoStoredRequestRequired deps then inr [err] else inl requestJson
  | inl storedRequestId =>
      match loadStoredVideoRequest videoFetcher storedRequestId with
      | (storedRequest, []) => match MergePatch storedRequest requestJson with inl j => inl j | inr err => inr [err] end
      | (_, errs) => inr errs
      end
  end.
Definition default_request : Sources * BidRequest * option error :=
  match ad_defReqJSON (vd_Auction deps) with
  | None => (∅, emptyBidRequest, None)
  | Some defReqJSON =>
      let '(srcs, req, err) := UnmarshalRequest defReqJSON in
      (srcs, req, match err with
                  | Some err => Some (EPlain ("Invalid JSON in Default Request Settings: " ⧺ error_string err))
                  | None => None
                  end)
  end.
Definition all_pods_incorrect (podErrors : list PodError) : error :=
  EPlain ("all pods are incorrect: " ⧺ GoStr.join "; " ((fun e => GoStr.join ", " (pe_ErrMsgs e)) <$> podErrors)).

(** From the body to the request of the auction and the pods in error. *)
Definition build_request (httpRequest : HttpRequest) (debug : bool) (requestJson : RawMessage) :
  option ((Sources * BidRequest * list PodError) + list error) :=
  match resolve_request requestJson with
  | inr errs => Some (inr errs)
  | inl resolvedRequest =>
      parsed ← parseVideoRequest UnmarshalVideo (vd_VideoStoredRequestRequired deps) (vd_BlacklistedAppMap deps) resolvedRequest
                 (Header_Get (h_Request httpRequest) "User-Agent");
      match parsed with
      | inr err => Some (inr [err])
      | inl (_, ((_ :: _) as errL), _) => Some (inr errL)
      | inl (videoBidReq, [], podErrors) =>
          match default_request with
          | (_, _, Some err) => Some (inr [err])
          | (srcs, bidReq, None) =>
              let bidReq := mergeData float_text videoBidReq bidReq in
              let bidReq := if debug then req_set_Test bidReq 1 else bidReq in
              let initialPodNumber := length (vr_Pods videoBidReq) in
              videoBidReq ← (match podErrors with [] => Some videoBidReq | _ => cleanupVideoBidRequest videoBidReq podErrors end);
              '(imps, podErrors) ← createImpressions UnmarshalImp storedReqFetcher maxAlloc videoBidReq podErrors;
              if (length podErrors =? initialPodNumber)%nat then Some (inr [all_pods_incorrect podErrors])
              else Some (inl (srcs, req_set_ID (req_set_Imp bidReq imps) "bid_id", podErrors))
          end
      end
  end.
(** The request with its implicit fields, validated. *)
Definition prepare_request (httpRequest : HttpRequest) (debug : bool) (requestJson : RawMessage) :
  option ((Sources * BidRequest * list PodError) + list error) :=
  built ← build_request httpRequest debug requestJson;
  match built with
  | inr errL => Some (inr errL)
  | inl (srcs, bidReq, podErrors) =>
      let bidReq := setFieldsImplicitly EffectiveTLDPlusOne (h_Request httpRequest) bidReq in
      '(srcs, bidReq, errL) ← validateRequest float_text ParseISO UnmarshalNative MarshalNative Validate (ad_deps (vd_Auction deps))
                                orders newV4 srcs bidReq;
      if ContainsFatalError errL then Some (inr errL) else Some (inl (srcs, bidReq, podErrors))
  end.

(** The labels of the request; [None] dereferences a nil site. *)
Definition account_labels (start : Z) (usersyncs : PBSCookie) (req : BidRequest) : option Labels :=
  match req_App req with
  | Some app => Some (mkLabels "app" ReqTypeVideo (getAccountID (app_Publisher app)) "unknown")
  | None =>
      let flag := if (LiveSyncCount usersyncs start =? 0)%nat then CookieFlagNo else CookieFlagYes in
      site ← req_Site req;
      Some (mkLabels "web" ReqTypeVideo (getAccountID (site_Publisher site)) flag)
  end.

(** The answer to a response. *)
Definition video_answer (labels : Labels) (bidReq : BidRequest) (podErrors : list PodError) (response : BidResponse) (d : DebugLog) :
  option VideoAnswer :=
  built ← buildVideoResponse response podErrors;
  Some (match built with
        | inr err => fail labels [err] d
        | inl adPods =>
            let ext := if (req_Test bidReq =? 1)%Z then resp_Ext response else RawNil in
            let '(adPods, d, (cached, errs)) :=
              match adPods with
              | [] =>
                  if dl_DebugEnabledOrOverridden d then
                    let '(d, (cached, err)) := put_log emptyKey d [] in
                    match err with
                    | Some err => ([], d, (cached, [err]))
                    | None => ([mkAdPod 0 [mkVideoTargeting "" "" (dl_CacheKey d)] []], d, (cached, []))
                    end
                  else ([], d, ([], []))
              | _ => (adPods, d, ([], []))
              end in
            let bidResp := mkBidResponseVideo adPods ext in
            match Encode bidResp with
            | None => mkVideoAnswer (mkAnswer StatusOK (Encoded bidResp) labels RequestStatusOK errs) d cached
            | Some err =>
                let '(ans, d) := handle_error labels [err] d in
                mkVideoAnswer (mkAnswer (ans_Status ans) (ans_Body ans) labels (ans_RequestStatus ans) (errs ++ ans_Errors ans)) d cached
            end
        end).

Definition hold_video (httpRequest : HttpRequest) (start : Z) (usersyncs : PBSCookie) (labels : Labels) (account : Account)
    (srcs : Sources) (bidReq : BidRequest) (podErrors : list PodError) (d : DebugLog) : option VideoAnswer :=
  let timeout := LimitAuctionTimeout (ad_Timeouts (vd_Auction deps)) (Int64.wrap (req_TMax bidReq * millisecond)) in
  let deadline := if (0 <? timeout)%Z then Some timeout else None in
  let auctionRequest := mkAuctionRequest bidReq account (GetId usersyncs) start [] (Header_Get (h_Request httpRequest) "Sec-Gpc") labels in
  '(d, result) ← vx_HoldAuction deadline srcs auctionRequest d;
  match result with
  | inr err => Some (fail labels [err] d)
  | inl response => video_answer labels bidReq podErrors response d
  end.

(** [VideoAuctionEndpoint]; [None] is a panic. *)
Definition VideoAuctionEndpoint (httpRequest : HttpRequest) (query : Values) (start : Z) : option VideoAnswer :=
  let d := debug_log httpRequest query in
  match h_ReadAll httpRequest (ad_MaxRequestSize (vd_Auction deps)) with
  | inr err => Some (fail video_labels [err] d)
  | inl (requestJson, _) =>
      let d := log_request d requestJson in
      prepared ← prepare_request httpRequest (dl_DebugEnabledOrOverridden d) requestJson;
      match prepared with
      | inr errL => Some (fail video_labels errL d)
      | inl (srcs, bidReq, podErrors) =>
          let usersyncs := ParsePBSCookieFromRequest parse_time decode start (h_Cookie httpRequest) (ad_HostCookie (vd_Auction deps)) in
          labels ← account_labels start usersyncs bidReq;
          match GetAccount (ad_Account (vd_Auction deps)) FetchAccount (lb_PubID labels) with
          | inr ((_ :: _) as acctIDErrs) => Some (fail labels acctIDErrs d)
          | inr [] => None
          | inl account => hold_video httpRequest start usersyncs labels account srcs bidReq podErrors d
          end
      end
  end.
End Endpoint.

(** ** Facts *)
Lemma vr_set_Pods_id r : vr_set_Pods r (vr_Pods r) = r.
Proof. by destruct r as [? [] ]. Qed.
Lemma cleanup_nothing r : cleanupVideoBidRequest r [] = Some r.
Proof. unfold cleanupVideoBidRequest. cbn. by rw vr_set_Pods_id. Qed.

(** The errors that decide a status: the app or the account is blocked, the
    account is missing.  The first of them does; without any it is 500. *)
Definition lacks_account (err : error) : Prop :=
  match err with EAcctRequired _ => True | EWarning _ code => code = 8%Z | _ => False end.
Definition undecided (err : error) : Prop := ~ blocks err /\ ~ lacks_account err.
Definition video_status (errL : list error) (status : Z) (label : string) : Prop :=
  (exists before err after, errL = before ++ err :: after /\ Forall undecided before /\
     ((blocks err /\ status = 503%Z /\ label = RequestStatusBlacklisted) \/
      (lacks_account err /\ status = 400%Z /\ label = RequestStatusBadInput))) \/
  (Forall undecided errL /\ status = 500%Z /\ label = RequestStatusErr).

(** What the handler says when there is no auction, or when it failed: the
    errors, with the key of the debug log if there is one. *)
Record failure (errorKey : string + error) (errL : list error) (d : DebugLog) (ans : VideoAnswer) : Prop := {
  failure_body : exists text, ans_Body (va_Answer ans) = Text text;
  failure_status : video_status errL (ans_Status (va_Answer ans)) (ans_RequestStatus (va_Answer ans));
  failure_errors : errL `prefix_of` ans_Errors (va_Answer ans);
  failure_quiet : dl_DebugEnabledOrOverridden d = false -> dl_CacheKey d = ""%string ->
                  va_Cached ans = [] /\ ans_Errors (va_Answer ans) = errL;
  failure_logged uuid : dl_DebugEnabledOrOverridden d = true -> errorKey = inl uuid -> uuid <> ""%string ->
                        EPlain ("[Debug cache ID: " ⧺ uuid ⧺ "]") ∈ ans_Errors (va_Answer ans) /\
                        exists c, va_Cached ans = [c] /\ ca_Key c = "log_" ⧺ uuid }.

Section Failure.
Context (errorKey emptyKey : string + error) (Sprintf0 : string -> string).
Lemma ReadCode_account err : (ReadCode err =? Code.AcctRequiredErrorCode)%Z = true <-> lacks_account err.
Proof. rw Z.eqb_eq. by destruct err. Qed.
Lemma video_errors_status errL more text : Forall undecided more ->
  let '(status, label, _) := video_errors (errL ++ more) text in video_status errL status label.
Proof.
  intros Hmore. revert text. induction errL as [|er errL IH]; intros text; cbn [app].
  { revert text. induction Hmore as [|er more [Hb Ha] _ IH]; intros text; cbn [video_errors]; [right; split; [constructor|done]|].
    destruct (is_blacklisted er) eqn:Eb; [by apply is_blacklisted_iff in Eb|].
    destruct (ReadCode er =? _)%Z eqn:Er; [by apply ReadCode_account in Er|apply IH]. }
  cbn [video_errors]. destruct (is_blacklisted er) eqn:Eb.
  { left. exists [], er, errL. split_and!; [done|constructor|]. left. split_and!; [by apply is_blacklisted_iff|done|done]. }
  destruct (ReadCode er =? _)%Z eqn:Er.
  { left. exists [], er, errL. split_and!; [done|constructor|]. right. split_and!; [by apply ReadCode_account|done|done]. }
  assert (undecided er) as Hu by (split; [rw -is_blacklisted_iff Eb|rw -ReadCode_account Er]; done).
  specialize (IH (text ⧺ " " ⧺ error_string er)). destruct (video_errors _ _) as [[status label] text'].
  destruct IH as [(before & err & after & -> & Hbef & Hcase)|(Hall & Hcase)].
  - left. exists (er :: before), err, after. split_and!; [done|by constructor|done].
  - right. split; [by constructor|done].
Qed.
Lemma video_status_blocked errL status label :
  Exists blocks errL -> Forall (fun err => ~ lacks_account err) errL -> video_status errL status label -> status = 503%Z.
Proof.
  intros Hb Hn [(before & err & after & -> & _ & [(_ & ? & _)|(Hl & _)])|(Hu & _)]; [done|..].
  - apply Forall_app in Hn as [_ Hn]. by apply list.Forall_cons in Hn as [? _].
  - apply list.Exists_exists in Hb as (err & Hin & Hb). rw list.Forall_forall in Hu. by destruct (Hu err Hin).
Qed.
Lemma video_status_missing msg status label : video_status [EAcctRequired msg] status label -> status = 400%Z.
Proof.
  intros [(before & err & after & E & _ & [(Hb & _)|(_ & ? & _)])|(Hu & _)]; [|done|].
  - destruct before as [|? [|]]; [|done..]. by injection E as <-.
  - by apply list.Forall_cons in Hu as [[_ []] _].
Qed.
Lemma put_log_key d errs : dl_CacheKey d <> ""%string ->
  exists c, (put_log Sprintf0 emptyKey d errs).2 = ([c], None) /\ ca_Key c = "log_" ⧺ dl_CacheKey d.
Proof.
  intros Hk. unfold put_log, PutDebugLogError. set (d' := match errs with [] => _ | _ => _ end).
  assert (dl_CacheKey d' = dl_CacheKey d) as Hd by (subst d'; destruct errs; [case_match|]; by destruct d).
  assert (dl_CacheKey (BuildCacheString Sprintf0 d') = dl_CacheKey d) as -> by done.
  destruct (GoStr.is_empty (dl_CacheKey d)) eqn:E; [by apply is_empty_true in E|]. cbn. by eexists.
Qed.
Lemma put_log_cases d errs d' cached err : put_log Sprintf0 emptyKey d errs = (d', (cached, err)) ->
  err = None -> exists c, cached = [c] /\ ca_Key c = "log_" ⧺ dl_CacheKey d'.
Proof.
  unfold put_log, PutDebugLogError. set (d0 := match errs with [] => _ | _ => _ end).
  clearbody d0. destruct (GoStr.is_empty (dl_CacheKey _)); [destruct emptyKey|]; cbn; intros H; injection H as <- <- <-; intros He; by [|eexists].
Qed.
Lemma fail_failure labels errL d : failure errorKey errL d (fail errorKey emptyKey Sprintf0 labels errL d).
Proof.
  unfold fail, handle_error. destruct (if dl_DebugEnabledOrOverridden d then _ else _) as [d' errL'] eqn:E.
  assert (exists more, errL' = errL ++ more /\ Forall undecided more) as (more & -> & Hmore).
  { destruct (dl_DebugEnabledOrOverridden d); injection E as _ <-; [eexists; split; [done|]|exists []; by rw app_nil_r].
    constructor; [by split; intros []|constructor]. }
  pose proof (video_errors_status errL more "" Hmore) as Hs. destruct (video_errors _ "") as [[status label] text].
  set (ans := mkAnswer _ _ _ _ _). assert (errL `prefix_of` errL ++ more) as Hpre by by eexists.
  unfold deferred. destruct (GoStr.is_empty (dl_CacheKey d')) eqn:Ek.
  - split; cbn; [by eexists|done|done|by intros Hd; rw Hd in E; injection E as _ <-|].
    intros uuid Hd Hkey Hne. apply is_empty_true in Ek. rw Hd Hkey in E. injection E as <- _. by destruct d.
  - apply is_empty_false in Ek. destruct (put_log_key d' (ans_Errors ans) Ek) as (c & Hput & Hc).
    destruct (put_log _ _ _ _) as [d2 [cached err]]. cbn in Hput. injection Hput as -> ->.
    split; cbn; [by eexists|done|by rw app_nil_r|intros Hd Hk; rw Hd in E; injection E as <- _; by rw Hk in Ek|].
    intros uuid Hd Hkey Hne. rw Hd Hkey in E. injection E as <- <-. rw app_nil_r.
    assert (dl_CacheKey (dl_set_CacheKey d uuid) = uuid) as Hu by by destruct d.
    rw Hu in Hc. rw Hu. split; [apply elem_of_app; right; by left|by exists c].
Qed.
End Failure.

(** The request extension of a video request reads back. *)
Definition video_input_ok (float_text : float64 -> string) (r : BidRequestVideo) : Prop :=
  (pg_Precision (vr_PriceGranularity r) <> 0 -> granularity_ok float_text (vr_PriceGranularity r)) /\
  Forall int_ok (vr_Durations r) /\ opt_ok (fun b => int_ok (ib_PrimaryAdserver b)) (vr_IncludeBrandCategory r).
Lemma video_prebid_ok float_text r : granularity_ok float_text priceGranularityMed -> video_input_ok float_text r ->
  prebid_ok float_text (video_prebid r).
Proof.
  intros Hmed (Hg & Hd & Hb). unfold video_prebid. split; cbn; try done; [by right|]. split_and!; cbn.
  - destruct (Nat.eqb_spec (pg_Precision (vr_PriceGranularity r)) 0); [done|by apply Hg].
  - done.
  - unfold brand_ok, video_brand. by destruct (vr_IncludeBrandCategory r).
  - by destruct (pc_RequireExactDuration _).
Qed.

Section EndpointFacts.
Context `{JsonParser} `{JsonPatch} (v : RequestValidation).
#[local] Instance video_validator : IPValidator := PublicNetworkIPValidator v.
Context (float_text : float64 -> string) (ParseISO : string -> string + error).
Context (UnmarshalNative : string -> NativeReq.Request + string).
Context (MarshalNative : NativeReq.Request -> string + string).
Context (Validate : string -> json -> option error).
Context (EffectiveTLDPlusOne : string -> string + error).
Context (UnmarshalRequest : RawMessage -> Sources * BidRequest * option error).
Context (UnmarshalVideo : RawMessage -> option BidRequestVideo + error) (UnmarshalImp : RawMessage -> Imp + error).
(** Decoded integers are [int]s, a decoded granularity has ranges, whose
    numbers have texts that read back; and so has the default. *)
Hypothesis unmarshal_ok : forall j r, UnmarshalVideo j = inl (Some r) -> video_input_ok float_text r.
Hypothesis med_ok : granularity_ok float_text priceGranularityMed.
Context (videoFetcher storedReqFetcher : AllFetcher) (maxAlloc : Z).
Context (deps : VideoDeps) (orders : Orders) (newV4 : string + error).
Context (factors_visit : forall m, map_range m (or_factors orders m)).
Context (strings_visit : forall m, map_range m (or_strings orders m)).
Context (rates_visit : forall m, map_range m (or_rates orders m)).
Context (exts_visit : forall i m, map_range m (or_exts orders i m)).

(** Where the request of a video auction comes from: a valid request, whose
    pods without errors made its imps, and whose targeting and caching are
    what the extension asks for. *)
Definition made_from_pods (req : BidRequest) (podErrors : list PodError) : Prop :=
  exists q q' errs0 kept imps,
    validateVideoRequest (vd_VideoStoredRequestRequired deps) (vd_BlacklistedAppMap deps) q = (q', [], errs0) /\
    cleanupVideoBidRequest q' errs0 = Some kept /\
    createImpressions UnmarshalImp storedReqFetcher maxAlloc kept errs0 = Some (imps, podErrors) /\
    length podErrors <> length (vr_Pods q) /\ imp_ID <$> req_Imp req = imp_ID <$> imps /\
    unmarshal dec_ext_request (req_Ext req) = inl (video_prebid q').

Lemma built_from_pods httpRequest debug j srcs req podErrors :
  build_request float_text UnmarshalRequest UnmarshalVideo UnmarshalImp videoFetcher storedReqFetcher maxAlloc deps
    httpRequest debug j = Some (inl (srcs, req, podErrors)) -> made_from_pods req podErrors.
Proof.
  unfold build_request, parseVideoRequest. destruct (resolve_request _ _ j) as [resolved|]; [|done].
  destruct (UnmarshalVideo resolved) as [[r|]|] eqn:Er; cbn [mbind option_bind]; [|done..].
  set (q := if GoStr.is_empty _ then _ else r). destruct (validateVideoRequest _ _ q) as [[q' [|e errL]] errs0] eqn:Ev; [|done].
  destruct (default_request _ _) as [[srcs0 bidReq] [err|]]; [done|].
  assert ((match errs0 with [] => Some q' | _ => cleanupVideoBidRequest q' errs0 end) = cleanupVideoBidRequest q' errs0) as ->.
  { destruct errs0; [by rw cleanup_nothing|done]. }
  destruct (cleanupVideoBidRequest q' errs0) as [kept|] eqn:Ec; cbn [mbind option_bind]; [|done].
  destruct (createImpressions _ _ _ kept errs0) as [[imps errs]|] eqn:Ei; cbn [mbind option_bind]; [|done].
  destruct (Nat.eqb_spec (length errs) (length (vr_Pods q'))) as [|Hn]; [done|]. intros [= <- <- <-].
  destruct (validated_video _ _ _ _ _ Ev) as (_ & _ & _ & video & Hq').
  assert (vr_Pods q' = vr_Pods q) as Hpods by (rw Hq'; by destruct q).
  exists q, q', errs0, kept, imps. split_and!; [exact Ev|exact Ec|exact Ei|by rw -Hpods|by destruct debug; destruct (mergeData _ _ _)|].
  assert (prebid_ok float_text (video_prebid q')) as Hok.
  { apply video_prebid_ok; [done|]. destruct (unmarshal_ok _ _ Er) as (Hg & Hd & Hb). rw Hq'. unfold q.
    destruct (GoStr.is_empty _), r; by split_and!. }
  assert (forall b, req_Ext (mergeData float_text q' b) = createBidExtension float_text q') as He.
  { intros b. unfold mergeData. destruct b, q' as [? ? [?|] [?|] ? ? ? ? ? ? ? ? [|] [|] [?|] ]; done. }
  assert (req_Ext (req_set_ID (req_set_Imp (if debug then req_set_Test (mergeData float_text q' bidReq) 1 else mergeData float_text q' bidReq) imps)
            "bid_id") = createBidExtension float_text q') as ->.
  { rewrite <- (He bidReq). by destruct debug; destruct (mergeData _ _ _). }
  unfold createBidExtension. cbn [unmarshal]. by rw ext_request_codec.
Qed.

Lemma prepared_ok httpRequest debug j srcs req podErrors :
  prepare_request float_text ParseISO UnmarshalNative MarshalNative Validate EffectiveTLDPlusOne UnmarshalRequest UnmarshalVideo
    UnmarshalImp videoFetcher storedReqFetcher maxAlloc deps orders newV4 httpRequest debug j = Some (inl (srcs, req, podErrors)) ->
  request_ok v (d_BlacklistedAppMap (ad_deps (vd_Auction deps))) req /\ made_from_pods req podErrors.
Proof.
  unfold prepare_request. destruct (build_request _ _ _ _ _ _ _ _ _ _ _) as [[[[srcs0 req0] errs0]|]|] eqn:Eb; cbn [mbind option_bind]; [|done..].
  pose proof (built_from_pods _ _ _ _ _ _ Eb) as (q & q' & es & kept & imps & Hv & Hc & Hi & Hn & Hids & Hext).
  pose proof (fields_frame EffectiveTLDPlusOne (h_Request httpRequest) req0) as (_ & _ & He & _ & Hfids).
  set (filled := setFieldsImplicitly _ _ req0) in *.
  assert (public_ipv4 v (dev_IP (device_of filled)) /\ public_ipv6 v (dev_IPv6 (device_of filled))) as [H4 H6].
  { unfold device_of. destruct (req_Device filled) as [d|] eqn:Ed; [by eapply fields_addresses_public|by split; left]. }
  clearbody filled. destruct (validateRequest _ _ _ _ _ _ _ _ _ _) as [[[srcs1 req1] errL]|] eqn:Ev; cbn [mbind option_bind]; [|done].
  destruct (ContainsFatalError errL) eqn:Ef; [done|]. intros [= <- <- <-].
  split; [by eapply validated_ok|].
  destruct (validated_request_facts ParseISO (ad_deps (vd_Auction deps)) orders factors_visit strings_visit rates_visit float_text
    UnmarshalNative MarshalNative Validate newV4 exts_visit _ _ _ _ _ Ev Ef) as (al & co & ns & _ & _ & _ & _ & Himps & _ & _ & _ & _ & Hframe).
  exists q, q', es, kept, imps. split_and!; try done; [by rw (imps_validated_ids _ _ _ _ _ _ _ Himps) Hfids|].
  rw -Hext -He Hframe. by destruct filled.
Qed.

Context (errorKey emptyKey : string + error) (body_text : RawMessage -> string) (headers_text : string).
Context (debugLogRegexp Sprintf0 : string -> string).
Context (parse_time : string -> option Z) (decode : string -> option RawMessage).
Context (FetchAccount : string -> RawMessage * list error).
Context `{VideoExchange} (Encode : BidResponseVideo -> option error).

Definition video_auction_ok (q : AuctionRequest) (podErrors : list PodError) : Prop :=
  request_ok v (d_BlacklistedAppMap (ad_deps (vd_Auction deps))) (ar_BidRequest q) /\ made_from_pods (ar_BidRequest q) podErrors /\
  acct_Disabled (ar_Account q) = false /\ lb_PubID (ar_LegacyLabels q) ∉ BlacklistedAcctMap (ad_Account (vd_Auction deps)).

(** The pods of an answer are those of the response; an answer without pods
    names the debug log instead, if there is one. *)
Definition answers_pods (q : AuctionRequest) (response : BidResponse) (pods : list AdPod) (d : DebugLog) (ans : VideoAnswer) : Prop :=
  exists body, (Encode body = None -> ans_Status (va_Answer ans) = 200%Z /\ ans_Body (va_Answer ans) = Encoded body) /\
    (Encode body <> None -> exists text, ans_Body (va_Answer ans) = Text text) /\
    brv_Ext body = (if (req_Test (ar_BidRequest q) =? 1)%Z then resp_Ext response else RawNil) /\
    (pods <> [] \/ dl_DebugEnabledOrOverridden d = false -> brv_AdPods body = pods) /\
    (pods = [] -> brv_AdPods body = [] \/ exists key c, brv_AdPods body = [mkAdPod 0 [mkVideoTargeting "" "" key] []] /\
                                                        va_Cached ans = [c] /\ ca_Key c = "log_" ⧺ key).

Lemma video_answer_spec labels q podErrors response d ans :
  video_answer errorKey emptyKey Sprintf0 Encode labels (ar_BidRequest q) podErrors response d = Some ans ->
  match buildVideoResponse response podErrors with
  | Some (inl pods) => answers_pods q response pods d ans
  | Some (inr err) => failure errorKey [err] d ans
  | None => False
  end.
Proof.
  unfold video_answer. destruct (buildVideoResponse response podErrors) as [[pods|err]|]; cbn [mbind option_bind]; [..|done].
  2: { intros [= <-]. apply fail_failure. }
  set (chosen := match pods with [] => _ | _ => _ end). destruct chosen as [[pods' d'] [cached errs]] eqn:Ec. subst chosen.
  set (body := mkBidResponseVideo _ _). intros [= <-]. exists body.
  assert ((pods <> [] \/ dl_DebugEnabledOrOverridden d = false -> pods' = pods) /\
          (pods = [] -> pods' = [] \/ exists key c, pods' = [mkAdPod 0 [mkVideoTargeting "" "" key] []] /\ cached = [c] /\ ca_Key c = "log_" ⧺ key))
    as [Hkeep Hlog].
  { destruct pods as [|p ps]; [|by injection Ec as <- _ _ _]. destruct (dl_DebugEnabledOrOverridden d) eqn:Ed.
    - split; [by intros [|]|]. intros _. destruct (put_log _ _ d []) as [d2 [cached2 err2]] eqn:Ep.
      destruct err2 as [e|]; injection Ec as <- <- <- _; [by left|]. right.
      destruct (put_log_cases _ _ _ _ _ _ _ Ep eq_refl) as (c & -> & Hc). by eexists _, c.
    - injection Ec as <- _ _ _. split; [done|by left]. }
  destruct (Encode body) as [err|] eqn:Ee.
  - unfold handle_error. destruct (if dl_DebugEnabledOrOverridden d' then _ else _) as [d2 errL].
    destruct (video_errors errL "") as [[status label] text]. cbn. split_and!; try done. intros _. by eexists.
  - cbn. by split_and!.
Qed.

(** What a failure without an auction reports: the body that cannot be read;
    the errors of the request, 503 for one of a blocked app; or those of its
    account, 503 for a blocked one and 400 for a missing one. *)
Definition video_refused (httpRequest : HttpRequest) (start : Z) (errL : list error) (status : Z) : Prop :=
  (exists err, h_ReadAll httpRequest (ad_MaxRequestSize (vd_Auction deps)) = inr err /\ errL = [err]) \/
  exists j N debug prepared, h_ReadAll httpRequest (ad_MaxRequestSize (vd_Auction deps)) = inl (j, N) /\
    prepare_request float_text ParseISO UnmarshalNative MarshalNative Validate EffectiveTLDPlusOne UnmarshalRequest UnmarshalVideo
      UnmarshalImp videoFetcher storedReqFetcher maxAlloc deps orders newV4 httpRequest debug j = Some prepared /\
    match prepared with
    | inr errL' => errL = errL' /\
        forall resolved r app, resolve_request videoFetcher deps j = inl resolved -> UnmarshalVideo resolved = inl (Some r) ->
          vr_App r = Some app -> vr_Site r = None -> app_ID app <> ""%string -> app_ID app ∈ vd_BlacklistedAppMap deps -> status = 503%Z
    | inl (srcs, req, podErrors) => exists labels,
        account_labels start (ParsePBSCookieFromRequest parse_time decode start (h_Cookie httpRequest) (ad_HostCookie (vd_Auction deps))) req
          = Some labels /\
        GetAccount (ad_Account (vd_Auction deps)) FetchAccount (lb_PubID labels) = inr errL /\
        (lb_PubID labels ∈ BlacklistedAcctMap (ad_Account (vd_Auction deps)) -> status = 503%Z) /\
        (lb_PubID labels = "unknown"%string -> AccountRequired (ad_Account (vd_Auction deps)) = true ->
         lb_PubID labels ∉ BlacklistedAcctMap (ad_Account (vd_Auction deps)) -> status = 400%Z)
    end.

Lemma blocked_app_errors httpRequest debug j resolved r app errL :
  resolve_request videoFetcher deps j = inl resolved -> UnmarshalVideo resolved = inl (Some r) ->
  vr_App r = Some app -> vr_Site r = None -> app_ID app <> ""%string -> app_ID app ∈ vd_BlacklistedAppMap deps ->
  prepare_request float_text ParseISO UnmarshalNative MarshalNative Validate EffectiveTLDPlusOne UnmarshalRequest UnmarshalVideo
    UnmarshalImp videoFetcher storedReqFetcher maxAlloc deps orders newV4 httpRequest debug j = Some (inr errL) ->
  Exists blocks errL /\ Forall (fun err => ~ lacks_account err) errL.
Proof.
  intros Hres Hun Happ Hsite Hne Hin. unfold prepare_request, build_request, parseVideoRequest. rw Hres Hun. cbn [mbind option_bind].
  set (r' := if GoStr.is_empty _ then _ else r).
  assert (vr_App r' = Some app /\ vr_Site r' = None) as [Ha Hs] by (unfold r'; destruct (GoStr.is_empty _), r; done).
  unfold validateVideoRequest, validate_source. rw Ha Hs. rw (proj2 (is_empty_false _) Hne) bool_decide_eq_true_2 //. cbn [negb].
  set (checks := when _ _ ++ _). assert (Forall (fun err => ~ lacks_account err) checks) as Hchecks.
  { unfold checks, when. rw !Forall_app. split_and!; (case_match; [constructor; [by intros []|constructor]|constructor]). }
  clearbody checks. destruct (checks ++ _) as [|e l] eqn:E; [by destruct checks|]. cbn [mbind option_bind]. intros [= <-]. rw -E. split.
  - apply Exists_app. right. by constructor.
  - apply Forall_app. split; [done|]. constructor; [by intros []|constructor].
Qed.

End EndpointFacts.

(** ** A concrete request *)
Definition demo_video_imp (r : RawMessage) : Imp + error :=
  match req_Imp demo_auction_request with imp :: _ => inl imp | [] => inr (EPlain "none") end.
Definition demo_unmarshal_video (j : RawMessage) : option BidRequestVideo + error := inl (Some demo_video_req).
#[local] Instance demo_video_exchange : VideoExchange :=
  {| vx_HoldAuction _ _ q d := Some (d, inl (demo_video_response [VideoRequest.demo_cached_bid "1_0" "u1"])) |}.
Definition demo_video_deps : VideoDeps :=
  mkVideoDeps (mkAuctionDeps demo_deps 1000 None (mkAuctionTimeouts 500 1000) (mkHostCookie "" "" "" "" "" 0)
    (mkAccountConfig ∅ false demo_account RawNil)) false ∅ 0 "".
Definition demo_video_answer : option VideoAnswer :=
  @VideoAuctionEndpoint exact_parser rfc7396 (video_validator demo_networks) two_decimals (fun c => inl c) demo_unmarshal_native
    demo_marshal_native demo_validate demo_domain demo_unmarshal_request demo_unmarshal_video demo_video_imp EmptyFetcher
    demo_imp_fetcher 1000 demo_video_deps demo_orders (inl "tid-1"%string) (inl "k1"%string) (inl "k2"%string) (fun _ => ""%string)
    ""%string (fun s => s) (fun s => s) (fun _ => None) (fun _ => None) demo_fetch_account demo_video_exchange (fun _ => None)
    demo_http_request [] 0.
