(* ===== verification/HoldAuction.v ===== *)
(** * An auction, from request to response

    [HoldAuction] of [exchange/exchange.go], composed of the parts the other
    files model.  Everything the environment decides - the order of map
    iterations, the order in which the bidders finish, random draws - is an
    argument; the libraries and services the exchange calls are parameters. *)

From S2P Require Import Prelude Float64 ErrorTypes Json OpenRTB JsonParser PriceGranularity ExtRequest Currency.
From S2P Require Import Privacy Gdpr Auction Targeting Category Bidder Accounts ImpSplit BidderRequests Events Url Exchange Response.

(** ** The exchange *)
(** The fields of [exchange] that an auction reads. *)
Record exchange := mkExchange {
  e_adapterMap : Sources -> gmap string Adapter;
  e_bidderInfo : gmap string bool;
  e_extCacheData : string * string * string;
  e_PutJson : list Cacheable -> list string * list error;
  e_gDPR : Permissions;
  e_rates : Conversions;
  e_externalURL : string;
  e_gdprDefaultValue : Z;
  e_privacyConfig : PrivacyConfig;
  e_FetchCategories : string -> string -> string -> string * option error;
  e_bidIDGenerator : bool }.

(** What the environment decides during one auction. *)
Record Choices := mkChoices {
  ch_imp_order : nat -> gmap string json -> list (string * json);
  ch_bidder_order : gmap string (list Imp) -> list (string * list Imp);
  ch_perm : list nat;
  ch_finished : list BidderRequest -> list BidderRequest;
  ch_category_order : gmap string pbsOrtbSeatBid -> list string;
  ch_draws : nat -> bool;
  ch_seats : nat -> gmap string pbsOrtbSeatBid -> list (string * pbsOrtbSeatBid);
  ch_visits : nat -> gmap string (gmap string loc) -> Visits;
  ch_extras : nat -> gmap string seatResponseExtra -> list (string * seatResponseExtra);
  ch_bidID : nat -> string * option error;
  ch_cacheUUID : string + error }.

(** [recordImpMetrics]: the labels recorded for each imp. *)
Record ImpLabels := mkImpLabels { il_Banner : bool; il_Video : bool; il_Audio : bool; il_Native : bool }.
Definition is_some {A} (o : option A) : bool := match o with Some _ => true | None => false end.
Definition recordImpMetrics (bidRequest : BidRequest) : list ImpLabels :=
  (fun i => mkImpLabels (is_some (imp_Banner i)) (is_some (imp_Video i)) (is_some (imp_Audio i)) (is_some (imp_Native i)))
    <$> req_Imp bidRequest.

(** The generated bid ids, one per bid in the order of the iteration. *)
Definition id_step (newBidID : nat -> string * option error) (acc : Store * nat * list (option error)) (p : loc) :
  option (Store * nat * list (option error)) :=
  let '(st, n, errs) := acc in
  match st_pbs st !! p with
  | None => None
  | Some pb =>
      let '(id, err) := newBidID n in
      Some (put_pbs st p (pb_set_generatedBidID pb id), S n,
            errs ++ match err with Some _ => [Some (EPlain "Error generating bid.ext.prebid.bidid")] | None => [] end)
  end.
Definition generate_ids (newBidID : nat -> string * option error) (st : Store)
    (seats : list (string * pbsOrtbSeatBid)) : option (Store * list (option error)) :=
  match foldM (id_step newBidID) (concat ((sb_bids ∘ snd) <$> seats)) (st, 0, []) with
  | Some (st, _, errs) => Some (st, errs)
  | None => None
  end.

Definition warn (x : ExtBidResponse) (m : ExtBidderMessage) : ExtBidResponse :=
  mkExtResponse (xr_Debug x) (xr_Errors x)
    (<[BidderReservedGeneral := default [] (xr_Warnings x !! BidderReservedGeneral) ++ [m]]> (xr_Warnings x))
    (xr_ResponseTimeMillis x) (xr_RequestTimeoutMillis x) (xr_Prebid x).
Definition accountDebugDisabledWarning : ExtBidderMessage :=
  mkExtBidderMessage Code.AccountLevelDebugDisabledWarningCode "debug turned off for account".

Definition cache_flags (t : targetData) : CacheFlags :=
  mkCacheFlags (td_includeBidderKeys t) (td_includeWinners t) (td_includeCacheBids t) (td_includeCacheVast t).

(** What the middle of an auction leaves: the store and the seats, the
    auction when targeting is on, the response extension, the errors and the
    debug log. *)
Record Middle := mkMiddle {
  mid_Store : Store; mid_adapterBids : gmap string pbsOrtbSeatBid; mid_auc : option auction;
  mid_ext : ExtBidResponse; mid_errs : list (option error); mid_debugLog : DebugLog }.

(** The result of an auction; the labels are those given to the metrics. *)
Record Held := mkHeld {
  held_Response : BidResponse; held_Err : option error; held_Store : Store; held_debugLog : DebugLog;
  held_PrivacyLabels : PrivacyLabels; held_ImpLabels : list ImpLabels }.

Definition ar_set_BidRequest (r : AuctionRequest) (q : BidRequest) : AuctionRequest :=
  let 'mkAuctionRequest _ a g s w p l := r in mkAuctionRequest q a g s w p l.

Section Hold.
Context (float_text : float64 -> string) (json_text : json -> string).
Context (enc_request : Sources -> BidRequest -> option json).
Context (MarshalBid : Bid -> json + error) (MergePatch : json -> json -> json + error).
Context (Sprintf0 : string -> string).
Context `{JsonParser}.
Context (ParseString : string -> VendorConsents + error) (ParseISO : string -> string + error).
Context (ParseMarkup : string -> option NativeMarkup + error).
Context (ParseNativeRequest : string -> list ReqAsset * option error).
Context (MarshalMarkup : NativeMarkup -> string + error).
Context (e : exchange) (ch : Choices).

(** The response extension as text, for the debug log. *)
Definition debug_response (srcs : Sources) (x : ExtBidResponse) (d : DebugLog) (errs : list (option error)) :
  DebugLog * list (option error) :=
  if dl_DebugEnabledOrOverridden d then
    match enc_ext_response (enc_request srcs) x with
    | Some j => (dl_set_Response d (json_text j), errs)
    | None => (dl_set_Response d "Unable to marshal response ext for debugging", errs ++ [Some encode_error])
    end
  else (d, errs).

(** The bid the event URLs of a cached bid are made from. *)
Definition pb_the_bid (st : Store) (pb : pbsOrtbBid) : Bid := default emptyBid (pb_bid pb ≫= fun q => st_bid st !! q).

(** The part under [targData != nil]. *)
Definition targeting_stage (srcs : Sources) (r : AuctionRequest) (t : targetData) (supportDeals : bool) (ev : eventTracking)
    (st : Store) (adapterBids : gmap string pbsOrtbSeatBid) (adapterExtra : gmap string seatResponseExtra)
    (debugInfo : bool) (errs : list (option error)) (debugLog : DebugLog) (bidCategory : gmap string string) :
  option Middle :=
  auc ← newAuction st ((fun ns => (ns.1, Some ns.2)) <$> ch_seats ch 2 adapterBids) (td_preferDeals t);
  let v n := ch_visits ch n (winningBidsByBidder auc) in
  auc ← setRoundedPrices st (v 0) auc (td_priceGranularity t);
  '(st, bidCategory, dealErrs) ← (if supportDeals then applyDealSupport st (ar_BidRequest r) (v 1) bidCategory
                                  else Some (st, bidCategory, []));
  let errs := errs ++ (Some <$> dealErrs) in
  x ← makeExtBidResponse (ch_extras ch 0 adapterExtra) r debugInfo errs;
  let '(debugLog, errs) := debug_response srcs x debugLog errs in
  '(auc, cacheErrs, debugLog') ←
    doCache MarshalBid (fun pb name j => modifyBidJSON MergePatch ev pb (pb_the_bid st pb) name j)
      (BuildCacheString Sprintf0) (e_PutJson e) st (v 2) auc (cache_flags t) (ar_BidRequest r) 60
      (acct_CacheTTL (ar_Account r)) bidCategory (ch_cacheUUID ch) (Some debugLog);
  let errs := errs ++ (Some <$> cacheErrs) in
  st ← setTargeting t st (v 3) auc (is_some (req_App (ar_BidRequest r))) bidCategory;
  x ← makeExtBidResponse (ch_extras ch 1 adapterExtra) r debugInfo errs;
  Some (mkMiddle st adapterBids (Some auc) x errs (default debugLog debugLog')).

(** The part under [anyBidsReturned]. *)
Definition bids_stage (srcs : Sources) (r : AuctionRequest) (ext : ExtRequestPrebid) (targData : option targetData)
    (st : Store) (g : Gathered) (debugInfo : bool) (errs : list (option error)) (debugLog : DebugLog) :
  option (Middle + error) :=
  let adapterBids := g_adapterBids g in
  category ← match targData, pre_Targeting ext, pre_Targeting ext ≫= tg_IncludeBrandCategory with
             | Some t, Some targeting, Some brandCategory =>
                 applyCategoryMapping (e_FetchCategories e) (ch_draws ch) st targeting brandCategory
                   (ch_category_order ch adapterBids) adapterBids t
             | _, _, _ => Some (inl (∅, adapterBids, []))
             end;
  match category with
  | inr err => Some (inr (EPlain ("Error in category mapping : " ⧺ error_string err)))
  | inl (bidCategory, adapterBids, rejections) =>
      let errs := errs ++ ((fun message => Some (EPlain message)) <$> rejections) in
      '(st, idErrs) ← (if e_bidIDGenerator e then generate_ids (ch_bidID ch) st (ch_seats ch 0 adapterBids)
                       else Some (st, []));
      let errs := errs ++ idErrs in
      let ev := getEventTracking (Some ext) (ar_StartTime r) (ar_Account r) (e_bidderInfo e) (e_externalURL e) in
      st ← modifyBidsForEvents ev st (ch_seats ch 1 adapterBids);
      match targData with
      | Some t => inl <$> targeting_stage srcs r t (pre_SupportDeals ext) ev st adapterBids (g_adapterExtra g)
                    debugInfo errs debugLog bidCategory
      | None =>
          x ← makeExtBidResponse (ch_extras ch 1 (g_adapterExtra g)) r debugInfo errs;
          Some (inl (mkMiddle st adapterBids None x errs debugLog))
      end
  end.

(** The part of the debug information and the warnings that follows. *)
Definition add_warnings (r : AuctionRequest) (requestDebugInfo debugOverride : bool) (x : ExtBidResponse) : ExtBidResponse :=
  let x := if negb (acct_DebugAllow (ar_Account r)) && requestDebugInfo && negb debugOverride
           then warn x accountDebugDisabledWarning else x in
  fold_left (fun x w => warn x (error_message w)) (ar_Warnings r) x.

(** [HoldAuction]; [inr] is an error, [None] a panic: reading the extension
    of a request whose ext is null dereferences nil. *)
Definition HoldAuction (srcs : Sources) (st : Store) (r : AuctionRequest) (debugLog : option DebugLog) :
  option (Held + error) :=
  match extractBidRequestExt (ar_BidRequest r) with
  | inr err => Some (inr err)
  | inl requestExt =>
      let cacheInstructions := getExtCacheInstructions requestExt in
      let '(_, host, path) := e_extCacheData e in
      let targData := (fun t => td_set_cache t host path) <$> getExtTargetData requestExt cacheInstructions in
      let debugLog := default emptyDebugLog debugLog in
      let requestDebugInfo := getDebugInfo (ar_BidRequest r) requestExt in
      let debugAllow := acct_DebugAllow (ar_Account r) in
      let debugInfo := dl_DebugEnabledOrOverridden debugLog || (requestDebugInfo && debugAllow) in
      let debugLog := dl_set_Enabled debugLog (dl_DebugEnabledOrOverridden debugLog || debugAllow) in
      let gdprDefault := parseGDPRDefaultValue (e_gdprDefaultValue e) (e_privacyConfig e) (ar_BidRequest r) in
      cleaned ← cleanOpenRTBRequests float_text ParseString (ch_imp_order ch) (ch_bidder_order ch)
                  srcs r requestExt (e_gDPR e) gdprDefault (e_privacyConfig e) (Some (ar_Account r));
      let srcs := cl_Sources cleaned in
      let r' := ar_set_BidRequest r (cl_Orig cleaned) in
      liveAdapters ← listBiddersWithRequests (ch_perm ch) (cl_Requests cleaned);
      ext ← requestExt;
      let conversions := getAuctionCurrencyRates ParseISO (e_rates e) (pre_CurrencyConversions ext) in
      let '(st, g) :=
        getAllBids ParseISO ParseMarkup ParseNativeRequest MarshalMarkup (e_adapterMap e srcs)
          (getExtBidAdjustmentFactors requestExt) conversions debugAllow debugInfo (dl_DebugOverride debugLog) (ar_GPC r)
          (ch_finished ch (cl_Requests cleaned)) st in
      mid ← (if g_bidsFound g then bids_stage srcs r' ext targData st g debugInfo (cl_Errs cleaned) debugLog
             else
               x ← makeExtBidResponse (ch_extras ch 1 (g_adapterExtra g)) r' debugInfo (cl_Errs cleaned);
               let '(debugLog, errs) := debug_response srcs x debugLog (cl_Errs cleaned) in
               Some (inl (mkMiddle st (g_adapterBids g) None x errs debugLog)));
      match mid with
      | inr err => Some (inr err)
      | inl mid =>
          let x := add_warnings r requestDebugInfo (dl_DebugOverride debugLog) (mid_ext mid) in
          '(response, err) ← buildBidResponse float_text (e_extCacheData e) (enc_request srcs) (mid_Store mid) liveAdapters
            (mid_adapterBids mid) (cl_Orig cleaned) (g_adapterExtra g) (mid_auc mid) x (ci_returnCreative cacheInstructions);
          Some (inl (mkHeld response err (mid_Store mid) (mid_debugLog mid) (cl_Labels cleaned)
                       (recordImpMetrics (ar_BidRequest r))))
      end
  end.
End Hold.

(** ** Facts *)
Lemma swap_step_spec l i j : i < length l -> j < length l -> exists l', swap_step l (i, j) = Some l' /\ l ≡ₚ l'.
Proof.
  intros [a Ha]%lookup_lt_is_Some [b Hb]%lookup_lt_is_Some. rw /swap_step /= Ha Hb. eexists. split; [done|].
  apply Permutation_inj. split; [by rw !length_insert|].
  exists (fun k => if bool_decide (k = i) then j else if bool_decide (k = j) then i else k). split.
  { intros x y. repeat case_bool_decide; subst; congruence. }
  apply lookup_lt_Some in Ha as Hi, Hb as Hj.
  intros k. repeat case_bool_decide; subst; rw ?list_lookup_insert_eq ?length_insert //.
  - destruct (decide (i = j)) as [->|]; [rw list_lookup_insert_eq ?length_insert //|].
    rw list_lookup_insert_ne // list_lookup_insert_eq //.
  - by rw !list_lookup_insert_ne.
Qed.

(** Shuffling with the indices of [rand.Perm] does not panic and permutes. *)
Lemma randomizeList_spec perm l : perm ≡ₚ seq 0 (length l) -> exists l', randomizeList perm l = Some l' /\ l ≡ₚ l'.
Proof.
  intros Hp. assert (Forall (fun p => p.1 < length l /\ p.2 < length l) (imap pair perm)) as Hok.
  { apply list.Forall_lookup. intros k [i j] E. apply list_lookup_imap_Some in E as (j' & Ej & [= -> ->]).
    split; simpl.
    - apply lookup_lt_Some in Ej. by rw Hp length_seq in Ej.
    - apply list_elem_of_lookup_2 in Ej. rw Hp elem_of_seq in Ej. lia. }
  clear Hp. rw /randomizeList. revert l Hok. generalize (imap pair perm) as ps.
  induction ps as [|[i j] ps IH]; intros l Hok; [by exists l|]. apply list.Forall_cons in Hok as [[Hi Hj] Hok].
  destruct (swap_step_spec l i j Hi Hj) as (l1 & E & P1). cbn [foldM]. rw E.
  destruct (IH l1) as (l2 & E2 & P2); [by rw -(Permutation_length P1)|]. exists l2. split; [done|]. by rw P1.
Qed.

Lemma swap_step_perm l ij l' : swap_step l ij = Some l' -> l ≡ₚ l'.
Proof.
  destruct ij as [i j]. intros E. assert (i < length l /\ j < length l) as [Hi Hj].
  { rw /swap_step /= in E. destruct (l !! i) eqn:Ei, (l !! j) eqn:Ej; try done. by split; eapply lookup_lt_Some. }
  destruct (swap_step_spec l i j Hi Hj) as (l2 & E2 & P). rw E in E2. by injection E2 as ->.
Qed.
Lemma live_perm perm (requests : list BidderRequest) live :
  listBiddersWithRequests perm requests = Some live -> bq_BidderName <$> requests ≡ₚ live.
Proof.
  rw /listBiddersWithRequests /randomizeList. intros E.
  apply (foldM_inv _ (fun l => bq_BidderName <$> requests ≡ₚ l)) in E; [done|done|].
  intros l ij l' _ Hp Es. rw Hp. by eapply swap_step_perm.
Qed.

(** The seats of the response are of live adapters, in their order. *)
Lemma response_seats_live ft ecd st adapterBids auc rc live seats cur extra out :
  foldM (response_step ft ecd st adapterBids auc rc) live (seats, cur, extra) = Some out ->
  exists l, l `sublist_of` live /\ seat_Seat <$> out.1.1 = (seat_Seat <$> seats) ++ l /\
    Forall (fun a => is_Some (adapterBids !! a)) l.
Proof.
  revert seats cur extra. induction live as [|a live IH]; intros seats cur extra.
  { intros [= <-]. exists []. by rw app_nil_r. }
  cbn [foldM]. rw {1}/response_step. destruct (adapterBids !! a) as [s|] eqn:Ea.
  2: { intros (l & ? & ? & ?)%IH. exists l. split_and!; [by constructor|done|done]. }
  destruct (0 <? _)%nat.
  2: { intros (l & ? & ? & ?)%IH. exists l. split_and!; [by constructor|done|done]. }
  destruct (makeSeatBid _ _ _ _ _ _ _ _) as [[sb extra']|] eqn:Es; [|done].
  intros (l & Hl & E & HF)%IH. exists (a :: l). split_and!.
  - by constructor.
  - assert (seat_Seat sb = a) as Hs.
    { rw /makeSeatBid in Es. destruct (makeBid _ _ _ _ _ _) as [[bids [|? ?]]|]; [by injection Es as <-| |done].
      destruct (extra !! a); [by injection Es as <-|done]. }
    rw E fmap_app -app_assoc /=. by rw Hs.
  - constructor; [by eexists|done].
Qed.

Section HoldFacts.
Context (float_text : float64 -> string) (json_text : json -> string).
Context (enc_request : Sources -> BidRequest -> option json).
Context (MarshalBid : Bid -> json + error) (MergePatch : json -> json -> json + error).
Context (Sprintf0 : string -> string).
Context `{JsonParser}.
Context (ParseString : string -> VendorConsents + error) (ParseISO : string -> string + error).
Context (ParseMarkup : string -> option NativeMarkup + error).
Context (ParseNativeRequest : string -> list ReqAsset * option error).
Context (MarshalMarkup : NativeMarkup -> string + error).
Context (e : exchange) (ch : Choices).

(** C3: an auction answers only for bidders it called: when it produces a
    response, its seats belong to distinct positions of a permutation of
    the bidders whose requests passed the privacy rules, the labels
    reported are those of that cleaning, the response has the id of the
    request, and it says that the request is invalid exactly when no bidder
    could be called. *)
Theorem auction_answers_called_bidders srcs st r debugLog h
    (Hrun : HoldAuction float_text json_text enc_request MarshalBid MergePatch Sprintf0 ParseString
       ParseISO ParseMarkup ParseNativeRequest MarshalMarkup e ch srcs st r debugLog = Some (inl h)) :
  exists requestExt cleaned live seats,
    extractBidRequestExt (ar_BidRequest r) = inl (Some requestExt) /\
    cleanOpenRTBRequests float_text ParseString (ch_imp_order ch) (ch_bidder_order ch) srcs r
      (Some requestExt) (e_gDPR e)
      (parseGDPRDefaultValue (e_gdprDefaultValue e) (e_privacyConfig e) (ar_BidRequest r))
      (e_privacyConfig e) (Some (ar_Account r)) = Some cleaned /\
    bq_BidderName <$> cl_Requests cleaned ≡ₚ live /\
    seats `sublist_of` live /\ seat_Seat <$> resp_SeatBid (held_Response h) = seats /\
    held_PrivacyLabels h = cl_Labels cleaned /\
    resp_ID (held_Response h) = req_ID (cl_Orig cleaned) /\
    (is_Some (resp_NBR (held_Response h)) <-> cl_Requests cleaned = []).
Proof.
  rw /HoldAuction in Hrun. destruct (extractBidRequestExt _) as [ext|] eqn:Eext; [|done].
  destruct (e_extCacheData e) as [[scheme host] path] eqn:Ecd.
  destruct (cleanOpenRTBRequests _ _ _ _ _ _ _ _ _ _ _) as [cleaned|] eqn:Ec; [|done]. cbn [mbind option_bind] in Hrun.
  destruct (listBiddersWithRequests _ _) as [live|] eqn:El; [|done].
  destruct ext as [ext|]; [|done]. cbn [mbind option_bind] in Hrun.
  destruct (getAllBids _ _ _ _ _ _ _ _ _ _ _ _ st) as [st1 g].
  match type of Hrun with context [mbind _ ?m] => destruct m as [[mid|err]|] end; [|done|done].
  cbn [mbind option_bind] in Hrun.
  destruct (buildBidResponse _ _ _ _ _ _ _ _ _ _ _) as [[response err]|] eqn:Eb; [|done].
  injection Hrun as <-. cbn [held_PrivacyLabels held_Response mbind option_bind].
  rw /buildBidResponse in Eb. destruct (foldM _ live _) as [[[seats cur] extra]|] eqn:Ef; [|done].
  destruct (response_seats_live _ _ _ _ _ _ _ _ _ _ _ Ef) as (l & Hl & Hs & _).
  destruct (encodeBidResponseExt _ _) as [x xerr]. injection Eb as <- <-.
  exists ext, cleaned, live, l. pose proof (live_perm _ _ _ El) as Hp. split_and!; try done.
  cbn. split.
  - destruct live; [|by intros []]. intros _. apply Permutation_nil_r in Hp. by destruct (cl_Requests cleaned).
  - intros Hnil. rw Hnil in Hp. apply Permutation_nil in Hp. subst live. by eexists.
Qed.
End HoldFacts.

(** ** A concrete auction *)
Definition demo_PutJson (l : list Cacheable) : list string * list error := ((fun _ => "uuid-1"%string) <$> l, []).
Definition demo_exchange : exchange :=
  mkExchange (fun _ => {["appnexus"%string := demo_adapter]}) ∅ ("https", "cache.example", "/c")%string demo_PutJson AlwaysAllow
    demo_conv "https://pbs.example" SignalNo (mkPrivacyConfig false true ∅ false) no_categories false.
Definition demo_choices : Choices :=
  mkChoices (fun _ => map_to_list) map_to_list [0] id (fun m => (map_to_list m).*1) (fun _ => true)
    (fun _ => map_to_list) (fun _ m => (fun im => (im.1, map_to_list im.2)) <$> map_to_list m)
    (fun _ => map_to_list) (fun _ => ("id"%string, None)) (inl "uuid"%string).
Definition demo_imp : Imp :=
  simpleImp "i1" (RawJson (JObj [("appnexus"%string, JObj [])])).
Definition demo_hold_request : AuctionRequest :=
  mkAuctionRequest
    (mkBidRequest "req-1" [demo_imp] None None None None 0 1 500 ["USD"%string] [] [] None None
       (RawJson (JObj [("prebid"%string, JObj [("targeting"%string, JObj []); ("cache"%string, JObj [("bids"%string, JObj [])])])])))
    (plain_account "1001") (fun _ => (""%string, false)) zero_time [] "" (mkLabels "web" "openrtb2-web" "1001" CookieFlagNo).
Definition demo_hold :=
  HoldAuction (fun _ => "1"%string) (fun _ => ""%string) (fun _ _ => None) (fun _ => inl JNull) (fun j _ => inl j) id
    (fun _ => inr (EPlain "no consent")) (fun s => inl s) (fun _ => inr (EPlain "no markup")) (fun _ => ([], None))
    (fun _ => inr (EPlain "no markup")) demo_exchange demo_choices ∅ (mkStore ∅ ∅) demo_hold_request None.
(** The whole auction runs: one bidder, one cached bid with its targeting. *)
Example demo_hold_runs :
  match demo_hold with
  | Some (inl h) =>
      resp_Cur (held_Response h) = "USD"%string /\
      map (fun s => (seat_Seat s, map bid_Ext (seat_Bid s))) (resp_SeatBid (held_Response h)) =
        [("appnexus"%string,
          [RawJson (JObj [("prebid"%string, JObj
             [("cache"%string, JObj [("key"%string, JStr ""); ("url"%string, JStr "");
                ("bids"%string, JObj [("url"%string, JStr "https://cache.example/c?uuid=uuid-1");
                                      ("cacheId"%string, JStr "uuid-1")])]);
              ("targeting"%string, JObj
                [("hb_bidder"%string, JStr "appnexus"); ("hb_bidder_appnexus"%string, JStr "appnexus");
                 ("hb_cache_host"%string, JStr "cache.example"); ("hb_cache_host_appnex"%string, JStr "cache.example");
                 ("hb_cache_id"%string, JStr "uuid-1"); ("hb_cache_id_appnexus"%string, JStr "uuid-1");
                 ("hb_cache_path"%string, JStr "/c"); ("hb_cache_path_appnex"%string, JStr "/c");
                 ("hb_pb"%string, JStr "20.00"); ("hb_pb_appnexus"%string, JStr "20.00")]);
              ("type"%string, JStr "banner")])])])]
  | _ => False
  end.
Proof. vm_compute. by split. Qed.

Lemma auction_answers_called_bidders_witness :
  exists h, demo_hold = Some (inl h) /\ resp_ID (held_Response h) = "req-1"%string /\ resp_NBR (held_Response h) = None.
Proof.
  destruct demo_hold as [[h|err]|] eqn:E;
    [|exfalso; pose proof demo_hold_runs as H; by rw E in H|exfalso; pose proof demo_hold_runs as H; by rw E in H].
  exists h. split; [reflexivity|].
  destruct (auction_answers_called_bidders _ _ _ _ _ _ _ _ _ _ _ _ _ _ _ _ _ h E)
    as (ext & cleaned & live & seats & _ & Ec & Hp & Hsub & Hs & _ & Hid & Hn).
  assert (map seat_Seat (resp_SeatBid (held_Response h)) = ["appnexus"%string]) as Hseats.
  { pose proof demo_hold_runs as H. rw E in H. destruct H as [_ H].
    apply (f_equal (map fst)) in H. rw map_map in H. exact H. }
  split.
  - rw Hid. assert ((match demo_hold with Some (inl h) => resp_ID (held_Response h) | _ => ""%string end) = "req-1"%string) as H
      by (vm_compute; reflexivity). rw E in H. by rw -Hid.
  - destruct (resp_NBR (held_Response h)) as [n|]; [|done]. exfalso.
    assert (cl_Requests cleaned = []) as Hnil by (apply Hn; by eexists).
    rw Hnil in Hp. apply Permutation_nil in Hp. subst live. apply sublist_nil_r in Hsub. subst seats.
    change (seat_Seat <$> resp_SeatBid (held_Response h)) with (map seat_Seat (resp_SeatBid (held_Response h))) in Hs.
    rw Hseats in Hs. discriminate Hs.
Defined.

(** A request whose extension is null panics, whatever else it asks for. *)
Example null_ext_panics :
  HoldAuction (fun _ => "1"%string) (fun _ => ""%string) (fun _ _ => None) (fun _ => inl JNull) (fun j _ => inl j) id
    (fun _ => inr (EPlain "no consent")) (fun s => inl s) (fun _ => inr (EPlain "no markup")) (fun _ => ([], None))
    (fun _ => inr (EPlain "no markup")) demo_exchange demo_choices ∅ (mkStore ∅ ∅)
    (ar_set_BidRequest demo_hold_request
       (mkBidRequest "req-1" [demo_imp] None None None None 0 1 500 [] [] [] None None (RawJson JNull))) None = None.
Proof. vm_compute. reflexivity. Qed.
