(* ===== verification/Templates.v ===== *)
(** * URL templates

    [macros/macros.go] and what the program uses of [text/template]: texts whose
    actions are fields, as [{{.GDPR}}].  The package itself is the class
    [TextTemplate]; its law says what it does with such texts, and nothing of
    any other.  The scanner reads byte by byte, so that a text put together of
    parts can be read part by part. *)

From S2P Require Import Prelude ErrorTypes Url.

(** ** Texts with fields *)
Inductive part := Byte (c : Ascii.ascii) | Field (name : string).
(** Where the scanner is: in text, after one brace, after two, in a name, after
    the first closing brace. *)
Inductive mode := Outside | Half | Opened | Named (name : string) | Closing (name : string).
(** The mode after a byte, and the parts it completes. *)
Definition scan_byte (m : mode) (c : Ascii.ascii) : option (mode * list part) :=
  match m with
  | Outside => Some (if Ascii.eqb c "{" then (Half, []) else (Outside, [Byte c]))
  | Half => Some (if Ascii.eqb c "{" then (Opened, []) else (Outside, [Byte "{"; Byte c]))
  | Opened => if Ascii.eqb c "." then Some (Named "", []) else None
  | Named n =>
      if is_letter c then Some (Named (n ⧺ String c ""), [])
      else if Ascii.eqb c "}" && negb (GoStr.is_empty n) then Some (Closing n, []) else None
  | Closing n => if Ascii.eqb c "}" then Some (Outside, [Field n]) else None
  end.
Fixpoint scan_from (m : mode) (s : string) : option (mode * list part) :=
  match s with
  | EmptyString => Some (m, [])
  | String c s =>
      '(m, parts) ← scan_byte m c;
      '(m, rest) ← scan_from m s;
      Some (m, parts ++ rest)
  end.
(** [None] is a text with something else in braces. *)
Definition scan (s : string) : option (list part) :=
  match scan_from Outside s with
  | Some (Outside, parts) => Some parts
  | Some (Half, parts) => Some (parts ++ [Byte "{"])
  | _ => None
  end.

(** A struct of strings, by the names of its members. *)
Definition Params : Type := string -> option string.
Definition expand_part (params : Params) (p : part) : option string :=
  match p with Byte c => Some (String c EmptyString) | Field name => params name end.
Fixpoint expand (params : Params) (parts : list part) : option string :=
  match parts with
  | [] => Some ""%string
  | p :: rest => s ← expand_part params p; t ← expand params rest; Some (s ⧺ t)
  end.

(** ** The package *)
Class TextTemplate := {
  template : Type;
  Parse : string -> template + error;
  Execute : template -> Params -> string + error }.
Class TextTemplateOk `{TextTemplate} : Prop :=
  fields_ok s parts : scan s = Some parts -> exists t, Parse s = inl t /\
    forall params, match expand params parts with
                   | Some text => Execute t params = inl text
                   | None => exists err, Execute t params = inr err
                   end.
(** One that knows nothing but fields. *)
Definition fields_only : TextTemplate := {|
  template := list part;
  Parse s := match scan s with Some parts => inl parts | None => inr (EPlain "unexpected action") end;
  Execute parts params := match expand params parts with Some s => inl s | None => inr (EPlain "can't evaluate field") end |}.
Lemma fields_only_ok : @TextTemplateOk fields_only.
Proof.
  intros s parts Hs. exists parts. cbn. rw Hs. split; [done|]. intros params. destruct (expand params parts); [done|]. by eexists.
Qed.

Definition ResolveMacros `{TextTemplate} (aTemplate : template) (params : Params) : string + error := Execute aTemplate params.

(** ** Facts *)
Definition no_brace (s : string) : bool := all_bytes (fun a => negb (Ascii.eqb a "{")) s.

Lemma scan_from_app m s t : scan_from m (s ⧺ t) =
  '(m, parts) ← scan_from m s; '(m, rest) ← scan_from m t; Some (m, parts ++ rest).
Proof.
  revert m. induction s as [|c s IH]; intros m; cbn; [by destruct (scan_from m t) as [[? ?]|]|].
  destruct (scan_byte m c) as [[m1 p1]|]; [|done]. cbn. rw IH. destruct (scan_from m1 s) as [[m2 p2]|]; [|done]. cbn.
  destruct (scan_from m2 t) as [[m3 p3]|]; [|done]. cbn. by rw app_assoc.
Qed.
Definition bytes (s : string) : list part := Byte <$> list_ascii_of_string s.
Lemma scan_from_text s : no_brace s = true -> scan_from Outside s = Some (Outside, bytes s).
Proof.
  unfold no_brace. induction s as [|c s IH]; [done|]. cbn. intros [Hc%negb_true_iff Hs]%andb_true_iff. rw Hc. cbn. by rw (IH Hs).
Qed.
Lemma scan_app s t p q : scan_from Outside s = Some (Outside, p) -> scan t = Some q -> scan (s ⧺ t) = Some (p ++ q).
Proof.
  intros Hs Ht. unfold scan in *. rw scan_from_app Hs. cbn. destruct (scan_from Outside t) as [[m r]|]; [|done]. cbn.
  destruct m; simplify_eq; [done|by rw app_assoc].
Qed.
Lemma expand_app params l l' : expand params (l ++ l') = s ← expand params l; t ← expand params l'; Some (s ⧺ t).
Proof.
  induction l as [|p l IH]; cbn; [by destruct (expand params l')|]. destruct (expand_part params p) as [s|]; [|done]. cbn. rw IH.
  destruct (expand params l) as [t|]; [|done]. cbn. destruct (expand params l'); [|done]. cbn. by rw str_app_assoc.
Qed.
Lemma expand_bytes params s : expand params (bytes s) = Some s.
Proof. induction s as [|c s IH]; [done|]. cbn. by rw IH. Qed.
Lemma escape_no_brace s : no_brace (QueryEscape s) = true.
Proof.
  apply (all_bytes_impl escaped_byte); [|apply escape_bytes]. intros a.
  apply implb_true_iff, (forall_ascii (fun a => implb (escaped_byte a) (negb (Ascii.eqb a "{")))). by vm_compute.
Qed.
