(* ===== verification/ServerDefaults.v ===== *)
(** * Default settings

    The tables of [config/config.go]: the user sync URLs that
    [setDerivedDefaults] gives the bidders that have none, and the settings of
    [SetupViper]. *)

From S2P Require Import Prelude Float64 Bidders.

(** ** Sync URLs *)
(** The bidder, and the URL before and after the server's own address. *)
Definition default_usersyncs (lockerdome_PlatformID : string) : list (string * string * string) :=
  [("33across", "https://ic.tynt.com/r/d?m=xch&rt=html&gdpr={{.GDPR}}&gdpr_consent={{.GDPRConsent}}&us_privacy={{.USPrivacy}}&ru=",
      "%2Fsetuid%3Fbidder%3D33across%26uid%3D33XUSERID33X&id=zzz000000000002zzz");
   ("acuityads", "https://cs.admanmedia.com/sync/prebid?gdpr={{.GDPR}}&gdpr_consent={{.GDPRConsent}}&us_privacy={{.USPrivacy}}&redir=",
      "%2Fsetuid%3Fbidder%3Dacuityads%26uid%3D%5BUID%5D");
   ("adf", "https://cm.adform.net/cookie?redirect_url=",
      "%2Fsetuid%3Fbidder%3Dadf%26gdpr%3D{{.GDPR}}%26gdpr_consent%3D{{.GDPRConsent}}%26uid%3D%24UID");
   ("adform", "https://cm.adform.net/cookie?redirect_url=",
      "%2Fsetuid%3Fbidder%3Dadform%26gdpr%3D{{.GDPR}}%26gdpr_consent%3D{{.GDPRConsent}}%26uid%3D%24UID");
   ("adkernel", "https://sync.adkernel.com/user-sync?t=image&gdpr={{.GDPR}}&gdpr_consent={{.GDPRConsent}}&us_privacy={{.USPrivacy}}&r=",
      "%2Fsetuid%3Fbidder%3Dadkernel%26gdpr%3D{{.GDPR}}%26gdpr_consent%3D{{.GDPRConsent}}%26uid%3D%7BUID%7D");
   ("adkernelAdn", "https://tag.adkernel.com/syncr?gdpr={{.GDPR}}&gdpr_consent={{.GDPRConsent}}&us_privacy={{.USPrivacy}}&r=",
      "%2Fsetuid%3Fbidder%3DadkernelAdn%26gdpr%3D{{.GDPR}}%26gdpr_consent%3D{{.GDPRConsent}}%26uid%3D%7BUID%7D");
   ("adpone", "https://usersync.adpone.com/csync?redir=",
      "%2Fsetuid%3Fbidder%3Dadpone%26gdpr%3D{{.GDPR}}%26gdpr_consent%3D{{.GDPRConsent}}%26uid%3D%7Buid%7D");
   ("admixer", "https://inv-nets.admixer.net/adxcm.aspx?gdpr={{.GDPR}}&gdpr_consent={{.GDPRConsent}}&us_privacy={{.USPrivacy}}&redir=1&rurl=",
      "%2Fsetuid%3Fbidder%3Dadmixer%26gdpr%3D{{.GDPR}}%26gdpr_consent%3D{{.GDPRConsent}}%26uid%3D%24%24visitor_cookie%24%24");
   ("adman", "https://sync.admanmedia.com/pbs.gif?gdpr={{.GDPR}}&gdpr_consent={{.GDPRConsent}}&us_privacy={{.USPrivacy}}&redir=",
      "%2Fsetuid%3Fbidder%3Dadman%26gdpr%3D{{.GDPR}}%26gdpr_consent%3D{{.GDPRConsent}}%26uid%3D%5BUID%5D");
   ("advangelists", "https://nep.advangelists.com/xp/user-sync?acctid={aid}&&redirect=",
      "%2Fsetuid%3Fbidder%3Dadvangelists%26gdpr%3D{{.GDPR}}%26gdpr_consent%3D{{.GDPRConsent}}%26uid%3D%24UID");
   ("adyoulike", "http://visitor.omnitagjs.com/visitor/bsync?uid=19340f4f097d16f41f34fc0274981ca4&name=PrebidServer&gdpr={{.GDPR}}&gdpr_consent={{.GDPRConsent}}&us_privacy={{.USPrivacy}}&url=",
      "%2Fsetuid%3Fbidder%3Dadyoulike%26gdpr%3D{{.GDPR}}%26gdpr_consent%3D{{.GDPRConsent}}%26uid%3D%5BBUYER_USERID%5D");
   ("aja", "https://ad.as.amanad.adtdp.com/v1/sync/ssp?ssp=4&gdpr={{.GDPR}}&us_privacy={{.USPrivacy}}&redir=",
      "%2Fsetuid%3Fbidder%3Daja%26gdpr%3D{{.GDPR}}%26gdpr_consent%3D{{.GDPRConsent}}%26uid%3D%25s");
   ("amx", "https://prebid.a-mo.net/cchain/0?gdpr={{.GDPR}}&us_privacy={{.USPrivacy}}&cb=",
      "%2Fsetuid%3Fbidder%3Damx%26gdpr%3D{{.GDPR}}%26gdpr_consent%3D{{.GDPRConsent}}%26uid%3D");
   ("appnexus", "https://ib.adnxs.com/getuid?",
      "%2Fsetuid%3Fbidder%3Dadnxs%26gdpr%3D{{.GDPR}}%26gdpr_consent%3D{{.GDPRConsent}}%26uid%3D%24UID");
   ("avocet", "https://ads.avct.cloud/getuid?&gdpr={{.GDPR}}&gdpr_consent={{.GDPRConsent}}&us_privacy={{.USPrivacy}}&url=",
      "%2Fsetuid%3Fbidder%3Davocet%26gdpr%3D{{.GDPR}}%26gdpr_consent%3D{{.GDPRConsent}}%26uid%3D%7B%7BUUID%7D%7D");
   ("beachfront", "https://sync.bfmio.com/sync_s2s?gdpr={{.GDPR}}&us_privacy={{.USPrivacy}}&url=",
      "%2Fsetuid%3Fbidder%3Dbeachfront%26gdpr%3D{{.GDPR}}%26gdpr_consent%3D{{.GDPRConsent}}%26uid%3D%5Bio_cid%5D");
   ("beintoo", "https://ib.beintoo.com/um?ssp=pbs&gdpr={{.GDPR}}&gdpr_consent={{.GDPRConsent}}&us_privacy={{.USPrivacy}}&redirect=",
      "%2Fsetuid%3Fbidder%3Dbeintoo%26uid%3D%24UID");
   ("brightroll", "https://pr-bh.ybp.yahoo.com/sync/appnexusprebidserver/?gdpr={{.GDPR}}&euconsent={{.GDPRConsent}}&us_privacy={{.USPrivacy}}&url=",
      "%2Fsetuid%3Fbidder%3Dbrightroll%26gdpr%3D{{.GDPR}}%26gdpr_consent%3D{{.GDPRConsent}}%26uid%3D%24UID");
   ("colossus", "https://sync.colossusssp.com/pbs.gif?gdpr={{.GDPR}}&gdpr_consent={{.GDPRConsent}}&us_privacy={{.USPrivacy}}&redir=",
      "%2Fsetuid%3Fbidder%3Dcolossus%26gdpr%3D{{.GDPR}}%26gdpr_consent%3D{{.GDPRConsent}}%26uid%3D%5BUID%5D");
   ("connectad", "https://cdn.connectad.io/connectmyusers.php?gdpr={{.GDPR}}&consent={{.GDPRConsent}}&us_privacy={{.USPrivacy}}&cb=",
      "%2Fsetuid%3Fbidder%3Dconnectad%26gdpr%3D{{.GDPR}}%26gdpr_consent%3D{{.GDPRConsent}}%26uid%3D");
   ("consumable", "https://e.serverbid.com/udb/9969/match?gdpr={{.GDPR}}&euconsent={{.GDPRConsent}}&us_privacy={{.USPrivacy}}&redir=",
      "%2Fsetuid%3Fbidder%3Dconsumable%26gdpr%3D{{.GDPR}}%26gdpr_consent%3D{{.GDPRConsent}}%26uid%3D");
   ("conversant", "https://prebid-match.dotomi.com/match/bounce/current?version=1&networkId=72582&rurl=",
      "%2Fsetuid%3Fbidder%3Dconversant%26gdpr%3D{{.GDPR}}%26gdpr_consent%3D{{.GDPRConsent}}%26uid%3D");
   ("cpmstar", "https://server.cpmstar.com/usersync.aspx?gdpr={{.GDPR}}&consent={{.GDPRConsent}}&us_privacy={{.USPrivacy}}&redirect=",
      "%2Fsetuid%3Fbidder%3Dcpmstar%26gdpr%3D{{.GDPR}}%26gdpr_consent%3D{{.GDPRConsent}}%26uid%3D%24UID");
   ("datablocks", "https://sync.v5prebid.datablocks.net/s2ssync?gdpr={{.GDPR}}&gdpr_consent={{.GDPRConsent}}&us_privacy={{.USPrivacy}}&r=",
      "%2Fsetuid%3Fbidder%3Ddatablocks%26gdpr%3D{{.GDPR}}%26gdpr_consent%3D{{.GDPRConsent}}%26uid%3D%24%7Buid%7D");
   ("deepintent", "https://match.deepintent.com/usersync/136?id=unk&gdpr={{.GDPR}}&gdpr_consent={{.GDPRConsent}}&us_privacy={{.USPrivacy}}&redir=",
      "%2Fsetuid%3Fbidder%3Ddeepintent%26gdpr%3D{{.GDPR}}%26gdpr_consent%3D{{.GDPRConsent}}%26uid%3D%5BUID%5D");
   ("emx_digital", "https://cs.emxdgt.com/um?ssp=pbs&gdpr={{.GDPR}}&gdpr_consent={{.GDPRConsent}}&us_privacy={{.USPrivacy}}&redirect=",
      "%2Fsetuid%3Fbidder%3Demx_digital%26uid%3D%24UID");
   ("e_volution", "https://sync.e-volution.ai/pbserver?gdpr={{.GDPR}}&gdpr_consent={{.GDPRConsent}}&ccpa={{.USPrivacy}}&redirect=",
      "%2Fsetuid%3Fbidder%3De_volution%26gdpr%3D{{.GDPR}}%26gdpr_consent%3D{{.GDPRConsent}}%26uid%3D%5BUID%5D");
   ("engagebdr", "https://match.bnmla.com/usersync/s2s_sync?gdpr={{.GDPR}}&gdpr_consent={{.GDPRConsent}}&us_privacy={{.USPrivacy}}&r=",
      "%2Fsetuid%3Fbidder%3Dengagebdr%26gdpr%3D{{.GDPR}}%26gdpr_consent%3D{{.GDPRConsent}}%26uid%3D%24%7BUUID%7D");
   ("eplanning", "https://ads.us.e-planning.net/uspd/1/?du=",
      "%2Fsetuid%3Fbidder%3Deplanning%26gdpr%3D{{.GDPR}}%26gdpr_consent%3D{{.GDPRConsent}}%26uid%3D%24UID");
   ("gamoshi", "https://rtb.gamoshi.io/user_sync_prebid?gdpr={{.GDPR}}&consent={{.GDPRConsent}}&us_privacy={{.USPrivacy}}&rurl=",
      "%2Fsetuid%3Fbidder%3Dgamoshi%26gdpr%3D{{.GDPR}}%26gdpr_consent%3D{{.GDPRConsent}}%26uid%3D%5Bgusr%5D");
   ("grid", "https://x.bidswitch.net/check_uuid/",
      "%2Fsetuid%3Fbidder%3Dgrid%26gdpr%3D{{.GDPR}}%26gdpr_consent%3D{{.GDPRConsent}}%26uid%3D%24%7BBSW_UUID%7D?gdpr={{.GDPR}}&gdpr_consent={{.GDPRConsent}}&us_privacy={{.USPrivacy}}");
   ("gumgum", "https://rtb.gumgum.com/usync/prbds2s?gdpr={{.GDPR}}&gdpr_consent={{.GDPRConsent}}&us_privacy={{.USPrivacy}}&r=",
      "%2Fsetuid%3Fbidder%3Dgumgum%26gdpr%3D{{.GDPR}}%26gdpr_consent%3D{{.GDPRConsent}}%26uid%3D");
   ("improvedigital", "https://ad.360yield.com/server_match?gdpr={{.GDPR}}&gdpr_consent={{.GDPRConsent}}&us_privacy={{.USPrivacy}}&r=",
      "%2Fsetuid%3Fbidder%3Dimprovedigital%26gdpr%3D{{.GDPR}}%26gdpr_consent%3D{{.GDPRConsent}}%26uid%3D%7BPUB_USER_ID%7D");
   ("ix", "https://ssum.casalemedia.com/usermatchredir?s=194962&gdpr={{.GDPR}}&gdpr_consent={{.GDPRConsent}}&us_privacy={{.USPrivacy}}&cb=",
      "%2Fsetuid%3Fbidder%3Dix%26gdpr%3D{{.GDPR}}%26gdpr_consent%3D{{.GDPRConsent}}%26uid%3D");
   ("jixie", "https://id.jixie.io/api/sync?pid=&gdpr={{.GDPR}}&gdpr_consent={{.GDPRConsent}}&us_privacy={{.USPrivacy}}&redirect=",
      "%2Fsetuid%3Fbidder%3Djixie%26gdpr%3D{{.GDPR}}%26gdpr_consent%3D{{.GDPRConsent}}%26uid%3D%25%25JXUID%25%25");
   ("krushmedia", "https://cs.krushmedia.com/4e4abdd5ecc661643458a730b1aa927d.gif?gdpr={{.GDPR}}&gdpr_consent={{.GDPRConsent}}&us_privacy={{.USPrivacy}}&redir=",
      "%2Fsetuid%3Fbidder%3Dkrushmedia%26uid%3D%5BUID%5D");
   ("lockerdome", "https://lockerdome.com/usync/prebidserver?pid=" ⧺ lockerdome_PlatformID ⧺ "&gdpr={{.GDPR}}&gdpr_consent={{.GDPRConsent}}&us_privacy={{.USPrivacy}}&redirect=",
      "%2Fsetuid%3Fbidder%3Dlockerdome%26gdpr%3D{{.GDPR}}%26gdpr_consent%3D{{.GDPRConsent}}%26uid%3D%7B%7Buid%7D%7D");
   ("logicad", "https://cr-p31.ladsp.jp/cookiesender/31?r=true&gdpr={{.GDPR}}&gdpr_consent={{.GDPRConsent}}&ru=",
      "%2Fsetuid%3Fbidder%3Dlogicad%26gdpr%3D{{.GDPR}}%26gdpr_consent%3D{{.GDPRConsent}}%26uid%3D%24UID");
   ("lunamedia", "https://api.lunamedia.io/xp/user-sync?redirect=",
      "%2Fsetuid%3Fbidder%3Dlunamedia%26gdpr%3D{{.GDPR}}%26gdpr_consent%3D{{.GDPRConsent}}%26uid%3D%24UID");
   ("marsmedia", "https://dmp.rtbsrv.com/dmp/profiles/cm?p_id=179&gdpr={{.GDPR}}&gdpr_consent={{.GDPRConsent}}&us_privacy={{.USPrivacy}}&redirect=",
      "%2Fsetuid%3Fbidder%3Dmarsmedia%26gdpr%3D{{.GDPR}}%26gdpr_consent%3D{{.GDPRConsent}}%26uid%3D%24%7BUUID%7D");
   ("mgid", "https://cm.mgid.com/m?cdsp=363893&adu=",
      "%2Fsetuid%3Fbidder%3Dmgid%26gdpr%3D{{.GDPR}}%26gdpr_consent%3D{{.GDPRConsent}}%26uid%3D%7Bmuidn%7D");
   ("nanointeractive", "https://ad.audiencemanager.de/hbs/cookie_sync?gdpr={{.GDPR}}&consent={{.GDPRConsent}}&us_privacy={{.USPrivacy}}&redirectUri=",
      "%2Fsetuid%3Fbidder%3Dnanointeractive%26gdpr%3D{{.GDPR}}%26gdpr_consent%3D{{.GDPRConsent}}%26uid%3D%24UID");
   ("ninthdecimal", "https://rtb.ninthdecimal.com/xp/user-sync?acctid={aid}&&redirect=",
      "%2Fsetuid%3Fbidder%3Dninthdecimal%26gdpr%3D{{.GDPR}}%26gdpr_consent%3D{{.GDPRConsent}}%26uid%3D%24UID");
   ("nobid", "https://ads.servenobid.com/getsync?tek=pbs&ver=1&gdpr={{.GDPR}}&gdpr_consent={{.GDPRConsent}}&us_privacy={{.USPrivacy}}&redirect=",
      "%2Fsetuid%3Fbidder%3Dnobid%26uid%3D%24UID");
   ("openx", "https://rtb.openx.net/sync/prebid?gdpr={{.GDPR}}&gdpr_consent={{.GDPRConsent}}&r=",
      "%2Fsetuid%3Fbidder%3Dopenx%26gdpr%3D{{.GDPR}}%26gdpr_consent%3D{{.GDPRConsent}}%26uid%3D%24%7BUID%7D");
   ("onetag", "https://onetag-sys.com/usync/?redir=",
      "%2Fsetuid%3Fbidder%3Donetag%26gdpr%3D{{.GDPR}}%26gdpr_consent%3D{{.GDPRConsent}}%26uid%3D%24%7BUSER_TOKEN%7D");
   ("outbrain", "https://prebidtest.zemanta.com/usersync/prebidtest?gdpr={{.GDPR}}&gdpr_consent={{.GDPRConsent}}&us_privacy={{.USPrivacy}}&cb=",
      "%2Fsetuid%3Fbidder%3Doutbrain%26uid%3D__ZUID__");
   ("pubmatic", "https://ads.pubmatic.com/AdServer/js/user_sync.html?gdpr={{.GDPR}}&gdpr_consent={{.GDPRConsent}}&us_privacy={{.USPrivacy}}&predirect=",
      "%2Fsetuid%3Fbidder%3Dpubmatic%26gdpr%3D{{.GDPR}}%26gdpr_consent%3D{{.GDPRConsent}}%26uid%3D");
   ("pulsepoint", "https://bh.contextweb.com/rtset?pid=561205&ev=1&rurl=",
      "%2Fsetuid%3Fbidder%3Dpulsepoint%26gdpr%3D{{.GDPR}}%26gdpr_consent%3D{{.GDPRConsent}}%26uid%3D%25%25VGUID%25%25");
   ("rhythmone", "https://sync.1rx.io/usersync2/rmphb?gdpr={{.GDPR}}&gdpr_consent={{.GDPRConsent}}&us_privacy={{.USPrivacy}}&redir=",
      "%2Fsetuid%3Fbidder%3Drhythmone%26gdpr%3D{{.GDPR}}%26gdpr_consent%3D{{.GDPRConsent}}%26uid%3D%5BRX_UUID%5D");
   ("sharethrough", "https://match.sharethrough.com/FGMrCMMc/v1?redirectUri=",
      "%2Fsetuid%3Fbidder%3Dsharethrough%26gdpr%3D{{.GDPR}}%26gdpr_consent%3D{{.GDPRConsent}}%26uid%3D%24UID");
   ("smartadserver", "https://ssbsync-global.smartadserver.com/api/sync?callerId=5&gdpr={{.GDPR}}&gdpr_consent={{.GDPRConsent}}&us_privacy={{.USPrivacy}}&redirectUri=",
      "%2Fsetuid%3Fbidder%3Dsmartadserver%26gdpr%3D{{.GDPR}}%26gdpr_consent%3D{{.GDPRConsent}}%26uid%3D%5Bssb_sync_pid%5D");
   ("smartrtb", "https://market-global.smrtb.com/sync/all?nid=smartrtb&gdpr={{.GDPR}}&gdpr_consent={{.GDPRConsent}}&rr=",
      "%252Fsetuid%253Fbidder%253Dsmartrtb%2526gdpr%253D{{.GDPR}}%2526gdpr_consent%253D{{.GDPRConsent}}%2526uid%253D%257BXID%257D");
   ("smartyads", "https://as.ck-ie.com/prebid.gif?gdpr={{.GDPR}}&gdpr_consent={{.GDPRConsent}}&us_privacy={{.USPrivacy}}&redir=",
      "%2Fsetuid%3Fbidder%3Dsmartyads%26uid%3D%5BUID%5D");
   ("smilewanted", "https://csync.smilewanted.com/getuid?source=prebid-server&gdpr={{.GDPR}}&gdpr_consent={{.GDPRConsent}}&us_privacy={{.USPrivacy}}&redirect=",
      "%2Fsetuid%3Fbidder%3Dsmilewanted%26gdpr%3D{{.GDPR}}%26gdpr_consent%3D{{.GDPRConsent}}%26uid%3D%24UID");
   ("somoaudience", "https://publisher-east.mobileadtrading.com/usersync?ru=",
      "%2Fsetuid%3Fbidder%3Dsomoaudience%26gdpr%3D{{.GDPR}}%26gdpr_consent%3D{{.GDPRConsent}}%26uid%3D%24%7BUID%7D");
   ("sonobi", "https://sync.go.sonobi.com/us.gif?loc=",
      "%2Fsetuid%3Fbidder%3Dsonobi%26consent_string%3D{{.GDPR}}%26gdpr%3D{{.GDPRConsent}}%26uid%3D%5BUID%5D");
   ("sovrn", "https://ap.lijit.com/pixel?redir=",
      "%2Fsetuid%3Fbidder%3Dsovrn%26gdpr%3D{{.GDPR}}%26gdpr_consent%3D{{.GDPRConsent}}%26uid%3D%24UID");
   ("synacormedia", "https://sync.technoratimedia.com/services?srv=cs&pid=70&cb=",
      "%2Fsetuid%3Fbidder%3Dsynacormedia%26uid%3D%5BUSER_ID%5D");
   ("tappx", "https://ssp.api.tappx.com/cs/usersync.php?gdpr_optin={{.GDPR}}&gdpr_consent={{.GDPRConsent}}&us_privacy={{.USPrivacy}}&type=iframe&ruid=",
      "%2Fsetuid%3Fbidder%3Dtappx%26gdpr%3D{{.GDPR}}%26gdpr_consent%3D{{.GDPRConsent}}%26uid%3D%7B%7BTPPXUID%7D%7D");
   ("telaria", "https://pbs.publishers.tremorhub.com/pubsync?gdpr={{.GDPR}}&gdpr_consent={{.GDPRConsent}}&redir=",
      "%2Fsetuid%3Fbidder%3Dtelaria%26gdpr%3D{{.GDPR}}%26gdpr_consent%3D{{.GDPRConsent}}%26uid%3D%5Btvid%5D");
   ("triplelift", "https://eb2.3lift.com/getuid?gdpr={{.GDPR}}&cmp_cs={{.GDPRConsent}}&us_privacy={{.USPrivacy}}&redir=",
      "%2Fsetuid%3Fbidder%3Dtriplelift%26gdpr%3D{{.GDPR}}%26gdpr_consent%3D{{.GDPRConsent}}%26uid%3D%24UID");
   ("triplelift_native", "https://eb2.3lift.com/getuid?gdpr={{.GDPR}}&cmp_cs={{.GDPRConsent}}&us_privacy={{.USPrivacy}}&redir=",
      "%2Fsetuid%3Fbidder%3Dtriplelift_native%26gdpr%3D{{.GDPR}}%26gdpr_consent%3D{{.GDPRConsent}}%26uid%3D%24UID");
   ("trustx", "https://x.bidswitch.net/check_uuid/",
      "%2Fsetuid%3Fbidder%3Dtrustx%26gdpr%3D{{.GDPR}}%26gdpr_consent%3D{{.GDPRConsent}}%26uid%3D%24%7BBSW_UUID%7D?gdpr={{.GDPR}}&gdpr_consent={{.GDPRConsent}}&us_privacy={{.USPrivacy}}");
   ("ucfunnel", "https://sync.aralego.com/idsync?gdpr={{.GDPR}}&gdpr_consent={{.GDPRConsent}}&usprivacy={{.USPrivacy}}&redirect=",
      "%2Fsetuid%3Fbidder%3Ducfunnel%26uid%3DSspCookieUserId");
   ("unruly", "https://usermatch.targeting.unrulymedia.com/pbsync?gdpr={{.GDPR}}&consent={{.GDPRConsent}}&us_privacy={{.USPrivacy}}&rurl=",
      "%2Fsetuid%3Fbidder%3Dunruly%26gdpr%3D{{.GDPR}}%26gdpr_consent%3D{{.GDPRConsent}}%26uid%3D%24UID");
   ("valueimpression", "https://rtb.valueimpression.com/usersync?gdpr={{.GDPR}}&consent={{.GDPRConsent}}&us_privacy={{.USPrivacy}}&redirect=",
      "%2Fsetuid%3Fbidder%3Dvalueimpression%26gdpr%3D{{.GDPR}}%26gdpr_consent%3D{{.GDPRConsent}}%26uid%3D%24UID");
   ("visx", "https://t.visx.net/s2s_sync?gdpr={{.GDPR}}&gdpr_consent={{.GDPRConsent}}&us_privacy={{.USPrivacy}}&redir=",
      "%2Fsetuid%3Fbidder%3Dvisx%26gdpr%3D{{.GDPR}}%26gdpr_consent%3D{{.GDPRConsent}}%26uid%3D%24%7BUUID%7D");
   ("yieldlab", "https://ad.yieldlab.net/mr?t=2&pid=9140838&gdpr={{.GDPR}}&gdpr_consent={{.GDPRConsent}}&r=",
      "%2Fsetuid%3Fbidder%3Dyieldlab%26gdpr%3D{{.GDPR}}%26gdpr_consent%3D{{.GDPRConsent}}%26uid%3D%25%25YL_UID%25%25");
   ("yieldmo", "https://ads.yieldmo.com/pbsync?gdpr={{.GDPR}}&gdpr_consent={{.GDPRConsent}}&us_privacy={{.USPrivacy}}&redirectUri=",
      "%2Fsetuid%3Fbidder%3Dyieldmo%26gdpr%3D{{.GDPR}}%26gdpr_consent%3D{{.GDPRConsent}}%26uid%3D%24UID");
   ("yieldone", "https://y.one.impact-ad.jp/hbs_cs?gdpr={{.GDPR}}&gdpr_consent={{.GDPRConsent}}&us_privacy={{.USPrivacy}}&redirectUri=",
      "%2Fsetuid%3Fbidder%3Dyieldone%26gdpr%3D{{.GDPR}}%26gdpr_consent%3D{{.GDPRConsent}}%26uid%3D%24UID");
   ("zeroclickfraud", "https://s.0cf.io/sync?gdpr={{.GDPR}}&gdpr_consent={{.GDPRConsent}}&us_privacy={{.USPrivacy}}&r=",
      "%2Fsetuid%3Fbidder%3Dzeroclickfraud%26gdpr%3D{{.GDPR}}%26gdpr_consent%3D{{.GDPRConsent}}%26uid%3D%24%7Buid%7D");
   ("between", "https://ads.betweendigital.com/match?bidder_id=pbs&gdpr={{.GDPR}}&gdpr_consent={{.GDPRConsent}}&us_privacy={{.USPrivacy}}&callback_url=",
      "%2Fsetuid%3Fbidder%3Dbetween%26gdpr%3D0%26gdpr_consent%3D{{.GDPRConsent}}%26uid%3D%24%7BUSER_ID%7D")]%string.

(** ** [SetupViper] *)
Inductive value := VString (s : string) | VInt (z : Z) | VBool (b : bool) | VFloat (f : float64) | VStrings (l : list string).
Definition server_defaults : list (string * value) :=
  [("external_url", VString "http://localhost:8000");
   ("host", VString "");
   ("port", VInt 8000);
   ("admin_port", VInt 6060);
   ("enable_gzip", VBool false);
   ("status_response", VString "");
   ("auction_timeouts_ms.default", VInt 0);
   ("auction_timeouts_ms.max", VInt 0);
   ("cache.scheme", VString "");
   ("cache.host", VString "");
   ("cache.query", VString "");
   ("cache.expected_millis", VInt 10);
   ("cache.default_ttl_seconds.banner", VInt 0);
   ("cache.default_ttl_seconds.video", VInt 0);
   ("cache.default_ttl_seconds.native", VInt 0);
   ("cache.default_ttl_seconds.audio", VInt 0);
   ("deploy_pid_enabled", VBool false);
   ("deploy_pid_mode", VInt 436);
   ("deploy_pid_path", VString "./pids");
   ("external_cache.scheme", VString "");
   ("external_cache.host", VString "");
   ("external_cache.path", VString "");
   ("recaptcha_secret", VString "");
   ("host_cookie.domain", VString "");
   ("host_cookie.family", VString "");
   ("host_cookie.cookie_name", VString "");
   ("host_cookie.opt_out_url", VString "");
   ("host_cookie.opt_in_url", VString "");
   ("host_cookie.optout_cookie.name", VString "");
   ("host_cookie.value", VString "");
   ("host_cookie.ttl_days", VInt 90);
   ("host_cookie.max_cookie_size_bytes", VInt 0);
   ("http_client.max_connections_per_host", VInt 0);
   ("http_client.max_idle_connections", VInt 400);
   ("http_client.max_idle_connections_per_host", VInt 10);
   ("http_client.idle_connection_timeout_seconds", VInt 60);
   ("http_client_cache.max_connections_per_host", VInt 0);
   ("http_client_cache.max_idle_connections", VInt 10);
   ("http_client_cache.max_idle_connections_per_host", VInt 2);
   ("http_client_cache.idle_connection_timeout_seconds", VInt 60);
   ("metrics.disabled_metrics.account_adapter_details", VBool false);
   ("metrics.disabled_metrics.adapter_connections_metrics", VBool true);
   ("metrics.disabled_metrics.adapter_gdpr_request_blocked", VBool false);
   ("metrics.influxdb.host", VString "");
   ("metrics.influxdb.database", VString "");
   ("metrics.influxdb.username", VString "");
   ("metrics.influxdb.password", VString "");
   ("metrics.influxdb.metric_send_interval", VInt 20);
   ("metrics.prometheus.port", VInt 0);
   ("metrics.prometheus.namespace", VString "");
   ("metrics.prometheus.subsystem", VString "");
   ("metrics.prometheus.timeout_ms", VInt 10000);
   ("monitoring.opentelemetry.enabled", VBool true);
   ("monitoring.opentelemetry.sample_rate", VFloat F64.zero);
   ("monitoring.opentelemetry.endpoint", VString "otelcol-gateway.observability-system:4139");
   ("monitoring.newrelic.app_name", VString "tpe_prebid_service-dev");
   ("monitoring.newrelic.license_key", VString "ThisValueIs40CharacterNewRelicLicenseKey");
   ("monitoring.newrelic.log_level", VString "info");
   ("datacache.type", VString "dummy");
   ("datacache.filename", VString "");
   ("datacache.cache_size", VInt 0);
   ("datacache.ttl_seconds", VInt 0);
   ("category_mapping.filesystem.enabled", VBool true);
   ("category_mapping.filesystem.directorypath", VString "./static/category-mapping");
   ("category_mapping.http.endpoint", VString "");
   ("stored_requests.filesystem.enabled", VBool false);
   ("stored_requests.filesystem.directorypath", VString "./stored_requests/data/by_id");
   ("stored_requests.directorypath", VString "./stored_requests/data/by_id");
   ("stored_requests.postgres.connection.dbname", VString "");
   ("stored_requests.postgres.connection.host", VString "");
   ("stored_requests.postgres.connection.port", VInt 0);
   ("stored_requests.postgres.connection.user", VString "");
   ("stored_requests.postgres.connection.password", VString "");
   ("stored_requests.postgres.fetcher.query", VString "");
   ("stored_requests.postgres.fetcher.amp_query", VString "");
   ("stored_requests.postgres.initialize_caches.timeout_ms", VInt 0);
   ("stored_requests.postgres.initialize_caches.query", VString "");
   ("stored_requests.postgres.initialize_caches.amp_query", VString "");
   ("stored_requests.postgres.poll_for_updates.refresh_rate_seconds", VInt 0);
   ("stored_requests.postgres.poll_for_updates.timeout_ms", VInt 0);
   ("stored_requests.postgres.poll_for_updates.query", VString "");
   ("stored_requests.postgres.poll_for_updates.amp_query", VString "");
   ("stored_requests.http.endpoint", VString "");
   ("stored_requests.http.amp_endpoint", VString "");
   ("stored_requests.in_memory_cache.type", VString "none");
   ("stored_requests.in_memory_cache.ttl_seconds", VInt 0);
   ("stored_requests.in_memory_cache.request_cache_size_bytes", VInt 0);
   ("stored_requests.in_memory_cache.imp_cache_size_bytes", VInt 0);
   ("stored_requests.cache_events_api", VBool false);
   ("stored_requests.http_events.endpoint", VString "");
   ("stored_requests.http_events.amp_endpoint", VString "");
   ("stored_requests.http_events.refresh_rate_seconds", VInt 0);
   ("stored_requests.http_events.timeout_ms", VInt 0);
   ("stored_video_req.filesystem.enabled", VBool false);
   ("stored_video_req.filesystem.directorypath", VString "");
   ("stored_video_req.postgres.connection.dbname", VString "");
   ("stored_video_req.postgres.connection.host", VString "");
   ("stored_video_req.postgres.connection.port", VInt 0);
   ("stored_video_req.postgres.connection.user", VString "");
   ("stored_video_req.postgres.connection.password", VString "");
   ("stored_video_req.postgres.fetcher.query", VString "");
   ("stored_video_req.postgres.initialize_caches.timeout_ms", VInt 0);
   ("stored_video_req.postgres.initialize_caches.query", VString "");
   ("stored_video_req.postgres.poll_for_updates.refresh_rate_seconds", VInt 0);
   ("stored_video_req.postgres.poll_for_updates.timeout_ms", VInt 0);
   ("stored_video_req.postgres.poll_for_updates.query", VString "");
   ("stored_video_req.http.endpoint", VString "");
   ("stored_video_req.in_memory_cache.type", VString "none");
   ("stored_video_req.in_memory_cache.ttl_seconds", VInt 0);
   ("stored_video_req.in_memory_cache.request_cache_size_bytes", VInt 0);
   ("stored_video_req.in_memory_cache.imp_cache_size_bytes", VInt 0);
   ("stored_video_req.cache_events.enabled", VBool false);
   ("stored_video_req.cache_events.endpoint", VString "");
   ("stored_video_req.http_events.endpoint", VString "");
   ("stored_video_req.http_events.refresh_rate_seconds", VInt 0);
   ("stored_video_req.http_events.timeout_ms", VInt 0);
   ("vtrack.timeout_ms", VInt 2000);
   ("vtrack.allow_unknown_bidder", VBool true);
   ("vtrack.enabled", VBool true);
   ("event.timeout_ms", VInt 1000);
   ("accounts.filesystem.enabled", VBool false);
   ("accounts.filesystem.directorypath", VString "./stored_requests/data/by_id");
   ("accounts.in_memory_cache.type", VString "none")]%string.
Definition setBidderDefaults (bidder : string) : list (string * value) :=
  (fun '(key, v) => ("adapters." ⧺ bidder ⧺ key, v)) <$>
  [(".endpoint", VString "");
   (".usersync_url", VString "");
   (".platform_id", VString "");
   (".app_secret", VString "");
   (".xapi.username", VString "");
   (".xapi.password", VString "");
   (".xapi.tracker", VString "");
   (".xapi.endpoint_us_east", VString "");
   (".xapi.endpoint_us_west", VString "");
   (".xapi.endpoint_eu", VString "");
   (".xapi.endpoint_apac", VString "");
   (".xapi.endpoint_jp", VString "");
   (".xapi.endpoint_sg", VString "");
   (".disabled", VBool false);
   (".partner_id", VString "");
   (".extra_info", VString "")]%string.
Definition bidder_defaults : list (string * value) := concat (setBidderDefaults <$> (to_lower <$> CoreBidderNames)).
Definition adapter_defaults : list (string * value) :=
  [("adapters.33across.endpoint", VString "https://ssc.33across.com/api/v1/s2s");
   ("adapters.33across.partner_id", VString "");
   ("adapters.acuityads.endpoint", VString "http://{{.Host}}.admanmedia.com/bid?token={{.AccountID}}");
   ("adapters.adf.endpoint", VString "https://adx.adform.net/adx/openrtb");
   ("adapters.adform.endpoint", VString "https://adx.adform.net/adx");
   ("adapters.adgeneration.endpoint", VString "https://d.socdm.com/adsv/v1");
   ("adapters.adhese.endpoint", VString "https://ads-{{.AccountID}}.adhese.com/json");
   ("adapters.adkernel.endpoint", VString "http://{{.Host}}/hb?zone={{.ZoneID}}");
   ("adapters.adkerneladn.endpoint", VString "http://{{.Host}}/rtbpub?account={{.PublisherID}}");
   ("adapters.adman.endpoint", VString "http://pub.admanmedia.com/?c=o&m=ortb");
   ("adapters.admixer.endpoint", VString "http://inv-nets.admixer.net/pbs.aspx");
   ("adapters.adocean.endpoint", VString "https://{{.Host}}");
   ("adapters.adoppler.endpoint", VString "http://{{.AccountID}}.trustedmarketplace.io/ads/processHeaderBid/{{.AdUnit}}");
   ("adapters.adot.endpoint", VString "https://dsp.adotmob.com/headerbidding/bidrequest");
   ("adapters.adpone.endpoint", VString "http://rtb.adpone.com/bid-request?src=prebid_server");
   ("adapters.adprime.endpoint", VString "http://delta.adprime.com/?c=o&m=ortb");
   ("adapters.adtarget.endpoint", VString "http://ghb.console.adtarget.com.tr/pbs/ortb");
   ("adapters.adtelligent.endpoint", VString "http://ghb.adtelligent.com/pbs/ortb");
   ("adapters.advangelists.endpoint", VString "http://nep.advangelists.com/xp/get?pubid={{.PublisherID}}");
   ("adapters.adxcg.disabled", VBool true);
   ("adapters.adyoulike.endpoint", VString "https://broker.omnitagjs.com/broker/bid?partnerId=19340f4f097d16f41f34fc0274981ca4");
   ("adapters.aja.endpoint", VString "https://ad.as.amanad.adtdp.com/v1/bid/4");
   ("adapters.algorix.endpoint", VString "https://xyz.svr-algorix.com/rtb/sa?sid={{.SourceId}}&token={{.AccountID}}");
   ("adapters.amx.endpoint", VString "http://pbs.amxrtb.com/auction/openrtb");
   ("adapters.applogy.endpoint", VString "http://rtb.applogy.com/v1/prebid");
   ("adapters.appnexus.endpoint", VString "http://ib.adnxs.com/openrtb2");
   ("adapters.appnexus.platform_id", VString "5");
   ("adapters.audiencenetwork.disabled", VBool true);
   ("adapters.audiencenetwork.endpoint", VString "https://an.facebook.com/placementbid.ortb");
   ("adapters.avocet.disabled", VBool true);
   ("adapters.beachfront.endpoint", VString "https://display.bfmio.com/prebid_display");
   ("adapters.beachfront.extra_info", VString ("{" ⧺ GoStr.dq ⧺ "video_endpoint" ⧺ GoStr.dq ⧺ ":" ⧺ GoStr.dq ⧺ "https://reachms.bfmio.com/bid.json?exchange_id" ⧺ GoStr.dq ⧺ "}"));
   ("adapters.beintoo.endpoint", VString "https://ib.beintoo.com/um");
   ("adapters.between.endpoint", VString "http://{{.Host}}.betweendigital.com/openrtb_bid?sspId={{.PublisherID}}");
   ("adapters.bidmachine.endpoint", VString "https://{{.Host}}.bidmachine.io");
   ("adapters.bidscube.endpoint", VString "http://supply.bidscube.com/?c=o&m=rtb");
   ("adapters.bmtm.endpoint", VString "https://one.elitebidder.com/api/pbs");
   ("adapters.brightroll.endpoint", VString "http://east-bid.ybp.yahoo.com/bid/appnexuspbs");
   ("adapters.colossus.endpoint", VString "http://colossusssp.com/?c=o&m=rtb");
   ("adapters.connectad.endpoint", VString "http://bidder.connectad.io/API?src=pbs");
   ("adapters.consumable.endpoint", VString "https://e.serverbid.com/api/v2");
   ("adapters.conversant.endpoint", VString "http://api.hb.ad.cpe.dotomi.com/cvx/server/hb/ortb/25");
   ("adapters.cpmstar.endpoint", VString "https://server.cpmstar.com/openrtbbidrq.aspx");
   ("adapters.criteo.endpoint", VString "https://bidder.criteo.com/cdb?profileId=230");
   ("adapters.crossinstall.disabled", VBool true);
   ("adapters.crossinstall.endpoint", VString "https://tapjoy-east.crossinstallbidder00.com/bid_request/tapjoy");
   ("adapters.datablocks.endpoint", VString "http://{{.Host}}/openrtb2?sid={{.SourceId}}");
   ("adapters.decenterads.endpoint", VString "http://supply.decenterads.com/?c=o&m=rtb");
   ("adapters.deepintent.endpoint", VString "https://prebid.deepintent.com/prebid");
   ("adapters.dmx.endpoint", VString "https://dmx-direct.districtm.io/b/v2");
   ("adapters.dv360.disabled", VBool true);
   ("adapters.dv360.endpoint", VString "https://bid.g.doubleclick.net/xbbe/bid/tapjoy");
   ("adapters.emx_digital.endpoint", VString "https://hb.emxdgt.com");
   ("adapters.engagebdr.endpoint", VString "http://dsp.bnmla.com/hb");
   ("adapters.eplanning.endpoint", VString "http://rtb.e-planning.net/pbs/1");
   ("adapters.epom.endpoint", VString "https://an.epom.com/ortb");
   ("adapters.epom.disabled", VBool true);
   ("adapters.e_volution.endpoint", VString "http://service.e-volution.ai/pbserver");
   ("adapters.gamma.endpoint", VString "https://hb.gammaplatform.com/adx/request/");
   ("adapters.gamoshi.endpoint", VString "https://rtb.gamoshi.io");
   ("adapters.grid.endpoint", VString "https://grid.bidswitch.net/sp_bid?sp=prebid");
   ("adapters.gumgum.endpoint", VString "https://g2.gumgum.com/providers/prbds2s/bid");
   ("adapters.improvedigital.endpoint", VString "http://ad.360yield.com/pbs");
   ("adapters.inmobi.endpoint", VString "https://api.w.inmobi.com/showad/openrtb/bidder/prebid");
   ("adapters.interactiveoffers.endpoint", VString "https://rtb.ioadx.com/bidRequest/?partnerId=d9e56d418c4825d466ee96c7a31bf1da6b62fa04");
   ("adapters.ix.disabled", VBool true);
   ("adapters.jixie.endpoint", VString "https://hb.jixie.io/v2/hbsvrpost");
   ("adapters.kayzen.endpoint", VString "https://bids-{{.ZoneID}}.bidder.kayzen.io/?exchange={{.AccountID}}");
   ("adapters.krushmedia.endpoint", VString "http://ads4.krushmedia.com/?c=rtb&m=req&key={{.AccountID}}");
   ("adapters.invibes.endpoint", VString "https://{{.Host}}/bid/ServerBidAdContent");
   ("adapters.kidoz.endpoint", VString "http://prebid-adapter.kidoz.net/openrtb2/auction?src=prebid-server");
   ("adapters.kubient.endpoint", VString "https://kssp.kbntx.ch/prebid");
   ("adapters.liftoff.disabled", VBool true);
   ("adapters.liftoff.endpoint", VString "https://tapjoy-rtb.liftoff.io/tapjoy/bid");
   ("adapters.lockerdome.endpoint", VString "https://lockerdome.com/ladbid/prebidserver/openrtb2");
   ("adapters.logicad.endpoint", VString "https://pbs.ladsp.com/adrequest/prebidserver");
   ("adapters.lunamedia.endpoint", VString "http://api.lunamedia.io/xp/get?pubid={{.PublisherID}}");
   ("adapters.madvertise.endpoint", VString "https://mobile.mng-ads.com/bidrequest{{.ZoneID}}");
   ("adapters.marsmedia.endpoint", VString "https://bid306.rtbsrv.com/bidder/?bid=f3xtet");
   ("adapters.mediafuse.endpoint", VString "http://ghb.hbmp.mediafuse.com/pbs/ortb");
   ("adapters.mgid.endpoint", VString "https://prebid.mgid.com/prebid/");
   ("adapters.mobilefuse.endpoint", VString "http://mfx.mobilefuse.com/openrtb?pub_id={{.PublisherID}}");
   ("adapters.mobfoxpb.endpoint", VString "http://bes.mobfox.com/?c=__route__&m=__method__&key=__key__");
   ("adapters.moloco.disabled", VBool true);
   ("adapters.moloco.endpoint", VString "https://bidfnt-us.adsmoloco.com/tapjoy");
   ("adapters.molococloud.disabled", VBool true);
   ("adapters.molococloud.endpoint", VString "https://bidfnt-us.adsmoloco.com/private_tapjoy");
   ("adapters.nanointeractive.endpoint", VString "https://ad.audiencemanager.de/hbs");
   ("adapters.ninthdecimal.endpoint", VString "http://rtb.ninthdecimal.com/xp/get?pubid={{.PublisherID}}");
   ("adapters.nobid.endpoint", VString "https://ads.servenobid.com/ortb_adreq?tek=pbs&ver=1");
   ("adapters.onetag.endpoint", VString "https://prebid-server.onetag-sys.com/prebid-server/{{.PublisherID}}");
   ("adapters.openx.endpoint", VString "http://rtb.openx.net/prebid");
   ("adapters.orbidder.endpoint", VString "https://orbidder.otto.de/openrtb2");
   ("adapters.outbrain.endpoint", VString "https://prebidtest.zemanta.com/api/bidder/prebidtest/bid/");
   ("adapters.pangle.disabled", VBool true);
   ("adapters.pangle.endpoint", VString "https://pangle.io/api/get_ads");
   ("adapters.pubmatic.disabled", VBool true);
   ("adapters.pubmatic.endpoint", VString "https://hbopenbid.pubmatic.com/translator?source=prebid-server");
   ("adapters.pubnative.endpoint", VString "http://dsp.pubnative.net/bid/v1/request");
   ("adapters.pulsepoint.endpoint", VString "http://bid.contextweb.com/header/s/ortb/prebid-s2s");
   ("adapters.revcontent.disabled", VBool true);
   ("adapters.revcontent.endpoint", VString "https://trends.revcontent.com/rtb");
   ("adapters.rhythmone.endpoint", VString "http://tag.1rx.io/rmp");
   ("adapters.rtbhouse.endpoint", VString "http://prebidserver-s2s-ams.creativecdn.com/bidder/prebidserver/bids");
   ("adapters.rubicon.disabled", VBool true);
   ("adapters.rubicon.endpoint", VString "http://exapi-us-east.rubiconproject.com/a/api/exchange.json");
   ("adapters.rubiconmraid.disabled", VBool true);
   ("adapters.rubiconmraid.endpoint", VString "http://exapi-us-east.rubiconproject.com/a/api/exchange.json");
   ("adapters.sharethrough.endpoint", VString "http://btlr.sharethrough.com/FGMrCMMc/v1");
   ("adapters.silvermob.endpoint", VString "http://{{.Host}}.silvermob.com/marketplace/api/dsp/bid/{{.ZoneID}}");
   ("adapters.smaato.endpoint", VString "https://prebid.ad.smaato.net/oapi/prebid");
   ("adapters.smartadserver.endpoint", VString "https://ssb-global.smartadserver.com");
   ("adapters.smartrtb.endpoint", VString "http://market-east.smrtb.com/json/publisher/rtb?pubid={{.PublisherID}}");
   ("adapters.smartyads.endpoint", VString "http://{{.Host}}.smartyads.com/bid?rtb_seat_id={{.SourceId}}&secret_key={{.AccountID}}");
   ("adapters.smilewanted.endpoint", VString "http://prebid-server.smilewanted.com");
   ("adapters.somoaudience.endpoint", VString "http://publisher-east.mobileadtrading.com/rtb/bid");
   ("adapters.sonobi.endpoint", VString "https://apex.go.sonobi.com/prebid?partnerid=71d9d3d8af");
   ("adapters.sovrn.endpoint", VString "http://ap.lijit.com/rtb/bid?src=prebid_server");
   ("adapters.synacormedia.endpoint", VString "http://{{.Host}}.technoratimedia.com/openrtb/bids/{{.Host}}");
   ("adapters.tappx.endpoint", VString "http://{{.Host}}");
   ("adapters.taurusx.disabled", VBool true);
   ("adapters.taurusx.endpoint", VString "https://tapjoy.rtb.rtblab.net/tapjoy/bid");
   ("adapters.telaria.endpoint", VString "https://ads.tremorhub.com/ad/rtb/prebid");
   ("adapters.triplelift_native.disabled", VBool true);
   ("adapters.triplelift_native.extra_info", VString ("{" ⧺ GoStr.dq ⧺ "publisher_whitelist" ⧺ GoStr.dq ⧺ ":[]}"));
   ("adapters.triplelift.endpoint", VString "https://tlx.3lift.com/s2s/auction?sra=1&supplier_id=20");
   ("adapters.trustx.endpoint", VString "https://grid.bidswitch.net/sp_bid?sp=trustx");
   ("adapters.ucfunnel.endpoint", VString "https://pbs.aralego.com/prebid");
   ("adapters.unicorn.disabled", VBool true);
   ("adapters.unicorn.endpoint", VString "https://ds-staging.uncn.jp/tj/0/bid.json");
   ("adapters.unruly.endpoint", VString "http://targeting.unrulymedia.com/openrtb/2.2");
   ("adapters.valueimpression.endpoint", VString "https://rtb.valueimpression.com/endpoint");
   ("adapters.verizonmedia.disabled", VBool true);
   ("adapters.viewdeos.endpoint", VString "http://ghb.sync.viewdeos.com/pbs/ortb");
   ("adapters.visx.endpoint", VString "https://t.visx.net/s2s_bid?wrapperType=s2s_prebid_standard");
   ("adapters.vrtcal.endpoint", VString "http://rtb.vrtcal.com/bidder_prebid.vap?ssp=1804");
   ("adapters.yeahmobi.endpoint", VString "https://{{.Host}}/prebid/bid");
   ("adapters.yieldlab.endpoint", VString "https://ad.yieldlab.net/yp/");
   ("adapters.yieldmo.endpoint", VString "https://ads.yieldmo.com/exchange/prebid-server");
   ("adapters.yieldone.endpoint", VString "https://y.one.impact-ad.jp/hbs_imp");
   ("adapters.zeroclickfraud.endpoint", VString "http://{{.Host}}/openrtb2?sid={{.SourceId}}")]%string.
Definition other_defaults : list (string * value) :=
  [("max_request_size", VInt (1024 * 256));
   ("analytics.file.filename", VString "");
   ("analytics.pubstack.endpoint", VString "https://s2s.pbstck.com/v1");
   ("analytics.pubstack.scopeid", VString "change-me");
   ("analytics.pubstack.enabled", VBool false);
   ("analytics.pubstack.configuration_refresh_delay", VString "2h");
   ("analytics.pubstack.buffers.size", VString "2MB");
   ("analytics.pubstack.buffers.count", VInt 100);
   ("analytics.pubstack.buffers.timeout", VString "900s");
   ("amp_timeout_adjustment_ms", VInt 0);
   ("gdpr.default_value", VInt 0);
   ("gdpr.enabled", VBool true);
   ("gdpr.host_vendor_id", VInt 0);
   ("gdpr.timeouts_ms.init_vendorlist_fetches", VInt 0);
   ("gdpr.timeouts_ms.active_vendorlist_fetch", VInt 0);
   ("gdpr.non_standard_publishers", VStrings [""]);
   ("gdpr.tcf2.enabled", VBool false);
   ("gdpr.tcf2.purpose1.enabled", VBool true);
   ("gdpr.tcf2.purpose2.enabled", VBool true);
   ("gdpr.tcf2.purpose4.enabled", VBool true);
   ("gdpr.tcf2.purpose7.enabled", VBool true);
   ("gdpr.tcf2.special_purpose1.enabled", VBool true);
   ("gdpr.amp_exception", VBool false);
   ("gdpr.eea_countries", VStrings ["ALA"; "AUT"; "BEL"; "BGR"; "HRV"; "CYP"; "CZE"; "DNK"; "EST"; "FIN"; "FRA"; "GUF"; "DEU"; "GIB"; "GRC"; "GLP"; "GGY"; "HUN"; "ISL"; "IRL"; "IMN"; "ITA"; "JEY"; "LVA"; "LIE"; "LTU"; "LUX"; "MLT"; "MTQ"; "MYT"; "NLD"; "NOR"; "POL"; "PRT"; "REU"; "ROU"; "BLM"; "MAF"; "SPM"; "SVK"; "SVN"; "ESP"; "SWE"; "GBR"]);
   ("ccpa.enforce", VBool false);
   ("lmt.enforce", VBool true);
   ("currency_converter.fetch_url", VString "https://cdn.jsdelivr.net/gh/prebid/currency-file@1/latest.json");
   ("currency_converter.fetch_interval_seconds", VInt 1800);
   ("currency_converter.stale_rates_seconds", VInt 0);
   ("default_request.type", VString "");
   ("default_request.file.name", VString "");
   ("default_request.alias_info", VBool false);
   ("blacklisted_apps", VStrings [""]);
   ("blacklisted_accts", VStrings [""]);
   ("account_required", VBool false);
   ("account_defaults.disabled", VBool false);
   ("account_defaults.debug_allow", VBool true);
   ("certificates_file", VString "");
   ("auto_gen_source_tid", VBool true);
   ("generate_bid_id", VBool false);
   ("request_timeout_headers.request_time_in_queue", VString "");
   ("request_timeout_headers.request_timeout_in_queue", VString "");
   ("debug.timeout_notification.log", VBool false);
   ("debug.timeout_notification.sampling_rate", VFloat F64.zero);
   ("debug.timeout_notification.fail_only", VBool false);
   ("debug.override_token", VString "");
   ("request_validation.ipv4_private_networks", VStrings ["10.0.0.0/8"; "172.16.0.0/12"; "192.168.0.0/16"; "169.254.0.0/16"; "127.0.0.0/8"]);
   ("request_validation.ipv6_private_networks", VStrings ["::1/128"; "fc00::/7"; "fe80::/10"; "ff00::/8"; "2001:db8::/32"]);
   ("gdpr.tcf2.purpose_one_treatment.enabled", VBool true);
   ("gdpr.tcf2.purpose_one_treatment.access_allowed", VBool true)]%string.
(** A later value of a key replaces an earlier one; keys are without case. *)
Definition SetupViper : gmap string value :=
  fold_left (fun m '(key, v) => <[to_lower key := v]> m) (server_defaults ++ bidder_defaults ++ adapter_defaults ++ other_defaults) ∅.
