(* ===== verification/ServerConfig.v ===== *)
(** * The server's configuration

    [config/config.go], [config/stored_requests.go] and [config/adapter.go]:
    what is derived from the settings, and which settings are refused.  The
    records have the settings that this code reads.  Reading them through viper
    is not modelled: [New] starts from what viper made of them.  URL templates
    are the class [TextTemplate]; [IsURL] and [IsRequestURL] of the govalidator
    library are parameters, and so is the order in which the map of adapters is
    visited. *)

From S2P Require Import Prelude Url Float64 ErrorTypes IpNet Json OpenRTB Bidders InfoBidder UserSync Auction Accounts AccountAccess AuctionEndpoint Templates ServerDefaults Gdpr BidderRequests Exchange.

(** ** Settings *)
Definition contains (s p : string) : bool := bool_decide (is_Some (index_text p s)).
Definition contains_any (s chars : string) : bool := negb (all_bytes (fun a => negb (one_of chars a)) s).
(** [if bad { errs = append(errs, ...) }]. *)
Definition refuse_if (bad : bool) (msg : string) (errs : list error) : list error := if bad then errs ++ [EPlain msg] else errs.

Definition timeouts_validate (cfg : AuctionTimeouts) (errs : list error) : list error :=
  refuse_if (at_Max cfg <? at_Default cfg)%Z
    ("auction_timeouts_ms.max cannot be less than auction_timeouts_ms.default. max=" ⧺ GoStr.itoa (at_Max cfg) ⧺ ", default=" ⧺
     GoStr.itoa (at_Default cfg)) errs.

(** The address of the cache as it is seen from outside. *)
Record ExternalCache := mkExternalCache { xc_Scheme : string; xc_Host : string; xc_Path : string }.
Definition external_cache_error (data : ExternalCache) : option string :=
  let host := xc_Host data in
  let path := xc_Path data in
  let scheme := xc_Scheme data in
  if GoStr.is_empty host && GoStr.is_empty path then None
  else if negb (GoStr.is_empty scheme) && negb (GoStr.eqb scheme "http") && negb (GoStr.eqb scheme "https") then
    Some "External cache Scheme must be http or https if specified"%string
  else if (GoStr.is_empty host && negb (GoStr.is_empty path)) || (negb (GoStr.is_empty host) && GoStr.is_empty path) then
    Some "External cache Host and Path must both be specified"%string
  else if GoStr.has_suffix host "/" then Some ("External cache Host '" ⧺ host ⧺ "' must not end with a path separator")
  else if contains_any host "://" then Some ("External cache Host must not specify a protocol. '" ⧺ host ⧺ "'")
  else if negb (GoStr.has_prefix "/" path) then Some ("External cache Path '" ⧺ path ⧺ "' must begin with a path separator")
  else match Url.Parse ("https://" ⧺ host ⧺ path) with
       | None => Some "External cache Path validation error"%string
       | Some (urlHost, urlPath) =>
           if negb (GoStr.eqb urlHost host) then Some ("External cache Host '" ⧺ host ⧺ "' is invalid")
           else if negb (GoStr.eqb urlPath path) then Some "External cache Path is invalid"%string
           else None
       end.
Definition external_cache_validate (data : ExternalCache) (errs : list error) : list error :=
  match external_cache_error data with Some msg => errs ++ [EPlain msg] | None => errs end.

(** The cache as the server calls it. *)
Record Cache := mkCache { ca_Scheme : string; ca_Host : string; ca_Query : string; ca_ExpectedTimeMillis : Z; ca_DefaultTTLs : DefaultTTLs }.
Definition GetBaseURL (cfg : Cache) : string :=
  let scheme := to_lower (ca_Scheme cfg) in
  if contains scheme "https" then "https://" ⧺ ca_Host cfg
  else if contains scheme "http" then "http://" ⧺ ca_Host cfg
  else "//" ⧺ ca_Host cfg.
Definition GetCachedAssetURL (cfg : Cache) (uuid : string) : string :=
  GetBaseURL cfg ⧺ "/cache?" ⧺
  match index_text "%PBS_CACHE_UUID%" (ca_Query cfg) with
  | Some i => GoStr.take i (ca_Query cfg) ⧺ uuid ⧺ GoStr.drop (i + 16) (ca_Query cfg)
  | None => ca_Query cfg
  end.

Record GDPR := mkGDPR {
  g_Enabled : bool; g_HostVendorID : Z; g_DefaultValue : string;
  g_NonStandardPublishers : list string; g_NonStandardPublisherMap : gset string; g_AMPException : bool;
  g_EEACountries : list string; g_EEACountriesMap : gset string }.
Definition gdpr_validate (IsSet : string -> bool) (cfg : GDPR) (errs : list error) : list error :=
  let errs :=
    if negb (IsSet "gdpr.default_value"%string) then errs ++ [EPlain "gdpr.default_value is required and must be specified"]
    else refuse_if (negb (GoStr.eqb (g_DefaultValue cfg) "0") && negb (GoStr.eqb (g_DefaultValue cfg) "1"))
           "gdpr.default_value must be 0 or 1" errs in
  let errs := refuse_if ((g_HostVendorID cfg <? 0) || (65535 <? g_HostVendorID cfg))%Z
    ("gdpr.host_vendor_id must be in the range [0, 65535]. Got " ⧺ GoStr.itoa (g_HostVendorID cfg)) errs in
  refuse_if (g_AMPException cfg)
    "gdpr.amp_exception has been discontinued and must be removed from your config. If you need to disable GDPR for AMP, you may do so per-account (gdpr.integration_enabled.amp) or at the host level for the default account (account_defaults.gdpr.integration_enabled.amp)" errs.

Record CurrencyConverter := mkCurrencyConverter { cc_FetchURL : string; cc_FetchIntervalSeconds : Z; cc_StaleRatesSeconds : Z }.
Definition currency_validate (cfg : CurrencyConverter) (errs : list error) : list error :=
  refuse_if (cc_FetchIntervalSeconds cfg <? 0)%Z
    ("currency_converter.fetch_interval_seconds must be in the range [0, 65535]. Got " ⧺ GoStr.itoa (cc_FetchIntervalSeconds cfg)) errs.

Record PrometheusMetrics := mkPrometheus { pm_Port : Z; pm_TimeoutMillisRaw : Z }.
Definition prometheus_validate (cfg : PrometheusMetrics) (errs : list error) : list error :=
  refuse_if ((0 <? pm_Port cfg) && (pm_TimeoutMillisRaw cfg <=? 0))%Z
    ("metrics.prometheus.timeout_ms must be positive if metrics.prometheus.port is defined. Got timeout=" ⧺
     GoStr.itoa (pm_TimeoutMillisRaw cfg) ⧺ " and port=" ⧺ GoStr.itoa (pm_Port cfg)) errs.

(** A [float32] is the [float64] of the same value. *)
Definition sampling_validate (SamplingRate : float64) (errs : list error) : list error :=
  refuse_if (F64.ltb SamplingRate F64.zero || F64.ltb (F64.of_Z 1) SamplingRate)
    ("debug.timeout_notification.sampling_rate must be positive and not greater than 1.0. Got " ⧺ F64.format_f SamplingRate 6) errs.

Definition MIN_COOKIE_SIZE_BYTES : Z := 500.
Definition isValidCookieSize (maxCookieSize : Z) : bool :=
  negb (negb (maxCookieSize =? 0)%Z && (maxCookieSize <? MIN_COOKIE_SIZE_BYTES)%Z).

(** ** Stored requests *)
Inductive DataType := NoDataType | RequestDataType | CategoryDataType | VideoDataType | AMPRequestDataType | AccountDataType.
#[export] Instance data_type_eq_dec : EqDecision DataType.
Proof. solve_decision. Defined.
Definition Section_ (dataType : DataType) : string :=
  match dataType with
  | RequestDataType => "stored_requests"
  | CategoryDataType => "categories"
  | VideoDataType => "stored_video_req"
  | AMPRequestDataType => "stored_amp_req"
  | AccountDataType => "accounts"
  | NoDataType => ""
  end.
Record FileFetcherConfig := mkFileFetcher { ff_Enabled : bool; ff_Path : string }.
Record HTTPFetcherConfig := mkHTTPFetcher { hf_Endpoint : string; hf_AmpEndpoint : string }.
Record CacheEventsConfig := mkCacheEvents { ce_Enabled : bool; ce_Endpoint : string }.
Record HTTPEventsConfig := mkHTTPEvents { he_Endpoint : string; he_RefreshRate : Z; he_Timeout : Z; he_AmpEndpoint : string }.
Record InMemoryCache := mkInMemoryCache { im_Type : string; im_TTL : Z; im_Size : Z; im_RequestCacheSize : Z; im_ImpCacheSize : Z }.
Record PostgresConnection := mkConnection { po_Database : string; po_Host : string; po_Port : Z; po_Username : string; po_Password : string }.
Record PostgresFetcherQueries := mkFetcherQueries { fq_QueryTemplate : string; fq_AmpQueryTemplate : string }.
Record PostgresCacheInitializer := mkInitializer { pi_Timeout : Z; pi_Query : string; pi_AmpQuery : string }.
Record PostgresUpdatePolling := mkPolling { pp_RefreshRate : Z; pp_Timeout : Z; pp_Query : string; pp_AmpQuery : string }.
Record PostgresConfig := mkPostgres {
  pg_ConnectionInfo : PostgresConnection; pg_FetcherQueries : PostgresFetcherQueries;
  pg_CacheInitialization : PostgresCacheInitializer; pg_PollUpdates : PostgresUpdatePolling }.
Record StoredRequests := mkStoredRequests {
  sr_dataType : DataType; sr_Files : FileFetcherConfig; sr_Postgres : PostgresConfig; sr_HTTP : HTTPFetcherConfig;
  sr_InMemoryCache : InMemoryCache; sr_CacheEvents : CacheEventsConfig; sr_HTTPEvents : HTTPEventsConfig }.

Definition initializer_validate (dataType : DataType) (cfg : PostgresCacheInitializer) (errs : list error) : list error :=
  let section := Section_ dataType in
  if GoStr.is_empty (pi_Query cfg) then errs
  else
    let errs := refuse_if (pi_Timeout cfg <=? 0)%Z (section ⧺ ": postgres.initialize_caches.timeout_ms must be positive") errs in
    refuse_if (contains (pi_Query cfg) "$")
      (section ⧺ ": postgres.initialize_caches.query should not contain any wildcards (e.g. $1)") errs.
Definition polling_validate (dataType : DataType) (cfg : PostgresUpdatePolling) (errs : list error) : list error :=
  let section := Section_ dataType in
  if GoStr.is_empty (pp_Query cfg) then errs
  else
    let errs := refuse_if (pp_RefreshRate cfg <=? 0)%Z (section ⧺ ": postgres.poll_for_updates.refresh_rate_seconds must be > 0") errs in
    let errs := refuse_if (pp_Timeout cfg <=? 0)%Z (section ⧺ ": postgres.poll_for_updates.timeout_ms must be > 0") errs in
    refuse_if (negb (contains (pp_Query cfg) "$1") || contains (pp_Query cfg) "$2")
      (section ⧺ ": postgres.poll_for_updates.query must contain exactly one wildcard") errs.
Definition postgres_validate (dataType : DataType) (cfg : PostgresConfig) (errs : list error) : list error :=
  if GoStr.is_empty (po_Database (pg_ConnectionInfo cfg)) then errs
  else polling_validate dataType (pg_PollUpdates cfg) (initializer_validate dataType (pg_CacheInitialization cfg) errs).
Definition memory_validate (dataType : DataType) (cfg : InMemoryCache) (errs : list error) : list error :=
  let section := Section_ dataType in
  let unsupported name z := section ⧺ ": in_memory_cache." ⧺ name ⧺ " is not supported for unbounded caches. Got " ⧺ GoStr.itoa z in
  let too_small name z := section ⧺ ": in_memory_cache." ⧺ name ⧺ " must be >= 0 when in_memory_cache.type=lru. Got " ⧺ GoStr.itoa z in
  if GoStr.eqb (im_Type cfg) "none" then errs
  else if GoStr.eqb (im_Type cfg) "unbounded" then
    let errs := refuse_if (negb (im_TTL cfg =? 0)%Z) (unsupported "ttl_seconds"%string (im_TTL cfg)) errs in
    if bool_decide (dataType = AccountDataType) then
      refuse_if (negb (im_Size cfg =? 0)%Z) (unsupported "size_bytes"%string (im_Size cfg)) errs
    else
      let errs := refuse_if (negb (im_RequestCacheSize cfg =? 0)%Z)
        (unsupported "request_cache_size_bytes"%string (im_RequestCacheSize cfg)) errs in
      refuse_if (negb (im_ImpCacheSize cfg =? 0)%Z) (unsupported "imp_cache_size_bytes"%string (im_ImpCacheSize cfg)) errs
  else if GoStr.eqb (im_Type cfg) "lru" then
    if bool_decide (dataType = AccountDataType) then
      refuse_if (im_Size cfg <=? 0)%Z (too_small "size_bytes"%string (im_Size cfg)) errs
    else
      let errs := refuse_if (im_RequestCacheSize cfg <=? 0)%Z (too_small "request_cache_size_bytes"%string (im_RequestCacheSize cfg)) errs in
      refuse_if (im_ImpCacheSize cfg <=? 0)%Z (too_small "imp_cache_size_bytes"%string (im_ImpCacheSize cfg)) errs
  else errs ++ [EPlain (section ⧺ ": in_memory_cache.type " ⧺ im_Type cfg ⧺ " is invalid")].
Definition stored_validate (cfg : StoredRequests) (errs : list error) : list error :=
  let section := Section_ (sr_dataType cfg) in
  let postgres := sr_Postgres cfg in
  let errs :=
    if bool_decide (sr_dataType cfg = AccountDataType) && negb (GoStr.is_empty (po_Database (pg_ConnectionInfo postgres))) then
      errs ++ [EPlain (section ⧺ ".postgres: retrieving accounts via postgres not available, use accounts.files")]
    else postgres_validate (sr_dataType cfg) postgres errs in
  if bool_decide (sr_dataType cfg = CategoryDataType) then errs
  else
    let errs :=
      if GoStr.eqb (im_Type (sr_InMemoryCache cfg)) "none" then
        let errs := refuse_if (ce_Enabled (sr_CacheEvents cfg)) (section ⧺ ": cache_events must be disabled if in_memory_cache=none") errs in
        let errs := refuse_if (negb (he_RefreshRate (sr_HTTPEvents cfg) =? 0)%Z)
          (section ⧺ ": http_events.refresh_rate_seconds must be 0 if in_memory_cache=none") errs in
        let errs := refuse_if (negb (GoStr.is_empty (pp_Query (pg_PollUpdates postgres))))
          (section ⧺ ": postgres.poll_for_updates.query must be empty if in_memory_cache=none") errs in
        refuse_if (negb (GoStr.is_empty (pi_Query (pg_CacheInitialization postgres))))
          (section ⧺ ": postgres.initialize_caches.query must be empty if in_memory_cache=none") errs
      else errs in
    memory_validate (sr_dataType cfg) (sr_InMemoryCache cfg) errs.

(** *** Queries *)
Definition ensureNonNegative (num : Z) : nat := Z.to_nat num.
Definition makeIdList (numSoFar numArgs : nat) : string :=
  match numArgs with
  | O => "(NULL)"
  | _ => "(" ⧺ GoStr.join ", " ((fun i => "$" ⧺ GoStr.itoa (Z.of_nat i)) <$> seq (numSoFar + 1) numArgs) ⧺ ")"
  end.
(** [strings.Replace(s, old, new, -1)]; [skip] counts down the bytes of an
    [old] that was replaced. *)
Fixpoint replace_all (old new : string) (skip : nat) (s : string) : string :=
  match skip with
  | S skip => match s with EmptyString => EmptyString | String _ s => replace_all old new skip s end
  | O =>
      match s with
      | EmptyString => EmptyString
      | String c s' => if GoStr.has_prefix old s then new ⧺ replace_all old new (GoStr.len old - 1) s' else String c (replace_all old new 0 s')
      end
  end.
Definition resolve (template : string) (numReqs numImps : Z) : string :=
  let numReqs := ensureNonNegative numReqs in
  let numImps := ensureNonNegative numImps in
  replace_all "%IMP_ID_LIST%" (makeIdList numReqs numImps) 0
    (replace_all "%REQUEST_ID_LIST%" (makeIdList 0 numReqs) 0 template).
Definition MakeQuery (cfg : PostgresFetcherQueries) (numReqs numImps : Z) : string := resolve (fq_QueryTemplate cfg) numReqs numImps.
Definition ConnString (cfg : PostgresConnection) : string :=
  let item name value := if GoStr.is_empty value then ""%string else name ⧺ "=" ⧺ value ⧺ " " in
  item "host"%string (po_Host cfg) ⧺ (if (0 <? po_Port cfg)%Z then "port=" ⧺ GoStr.itoa (po_Port cfg) ⧺ " " else ""%string) ⧺
  item "user"%string (po_Username cfg) ⧺ item "password"%string (po_Password cfg) ⧺ item "dbname"%string (po_Database cfg) ⧺ "sslmode=disable".

Example query_of_three_ids :
  MakeQuery (mkFetcherQueries "SELECT id, data FROM requests WHERE id in %REQUEST_ID_LIST% UNION SELECT id, data FROM imps WHERE id in %IMP_ID_LIST%" "") 1 2 =
  "SELECT id, data FROM requests WHERE id in ($1) UNION SELECT id, data FROM imps WHERE id in ($2, $3)"%string.
Proof. by vm_compute. Qed.
(** A port is taken for a protocol. *)
Example cache_port_refused :
  external_cache_error (mkExternalCache "https" "cache.example.com:8443" "/cache") =
  Some "External cache Host must not specify a protocol. 'cache.example.com:8443'"%string.
Proof. by vm_compute. Qed.

(** ** Adapters *)
Record Adapter := mkAdapter {
  ad_Endpoint : string; ad_UserSyncURL : string; ad_Disabled : bool; ad_ExtraAdapterInfo : string;
  ad_PlatformID : string; ad_AppSecret : string }.
Definition noAdapter : Adapter := mkAdapter "" "" false "" "" "".
Definition ad_set_UserSyncURL (a : Adapter) (url : string) : Adapter :=
  mkAdapter (ad_Endpoint a) url (ad_Disabled a) (ad_ExtraAdapterInfo a) (ad_PlatformID a) (ad_AppSecret a).
(** What [macros.EndpointTemplateParams] and [UserSyncTemplateParams] hold. *)
Definition EndpointTemplateParams (Host PublisherID ZoneID SourceId AccountID AdUnit : string) : Params := fun name =>
  list_to_map (M := gmap string string)
    [("Host", Host); ("PublisherID", PublisherID); ("ZoneID", ZoneID); ("SourceId", SourceId);
     ("AccountID", AccountID); ("AdUnit", AdUnit)]%string !! name.
Definition UserSyncTemplateParams (GDPR GDPRConsent USPrivacy : string) : Params := fun name =>
  list_to_map (M := gmap string string) [("GDPR", GDPR); ("GDPRConsent", GDPRConsent); ("USPrivacy", USPrivacy)]%string !! name.
Definition dummy_endpoint : Params := EndpointTemplateParams "dummyhost.com" "12" "zone" "" "some_account" "".
Definition dummy_usersync : Params := UserSyncTemplateParams "0" "someGDPRConsentString" "1NYN".

Section Adapters.
Context `{TextTemplate} (IsURL IsRequestURL : string -> bool).

Definition validateAdapterEndpoint (endpoint adapterName : string) (errs : list error) : list error :=
  if GoStr.is_empty endpoint then
    errs ++ [EPlain ("There's no default endpoint available for " ⧺ adapterName ⧺ ". Calls to this bidder/exchange will fail. Please set adapters." ⧺
                     adapterName ⧺ ".endpoint in your app config")]
  else match Parse endpoint with
       | inr err => errs ++ [EPlain ("Invalid endpoint template: " ⧺ endpoint ⧺ " for adapter: " ⧺ adapterName ⧺ ". " ⧺ error_string err)]
       | inl endpointTemplate =>
           match ResolveMacros endpointTemplate dummy_endpoint with
           | inr err => errs ++ [EPlain ("Unable to resolve endpoint: " ⧺ endpoint ⧺ " for adapter: " ⧺ adapterName ⧺ ". " ⧺ error_string err)]
           | inl resolvedEndpoint =>
               refuse_if (negb (IsURL resolvedEndpoint) || negb (IsRequestURL resolvedEndpoint))
                 ("The endpoint: " ⧺ resolvedEndpoint ⧺ " for " ⧺ adapterName ⧺ " is not a valid URL") errs
           end
       end.
Definition validateAdapterUserSyncURL (userSyncURL adapterName : string) (errs : list error) : list error :=
  if GoStr.is_empty userSyncURL then errs
  else match Parse userSyncURL with
       | inr err => errs ++ [EPlain ("Invalid user sync URL template: " ⧺ userSyncURL ⧺ " for adapter: " ⧺ adapterName ⧺ ". " ⧺ error_string err)]
       | inl userSyncTemplate =>
           match ResolveMacros userSyncTemplate dummy_usersync with
           | inr err => errs ++ [EPlain ("Unable to resolve user sync URL: " ⧺ userSyncURL ⧺ " for adapter: " ⧺ adapterName ⧺ ". " ⧺ error_string err)]
           | inl resolved =>
               refuse_if (negb (IsURL resolved) || negb (IsRequestURL resolved))
                 ("The user_sync URL: " ⧺ resolved ⧺ " for " ⧺ adapterName ⧺ " is invalid") errs
           end
       end.
Fixpoint validateAdapters (adapters : list (string * Adapter)) (errs : list error) : list error :=
  match adapters with
  | [] => errs
  | (adapterName, a) :: rest =>
      validateAdapters rest
        (if negb (ad_Disabled a) then
           validateAdapterUserSyncURL (ad_UserSyncURL a) adapterName (validateAdapterEndpoint (ad_Endpoint a) adapterName errs)
         else errs)
  end.
End Adapters.

(** ** [Configuration] *)
Record Configuration := mkConfiguration {
  cf_ExternalURL : string; cf_AuctionTimeouts : AuctionTimeouts; cf_CacheURL : Cache; cf_ExtCacheURL : ExternalCache;
  cf_HostCookie : HostCookie; cf_Prometheus : PrometheusMetrics;
  cf_StoredRequests : StoredRequests; cf_StoredRequestsAMP : StoredRequests; cf_CategoryMapping : StoredRequests;
  cf_Accounts : StoredRequests; cf_StoredVideo : StoredRequests;
  cf_Adapters : gmap string Adapter; cf_MaxRequestSize : Z; cf_GDPR : GDPR; cf_CCPA_Enforce : bool; cf_LMT_Enforce : bool;
  cf_CurrencyConverter : CurrencyConverter;
  cf_BlacklistedApps : list string; cf_BlacklistedAppMap : gset string;
  cf_BlacklistedAccts : list string; cf_AccountConfig : AccountConfig;
  cf_IPv4PrivateNetworks : list string; cf_IPv6PrivateNetworks : list string; cf_RequestValidation : RequestValidation;
  cf_SamplingRate : float64 }.

(** *** What is derived *)
Definition setDefaultUsersync (m : gmap string Adapter) (bidder defaultValue : string) : gmap string Adapter :=
  let lowercased := to_lower bidder in
  let a := default noAdapter (m !! lowercased) in
  if GoStr.is_empty (ad_UserSyncURL a) then <[lowercased := ad_set_UserSyncURL a defaultValue]> m else m.
Definition setDerivedDefaults (externalURL : string) (adapters : gmap string Adapter) : gmap string Adapter :=
  let lockerdome := ad_PlatformID (default noAdapter (adapters !! "lockerdome"%string)) in
  fold_left (fun m '(bidder, before, after) => setDefaultUsersync m bidder (before ⧺ QueryEscape externalURL ⧺ after))
    (default_usersyncs lockerdome) adapters.
Definition set_dataType (sr : StoredRequests) (t : DataType) : StoredRequests :=
  mkStoredRequests t (sr_Files sr) (sr_Postgres sr) (sr_HTTP sr) (sr_InMemoryCache sr) (sr_CacheEvents sr) (sr_HTTPEvents sr).
(** [resolvedStoredRequestsConfig]: the section of the auctions, and what it is
    made into for AMP. *)
Definition resolved_requests (sr : StoredRequests) : StoredRequests :=
  mkStoredRequests RequestDataType (sr_Files sr) (sr_Postgres sr) (sr_HTTP sr) (sr_InMemoryCache sr)
    (mkCacheEvents (ce_Enabled (sr_CacheEvents sr)) "/storedrequests/openrtb2") (sr_HTTPEvents sr).
Definition resolved_amp (sr : StoredRequests) : StoredRequests :=
  let pg := sr_Postgres sr in
  let fq := pg_FetcherQueries pg in let ci := pg_CacheInitialization pg in let pu := pg_PollUpdates pg in
  let he := sr_HTTPEvents sr in
  mkStoredRequests AMPRequestDataType (sr_Files sr)
    (mkPostgres (pg_ConnectionInfo pg) (mkFetcherQueries (fq_AmpQueryTemplate fq) (fq_AmpQueryTemplate fq))
       (mkInitializer (pi_Timeout ci) (pi_AmpQuery ci) (pi_AmpQuery ci))
       (mkPolling (pp_RefreshRate pu) (pp_Timeout pu) (pp_AmpQuery pu) (pp_AmpQuery pu)))
    (mkHTTPFetcher (hf_AmpEndpoint (sr_HTTP sr)) (hf_AmpEndpoint (sr_HTTP sr)))
    (sr_InMemoryCache sr) (mkCacheEvents (ce_Enabled (sr_CacheEvents sr)) "/storedrequests/amp")
    (mkHTTPEvents (he_AmpEndpoint he) (he_RefreshRate he) (he_Timeout he) (he_AmpEndpoint he)).
(** The loop over [EEACountries] is bounded by the length of the map it should
    fill, which is empty, and would write to the other map. *)
Fixpoint eea_loop (n : nat) (countries : list string) (m : gset string) : gset string :=
  match n, countries with
  | S n, country :: rest => eea_loop n rest ({[country]} ∪ m)
  | _, _ => m
  end.
Definition gdpr_maps (g : GDPR) : GDPR :=
  let publishers := list_to_set (g_NonStandardPublishers g) in
  let EEACountriesMap : gset string := ∅ in
  mkGDPR (g_Enabled g) (g_HostVendorID g) (g_DefaultValue g) (g_NonStandardPublishers g)
    (eea_loop (size EEACountriesMap) (g_EEACountries g) publishers) (g_AMPException g) (g_EEACountries g) EEACountriesMap.
Definition acct_set_CacheTTL (a : Account) (ttl : DefaultTTLs) : Account :=
  let 'mkAccount id d _ e c g b := a in mkAccount id d ttl e c g b.
Definition account_maps (c : Configuration) : AccountConfig :=
  let a := cf_AccountConfig c in
  MarshalAccountDefaults
    (mkAccountConfig (list_to_set (cf_BlacklistedAccts c)) (AccountRequired a)
       (acct_set_CacheTTL (AccountDefaults a) (ca_DefaultTTLs (cf_CacheURL c))) (accountDefaultsJSON a)).

(** *** [New] *)
Section New.
Context `{TextTemplate} (IsURL IsRequestURL : string -> bool).
Context (order : gmap string Adapter -> list (string * Adapter)) (IsSet : string -> bool).

Definition validate (cfg : Configuration) : list error :=
  let errs := timeouts_validate (cf_AuctionTimeouts cfg) [] in
  let errs := stored_validate (cf_StoredRequests cfg) errs in
  let errs := stored_validate (cf_StoredRequestsAMP cfg) errs in
  let errs := stored_validate (cf_Accounts cfg) errs in
  let errs := stored_validate (cf_CategoryMapping cfg) errs in
  let errs := stored_validate (cf_StoredVideo cfg) errs in
  let errs := prometheus_validate (cf_Prometheus cfg) errs in
  let errs := refuse_if (cf_MaxRequestSize cfg <? 0)%Z
    ("cfg.max_request_size must be >= 0. Got " ⧺ GoStr.itoa (cf_MaxRequestSize cfg)) errs in
  let errs := gdpr_validate IsSet (cf_GDPR cfg) errs in
  let errs := currency_validate (cf_CurrencyConverter cfg) errs in
  let errs := validateAdapters IsURL IsRequestURL (order (cf_Adapters cfg)) errs in
  let errs := sampling_validate (cf_SamplingRate cfg) errs in
  external_cache_validate (cf_ExtCacheURL cfg) errs.

(** The server does not start; the settings could not be read; they were read
    and some are refused, which gives the aggregate of the errors; or all is
    well. *)
Inductive NewResult := Exits | Unreadable (err : error) | Refused (c : Configuration) (errs : list error) | Ready (c : Configuration).
Definition derived (c : Configuration) (requestValidation : RequestValidation) : Configuration :=
  mkConfiguration (cf_ExternalURL c) (cf_AuctionTimeouts c) (cf_CacheURL c) (cf_ExtCacheURL c) (cf_HostCookie c) (cf_Prometheus c)
    (resolved_requests (cf_StoredRequests c)) (resolved_amp (cf_StoredRequests c))
    (set_dataType (cf_CategoryMapping c) CategoryDataType) (set_dataType (cf_Accounts c) AccountDataType)
    (set_dataType (cf_StoredVideo c) VideoDataType)
    (setDerivedDefaults (cf_ExternalURL c) (cf_Adapters c)) (cf_MaxRequestSize c) (gdpr_maps (cf_GDPR c))
    (cf_CCPA_Enforce c) (cf_LMT_Enforce c) (cf_CurrencyConverter c)
    (cf_BlacklistedApps c) (list_to_set (cf_BlacklistedApps c)) (cf_BlacklistedAccts c) (account_maps c)
    (cf_IPv4PrivateNetworks c) (cf_IPv6PrivateNetworks c) requestValidation (cf_SamplingRate c).
Definition New (unmarshalled : Configuration + error) : NewResult :=
  match unmarshalled with
  | inr err => Unreadable (EPlain ("viper failed to unmarshal app config: " ⧺ error_string err))
  | inl c =>
      match RequestValidation_Parse (cf_IPv4PrivateNetworks c) (cf_IPv6PrivateNetworks c) with
      | inr err => Unreadable err
      | inl requestValidation =>
          if negb (isValidCookieSize (hc_MaxCookieSizeBytes (cf_HostCookie c))) then Exits
          else
            let c := derived c requestValidation in
            match validate c with
            | [] => Ready c
            | errs => Refused c errs
            end
      end
  end.
End New.

(** *** What viper makes of the settings *)
(** The tags of the structs, as a relation: every member has the value of its
    setting.  A number can be read as a text. *)
Definition str_of (get : string -> option value) (key : string) : string :=
  match get key with Some (VString s) => s | Some (VInt z) => GoStr.itoa z | _ => "" end.
Definition int_of (get : string -> option value) (key : string) : Z := match get key with Some (VInt z) => z | _ => 0%Z end.
Definition bool_of (get : string -> option value) (key : string) : bool := match get key with Some (VBool b) => b | _ => false end.
Definition float_of (get : string -> option value) (key : string) : float64 :=
  match get key with Some (VFloat f) => f | _ => F64.zero end.
Definition strings_of (get : string -> option value) (key : string) : list string :=
  match get key with Some (VStrings l) => l | _ => [] end.
Definition stored_of (get : string -> option value) (key : string) : StoredRequests :=
  let str name := str_of get (key ⧺ name) in let int name := int_of get (key ⧺ name) in let bool name := bool_of get (key ⧺ name) in
  mkStoredRequests NoDataType (mkFileFetcher (bool ".filesystem.enabled") (str ".filesystem.directorypath"))
    (mkPostgres
       (mkConnection (str ".postgres.connection.dbname") (str ".postgres.connection.host") (int ".postgres.connection.port")
          (str ".postgres.connection.user") (str ".postgres.connection.password"))
       (mkFetcherQueries (str ".postgres.fetcher.query") (str ".postgres.fetcher.amp_query"))
       (mkInitializer (int ".postgres.initialize_caches.timeout_ms") (str ".postgres.initialize_caches.query")
          (str ".postgres.initialize_caches.amp_query"))
       (mkPolling (int ".postgres.poll_for_updates.refresh_rate_seconds") (int ".postgres.poll_for_updates.timeout_ms")
          (str ".postgres.poll_for_updates.query") (str ".postgres.poll_for_updates.amp_query")))
    (mkHTTPFetcher (str ".http.endpoint") (str ".http.amp_endpoint"))
    (mkInMemoryCache (str ".in_memory_cache.type") (int ".in_memory_cache.ttl_seconds") (int ".in_memory_cache.size_bytes")
       (int ".in_memory_cache.request_cache_size_bytes") (int ".in_memory_cache.imp_cache_size_bytes"))
    (mkCacheEvents (bool ".cache_events.enabled") (str ".cache_events.endpoint"))
    (mkHTTPEvents (str ".http_events.endpoint") (int ".http_events.refresh_rate_seconds") (int ".http_events.timeout_ms")
       (str ".http_events.amp_endpoint"))%string.
Definition adapter_of (get : string -> option value) (bidder : string) : Adapter :=
  let key name := "adapters." ⧺ bidder ⧺ name in
  mkAdapter (str_of get (key ".endpoint")) (str_of get (key ".usersync_url")) (bool_of get (key ".disabled"))
    (str_of get (key ".extra_info")) (str_of get (key ".platform_id")) (str_of get (key ".app_secret")).
(** The names under [adapters]. *)
Definition adapter_name (key : string) : option string :=
  match GoStr.split "." key with
  | first :: name :: _ => if GoStr.eqb first "adapters" then Some name else None
  | _ => None
  end.
(** [names] are those under [adapters]. *)
Record unmarshals (get : string -> option value) (names : list string) (c : Configuration) : Prop := {
  um_ExternalURL : cf_ExternalURL c = str_of get "external_url";
  um_AuctionTimeouts : cf_AuctionTimeouts c =
    mkAuctionTimeouts (int_of get "auction_timeouts_ms.default") (int_of get "auction_timeouts_ms.max");
  um_CacheURL : cf_CacheURL c =
    mkCache (str_of get "cache.scheme") (str_of get "cache.host") (str_of get "cache.query")
      (int_of get "cache.expected_millis")
      (mkDefaultTTLs (int_of get "cache.default_ttl_seconds.banner") (int_of get "cache.default_ttl_seconds.video")
         (int_of get "cache.default_ttl_seconds.native") (int_of get "cache.default_ttl_seconds.audio"));
  um_ExtCacheURL : cf_ExtCacheURL c =
    mkExternalCache (str_of get "external_cache.scheme") (str_of get "external_cache.host")
      (str_of get "external_cache.path");
  um_HostCookie : cf_HostCookie c =
    mkHostCookie (str_of get "host_cookie.domain") (str_of get "host_cookie.family")
      (str_of get "host_cookie.cookie_name") (str_of get "host_cookie.optout_cookie.name")
      (str_of get "host_cookie.optout_cookie.value") (int_of get "host_cookie.max_cookie_size_bytes");
  um_Prometheus : cf_Prometheus c =
    mkPrometheus (int_of get "metrics.prometheus.port") (int_of get "metrics.prometheus.timeout_ms");
  um_StoredRequests : cf_StoredRequests c = stored_of get "stored_requests";
  um_CategoryMapping : cf_CategoryMapping c = stored_of get "category_mapping";
  um_Accounts : cf_Accounts c = stored_of get "accounts";
  um_StoredVideo : cf_StoredVideo c = stored_of get "stored_video_req";
  um_Adapters : cf_Adapters c = list_to_map ((fun name => (name, adapter_of get name)) <$> names);
  um_MaxRequestSize : cf_MaxRequestSize c = int_of get "max_request_size";
  um_GDPR : cf_GDPR c =
    mkGDPR (bool_of get "gdpr.enabled") (int_of get "gdpr.host_vendor_id") (str_of get "gdpr.default_value")
      (strings_of get "gdpr.non_standard_publishers") ∅ (bool_of get "gdpr.amp_exception")
      (strings_of get "gdpr.eea_countries") ∅;
  um_CCPA : cf_CCPA_Enforce c = bool_of get "ccpa.enforce";
  um_LMT : cf_LMT_Enforce c = bool_of get "lmt.enforce";
  um_CurrencyConverter : cf_CurrencyConverter c =
    mkCurrencyConverter (str_of get "currency_converter.fetch_url") (int_of get "currency_converter.fetch_interval_seconds")
      (int_of get "currency_converter.stale_rates_seconds");
  um_BlacklistedApps : cf_BlacklistedApps c = strings_of get "blacklisted_apps";
  um_BlacklistedAccts : cf_BlacklistedAccts c = strings_of get "blacklisted_accts";
  um_AccountRequired : AccountRequired (cf_AccountConfig c) = bool_of get "account_required";
  um_ipv4s : cf_IPv4PrivateNetworks c = strings_of get "request_validation.ipv4_private_networks";
  um_ipv6s : cf_IPv6PrivateNetworks c = strings_of get "request_validation.ipv6_private_networks";
  um_SamplingRate : cf_SamplingRate c = float_of get "debug.timeout_notification.sampling_rate" }.

(** *** What the exchange reads of it *)
Definition exchange_gdpr_default (c : Configuration) : Z := if GoStr.eqb (g_DefaultValue (cf_GDPR c)) "0" then SignalNo else SignalYes.
Definition exchange_privacy (c : Configuration) : PrivacyConfig :=
  mkPrivacyConfig (cf_CCPA_Enforce c) (g_Enabled (cf_GDPR c)) (g_EEACountriesMap (cf_GDPR c)) (cf_LMT_Enforce c).

(** ** What a configuration promises *)
Definition has_text (s p : string) : Prop := exists a b, s = a ⧺ p ⧺ b.
Definition memory_ok (t : DataType) (m : InMemoryCache) : Prop :=
  im_Type m = "none"%string \/
  (im_Type m = "unbounded"%string /\ im_TTL m = 0 /\
     if bool_decide (t = AccountDataType) then im_Size m = 0 else im_RequestCacheSize m = 0 /\ im_ImpCacheSize m = 0)%Z \/
  (im_Type m = "lru"%string /\
     if bool_decide (t = AccountDataType) then 0 < im_Size m else 0 < im_RequestCacheSize m /\ 0 < im_ImpCacheSize m)%Z.
Record queries_ok (pg : PostgresConfig) : Prop := {
  qo_initialize : pi_Query (pg_CacheInitialization pg) <> ""%string ->
    (0 < pi_Timeout (pg_CacheInitialization pg))%Z /\ ~ has_text (pi_Query (pg_CacheInitialization pg)) "$";
  qo_poll : pp_Query (pg_PollUpdates pg) <> ""%string ->
    (0 < pp_RefreshRate (pg_PollUpdates pg))%Z /\ (0 < pp_Timeout (pg_PollUpdates pg))%Z /\
    has_text (pp_Query (pg_PollUpdates pg)) "$1" /\ ~ has_text (pp_Query (pg_PollUpdates pg)) "$2" }.
(** Nothing fills a cache that does not exist. *)
Record stored_ok (sr : StoredRequests) : Prop := {
  so_database : po_Database (pg_ConnectionInfo (sr_Postgres sr)) <> ""%string ->
    sr_dataType sr <> AccountDataType /\ queries_ok (sr_Postgres sr);
  so_memory : sr_dataType sr <> CategoryDataType -> memory_ok (sr_dataType sr) (sr_InMemoryCache sr);
  so_none : sr_dataType sr <> CategoryDataType -> im_Type (sr_InMemoryCache sr) = "none"%string ->
    ce_Enabled (sr_CacheEvents sr) = false /\ he_RefreshRate (sr_HTTPEvents sr) = 0%Z /\
    pp_Query (pg_PollUpdates (sr_Postgres sr)) = ""%string /\ pi_Query (pg_CacheInitialization (sr_Postgres sr)) = ""%string }.
Definition external_cache_ok (x : ExternalCache) : Prop :=
  (xc_Host x = ""%string /\ xc_Path x = ""%string) \/
  (xc_Scheme x ∈ [""; "http"; "https"]%string /\ xc_Host x <> ""%string /\
   GoStr.contains_byte ":" (xc_Host x) = false /\ GoStr.contains_byte "/" (xc_Host x) = false /\
   Url.Parse ("https://" ⧺ xc_Host x ⧺ xc_Path x) = Some (xc_Host x, xc_Path x) /\ exists path, xc_Path x = "/" ⧺ path).
Section Promise.
Context `{TextTemplate} (IsURL IsRequestURL : string -> bool).
(** A template that makes a URL out of these parameters. *)
Definition makes_url (text : string) (params : Params) : Prop :=
  exists t url, Parse text = inl t /\ ResolveMacros t params = inl url /\ IsURL url = true /\ IsRequestURL url = true.
Definition adapter_ok (a : Adapter) : Prop :=
  ad_Disabled a = false -> ad_Endpoint a <> ""%string /\ makes_url (ad_Endpoint a) dummy_endpoint /\
    (ad_UserSyncURL a <> ""%string -> makes_url (ad_UserSyncURL a) dummy_usersync).
Record valid (IsSet : string -> bool) (c : Configuration) : Prop := {
  va_timeouts : (at_Default (cf_AuctionTimeouts c) <= at_Max (cf_AuctionTimeouts c))%Z;
  va_stored : Forall stored_ok [cf_StoredRequests c; cf_StoredRequestsAMP c; cf_Accounts c; cf_CategoryMapping c; cf_StoredVideo c];
  va_prometheus : (0 < pm_Port (cf_Prometheus c) -> 0 < pm_TimeoutMillisRaw (cf_Prometheus c))%Z;
  va_size : (0 <= cf_MaxRequestSize c)%Z;
  va_gdpr_set : IsSet "gdpr.default_value"%string = true;
  va_gdpr_default : g_DefaultValue (cf_GDPR c) ∈ ["0"; "1"]%string;
  va_vendor : (0 <= g_HostVendorID (cf_GDPR c) < 65536)%Z;
  va_amp : g_AMPException (cf_GDPR c) = false;
  va_currency : (0 <= cc_FetchIntervalSeconds (cf_CurrencyConverter c))%Z;
  va_adapters : map_Forall (fun _ => adapter_ok) (cf_Adapters c);
  va_sampling : F64.ltb (cf_SamplingRate c) F64.zero = false /\ F64.ltb (F64.of_Z 1) (cf_SamplingRate c) = false;
  va_external : external_cache_ok (cf_ExtCacheURL c) }.
End Promise.

(** ** Facts *)
Lemma refuse_none b msg errs : refuse_if b msg errs = [] <-> errs = [] /\ b = false.
Proof. unfold refuse_if. destruct b; [|naive_solver]. destruct errs; naive_solver. Qed.
Lemma snoc_none {A} (l : list A) x : l ++ [x] = [] <-> l = [] /\ False.
Proof. destruct l; naive_solver. Qed.
Lemma has_prefix_app p s : GoStr.has_prefix p s = true <-> exists b, s = p ⧺ b.
Proof.
  revert s. induction p as [|a p IH]; intros s; cbn; [split; [by eexists|done]|]. destruct s as [|c s]; [split; [done|by intros [? ?]]|].
  rw andb_true_iff Ascii.eqb_eq IH. split; [intros [-> [b ->]]; by exists b|intros [b [= -> ->]]; split; [done|by exists b]].
Qed.
Lemma contains_spec s p : contains s p = true <-> has_text s p.
Proof.
  unfold contains. rw bool_decide_eq_true. induction s as [|c s IH]; cbn.
  - destruct (GoStr.has_prefix p "") eqn:E.
    + apply has_prefix_app in E as [b E]. split; [intros _; exists ""%string, b; exact E|by eexists].
    + split; [by intros [? ?]|]. intros (a & b & Hs). destruct a; [|done]. assert (GoStr.has_prefix p "" = true) by (apply has_prefix_app; by exists b). congruence.
  - destruct (GoStr.has_prefix p (String c s)) eqn:E.
    + apply has_prefix_app in E as [b E]. split; [intros _; exists ""%string, b; exact E|by eexists].
    + rw fmap_is_Some IH. split.
      * intros (a & b & ->). by exists (String c a), b.
      * intros (a & b & Hs). destruct a as [|d a]; cbn in Hs.
        -- assert (GoStr.has_prefix p (String c s) = true) by (apply has_prefix_app; by exists b). congruence.
        -- injection Hs as -> ->. by exists a, b.
Qed.
Lemma contains_false s p : contains s p = false <-> ~ has_text s p.
Proof. rw -contains_spec. by destruct (contains s p). Qed.

Lemma none_unchanged (errs : list error) (P : Prop) : P -> errs = [] <-> errs = [] /\ P.
Proof. naive_solver. Qed.
Lemma timeouts_none cfg errs : timeouts_validate cfg errs = [] <-> errs = [] /\ (at_Default cfg <= at_Max cfg)%Z.
Proof. unfold timeouts_validate. rw refuse_none Z.ltb_ge. done. Qed.
Lemma prometheus_none cfg errs :
  prometheus_validate cfg errs = [] <-> errs = [] /\ (0 < pm_Port cfg -> 0 < pm_TimeoutMillisRaw cfg)%Z.
Proof. unfold prometheus_validate. rw refuse_none andb_false_iff Z.ltb_ge Z.leb_gt. intuition lia. Qed.
Lemma currency_none cfg errs : currency_validate cfg errs = [] <-> errs = [] /\ (0 <= cc_FetchIntervalSeconds cfg)%Z.
Proof. unfold currency_validate. by rw refuse_none Z.ltb_ge. Qed.
Lemma sampling_none x errs :
  sampling_validate x errs = [] <-> errs = [] /\ F64.ltb x F64.zero = false /\ F64.ltb (F64.of_Z 1) x = false.
Proof. unfold sampling_validate. by rw refuse_none orb_false_iff. Qed.
Lemma gdpr_none IsSet cfg errs : gdpr_validate IsSet cfg errs = [] <-> errs = [] /\
  IsSet "gdpr.default_value"%string = true /\ g_DefaultValue cfg ∈ ["0"; "1"]%string /\
  (0 <= g_HostVendorID cfg < 65536)%Z /\ g_AMPException cfg = false.
Proof.
  unfold gdpr_validate. rw !refuse_none orb_false_iff !Z.ltb_ge. destruct (IsSet _); cbn [negb].
  - rw refuse_none andb_false_iff !negb_false_iff !eqb_eq !elem_of_cons. pose proof (not_elem_of_nil (g_DefaultValue cfg)).
    intuition lia.
  - rw snoc_none. naive_solver.
Qed.
Lemma initializer_none t cfg errs : initializer_validate t cfg errs = [] <-> errs = [] /\
  (pi_Query cfg <> ""%string -> (0 < pi_Timeout cfg)%Z /\ ~ has_text (pi_Query cfg) "$").
Proof.
  unfold initializer_validate. destruct (GoStr.is_empty (pi_Query cfg)) eqn:E.
  - apply is_empty_true in E. by apply none_unchanged.
  - apply is_empty_false in E. rw !refuse_none Z.leb_gt contains_false. naive_solver.
Qed.
Lemma polling_none t cfg errs : polling_validate t cfg errs = [] <-> errs = [] /\
  (pp_Query cfg <> ""%string -> (0 < pp_RefreshRate cfg)%Z /\ (0 < pp_Timeout cfg)%Z /\
     has_text (pp_Query cfg) "$1" /\ ~ has_text (pp_Query cfg) "$2").
Proof.
  unfold polling_validate. destruct (GoStr.is_empty (pp_Query cfg)) eqn:E.
  - apply is_empty_true in E. by apply none_unchanged.
  - apply is_empty_false in E. rw !refuse_none !Z.leb_gt orb_false_iff negb_false_iff contains_false contains_spec. naive_solver.
Qed.
Lemma postgres_none t cfg errs : postgres_validate t cfg errs = [] <-> errs = [] /\
  (po_Database (pg_ConnectionInfo cfg) <> ""%string -> queries_ok cfg).
Proof.
  unfold postgres_validate. destruct (GoStr.is_empty _) eqn:E.
  - apply is_empty_true in E. by apply none_unchanged.
  - apply is_empty_false in E. rw polling_none initializer_none. split; [intros [[-> Hi] Hp]; split; [done|by split]|].
    intros [-> Hq]. destruct (Hq E) as [Hi Hp]. done.
Qed.
Lemma memory_none t cfg errs : memory_validate t cfg errs = [] <-> errs = [] /\ memory_ok t cfg.
Proof.
  unfold memory_validate, memory_ok. destruct (eqb_spec (im_Type cfg) "none") as [->|Hn]; [naive_solver|].
  destruct (eqb_spec (im_Type cfg) "unbounded") as [->|Hu].
  { case_bool_decide; rw !refuse_none !negb_false_iff !Z.eqb_eq; naive_solver. }
  destruct (eqb_spec (im_Type cfg) "lru") as [->|Hl].
  { case_bool_decide; rw !refuse_none !Z.leb_gt; naive_solver. }
  rw snoc_none. naive_solver.
Qed.
Lemma stored_none cfg errs : stored_validate cfg errs = [] <-> errs = [] /\ stored_ok cfg.
Proof.
  unfold stored_validate. set (errs1 := if _ && _ then _ else _).
  assert (errs1 = [] <-> errs = [] /\ (po_Database (pg_ConnectionInfo (sr_Postgres cfg)) <> ""%string ->
    sr_dataType cfg <> AccountDataType /\ queries_ok (sr_Postgres cfg))) as Hdb.
  { subst errs1. case_bool_decide as Ha; cbn [andb].
    - destruct (GoStr.is_empty _) eqn:E; cbn [negb].
      + rw postgres_none. apply is_empty_true in E. naive_solver.
      + rw snoc_none. apply is_empty_false in E. naive_solver.
    - rw postgres_none. naive_solver. }
  clearbody errs1. case_bool_decide as Hc; cbn zeta.
  - rw Hdb. split; [intros [-> H]; split; [done|by split]|]. by intros [-> [H _ _]].
  - rw memory_none. destruct (eqb_spec (im_Type (sr_InMemoryCache cfg)) "none") as [Hn|Hn].
    + rw !refuse_none negb_false_iff Z.eqb_eq Hdb !negb_false_iff !is_empty_true. split.
      * intros [[[[[[-> H1] H2] H3] H4] H5] H6]. split; [done|]. by split.
      * intros [-> [H1 H2 H3]]. destruct (H3 Hc Hn) as (?&?&?&?). by split_and!; auto.
    + rw Hdb. split; [intros [[-> H1] H2]; split; [done|by split]|]. intros [-> [H1 H2 _]]. auto.
Qed.
Lemma one_of_protocol a : one_of "://" a = Ascii.eqb a ":" || Ascii.eqb a "/".
Proof. apply eqb_true_iff, (forall_ascii (fun a => Bool.eqb (one_of "://" a) (Ascii.eqb a ":" || Ascii.eqb a "/"))). by vm_compute. Qed.
Lemma contains_any_protocol s :
  contains_any s "://" = false <-> GoStr.contains_byte ":" s = false /\ GoStr.contains_byte "/" s = false.
Proof.
  unfold contains_any. rw negb_false_iff. induction s as [|a s IH]; [done|]. cbn [all_bytes GoStr.contains_byte].
  rw andb_true_iff IH !orb_false_iff negb_true_iff one_of_protocol orb_false_iff. tauto.
Qed.
Lemma suffix_contained s : GoStr.has_suffix s "/" = true -> GoStr.contains_byte "/" s = true.
Proof.
  unfold GoStr.has_suffix. case_match; [|done]. intros Hs%eqb_eq. revert Hs. generalize (GoStr.len s - GoStr.len "/")%nat. clear.
  induction s as [|a s IH]; intros n; [by destruct n|]. destruct n as [|n]; cbn [GoStr.drop GoStr.contains_byte].
  - intros [= -> ->]. done.
  - intros Hs. rw (IH _ Hs). by rw orb_true_r.
Qed.
Lemma external_cache_none x errs : external_cache_validate x errs = [] <-> errs = [] /\ external_cache_ok x.
Proof.
  assert (external_cache_error x = None <-> external_cache_ok x) as Hx.
  2: { unfold external_cache_validate. destruct (external_cache_error x); [rw snoc_none|]; naive_solver. }
  unfold external_cache_error, external_cache_ok. destruct x as [scheme host path]. cbn [xc_Scheme xc_Host xc_Path].
  rw !elem_of_cons. pose proof (not_elem_of_nil scheme) as Hnil.
  destruct (GoStr.is_empty host) eqn:Eh.
  { apply is_empty_true in Eh as ->. destruct path; cbn; [naive_solver|]. repeat case_match; naive_solver. }
  pose proof Eh as Hh%is_empty_false. cbn [andb orb negb].
  destruct (GoStr.is_empty path) eqn:Ep.
  { apply is_empty_true in Ep as ->. split; [by case_match|]. intros [[? _]|(_ & _ & _ & _ & _ & path & Hp)]; [done|discriminate Hp]. }
  cbn [andb orb].
  destruct (negb (GoStr.is_empty scheme) && _ && _) eqn:Es.
  { split; [done|]. apply andb_true_iff in Es as [[Es1 Es2]%andb_true_iff Es3].
    apply negb_true_iff in Es1, Es2, Es3. apply is_empty_false in Es1. apply eqb_neq in Es2, Es3. naive_solver. }
  assert (scheme = ""%string \/ scheme = "http"%string \/ scheme = "https"%string) as Hs.
  { apply andb_false_iff in Es as [[Es|Es]%andb_false_iff|Es]; apply negb_false_iff in Es;
      [left; by apply is_empty_true|right; left; by apply eqb_eq|right; right; by apply eqb_eq]. }
  destruct (GoStr.has_suffix host "/") eqn:Esuf.
  { apply suffix_contained in Esuf. naive_solver congruence. }
  destruct (contains_any host "://") eqn:Ec.
  { split; [done|]. intros [[? _]|(_ & _ & H1 & H2 & _)]; [done|].
    assert (contains_any host "://" = false) by (by apply contains_any_protocol). congruence. }
  apply contains_any_protocol in Ec as [Ec1 Ec2].
  destruct (GoStr.has_prefix "/" path) eqn:Epre; cbn [negb].
  2: { split; [done|]. intros [[? _]|(_ & _ & _ & _ & _ & p & ->)]; [done|]. discriminate Epre. }
  apply has_prefix_app in Epre. destruct (Url.Parse _) as [[urlHost urlPath]|]; [|naive_solver].
  destruct (eqb_spec urlHost host) as [->|]; cbn [negb]; [|naive_solver].
  destruct (eqb_spec urlPath path) as [->|]; cbn [negb]; naive_solver.
Qed.

Section NewFacts.
Context `{TextTemplate} (IsURL IsRequestURL : string -> bool).
Context (order : gmap string Adapter -> list (string * Adapter)) (IsSet : string -> bool).
Context (Horder : forall m, map_range m (order m)).

Lemma endpoint_none endpoint name errs : validateAdapterEndpoint IsURL IsRequestURL endpoint name errs = [] <->
  errs = [] /\ endpoint <> ""%string /\ makes_url IsURL IsRequestURL endpoint dummy_endpoint.
Proof.
  unfold validateAdapterEndpoint, makes_url. destruct (GoStr.is_empty endpoint) eqn:E.
  { apply is_empty_true in E. rw snoc_none. naive_solver. }
  apply is_empty_false in E. destruct (Parse endpoint) as [t|err]; [|rw snoc_none; naive_solver].
  destruct (ResolveMacros t dummy_endpoint) as [url|err] eqn:Er.
  - rw refuse_none orb_false_iff !negb_false_iff. split; [intros (? & ? & ?); split_and!; [done|done|by exists t, url]|].
    intros (-> & _ & t' & url' & [= <-] & Hu & ? & ?). rw Er in Hu. injection Hu as <-. done.
  - rw snoc_none. split; [by intros [_ []]|]. intros (-> & _ & t' & url' & [= <-] & Hu & _). congruence.
Qed.
Lemma usersync_none url name errs : validateAdapterUserSyncURL IsURL IsRequestURL url name errs = [] <->
  errs = [] /\ (url <> ""%string -> makes_url IsURL IsRequestURL url dummy_usersync).
Proof.
  unfold validateAdapterUserSyncURL, makes_url. destruct (GoStr.is_empty url) eqn:E.
  { apply is_empty_true in E. by apply none_unchanged. }
  apply is_empty_false in E. destruct (Parse url) as [t|err]; [|rw snoc_none; naive_solver].
  destruct (ResolveMacros t dummy_usersync) as [u|err] eqn:Er.
  - rw refuse_none orb_false_iff !negb_false_iff. split; [intros (? & ? & ?); split; [done|intros _; by exists t, u]|].
    intros [-> Hu]. destruct (Hu E) as (t' & url' & [= <-] & Hx & ? & ?). rw Er in Hx. injection Hx as <-. done.
  - rw snoc_none. split; [by intros [_ []]|]. intros [-> Hu]. destruct (Hu E) as (t' & url' & [= <-] & Hx & _). congruence.
Qed.
Lemma adapters_none l errs : validateAdapters IsURL IsRequestURL l errs = [] <->
  errs = [] /\ Forall (fun p => adapter_ok IsURL IsRequestURL p.2) l.
Proof.
  revert errs. induction l as [|[name a] l IH]; intros errs; cbn [validateAdapters]; [by apply none_unchanged|].
  rw IH list.Forall_cons. unfold adapter_ok at 2. cbn [snd]. destruct (ad_Disabled a); cbn [negb]; [naive_solver|].
  rw usersync_none endpoint_none. naive_solver.
Qed.
Lemma validate_none c : validate IsURL IsRequestURL order IsSet c = [] <-> valid IsURL IsRequestURL IsSet c.
Proof.
  unfold validate. cbn zeta. rw external_cache_none sampling_none adapters_none currency_none gdpr_none refuse_none prometheus_none.
  rw !stored_none timeouts_none Z.ltb_ge.
  assert (Forall (fun p => adapter_ok IsURL IsRequestURL p.2) (order (cf_Adapters c)) <->
          map_Forall (fun _ => adapter_ok IsURL IsRequestURL) (cf_Adapters c)) as ->.
  { rw list.Forall_forall. unfold map_Forall. pose proof (fun k a => map_range_elem _ _ k a (Horder (cf_Adapters c))) as He. split.
    - intros Hf k a Hk. apply (Hf (k, a)). by apply He.
    - intros Hf [k a] Hk. apply (Hf k a). by apply He. }
  split; [intros H'; destruct_and! H'; split; try done; by rw !list.Forall_cons list.Forall_nil|].
  intros [? Hst]. rw !list.Forall_cons in Hst. naive_solver.
Qed.

(** C30: which configurations the server starts with.  What viper read gives a
    server exactly when the private networks parse, the cookie may be of any
    size or has 500 bytes, and after the defaults are filled in every setting
    is in its bounds: no default timeout above the maximum, no database for
    accounts, positive times and exactly one wildcard for polling, caches of a
    known type with the sizes that it takes, nothing that fills a cache that
    does not exist, a 16-bit vendor id, enabled adapters only with templates
    that make URLs, an outside cache that [url.Parse] reads back as written. *)
Theorem config_validated c0 :
  let networks := RequestValidation_Parse (cf_IPv4PrivateNetworks c0) (cf_IPv6PrivateNetworks c0) in
  let size := hc_MaxCookieSizeBytes (cf_HostCookie c0) in
  match New IsURL IsRequestURL order IsSet (inl c0) with
  | Ready c => exists rv, networks = inl rv /\ c = derived c0 rv /\ valid IsURL IsRequestURL IsSet c /\ (size = 0 \/ 500 <= size)%Z
  | Refused c errs => exists rv, networks = inl rv /\ c = derived c0 rv /\ ~ valid IsURL IsRequestURL IsSet c /\ errs <> []
  | Exits => (size <> 0 /\ size < 500)%Z
  | Unreadable err => networks = inr err
  end.
Proof.
  unfold New. cbn zeta. destruct (RequestValidation_Parse _ _) as [rv|err]; [|done].
  unfold isValidCookieSize, MIN_COOKIE_SIZE_BYTES. set (size := hc_MaxCookieSizeBytes _).
  destruct (Z.eqb_spec size 0) as [Hz|Hz]; cbn [negb andb]; [|destruct (Z.ltb_spec size 500) as [Hl|Hl]; cbn [negb]; [done|]].
  all: destruct (validate IsURL IsRequestURL order IsSet (derived c0 rv)) as [|e errs] eqn:Ev;
    [apply validate_none in Ev; exists rv; split_and!; auto|exists rv; split_and!; try done].
  all: intros Hv%validate_none; congruence.
Qed.
End NewFacts.

(** ** The settings as they are delivered *)
Definition default_setting (key : string) : option value := SetupViper !! key.
Definition default_names : list string :=
  remove_dups (omap adapter_name ((to_lower ∘ fst) <$> (server_defaults ++ bidder_defaults ++ adapter_defaults ++ other_defaults))).
Definition default_adapters : gmap string Adapter :=
  setDerivedDefaults (str_of default_setting "external_url")
    (list_to_map ((fun name => (name, adapter_of default_setting name)) <$> default_names)).
(** The URLs that an enabled adapter's templates make. *)
Definition template_urls (a : Adapter) : list (option string) :=
  if ad_Disabled a then []
  else (scan (ad_Endpoint a) ≫= expand dummy_endpoint) ::
       (if GoStr.is_empty (ad_UserSyncURL a) then [] else [scan (ad_UserSyncURL a) ≫= expand dummy_usersync]).
Definition default_urls : list (option string) := concat (template_urls <$> (map_to_list default_adapters).*2).
Definition default_adapters_fine : bool :=
  forallb (fun a => ad_Disabled a || negb (GoStr.is_empty (ad_Endpoint a))) (map_to_list default_adapters).*2 &&
  forallb (fun u => bool_decide (is_Some u)) default_urls.
Lemma default_adapters_checked : default_adapters_fine = true.
Proof. by vm_compute. Qed.

Lemma default_url a u : a ∈ (map_to_list default_adapters).*2 -> u ∈ template_urls a -> u ∈ default_urls.
Proof.
  intros Ha Hu. unfold default_urls. rw list_elem_of_In in_concat. exists (template_urls a). rw -!list_elem_of_In. split; [|done].
  apply list_elem_of_fmap. exists a. split; [reflexivity|exact Ha].
Qed.
Lemma default_sections_ok : Forall stored_ok
  [resolved_requests (stored_of default_setting "stored_requests"); resolved_amp (stored_of default_setting "stored_requests");
   set_dataType (stored_of default_setting "accounts") AccountDataType;
   set_dataType (stored_of default_setting "category_mapping") CategoryDataType;
   set_dataType (stored_of default_setting "stored_video_req") VideoDataType].
Proof.
  repeat (apply list.Forall_cons; split); [..|by apply list.Forall_nil].
  all: split; [intros Hdb; exfalso; apply Hdb; by vm_compute|intros Ht; first [by destruct Ht|left; by vm_compute]|].
  all: intros _ _; by split_and!; vm_compute.
Qed.

Lemma default_networks : exists rv, RequestValidation_Parse (strings_of default_setting "request_validation.ipv4_private_networks")
  (strings_of default_setting "request_validation.ipv6_private_networks") = inl rv.
Proof. vm_compute. by eexists. Qed.
Lemma zero_rate : F64.ltb F64.zero F64.zero = false /\ F64.ltb (F64.of_Z 1) F64.zero = false.
Proof. by vm_compute. Qed.
Definition default_number (key : string) (z : Z) : Prop := int_of default_setting key = z.
Lemma default_numbers :
  default_number "auction_timeouts_ms.default" 0 /\ default_number "auction_timeouts_ms.max" 0 /\
  default_number "metrics.prometheus.port" 0 /\ default_number "max_request_size" 262144 /\ default_number "gdpr.host_vendor_id" 0 /\
  default_number "currency_converter.fetch_interval_seconds" 1800 /\ default_number "host_cookie.max_cookie_size_bytes" 0.
Proof. by vm_compute. Qed.
Lemma default_texts : str_of default_setting "gdpr.default_value" = "0"%string /\ bool_of default_setting "gdpr.amp_exception" = false /\
  str_of default_setting "external_cache.host" = ""%string /\ str_of default_setting "external_cache.path" = ""%string /\
  is_Some (default_setting "gdpr.default_value") /\ float_of default_setting "debug.timeout_notification.sampling_rate" = F64.zero.
Proof. split_and!; try (by vm_compute). vm_compute. by eexists. Qed.
Lemma default_germany : "DEU"%string ∈ strings_of default_setting "gdpr.eea_countries".
Proof. apply (bool_decide_unpack _). by vm_compute. Qed.
Lemma default_adapters_eq : default_adapters =
  setDerivedDefaults (str_of default_setting "external_url")
    (list_to_map ((fun name => (name, adapter_of default_setting name)) <$> default_names)).
Proof. unfold default_adapters. reflexivity. Qed.
#[local] Opaque default_adapters default_urls SetupViper default_setting.
Section Defaults.
Context `{HT : TextTemplate} {HTok : TextTemplateOk} (IsURL IsRequestURL : string -> bool).
Context (order : gmap string Adapter -> list (string * Adapter)) (Horder : forall m, map_range m (order m)).
Definition set_in_viper (key : string) : bool := bool_decide (is_Some (default_setting key)).
Definition accepted (u : option string) : Prop := forall url, u = Some url -> IsURL url = true /\ IsRequestURL url = true.

Lemma makes_url_scanned text params u : (scan text ≫= expand params) = Some u -> accepted (Some u) ->
  makes_url IsURL IsRequestURL text params.
Proof.
  intros Hs Ha. destruct (scan text) as [parts|] eqn:Es; [|done]. cbn in Hs. destruct (fields_ok _ _ Es) as (t & Ht & Hx).
  specialize (Hx params). rw Hs in Hx. destruct (Ha _ eq_refl). by exists t, u.
Qed.
Lemma default_adapters_ok : Forall accepted default_urls -> map_Forall (fun _ => adapter_ok IsURL IsRequestURL) default_adapters.
Proof.
  intros Hurls name a Ha Hd. pose proof default_adapters_checked as Hc. unfold default_adapters_fine in Hc.
  apply andb_true_iff in Hc as [Hne Hall]. pose proof (proj1 (forallb_forall _ _) Hne) as Hne'. pose proof (proj1 (forallb_forall _ _) Hall) as Hall'.
  clear Hne Hall. rename Hne' into Hne, Hall' into Hall.
  assert (a ∈ (map_to_list default_adapters).*2) as Hin.
  { apply list_elem_of_fmap. exists (name, a). split; [done|]. by apply elem_of_map_to_list. }
  assert (forall u, u ∈ template_urls a -> exists url, u = Some url /\ accepted (Some url)) as Hu.
  { intros u Hu. pose proof (default_url _ _ Hin Hu) as Hd'.
    specialize (Hall u (proj1 (list_elem_of_In _ _) Hd')). apply bool_decide_eq_true in Hall as [url ->]. exists url. split; [done|].
    rw list.Forall_forall in Hurls. exact (Hurls _ Hd'). }
  specialize (Hne a (proj1 (list_elem_of_In _ _) Hin)). rw Hd in Hne. cbn [orb] in Hne. apply negb_true_iff, is_empty_false in Hne.
  unfold template_urls in Hu. rw Hd in Hu. split; [done|]. split.
  - destruct (Hu _ ltac:(left)) as (url & Hx & Hacc). by eapply makes_url_scanned.
  - intros He. apply is_empty_false in He. rw He in Hu. destruct (Hu _ ltac:(right; left)) as (url & Hx & Hacc). by eapply makes_url_scanned.
Qed.

Lemma defaults_ready c0 : unmarshals default_setting default_names c0 -> Forall accepted default_urls ->
  exists rv, New IsURL IsRequestURL order set_in_viper (inl c0) = Ready (derived c0 rv) /\
    valid IsURL IsRequestURL set_in_viper (derived c0 rv) /\ cf_Adapters (derived c0 rv) = default_adapters.
Proof.
  intros Hread Hurls. destruct Hread.
  destruct default_networks as [rv Hrv]. destruct default_numbers as (N1 & N2 & N3 & N4 & N5 & N6 & N7).
  destruct default_texts as (T1 & T2 & T3 & T4 & T5 & T6). unfold default_number in *.
  pose proof (default_adapters_ok Hurls) as Had.
  assert (cf_Adapters (derived c0 rv) = default_adapters) as Hda.
  { unfold derived. cbn [cf_Adapters]. rw um_Adapters0 um_ExternalURL0. exact (eq_sym default_adapters_eq). }
  assert (valid IsURL IsRequestURL set_in_viper (derived c0 rv)) as Hv.
  { split; [..|rw Hda; exact Had|idtac|idtac]; unfold derived;
      cbn [cf_AuctionTimeouts cf_StoredRequests cf_StoredRequestsAMP cf_Accounts cf_CategoryMapping cf_StoredVideo cf_Prometheus
           cf_MaxRequestSize cf_GDPR cf_CurrencyConverter cf_SamplingRate cf_ExtCacheURL].
    - rw um_AuctionTimeouts0. cbn [at_Default at_Max]. rw N1 N2. lia.
    - rw um_StoredRequests0 um_Accounts0 um_CategoryMapping0 um_StoredVideo0. apply default_sections_ok.
    - rw um_Prometheus0. cbn [pm_Port]. rw N3. lia.
    - rw um_MaxRequestSize0. rw N4. lia.
    - exact (bool_decide_eq_true_2 _ T5).
    - unfold gdpr_maps. cbn [g_DefaultValue]. rw um_GDPR0. cbn [g_DefaultValue]. rw T1. by left.
    - unfold gdpr_maps. cbn [g_HostVendorID]. rw um_GDPR0. cbn [g_HostVendorID]. rw N5. lia.
    - unfold gdpr_maps. cbn [g_AMPException]. rw um_GDPR0. exact T2.
    - rw um_CurrencyConverter0. cbn [cc_FetchIntervalSeconds]. rw N6. lia.
    - rw um_SamplingRate0 T6. exact zero_rate.
    - rw um_ExtCacheURL0. left. split; [exact T3|exact T4]. }
  exists rv. split_and!; [|exact Hv|exact Hda]. unfold New. rw um_ipv4s0 um_ipv6s0 Hrv um_HostCookie0.
  cbn [hc_MaxCookieSizeBytes]. rw N7. cbn [isValidCookieSize Z.eqb negb andb].
  apply (validate_none IsURL IsRequestURL order set_in_viper Horder) in Hv. cbn zeta. rw Hv. reflexivity.
Qed.

(** The settings as they are delivered are a configuration that the server
    starts with, as far as the URL checks accept the addresses that the
    templates of the delivered endpoints make: every enabled bidder has one,
    and with the default answer that GDPR does not apply. *)
Theorem defaults_accepted c0 : unmarshals default_setting default_names c0 -> Forall accepted default_urls ->
  exists c, New IsURL IsRequestURL order set_in_viper (inl c0) = Ready c /\ cf_Adapters c = default_adapters /\
    map_Forall (fun _ a => ad_Disabled a = false -> ad_Endpoint a <> ""%string) (cf_Adapters c) /\
    exchange_gdpr_default c = SignalNo.
Proof.
  intros Hread Hurls. destruct (defaults_ready c0 Hread Hurls) as (rv & Hn & _ & Hda). exists (derived c0 rv).
  split; [exact Hn|]. split; [exact Hda|]. split.
  - intros name a Ha Hd. rw Hda in Ha. exact (proj1 (default_adapters_ok Hurls name a Ha Hd)).
  - unfold exchange_gdpr_default, derived. cbn [cf_GDPR]. unfold gdpr_maps. cbn [g_DefaultValue]. rw (um_GDPR _ _ _ Hread). cbn [g_DefaultValue].
    rw (proj1 default_texts). reflexivity.
Qed.
End Defaults.

(** ** Countries *)
(** Where a request says the user is. *)
Definition located (request : BidRequest) : option Geo :=
  match req_User request ≫= usr_Geo with Some geo => Some geo | None => req_Device request ≫= dev_Geo end.
(** C23: the countries of the European Economic Area are never applied.  Whatever
    [gdpr.eea_countries] and [gdpr.default_value] say, a server that starts takes
    a user whose country is given, with its three letters, to be outside, and so
    nothing of a request that does not say whether GDPR applies is protected by
    it; and whom the request does not locate by the default value. *)
Theorem eea_countries_not_applied `{TextTemplate} IsURL IsRequestURL order IsSet unmarshalled c request :
  New IsURL IsRequestURL order IsSet unmarshalled = Ready c ->
  let signal := parseGDPRDefaultValue (exchange_gdpr_default c) (exchange_privacy c) request in
  (located request = None -> signal = exchange_gdpr_default c) /\
  forall geo, located request = Some geo -> GoStr.len (geo_Country geo) = 3 ->
    signal = SignalNo /\ forall account itype, gdpr_enforced SignalAmbiguous signal account (exchange_privacy c) itype = false.
Proof.
  intros HN. assert (g_EEACountriesMap (cf_GDPR c) = ∅) as He.
  { unfold New in HN. destruct unmarshalled as [c0|]; [|done]. destruct (RequestValidation_Parse _ _); [|done].
    destruct (negb _); [done|]. cbn zeta in HN. destruct (validate _ _ _ _ _); [|done]. by injection HN as <-. }
  cbn zeta. unfold parseGDPRDefaultValue. change (match req_User request ≫= usr_Geo with Some g => Some g | None => _ end) with (located request).
  split; [by intros ->|]. intros geo -> Hlen. cbn [exchange_privacy pc_EEACountriesMap]. rw He.
  rw (bool_decide_eq_false_2 _ (not_elem_of_empty (C := gset string) _)). rw (bool_decide_eq_true_2 _ Hlen). split; [done|].
  intros account itype. by unfold gdpr_enforced.
Qed.

(** ** The delivered configuration *)
Lemma delivered : exists c0, unmarshals default_setting default_names c0.
Proof.
  eexists (mkConfiguration _ _ _ _ _ _ _ (stored_of (fun _ => None) "") _ _ _ _ _ _ _ _ _ _ ∅ _
    (mkAccountConfig ∅ _ (plain_account "") RawNil) _ _ (mkRequestValidation [] []) _).
  constructor; cbn [cf_ExternalURL cf_AuctionTimeouts cf_CacheURL cf_ExtCacheURL cf_HostCookie cf_Prometheus cf_StoredRequests cf_CategoryMapping
    cf_Accounts cf_StoredVideo cf_Adapters cf_MaxRequestSize cf_GDPR cf_CCPA_Enforce cf_LMT_Enforce cf_CurrencyConverter cf_BlacklistedApps
    cf_BlacklistedAccts cf_AccountConfig AccountRequired cf_IPv4PrivateNetworks cf_IPv6PrivateNetworks cf_SamplingRate]; reflexivity.
Qed.
Definition starts_with_http (u : string) : bool := GoStr.has_prefix "http" u.
Lemma delivered_urls : Forall (accepted starts_with_http starts_with_http) default_urls.
Proof.
  apply (list.Forall_impl (fun u => match u with Some u => starts_with_http u = true | None => True end)).
  - apply list.Forall_forall. intros u Hu.
    assert (forallb (fun u => match u with Some u => starts_with_http u | None => true end) default_urls = true) as Hall by (by vm_compute).
    pose proof (proj1 (forallb_forall _ _) Hall u (proj1 (list_elem_of_In _ _) Hu)) as H. by destruct u.
  - intros u Hu url ->. by split.
Qed.
Definition european (country : string) : BidRequest :=
  req_set_User emptyBidRequest (Some (usr_set_Geo emptyUser (Some (mkGeo F64.zero F64.zero 0 0 0 0 country "" "" "" "" "" 0 RawNil)))).

Definition delivered_start (c0 : Configuration) : NewResult :=
  @New fields_only starts_with_http starts_with_http map_to_list set_in_viper (inl c0).
Lemma delivered_ready c0 : unmarshals default_setting default_names c0 -> exists rv, delivered_start c0 = Ready (derived c0 rv).
Proof.
  intros Hread. destruct (@defaults_ready fields_only fields_only_ok starts_with_http starts_with_http map_to_list
    (fun m => map_range_self m) c0 Hread delivered_urls) as (rv & Hn & _). by exists rv.
Qed.
Lemma config_validated_witness : exists c0 c, delivered_start c0 = Ready c /\
  @valid fields_only starts_with_http starts_with_http set_in_viper c.
Proof.
  destruct delivered as [c0 Hread]. exists c0. destruct (delivered_ready c0 Hread) as (rv & Hc). exists (derived c0 rv). split; [exact Hc|].
  pose proof (@config_validated fields_only starts_with_http starts_with_http map_to_list set_in_viper (fun m => map_range_self m) c0) as H.
  change (New starts_with_http starts_with_http map_to_list set_in_viper (inl c0)) with (delivered_start c0) in H.
  cbn zeta in H. rw Hc in H. destruct H as (rv' & _ & _ & Hv & _). exact Hv.
Defined.
Lemma defaults_accepted_witness : exists c0 c, delivered_start c0 = Ready c /\ cf_Adapters c = default_adapters.
Proof.
  destruct delivered as [c0 Hread]. exists c0.
  destruct (@defaults_accepted fields_only fields_only_ok starts_with_http starts_with_http map_to_list (fun m => map_range_self m) c0
    Hread delivered_urls) as (c & Hc & Ha & _). exists c. split; [exact Hc|exact Ha].
Defined.
(** Germany is on the delivered list. *)
Lemma eea_countries_not_applied_witness : exists c0 c, delivered_start c0 = Ready c /\ "DEU"%string ∈ g_EEACountries (cf_GDPR c) /\
  parseGDPRDefaultValue (exchange_gdpr_default c) (exchange_privacy c) (european "DEU") = SignalNo.
Proof.
  destruct delivered as [c0 Hread]. destruct (delivered_ready c0 Hread) as [rv Hc]. exists c0, (derived c0 rv). split; [exact Hc|]. split.
  - change (g_EEACountries (cf_GDPR (derived c0 rv))) with (g_EEACountries (cf_GDPR c0)). rw (um_GDPR _ _ _ Hread). exact default_germany.
  - exact (proj1 (proj2 (@eea_countries_not_applied fields_only starts_with_http starts_with_http map_to_list set_in_viper (inl c0)
      (derived c0 rv) (european "DEU") Hc) _ eq_refl eq_refl)).
Defined.
