(* ===== verification/Syncers.v ===== *)
(** * Syncers

    [usersync/usersyncers/syncer.go] and the [usersync.go] of every adapter that
    has one: from the sync URLs of the configuration to the map of syncers that
    [/cookie_sync] and [/setuid] share.  The theorem follows a sync around: the
    URL that a page is told to load, the address that it makes the bidder send
    the browser to, and the uid that arrives at [/setuid]. *)

From S2P Require Import Prelude ErrorTypes Url Bidders UserSync SyncEndpoints Templates ServerDefaults ServerConfig.

Section Syncers.
Context `{TextTemplate}.
Definition SyncTypeRedirect : string := "redirect".
Definition SyncTypeIframe : string := "iframe".
Definition SyncerFactory : Type := template -> Usersyncer.
(** [NewSyncer], and its [GetUsersyncInfo], over a template. *)
Definition syncer (familyName syncType : string) : SyncerFactory := fun urlTemplate =>
  NewSyncer familyName (fun privacyPolicies =>
    ResolveMacros urlTemplate
      (UserSyncTemplateParams (pp_Signal privacyPolicies) (pp_Consent privacyPolicies) (pp_USPrivacy privacyPolicies))) syncType.

(** ** The adapters' *)
Definition New33AcrossSyncer : SyncerFactory := syncer "33across" SyncTypeIframe.
Definition NewAcuityAdsSyncer : SyncerFactory := syncer "acuityads" SyncTypeRedirect.
Definition NewAdfSyncer : SyncerFactory := syncer "adf" SyncTypeRedirect.
Definition NewAdformSyncer : SyncerFactory := syncer "adform" SyncTypeRedirect.
Definition NewAdkernelSyncer : SyncerFactory := syncer "adkernel" SyncTypeRedirect.
Definition NewAdkernelAdnSyncer : SyncerFactory := syncer "adkernelAdn" SyncTypeRedirect.
Definition NewAdmanSyncer : SyncerFactory := syncer "adman" SyncTypeRedirect.
Definition NewAdmixerSyncer : SyncerFactory := syncer "admixer" SyncTypeRedirect.
Definition NewAdOceanSyncer : SyncerFactory := syncer "adocean" SyncTypeRedirect.
Definition NewadponeSyncer : SyncerFactory := syncer "adpone" SyncTypeRedirect.
Definition NewAdtargetSyncer : SyncerFactory := syncer "adtarget" SyncTypeIframe.
Definition NewAdtelligentSyncer : SyncerFactory := syncer "adtelligent" SyncTypeIframe.
Definition NewAdvangelistsSyncer : SyncerFactory := syncer "advangelists" SyncTypeIframe.
Definition NewAdxcgSyncer : SyncerFactory := syncer "adxcg" SyncTypeRedirect.
Definition NewAdyoulikeSyncer : SyncerFactory := syncer "adyoulike" SyncTypeRedirect.
Definition NewAJASyncer : SyncerFactory := syncer "aja" SyncTypeRedirect.
Definition NewAMXSyncer : SyncerFactory := syncer "amx" SyncTypeRedirect.
Definition NewAppnexusSyncer : SyncerFactory := syncer "adnxs" SyncTypeRedirect.
Definition NewAvocetSyncer : SyncerFactory := syncer "avocet" SyncTypeRedirect.
Definition NewBeachfrontSyncer : SyncerFactory := syncer "beachfront" SyncTypeIframe.
Definition NewBeintooSyncer : SyncerFactory := syncer "Beintoo" SyncTypeIframe.
Definition NewBmtmSyncer : SyncerFactory := syncer "bmtm" SyncTypeRedirect.
Definition NewBrightrollSyncer : SyncerFactory := syncer "brightroll" SyncTypeRedirect.
Definition NewColossusSyncer : SyncerFactory := syncer "colossus" SyncTypeRedirect.
Definition NewConnectAdSyncer : SyncerFactory := syncer "connectad" SyncTypeIframe.
Definition NewConsumableSyncer : SyncerFactory := syncer "consumable" SyncTypeRedirect.
Definition NewConversantSyncer : SyncerFactory := syncer "conversant" SyncTypeRedirect.
Definition NewCriteoSyncer : SyncerFactory := syncer "criteo" SyncTypeRedirect.
Definition NewCpmstarSyncer : SyncerFactory := syncer "cpmstar" SyncTypeRedirect.
Definition NewDatablocksSyncer : SyncerFactory := syncer "datablocks" SyncTypeRedirect.
Definition NewDeepintentSyncer : SyncerFactory := syncer "deepintent" SyncTypeRedirect.
Definition NewDmxSyncer : SyncerFactory := syncer "dmx" SyncTypeRedirect.
Definition NewEMXDigitalSyncer : SyncerFactory := syncer "emx_digital" SyncTypeIframe.
Definition NewEvolutionSyncer : SyncerFactory := syncer "e_volution" SyncTypeRedirect.
Definition NewEngageBDRSyncer : SyncerFactory := syncer "engagebdr" SyncTypeIframe.
Definition NewEPlanningSyncer : SyncerFactory := syncer "eplanning" SyncTypeIframe.
Definition NewFacebookSyncer : SyncerFactory := syncer "audienceNetwork" SyncTypeRedirect.
Definition NewGammaSyncer : SyncerFactory := syncer "gamma" SyncTypeIframe.
Definition NewGamoshiSyncer : SyncerFactory := syncer "gamoshi" SyncTypeRedirect.
Definition NewGridSyncer : SyncerFactory := syncer "grid" SyncTypeRedirect.
Definition NewGumGumSyncer : SyncerFactory := syncer "gumgum" SyncTypeIframe.
Definition NewImprovedigitalSyncer : SyncerFactory := syncer "improvedigital" SyncTypeRedirect.
Definition NewInvibesSyncer : SyncerFactory := syncer "invibes" SyncTypeIframe.
Definition NewIxSyncer : SyncerFactory := syncer "ix" SyncTypeRedirect.
Definition NewJixieSyncer : SyncerFactory := syncer "jixie" SyncTypeRedirect.
Definition NewKrushmediaSyncer : SyncerFactory := syncer "krushmedia" SyncTypeRedirect.
Definition NewLockerDomeSyncer : SyncerFactory := syncer "lockerdome" SyncTypeRedirect.
Definition NewLogicadSyncer : SyncerFactory := syncer "logicad" SyncTypeRedirect.
Definition NewLunaMediaSyncer : SyncerFactory := syncer "lunamedia" SyncTypeIframe.
Definition NewMarsmediaSyncer : SyncerFactory := syncer "marsmedia" SyncTypeRedirect.
Definition NewMediafuseSyncer : SyncerFactory := syncer "mediafuse" SyncTypeIframe.
Definition NewMgidSyncer : SyncerFactory := syncer "mgid" SyncTypeRedirect.
Definition NewNanoInteractiveSyncer : SyncerFactory := syncer "nanointeractive" SyncTypeRedirect.
Definition NewNinthDecimalSyncer : SyncerFactory := syncer "ninthdecimal" SyncTypeIframe.
Definition NewNoBidSyncer : SyncerFactory := syncer "nobid" SyncTypeRedirect.
Definition onetag_NewSyncer : SyncerFactory := syncer "onetag" SyncTypeIframe.
Definition NewOutbrainSyncer : SyncerFactory := syncer "outbrain" SyncTypeRedirect.
Definition NewOpenxSyncer : SyncerFactory := syncer "openx" SyncTypeRedirect.
Definition NewPubmaticSyncer : SyncerFactory := syncer "pubmatic" SyncTypeIframe.
Definition NewPulsepointSyncer : SyncerFactory := syncer "pulsepoint" SyncTypeRedirect.
Definition NewRhythmoneSyncer : SyncerFactory := syncer "rhythmone" SyncTypeRedirect.
Definition NewRTBHouseSyncer : SyncerFactory := syncer "rtbhouse" SyncTypeRedirect.
Definition NewRubiconSyncer : SyncerFactory := syncer "rubicon" SyncTypeRedirect.
Definition rubiconmraid_NewRubiconSyncer : SyncerFactory := syncer "rubiconmraid" SyncTypeRedirect.
Definition NewSharethroughSyncer : SyncerFactory := syncer "sharethrough" SyncTypeRedirect.
Definition NewSomoaudienceSyncer : SyncerFactory := syncer "somoaudience" SyncTypeRedirect.
Definition NewSonobiSyncer : SyncerFactory := syncer "sonobi" SyncTypeRedirect.
Definition NewSovrnSyncer : SyncerFactory := syncer "sovrn" SyncTypeRedirect.
Definition NewSmartadserverSyncer : SyncerFactory := syncer "smartadserver" SyncTypeRedirect.
Definition NewSmartRTBSyncer : SyncerFactory := syncer "smartrtb" SyncTypeRedirect.
Definition NewSmartyAdsSyncer : SyncerFactory := syncer "smartyads" SyncTypeRedirect.
Definition NewSmileWantedSyncer : SyncerFactory := syncer "smilewanted" SyncTypeRedirect.
Definition NewSynacorMediaSyncer : SyncerFactory := syncer "synacormedia" SyncTypeIframe.
Definition NewTappxSyncer : SyncerFactory := syncer "tappx" SyncTypeIframe.
Definition NewTelariaSyncer : SyncerFactory := syncer "telaria" SyncTypeRedirect.
Definition NewTripleliftSyncer : SyncerFactory := syncer "triplelift" SyncTypeRedirect.
Definition triplelift_native_NewTripleliftSyncer : SyncerFactory := syncer "triplelift" SyncTypeRedirect.
Definition NewTrustXSyncer : SyncerFactory := syncer "trustx" SyncTypeRedirect.
Definition NewUcfunnelSyncer : SyncerFactory := syncer "ucfunnel" SyncTypeRedirect.
Definition NewUnrulySyncer : SyncerFactory := syncer "unruly" SyncTypeIframe.
Definition NewValueImpressionSyncer : SyncerFactory := syncer "valueimpression" SyncTypeRedirect.
Definition NewVerizonMediaSyncer : SyncerFactory := syncer "verizonmedia" SyncTypeRedirect.
Definition NewViewdeosSyncer : SyncerFactory := syncer "viewdeos" SyncTypeIframe.
Definition NewVisxSyncer : SyncerFactory := syncer "visx" SyncTypeRedirect.
Definition NewVrtcalSyncer : SyncerFactory := syncer "vrtcal" SyncTypeRedirect.
Definition NewYieldlabSyncer : SyncerFactory := syncer "yieldlab" SyncTypeRedirect.
Definition NewYieldmoSyncer : SyncerFactory := syncer "yieldmo" SyncTypeRedirect.
Definition NewYieldoneSyncer : SyncerFactory := syncer "yieldone" SyncTypeRedirect.
Definition NewZeroClickFraudSyncer : SyncerFactory := syncer "zeroclickfraud" SyncTypeIframe.
Definition NewBetweenSyncer : SyncerFactory := syncer "between" SyncTypeRedirect.

(** ** The map *)
(** The calls of [insertIntoMap], in their order. *)
Definition factories : list (string * SyncerFactory) :=
  [("33across", New33AcrossSyncer); ("acuityads", NewAcuityAdsSyncer); ("adf", NewAdfSyncer); ("adform", NewAdformSyncer);
   ("adkernel", NewAdkernelSyncer); ("adkernelAdn", NewAdkernelAdnSyncer); ("adman", NewAdmanSyncer);
   ("admixer", NewAdmixerSyncer); ("adocean", NewAdOceanSyncer); ("adpone", NewadponeSyncer); ("adtarget", NewAdtargetSyncer);
   ("adtelligent", NewAdtelligentSyncer); ("advangelists", NewAdvangelistsSyncer); ("adxcg", NewAdxcgSyncer);
   ("adyoulike", NewAdyoulikeSyncer); ("aja", NewAJASyncer); ("amx", NewAMXSyncer); ("appnexus", NewAppnexusSyncer);
   ("avocet", NewAvocetSyncer); ("beachfront", NewBeachfrontSyncer); ("beintoo", NewBeintooSyncer); ("bmtm", NewBmtmSyncer);
   ("brightroll", NewBrightrollSyncer); ("colossus", NewColossusSyncer); ("connectad", NewConnectAdSyncer);
   ("consumable", NewConsumableSyncer); ("conversant", NewConversantSyncer); ("criteo", NewCriteoSyncer);
   ("cpmstar", NewCpmstarSyncer); ("datablocks", NewDatablocksSyncer); ("deepintent", NewDeepintentSyncer);
   ("dmx", NewDmxSyncer); ("emx_digital", NewEMXDigitalSyncer); ("e_volution", NewEvolutionSyncer);
   ("engagebdr", NewEngageBDRSyncer); ("eplanning", NewEPlanningSyncer); ("audienceNetwork", NewFacebookSyncer);
   ("gamma", NewGammaSyncer); ("gamoshi", NewGamoshiSyncer); ("grid", NewGridSyncer); ("gumgum", NewGumGumSyncer);
   ("improvedigital", NewImprovedigitalSyncer); ("invibes", NewInvibesSyncer); ("ix", NewIxSyncer); ("jixie", NewJixieSyncer);
   ("krushmedia", NewKrushmediaSyncer); ("lockerdome", NewLockerDomeSyncer); ("logicad", NewLogicadSyncer);
   ("lunamedia", NewLunaMediaSyncer); ("marsmedia", NewMarsmediaSyncer); ("mediafuse", NewMediafuseSyncer);
   ("mgid", NewMgidSyncer); ("nanointeractive", NewNanoInteractiveSyncer); ("ninthdecimal", NewNinthDecimalSyncer);
   ("nobid", NewNoBidSyncer); ("onetag", onetag_NewSyncer); ("outbrain", NewOutbrainSyncer); ("openx", NewOpenxSyncer);
   ("pubmatic", NewPubmaticSyncer); ("pulsepoint", NewPulsepointSyncer); ("rhythmone", NewRhythmoneSyncer);
   ("rtbhouse", NewRTBHouseSyncer); ("rubicon", NewRubiconSyncer); ("rubiconmraid", rubiconmraid_NewRubiconSyncer);
   ("sharethrough", NewSharethroughSyncer); ("somoaudience", NewSomoaudienceSyncer); ("sonobi", NewSonobiSyncer);
   ("sovrn", NewSovrnSyncer); ("smartadserver", NewSmartadserverSyncer); ("smartrtb", NewSmartRTBSyncer);
   ("smartyads", NewSmartyAdsSyncer); ("smilewanted", NewSmileWantedSyncer); ("synacormedia", NewSynacorMediaSyncer);
   ("tappx", NewTappxSyncer); ("telaria", NewTelariaSyncer); ("triplelift", NewTripleliftSyncer);
   ("triplelift_native", triplelift_native_NewTripleliftSyncer); ("trustx", NewTrustXSyncer); ("ucfunnel", NewUcfunnelSyncer);
   ("unruly", NewUnrulySyncer); ("valueimpression", NewValueImpressionSyncer); ("verizonmedia", NewVerizonMediaSyncer);
   ("viewdeos", NewViewdeosSyncer); ("visx", NewVisxSyncer); ("vrtcal", NewVrtcalSyncer); ("yieldlab", NewYieldlabSyncer);
   ("yieldmo", NewYieldmoSyncer); ("yieldone", NewYieldoneSyncer); ("zeroclickfraud", NewZeroClickFraudSyncer);
   ("between", NewBetweenSyncer)]%string.
(** [None] is the panic of [template.Must]. *)
Definition insertIntoMap (adapters : gmap string Adapter) (syncers : gmap string Usersyncer) (bidder : string) (syncerFactory : SyncerFactory) :
  option (gmap string Usersyncer) :=
  let urlString := ad_UserSyncURL (default noAdapter (adapters !! to_lower bidder)) in
  if GoStr.is_empty urlString then Some syncers
  else match Parse urlString with
       | inl t => Some (<[bidder := syncerFactory t]> syncers)
       | inr _ => None
       end.
Definition NewSyncerMap (adapters : gmap string Adapter) : option (gmap string Usersyncer) :=
  foldM (fun syncers '(bidder, syncerFactory) => insertIntoMap adapters syncers bidder syncerFactory) factories ∅.
(** What [NewSetUIDEndpoint] accepts as names. *)
Definition validFamilyNames (syncers : gmap string Usersyncer) : gset string :=
  list_to_set (FamilyName <$> (map_to_list syncers).*2).
End Syncers.

(** ** Facts *)
#[export] Instance part_eq_dec : EqDecision part.
Proof. solve_decision. Defined.

Lemma unescape_byte a s : a <> "%"%char -> a <> "+"%char -> QueryUnescape (String a s) = String a <$> QueryUnescape s.
Proof. intros Hp Hq. destruct a as [[] [] [] [] [] [] [] []]; try done; by destruct s as [|? [|? ?]]. Qed.
Lemma unescape_app a ua b : QueryUnescape a = Some ua -> QueryUnescape (a ⧺ b) = String.append ua <$> QueryUnescape b.
Proof.
  remember (GoStr.len a) as n eqn:Hn. revert a ua Hn. induction (lt_wf n) as [n _ IH]. intros a ua -> Ha.
  destruct a as [|c a]; [injection Ha as <-; cbn; by destruct (QueryUnescape b)|].
  destruct (decide (c = "%"%char)) as [->|Hp].
  { destruct a as [|h [|l a]]; [done|done|]. cbn [QueryUnescape String.append] in *.
    destruct (unhex h), (unhex l); try done. destruct (QueryUnescape a) as [u|] eqn:Eu; [|done]. injection Ha as <-.
    rw (IH (GoStr.len a) ltac:(unfold GoStr.len; cbn; lia) a u eq_refl Eu). by destruct (QueryUnescape b). }
  destruct (decide (c = "+"%char)) as [->|Hq].
  { cbn [QueryUnescape String.append] in *. destruct (QueryUnescape a) as [u|] eqn:Eu; [|done]. injection Ha as <-.
    rw (IH (GoStr.len a) ltac:(unfold GoStr.len; cbn; lia) a u eq_refl Eu). by destruct (QueryUnescape b). }
  cbn [String.append]. rw (unescape_byte c _ Hp Hq). rw (unescape_byte c _ Hp Hq) in Ha.
  destruct (QueryUnescape a) as [u|] eqn:Eu; [|done]. injection Ha as <-.
  rw (IH (GoStr.len a) ltac:(unfold GoStr.len; cbn; lia) a u eq_refl Eu). by destruct (QueryUnescape b).
Qed.
Lemma unescape_unreserved v : all_bytes unreserved v = true -> QueryUnescape v = Some v.
Proof. intros Hv. rw -{1}(escape_unreserved v Hv). apply unescape_escape. Qed.

(** *** Templates, part by part *)
(** The redirect that a URL carries ends at the next parameter. *)
Fixpoint cut_parts (l : list part) : list part * list part :=
  match l with
  | [] => ([], [])
  | p :: rest =>
      if bool_decide (p = Byte "&" \/ p = Byte "?") then ([], l) else let '(a, b) := cut_parts rest in (p :: a, b)
  end.
Fixpoint unescape_parts (l : list part) : option (list part) :=
  match l with
  | [] => Some []
  | Byte c :: rest =>
      if Ascii.eqb c "%" then
        match rest with
        | Byte h :: Byte l :: rest =>
            x ← unhex h; y ← unhex l; cons (Byte (Ascii.ascii_of_nat (16 * x + y))) <$> unescape_parts rest
        | _ => None
        end
      else if Ascii.eqb c "+" then cons (Byte " ") <$> unescape_parts rest
      else cons (Byte c) <$> unescape_parts rest
  | Field f :: rest => cons (Field f) <$> unescape_parts rest
  end.
Fixpoint strip (s : string) (l : list part) : option (list part) :=
  match s, l with
  | EmptyString, _ => Some l
  | String c s, Byte d :: l => if Ascii.eqb c d then strip s l else None
  | _, _ => None
  end.
Definition known (l : list part) : bool :=
  forallb (fun p => match p with Byte _ => true | Field f => bool_decide (f ∈ ["GDPR"; "GDPRConsent"; "USPrivacy"]%string) end) l.

Lemma cut_parts_app l a b : cut_parts l = (a, b) -> l = a ++ b.
Proof.
  revert a b. induction l as [|p l IH]; intros a b; cbn; [by intros [= <- <-]|]. case_bool_decide; [by intros [= <- <-]|].
  destruct (cut_parts l) as [a' b'] eqn:E. intros [= <- <-]. cbn. by rw (IH _ _ eq_refl).
Qed.
Lemma strip_app s l l' : strip s l = Some l' -> l = bytes s ++ l'.
Proof.
  revert l. induction s as [|c s IH]; intros l; cbn; [by intros [= ->]|]. destruct l as [|[d|] l]; [done| |done].
  destruct (Ascii.eqb_spec c d) as [->|]; [|done]. intros Hl. by rw (IH _ Hl).
Qed.
Lemma known_app l l' : known (l ++ l') = known l && known l'.
Proof. unfold known. apply forallb_app. Qed.

(** The values that a page sent are of bytes that stand for themselves. *)
Definition plain_policies (p : Policies) : Prop :=
  all_bytes unreserved (pp_Signal p) = true /\ all_bytes unreserved (pp_Consent p) = true /\ all_bytes unreserved (pp_USPrivacy p) = true.
Definition policy_params (p : Policies) : Params := UserSyncTemplateParams (pp_Signal p) (pp_Consent p) (pp_USPrivacy p).
Lemma policy_params_at p :
  policy_params p "GDPR"%string = Some (pp_Signal p) /\ policy_params p "GDPRConsent"%string = Some (pp_Consent p) /\
  policy_params p "USPrivacy"%string = Some (pp_USPrivacy p).
Proof. done. Qed.
Lemma known_param p f : f ∈ ["GDPR"; "GDPRConsent"; "USPrivacy"]%string -> plain_policies p ->
  exists v, policy_params p f = Some v /\ all_bytes unreserved v = true.
Proof.
  intros Hf (H1 & H2 & H3). rw !elem_of_cons in Hf. pose proof (not_elem_of_nil f). destruct Hf as [->|[->|[->|?]]]; [..|done]; eexists; by split.
Qed.
Lemma expand_known p l : known l = true -> plain_policies p -> exists s, expand (policy_params p) l = Some s.
Proof.
  intros Hk Hp. induction l as [|[c|f] l IH]; [by eexists|..]; cbn in Hk |- *.
  - destruct (IH Hk) as [s ->]. by eexists.
  - apply andb_true_iff in Hk as [Hf%bool_decide_eq_true Hk]. destruct (known_param p f Hf Hp) as (v & -> & _).
    destruct (IH Hk) as [s ->]. by eexists.
Qed.
Lemma expand_unescaped p l l' s : known l = true -> plain_policies p -> unescape_parts l = Some l' ->
  expand (policy_params p) l = Some s -> known l' = true /\ exists s', expand (policy_params p) l' = Some s' /\ QueryUnescape s = Some s'.
Proof.
  intros Hk Hp. remember (length l) as n eqn:Hn. revert l l' s Hn Hk. induction (lt_wf n) as [n _ IH]. intros l l' s -> Hk Hl Hs.
  destruct l as [|[c|f] l]; cbn in Hl, Hs, Hk; [injection Hl as <-; injection Hs as <-; split; [done|by exists ""%string]|..].
  - destruct (expand (policy_params p) l) as [t|] eqn:Et; [|done]. injection Hs as <-. cbn [String.append].
    destruct (Ascii.eqb_spec c "%") as [->|Hc].
    + destruct l as [|[h|] [|[x|] l]]; try done. destruct (unhex h) as [a|] eqn:Ea; [|done]. destruct (unhex x) as [b|] eqn:Eb; [|done].
      cbn in Hl. destruct (unescape_parts l) as [r|] eqn:Er; [|done]. injection Hl as <-. cbn in Et, Hk.
      destruct (expand (policy_params p) l) as [t'|] eqn:Et'; [|done]. injection Et as <-.
      destruct (IH (length l) ltac:(cbn; lia) l r t' eq_refl Hk Er Et') as (Hr & s' & Hs' & Hu). split; [exact Hr|].
      eexists. cbn. rw Hs'. split; [reflexivity|]. cbn. by rw Ea Eb Hu.
    + destruct (Ascii.eqb_spec c "+") as [->|Hq]; (destruct (unescape_parts l) as [r|] eqn:Er; [|done]); injection Hl as <-;
        destruct (IH (length l) ltac:(cbn; lia) l r t eq_refl Hk Er Et) as (Hr & s' & Hs' & Hu); (split; [exact Hr|]); eexists;
        cbn [expand expand_part mbind option_bind]; rw Hs';
        (split; [reflexivity|]); [cbn; by rw Hu|]. cbn [String.append]. by rw (unescape_byte _ _ Hc Hq) Hu.
  - apply andb_true_iff in Hk as [Hf Hk]. pose proof Hf as Hf'%bool_decide_eq_true. destruct (known_param p f Hf' Hp) as (v & Hv & Hvu).
    rw Hv in Hs. cbn in Hs. destruct (expand (policy_params p) l) as [t|] eqn:Et; [|done]. injection Hs as <-.
    destruct (unescape_parts l) as [r|] eqn:Er; [|done]. injection Hl as <-.
    destruct (IH (length l) ltac:(cbn; lia) l r t eq_refl Hk Er Et) as (Hr & s' & Hs' & Hu).
    split; [apply andb_true_iff; split; [exact Hf|exact Hr]|]. exists (v ⧺ s'). cbn. rw Hv Hs'. split; [reflexivity|].
    by rw (unescape_app _ _ _ (unescape_unreserved _ Hvu)) Hu.
Qed.

(** *** The tables *)
(** Bidders whose own default does not come home, and those that do without
    what the page said about GDPR. *)
Definition strange_syncs : list string := ["beintoo"; "triplelift_native"; "smartrtb"]%string.
Definition without_consent : list string :=
  ["33across"; "acuityads"; "emx_digital"; "krushmedia"; "nobid"; "outbrain"; "smartyads"; "sonobi"; "synacormedia"; "ucfunnel"; "between"]%string.
Definition home (family : string) : string := "/setuid?bidder=" ⧺ family ⧺ "&".
(** What follows the family in the redirect. *)
Definition after_home (after family : string) : option (list part) :=
  q ← scan after;
  if known q then q' ← unescape_parts (fst (cut_parts q)); strip (home family) q' else None.
Definition carries_consent (q : list part) : bool :=
  match strip "gdpr=" q with
  | Some (Field f :: r) =>
      GoStr.eqb f "GDPR" &&
      match strip "&gdpr_consent=" r with
      | Some (Field g :: Byte c :: _) => GoStr.eqb g "GDPRConsent" && Ascii.eqb c "&"
      | _ => false
      end
  | _ => false
  end.
Lemma carries_inv q : carries_consent q = true ->
  exists r, q = bytes "gdpr=" ++ Field "GDPR" :: bytes "&gdpr_consent=" ++ Field "GDPRConsent" :: Byte "&" :: r.
Proof.
  unfold carries_consent. destruct (strip "gdpr=" q) as [[|[|f] l]|] eqn:E1; try done. intros [->%eqb_eq Hr]%andb_true_iff.
  destruct (strip "&gdpr_consent=" l) as [[|[|g] [|[c|] r]]|] eqn:E2; try done. apply andb_true_iff in Hr as [->%eqb_eq ->%Ascii.eqb_eq].
  exists r. by rw (strip_app _ _ _ E1) (strip_app _ _ _ E2).
Qed.

Section Tables.
Context `{HT : TextTemplate}.
Definition row_comes_home (t : template) (row : string * string) : bool :=
  let '(bidder, after) := row in
  bool_decide (bidder ∈ strange_syncs) ||
  existsb (fun '(b, f) => GoStr.eqb b bidder && all_bytes unreserved (FamilyName (f t)) && negb (GoStr.is_empty (FamilyName (f t))) &&
    match after_home after (FamilyName (f t)) with
    | Some q => bool_decide (bidder ∈ without_consent) || carries_consent q
    | None => false
    end) factories.
End Tables.
Section TableFacts.
Context `{HT : TextTemplate}.
Definition row_ends (row : string * string * string) : string * string := (row.1.1, row.2).
Lemma row_ends_any pid : row_ends <$> default_usersyncs pid = row_ends <$> default_usersyncs "".
Proof. reflexivity. Qed.
Lemma names_any pid : (default_usersyncs pid).*1.*1 = (default_usersyncs "").*1.*1.
Proof. reflexivity. Qed.
Lemma rows_come_home t : forallb (row_comes_home t) (row_ends <$> default_usersyncs "") = true.
Proof. by vm_compute. Qed.
Lemma default_names_distinct pid : NoDup ((fun row : string * string * string => to_lower row.1.1) <$> default_usersyncs pid).
Proof.
  assert ((fun row : string * string * string => to_lower row.1.1) <$> default_usersyncs pid =
          (fun row : string * string * string => to_lower row.1.1) <$> default_usersyncs "") as -> by reflexivity.
  apply (bool_decide_unpack _). by vm_compute.
Qed.
Lemma factories_distinct : NoDup factories.*1.
Proof. apply (bool_decide_unpack _). by vm_compute. Qed.
Lemma factory_syncer b f : (b, f) ∈ factories -> exists family syncType, f = syncer family syncType.
Proof.
  intros Hf. assert (Forall (fun p => exists family syncType, snd p = syncer family syncType) factories) as Hall.
  { unfold factories. repeat (apply list.Forall_cons; split; [by eexists _, _|]). by apply list.Forall_nil. }
  rw list.Forall_forall in Hall. exact (Hall _ Hf).
Qed.
Definition scans (before : string) : Prop := exists p, scan_from Outside before = Some (Outside, p) /\ known p = true.
Lemma known_bytes s : known (bytes s) = true.
Proof. unfold known, bytes. induction (list_ascii_of_string s) as [|c l IH]; [done|exact IH]. Qed.
Lemma scans_app a b : scans a -> scans b -> scans (a ⧺ b).
Proof.
  intros (p & Hp & Kp) (q & Hq & Kq). exists (p ++ q). rw scan_from_app Hp. cbn. rw Hq. by rw known_app Kp Kq.
Qed.
Lemma scans_text s : no_brace s = true -> scans s.
Proof. intros Hs. exists (bytes s). by rw (scan_from_text _ Hs) known_bytes. Qed.
Lemma befores_scan pid : no_brace pid = true -> Forall (fun row => scans row.1.2) (default_usersyncs pid).
Proof.
  intros Hpid. unfold default_usersyncs. repeat (apply list.Forall_cons; split); [..|by apply list.Forall_nil].
  all: cbn [fst snd]; first [eexists; split; [vm_compute; reflexivity|vm_compute; reflexivity]|idtac].
  apply (scans_app "https://lockerdome.com/usync/prebidserver?pid="); [by apply scans_text|]. apply scans_app; [by apply scans_text|].
  eexists. split; vm_compute; reflexivity.
Qed.

Lemma afters_scan row : row ∈ row_ends <$> default_usersyncs "" -> exists q, scan row.2 = Some q /\ known q = true.
Proof.
  assert (forallb (fun row => match scan row.2 with Some q => known q | None => false end) (row_ends <$> default_usersyncs "") = true) as Hall
    by (by vm_compute).
  intros Hrow. pose proof (proj1 (forallb_forall _ _) Hall row (proj1 (list_elem_of_In _ _) Hrow)) as H. cbn beta in H.
  destruct (scan row.2) as [q|]; [|done]. exists q. split; [reflexivity|exact H].
Qed.

(** What a row is made into, after any others. *)
Lemma derived_other l m k (url : string) : k ∉ ((fun row : string * string * string => to_lower row.1.1) <$> l) ->
  fold_left (fun m '(bidder, before, after) => setDefaultUsersync m bidder (before ⧺ url ⧺ after)) l m !! k = m !! k.
Proof.
  revert m. induction l as [|[[b before] after] l IH]; intros m Hk; [done|]. cbn [fold_left].
  rw fmap_cons not_elem_of_cons in Hk. destruct Hk as [Hne Hk]. rw (IH _ Hk). unfold setDefaultUsersync. case_match; [|done].
  by rw lookup_insert_ne.
Qed.
Lemma derived_at l m b before after (url : string) : (b, before, after) ∈ l ->
  NoDup ((fun row : string * string * string => to_lower row.1.1) <$> l) ->
  ad_UserSyncURL (default noAdapter (m !! to_lower b)) = ""%string ->
  ad_UserSyncURL (default noAdapter
    (fold_left (fun m '(bidder, before, after) => setDefaultUsersync m bidder (before ⧺ url ⧺ after)) l m !! to_lower b)) =
  before ⧺ url ⧺ after.
Proof.
  revert m. induction l as [|[[b' before'] after'] l IH]; intros m Hin Hnd Hm; [by apply elem_of_nil in Hin|]. cbn [fold_left].
  rw fmap_cons list.NoDup_cons in Hnd. destruct Hnd as [Hout Hnd]. apply elem_of_cons in Hin as [[= <- <- <-]|Hin].
  - rw (derived_other _ _ _ _ Hout). unfold setDefaultUsersync. rw Hm. cbn [GoStr.is_empty]. rw lookup_insert_eq. by destruct (m !! _).
  - apply (IH _ Hin Hnd). assert (to_lower b <> to_lower b') as Hne.
    { intros Heq. apply Hout. rw -Heq. apply list_elem_of_fmap. by exists (b, before, after). }
    unfold setDefaultUsersync. case_match; [|done]. by rw lookup_insert_ne.
Qed.
Lemma map_other adapters l b acc m : b ∉ l.*1 ->
  foldM (fun syncers '(bidder, f) => insertIntoMap adapters syncers bidder f) l acc = Some m -> m !! b = acc !! b.
Proof.
  revert acc. induction l as [|[b' f] l IH]; intros acc Hb; cbn [foldM]; [by intros [= ->]|].
  rw fmap_cons not_elem_of_cons in Hb. destruct Hb as [Hne Hb]. destruct (insertIntoMap adapters acc b' f) as [acc'|] eqn:Ei; [|done].
  intros Hm. rw (IH _ Hb Hm). unfold insertIntoMap in Ei. case_match; [by injection Ei as <-|]. case_match; [|done]. injection Ei as <-.
  by rw lookup_insert_ne.
Qed.
Lemma map_at adapters l b f t acc m : (b, f) ∈ l -> NoDup l.*1 ->
  let url := ad_UserSyncURL (default noAdapter (adapters !! to_lower b)) in
  url <> ""%string -> Parse url = inl t ->
  foldM (fun syncers '(bidder, f) => insertIntoMap adapters syncers bidder f) l acc = Some m -> m !! b = Some (f t).
Proof.
  cbn zeta. intros Hin Hnd Hurl Hp. revert acc. induction l as [|[b' f'] l IH]; intros acc; [by apply elem_of_nil in Hin|]. cbn [foldM].
  rw fmap_cons list.NoDup_cons in Hnd. destruct Hnd as [Hout Hnd]. destruct (insertIntoMap adapters acc b' f') as [acc'|] eqn:Ei; [|done].
  intros Hm. apply elem_of_cons in Hin as [[= <- <-]|Hin]; [|by eapply IH].
  rw (map_other _ _ _ _ _ Hout Hm). unfold insertIntoMap in Ei. apply is_empty_false in Hurl. rw Hurl Hp in Ei. injection Ei as <-.
  apply lookup_insert_eq.
Qed.
Definition lockerdome_id (adapters : gmap string Adapter) : string := ad_PlatformID (default noAdapter (adapters !! "lockerdome"%string)).
Lemma default_at externalURL adapters b before after : (b, before, after) ∈ default_usersyncs (lockerdome_id adapters) ->
  ad_UserSyncURL (default noAdapter (adapters !! to_lower b)) = ""%string ->
  ad_UserSyncURL (default noAdapter (setDerivedDefaults externalURL adapters !! to_lower b)) = before ⧺ QueryEscape externalURL ⧺ after.
Proof. intros Hrow Hnone. exact (derived_at _ adapters _ _ _ (QueryEscape externalURL) Hrow (default_names_distinct _) Hnone). Qed.
Lemma syncer_at adapters b f t m : (b, f) ∈ factories ->
  ad_UserSyncURL (default noAdapter (adapters !! to_lower b)) <> ""%string ->
  Parse (ad_UserSyncURL (default noAdapter (adapters !! to_lower b))) = inl t -> NewSyncerMap adapters = Some m -> m !! b = Some (f t).
Proof. intros Hf Hurl Hp Hm. exact (map_at _ _ _ _ _ _ _ Hf factories_distinct Hurl Hp Hm). Qed.
Lemma family_valid (syncers : gmap string Usersyncer) b s : syncers !! b = Some s -> FamilyName s ∈ validFamilyNames syncers.
Proof.
  intros Hs. apply elem_of_list_to_set, list_elem_of_fmap. exists s. split; [done|]. apply list_elem_of_fmap. exists (b, s).
  split; [done|]. by apply elem_of_map_to_list.
Qed.
End TableFacts.

(** ** A sync comes home *)
Section ComesHome.
Context `{HT : TextTemplate} {HTok : TextTemplateOk}.
Definition query_text (family rest : string) : string := "bidder=" ⧺ family ⧺ "&" ⧺ rest.
Lemma query_family family rest : all_bytes unreserved family = true -> Get (ParseQuery (query_text family rest)) "bidder" = family.
Proof.
  intros Hf. assert (pair_text ("bidder"%string, family) = "bidder=" ⧺ family) as Hp by (unfold pair_text; cbn [fst snd]; by rw (escape_unreserved _ Hf)).
  unfold query_text, ParseQuery. change ("bidder=" ⧺ family ⧺ "&" ⧺ rest) with ("bidder=" ⧺ family ⧺ String "&" rest).
  rw -str_app_assoc -Hp (split_query_cons _ _ (pair_text_no_separator _)). cbn [omap list_omap]. unfold pair_text.
  by rw parse_pair_text.
Qed.
Lemma query_consent family signal consent rest : all_bytes unreserved family = true ->
  all_bytes unreserved signal = true -> all_bytes unreserved consent = true ->
  let query := query_text family ("gdpr=" ⧺ signal ⧺ "&gdpr_consent=" ⧺ consent ⧺ "&" ⧺ rest) in
  Get (ParseQuery query) "gdpr" = signal /\ Get (ParseQuery query) "gdpr_consent" = consent.
Proof.
  intros Hf Hs Hc. cbn zeta.
  assert (forall k v, all_bytes unreserved k = true -> all_bytes unreserved v = true -> pair_text (k, v) = k ⧺ "=" ⧺ v) as Hp
    by (intros k v Hk Hv; unfold pair_text; cbn [fst snd]; by rw (escape_unreserved _ Hk) (escape_unreserved _ Hv)).
  assert (query_text family ("gdpr=" ⧺ signal ⧺ "&gdpr_consent=" ⧺ consent ⧺ "&" ⧺ rest) =
    pair_text ("bidder"%string, family) ⧺ String "&" (pair_text ("gdpr"%string, signal) ⧺ String "&"
      (pair_text ("gdpr_consent"%string, consent) ⧺ String "&" rest))) as ->.
  { by rw !Hp. }
  unfold ParseQuery. rw !(split_query_cons _ _ (pair_text_no_separator _)). cbn [omap list_omap]. unfold pair_text. rw !parse_pair_text //.
Qed.
Lemma bytes_expand params s l : expand params (bytes s ++ l) = String.append s <$> expand params l.
Proof. rw expand_app expand_bytes. cbn. by destruct (expand params l). Qed.

Lemma cut_tail q q1 q2 p tail : cut_parts q = (q1, q2) -> expand (policy_params p) q2 = Some tail ->
  tail = ""%string \/ GoStr.has_prefix "&" tail = true \/ GoStr.has_prefix "?" tail = true.
Proof.
  revert q1. induction q as [|x q IH]; intros q1; cbn; [intros [= <- <-]; cbn; intros [= <-]; by left|].
  case_bool_decide as Hx; [|by destruct (cut_parts q) as [a b]; intros [= <- <-]; eauto].
  intros [= <- <-]. destruct Hx as [->| ->]; cbn; destruct (expand _ q); try done; intros [= <-]; auto.
Qed.

(** What a template of this shape makes of the values of a page. *)
Lemma url_comes_home externalURL policies before after family p q q3 :
  scan_from Outside before = Some (Outside, p) -> known p = true -> scan after = Some q -> known q = true ->
  after_home after family = Some q3 -> plain_policies policies ->
  exists head redirect tail rest,
    expand (policy_params policies) (p ++ bytes (QueryEscape externalURL) ++ q) = Some (head ⧺ redirect ⧺ tail) /\
    (tail = ""%string \/ GoStr.has_prefix "&" tail = true \/ GoStr.has_prefix "?" tail = true) /\
    QueryUnescape redirect = Some (externalURL ⧺ "/setuid?" ⧺ query_text family rest) /\
    expand (policy_params policies) q3 = Some rest /\ q <> [].
Proof.
  intros Hp Kp Hq Kq Eh Hpol. unfold after_home in Eh. rw Hq in Eh. cbn [mbind option_bind] in Eh. rw Kq in Eh.
  destruct (cut_parts q) as [q1 q2] eqn:Ec. cbn [fst] in Eh. destruct (unescape_parts q1) as [q'|] eqn:Eu; [|done]. cbn [mbind option_bind] in Eh.
  assert (q <> []) as Hne by (intros ->; injection Ec as <- <-; by injection Eu as <-).
  destruct (expand_known policies p Kp Hpol) as [head Hhead].
  rw (cut_parts_app _ _ _ Ec) known_app andb_true_iff in Kq. destruct Kq as [K1 K2].
  destruct (expand_known policies q1 K1 Hpol) as [r Hr]. destruct (expand_known policies q2 K2 Hpol) as [tail Htail].
  destruct (expand_unescaped policies q1 q' r K1 Hpol Eu Hr) as (K' & r' & Hr' & Hun).
  rw (strip_app _ _ _ Eh) bytes_expand in Hr'. destruct (expand (policy_params policies) q3) as [rest|] eqn:Erest; [|done].
  injection Hr' as <-. exists head, (QueryEscape externalURL ⧺ r), tail, rest.
  split_and!; [|exact (cut_tail _ _ _ _ _ Ec Htail)| |done|done].
  - rw (cut_parts_app _ _ _ Ec) !expand_app Hhead expand_bytes Hr Htail. cbn [mbind option_bind]. by rw !str_app_assoc.
  - rw (unescape_app _ _ _ (unescape_escape externalURL)) Hun. cbn. unfold home, query_text. by rw !str_app_assoc.
Qed.
(** A row of the table, for the syncer that [factories] has for its bidder. *)
Lemma row_found bidder pid : no_brace pid = true -> bidder ∈ (default_usersyncs "").*1.*1 -> bidder ∉ strange_syncs ->
  exists before after p q, (bidder, before, after) ∈ default_usersyncs pid /\
    scan_from Outside before = Some (Outside, p) /\ known p = true /\ scan after = Some q /\ known q = true /\
    forall t : template, exists family syncType q3, (bidder, syncer family syncType) ∈ factories /\ all_bytes unreserved family = true /\
      GoStr.is_empty family = false /\ after_home after family = Some q3 /\ (bidder ∉ without_consent -> carries_consent q3 = true).
Proof.
  intros Hpid Hbid Hstrange. rw -(names_any pid) in Hbid. apply list_elem_of_fmap in Hbid as ([b before] & -> & Hb).
  apply list_elem_of_fmap in Hb as ([[b' before'] after] & [= -> ->] & Hrow). cbn [fst] in Hstrange |- *.
  pose proof (befores_scan pid Hpid) as Hbefore. rw list.Forall_forall in Hbefore. destruct (Hbefore _ Hrow) as (p & Hp & Kp).
  assert ((b', after) ∈ row_ends <$> default_usersyncs "") as Hends.
  { rw -(row_ends_any pid). apply list_elem_of_fmap. by exists (b', before', after). }
  destruct (afters_scan _ Hends) as (q & Hq & Kq). exists before', after, p, q. split_and!; try done. intros t.
  pose proof (proj1 (forallb_forall _ _) (rows_come_home t) _ (proj1 (list_elem_of_In _ _) Hends)) as Hhome.
  apply orb_true_iff in Hhome as [Hhome%bool_decide_eq_true|Hhome]; [done|].
  apply existsb_exists in Hhome as ([b f] & Hf%list_elem_of_In & Hhome). cbn beta iota in Hhome.
  apply andb_true_iff in Hhome as [[[->%eqb_eq Hfam]%andb_true_iff Hfam0%negb_true_iff]%andb_true_iff Hhome].
  destruct (factory_syncer _ _ Hf) as (family & syncType & ->). change (FamilyName (syncer family syncType t)) with family in *.
  destruct (after_home after family) as [q3|] eqn:Eh; [|done]. exists family, syncType, q3. split_and!; try done.
  intros Hc. by apply orb_true_iff in Hhome as [?%bool_decide_eq_true|?].
Qed.

(** C29: a sync comes home.  For every bidder whose sync URL the server makes up,
    three aside: the map of syncers has a syncer for it, and the URL that a page
    is given holds an address that, once decoded, is the server's own [/setuid]
    with the family name that this syncer is stored under and that [/setuid]
    accepts, whatever the server's address; and it brings along what the page
    said about GDPR, but for eleven bidders.  This is for values of letters,
    digits, [-], [.], [_] and [~], which the signals and the consent strings of
    the IAB are made of: the templates do not escape the values, so a value
    with another byte can come home cut ([reserved_consent_cut]). *)
Theorem default_syncs_come_home externalURL adapters bidder policies syncers :
  bidder ∈ (default_usersyncs "").*1.*1 -> bidder ∉ strange_syncs ->
  ad_UserSyncURL (default noAdapter (adapters !! to_lower bidder)) = ""%string ->
  no_brace (lockerdome_id adapters) = true ->
  plain_policies policies ->
  NewSyncerMap (setDerivedDefaults externalURL adapters) = Some syncers ->
  exists s info head redirect tail query, syncers !! bidder = Some s /\ GetUsersyncInfo s policies = inl info /\
    ui_URL info = head ⧺ redirect ⧺ tail /\ (tail = ""%string \/ GoStr.has_prefix "&" tail = true \/ GoStr.has_prefix "?" tail = true) /\
    QueryUnescape redirect = Some (externalURL ⧺ "/setuid?" ⧺ query) /\
    getFamilyName (ParseQuery query) (validFamilyNames syncers) = inl (FamilyName s) /\
    (bidder ∉ without_consent ->
       Get (ParseQuery query) "gdpr" = pp_Signal policies /\ Get (ParseQuery query) "gdpr_consent" = pp_Consent policies).
Proof.
  intros Hbid Hstrange Hnone Hpid Hpol Hmap.
  destruct (row_found bidder _ Hpid Hbid Hstrange) as (before & after & p & q & Hrow & Hp & Kp & Hq & Kq & Hhome).
  pose proof (default_at externalURL adapters _ _ _ Hrow Hnone) as Hurl.
  assert (scan (before ⧺ QueryEscape externalURL ⧺ after) = Some (p ++ bytes (QueryEscape externalURL) ++ q)) as Hscan.
  { apply (scan_app _ _ _ _ Hp), scan_app; [|exact Hq]. apply scan_from_text, escape_no_brace. }
  destruct (fields_ok _ _ Hscan) as (t & Ht & Hx). destruct (Hhome t) as (family & syncType & q3 & Hf & Hfam & Hfam0 & Eh & Hc).
  destruct (url_comes_home externalURL policies _ _ _ _ _ _ Hp Kp Hq Kq Eh Hpol) as (head & redirect & tail & rest & Hex & Htail & Hun & Hrest & Hne).
  assert (syncers !! bidder = Some (syncer family syncType t)) as Hs.
  { refine (syncer_at _ _ _ _ _ Hf _ _ Hmap); rw Hurl; [|exact Ht].
    intros He. rw He in Hscan. injection Hscan as Hnil. symmetry in Hnil. by apply app_nil in Hnil as [_ [_ ?]%app_nil]. }
  specialize (Hx (policy_params policies)). rw Hex in Hx.
  exists (syncer family syncType t), (mkUsersyncInfo (head ⧺ redirect ⧺ tail) syncType false), head, redirect, tail, (query_text family rest).
  split_and!; [exact Hs| |reflexivity|exact Htail|exact Hun| |].
  - cbn [GetUsersyncInfo syncer NewSyncer]. unfold ResolveMacros. unfold policy_params in Hx. by rw Hx.
  - unfold getFamilyName. rw (query_family _ _ Hfam) Hfam0. by rw (bool_decide_eq_true_2 _ (family_valid _ _ _ Hs)).
  - intros Hcons. destruct (carries_inv _ (Hc Hcons)) as [q4 ->].
    destruct (policy_params_at policies) as (P1 & P2 & _). destruct Hpol as (S1 & S2 & _).
    rw bytes_expand in Hrest. cbn [expand expand_part] in Hrest. rw P1 in Hrest. cbn [mbind option_bind] in Hrest.
    rw bytes_expand in Hrest. cbn [expand expand_part] in Hrest. rw P2 in Hrest. cbn [mbind option_bind] in Hrest.
    destruct (expand (policy_params policies) q4) as [t4|]; [|done]. injection Hrest as <-. exact (query_consent family _ _ t4 Hfam S1 S2).
Qed.
End ComesHome.

(** ** Concrete syncs *)
Definition demo_syncers : gmap string Usersyncer := default ∅ (@NewSyncerMap fields_only (setDerivedDefaults "https://pbs.example.com" ∅)).
Definition demo_policies : Policies := mkPolicies "1" "BOEFEAyOEFEAyAHABDENAI4AAAB9vABAASA" "1NYN".
Lemma demo_syncers_made : exists syncers, @NewSyncerMap fields_only (setDerivedDefaults "https://pbs.example.com" ∅) = Some syncers.
Proof.
  assert (match @NewSyncerMap fields_only (setDerivedDefaults "https://pbs.example.com" ∅) with Some _ => true | None => false end = true) as H by (by vm_compute).
  destruct (@NewSyncerMap fields_only (setDerivedDefaults "https://pbs.example.com" ∅)) as [m|]; [by exists m|done].
Qed.
Lemma default_syncs_come_home_witness : exists syncers s redirect query, syncers !! "appnexus"%string = Some s /\
  QueryUnescape redirect = Some ("https://pbs.example.com" ⧺ "/setuid?" ⧺ query) /\
  getFamilyName (ParseQuery query) (validFamilyNames syncers) = inl (FamilyName s) /\
  Get (ParseQuery query) "gdpr_consent" = pp_Consent demo_policies.
Proof.
  destruct demo_syncers_made as [syncers Hm]. exists syncers.
  destruct (@default_syncs_come_home fields_only fields_only_ok "https://pbs.example.com" ∅ "appnexus" demo_policies syncers)
    as (s & info & head & redirect & tail & query & Hs & _ & _ & _ & Hu & Hf & Hc).
  - apply (bool_decide_unpack _). vm_compute. exact I.
  - apply (bool_decide_unpack _). vm_compute. exact I.
  - reflexivity.
  - reflexivity.
  - split; [|split]; vm_compute; reflexivity.
  - exact Hm.
  - exists s, redirect, query. split; [exact Hs|]. split; [exact Hu|]. split; [exact Hf|]. apply Hc. apply (bool_decide_unpack _).
    vm_compute. exact I.
Defined.
Definition demo_sync (bidder : string) : option string :=
  s ← demo_syncers !! bidder; match GetUsersyncInfo s demo_policies with inl info => Some (ui_URL info) | inr _ => None end.
Example appnexus_sync : demo_sync "appnexus" =
  Some "https://ib.adnxs.com/getuid?https%3A%2F%2Fpbs.example.com%2Fsetuid%3Fbidder%3Dadnxs%26gdpr%3D1%26gdpr_consent%3DBOEFEAyOEFEAyAHABDENAI4AAAB9vABAASA%26uid%3D%24UID"%string.
Proof. by vm_compute. Qed.
(** A page whose consent string has a separator in it: what comes home to
    [/setuid] is the part before it. *)
Definition comes_home_with (bidder prefix : string) (policies : Policies) : option string :=
  s ← demo_syncers !! bidder;
  match GetUsersyncInfo s policies with
  | inl info =>
      redirect ← QueryUnescape (GoStr.drop (GoStr.len prefix) (ui_URL info));
      Some (Get (ParseQuery (GoStr.drop (GoStr.len "https://pbs.example.com/setuid?") redirect)) "gdpr_consent")
  | inr _ => None
  end.
Example reserved_consent_cut :
  comes_home_with "appnexus" "https://ib.adnxs.com/getuid?" (mkPolicies "1" "C&D" "1NYN") = Some "C"%string /\
  comes_home_with "appnexus" "https://ib.adnxs.com/getuid?" (mkPolicies "1" "C-D" "1NYN") = Some "C-D"%string.
Proof. by vm_compute. Qed.
(** Two defaults name a family that [/setuid] does not know. *)
Example syncs_refused :
  (getFamilyName (ParseQuery "bidder=beintoo&uid=1") (validFamilyNames demo_syncers),
   getFamilyName (ParseQuery "bidder=triplelift_native&gdpr=1&gdpr_consent=C&uid=1") (validFamilyNames demo_syncers)) =
  (inr (EPlain "The bidder name provided is not supported by Prebid Server"),
   inr (EPlain "The bidder name provided is not supported by Prebid Server")).
Proof. by vm_compute. Qed.
(** And one has the signal and the consent string change places. *)
Example sonobi_sync : demo_sync "sonobi" =
  Some "https://sync.go.sonobi.com/us.gif?loc=https%3A%2F%2Fpbs.example.com%2Fsetuid%3Fbidder%3Dsonobi%26consent_string%3D1%26gdpr%3DBOEFEAyOEFEAyAHABDENAI4AAAB9vABAASA%26uid%3D%5BUID%5D"%string.
Proof. by vm_compute. Qed.
